(* ===== verification/_CoqProject ===== *)
-Q . S2P
Prelude.v
Bytes.v
FsFormat.v
Mmu.v
Traps.v
Memory.v
Seg.v
Kstate.v
Kalloc.v
PageTable.v
Uvm.v
UvmFree.v
Boot.v
Mp.v
Cow.v
VmTheorems.v
Spinlock.v
Pipe.v
Console.v
Kbd.v
Irq.v
Lapic.v
Bio.v
Memide.v
Device.v
Log.v
Fs.v
Inode.v
Condev.v
InodeData.v
Dir.v
FsTheorems.v
Mkfs.v
MkfsFiles.v
MkfsBoot.v
Kernel.v
Sched.v
File.v
Proc.v
Syscall.v
Sysproc.v
Sysfile.v
Exec.v
Trap.v
Smp.v
Signal.v
ProcTheorems.v
FdRefs.v
Fork.v
ExecMem.v
Userinit.v
ExecLoad.v
ExecArgs.v
ExecSpec.v
Bootmain.v
Main.v
MainSpec.v
Switch.v
Umalloc.v
Ulib.v
User.v
Utils.v
Procdump.v
Grep.v
Sh.v
ShRun.v
