(* ===== verification/Prelude.v ===== *)
(** * xv6 with mprotect, cowfork and signals: a verification development

    The program is the xv6 kernel for x86 with three additions: the system call
    mprotect, a copy-on-write fork (cowfork), and user signal handlers.  With it come
    user programs, among them a shell, and mkfs, which builds the file system on the build
    host.  The C sources are the files of src/.  This library models them as Rocq
    functions and proves what their parts promise each other and their callers.

    ** How code is modelled

    A routine is a function in the monad [M S A] of this file: from a state it either
    returns a value and a state ([Done]) or stops ([Stop]): by a panic, by a page fault in
    the kernel, by going to sleep, by a loss of power, or because the fuel of a loop ran
    out ([Diverged]).  Integers are [Z], with the wrap-around of the C types written out
    ([u32], [s32], [u8], [s8], [s16]).  Kernel memory is a finite map of bytes; page tables, the
    free list and trap frames live in it, as in the machine.  [wp c s Q E] says that [c]
    from [s] returns with [Q] or stops with [E]; [returns c s Q] that it returns, with [Q].
    Locks a routine takes are a list in the state, so that taking one twice or
    releasing one not held panics as in the code.

    A routine that sleeps stops with [Blocked]; the code it runs when it is woken is its
    loop again, a definition of its own ([wait_from], [sleep_round], [pipewrite_from],
    [consoleread_from], ...).  Interleavings are step relations over these pieces.

    ** The files

    - Prelude, Bytes: the monad and its tactics; numbers in little-endian bytes.
    - FsFormat: fs.h, the disk format.
    - Mmu, Traps, Memory: mmu.h, memlayout.h; traps.h; string.c and the loads and stores of C.
    - Seg: struct cpu and its descriptor table as bytes - seginit and switchuvm of vm.c.
    - Kstate, Kalloc: the memory-side state; kalloc.c.
    - PageTable, Uvm, UvmFree, Boot, Cow: vm.c - page tables, user memory, its
      release, the set-up of memory in main.c, mprotect and cowfork.  VmTheorems has
      the theorems of this group.
    - Mp: mp.c, the search for the processors of the machine.
    - Spinlock: spinlock.c, instruction by instruction on any number of CPUs.
    - Pipe: pipe.c with readers and writers in any order.
    - Console, Kbd, Condev: console.c (printing, the screen, line editing), printf.c, atoi;
      kbd.c; console.c as the device the kernel calls, and panic.
    - Irq, Lapic: picirq.c, ioapic.c, timer.c, uart.c and the start of ide.c; lapic.c with the
      clock.  Bootmain: the boot loader.  Main, MainSpec: main.c on the state of all processors, with
      Userinit for the first process.  Switch: swtch.S, trapasm.S and vectors.S on registers and stacks.
    - Bio, Memide, Device, Log: bio.c and ide.c; memide.c; the disk with pinned blocks the
      cache implements; log.c on that disk, with power failures.
    - Fs, Inode, InodeData, Dir: fs.c on the logical blocks of a transaction - the block
      allocator, inodes, file contents, directories and paths.  FsTheorems has the
      theorems on blocks, directories and paths.
    - Mkfs, MkfsFiles, MkfsBoot: mkfs.c; the files of the image while it is built; the
      image as the kernel finds it.
    - Kernel: the state of the kernel as a whole.  The process table is kept as the words
      of [ptable.proc], 35 to a slot, so that an index past the end of an array in struct
      proc reaches the word that is there.  User addresses go through the page table.
    - Sched, File, Proc, Syscall, Sysproc, Sysfile, Exec, Trap: proc.c, file.c,
      syscall.c, sysproc.c, sysfile.c, exec.c and trap.c over that state.
    - Smp: the routines of proc.c on several CPUs.  Signal: delivery of a signal and the
      restorer of ulib.c.  ProcTheorems: allocproc, handlers and page faults.  FdRefs:
      descriptors and reference counts.  Fork: fork as a whole.  ExecMem, ExecLoad,
      ExecArgs, ExecSpec: an address space under construction, the segments, the stack,
      and exec as a whole.
    - Procdump: the process listing of proc.c.
    - User, Utils: a program as the tree of its system calls, and a world that answers them;
      cat.c, wc.c, ls.c, echo.c, kill.c, ln.c, mkdir.c, rm.c, init.c, zombie.c and shutdown.c.
    - Umalloc: umalloc.c over the memory of a program.  Ulib: strings of ulib.c.  Grep: grep.c.  Sh, ShRun: the parser of sh.c; its commands as
      the system calls of processes, and their effect on descriptors.

    ** What is shown

    - Start: the boot loader loads the kernel (C32); main brings up every processor and makes
      the first process (C13), which gets to user mode ([first_process_enters]); a trap leaves
      and finds the user's registers in the trap frame (C14) and swtch comes back ([swtch_roundtrip]); segments, and the stack a trap
      takes ([seginit_spec], C33); lemmas on the masks and tables of the interrupt controllers,
      the serial port, the start of the disk driver and of the other processors, and the clock
      ([pic_masks], [ioapic_tables], [uartintr_ok], [ideinit_ok], [lapicinit_ok],
      [lapicstartap_ok], [cmos_loop_sound]).
    - Memory: the allocator is a stack of pages (C22; [kfree_panics] for other addresses); mappages, allocuvm,
      deallocuvm, freevm and copyuvm do what their callers need and keep the invariant of
      an address space, [uvm_wf] (C4, C23, [deallocuvm_spec], C24, [mappages_spec]); boot establishes it
      ([boot_memory]); mprotect and the two halves of copy-on-write do what they do (C36,
      C37, C38), which is not always what they mean: see the lemmas after them.
    - Concurrency: mutual exclusion and lock discipline (C9, C39); a process runs on one
      CPU at a time and wait misses no exit (C3, C10); pipes lose no bytes and, with no
      kill, no wakeup (C25, C26).
    - Disk: the cache implements the disk (C6, C7) on a driver that serves a queue;
      transactions are atomic under any sequence of power failures and fit the log that is
      reserved for them (C1, C27).
    - Files: what is written is read back, by inode and through file.c (C2, C8);
      allocation of blocks (C29), directories (C28) and paths ([skipelem_spec]); mkfs builds a
      well-formed file system, and the kernel finds and reads its files (C21, C20).
    - Processes and system calls: new processes (C35) and fork (C11), exec
      (C12, C34), arguments (C31),
      reference counts of open files (C5), signals (C30).
    - Console: printed numbers are read back, the input buffer is a queue of lines (C40,
      [consoleread_refines], [printint_atoi]); lemmas on the screen, on the two printf and on the keyboard.
    - User programs: malloc and free give disjoint blocks and lose none (C16); the shell's
      parser always ends, with a tree or a syntax error, and reads back what was printed
      (C18, [sh_parse_print]); a line starts the programs it names with the files and
      pipes it names (C17); grep's matcher is right (C19); cat, wc and ls print what
      they should however reads are cut ([cat_main_spec], C15, [ls_ok]).

    Where the code does something it should not, a lemma says so: allocproc overwrites a
    field of the next process (C35, [exit_faults]), signal_register any field of any
    process ([signal_register_any_field]), page faults without handler are ignored
    ([page_fault_ignored]), mprotect reaches the kernel and may not end
    ([mprotect_opens_kernel], [mprotect_no_return]), argptr takes negative sizes
    ([argptr_negative_size]), a killed writer loses a wakeup, the log is one block short,
    balloc hands out the log's blocks, filewrite's pieces are larger than a transaction
    may be, mkfs puts files into the log area and may leave a hole in the root directory
    ([mkfs_fills_log], [mkfs_root_hole]), mpinit may not end and writes past cpus[]
    ([mp_unknown_loops], [mp_ninth]), exec loses a page each time (C12) and copies a
    crafted program over the kernel ([load_segments_kernel]), malloc wraps around ([malloc_wraps]), and grep takes
    old bytes for lines, also those of another file ([grep_stale], [grep_two_files]).

    ** Fuel

    Loops that are not structural have fuel computed from their bounds: pages of a range,
    bytes of a transfer, entries of a directory, elements of a path, sectors of an area;
    the parser of the shell has four turns for each character and four more, which
    C18 shows to be enough; the allocator takes its fuel as an argument, and
    C16 says how much is enough for a heap.  Where a theorem says that a routine
    returns, the fuel was enough; the loops that do not end are [mprotect_no_return] and
    [mp_unknown_loops], for every fuel.  Loops over tables run over the list of slots.

    ** What is not modelled

    The assembly that runs before C code can (bootasm.S, entry.S, entryother.S), the stubs of usys.S and
    initcode.S, and the tests.  What a device answers is an
    argument; its registers are the record of what was written to them.  In the state of
    Kernel.v routines of devices and code addresses are parameters.
    The file system works on the blocks as a transaction sees them: Bio, Device and Log show
    that the cache, the disk and the log implement these blocks, and in the state of
    Kernel.v a transaction is only the list of blocks it has logged. *)

From stdpp Require Export base tactics option list gmap strings.
From Stdlib Require Export ZArith Lia.
From Stdlib Require Import FunctionalExtensionality.
#[global] Open Scope Z_scope.

(** ** Outcomes of kernel code

    A kernel routine either returns or stops.  It stops because it called
    [panic], because the hardware raised a page fault the routine does not
    handle, because it went to [sleep] on a channel, because the machine lost
    power, or because the fuel of a loop ran out (no theorem of the development
    concludes from that case: the theorems on loops show that the fuel given is
    enough). *)

Inductive stop : Type :=
| Panicked (msg : string)
| Faulted (va : Z)
| Blocked (chan : Z)
| Crashed
| Diverged.

Inductive outcome (S A : Type) : Type :=
| Done (a : A) (s : S)
| Stop (w : stop) (s : S).
Arguments Done {S A} a s.
Arguments Stop {S A} w s.

Definition M (S A : Type) : Type := S -> outcome S A.

Section monad.
Context {S : Type}.

Definition ret {A} (a : A) : M S A := fun s => Done a s.

Definition bind {A B} (c : M S A) (k : A -> M S B) : M S B :=
  fun s => match c s with
           | Done a s' => k a s'
           | Stop w s' => Stop w s'
           end.

Definition gets {A} (f : S -> A) : M S A := fun s => Done (f s) s.
Definition modify (f : S -> S) : M S unit := fun s => Done tt (f s).
Definition halt {A} (w : stop) : M S A := fun s => Stop w s.
Definition panic {A} (msg : string) : M S A := halt (Panicked msg).

(** The state a computation ends in, whichever way it ends. *)
Definition final {A} (o : outcome S A) : S :=
  match o with Done _ s => s | Stop _ s => s end.
End monad.

Declare Scope kernel_scope.
Delimit Scope kernel_scope with kernel.
Notation "'let!' x := c 'in' k" := (bind c (fun x => k))
  (at level 10, x name, c at level 100, k at level 200,
   format "'[v' 'let!'  x  :=  c  'in' '/' k ']'") : kernel_scope.
Notation "'let!' ' p := c 'in' k" := (bind c (fun x => match x with p => k end))
  (at level 10, p strict pattern, c at level 100, k at level 200)
  : kernel_scope.
Notation "c ;; k" := (bind c (fun _ => k))
  (at level 100, k at level 200, right associativity,
   format "'[v' c  ;; '/' k ']'") : kernel_scope.
#[global] Open Scope kernel_scope.

(** ** Weakest preconditions

    [wp c s Q E]: run from [s], [c] either returns [a] in [s'] with [Q a s']
    or stops for reason [w] in [s'] with [E w s'].  [returns c s Q] is the total
    form: [c] returns, without stopping, in a state that satisfies [Q]. *)

Definition wp {S A} (c : M S A) (s : S) (Q : A -> S -> Prop) (E : stop -> S -> Prop)
  : Prop :=
  match c s with
  | Done a s' => Q a s'
  | Stop w s' => E w s'
  end.

Definition returns {S A} (c : M S A) (s : S) (Q : A -> S -> Prop) : Prop :=
  wp c s Q (fun _ _ => False).

Section wp.
Context {S A : Type}.
Implicit Types (s : S) (E : stop -> S -> Prop).

Lemma wp_ret (a : A) s (Q : A -> S -> Prop) E : Q a s -> wp (ret a) s Q E.
Proof. done. Qed.

Lemma wp_bind {B} (c : M S A) (k : A -> M S B) s (Q : B -> S -> Prop) E :
  wp c s (fun a s' => wp (k a) s' Q E) E -> wp (bind c k) s Q E.
Proof. unfold wp, bind. by destruct (c s). Qed.

Lemma wp_bind_inv {B} (c : M S A) (k : A -> M S B) s (Q : B -> S -> Prop) E :
  wp (bind c k) s Q E -> wp c s (fun a s' => wp (k a) s' Q E) E.
Proof. unfold wp, bind. by destruct (c s). Qed.

Lemma wp_gets {B} (f : S -> B) s (Q : B -> S -> Prop) E :
  Q (f s) s -> wp (gets f) s Q E.
Proof. done. Qed.

Lemma wp_modify (f : S -> S) s (Q : unit -> S -> Prop) E :
  Q tt (f s) -> wp (modify f) s Q E.
Proof. done. Qed.

Lemma wp_halt w s (Q : A -> S -> Prop) E : E w s -> wp (halt w) s Q E.
Proof. done. Qed.

Lemma wp_mono (c : M S A) s (Q Q' : A -> S -> Prop) E E' :
  wp c s Q E ->
  (forall a s', Q a s' -> Q' a s') ->
  (forall w s', E w s' -> E' w s') ->
  wp c s Q' E'.
Proof. unfold wp. destruct (c s); auto. Qed.

Lemma returns_done (c : M S A) s (Q : A -> S -> Prop) :
  returns c s Q <-> exists a s', c s = Done a s' /\ Q a s'.
Proof.
  unfold returns, wp. destruct (c s) as [a s'|w s'].
  - split; [by eauto | by intros (? & ? & [= -> ->] & ?)].
  - split; [done | by intros (? & ? & ? & ?)].
Qed.

Lemma wp_run (c : M S A) s a s' (Q : A -> S -> Prop) E :
  c s = Done a s' -> Q a s' -> wp c s Q E.
Proof. unfold wp. by intros ->. Qed.

Lemma returns_run (c : M S A) s a s' (Q : A -> S -> Prop) :
  c s = Done a s' -> Q a s' -> returns c s Q.
Proof. unfold returns, wp. by intros ->. Qed.

Lemma returns_eq (c : M S A) s a s' :
  returns c s (fun a1 s1 => a1 = a /\ s1 = s') -> c s = Done a s'.
Proof. unfold returns, wp. destruct (c s); [by intros [-> ->]|done]. Qed.

Lemma returns_mono (c : M S A) s (Q Q' : A -> S -> Prop) :
  returns c s Q -> (forall a s', Q a s' -> Q' a s') -> returns c s Q'.
Proof. intros H HQ. eapply wp_mono; eauto. Qed.
End wp.

Lemma returns_and {S A} (c : M S A) s (P Q : A -> S -> Prop) (E : stop -> S -> Prop) : returns c s P -> wp c s Q E -> returns c s (fun a t => P a t /\ Q a t).
Proof. unfold returns, wp. by destruct (c s). Qed.

Lemma returns_bind {S A B} (c : M S A) (k : A -> M S B) s (P : A -> S -> Prop) (Q : B -> S -> Prop) :
  returns c s P -> (forall a t, P a t -> returns (k a) t Q) -> returns (let! x := c in k x) s Q.
Proof. intros Hc Hk. apply wp_bind. eapply wp_mono; [exact Hc|exact Hk|done]. Qed.

Lemma returns_gets {S A} (f : S -> A) s (Q : A -> S -> Prop) : Q (f s) s -> returns (gets f) s Q.
Proof. done. Qed.

Lemma returns_modify {S} (f : S -> S) s (Q : unit -> S -> Prop) : Q tt (f s) -> returns (modify f) s Q.
Proof. done. Qed.

Lemma returns_modify_bind {S B} (f : S -> S) (k : M S B) s (Q : B -> S -> Prop) : returns k (f s) Q -> returns (modify f ;; k) s Q.
Proof. done. Qed.

Lemma bind_run {S A B} (c : M S A) (f : A -> M S B) s a s' : c s = Done a s' -> bind c f s = f a s'.
Proof. unfold bind. by intros ->. Qed.

(** ** Tactics

    [step] takes one bind of a program under [wp]; [steps] runs it as far as
    the program is a straight line; [done_in] closes an execution that is
    known to return. *)

Ltac step :=
  match goal with
  | |- returns _ _ _ => unfold returns
  | |- wp (bind _ _) _ _ _ => apply wp_bind
  | |- wp (ret _) _ _ _ => apply wp_ret
  | |- wp (gets _) _ _ _ => apply wp_gets
  | |- wp (modify _) _ _ _ => apply wp_modify
  | |- wp (halt _) _ _ _ => apply wp_halt
  | |- wp (panic _) _ _ _ => apply wp_halt
  end.
Ltac steps := repeat (step; cbn beta).

(** Destruct the boolean tests of the goal, turning them into propositions. *)
Ltac bool_prop :=
  repeat match goal with
  | H : (_ =? _) = true |- _ => apply Z.eqb_eq in H
  | H : (_ =? _) = false |- _ => apply Z.eqb_neq in H
  | H : (_ <? _) = true |- _ => apply Z.ltb_lt in H
  | H : (_ <? _) = false |- _ => apply Z.ltb_ge in H
  | H : (_ <=? _) = true |- _ => apply Z.leb_le in H
  | H : (_ <=? _) = false |- _ => apply Z.leb_gt in H
  | H : negb _ = true |- _ => apply negb_true_iff in H
  | H : negb _ = false |- _ => apply negb_false_iff in H
  | H : (_ && _)%bool = true |- _ => apply andb_true_iff in H as [? ?]
  | H : (_ || _)%bool = false |- _ => apply orb_false_iff in H as [? ?]
  end.

(** Evaluate the closed powers of two, which [lia] does not read as constants
    under a quotient. *)
Ltac is_ground_Z n :=
  lazymatch n with
  | Z0 => idtac | Zpos _ => idtac | Zneg _ => idtac
  end.
Ltac pows :=
  repeat match goal with
  | |- context [2 ^ ?n] => is_ground_Z n;
      let v := eval vm_compute in (2 ^ n) in change (2 ^ n) with v
  | H : context [2 ^ ?n] |- _ => is_ground_Z n;
      let v := eval vm_compute in (2 ^ n) in change (2 ^ n) with v in H
  end.

(** [lia] that knows quotients and remainders by constants. *)
Ltac zlia := pows; Z.div_mod_to_equations; lia.

(** The lemmas the components register for [auto] and [eauto]. *)
Create HintDb xv6.

(** ** Machine integers

    A [uint] is an integer in [0, 2^32); arithmetic on it is followed by
    [u32].  An [int] is the signed reading [s32] of the same 32 bits, a [char]
    is read signed by [s8]. *)

Definition u32 (x : Z) : Z := x mod 2 ^ 32.
Definition s32 (x : Z) : Z := if u32 x <? 2 ^ 31 then u32 x else u32 x - 2 ^ 32.
Definition u16 (x : Z) : Z := x mod 2 ^ 16.
Definition u8 (x : Z) : Z := x mod 2 ^ 8.
Definition s8 (x : Z) : Z := if u8 x <? 2 ^ 7 then u8 x else u8 x - 2 ^ 8.

Lemma u32_range x : 0 <= u32 x < 2 ^ 32.
Proof. unfold u32. apply Z.mod_pos_bound. lia. Qed.

Lemma u32_small x : 0 <= x < 2 ^ 32 -> u32 x = x.
Proof. intros. unfold u32. by apply Z.mod_small. Qed.

Lemma u32_u32 x : u32 (u32 x) = u32 x.
Proof. apply u32_small, u32_range. Qed.

Lemma u32_add_l x y : u32 (u32 x + y) = u32 (x + y).
Proof. unfold u32. apply Zplus_mod_idemp_l. Qed.

Lemma u32_sub_l x y : u32 (u32 x - y) = u32 (x - y).
Proof. unfold u32. apply Zminus_mod_idemp_l. Qed.

Lemma s32_range x : - 2 ^ 31 <= s32 x < 2 ^ 31.
Proof. unfold s32. pose proof (u32_range x). case_match; bool_prop; lia. Qed.

Lemma u32_s32 x : u32 (s32 x) = u32 x.
Proof.
  unfold s32. pose proof (u32_range x). case_match; [apply u32_u32|].
  unfold u32 at 1. rewrite <- (Z_mod_plus_full _ 1), Z.mod_small; lia.
Qed.

Lemma s32_small x : 0 <= x < 2 ^ 31 -> s32 x = x.
Proof.
  intros. unfold s32. rewrite u32_small by lia. case_match; bool_prop; lia.
Qed.

Create Rewrite HintDb u32.
#[export] Hint Rewrite u32_u32 u32_add_l u32_sub_l u32_s32 : u32.

(** ** Bits

    Masks with a single bit and masks that clear the low bits, the two shapes
    the macros of mmu.h use. *)

Lemma land_pow2 x k : 0 <= k -> Z.land x (2 ^ k) = if Z.testbit x k then 2 ^ k else 0.
Proof.
  intros Hk. apply Z.bits_inj'. intros i Hi.
  rewrite Z.land_spec, Z.pow2_bits_eqb by done.
  destruct (Z.eqb_spec k i) as [->|Hne].
  - destruct (Z.testbit x i); rewrite ?Z.pow2_bits_true, ?Z.bits_0 by done; done.
  - rewrite andb_false_r.
    destruct (Z.testbit x k); rewrite ?Z.pow2_bits_false, ?Z.bits_0 by lia; done.
Qed.

Lemma land_pow2_eqb0 x k : 0 <= k -> (Z.land x (2 ^ k) =? 0) = negb (Z.testbit x k).
Proof.
  intros Hk. rewrite land_pow2 by done.
  destruct (Z.testbit x k); [|done].
  apply Z.eqb_neq. pose proof (Z.pow_pos_nonneg 2 k). lia.
Qed.

Lemma land_himask x n : 0 <= n <= 32 -> 0 <= x < 2 ^ 32 ->
  Z.land x (2 ^ 32 - 2 ^ n) = x - x mod 2 ^ n.
Proof.
  intros Hn Hx.
  replace (2 ^ 32 - 2 ^ n) with (Z.shiftl (Z.ones (32 - n)) n); last first.
  { rewrite Z.shiftl_mul_pow2, Z.ones_equiv by lia.
    replace (2 ^ 32) with (2 ^ (32 - n) * 2 ^ n); [lia|].
    rewrite <- Z.pow_add_r by lia. f_equal; lia. }
  rewrite (Z.mod_eq x (2 ^ n)) by (apply Z.pow_nonzero; lia).
  replace (x - (x - 2 ^ n * (x / 2 ^ n))) with (x / 2 ^ n * 2 ^ n) by lia.
  rewrite <- Z.shiftr_div_pow2, <- Z.shiftl_mul_pow2 by lia.
  apply Z.bits_inj'. intros i Hi. rewrite Z.land_spec, !Z.shiftl_spec by done.
  destruct (Z.ltb_spec i n) as [Hlt|Hge].
  - rewrite !(Z.testbit_neg_r _ (i - n)) by lia. apply andb_false_r.
  - rewrite Z.shiftr_spec by lia. replace (i - n + n) with i by lia.
    destruct (Z.ltb_spec i 32) as [Hlt|Hge'].
    + rewrite Z.ones_spec_low by lia. apply andb_true_r.
    + rewrite Z.ones_spec_high, andb_false_r by lia. symmetry.
      destruct (decide (x = 0)) as [->|]; [apply Z.bits_0|].
      apply Z.bits_above_log2; [lia|]. apply Z.log2_lt_pow2; [lia|].
      apply Z.lt_le_trans with (2 ^ 32); [lia|]. apply Z.pow_le_mono_r; lia.
Qed.

(** Aligned address plus flags below the alignment. *)
Lemma lor_aligned a f n : 0 <= n -> a mod 2 ^ n = 0 -> 0 <= f < 2 ^ n ->
  Z.lor a f = a + f.
Proof.
  intros Hn Ha Hf. rewrite <- Z.lxor_lor, Z.add_nocarry_lxor; try done.
  all: apply Z.bits_inj'; intros i Hi; rewrite Z.land_spec, Z.bits_0.
  all: destruct (Z.ltb_spec i n) as [Hlt|Hge].
  all: try (rewrite <- (Z.mod_pow2_bits_low a n i), Ha, Z.bits_0 by lia; done).
  all: rewrite <- (Z.mod_small f (2 ^ n)), (Z.mod_pow2_bits_high f n i) by lia.
  all: apply andb_false_r.
Qed.

Lemma lor_u32 a b : 0 <= a < 2 ^ 32 -> 0 <= b < 2 ^ 32 -> 0 <= Z.lor a b < 2 ^ 32.
Proof.
  intros Ha Hb. split; [apply Z.lor_nonneg; lia|].
  destruct (decide (Z.lor a b = 0)) as [->|Hne]; [lia|].
  assert (0 <= Z.lor a b) by (apply Z.lor_nonneg; lia).
  apply Z.log2_lt_pow2; [lia|]. rewrite Z.log2_lor by lia.
  apply Z.max_lub_lt.
  - destruct (decide (a = 0)) as [->|]; [done|]. apply Z.log2_lt_pow2; lia.
  - destruct (decide (b = 0)) as [->|]; [done|]. apply Z.log2_lt_pow2; lia.
Qed.

Lemma below_shiftr n x : 0 <= n -> 0 <= x < 2 ^ n <-> 0 <= x /\ Z.shiftr x n = 0.
Proof.
  intros Hn. rewrite Z.shiftr_div_pow2 by done. split.
  - intros H. split; [lia|]. by apply Z.div_small.
  - intros [H0 H]. split; [done|]. apply Z.div_small_iff in H; [lia|]. pose proof (Z.pow_pos_nonneg 2 n). lia.
Qed.

Lemma land_below n a b : 0 <= n -> 0 <= a < 2 ^ n -> 0 <= Z.land a b < 2 ^ n.
Proof.
  intros Hn [Ha1 Ha2]%below_shiftr; [|done]. apply below_shiftr; [done|].
  rewrite Z.shiftr_land, Ha2. split; [apply Z.land_nonneg; by left|done].
Qed.

Lemma land_u32 a b : 0 <= a < 2 ^ 32 -> 0 <= b -> 0 <= Z.land a b < 2 ^ 32.
Proof.
  intros Ha Hb. split; [apply Z.land_nonneg; lia|].
  assert (0 <= Z.land a b) by (apply Z.land_nonneg; lia).
  destruct (decide (Z.land a b = 0)) as [->|Hne]; [lia|].
  apply Z.log2_lt_pow2; [lia|].
  apply Z.le_lt_trans with (Z.log2 a).
  - pose proof (Z.log2_land a b). lia.
  - destruct (decide (a = 0)) as [->|]; [done|]. apply Z.log2_lt_pow2; lia.
Qed.

(** ** Functions changed at one point *)

Section upd.
Context {A B : Type} `{EqDecision A}.

Definition upd (i : A) (x : B) (f : A -> B) : A -> B := fun j => if decide (j = i) then x else f j.

Lemma upd_eq i x f : upd i x f i = x.
Proof. unfold upd. by rewrite decide_True. Qed.

Lemma upd_ne i x f j : j <> i -> upd i x f j = f j.
Proof. intros. unfold upd. by rewrite decide_False. Qed.

Lemma upd_upd i x y f : upd i x (upd i y f) = upd i x f.
Proof. apply functional_extensionality. intros j. unfold upd. by case_decide. Qed.

Lemma upd_id i f : upd i (f i) f = f.
Proof. apply functional_extensionality. intros j. unfold upd. case_decide; by subst. Qed.
End upd.

(** ** Positions modulo the size of a buffer *)

Lemma mod_inj a n k j : 0 <= k < n -> 0 <= j < n -> (a + k) mod n = (a + j) mod n -> k = j.
Proof.
  intros Hk Hj He. pose proof (Z.div_mod (a + k) n ltac:(lia)) as E1.
  pose proof (Z.div_mod (a + j) n ltac:(lia)) as E2. rewrite He in E1.
  assert (k - j = n * ((a + k) / n - (a + j) / n)) as E by lia.
  assert ((a + k) / n - (a + j) / n = 0) as Hz by nia. rewrite Hz in E. lia.
Qed.

Lemma mod_shift a b c n : 0 < n -> a mod n = b mod n -> (a + c) mod n = (b + c) mod n.
Proof. intros Hn He. by rewrite (Z.add_mod a), (Z.add_mod b), He by lia. Qed.

(** ** Ring buffers: [n] bytes from index [a] on, modulo [size] *)

Definition ring (d : gmap Z Z) (size a : Z) (n : nat) : list Z :=
  map (fun k => default 0 (d !! ((a + Z.of_nat k) mod size))) (seq 0 n).

Lemma length_ring d size a n : length (ring d size a n) = n.
Proof. unfold ring. by rewrite length_map, length_seq. Qed.

Lemma ring_S d size a n :
  ring d size a (S n) = default 0 (d !! (a mod size)) :: ring d size (a + 1) n.
Proof.
  unfold ring. simpl. rewrite Z.add_0_r. f_equal. rewrite <- seq_shift, map_map.
  apply map_ext. intros k. do 3 f_equal. lia.
Qed.

Lemma ring_app d size a n m : ring d size a (n + m) = ring d size a n ++ ring d size (a + Z.of_nat n) m.
Proof.
  revert a. induction n as [|n IH]; intros a; simpl plus.
  - unfold ring at 2. simpl. by rewrite Z.add_0_r.
  - rewrite !ring_S, IH. simpl. do 3 f_equal. lia.
Qed.

Lemma ring_insert d size a n i v : (forall k, 0 <= k < Z.of_nat n -> (a + k) mod size <> i) ->
  ring (<[i := v]> d) size a n = ring d size a n.
Proof.
  intros Hi. unfold ring. apply map_ext_in. intros k Hk. apply in_seq in Hk.
  rewrite lookup_insert_ne; [done|]. intros E. apply (Hi (Z.of_nat k)); [lia|done].
Qed.

Lemma ring_mod d size a b n : 0 < size -> a mod size = b mod size -> ring d size a n = ring d size b n.
Proof.
  intros Hs He. unfold ring. apply map_ext. intros k. do 2 f_equal.
  rewrite (Z.add_mod a), (Z.add_mod b), He by lia. done.
Qed.
