(* ===== verification/Bytes.v ===== *)
(** * Byte lists: disk blocks, file contents and the little-endian fields in them

    A block is a list of bytes.  [slice] is what a C program reads through a pointer
    into it, [splice] what it stores there; [rd] and [wr] read and write a
    little-endian integer of [k] bytes. *)

From S2P Require Import Prelude.

Definition slice (off n : Z) (b : list Z) : list Z := take (Z.to_nat n) (drop (Z.to_nat off) b).

Definition splice (off : Z) (l b : list Z) : list Z :=
  take (Z.to_nat off) b ++ l ++ drop (Z.to_nat off + length l) b.

Fixpoint le_bytes (k : nat) (v : Z) : list Z :=
  match k with
  | O => []
  | S k => v mod 256 :: le_bytes k (v / 256)
  end.

Fixpoint le_value (l : list Z) : Z :=
  match l with
  | [] => 0
  | x :: l => x mod 256 + 256 * le_value l
  end.

Definition rd (k : nat) (off : Z) (b : list Z) : Z := le_value (slice off (Z.of_nat k) b).
Definition wr (k : nat) (off v : Z) (b : list Z) : list Z := splice off (le_bytes k v) b.

Definition zlen {A} (l : list A) : Z := Z.of_nat (length l).

Lemma zlen_nonneg {A} (l : list A) : 0 <= zlen l.
Proof. unfold zlen. lia. Qed.

Lemma zlen_app {A} (l k : list A) : zlen (l ++ k) = zlen l + zlen k.
Proof. unfold zlen. rewrite length_app. lia. Qed.

Lemma zlen_slice off n b : 0 <= off -> 0 <= n -> off + n <= zlen b -> zlen (slice off n b) = n.
Proof. intros. unfold zlen, slice in *. rewrite length_take, length_drop. lia. Qed.

Lemma zlen_splice off l b : 0 <= off -> off + zlen l <= zlen b -> zlen (splice off l b) = zlen b.
Proof.
  intros. unfold zlen, splice in *. rewrite !length_app, length_take, length_drop. lia.
Qed.

Lemma zlen_le_bytes k v : zlen (le_bytes k v) = Z.of_nat k.
Proof.
  revert v. unfold zlen. induction k as [|k IH]; intros v; [done|]. cbn [le_bytes length].
  rewrite Nat2Z.inj_succ, IH. lia.
Qed.

Lemma zlen_wr k off v b : 0 <= off -> off + Z.of_nat k <= zlen b -> zlen (wr k off v b) = zlen b.
Proof. intros. unfold wr. apply zlen_splice; [done|]. by rewrite zlen_le_bytes. Qed.

Lemma lookup_slice off n b i :
  slice off n b !! i = if decide (i < Z.to_nat n)%nat then b !! (Z.to_nat off + i)%nat else None.
Proof.
  unfold slice. case_decide.
  - by rewrite lookup_take_lt, lookup_drop by lia.
  - apply lookup_take_ge. lia.
Qed.

Lemma lookup_splice off l b i : 0 <= off -> off <= zlen b ->
  splice off l b !! i =
    if decide (i < Z.to_nat off)%nat then b !! i
    else if decide (i < Z.to_nat off + length l)%nat then l !! (i - Z.to_nat off)%nat
    else b !! i.
Proof.
  intros H0 Hb. unfold splice, zlen in *. case_decide; [|case_decide].
  - rewrite lookup_app_l by (rewrite length_take; lia). by rewrite lookup_take_lt.
  - rewrite lookup_app_r by (rewrite length_take; lia). rewrite length_take.
    rewrite lookup_app_l by lia. f_equal. lia.
  - rewrite lookup_app_r by (rewrite length_take; lia). rewrite length_take.
    rewrite lookup_app_r by lia. rewrite lookup_drop. f_equal. lia.
Qed.

Lemma slice_splice_eq off l b : 0 <= off -> off <= zlen b -> slice off (zlen l) (splice off l b) = l.
Proof.
  intros. apply list_eq. intros i. rewrite lookup_slice, lookup_splice by done.
  unfold zlen in *. case_decide.
  - rewrite decide_False, decide_True by lia. f_equal. lia.
  - symmetry. apply lookup_ge_None. lia.
Qed.

Lemma slice_splice_ne off l b o n : 0 <= off -> off <= zlen b -> 0 <= o ->
  o + n <= off \/ off + zlen l <= o -> slice o n (splice off l b) = slice o n b.
Proof.
  intros. apply list_eq. intros i. rewrite !lookup_slice. unfold zlen in *.
  case_decide; [|done]. rewrite lookup_splice by done.
  repeat case_decide; try done. lia.
Qed.

(** A store inside a window is a store in the window. *)
Lemma slice_splice_in off l b o n : 0 <= o -> o <= off -> off + zlen l <= o + n -> o + n <= zlen b ->
  slice o n (splice off l b) = splice (off - o) l (slice o n b).
Proof.
  intros. pose proof (zlen_nonneg l). apply list_eq. intros i.
  rewrite lookup_splice by (rewrite ?zlen_slice; lia). rewrite !lookup_slice.
  rewrite lookup_splice by lia. unfold zlen in *.
  repeat case_decide; try done; try lia; f_equal; lia.
Qed.

Lemma slice_slice o n o1 n1 b : 0 <= o -> 0 <= o1 -> o1 + n1 <= n ->
  slice o1 n1 (slice o n b) = slice (o + o1) n1 b.
Proof.
  intros. apply list_eq. intros i. rewrite !lookup_slice.
  case_decide; [|done]. rewrite decide_True by lia. f_equal. lia.
Qed.

Lemma splice_slice off n b : 0 <= off -> 0 <= n -> off + n <= zlen b -> splice off (slice off n b) b = b.
Proof.
  intros. apply list_eq. intros i. rewrite lookup_splice by lia. rewrite lookup_slice.
  pose proof (zlen_slice off n b). unfold zlen in *. repeat case_decide; try done; try lia. f_equal. lia.
Qed.

Lemma slice_all b : slice 0 (zlen b) b = b.
Proof. unfold slice, zlen. rewrite drop_0, take_ge by lia. done. Qed.

Lemma splice_all l b : zlen l = zlen b -> splice 0 l b = l.
Proof. unfold splice, zlen. intros. simpl. rewrite drop_ge by lia. apply app_nil_r. Qed.

Lemma slice_app_l o n l k : 0 <= o -> o + n <= zlen l -> slice o n (l ++ k) = slice o n l.
Proof.
  intros. apply list_eq. intros i. rewrite !lookup_slice. unfold zlen in *. case_decide; [|done].
  by rewrite lookup_app_l by lia.
Qed.

(** Adjacent windows. *)
Lemma slice_split o n m b : 0 <= o -> 0 <= n -> 0 <= m -> slice o (n + m) b = slice o n b ++ slice (o + n) m b.
Proof.
  intros. unfold slice. rewrite !Z2Nat.inj_add by lia. rewrite <- (take_drop (Z.to_nat n) (drop (Z.to_nat o) b)) at 1.
  rewrite take_app. rewrite take_take, length_take, drop_drop. f_equal; [f_equal; lia|].
  destruct (decide (Z.to_nat n <= length (drop (Z.to_nat o) b))%nat).
  - f_equal. lia.
  - rewrite length_drop in *. rewrite (drop_ge b (Z.to_nat o + Z.to_nat n)) by lia. by rewrite !take_nil.
Qed.

Lemma le_value_range l : 0 <= le_value l < 256 ^ zlen l.
Proof.
  unfold zlen. induction l as [|x l IH]; [done|]. cbn [le_value length].
  rewrite Nat2Z.inj_succ, Z.pow_succ_r by lia. pose proof (Z.mod_pos_bound x 256). lia.
Qed.

Lemma le_value_bytes k v : le_value (le_bytes k v) = v mod 256 ^ Z.of_nat k.
Proof.
  revert v. induction k as [|k IH]; intros v; [by rewrite Z.mod_1_r|]. cbn [le_value le_bytes].
  rewrite IH, Nat2Z.inj_succ, Z.pow_succ_r, Z.mod_mod by lia.
  rewrite (Z.rem_mul_r v 256) by lia. done.
Qed.

Lemma rd_wr_eq k off v b : 0 <= off -> off + Z.of_nat k <= zlen b -> rd k off (wr k off v b) = v mod 256 ^ Z.of_nat k.
Proof.
  intros. unfold rd, wr. rewrite <- (zlen_le_bytes k v), slice_splice_eq, le_value_bytes by lia.
  by rewrite zlen_le_bytes.
Qed.

Lemma rd_wr_ne k off v b k' off' : 0 <= off -> off <= zlen b -> 0 <= off' ->
  off' + Z.of_nat k' <= off \/ off + Z.of_nat k <= off' -> rd k' off' (wr k off v b) = rd k' off' b.
Proof.
  intros. unfold rd, wr. rewrite slice_splice_ne; [done..|]. by rewrite zlen_le_bytes.
Qed.

Lemma rd_splice_ne off l b k' off' : 0 <= off -> off <= zlen b -> 0 <= off' ->
  off' + Z.of_nat k' <= off \/ off + zlen l <= off' -> rd k' off' (splice off l b) = rd k' off' b.
Proof. intros. unfold rd. by rewrite slice_splice_ne. Qed.

Lemma rd_slice k o n off b : 0 <= o -> 0 <= off -> off + Z.of_nat k <= n ->
  rd k off (slice o n b) = rd k (o + off) b.
Proof. intros. unfold rd. by rewrite slice_slice. Qed.

Lemma rd_range k off b : 0 <= off -> off + Z.of_nat k <= zlen b -> 0 <= rd k off b < 256 ^ Z.of_nat k.
Proof.
  intros. unfold rd. pose proof (le_value_range (slice off (Z.of_nat k) b)).
  rewrite zlen_slice in *; lia.
Qed.

(** ** Arrays of 32-bit words in a block *)

Fixpoint get_words (off : Z) (n : nat) (b : list Z) : list Z :=
  match n with
  | O => []
  | S n => rd 4 off b :: get_words (off + 4) n b
  end.

Fixpoint put_words (off : Z) (l b : list Z) : list Z :=
  match l with
  | [] => b
  | x :: l => put_words (off + 4) l (wr 4 off x b)
  end.

Lemma length_get_words off n b : length (get_words off n b) = n.
Proof. revert off. induction n; intros; simpl; auto. Qed.

Lemma zlen_put_words off l b : 0 <= off -> off + 4 * zlen l <= zlen b -> zlen (put_words off l b) = zlen b.
Proof.
  revert off b. induction l as [|x l IH]; intros off b H0 Hb; [done|].
  replace (zlen (x :: l)) with (1 + zlen l) in Hb by (unfold zlen; simpl; lia).
  pose proof (zlen_nonneg l). cbn [put_words]. rewrite IH; rewrite ?zlen_wr; lia.
Qed.

Lemma rd_put_words_ne off l b k o : 0 <= off -> off + 4 * zlen l <= zlen b -> 0 <= o ->
  o + Z.of_nat k <= off \/ off + 4 * zlen l <= o -> rd k o (put_words off l b) = rd k o b.
Proof.
  revert off b. induction l as [|x l IH]; intros off b H0 Hb Ho Hd; [done|].
  replace (zlen (x :: l)) with (1 + zlen l) in * by (unfold zlen; simpl; lia).
  pose proof (zlen_nonneg l). cbn [put_words]. rewrite IH by (rewrite ?zlen_wr; lia).
  apply rd_wr_ne; lia.
Qed.

Lemma get_put_words off l b : 0 <= off -> off + 4 * zlen l <= zlen b -> Forall (fun x => 0 <= x < 2 ^ 32) l ->
  get_words off (length l) (put_words off l b) = l.
Proof.
  revert off b. induction l as [|x l IH]; intros off b H0 Hb Hl; [done|].
  replace (zlen (x :: l)) with (1 + zlen l) in * by (unfold zlen; simpl; lia).
  apply Forall_cons in Hl as [Hx Hl]. pose proof (zlen_nonneg l). cbn [length get_words put_words].
  rewrite rd_put_words_ne by (rewrite ?zlen_wr; lia).
  rewrite rd_wr_eq by lia. f_equal; [by apply Z.mod_small|].
  apply IH; [lia|rewrite zlen_wr; lia|done].
Qed.

Lemma get_words_lookup off n b i : (i < n)%nat -> get_words off n b !! i = Some (rd 4 (off + 4 * Z.of_nat i) b).
Proof.
  revert off i. induction n as [|n IH]; intros off i Hi; [lia|]. destruct i as [|i]; simpl.
  - do 2 f_equal. lia.
  - rewrite IH by lia. do 2 f_equal. lia.
Qed.

Lemma get_words_ext off n b b' : (forall o, off <= o -> o + 4 <= off + 4 * Z.of_nat n -> rd 4 o b = rd 4 o b') ->
  get_words off n b = get_words off n b'.
Proof.
  revert off. induction n as [|n IH]; intros off H; [done|]. simpl. f_equal; [apply H; lia|].
  apply IH. intros. apply H; lia.
Qed.

(** A signed 16-bit integer. *)
Definition s16 (x : Z) : Z := if x mod 2 ^ 16 <? 2 ^ 15 then x mod 2 ^ 16 else x mod 2 ^ 16 - 2 ^ 16.

Lemma s16_mod x : - 2 ^ 15 <= x < 2 ^ 15 -> s16 (x mod 2 ^ 16) = x.
Proof. intros. unfold s16. rewrite Z.mod_mod by lia. case_match; bool_prop; zlia. Qed.

(** Lengths of blocks after stores, and reads of other fields. *)
Ltac len :=
  lazymatch goal with
  | |- context [zlen (wr ?k ?o ?v ?b)] => rewrite (zlen_wr k o v b) by len; len
  | |- context [zlen (put_words ?o ?l ?b)] => rewrite (zlen_put_words o l b) by len; len
  | |- context [zlen (splice ?o ?l ?b)] => rewrite (zlen_splice o l b) by len; len
  | |- context [zlen (slice ?o ?n ?b)] => rewrite (zlen_slice o n b) by len; len
  | |- _ => lia
  end.
Ltac fields :=
  repeat first
    [ rewrite rd_wr_eq by len
    | rewrite rd_wr_ne by len
    | rewrite rd_put_words_ne by len ].
