(* ===== verification/FsFormat.v ===== *)
(** * fs.h: the format of the file system on the disk

    The superblock, the inodes in their blocks, the bitmap and the directory entries,
    as fields of blocks of 512 bytes. *)

From S2P Require Import Prelude Bytes.

Definition BSIZE : Z := 512.
Definition ROOTINO : Z := 1.
Definition NDIRECT : Z := 12.
Definition NINDIRECT : Z := BSIZE / 4.
Definition MAXFILE : Z := NDIRECT + NINDIRECT.
Definition DIRSIZ : Z := 14.

(** ** The superblock *)

Record superblock := mkSb { sb_size : Z; sb_nblocks : Z; sb_ninodes : Z; sb_nlog : Z }.

Definition sb_of_block (b : list Z) : superblock :=
  mkSb (rd 4 0 b) (rd 4 4 b) (rd 4 8 b) (rd 4 12 b).

Definition sb_bytes (sb : superblock) : list Z :=
  le_bytes 4 (sb_size sb) ++ le_bytes 4 (sb_nblocks sb) ++ le_bytes 4 (sb_ninodes sb) ++
  le_bytes 4 (sb_nlog sb).

(** ** Inodes on the disk *)

Record dinode := mkDinode {
  di_type : Z;
  di_major : Z;
  di_minor : Z;
  di_nlink : Z;
  di_size : Z;
  di_addrs : list Z }.

Definition dinode_sz : Z := 64.
Definition IPB : Z := BSIZE / dinode_sz.
Definition IBLOCK (i : Z) : Z := i / IPB + 2.
Definition BPB : Z := BSIZE * 8.
Definition BBLOCK (b ninodes : Z) : Z := b / BPB + ninodes / IPB + 3.

(** [(struct dinode* )bp->data + inum%IPB]. *)
Definition dinode_off (inum : Z) : Z := inum mod IPB * dinode_sz.

Definition dinode_of (inum : Z) (b : list Z) : dinode :=
  let o := dinode_off inum in
  mkDinode (s16 (rd 2 o b)) (s16 (rd 2 (o + 2) b)) (s16 (rd 2 (o + 4) b)) (s16 (rd 2 (o + 6) b))
    (rd 4 (o + 8) b) (get_words (o + 12) 13 b).

Definition put_dinode (inum : Z) (d : dinode) (b : list Z) : list Z :=
  let o := dinode_off inum in
  put_words (o + 12) (di_addrs d)
    (wr 4 (o + 8) (di_size d)
      (wr 2 (o + 6) (di_nlink d)
        (wr 2 (o + 4) (di_minor d) (wr 2 (o + 2) (di_major d) (wr 2 o (di_type d) b))))).

Definition short (x : Z) : Prop := - 2 ^ 15 <= x < 2 ^ 15.
Definition uint (x : Z) : Prop := 0 <= x < 2 ^ 32.

Record dinode_wf (d : dinode) : Prop := {
  dw_type : short (di_type d);
  dw_major : short (di_major d);
  dw_minor : short (di_minor d);
  dw_nlink : short (di_nlink d);
  dw_size : uint (di_size d);
  dw_addrs : length (di_addrs d) = 13%nat /\ Forall uint (di_addrs d) }.

Lemma dinode_off_range inum : 0 <= dinode_off inum /\ dinode_off inum + 64 <= 512.
Proof. unfold dinode_off, IPB, BSIZE, dinode_sz. zlia. Qed.

Lemma dinode_off_inj i j : i / IPB = j / IPB -> i <> j ->
  dinode_off i + 64 <= dinode_off j \/ dinode_off j + 64 <= dinode_off i.
Proof. unfold dinode_off, IPB, BSIZE, dinode_sz. intros. zlia. Qed.

Lemma zlen_put_dinode inum d b : zlen b = BSIZE -> length (di_addrs d) = 13%nat ->
  zlen (put_dinode inum d b) = BSIZE.
Proof.
  intros Hb Hl. pose proof (dinode_off_range inum). unfold put_dinode, BSIZE in *.
  assert (zlen (di_addrs d) = 13) as Hz by (unfold zlen; lia).
  len.
Qed.

(** An inode reads back as it was written, and the others of the block are kept. *)
Lemma dinode_of_put inum d b : zlen b = BSIZE -> dinode_wf d -> dinode_of inum (put_dinode inum d b) = d.
Proof.
  intros Hb [Ht Hma Hmi Hn Hs [Hl Ha]]. pose proof (dinode_off_range inum).
  assert (zlen (di_addrs d) = 13) as Hz by (unfold zlen; lia).
  unfold BSIZE, dinode_of, put_dinode in *. fields.
  change (256 ^ Z.of_nat 2) with (2 ^ 16). change (256 ^ Z.of_nat 4) with (2 ^ 32).
  rewrite !s16_mod, (Z.mod_small (di_size d)) by done.
  rewrite <- Hl, get_put_words by (done || len). by destruct d.
Qed.

Lemma dinode_of_put_ne i j d b : zlen b = BSIZE -> length (di_addrs d) = 13%nat ->
  i / IPB = j / IPB -> i <> j -> dinode_of j (put_dinode i d b) = dinode_of j b.
Proof.
  intros Hb Hl Hij Hne. pose proof (dinode_off_range i). pose proof (dinode_off_range j).
  pose proof (dinode_off_inj i j Hij Hne).
  assert (zlen (di_addrs d) = 13) as Hz by (unfold zlen; lia).
  unfold BSIZE, dinode_of, put_dinode in *. fields. f_equal.
  apply get_words_ext. intros o Ho1 Ho2. fields. done.
Qed.

Lemma dinode_of_wf inum b : zlen b = BSIZE -> dinode_wf (dinode_of inum b).
Proof.
  intros Hb. pose proof (dinode_off_range inum).
  assert (forall x, short (s16 x)) as Hs by (intros x; unfold short, s16; case_match; bool_prop; zlia).
  unfold BSIZE, dinode_of in *. split; cbn [di_type di_major di_minor di_nlink di_size di_addrs]; try done.
  - apply (rd_range 4); lia.
  - split; [apply length_get_words|]. apply Forall_lookup. intros i x Hi.
    pose proof (lookup_lt_Some _ _ _ Hi) as Hlt. rewrite length_get_words in Hlt.
    rewrite get_words_lookup in Hi by done. injection Hi as <-. apply (rd_range 4); lia.
Qed.

(** ** Directory entries *)

Record dirent := mkDirent { de_inum : Z; de_name : list Z }.

Definition dirent_sz : Z := 16.

Definition dirent_of (b : list Z) : dirent := mkDirent (rd 2 0 b) (slice 2 DIRSIZ b).

Definition dirent_bytes (d : dirent) : list Z := le_bytes 2 (de_inum d) ++ de_name d.

Lemma dirent_of_bytes d : 0 <= de_inum d < 2 ^ 16 -> zlen (de_name d) = DIRSIZ ->
  dirent_of (dirent_bytes d) = d.
Proof.
  intros Hi Hl. unfold dirent_of, dirent_bytes, rd. rewrite slice_app_l by (rewrite ?zlen_le_bytes; lia).
  change (slice 0 (Z.of_nat 2) (le_bytes 2 (de_inum d))) with (le_bytes 2 (de_inum d)).
  rewrite le_value_bytes, Z.mod_small by done.
  assert (slice 2 DIRSIZ (le_bytes 2 (de_inum d) ++ de_name d) = de_name d) as ->; [|by destruct d].
  unfold slice. change (Z.to_nat 2) with (length (le_bytes 2 (de_inum d))). rewrite drop_app_length.
  apply take_ge. unfold zlen in Hl. lia.
Qed.
