(* ===== verification/Mmu.v ===== *)
(** * Address arithmetic and descriptors of the x86 MMU

    The macros of mmu.h and the constants and conversions of memlayout.h and
    param.h, on integers kept at the 32 bits of a [uint]. *)

From S2P Require Import Prelude.

(** ** Constants (memlayout.h, mmu.h, param.h, types.h) *)

Definition EXTMEM : Z := 0x100000.
Definition PHYSTOP : Z := 0xE000000.
Definition DEVSPACE : Z := 0xFE000000.
Definition KERNBASE : Z := 0x80000000.
Definition KERNLINK : Z := KERNBASE + EXTMEM.

Definition NPDENTRIES : Z := 1024.
Definition NPTENTRIES : Z := 1024.
Definition PGSIZE : Z := 4096.
Definition PTXSHIFT : Z := 12.
Definition PDXSHIFT : Z := 22.

Definition PTE_P : Z := 0x001.
Definition PTE_W : Z := 0x002.
Definition PTE_U : Z := 0x004.
Definition PTE_PS : Z := 0x080.

Definition FL_IF : Z := 0x00000200.

Definition SEG_KCODE : Z := 1.
Definition SEG_KDATA : Z := 2.
Definition SEG_KCPU : Z := 3.
Definition SEG_UCODE : Z := 4.
Definition SEG_UDATA : Z := 5.
Definition SEG_TSS : Z := 6.
Definition DPL_USER : Z := 0x3.

Definition STA_X : Z := 0x8.
Definition STA_W : Z := 0x2.
Definition STA_R : Z := 0x2.
Definition STS_T32A : Z := 0x9.

Definition PROT_NONE : Z := 0.
Definition PROT_READ : Z := 1.
Definition PROT_WRITE : Z := 2.

Definition KSTACKSIZE : Z := 4096.

(** ** Physical and kernel virtual addresses (memlayout.h) *)

Definition v2p (a : Z) : Z := u32 (a - KERNBASE).
Definition p2v (a : Z) : Z := u32 (a + KERNBASE).

(** ** Linear addresses (mmu.h) *)

Definition PDX (va : Z) : Z := Z.land (Z.shiftr (u32 va) PDXSHIFT) 0x3FF.
Definition PTX (va : Z) : Z := Z.land (Z.shiftr (u32 va) PTXSHIFT) 0x3FF.
Definition PGADDR (d t o : Z) : Z :=
  u32 (Z.lor (Z.lor (Z.shiftl d PDXSHIFT) (Z.shiftl t PTXSHIFT)) o).

Definition PGROUNDUP (sz : Z) : Z :=
  Z.land (u32 (sz + PGSIZE - 1)) (u32 (Z.lnot (PGSIZE - 1))).
Definition PGROUNDDOWN (a : Z) : Z := Z.land (u32 a) (u32 (Z.lnot (PGSIZE - 1))).

Definition PTE_ADDR (pte : Z) : Z := Z.land (u32 pte) (u32 (Z.lnot 0xFFF)).
Definition PTE_FLAGS (pte : Z) : Z := Z.land (u32 pte) 0xFFF.

(** ** Segment descriptors (struct segdesc, SEG, SEG16) *)

Record segdesc : Type := mkSegdesc {
  lim_15_0 : Z; base_15_0 : Z; base_23_16 : Z; seg_type : Z; seg_s : Z;
  seg_dpl : Z; seg_p : Z; lim_19_16 : Z; seg_avl : Z; seg_rsv1 : Z;
  seg_db : Z; seg_g : Z; base_31_24 : Z }.

Definition SEG (type base lim dpl : Z) : segdesc :=
  {| lim_15_0 := Z.land (Z.shiftr lim 12) 0xffff;
     base_15_0 := Z.land (u32 base) 0xffff;
     base_23_16 := Z.land (Z.shiftr (u32 base) 16) 0xff;
     seg_type := type; seg_s := 1; seg_dpl := dpl; seg_p := 1;
     lim_19_16 := Z.shiftr (u32 lim) 28; seg_avl := 0; seg_rsv1 := 0;
     seg_db := 1; seg_g := 1;
     base_31_24 := Z.shiftr (u32 base) 24 |}.

Definition SEG16 (type base lim dpl : Z) : segdesc :=
  {| lim_15_0 := Z.land lim 0xffff;
     base_15_0 := Z.land (u32 base) 0xffff;
     base_23_16 := Z.land (Z.shiftr (u32 base) 16) 0xff;
     seg_type := type; seg_s := 1; seg_dpl := dpl; seg_p := 1;
     lim_19_16 := Z.shiftr (u32 lim) 16; seg_avl := 0; seg_rsv1 := 0;
     seg_db := 1; seg_g := 0;
     base_31_24 := Z.shiftr (u32 base) 24 |}.

(** What the processor reads back from a descriptor: the base address, and the
    limit in bytes (scaled by the granularity bit). *)
Definition seg_base (d : segdesc) : Z :=
  base_15_0 d + base_23_16 d * 2 ^ 16 + base_31_24 d * 2 ^ 24.
Definition seg_limit (d : segdesc) : Z :=
  let raw := lim_15_0 d + lim_19_16 d * 2 ^ 16 in
  if seg_g d =? 0 then raw else raw * 2 ^ 12 + 0xfff.

(** ** Gate descriptors (struct gatedesc, SETGATE) *)

Record gatedesc : Type := mkGatedesc {
  off_15_0 : Z; gate_cs : Z; gate_args : Z; gate_rsv1 : Z; gate_type : Z;
  gate_s : Z; gate_dpl : Z; gate_p : Z; off_31_16 : Z }.

Definition STS_IG32 : Z := 0xE.
Definition STS_TG32 : Z := 0xF.

Definition SETGATE (istrap : bool) (sel off d : Z) : gatedesc :=
  {| off_15_0 := Z.land (u32 off) 0xffff; gate_cs := sel; gate_args := 0;
     gate_rsv1 := 0; gate_type := if istrap then STS_TG32 else STS_IG32;
     gate_s := 0; gate_dpl := d; gate_p := 1;
     off_31_16 := Z.shiftr (u32 off) 16 |}.

Definition gate_offset (g : gatedesc) : Z := off_15_0 g + off_31_16 g * 2 ^ 16.

(** ** Facts *)

Lemma PDX_div va : 0 <= va < 2 ^ 32 -> PDX va = va / 2 ^ 22.
Proof.
  intros H. unfold PDX, PDXSHIFT. rewrite u32_small, Z.shiftr_div_pow2 by lia.
  change 0x3FF with (Z.ones 10). rewrite Z.land_ones by lia. apply Z.mod_small. zlia.
Qed.

Lemma PTX_div va : 0 <= va < 2 ^ 32 -> PTX va = va / 4096 mod 1024.
Proof.
  intros H. unfold PTX, PTXSHIFT. rewrite u32_small, Z.shiftr_div_pow2 by lia.
  change 0x3FF with (Z.ones 10). by rewrite Z.land_ones by lia.
Qed.

Lemma PDX_range va : 0 <= PDX va < NPDENTRIES.
Proof.
  unfold PDX, NPDENTRIES. change 0x3FF with (Z.ones 10). rewrite Z.land_ones by lia.
  apply Z.mod_pos_bound. lia.
Qed.

Lemma PTX_range va : 0 <= PTX va < NPTENTRIES.
Proof.
  unfold PTX, NPTENTRIES. change 0x3FF with (Z.ones 10). rewrite Z.land_ones by lia.
  apply Z.mod_pos_bound. lia.
Qed.

Lemma PGROUNDDOWN_eq a : 0 <= a < 2 ^ 32 -> PGROUNDDOWN a = a - a mod PGSIZE.
Proof.
  intros H. unfold PGROUNDDOWN. rewrite u32_small by lia.
  change (u32 (Z.lnot (PGSIZE - 1))) with (2 ^ 32 - 2 ^ 12).
  by rewrite land_himask by lia.
Qed.

Lemma PGROUNDUP_eq sz : 0 <= sz <= 2 ^ 32 - PGSIZE ->
  PGROUNDUP sz = (sz + PGSIZE - 1) / PGSIZE * PGSIZE.
Proof.
  unfold PGSIZE. intros H. unfold PGROUNDUP, PGSIZE. rewrite u32_small by lia.
  change (u32 (Z.lnot (4096 - 1))) with (2 ^ 32 - 2 ^ 12).
  rewrite land_himask by lia. zlia.
Qed.

Lemma PTE_ADDR_eq pte : 0 <= pte < 2 ^ 32 -> PTE_ADDR pte = pte - pte mod 4096.
Proof.
  intros H. unfold PTE_ADDR. rewrite u32_small by lia.
  change (u32 (Z.lnot 0xFFF)) with (2 ^ 32 - 2 ^ 12).
  by rewrite land_himask by lia.
Qed.

Lemma PTE_FLAGS_eq pte : 0 <= pte < 2 ^ 32 -> PTE_FLAGS pte = pte mod 4096.
Proof.
  intros H. unfold PTE_FLAGS. rewrite u32_small by lia.
  change 0xFFF with (Z.ones 12). by rewrite Z.land_ones by lia.
Qed.

Lemma PGADDR_split va : 0 <= va < 2 ^ 32 -> PGADDR (PDX va) (PTX va) (va mod PGSIZE) = va.
Proof.
  intros H. unfold PGADDR, PDXSHIFT, PTXSHIFT. rewrite PDX_div, PTX_div by done.
  rewrite !Z.shiftl_mul_pow2 by lia.
  rewrite (lor_aligned (va / 2 ^ 22 * 2 ^ 22) _ 22)
    by (rewrite ?Z.mod_mul; zlia).
  rewrite (lor_aligned _ _ 12) by (unfold PGSIZE; zlia).
  unfold PGSIZE. rewrite u32_small; zlia.
Qed.

Lemma v2p_p2v a : 0 <= a < 2 ^ 32 -> v2p (p2v a) = a.
Proof.
  intros. unfold v2p, p2v. autorewrite with u32. rewrite u32_small; lia.
Qed.

Lemma p2v_v2p a : 0 <= a < 2 ^ 32 -> p2v (v2p a) = a.
Proof.
  intros. unfold v2p, p2v. autorewrite with u32. rewrite u32_small; lia.
Qed.

(** Arithmetic goals over the layout constants. *)
Ltac mm_unfold :=
  unfold KERNLINK, KERNBASE, PHYSTOP, EXTMEM, DEVSPACE, PGSIZE, NPDENTRIES, NPTENTRIES,
    KSTACKSIZE in *.
Ltac mmlia := mm_unfold; zlia.
