(* ===== verification/Memory.v ===== *)
(** * Byte memory and the routines of string.c

    The kernel's direct map: a byte of physical memory is addressed by its
    kernel virtual address [p2v pa], so a pointer of the C code is the key of
    the byte it points at.  A byte that was never written reads as zero. *)

From S2P Require Import Prelude Mmu.

(** ** Loads and stores *)

Definition load8 (m : gmap Z Z) (a : Z) : Z := u8 (default 0 (m !! a)).
Definition store8 (m : gmap Z Z) (a v : Z) : gmap Z Z := <[a := v]> m.

(** A little-endian 32-bit access at [a]. *)
Definition load32 (m : gmap Z Z) (a : Z) : Z :=
  load8 m a + load8 m (a + 1) * 2 ^ 8 + load8 m (a + 2) * 2 ^ 16 + load8 m (a + 3) * 2 ^ 24.
Definition store32 (m : gmap Z Z) (a v : Z) : gmap Z Z :=
  store8 (store8 (store8 (store8 m a v) (a + 1) (v / 2 ^ 8)) (a + 2) (v / 2 ^ 16))
    (a + 3) (v / 2 ^ 24).

Definition load16 (m : gmap Z Z) (a : Z) : Z := load8 m a + load8 m (a + 1) * 2 ^ 8.
Definition store16 (m : gmap Z Z) (a v : Z) : gmap Z Z := store8 (store8 m a v) (a + 1) (v / 2 ^ 8).

(** Words and half-words of a sequence of bytes. *)
Definition word (f : Z -> Z) (o : Z) : Z := f o + f (o + 1) * 2 ^ 8 + f (o + 2) * 2 ^ 16 + f (o + 3) * 2 ^ 24.
Definition half (f : Z -> Z) (o : Z) : Z := f o + f (o + 1) * 2 ^ 8.

(** A C string read as the bytes before the first NUL, looking at most at [n]
    bytes. *)
Fixpoint cstr (n : nat) (m : gmap Z Z) (a : Z) : list Z :=
  match n with
  | O => []
  | S n' => if load8 m a =? 0 then [] else load8 m a :: cstr n' m (a + 1)
  end.

(** ** string.c *)

(** rep stosb and rep stosl (x86.h) *)
Fixpoint stosb (m : gmap Z Z) (a data : Z) (cnt : nat) : gmap Z Z :=
  match cnt with
  | O => m
  | S n => stosb (store8 m a data) (a + 1) data n
  end.

Fixpoint stosl (m : gmap Z Z) (a data : Z) (cnt : nat) : gmap Z Z :=
  match cnt with
  | O => m
  | S n => stosl (store32 m a data) (a + 4) data n
  end.

Definition memset (m : gmap Z Z) (dst c n : Z) : gmap Z Z :=
  if (Z.rem (s32 dst) 4 =? 0) && (n mod 4 =? 0) then
    let c := Z.land c 0xFF in
    stosl m dst
      (Z.lor (Z.lor (Z.lor (Z.shiftl c 24) (Z.shiftl c 16)) (Z.shiftl c 8)) c)
      (Z.to_nat (n / 4))
  else stosb m dst c (Z.to_nat n).

Fixpoint memcmp (m : gmap Z Z) (s1 s2 : Z) (n : nat) : Z :=
  match n with
  | O => 0
  | S n' => if load8 m s1 =? load8 m s2 then memcmp m (s1 + 1) (s2 + 1) n'
            else load8 m s1 - load8 m s2
  end.

(** [*--d = *--s], [n] times *)
Fixpoint memmove_bwd (m : gmap Z Z) (d s : Z) (n : nat) : gmap Z Z :=
  match n with
  | O => m
  | S n' => memmove_bwd (store8 m (d - 1) (load8 m (s - 1))) (d - 1) (s - 1) n'
  end.

(** [*d++ = *s++], [n] times *)
Fixpoint memmove_fwd (m : gmap Z Z) (d s : Z) (n : nat) : gmap Z Z :=
  match n with
  | O => m
  | S n' => memmove_fwd (store8 m d (load8 m s)) (d + 1) (s + 1) n'
  end.

Definition memmove (m : gmap Z Z) (dst src n : Z) : gmap Z Z :=
  if (src <? dst) && (dst <? src + n)
  then memmove_bwd m (dst + n) (src + n) (Z.to_nat n)
  else memmove_fwd m dst src (Z.to_nat n).

Fixpoint strncmp (m : gmap Z Z) (p q : Z) (n : nat) : Z :=
  match n with
  | O => 0
  | S n' =>
      if negb (load8 m p =? 0) && (load8 m p =? load8 m q)
      then strncmp m (p + 1) (q + 1) n'
      else load8 m p - load8 m q
  end.

(** the two loops of [strncpy]: copy up to a NUL, then pad with zeros *)
Fixpoint strncpy_pad (m : gmap Z Z) (s : Z) (n : nat) : gmap Z Z :=
  match n with
  | O => m
  | S n' => strncpy_pad (store8 m s 0) (s + 1) n'
  end.

Fixpoint strncpy_loop (m : gmap Z Z) (s t : Z) (n : nat) : gmap Z Z :=
  match n with
  | O => m
  | S n' =>
      let c := load8 m t in
      let m' := store8 m s c in
      if c =? 0 then strncpy_pad m' (s + 1) n' else strncpy_loop m' (s + 1) (t + 1) n'
  end.

Definition strncpy (m : gmap Z Z) (s t n : Z) : gmap Z Z :=
  strncpy_loop m s t (Z.to_nat n).

(** [k] is the value of [n] after [--n]; the final store is [*s = 0]. *)
Fixpoint safestrcpy_loop (m : gmap Z Z) (s t : Z) (k : nat) : gmap Z Z :=
  match k with
  | O => store8 m s 0
  | S k' =>
      let c := load8 m t in
      let m' := store8 m s c in
      if c =? 0 then store8 m' (s + 1) 0 else safestrcpy_loop m' (s + 1) (t + 1) k'
  end.

Definition safestrcpy (m : gmap Z Z) (s t n : Z) : gmap Z Z :=
  if n <=? 0 then m else safestrcpy_loop m s t (Z.to_nat (n - 1)).

(** [strlen] counts the bytes before the NUL; [None] when the first [fuel]
    bytes hold none. *)
Fixpoint strlen_loop (fuel : nat) (m : gmap Z Z) (s n : Z) : option Z :=
  match fuel with
  | O => None
  | S f => if load8 m (s + n) =? 0 then Some n else strlen_loop f m s (n + 1)
  end.
Definition strlen (fuel : nat) (m : gmap Z Z) (s : Z) : option Z := strlen_loop fuel m s 0.

(** ** Lemmas on loads and stores *)

Lemma load8_range m a : 0 <= load8 m a < 256.
Proof. unfold load8, u8. apply Z.mod_pos_bound. lia. Qed.

Lemma load8_store8 m a v b :
  load8 (store8 m a v) b = if decide (a = b) then u8 v else load8 m b.
Proof. unfold load8, store8. rewrite lookup_insert. by case_decide. Qed.

Lemma load8_store8_eq m a v : load8 (store8 m a v) a = u8 v.
Proof. rewrite load8_store8. by case_decide. Qed.

Lemma load8_store8_ne m a v b : a <> b -> load8 (store8 m a v) b = load8 m b.
Proof. intros. rewrite load8_store8. by case_decide. Qed.

Lemma u8_load8 m a : u8 (load8 m a) = load8 m a.
Proof. unfold u8. apply Z.mod_small. apply load8_range. Qed.

Lemma load32_range m a : 0 <= load32 m a < 2 ^ 32.
Proof.
  unfold load32. pose proof (load8_range m a). pose proof (load8_range m (a + 1)).
  pose proof (load8_range m (a + 2)). pose proof (load8_range m (a + 3)). lia.
Qed.

Lemma load32_ext m m' a :
  (forall i, 0 <= i < 4 -> load8 m (a + i) = load8 m' (a + i)) ->
  load32 m a = load32 m' a.
Proof.
  intros H. unfold load32.
  assert (load8 m a = load8 m' a) as -> by (rewrite <- (Z.add_0_r a); apply H; lia).
  rewrite !H by lia. done.
Qed.

Lemma load32_word m a : load32 m a = word (load8 m) a.
Proof. reflexivity. Qed.

Lemma load8_store16_ne m a v b : b < a \/ a + 2 <= b -> load8 (store16 m a v) b = load8 m b.
Proof. intros H. unfold store16. by rewrite !load8_store8_ne by lia. Qed.

Lemma load16_store16_eq m a v : load16 (store16 m a v) a = v mod 2 ^ 16.
Proof.
  unfold load16, store16. rewrite (load8_store8_ne _ (a + 1) _ a), !load8_store8_eq by lia. unfold u8. zlia.
Qed.

Lemma load8_store32 m a v b :
  load8 (store32 m a v) b =
    if (a <=? b) && (b <? a + 4) then u8 (v / 2 ^ (8 * (b - a))) else load8 m b.
Proof.
  unfold store32. rewrite !load8_store8.
  destruct (Z.leb_spec a b), (Z.ltb_spec b (a + 4)); simpl;
    try by repeat (case_decide; try lia).
  assert (b - a = 0 \/ b - a = 1 \/ b - a = 2 \/ b - a = 3) as Hc by lia.
  destruct Hc as [Hc|[Hc|[Hc|Hc]]]; rewrite Hc;
    repeat (case_decide; try lia); try done.
  change (2 ^ (8 * 0)) with 1. by rewrite Z.div_1_r.
Qed.

Lemma load8_store32_ne m a v b :
  b < a \/ a + 4 <= b -> load8 (store32 m a v) b = load8 m b.
Proof.
  intros H. rewrite load8_store32.
  destruct (Z.leb_spec a b), (Z.ltb_spec b (a + 4)); simpl; try done. lia.
Qed.

Lemma load32_store32_eq m a v : load32 (store32 m a v) a = u32 v.
Proof.
  unfold load32, store32. rewrite !load8_store8.
  repeat (case_decide; try lia).
  unfold u8, u32. zlia.
Qed.

Lemma load32_store32_ne m a v b :
  b + 4 <= a \/ a + 4 <= b -> load32 (store32 m a v) b = load32 m b.
Proof. intros H. apply load32_ext. intros i Hi. apply load8_store32_ne. lia. Qed.

#[export] Hint Resolve load8_range load32_range u32_range u8_load8 : xv6.

(** ** Memories that agree on a range *)

Definition agree (m m' : gmap Z Z) (lo len : Z) : Prop :=
  forall a, lo <= a < lo + len -> load8 m' a = load8 m a.

Lemma agree_refl m lo len : agree m m lo len.
Proof. done. Qed.

Lemma agree_trans m1 m2 m3 lo len : agree m1 m2 lo len -> agree m2 m3 lo len ->
  agree m1 m3 lo len.
Proof. intros H1 H2 a Ha. by rewrite H2, H1. Qed.

Lemma agree_sym m m' lo len : agree m m' lo len -> agree m' m lo len.
Proof. intros H a Ha. by rewrite H. Qed.

Lemma agree_sub m m' lo len lo' len' : agree m m' lo len -> lo <= lo' ->
  lo' + len' <= lo + len -> agree m m' lo' len'.
Proof. intros H ? ? a Ha. apply H. lia. Qed.

Lemma agree_load32 m m' lo len a : agree m m' lo len -> lo <= a -> a + 4 <= lo + len ->
  load32 m' a = load32 m a.
Proof. intros H ? ?. apply load32_ext. intros i Hi. apply H. lia. Qed.

Lemma agree_store32 m a v lo len : a + 4 <= lo \/ lo + len <= a -> agree m (store32 m a v) lo len.
Proof. intros H b Hb. apply load8_store32_ne. lia. Qed.

(** ** Correctness of string.c *)

Lemma load8_stosb m a c n b :
  load8 (stosb m a c n) b = if (a <=? b) && (b <? a + Z.of_nat n) then u8 c else load8 m b.
Proof.
  revert m a. induction n as [|n IH]; intros m a; simpl stosb.
  - destruct (Z.leb_spec a b), (Z.ltb_spec b (a + Z.of_nat 0)); simpl; try done. lia.
  - rewrite IH, load8_store8.
    destruct (Z.leb_spec (a + 1) b), (Z.leb_spec a b), (Z.ltb_spec b (a + 1 + Z.of_nat n)),
      (Z.ltb_spec b (a + Z.of_nat (S n))); simpl; try done; try lia;
      case_decide; try done; lia.
Qed.

(** A word whose four bytes are all [c]. *)
Lemma u8_splat c k : 0 <= c < 256 -> 0 <= k < 4 ->
  u8 (Z.lor (Z.lor (Z.lor (Z.shiftl c 24) (Z.shiftl c 16)) (Z.shiftl c 8)) c / 2 ^ (8 * k)) = c.
Proof.
  intros Hc Hk. rewrite !Z.shiftl_mul_pow2 by lia.
  rewrite (lor_aligned _ (c * 2 ^ 16) 24) by zlia.
  rewrite (lor_aligned _ (c * 2 ^ 8) 16) by zlia.
  rewrite (lor_aligned _ c 8) by zlia.
  assert (k = 0 \/ k = 1 \/ k = 2 \/ k = 3) as [->|[->|[->| ->]]] by lia;
    unfold u8; simpl (8 * _); zlia.
Qed.

Lemma load8_stosl m a c n b : 0 <= c < 256 ->
  load8 (stosl m a (Z.lor (Z.lor (Z.lor (Z.shiftl c 24) (Z.shiftl c 16)) (Z.shiftl c 8)) c) n) b =
    if (a <=? b) && (b <? a + 4 * Z.of_nat n) then c else load8 m b.
Proof.
  intros Hc. revert m a. induction n as [|n IH]; intros m a; simpl stosl.
  - destruct (Z.leb_spec a b), (Z.ltb_spec b (a + 4 * Z.of_nat 0)); simpl; try done. lia.
  - rewrite IH, load8_store32.
    destruct (Z.leb_spec (a + 4) b), (Z.leb_spec a b), (Z.ltb_spec b (a + 4)),
      (Z.ltb_spec b (a + 4 + 4 * Z.of_nat n)),
      (Z.ltb_spec b (a + 4 * Z.of_nat (S n))); simpl; try done; try lia;
      apply u8_splat; lia.
Qed.

Lemma load8_memset m dst c n b : 0 <= n ->
  load8 (memset m dst c n) b = if (dst <=? b) && (b <? dst + n) then u8 c else load8 m b.
Proof.
  intros Hn. unfold memset. destruct (_ && (n mod 4 =? 0)) eqn:Hal.
  - bool_prop. change 0xFF with (Z.ones 8). rewrite Z.land_ones by lia.
    rewrite load8_stosl by (apply Z.mod_pos_bound; lia).
    replace (4 * Z.of_nat (Z.to_nat (n / 4))) with n by zlia. done.
  - rewrite load8_stosb. by rewrite Z2Nat.id.
Qed.

Lemma load8_memmove_fwd m d s n b : d <= s \/ s + Z.of_nat n <= d ->
  load8 (memmove_fwd m d s n) b =
    if (d <=? b) && (b <? d + Z.of_nat n) then load8 m (s + (b - d)) else load8 m b.
Proof.
  revert m d s. induction n as [|n IH]; intros m d s Hov; simpl memmove_fwd.
  - destruct (Z.leb_spec d b), (Z.ltb_spec b (d + Z.of_nat 0)); simpl; try done. lia.
  - rewrite IH, !load8_store8 by lia.
    destruct (Z.leb_spec (d + 1) b), (Z.leb_spec d b), (Z.ltb_spec b (d + 1 + Z.of_nat n)),
      (Z.ltb_spec b (d + Z.of_nat (S n))); simpl; try lia;
      repeat case_decide; try lia; rewrite ?u8_load8; try done; f_equal; lia.
Qed.

Lemma load8_memmove_bwd m d s n b : s <= d \/ d + Z.of_nat n <= s ->
  load8 (memmove_bwd m d s n) b =
    if (d - Z.of_nat n <=? b) && (b <? d) then load8 m (s + (b - d)) else load8 m b.
Proof.
  revert m d s. induction n as [|n IH]; intros m d s Hov; simpl memmove_bwd.
  - destruct (Z.leb_spec (d - Z.of_nat 0) b), (Z.ltb_spec b d); simpl; try done. lia.
  - rewrite IH, !load8_store8 by lia.
    destruct (Z.leb_spec (d - 1 - Z.of_nat n) b), (Z.leb_spec (d - Z.of_nat (S n)) b),
      (Z.ltb_spec b (d - 1)), (Z.ltb_spec b d); simpl; try lia;
      repeat case_decide; try lia; rewrite ?u8_load8; try done; f_equal; lia.
Qed.

Lemma load8_memmove m dst src n b : 0 <= n ->
  load8 (memmove m dst src n) b =
    if (dst <=? b) && (b <? dst + n) then load8 m (src + (b - dst)) else load8 m b.
Proof.
  intros Hn. unfold memmove.
  destruct (Z.ltb_spec src dst), (Z.ltb_spec dst (src + n)); simpl.
  1: rewrite load8_memmove_bwd by lia.
  2-4: rewrite load8_memmove_fwd by lia.
  all: rewrite Z2Nat.id by lia; replace (dst + n - n) with dst by lia; try done.
  case_match; [f_equal; lia|done].
Qed.

Lemma cstr_agree n m m' a : agree m m' a (Z.of_nat n) -> cstr n m' a = cstr n m a.
Proof.
  revert a. induction n as [|n IH]; intros a H; simpl; [done|].
  rewrite (H a) by lia. case_match; [done|]. f_equal. apply IH.
  eapply agree_sub; [exact H|lia|lia].
Qed.

Lemma cstr_cut n k m a : (k <= n)%nat -> cstr k m a = take k (cstr n m a).
Proof.
  revert k a. induction n as [|n IH]; intros [|k] a Hk; simpl; try done; try lia.
  case_match; simpl; [done|]. f_equal. apply IH. lia.
Qed.

Lemma cstr_length n m a : (length (cstr n m a) <= n)%nat.
Proof.
  revert a. induction n as [|n IH]; intros a; simpl; [lia|].
  case_match; simpl; [lia|]. specialize (IH (a + 1)). lia.
Qed.

Lemma cstr_nonzero n m a : Forall (fun c => c <> 0) (cstr n m a).
Proof.
  revert a. induction n as [|n IH]; intros a; simpl; [constructor|].
  case_match; bool_prop; [constructor|]. constructor; auto.
Qed.

Lemma load8_strncpy_pad m s n b :
  load8 (strncpy_pad m s n) b =
    if (s <=? b) && (b <? s + Z.of_nat n) then 0 else load8 m b.
Proof.
  transitivity (load8 (stosb m s 0 n) b); [f_equal|by rewrite load8_stosb].
  revert m s. induction n as [|n IH]; intros m s; simpl; [done|]. by rewrite IH.
Qed.

Lemma load8_strncpy_loop m s t n b :
  s + Z.of_nat n <= t \/ t + Z.of_nat n <= s ->
  load8 (strncpy_loop m s t n) b =
    if (s <=? b) && (b <? s + Z.of_nat n)
    then nth (Z.to_nat (b - s)) (cstr n m t) 0 else load8 m b.
Proof.
  revert m s t. induction n as [|n IH]; intros m s t Hov; simpl strncpy_loop.
  { destruct (Z.leb_spec s b), (Z.ltb_spec b (s + Z.of_nat 0)); simpl; try done. lia. }
  simpl cstr. destruct (load8 m t =? 0) eqn:Hc; bool_prop.
  - rewrite load8_strncpy_pad, load8_store8, Hc.
    destruct (Z.leb_spec (s + 1) b), (Z.leb_spec s b), (Z.ltb_spec b (s + 1 + Z.of_nat n)),
      (Z.ltb_spec b (s + Z.of_nat (S n))); simpl; try lia;
      repeat case_decide; try lia; try done; by destruct (Z.to_nat (b - s)).
  - rewrite IH, load8_store8 by lia.
    rewrite (cstr_agree n m (store8 m s (load8 m t)) (t + 1))
      by (intros c Hc'; apply load8_store8_ne; lia).
    destruct (Z.leb_spec (s + 1) b), (Z.leb_spec s b), (Z.ltb_spec b (s + 1 + Z.of_nat n)),
      (Z.ltb_spec b (s + Z.of_nat (S n))); simpl; try lia;
      repeat case_decide; try lia; try done.
    + replace (Z.to_nat (b - s)) with (S (Z.to_nat (b - (s + 1)))) by lia. done.
    + subst. rewrite Z.sub_diag. simpl. apply u8_load8.
Qed.

Lemma safestrcpy_loop_frame m s t k b : b < s \/ s + Z.of_nat k < b ->
  load8 (safestrcpy_loop m s t k) b = load8 m b.
Proof.
  revert m s t. induction k as [|k IH]; intros m s t Hb; simpl.
  - apply load8_store8_ne. lia.
  - case_match; [rewrite !load8_store8_ne by lia; done|].
    rewrite IH by lia. apply load8_store8_ne. lia.
Qed.

Lemma safestrcpy_loop_cstr m s t k :
  s + Z.of_nat k < t \/ t + Z.of_nat k <= s ->
  cstr (S k) (safestrcpy_loop m s t k) s = cstr k m t.
Proof.
  revert m s t. induction k as [|k IH]; intros m s t Hov.
  { simpl. rewrite load8_store8_eq. done. }
  cbn [safestrcpy_loop]. set (c := load8 m t).
  change (cstr (S k) m t) with (if c =? 0 then [] else c :: cstr k m (t + 1)).
  destruct (c =? 0) eqn:Hc; bool_prop.
  - cbn [cstr]. rewrite load8_store8_ne, load8_store8_eq, Hc by lia. done.
  - change (cstr (S (S k)) ?m' s)
      with (if load8 m' s =? 0 then [] else load8 m' s :: cstr (S k) m' (s + 1)).
    rewrite safestrcpy_loop_frame, load8_store8_eq by lia.
    assert (u8 c = c) as -> by apply u8_load8. rewrite (proj2 (Z.eqb_neq c 0) Hc).
    f_equal. rewrite IH by lia. apply cstr_agree. intros a Ha.
    apply load8_store8_ne. lia.
Qed.

Lemma strncmp_eq0 m p q n : strncmp m p q n = 0 <-> cstr n m p = cstr n m q.
Proof.
  revert p q. induction n as [|n IH]; intros p q; simpl; [done|].
  destruct (load8 m p =? 0) eqn:Hp; simpl; bool_prop.
  - rewrite Hp. destruct (load8 m q =? 0) eqn:Hq; bool_prop; split; intros; try done; lia.
  - destruct (load8 m p =? load8 m q) eqn:He; bool_prop.
    + rewrite <- He, (proj2 (Z.eqb_neq _ _) Hp), IH. split; congruence.
    + destruct (load8 m q =? 0); split; try lia; congruence.
Qed.

Lemma memcmp_eq0 m s1 s2 n :
  memcmp m s1 s2 n = 0 <->
  forall i, 0 <= i < Z.of_nat n -> load8 m (s1 + i) = load8 m (s2 + i).
Proof.
  revert s1 s2. induction n as [|n IH]; intros s1 s2; simpl memcmp.
  { split; [intros _ i Hi; lia|done]. }
  destruct (load8 m s1 =? load8 m s2) eqn:He; bool_prop.
  - rewrite IH. split.
    + intros H i Hi. destruct (decide (i = 0)) as [->|]; [by rewrite !Z.add_0_r|].
      specialize (H (i - 1) ltac:(lia)).
      replace (s1 + 1 + (i - 1)) with (s1 + i) in H by lia.
      by replace (s2 + 1 + (i - 1)) with (s2 + i) in H by lia.
    + intros H i Hi. specialize (H (i + 1) ltac:(lia)).
      by rewrite !Z.add_assoc, (Z.add_shuffle0 s1), (Z.add_shuffle0 s2) in H.
  - split; [lia|]. intros H. specialize (H 0 ltac:(lia)). rewrite !Z.add_0_r in H. done.
Qed.

Lemma strlen_loop_spec fuel m s n :
  strlen_loop fuel m s n =
    if (length (cstr fuel m (s + n)) <? fuel)%nat
    then Some (n + Z.of_nat (length (cstr fuel m (s + n)))) else None.
Proof.
  revert n. induction fuel as [|f IH]; intros n; simpl; [done|].
  destruct (load8 m (s + n) =? 0); simpl; [by rewrite Z.add_0_r|].
  rewrite IH, Z.add_assoc. change (S ?a <? S f)%nat with (a <? f)%nat.
  case_match; [|done]. f_equal. lia.
Qed.

Lemma load32_memset0 m dst n a : dst <= a -> a + 4 <= dst + n -> load32 (memset m dst 0 n) a = 0.
Proof.
  intros. unfold load32. rewrite !load8_memset by lia.
  repeat (rewrite (proj2 (Z.leb_le _ _)) by lia; rewrite (proj2 (Z.ltb_lt _ _)) by lia).
  done.
Qed.

(** The proofs of the components use the lemmas above; unfolding these on a
    symbolic memory would unroll a loop of thousands of stores. *)
#[global] Opaque memset memmove load32 store32.
