(* ===== verification/Seg.v ===== *)
(** * Segments, per-CPU data and the task state

    seginit and the whole of switchuvm (vm.c), pushcli and popcli (spinlock.c) on one CPU,
    lgdt and lidt (x86.h), with struct cpu and its descriptor table as bytes of memory, read
    the way the processor reads them.  Theorems: after seginit the kernel and user segments
    span all addresses with their privileges, and [cpu] and [proc], which are read through
    %gs, are those of this CPU; switchuvm leaves a task state from which the processor takes
    the kernel stack of the running process when it enters the kernel. *)

From S2P Require Import Prelude Mmu Memory.

(** struct cpu, by offsets *)
Definition c_ts : Z := 8.
Definition c_gdt : Z := 112.
Definition c_started : Z := 168.
Definition c_ncli : Z := 172.
Definition c_intena : Z := 176.
Definition c_cpu : Z := 180.
Definition c_proc : Z := 184.
Definition CPU_SZ : Z := 188.

(** struct taskstate: its size, and the stack the processor takes when it enters ring 0 *)
Definition TS_SZ : Z := 104.
Definition ts_esp0 : Z := 4.
Definition ts_ss0 : Z := 8.

(** ** Descriptors in memory *)

(** The two words of a descriptor; a field keeps the bits of its width. *)
Definition desc_lo (d : segdesc) : Z := lim_15_0 d mod 2 ^ 16 + base_15_0 d mod 2 ^ 16 * 2 ^ 16.
Definition desc_hi (d : segdesc) : Z :=
  base_23_16 d mod 2 ^ 8 + seg_type d mod 2 ^ 4 * 2 ^ 8 + seg_s d mod 2 * 2 ^ 12 + seg_dpl d mod 2 ^ 2 * 2 ^ 13 +
  seg_p d mod 2 * 2 ^ 15 + lim_19_16 d mod 2 ^ 4 * 2 ^ 16 + seg_avl d mod 2 * 2 ^ 20 + seg_rsv1 d mod 2 * 2 ^ 21 +
  seg_db d mod 2 * 2 ^ 22 + seg_g d mod 2 * 2 ^ 23 + base_31_24 d mod 2 ^ 8 * 2 ^ 24.

Definition desc_of (lo hi : Z) : segdesc :=
  {| lim_15_0 := lo mod 2 ^ 16; base_15_0 := lo / 2 ^ 16;
     base_23_16 := hi mod 2 ^ 8; seg_type := hi / 2 ^ 8 mod 2 ^ 4; seg_s := hi / 2 ^ 12 mod 2;
     seg_dpl := hi / 2 ^ 13 mod 2 ^ 2; seg_p := hi / 2 ^ 15 mod 2; lim_19_16 := hi / 2 ^ 16 mod 2 ^ 4;
     seg_avl := hi / 2 ^ 20 mod 2; seg_rsv1 := hi / 2 ^ 21 mod 2; seg_db := hi / 2 ^ 22 mod 2;
     seg_g := hi / 2 ^ 23 mod 2; base_31_24 := hi / 2 ^ 24 |}.

Definition set_seg_s (v : Z) (d : segdesc) : segdesc :=
  mkSegdesc (lim_15_0 d) (base_15_0 d) (base_23_16 d) (seg_type d) v (seg_dpl d) (seg_p d) (lim_19_16 d) (seg_avl d)
    (seg_rsv1 d) (seg_db d) (seg_g d) (base_31_24 d).

(** ** The processor *)

(** Memory, the descriptor table register (address and limit), the registers %gs and TR,
    the interrupt flag and the page directory. *)
Record segst := mkSegst {
  smem : gmap Z Z;
  gdtr : Z * Z;
  gs : Z;
  tr : Z;
  iflag : bool;
  pdbr : Z }.

Definition set_smem (m : gmap Z Z) (s : segst) : segst := mkSegst m (gdtr s) (gs s) (tr s) (iflag s) (pdbr s).
Definition set_gdtr (g : Z * Z) (s : segst) : segst := mkSegst (smem s) g (gs s) (tr s) (iflag s) (pdbr s).
Definition set_gs (v : Z) (s : segst) : segst := mkSegst (smem s) (gdtr s) v (tr s) (iflag s) (pdbr s).
Definition set_tr (v : Z) (s : segst) : segst := mkSegst (smem s) (gdtr s) (gs s) v (iflag s) (pdbr s).
Definition set_iflag (b : bool) (s : segst) : segst := mkSegst (smem s) (gdtr s) (gs s) (tr s) b (pdbr s).
Definition set_pdbr (v : Z) (s : segst) : segst := mkSegst (smem s) (gdtr s) (gs s) (tr s) (iflag s) v.

(** The descriptor a selector names. *)
Definition sel_desc (s : segst) (sel : Z) : segdesc :=
  let a := (gdtr s).1 + Z.shiftr sel 3 * 8 in desc_of (load32 (smem s) a) (load32 (smem s) (a + 4)).

(** The variables [cpu] and [proc] are %gs:0 and %gs:4. *)
Definition gs_base (s : segst) : Z := seg_base (sel_desc s (gs s)).
Definition gs_load (o : Z) : M segst Z := gets (fun s => load32 (smem s) (gs_base s + o)).
Definition gs_store (o v : Z) : M segst unit := modify (fun s => set_smem (store32 (smem s) (gs_base s + o) v) s).

Definition sload (a : Z) : M segst Z := gets (fun s => load32 (smem s) a).
Definition sstore (a v : Z) : M segst unit := modify (fun s => set_smem (store32 (smem s) a v) s).
Definition store_desc (a : Z) (d : segdesc) : M segst unit := sstore a (desc_lo d) ;; sstore (a + 4) (desc_hi d).

(** What lgdt and lidt hand to the processor: three half-words, read as limit and address. *)
Definition lgdt_desc (p size : Z) : Z * Z :=
  let pd0 := (size - 1) mod 2 ^ 16 in
  let pd1 := u32 p mod 2 ^ 16 in
  let pd2 := Z.shiftr (u32 p) 16 in
  (pd1 + pd2 * 2 ^ 16, pd0).
Definition lgdt (p size : Z) : M segst unit := modify (set_gdtr (lgdt_desc p size)).

(** trap.c: the register of the interrupt table. *)
Definition idtinit (idt : Z) : Z * Z := lgdt_desc idt (256 * 8).

Section seg.
(** The address of [cpus]. *)
Context (cpus : Z).

Definition seginit (cpunum : Z) : M segst unit :=
  let c := cpus + CPU_SZ * cpunum in
  let gdt i := c + c_gdt + 8 * i in
  store_desc (gdt SEG_KCODE) (SEG (Z.lor STA_X STA_R) 0 0xffffffff 0) ;;
  store_desc (gdt SEG_KDATA) (SEG STA_W 0 0xffffffff 0) ;;
  store_desc (gdt SEG_UCODE) (SEG (Z.lor STA_X STA_R) 0 0xffffffff DPL_USER) ;;
  store_desc (gdt SEG_UDATA) (SEG STA_W 0 0xffffffff DPL_USER) ;;
  store_desc (gdt SEG_KCPU) (SEG STA_W (c + c_cpu) 8 0) ;;
  lgdt (c + c_gdt) 56 ;;
  modify (set_gs (Z.shiftl SEG_KCPU 3)) ;;
  gs_store 0 c ;;
  gs_store 4 0.

Definition pushcli : M segst unit :=
  let! eflags := gets iflag in
  modify (set_iflag false) ;;
  let! cpu := gs_load 0 in
  let! n := sload (cpu + c_ncli) in
  sstore (cpu + c_ncli) (n + 1) ;;
  if n =? 0 then sstore (cpu + c_intena) (if eflags then FL_IF else 0) else ret tt.

Definition popcli : M segst unit :=
  let! f := gets iflag in
  if f then panic "popcli - interruptible"
  else
    let! cpu := gs_load 0 in
    let! n := sload (cpu + c_ncli) in
    sstore (cpu + c_ncli) (n - 1) ;;
    if s32 (n - 1) <? 0 then panic "popcli"
    else
      let! i := sload (cpu + c_intena) in
      if (s32 (n - 1) =? 0) && negb (i =? 0) then modify (set_iflag true) else ret tt.

(** [kstack] is proc->kstack, [pgdir] is p->pgdir. *)
Definition switchuvm_cpu (kstack pgdir : Z) : M segst unit :=
  pushcli ;;
  let! cpu := gs_load 0 in
  let d := SEG16 STS_T32A (cpu + c_ts) (TS_SZ - 1) 0 in
  store_desc (cpu + c_gdt + 8 * SEG_TSS) d ;;
  store_desc (cpu + c_gdt + 8 * SEG_TSS) (set_seg_s 0 d) ;;
  modify (fun s => set_smem (store16 (smem s) (cpu + c_ts + ts_ss0) (Z.shiftl SEG_KDATA 3)) s) ;;
  sstore (cpu + c_ts + ts_esp0) (kstack + KSTACKSIZE) ;;
  modify (set_tr (Z.shiftl SEG_TSS 3)) ;;
  if pgdir =? 0 then panic "switchuvm: no pgdir"
  else modify (set_pdbr (v2p pgdir)) ;; popcli.
End seg.

(** What the processor loads on a trap from user mode: stack segment and stack pointer. *)
Definition trap_stack (s : segst) : Z * Z :=
  let ts := seg_base (sel_desc s (tr s)) in (load16 (smem s) (ts + ts_ss0), load32 (smem s) (ts + ts_esp0)).

(** ** Descriptors *)

Definition fields_ok (d : segdesc) : Prop :=
  0 <= lim_15_0 d < 2 ^ 16 /\ 0 <= base_15_0 d < 2 ^ 16 /\ 0 <= base_23_16 d < 2 ^ 8 /\ 0 <= seg_type d < 2 ^ 4 /\
  0 <= seg_s d < 2 /\ 0 <= seg_dpl d < 2 ^ 2 /\ 0 <= seg_p d < 2 /\ 0 <= lim_19_16 d < 2 ^ 4 /\ 0 <= seg_avl d < 2 /\
  0 <= seg_rsv1 d < 2 /\ 0 <= seg_db d < 2 /\ 0 <= seg_g d < 2 /\ 0 <= base_31_24 d < 2 ^ 8.

(** A descriptor is read back from its words. *)
Lemma desc_roundtrip d : fields_ok d -> desc_of (desc_lo d) (desc_hi d) = d.
Proof.
  destruct d as [a b c t s dp p l av r db g e]. unfold fields_ok. cbn. intros (Ha & Hb & Hc & Ht & Hs & Hdp & Hp & Hl & Hav & Hr & Hdb & Hg & He).
  unfold desc_of, desc_lo, desc_hi. cbn.
  rewrite !(Z.mod_small a), !(Z.mod_small b), !(Z.mod_small c), !(Z.mod_small t), !(Z.mod_small s), !(Z.mod_small dp),
    !(Z.mod_small p), !(Z.mod_small l), !(Z.mod_small av), !(Z.mod_small r), !(Z.mod_small db), !(Z.mod_small g), !(Z.mod_small e) by lia.
  f_equal; zlia.
Qed.

Lemma SEG_fields type base lim dpl : 0 <= type < 16 -> 0 <= lim < 2 ^ 32 -> 0 <= dpl < 4 -> fields_ok (SEG type base lim dpl).
Proof.
  intros Ht Hl Hd. pose proof (u32_range base) as Hb. unfold fields_ok, SEG. cbn [lim_15_0 base_15_0 base_23_16 seg_type seg_s seg_dpl
    seg_p lim_19_16 seg_avl seg_rsv1 seg_db seg_g base_31_24]. change 0xffff with (Z.ones 16). change 0xff with (Z.ones 8).
  rewrite !Z.land_ones, !Z.shiftr_div_pow2, (u32_small lim) by lia. repeat split; zlia.
Qed.

Lemma SEG_base type base lim dpl : 0 <= base < 2 ^ 32 -> seg_base (SEG type base lim dpl) = base.
Proof.
  intros Hb. unfold seg_base, SEG. cbn [base_15_0 base_23_16 base_31_24]. change 0xffff with (Z.ones 16). change 0xff with (Z.ones 8).
  rewrite !Z.land_ones, !Z.shiftr_div_pow2, u32_small by lia. zlia.
Qed.

Lemma SEG16_fields type base lim dpl : 0 <= type < 16 -> 0 <= lim < 2 ^ 20 -> 0 <= dpl < 4 -> fields_ok (SEG16 type base lim dpl).
Proof.
  intros Ht Hl Hd. pose proof (u32_range base) as Hb. unfold fields_ok, SEG16. cbn [lim_15_0 base_15_0 base_23_16 seg_type seg_s seg_dpl
    seg_p lim_19_16 seg_avl seg_rsv1 seg_db seg_g base_31_24]. change 0xffff with (Z.ones 16). change 0xff with (Z.ones 8).
  rewrite !Z.land_ones, !Z.shiftr_div_pow2, (u32_small lim) by lia. repeat split; zlia.
Qed.

Lemma SEG16_base type base lim dpl : 0 <= base < 2 ^ 32 -> seg_base (SEG16 type base lim dpl) = base.
Proof.
  intros Hb. unfold seg_base, SEG16. cbn [base_15_0 base_23_16 base_31_24]. change 0xffff with (Z.ones 16). change 0xff with (Z.ones 8).
  rewrite !Z.land_ones, !Z.shiftr_div_pow2, u32_small by lia. zlia.
Qed.

Lemma desc_lo_range d : 0 <= desc_lo d < 2 ^ 32.
Proof. unfold desc_lo. zlia. Qed.

Lemma desc_hi_range d : 0 <= desc_hi d < 2 ^ 32.
Proof. unfold desc_hi. zlia. Qed.

(** lgdt and lidt give the processor the address and the limit. *)
Lemma lgdt_desc_ok p size : 0 <= p < 2 ^ 32 -> 0 < size <= 2 ^ 16 -> lgdt_desc p size = (p, size - 1).
Proof.
  intros Hp Hs. unfold lgdt_desc. rewrite u32_small, Z.shiftr_div_pow2, (Z.mod_small (size - 1)) by lia. f_equal. zlia.
Qed.

(** ** Stores into struct cpu *)

(** The descriptor in the 8 bytes at [a]. *)
Definition desc_at (m : gmap Z Z) (a : Z) : segdesc := desc_of (load32 m a) (load32 m (a + 4)).

Lemma desc_at_eq m a d : fields_ok d -> desc_at (store32 (store32 m a (desc_lo d)) (a + 4) (desc_hi d)) a = d.
Proof.
  intros Hd. unfold desc_at. rewrite load32_store32_ne, !load32_store32_eq by lia.
  rewrite !u32_small by (apply desc_lo_range || apply desc_hi_range). by apply desc_roundtrip.
Qed.

Lemma desc_at_ext m m' a : (forall b, a <= b < a + 8 -> load8 m b = load8 m' b) -> desc_at m a = desc_at m' a.
Proof.
  intros H. unfold desc_at. rewrite (load32_ext m m' a), (load32_ext m m' (a + 4)); [done| |]; intros i Hi; apply H; lia.
Qed.

(** A step that stores a descriptor: it is there, and the other bytes are as before. *)
Lemma wp_store_desc a d s (Q : unit -> segst -> Prop) E : fields_ok d ->
  (forall m, desc_at m a = d -> (forall b, b < a \/ a + 8 <= b -> load8 m b = load8 (smem s) b) -> Q tt (set_smem m s)) ->
  wp (store_desc a d) s Q E.
Proof.
  intros Hd HQ. unfold store_desc, sstore. apply wp_bind. step. step. apply HQ; [by apply desc_at_eq|].
  intros b Hb. cbn [smem set_smem]. by rewrite !load8_store32_ne by lia.
Qed.

Lemma wp_sstore a v s (Q : unit -> segst -> Prop) E :
  (forall m, load32 m a = u32 v -> (forall b, b < a \/ a + 4 <= b -> load8 m b = load8 (smem s) b) -> Q tt (set_smem m s)) ->
  wp (sstore a v) s Q E.
Proof.
  intros HQ. unfold sstore. step. apply HQ; [apply load32_store32_eq|]. intros b Hb. by rewrite load8_store32_ne.
Qed.

(** ** seginit *)

(** A CPU that is set up: its table is loaded, %gs leads to its own variables. *)
Record cpu_ready (c : Z) (s : segst) : Prop := {
  cr_gdtr : gdtr s = (c + c_gdt, 55);
  cr_gs : gs s = Z.shiftl SEG_KCPU 3;
  cr_kcpu : desc_at (smem s) (c + c_gdt + 8 * SEG_KCPU) = SEG STA_W (c + c_cpu) 8 0;
  cr_cpu : load32 (smem s) (c + c_cpu) = c }.

Lemma ready_base c s : cpu_ready c s -> 0 <= c -> c + CPU_SZ < 2 ^ 32 -> gs_base s = c + c_cpu.
Proof.
  intros [H1 H2 H3 H4] Hc Hb. unfold gs_base, sel_desc. rewrite H1, H2. cbn [fst].
  change (Z.shiftr (Z.shiftl SEG_KCPU 3) 3 * 8) with (8 * SEG_KCPU). change (desc_of _ _) with (desc_at (smem s) (c + c_gdt + 8 * SEG_KCPU)).
  rewrite H3. apply SEG_base. unfold c_cpu, CPU_SZ in *. lia.
Qed.

(** The segments of the kernel and of user programs. *)
Definition flat (s : segst) (i type dpl : Z) : Prop :=
  let d := sel_desc s (Z.shiftl i 3) in
  seg_base d = 0 /\ seg_limit d = 0xffffffff /\ seg_type d = type /\ seg_dpl d = dpl /\ seg_p d = 1 /\ seg_s d = 1.

Ltac sg := unfold c_gdt, c_cpu, c_proc, c_ncli, c_intena, c_ts, ts_esp0, ts_ss0, CPU_SZ, SEG_KCODE, SEG_KDATA, SEG_UCODE, SEG_UDATA, SEG_KCPU, SEG_TSS in *; lia.

Lemma flat_SEG s i type dpl : sel_desc s (Z.shiftl i 3) = SEG type 0 0xffffffff dpl -> flat s i type dpl.
Proof. intros H. unfold flat. rewrite H. by repeat split. Qed.

(** Both variables of this CPU through %gs: the two last steps of seginit. *)
Lemma gs_vars_ok c s : 0 <= c -> c + CPU_SZ < 2 ^ 32 -> gdtr s = (c + c_gdt, 55) -> gs s = Z.shiftl SEG_KCPU 3 ->
  desc_at (smem s) (c + c_gdt + 8 * SEG_KCPU) = SEG STA_W (c + c_cpu) 8 0 ->
  wp (gs_store 0 c ;; gs_store 4 0) s (fun _ s' => cpu_ready c s' /\ load32 (smem s') (c + c_proc) = 0 /\
    forall b, b < c + c_cpu \/ c + CPU_SZ <= b -> load8 (smem s') b = load8 (smem s) b) (fun _ _ => False).
Proof.
  intros Hc Hb Hg Hgs Hd.
  assert (forall m, (forall b, b < c + c_cpu \/ c + CPU_SZ <= b -> load8 m b = load8 (smem s) b) ->
    desc_at m (c + c_gdt + 8 * SEG_KCPU) = SEG STA_W (c + c_cpu) 8 0 /\ gs_base (set_smem m s) = c + c_cpu) as Hbase.
  { intros m Hm. assert (desc_at m (c + c_gdt + 8 * SEG_KCPU) = SEG STA_W (c + c_cpu) 8 0) as E.
    { rewrite <- Hd. apply desc_at_ext. intros b Hb'. apply Hm. sg. }
    split; [done|]. unfold gs_base, sel_desc. cbn [gdtr gs smem set_smem]. rewrite Hg, Hgs. cbn [fst].
    change (Z.shiftr (Z.shiftl SEG_KCPU 3) 3 * 8) with (8 * SEG_KCPU).
    change (desc_of _ _) with (desc_at m (c + c_gdt + 8 * SEG_KCPU)). rewrite E. apply SEG_base. sg. }
  unfold gs_store. apply wp_bind. step. destruct (Hbase (smem s)) as [_ E0]; [done|].
  replace (set_smem (smem s) s) with s in E0 by (by destruct s). rewrite E0, Z.add_0_r. step. cbn [smem set_smem].
  destruct (Hbase (store32 (smem s) (c + c_cpu) c)) as [_ E1]; [intros b Hb'; apply load8_store32_ne; sg|]. rewrite E1.
  replace (c + c_cpu + 4) with (c + c_proc) by sg. set (m2 := store32 (store32 _ _ _) _ _).
  assert (forall b, b < c + c_cpu \/ c + CPU_SZ <= b -> load8 m2 b = load8 (smem s) b) as Hm2
    by (intros b Hb'; unfold m2; rewrite !load8_store32_ne by sg; done).
  destruct (Hbase m2 Hm2) as [E2 _]. split; [|split; [|exact Hm2]].
  - split; [done|done|exact E2|]. cbn [smem set_smem]. unfold m2. rewrite load32_store32_ne, load32_store32_eq by sg. apply u32_small. sg.
  - unfold m2. by rewrite load32_store32_eq.
Qed.

(** After seginit on CPU [n] the descriptor table of that CPU is the one in force: the
    kernel's and the user programs' code and data segments span all addresses, with
    privilege 0 and 3; [cpu] and [proc], which the kernel reads through %gs, are the CPU's own
    struct and no process; and no byte outside that struct has changed. *)
Theorem seginit_spec cpus n s : let c := cpus + CPU_SZ * n in 0 <= c -> c + CPU_SZ < 2 ^ 32 ->
  returns (seginit cpus n) s (fun _ s' => cpu_ready c s' /\ load32 (smem s') (c + c_proc) = 0 /\
    flat s' SEG_KCODE (Z.lor STA_X STA_R) 0 /\ flat s' SEG_KDATA STA_W 0 /\
    flat s' SEG_UCODE (Z.lor STA_X STA_R) DPL_USER /\ flat s' SEG_UDATA STA_W DPL_USER /\
    forall b, b < c \/ c + CPU_SZ <= b -> load8 (smem s') b = load8 (smem s) b).
Proof.
  intros c Hc Hb. unfold seginit. fold c. unfold returns.
  apply wp_bind, wp_store_desc; [by apply SEG_fields|]. intros m1 D1 F1.
  apply wp_bind, wp_store_desc; [by apply SEG_fields|]. intros m2 D2 F2.
  apply wp_bind, wp_store_desc; [by apply SEG_fields|]. intros m3 D3 F3.
  apply wp_bind, wp_store_desc; [by apply SEG_fields|]. intros m4 D4 F4.
  apply wp_bind, wp_store_desc; [by apply SEG_fields|]. intros m5 D5 F5.
  apply wp_bind. unfold lgdt. step. apply wp_bind. step. cbn [smem set_smem] in *.
  rewrite lgdt_desc_ok by sg. eapply wp_mono; [apply (gs_vars_ok c); try done|intros [] s' (Hr & Hp & Hf)|done].
  cbv beta. cbn [smem set_smem set_gs set_gdtr] in Hf. split; [done|]. split; [done|].
  assert (forall i d m, desc_at m (c + c_gdt + 8 * i) = d -> (forall b, c + c_gdt + 8 * i <= b < c + c_gdt + 8 * i + 8 -> load8 (smem s') b = load8 m b) ->
    1 <= i < 7 -> sel_desc s' (Z.shiftl i 3) = d) as Hsel.
  { intros i d m <- Hm Hi. unfold sel_desc. rewrite (cr_gdtr _ _ Hr). cbn [fst].
    rewrite Z.shiftl_mul_pow2, Z.shiftr_div_pow2 by lia. change (2 ^ 3) with 8. rewrite Z.div_mul by lia. rewrite (Z.mul_comm i).
    change (desc_of _ _) with (desc_at (smem s') (c + c_gdt + 8 * i)). by apply desc_at_ext. }
  split; [apply flat_SEG|split; [apply flat_SEG|split; [apply flat_SEG|split; [apply flat_SEG|]]]].
  - apply (Hsel _ _ m1 D1); [|sg]. intros b Hb'. rewrite Hf, F5, F4, F3, F2 by sg. done.
  - apply (Hsel _ _ m2 D2); [|sg]. intros b Hb'. rewrite Hf, F5, F4, F3 by sg. done.
  - apply (Hsel _ _ m3 D3); [|sg]. intros b Hb'. rewrite Hf, F5, F4 by sg. done.
  - apply (Hsel _ _ m4 D4); [|sg]. intros b Hb'. rewrite Hf, F5 by sg. done.
  - intros b Hb'. rewrite Hf, F5, F4, F3, F2, F1 by sg. done.
Qed.

(** ** switchuvm *)

(** Stores into the task state, the table entry of the task and the interrupt counters leave
    a CPU set up. *)
Lemma ready_frame c s m : cpu_ready c s ->
  (forall b, c + c_gdt + 8 * SEG_KCPU <= b < c + c_gdt + 8 * SEG_KCPU + 8 \/ c + c_cpu <= b < c + c_cpu + 4 -> load8 m b = load8 (smem s) b) ->
  cpu_ready c (set_smem m s).
Proof.
  intros [H1 H2 H3 H4] Hm. split; [done|done| |].
  - rewrite <- H3. apply desc_at_ext. intros b Hb. apply Hm. by left.
  - cbn [smem set_smem]. rewrite (load32_ext m (smem s)); [done|]. intros i Hi. apply Hm. right. lia.
Qed.

Lemma wp_cpu c s (Q : Z -> segst -> Prop) E : cpu_ready c s -> 0 <= c -> c + CPU_SZ < 2 ^ 32 -> Q c s -> wp (gs_load 0) s Q E.
Proof. intros Hr Hc Hb HQ. unfold gs_load. apply wp_gets. rewrite (ready_base c), Z.add_0_r, (cr_cpu c) by done. done. Qed.

Section switch.
Context (c : Z) (Hc : 0 <= c) (Hb : c + CPU_SZ < 2 ^ 32).

(** pushcli counts, and keeps the interrupt flag when it is the first. *)
Lemma cpu_pushcli_ok s : cpu_ready c s -> 0 <= load32 (smem s) (c + c_ncli) < 2 ^ 31 - 1 ->
  wp pushcli s (fun _ s' => exists m, s' = set_iflag false (set_smem m s) /\
    load32 m (c + c_ncli) = load32 (smem s) (c + c_ncli) + 1 /\
    (load32 (smem s) (c + c_ncli) = 0 -> load32 m (c + c_intena) = if iflag s then FL_IF else 0) /\
    forall b, b < c + c_ncli \/ c + c_cpu <= b -> load8 m b = load8 (smem s) b) (fun _ _ => False).
Proof.
  intros Hr Hn. unfold pushcli. apply wp_bind, wp_gets. apply wp_bind. step. set (s0 := set_iflag false s).
  assert (cpu_ready c s0) as Hr0 by (by destruct Hr). apply wp_bind, (wp_cpu c); [done..|]. unfold sload. apply wp_bind, wp_gets.
  cbn [smem set_iflag s0]. set (n := load32 (smem s) (c + c_ncli)) in *. apply wp_bind, wp_sstore. intros m1 L1 F1. rewrite u32_small in L1 by lia.
  cbn [smem set_iflag s0] in F1. destruct (Z.eqb_spec n 0) as [Hz|Hz].
  - apply wp_sstore. intros m2 L2 F2. cbn [smem set_smem] in F2. exists m2. split; [done|]. split; [|split].
    + rewrite <- L1. apply load32_ext. intros i Hi. apply F2. sg.
    + intros _. rewrite L2. by destruct (iflag s).
    + intros b Hb'. rewrite F2, F1 by sg. done.
  - step. exists m1. split; [done|]. split; [done|]. split; [lia|]. intros b Hb'. apply F1. sg.
Qed.

Lemma cpu_popcli_ok s n : cpu_ready c s -> iflag s = false -> load32 (smem s) (c + c_ncli) = n + 1 -> 0 <= n < 2 ^ 31 - 1 ->
  wp popcli s (fun _ s' => exists m, smem s' = m /\ s' = set_smem m (set_iflag (iflag s') s) /\ load32 m (c + c_ncli) = n /\
    iflag s' = ((n =? 0) && negb (load32 (smem s) (c + c_intena) =? 0)) /\
    forall b, b < c + c_ncli \/ c + c_ncli + 4 <= b -> load8 m b = load8 (smem s) b) (fun _ _ => False).
Proof.
  intros Hr Hi Hn Hlt. unfold popcli. apply wp_bind, wp_gets. rewrite Hi. apply wp_bind, (wp_cpu c); [done..|].
  unfold sload at 1. apply wp_bind, wp_gets. rewrite Hn. replace (n + 1 - 1) with n by lia. apply wp_bind, wp_sstore. intros m L F.
  rewrite u32_small in L by lia. assert (s32 n = n) as -> by (unfold s32; rewrite u32_small, (proj2 (Z.ltb_lt _ _)) by lia; done).
  rewrite (proj2 (Z.ltb_ge _ _)) by lia. unfold sload. apply wp_bind, wp_gets. cbn [smem set_smem].
  assert (load32 m (c + c_intena) = load32 (smem s) (c + c_intena)) as ->
    by (apply load32_ext; intros i Hi'; apply F; sg).
  destruct ((n =? 0) && negb (load32 (smem s) (c + c_intena) =? 0)) eqn:E; step; exists m; cbn [smem set_smem set_iflag iflag].
  - done.
  - split; [done|]. split; [by destruct s; cbn in *; subst|]. done.
Qed.

Lemma sel_tss s : gdtr s = (c + c_gdt, 55) -> sel_desc s (Z.shiftl SEG_TSS 3) = desc_at (smem s) (c + c_gdt + 8 * SEG_TSS).
Proof. intros Hg. unfold sel_desc. by rewrite Hg. Qed.
End switch.

(** The descriptor of the task state. *)
Definition tss_desc (c : Z) : segdesc := set_seg_s 0 (SEG16 STS_T32A (c + c_ts) (TS_SZ - 1) 0).

Lemma tss_fields c : fields_ok (tss_desc c).
Proof.
  pose proof (SEG16_fields STS_T32A (c + c_ts) (TS_SZ - 1) 0 ltac:(done) ltac:(done) ltac:(done)) as H.
  unfold fields_ok, tss_desc, set_seg_s in *. cbn [lim_15_0 base_15_0 base_23_16 seg_type seg_s seg_dpl
    seg_p lim_19_16 seg_avl seg_rsv1 seg_db seg_g base_31_24] in *. intuition lia.
Qed.

(** C33. switchuvm on a CPU that is set up, for a process with a page directory: the page
    directory is in force; the task register names a task state of this CPU, of the right
    type and size, from which the processor takes the top of the kernel stack of the running
    process (with the kernel's data segment) when a trap comes from user mode; the
    count of pushcli and the interrupt flag are what they were; and nothing outside the
    struct of this CPU has changed. *)
Theorem switchuvm_spec c kstack pgdir s : 0 <= c -> c + CPU_SZ < 2 ^ 32 -> cpu_ready c s -> pgdir <> 0 ->
  0 <= kstack -> kstack + KSTACKSIZE < 2 ^ 32 -> 0 <= load32 (smem s) (c + c_ncli) < 2 ^ 31 - 1 ->
  (load32 (smem s) (c + c_ncli) <> 0 -> iflag s = false) ->
  returns (switchuvm_cpu kstack pgdir) s (fun _ s' => cpu_ready c s' /\ pdbr s' = v2p pgdir /\
    trap_stack s' = (Z.shiftl SEG_KDATA 3, kstack + KSTACKSIZE) /\
    seg_type (sel_desc s' (tr s')) = STS_T32A /\ seg_s (sel_desc s' (tr s')) = 0 /\ seg_limit (sel_desc s' (tr s')) = TS_SZ - 1 /\
    load32 (smem s') (c + c_ncli) = load32 (smem s) (c + c_ncli) /\ iflag s' = iflag s /\
    forall b, b < c \/ c + CPU_SZ <= b -> load8 (smem s') b = load8 (smem s) b).
Proof.
  intros Hc Hb Hr Hp Hk1 Hk2 Hn Hif. unfold switchuvm_cpu, returns. set (n := load32 (smem s) (c + c_ncli)) in *.
  apply wp_bind. eapply wp_mono; [apply (cpu_pushcli_ok c); done| |done]. fold n. intros [] s1 (m1 & -> & L1 & I1 & F1).
  assert (cpu_ready c (set_iflag false (set_smem m1 s))) as Hr1.
  { assert (cpu_ready c (set_smem m1 s)) as [] by (apply ready_frame; [done|]; intros b Hb'; apply F1; sg). by split. }
  apply wp_bind, (wp_cpu c); [done..|]. apply wp_bind, wp_store_desc; [by apply SEG16_fields|]. intros m2 _ F2.
  apply wp_bind, wp_store_desc; [apply tss_fields|]. intros m3 D3 F3. fold (tss_desc c) in D3. apply wp_bind. step.
  cbn [smem set_smem set_iflag] in *. set (m4 := store16 m3 _ _).
  assert (forall b, b < c + c_ts + ts_ss0 \/ c + c_ts + ts_ss0 + 2 <= b -> load8 m4 b = load8 m3 b) as F4
    by (intros b Hb'; by apply load8_store16_ne).
  assert (load16 m4 (c + c_ts + ts_ss0) = 16) as L4 by apply load16_store16_eq. clearbody m4.
  apply wp_bind, wp_sstore. intros m5 L5 F5. cbn [smem set_smem] in F5. rewrite u32_small in L5 by (unfold KSTACKSIZE in *; lia). apply wp_bind. step.
  rewrite (proj2 (Z.eqb_neq _ _) Hp). apply wp_bind. step. set (s6 := set_pdbr _ _).
  assert (smem s6 = m5 /\ iflag s6 = false /\ tr s6 = 48 /\ pdbr s6 = v2p pgdir /\ gdtr s6 = gdtr s) as (E1 & E2 & E3 & E4 & E5) by done.
  assert (forall b, c + c_started <= b -> load8 m5 b = load8 m1 b) as F15
    by (intros b Hb'; rewrite F5, F4, F3, F2 by (unfold c_started in *; sg); done).
  assert (cpu_ready c s6) as Hr6.
  { assert (cpu_ready c (set_smem m5 (set_iflag false (set_smem m1 s)))) as []
      by (apply ready_frame; [done|]; intros b Hb'; cbn [smem set_smem set_iflag]; rewrite F5, F4, F3, F2 by sg; done). by split. }
  clearbody s6. subst m5. eapply wp_mono; [apply (cpu_popcli_ok c Hc Hb s6 n Hr6 E2); [|lia]| |done].
  { rewrite <- L1. apply load32_ext. intros i Hi. apply F15. unfold c_started. sg. }
  intros [] s7 (m7 & Em & Es & L7 & I7 & F7). rewrite Em. assert (gdtr s7 = (c + c_gdt, 55)) as G7
    by (rewrite Es; exact (cr_gdtr _ _ Hr6)).
  assert (tr s7 = Z.shiftl SEG_TSS 3) as T7 by (rewrite Es; exact E3).
  assert (sel_desc s7 (tr s7) = tss_desc c) as D7.
  { rewrite T7, (sel_tss c s7 G7), Em, <- D3. apply desc_at_ext. intros b Hb'. rewrite F7, F5, F4 by sg. done. }
  assert (seg_base (tss_desc c) = c + c_ts) as B7 by (apply (SEG16_base STS_T32A (c + c_ts) (TS_SZ - 1) 0); sg).
  split; [|split; [rewrite Es; exact E4|split; [|rewrite D7; split; [done|split; [done|split; [done|split; [by rewrite L7|split]]]]]]].
  - rewrite Es. assert (cpu_ready c (set_smem m7 s6)) as [] by (apply ready_frame; [done|]; intros b Hb'; apply F7; sg). by split.
  - unfold trap_stack. rewrite D7, B7, Em. f_equal.
    + change (Z.shiftl SEG_KDATA 3) with 16. rewrite <- L4. unfold load16. rewrite !F7, !F5 by sg. done.
    + rewrite <- L5. apply load32_ext. intros i Hi. apply F7. sg.
  - rewrite I7. assert (load32 (smem s6) (c + c_intena) = load32 m1 (c + c_intena)) as ->
      by (apply load32_ext; intros i Hi; apply F15; unfold c_started; sg).
    destruct (Z.eqb_spec n 0) as [Hz|Hz]; [rewrite I1 by done; by destruct (iflag s)|by rewrite Hif].
  - intros b Hb'. rewrite F7, F5, F4, F3, F2, F1 by sg. done.
Qed.

(** Without a page directory the kernel stops. *)
Lemma switchuvm_no_pgdir c kstack s : 0 <= c -> c + CPU_SZ < 2 ^ 32 -> cpu_ready c s -> 0 <= load32 (smem s) (c + c_ncli) < 2 ^ 31 - 1 ->
  wp (switchuvm_cpu kstack 0) s (fun _ _ => False) (fun w _ => w = Panicked "switchuvm: no pgdir").
Proof.
  intros Hc Hb Hr Hn. unfold switchuvm_cpu. apply wp_bind. eapply wp_mono; [apply (cpu_pushcli_ok c); done| |done].
  intros [] s1 (m1 & -> & _ & _ & F1). apply wp_bind, (wp_cpu c); [|done|done|].
  - assert (cpu_ready c (set_smem m1 s)) as [] by (apply ready_frame; [done|]; intros b Hb'; apply F1; sg). by split.
  - unfold store_desc, sstore. by steps.
Qed.

(** CPU 1 after seginit, with interrupts off and the counters at 0. *)
Definition cpus0 : Z := 0x80112780.
Definition booted : segst := final (seginit cpus0 1 (mkSegst ∅ (0, 0) 0 0 false 0)).

Lemma booted_ready : cpu_ready (cpus0 + CPU_SZ) booted.
Proof. split; by vm_compute. Qed.

Lemma seginit_spec_witness : returns (seginit cpus0 1) (mkSegst ∅ (0, 0) 0 0 false 0)
  (fun _ s => flat s SEG_UCODE (Z.lor STA_X STA_R) DPL_USER).
Proof.
  eapply returns_mono; [apply (seginit_spec cpus0 1); by vm_compute|].
  intros _ s (_ & _ & _ & _ & Hu & _). exact Hu.
Defined.

Lemma switchuvm_spec_witness : returns (switchuvm_cpu 0x8dfff000 0x8dffe000) booted
  (fun _ s => trap_stack s = (16, 0x8e000000) /\ pdbr s = 0xdffe000).
Proof.
  eapply returns_mono.
  - apply (switchuvm_spec (cpus0 + CPU_SZ)); try exact booted_ready; try (by vm_compute).
  - intros _ s (_ & Hp & Ht & _). exact (conj Ht Hp).
Defined.
