(* ===== verification/Kstate.v ===== *)
(** * State of the memory side of the kernel

    What kalloc.c and vm.c keep: physical memory, the free list of kalloc.c,
    the reference counts [pte_lookup_table.pte_array] of vm.c, the page
    directory register, the spinlocks this CPU holds, and the calls made to
    [cprintf].  The lock discipline here is the one spinlock.c enforces on one
    CPU (see Spinlock.v): acquiring a lock one holds and releasing a lock one
    does not hold panic. *)

From S2P Require Import Prelude Mmu Memory.

(** The spinlocks of the kernel. *)
Inductive lock : Type :=
| L_kmem | L_pte_lookup | L_ptable | L_tickslock | L_cons | L_input
| L_bcache | L_icache | L_ftable | L_log | L_ide | L_pipe (addr : Z).

#[export] Instance lock_eq_dec : EqDecision lock.
Proof. solve_decision. Defined.

Record kst : Type := mkKst {
  mem : gmap Z Z;                  (* bytes, by kernel virtual address *)
  freelist : Z;                    (* kmem.freelist *)
  use_lock : bool;                 (* kmem.use_lock *)
  pte_array : gmap Z Z;            (* pte_lookup_table.pte_array *)
  cr3 : Z;                         (* physical address of the page directory *)
  held : list lock;                (* locks this CPU holds, last taken first *)
  out : list (string * list Z)     (* cprintf calls, latest first *)
}.

Definition set_mem (m : gmap Z Z) (s : kst) : kst :=
  mkKst m (freelist s) (use_lock s) (pte_array s) (cr3 s) (held s) (out s).
Definition set_freelist (r : Z) (s : kst) : kst :=
  mkKst (mem s) r (use_lock s) (pte_array s) (cr3 s) (held s) (out s).
Definition set_use_lock (b : bool) (s : kst) : kst :=
  mkKst (mem s) (freelist s) b (pte_array s) (cr3 s) (held s) (out s).
Definition set_pte_array (t : gmap Z Z) (s : kst) : kst :=
  mkKst (mem s) (freelist s) (use_lock s) t (cr3 s) (held s) (out s).
Definition set_cr3 (c : Z) (s : kst) : kst :=
  mkKst (mem s) (freelist s) (use_lock s) (pte_array s) c (held s) (out s).
Definition set_held (l : list lock) (s : kst) : kst :=
  mkKst (mem s) (freelist s) (use_lock s) (pte_array s) (cr3 s) l (out s).
Definition set_out (o : list (string * list Z)) (s : kst) : kst :=
  mkKst (mem s) (freelist s) (use_lock s) (pte_array s) (cr3 s) (held s) o.

(** ** Primitive steps *)

Definition load (a : Z) : M kst Z := gets (fun s => load32 (mem s) a).
Definition store (a v : Z) : M kst unit := modify (fun s => set_mem (store32 (mem s) a v) s).
Definition on_mem (f : gmap Z Z -> gmap Z Z) : M kst unit :=
  modify (fun s => set_mem (f (mem s)) s).

Definition drop_lock (l : lock) (ls : list lock) : list lock := filter (fun x => x <> l) ls.
#[global] Arguments drop_lock : simpl never.

Definition acquire (l : lock) : M kst unit := fun s =>
  if decide (l ∈ held s) then Stop (Panicked "acquire") s
  else Done tt (set_held (l :: held s) s).

Definition release (l : lock) : M kst unit := fun s =>
  if decide (l ∈ held s) then Done tt (set_held (drop_lock l (held s)) s)
  else Stop (Panicked "release") s.

Definition when (b : bool) (c : M kst unit) : M kst unit := if b then c else ret tt.

Definition cprintf (fmt : string) (args : list Z) : M kst unit :=
  modify (fun s => set_out ((fmt, args) :: out s) s).

(** The entry of [pte_array], a signed [char]. *)
Definition refcount (s : kst) (i : Z) : Z := s8 (default 0 (pte_array s !! i)).
Definition set_refcount (i v : Z) : M kst unit :=
  modify (fun s => set_pte_array (<[i := v]> (pte_array s)) s).

(** ** Lemmas *)

Lemma wp_load a s Q E : Q (load32 (mem s) a) s -> wp (load a) s Q E.
Proof. done. Qed.

Lemma wp_store a v s (Q : unit -> kst -> Prop) E :
  Q tt (set_mem (store32 (mem s) a v) s) -> wp (store a v) s Q E.
Proof. done. Qed.

Lemma wp_on_mem f s (Q : unit -> kst -> Prop) E :
  Q tt (set_mem (f (mem s)) s) -> wp (on_mem f) s Q E.
Proof. done. Qed.

Lemma wp_acquire l s (Q : unit -> kst -> Prop) E :
  l ∉ held s -> Q tt (set_held (l :: held s) s) -> wp (acquire l) s Q E.
Proof. intros Hl HQ. unfold wp, acquire. by rewrite decide_False. Qed.

Lemma wp_release l s (Q : unit -> kst -> Prop) E :
  l ∈ held s -> Q tt (set_held (drop_lock l (held s)) s) ->
  wp (release l) s Q E.
Proof. intros Hl HQ. unfold wp, release. by rewrite decide_True. Qed.

Lemma drop_lock_ne (l : lock) (ls : list lock) : l ∉ ls -> drop_lock l ls = ls.
Proof.
  unfold drop_lock. induction ls as [|a ls IH]; intros H; [done|].
  rewrite filter_cons. apply not_elem_of_cons in H as [H1 H2].
  rewrite decide_True by congruence. f_equal. by apply IH.
Qed.

(** Releasing the lock taken last restores the list of held locks. *)
Lemma release_top (l : lock) (ls : list lock) : l ∉ ls -> drop_lock l (l :: ls) = ls.
Proof.
  intros H. unfold drop_lock. rewrite filter_cons, decide_False by congruence.
  by apply drop_lock_ne.
Qed.

Lemma set_mem_id s : set_mem (mem s) s = s.
Proof. by destruct s. Qed.

Lemma set_held_id s : set_held (held s) s = s.
Proof. by destruct s. Qed.

#[export] Hint Resolve wp_load wp_store wp_on_mem : xv6.

(** [kstep] extends [step] with the primitives of this file. *)
Ltac kstep :=
  first
    [ step
    | match goal with
      | |- wp (load _) _ _ _ => apply wp_load
      | |- wp (store _ _) _ _ _ => apply wp_store
      | |- wp (on_mem _) _ _ _ => apply wp_on_mem
      | |- wp (cprintf _ _) _ _ _ => apply wp_modify
      | |- wp (set_refcount _ _) _ _ _ => apply wp_modify
      | |- wp (when false _) _ _ _ => apply wp_ret
      | |- wp (when true _) _ _ _ => unfold when at 1
      end ].
Ltac ksteps := repeat (kstep; cbn beta).
