(* ===== verification/Kalloc.v ===== *)
(** * The physical page allocator, kalloc.c

    Free pages form a singly linked list threaded through the pages
    themselves: the first word of a free page is the address of the next one.
    [kinv s l] says that memory holds such a list, namely [l]; the operations
    are shown to implement a stack of pages. *)

From S2P Require Import Prelude Mmu Memory Kstate.

(** ** The linker's symbols

    [end] and [data] are placed by kernel.ld: the kernel is linked above
    KERNLINK, [data] starts on a page boundary, [end] follows it, and the image
    fits below PHYSTOP. *)
Class Layout : Type := {
  end_ : Z;
  data_ : Z;
  data_aligned : data_ mod PGSIZE = 0;
  data_above : KERNLINK < data_;
  end_above : data_ <= end_;
  end_below : end_ < KERNBASE + PHYSTOP
}.

(** ** Operations *)

Section kalloc.
Context `{Layout}.

Definition kfree (v : Z) : M kst unit :=
  if negb (v mod PGSIZE =? 0) || (v <? end_) || (PHYSTOP <=? v2p v) then panic "kfree"
  else
    on_mem (fun m => memset m v 1 PGSIZE) ;;
    let! u := gets use_lock in
    when u (acquire L_kmem) ;;
    let! r := gets freelist in
    store v r ;;
    modify (set_freelist v) ;;
    let! u := gets use_lock in
    when u (release L_kmem).

Definition kalloc : M kst Z :=
  let! u := gets use_lock in
  when u (acquire L_kmem) ;;
  let! r := gets freelist in
  (if r =? 0 then ret tt
   else let! n := load r in modify (set_freelist n)) ;;
  let! u := gets use_lock in
  when u (release L_kmem) ;;
  ret r.

(** The loop of [freerange]: [p + PGSIZE] is computed on 32 bits. *)
Fixpoint freerange_loop (fuel : nat) (p vend : Z) : M kst unit :=
  match fuel with
  | O => halt Diverged
  | S f =>
      if u32 (p + PGSIZE) <=? vend then
        kfree p ;; freerange_loop f (u32 (p + PGSIZE)) vend
      else ret tt
  end.

Definition freerange (vstart vend : Z) : M kst unit :=
  let p := PGROUNDUP vstart in
  freerange_loop (Z.to_nat ((vend - p) / PGSIZE + 2)) p vend.

Definition kinit1 (vstart vend : Z) : M kst unit :=
  modify (set_use_lock false) ;; freerange vstart vend.

Definition kinit2 (vstart vend : Z) : M kst unit :=
  freerange vstart vend ;; modify (set_use_lock true).

(** ** The free list *)

(** A page the allocator may hand out, by its kernel virtual address. *)
Definition kpage (p : Z) : Prop :=
  p mod PGSIZE = 0 /\ end_ <= p /\ p < KERNBASE + PHYSTOP.

Fixpoint flist (m : gmap Z Z) (r : Z) (l : list Z) : Prop :=
  match l with
  | [] => r = 0
  | p :: l' => r = p /\ flist m (load32 m p) l'
  end.

Definition unlocked (s : kst) : Prop := use_lock s = true -> L_kmem ∉ held s.

Record kinv (s : kst) (l : list Z) : Prop := {
  kinv_list : flist (mem s) (freelist s) l;
  kinv_nodup : NoDup l;
  kinv_pages : Forall kpage l;
  kinv_lock : unlocked s }.

Lemma end_range : KERNBASE < end_ < KERNBASE + PHYSTOP.
Proof. pose proof data_above. pose proof end_above. pose proof end_below. mmlia. Qed.

Lemma kpage_range p : kpage p ->
  KERNBASE < p /\ p + PGSIZE <= KERNBASE + PHYSTOP /\ 0 < p < 2 ^ 32.
Proof.
  intros (Ha & Hlo & Hhi). pose proof end_range. mmlia.
Qed.

Lemma kpage_sep p q : kpage p -> kpage q -> p <> q ->
  p + PGSIZE <= q \/ q + PGSIZE <= p.
Proof. intros (? & _) (? & _) ?. mmlia. Qed.

Lemma flist_agree m m' r l : flist m r l ->
  (forall p, p ∈ l -> agree m m' p PGSIZE) -> flist m' r l.
Proof.
  revert r. induction l as [|p l IH]; intros r Hl Hag; simpl in *; [done|].
  destruct Hl as [-> Hl]. split; [done|].
  rewrite (agree_load32 m m' p PGSIZE); [|set_solver|lia|unfold PGSIZE; lia].
  apply IH; set_solver.
Qed.

(** Memory may change anywhere but in the free pages. *)
Lemma kinv_frame s m l : kinv s l -> (forall p, p ∈ l -> agree (mem s) m p PGSIZE) ->
  kinv (set_mem m s) l.
Proof. intros [? ? ? ?] Hag. split; try done. by eapply flist_agree. Qed.

(** ** Each operation, run *)

Lemma kalloc_run s l : kinv s l ->
  kalloc s = match l with
             | [] => Done 0 s
             | p :: _ => Done p (set_freelist (load32 (mem s) p) s)
             end.
Proof.
  intros [Hl Hnd Hpg Hlk].
  assert ((freelist s =? 0) = match l with [] => true | _ => false end) as Hz.
  { destruct l as [|p l]; simpl in Hl; [by rewrite Hl|]. destruct Hl as [-> _].
    apply Forall_cons in Hpg as [Hp _]. apply kpage_range in Hp. lia. }
  assert (returns kalloc s (fun r s' => r = freelist s /\
    s' = if freelist s =? 0 then s
         else set_freelist (load32 (mem s) (freelist s)) s)) as Hrun.
  { unfold kalloc, unlocked in *. ksteps. destruct (use_lock s) eqn:Hu; ksteps.
    1: apply wp_acquire; [by auto|]; ksteps.
    all: simpl; destruct (freelist s =? 0); ksteps; simpl; rewrite Hu; ksteps.
    all: try (apply wp_release; [simpl; set_solver|]; ksteps).
    all: simpl; rewrite ?release_top by auto; by destruct s; simpl in *; subst. }
  destruct l as [|p l]; rewrite Hz in Hrun; apply returns_eq.
  - by rewrite Hl in Hrun.
  - by destruct Hl as [<- _].
Qed.

Lemma kfree_run s v : kpage v -> unlocked s ->
  kfree v s = Done tt (set_freelist v
                (set_mem (store32 (memset (mem s) v 1 PGSIZE) v (freelist s)) s)).
Proof.
  intros Hv Hlk. pose proof (kpage_range v Hv) as Hr. destruct Hv as (Ha & Hlo & Hhi).
  unfold kfree. rewrite Ha. simpl.
  rewrite (proj2 (Z.ltb_ge v end_)) by lia. simpl.
  assert (v2p v = v - KERNBASE) as ->.
  { unfold v2p. apply u32_small. mmlia. }
  rewrite (proj2 (Z.leb_gt PHYSTOP _)) by lia.
  apply returns_eq. unfold unlocked in Hlk. ksteps. simpl.
  destruct (use_lock s) eqn:Hu; ksteps.
  1: apply wp_acquire; [by auto|]; ksteps.
  all: simpl; rewrite Hu; ksteps.
  1: apply wp_release; [simpl; apply elem_of_cons; by left|].
  all: simpl; rewrite ?release_top by auto; by destruct s; simpl in *; subst.
Qed.

Lemma kfree_bad s v : ~ kpage v -> 0 <= v < 2 ^ 32 ->
  kfree v s = Stop (Panicked "kfree") s.
Proof.
  intros Hbad Hr. unfold kfree.
  destruct (v mod PGSIZE =? 0) eqn:Ha; simpl; [|done].
  destruct (v <? end_) eqn:He; simpl; [done|].
  destruct (PHYSTOP <=? v2p v) eqn:Hp; simpl; [done|]. exfalso. apply Hbad.
  bool_prop. repeat split; [done..|].
  unfold v2p in Hp. rewrite u32_small in Hp; [lia|].
  pose proof end_range. mmlia.
Qed.

(** A page written only inside: the others agree. *)
Lemma kfree_mem_agree m v r q : kpage v -> kpage q -> v <> q ->
  agree m (store32 (memset m v 1 PGSIZE) v r) q PGSIZE.
Proof.
  intros Hv Hq Hne a Ha. pose proof (kpage_sep v q Hv Hq Hne).
  rewrite load8_store32_ne by (unfold PGSIZE in *; lia).
  rewrite load8_memset by (unfold PGSIZE; lia).
  destruct (Z.leb_spec v a), (Z.ltb_spec a (v + PGSIZE)); simpl; try done. lia.
Qed.

Lemma kinv_kfree s v l : kinv s l -> kpage v -> v ∉ l ->
  kinv (set_freelist v
          (set_mem (store32 (memset (mem s) v 1 PGSIZE) v (freelist s)) s)) (v :: l).
Proof.
  intros [Hl Hnd Hpg Hlk] Hv Hin. split; simpl; [|by constructor..|done].
  split; [done|]. rewrite load32_store32_eq.
  rewrite u32_small.
  - eapply flist_agree; [exact Hl|]. intros p Hp.
    apply kfree_mem_agree; [done| |set_solver]. by eapply Forall_forall in Hpg.
  - destruct l as [|p l]; simpl in Hl; [lia|]. destruct Hl as [-> _].
    apply Forall_cons in Hpg as [Hp _]. apply kpage_range in Hp. lia.
Qed.

Lemma kinv_kalloc s p l : kinv s (p :: l) ->
  kinv (set_freelist (load32 (mem s) p) s) l.
Proof.
  intros [[_ Hl] Hnd Hpg Hlk]. apply NoDup_cons in Hnd as [_ Hnd].
  apply Forall_cons in Hpg as [_ Hpg]. by split.
Qed.

(** ** Initialisation *)

(** [n] consecutive pages from [p]. *)
Fixpoint frange (p : Z) (n : nat) : list Z :=
  match n with
  | O => []
  | S n' => p :: frange (p + PGSIZE) n'
  end.

Lemma elem_of_frange q p n :
  q ∈ frange p n -> p <= q /\ q + PGSIZE <= p + Z.of_nat n * PGSIZE.
Proof.
  revert p. induction n as [|n IH]; intros p; simpl; [set_solver|].
  rewrite elem_of_cons. intros [->|Hq]; [mmlia|]. apply IH in Hq. mmlia.
Qed.

Lemma frange_elem q p n : p mod PGSIZE = 0 -> q mod PGSIZE = 0 ->
  p <= q < p + Z.of_nat n * PGSIZE -> q ∈ frange p n.
Proof.
  revert p. induction n as [|n IH]; intros p Hp Hq Hr; simpl; [lia|].
  apply elem_of_cons. destruct (decide (q = p)) as [->|]; [by left|right]. apply IH; mmlia.
Qed.

Lemma freerange_loop_ok n fuel p vend s l :
  (n < fuel)%nat -> p mod PGSIZE = 0 -> end_ <= p -> vend <= KERNBASE + PHYSTOP ->
  p + Z.of_nat n * PGSIZE <= vend < p + Z.of_nat n * PGSIZE + PGSIZE ->
  (forall q, q ∈ l -> q < p \/ vend <= q) -> kinv s l ->
  returns (freerange_loop fuel p vend) s (fun _ s' =>
    kinv s' (rev (frange p n) ++ l) /\ held s' = held s /\ use_lock s' = use_lock s /\
    pte_array s' = pte_array s /\ cr3 s' = cr3 s /\ out s' = out s /\
    forall a, a < p \/ vend <= a -> load8 (mem s') a = load8 (mem s) a).
Proof.
  pose proof end_range.
  revert fuel p s l. induction n as [|n IH]; intros fuel p s l Hf Ha Hlo Hhi Hn Hl Hk;
    (destruct fuel as [|fuel]; [lia|]); cbn [freerange_loop].
  - rewrite u32_small by mmlia. rewrite (proj2 (Z.leb_gt _ _)) by mmlia.
    steps. split; [exact Hk|]. by repeat split.
  - rewrite u32_small by mmlia. rewrite (proj2 (Z.leb_le _ _)) by mmlia.
    assert (kpage p) as Hp by (repeat split; [done..|mmlia]).
    assert (p ∉ l) by (intros Hin; apply Hl in Hin; mmlia).
    apply wp_bind. eapply returns_run; [apply kfree_run; [done|apply Hk]|].
    eapply returns_mono.
    { apply IH; [lia|mmlia|mmlia|done|mmlia| |by apply kinv_kfree].
      intros q. rewrite elem_of_cons. intros [->|Hq]; [mmlia|].
      apply Hl in Hq. mmlia. }
    simpl. intros _ s' (Hk' & Hh & Hu & Ht & Hc & Ho & Hm).
    rewrite <- app_assoc. repeat (split; [done|]).
    intros a Hout. rewrite Hm by mmlia. simpl.
    rewrite load8_store32_ne, load8_memset by mmlia.
    destruct (Z.leb_spec p a), (Z.ltb_spec a (p + PGSIZE)); simpl; try done. mmlia.
Qed.

Lemma freerange_ok vstart vend s l :
  end_ <= vstart -> vstart <= vend <= KERNBASE + PHYSTOP -> PGROUNDUP vstart <= vend ->
  (forall q, q ∈ l -> q < PGROUNDUP vstart \/ vend <= q) -> kinv s l ->
  returns (freerange vstart vend) s (fun _ s' =>
    kinv s' (rev (frange (PGROUNDUP vstart)
               (Z.to_nat ((vend - PGROUNDUP vstart) / PGSIZE))) ++ l) /\
    held s' = held s /\ use_lock s' = use_lock s /\
    pte_array s' = pte_array s /\ cr3 s' = cr3 s /\ out s' = out s /\
    forall a, a < PGROUNDUP vstart \/ vend <= a -> load8 (mem s') a = load8 (mem s) a).
Proof.
  intros Hs He Hle Hl Hk. pose proof end_range.
  assert (PGROUNDUP vstart = (vstart + PGSIZE - 1) / PGSIZE * PGSIZE) as Hup
    by (apply PGROUNDUP_eq; mmlia).
  unfold freerange. eapply returns_mono.
  - eapply (freerange_loop_ok (Z.to_nat ((vend - PGROUNDUP vstart) / PGSIZE)));
      [|rewrite Hup; mmlia|rewrite Hup; mmlia|lia| |done..].
    + mmlia.
    + mmlia.
  - naive_solver.
Qed.

(** ** The allocator as a stack of pages

    The promise kalloc.c makes to its clients, without memory: a stack of
    free pages.  Freeing a page that is already free is outside the
    contract (the code does not detect it). *)

Inductive kop : Type :=
| Kalloc
| Kfree (v : Z).

#[local] Instance kpage_dec p : Decision (kpage p).
Proof. unfold kpage. apply _. Defined.

Definition kspec (op : kop) (l : list Z) : option (Z * list Z) :=
  match op, l with
  | Kalloc, [] => Some (0, [])
  | Kalloc, p :: l' => Some (p, l')
  | Kfree v, _ => if decide (kpage v /\ v ∉ l) then Some (0, v :: l) else None
  end.

Definition kexec (op : kop) : M kst Z :=
  match op with
  | Kalloc => kalloc
  | Kfree v => kfree v ;; ret 0
  end.

Fixpoint kspecs (ops : list kop) (l : list Z) : option (list Z * list Z) :=
  match ops with
  | [] => Some ([], l)
  | op :: ops' =>
      match kspec op l with
      | Some (r, l') =>
          match kspecs ops' l' with
          | Some (rs, l'') => Some (r :: rs, l'')
          | None => None
          end
      | None => None
      end
  end.

Fixpoint kexecs (ops : list kop) : M kst (list Z) :=
  match ops with
  | [] => ret []
  | op :: ops' => let! r := kexec op in let! rs := kexecs ops' in ret (r :: rs)
  end.

Lemma kexec_refines op s l r l' : kinv s l -> kspec op l = Some (r, l') ->
  returns (kexec op) s (fun r' s' => r' = r /\ kinv s' l' /\ held s' = held s).
Proof.
  intros Hk Hs. destruct op as [|v]; simpl in *.
  - apply returns_done. rewrite (kalloc_run s l Hk).
    destruct l as [|p l]; simplify_eq; repeat eexists; try done.
    all: try apply Hk. all: by apply kinv_kalloc in Hk as [].
  - case_decide as Hv; [|done]. destruct Hv as [Hv Hin]. simplify_eq.
    apply wp_bind. eapply returns_run; [apply kfree_run; [done|apply Hk]|].
    steps. split; [done|]. split; [by apply kinv_kfree|done].
Qed.

(** kalloc.c refines the stack, over any sequence of operations. *)
Lemma kexecs_refines ops s l rs l' : kinv s l -> kspecs ops l = Some (rs, l') ->
  returns (kexecs ops) s (fun rs' s' => rs' = rs /\ kinv s' l' /\ held s' = held s).
Proof.
  revert s l rs l'. induction ops as [|op ops IH]; intros s l rs l' Hk Hs; simpl in *.
  { simplify_eq. by steps. }
  destruct (kspec op l) as [[r l1]|] eqn:H1; [|done].
  destruct (kspecs ops l1) as [[rs2 l2]|] eqn:H2; [|done]. simplify_eq.
  apply wp_bind. eapply returns_mono; [by eapply kexec_refines|].
  simpl. intros r' s1 (-> & Hk1 & Hh1). apply wp_bind.
  eapply returns_mono; [by eapply IH|].
  simpl. intros rs' s2 (-> & Hk2 & Hh2). steps. split_and!; [done..|congruence].
Qed.
End kalloc.
