(* ===== verification/PageTable.v ===== *)
(** * Page tables: walkpgdir, mappages and setupkvm of vm.c

    Page directories and page tables are pages of kalloc.c in memory.
    [pte m pgdir va] is what the MMU reads for [va]: the abstract view of an
    address space is that function of the page number, and the theorems say how
    each routine changes it. *)

From S2P Require Import Prelude Mmu Memory Kstate Kalloc.

Section pagetable.
Context `{Layout}.

(** ** Operations *)

Definition walkpgdir (pgdir va : Z) (alloc : bool) : M kst Z :=
  let pde := pgdir + 4 * PDX va in
  let! e := load pde in
  if negb (Z.land e PTE_P =? 0) then ret (p2v (PTE_ADDR e) + 4 * PTX va)
  else if negb alloc then ret 0
  else
    let! pgtab := kalloc in
    if pgtab =? 0 then ret 0
    else
      on_mem (fun m => memset m pgtab 0 PGSIZE) ;;
      store pde (Z.lor (Z.lor (Z.lor (v2p pgtab) PTE_P) PTE_W) PTE_U) ;;
      ret (pgtab + 4 * PTX va).

(** The loop of [mappages]; it ends when [a] reaches [last]. *)
Fixpoint mappages_loop (fuel : nat) (pgdir a last pa perm : Z) : M kst Z :=
  match fuel with
  | O => halt Diverged
  | S f =>
      let! p := walkpgdir pgdir a true in
      if p =? 0 then ret (-1)
      else
        let! e := load p in
        if negb (Z.land e PTE_P =? 0) then panic "remap"
        else
          store p (Z.lor (Z.lor pa perm) PTE_P) ;;
          if a =? last then ret 0
          else mappages_loop f pgdir (u32 (a + PGSIZE)) last (u32 (pa + PGSIZE)) perm
  end.

(** The loop runs once per page from [a] to [last], around the address
    space if [last] is below [a]. *)
Definition mappages (pgdir va size pa perm : Z) : M kst Z :=
  let a := PGROUNDDOWN va in
  let last := PGROUNDDOWN (u32 (va + size - 1)) in
  mappages_loop (Z.to_nat (u32 (last - a) / PGSIZE + 1)) pgdir a last pa perm.

Record kmap_entry : Type := mkKmap {
  virt : Z; phys_start : Z; phys_end : Z; kperm : Z }.

Definition kmap : list kmap_entry :=
  [ mkKmap KERNBASE 0 EXTMEM PTE_W;
    mkKmap KERNLINK (v2p KERNLINK) (v2p data_) 0;
    mkKmap data_ (v2p data_) PHYSTOP PTE_W;
    mkKmap DEVSPACE DEVSPACE 0 PTE_W ].

Fixpoint setupkvm_loop (pgdir : Z) (ks : list kmap_entry) : M kst Z :=
  match ks with
  | [] => ret pgdir
  | k :: ks' =>
      let! r := mappages pgdir (virt k) (u32 (phys_end k - phys_start k))
                  (phys_start k) (kperm k) in
      if r <? 0 then ret 0 else setupkvm_loop pgdir ks'
  end.

Definition setupkvm : M kst Z :=
  let! pgdir := kalloc in
  if pgdir =? 0 then ret 0
  else
    on_mem (fun m => memset m pgdir 0 PGSIZE) ;;
    if DEVSPACE <? p2v PHYSTOP then panic "PHYSTOP too high"
    else setupkvm_loop pgdir kmap.

(** [switchkvm] and [kvmalloc] load the register the MMU walks from. *)
Definition switchkvm (kpgdir : Z) : M kst unit := modify (set_cr3 (v2p kpgdir)).

Definition kvmalloc : M kst Z :=
  let! kpgdir := setupkvm in
  switchkvm kpgdir ;; ret kpgdir.

(** ** The view of an address space *)

Definition present (e : Z) : bool := negb (Z.land e PTE_P =? 0).

Definition pde (m : gmap Z Z) (pgdir i : Z) : Z := load32 m (pgdir + 4 * i).
Definition pgtab (m : gmap Z Z) (pgdir i : Z) : Z := p2v (PTE_ADDR (pde m pgdir i)).
Definition pte_addr (m : gmap Z Z) (pgdir va : Z) : Z := pgtab m pgdir (PDX va) + 4 * PTX va.
Definition pte (m : gmap Z Z) (pgdir va : Z) : Z :=
  if present (pde m pgdir (PDX va)) then load32 m (pte_addr m pgdir va) else 0.

(** An address space whose directory and tables are pages of the allocator,
    all different and none of them free. *)
Record as_wf (m : gmap Z Z) (pgdir : Z) (free : list Z) : Prop := {
  wf_dir : kpage pgdir;
  wf_dir_free : pgdir ∉ free;
  wf_tab i : 0 <= i < NPDENTRIES -> present (pde m pgdir i) ->
    kpage (pgtab m pgdir i) /\ pgtab m pgdir i <> pgdir /\ pgtab m pgdir i ∉ free;
  wf_inj i j : 0 <= i < NPDENTRIES -> 0 <= j < NPDENTRIES ->
    present (pde m pgdir i) -> present (pde m pgdir j) ->
    pgtab m pgdir i = pgtab m pgdir j -> i = j }.

(** The pages that hold the structure itself. *)
Definition owned (m : gmap Z Z) (pgdir q : Z) : Prop :=
  q = pgdir \/ exists i, 0 <= i < NPDENTRIES /\ present (pde m pgdir i) /\ q = pgtab m pgdir i.

(** ** Address arithmetic *)

Lemma pde_slot pgdir i : 0 <= i < NPDENTRIES ->
  pgdir <= pgdir + 4 * i /\ pgdir + 4 * i + 4 <= pgdir + PGSIZE.
Proof. mmlia. Qed.

Lemma pte_slot t va : t <= t + 4 * PTX va /\ t + 4 * PTX va + 4 <= t + PGSIZE.
Proof. pose proof (PTX_range va). mmlia. Qed.

Lemma page_index va va' : 0 <= va < 2 ^ 32 -> 0 <= va' < 2 ^ 32 ->
  PDX va = PDX va' -> PTX va = PTX va' -> va / PGSIZE = va' / PGSIZE.
Proof. intros. rewrite !PDX_div, !PTX_div in * by done. mmlia. Qed.

Lemma index_page va va' : 0 <= va < 2 ^ 32 -> 0 <= va' < 2 ^ 32 ->
  va / PGSIZE = va' / PGSIZE -> PDX va = PDX va' /\ PTX va = PTX va'.
Proof. intros. rewrite !PDX_div, !PTX_div by done. mmlia. Qed.

(** ** Frame lemmas: what the view depends on *)

Lemma pde_agree m m' pgdir i : agree m m' pgdir PGSIZE -> 0 <= i < NPDENTRIES ->
  pde m' pgdir i = pde m pgdir i.
Proof.
  intros Hag Hi. pose proof (pde_slot pgdir i Hi).
  eapply agree_load32; [done|lia..].
Qed.

Lemma pgtab_agree m m' pgdir i : agree m m' pgdir PGSIZE -> 0 <= i < NPDENTRIES ->
  pgtab m' pgdir i = pgtab m pgdir i.
Proof. intros. unfold pgtab. by rewrite (pde_agree m m'). Qed.

Lemma as_wf_agree m m' pgdir free : agree m m' pgdir PGSIZE -> as_wf m pgdir free ->
  as_wf m' pgdir free.
Proof.
  intros Hag [Hd Hf Ht Hi]. split; [done..| |].
  - intros i Hi'. rewrite (pde_agree m m'), (pgtab_agree m m') by done. auto.
  - intros i j ? ?. rewrite !(pde_agree m m'), !(pgtab_agree m m') by done. auto.
Qed.

Lemma as_wf_suffix m pgdir free free' : as_wf m pgdir free ->
  (forall q, q ∈ free' -> q ∈ free) -> as_wf m pgdir free'.
Proof.
  intros [Hd Hf Ht Hi] Hs. split; [done|naive_solver| |done].
  intros i ? ?. destruct (Ht i) as (? & ? & ?); [done..|]. naive_solver.
Qed.

Lemma owned_agree m m' pgdir q : agree m m' pgdir PGSIZE ->
  owned m pgdir q <-> owned m' pgdir q.
Proof.
  intros Hag. unfold owned. f_equiv. f_equiv. intros i. split.
  - intros (Hi & ? & ->). by rewrite (pde_agree m m'), (pgtab_agree m m').
  - intros (Hi & ? & ->). by rewrite (pde_agree m m'), (pgtab_agree m m') in *.
Qed.

Lemma owned_kpage m pgdir free q : as_wf m pgdir free -> owned m pgdir q ->
  kpage q /\ q ∉ free.
Proof.
  intros [Hd Hf Ht Hi] [->|(i & ? & ? & ->)]; [done|].
  destruct (Ht i) as (? & ? & ?); done.
Qed.

Lemma owned_tab m pgdir va : present (pde m pgdir (PDX va)) ->
  owned m pgdir (pgtab m pgdir (PDX va)).
Proof. intros. right. exists (PDX va). split; [apply PDX_range|done]. Qed.

(** The view depends only on the owned pages. *)
Lemma pte_agree m m' pgdir va :
  (forall q, owned m pgdir q -> agree m m' q PGSIZE) -> pte m' pgdir va = pte m pgdir va.
Proof.
  intros Hag. assert (agree m m' pgdir PGSIZE) as Hd by (apply Hag; by left).
  unfold pte, pte_addr. pose proof (PDX_range va).
  rewrite (pde_agree m m'), (pgtab_agree m m') by done.
  destruct (present _) eqn:Hp; [|done].
  eapply agree_load32; [apply Hag, owned_tab; by rewrite Hp|apply pte_slot..].
Qed.

(** ** Writing an entry *)

Lemma store_pte m pgdir free va v :
  as_wf m pgdir free -> present (pde m pgdir (PDX va)) -> 0 <= va < 2 ^ 32 ->
  let m' := store32 m (pte_addr m pgdir va) v in
  as_wf m' pgdir free /\
  (forall q, owned m' pgdir q <-> owned m pgdir q) /\
  (forall q, kpage q -> q <> pgtab m pgdir (PDX va) -> agree m m' q PGSIZE) /\
  (forall va', 0 <= va' < 2 ^ 32 ->
    pte m' pgdir va' = if va' / PGSIZE =? va / PGSIZE then u32 v else pte m pgdir va').
Proof.
  intros Hwf Hp Hva m'. pose proof (PDX_range va) as Hx.
  destruct (wf_tab _ _ _ Hwf (PDX va) Hx Hp) as (Hk & Hne & Hnf).
  assert (forall q, kpage q -> q <> pgtab m pgdir (PDX va) -> agree m m' q PGSIZE) as Hfr.
  { intros q Hq Hqne. apply agree_store32. unfold pte_addr.
    pose proof (pte_slot (pgtab m pgdir (PDX va)) va).
    destruct (kpage_sep _ _ Hk Hq); [congruence|lia..]. }
  assert (agree m m' pgdir PGSIZE) as Hd by (apply Hfr; [apply Hwf|congruence]).
  split; [by eapply as_wf_agree|]. split; [intros; symmetry; by apply owned_agree|].
  split; [done|]. intros va' Hva'. pose proof (PDX_range va') as Hx'.
  unfold pte. rewrite (pde_agree m m') by done.
  unfold pte_addr at 1. rewrite (pgtab_agree m m') by done.
  destruct (Z.eqb_spec (va' / PGSIZE) (va / PGSIZE)) as [He|He].
  - apply index_page in He as [He1 He2]; [|done..]. rewrite He1, He2.
    destruct (present _); [|done]. apply load32_store32_eq.
  - destruct (present (pde m pgdir (PDX va'))) eqn:Hp'; [|done].
    destruct (decide (PDX va' = PDX va)) as [He1|He1].
    + rewrite He1. unfold m', pte_addr. rewrite He1. apply load32_store32_ne.
      assert (PTX va' <> PTX va) by (intros ?; by apply He, page_index). lia.
    + eapply agree_load32; [apply Hfr|apply pte_slot..].
      * apply Hwf; [done|by rewrite Hp'].
      * intros He2. apply He1. eapply (wf_inj _ _ _ Hwf); try done. by rewrite Hp'.
Qed.

(** ** Installing a page table *)

Lemma kpage_v2p p : kpage p -> v2p p = p - KERNBASE /\ v2p p mod 4096 = 0 /\ 0 <= v2p p < 2 ^ 32.
Proof.
  intros Hp. pose proof (kpage_range p Hp). destruct Hp as (Ha & _).
  assert (v2p p = p - KERNBASE) as -> by (unfold v2p; apply u32_small; mmlia). mmlia.
Qed.

(** The entry for a page of the allocator, with its flag bits. *)
Lemma kpage_entry p f : kpage p -> 0 <= f < 4096 ->
  let e := Z.lor (v2p p) f in
  0 <= e < 2 ^ 32 /\ e = v2p p + f /\ p2v (PTE_ADDR e) = p /\ PTE_FLAGS e = f.
Proof.
  intros Hp Hf e. destruct (kpage_v2p p Hp) as (Hv & Ha & Hr).
  assert (e = v2p p + f) as He by (apply (lor_aligned _ _ 12); [lia|done|lia]).
  assert (0 <= e < 2 ^ 32) as Her by (rewrite He; mmlia).
  split; [done|]. split; [done|]. split.
  - rewrite PTE_ADDR_eq, He by done.
    replace (v2p p + f - (v2p p + f) mod 4096) with (v2p p) by zlia.
    apply p2v_v2p. apply kpage_range in Hp. lia.
  - rewrite PTE_FLAGS_eq, He by done. zlia.
Qed.

Lemma present_bit0 e : present e = Z.testbit e 0.
Proof.
  unfold present, PTE_P. change 0x001 with (2 ^ 0).
  by rewrite land_pow2_eqb0, negb_involutive by lia.
Qed.

Lemma present_0 : present 0 = false.
Proof. done. Qed.

Lemma present_lor e f : present (Z.lor e f) = present e || present f.
Proof. by rewrite !present_bit0, Z.lor_spec. Qed.

Lemma install_table m pgdir p l va :
  as_wf m pgdir (p :: l) -> NoDup (p :: l) -> kpage p ->
  present (pde m pgdir (PDX va)) = false ->
  let m' := store32 (memset m p 0 PGSIZE) (pgdir + 4 * PDX va)
              (Z.lor (Z.lor (Z.lor (v2p p) PTE_P) PTE_W) PTE_U) in
  as_wf m' pgdir l /\
  present (pde m' pgdir (PDX va)) /\ pgtab m' pgdir (PDX va) = p /\
  (forall i, 0 <= i < NPDENTRIES -> i <> PDX va -> pde m' pgdir i = pde m pgdir i) /\
  (forall q, kpage q -> q <> pgdir -> q <> p -> agree m m' q PGSIZE) /\
  (forall va', pte m' pgdir va' = pte m pgdir va').
Proof.
  intros Hwf Hnd Hp Hnp m'. pose proof (PDX_range va) as Hx.
  set (e := Z.lor (v2p p) 7).
  assert (Z.lor (Z.lor (Z.lor (v2p p) PTE_P) PTE_W) PTE_U = e) as He.
  { by rewrite <- !Z.lor_assoc. }
  destruct (kpage_entry p 7 Hp ltac:(lia)) as (Her & Hsum & Htab & _).
  assert (p <> pgdir) as Hpd.
  { pose proof (wf_dir_free _ _ _ Hwf) as Hdf. apply not_elem_of_cons in Hdf. naive_solver. }
  pose proof (kpage_sep p pgdir Hp (wf_dir _ _ _ Hwf) Hpd) as Hsep.
  assert (forall q, kpage q -> q <> pgdir -> q <> p -> agree m m' q PGSIZE) as Hfr.
  { intros q Hq Hq1 Hq2 a Ha. unfold m'.
    pose proof (kpage_sep q pgdir Hq (wf_dir _ _ _ Hwf) Hq1).
    pose proof (kpage_sep q p Hq Hp Hq2).
    rewrite load8_store32_ne, load8_memset by mmlia.
    destruct (Z.leb_spec p a), (Z.ltb_spec a (p + PGSIZE)); simpl; try done. lia. }
  assert (pde m' pgdir (PDX va) = e) as Hpde.
  { unfold pde, m'. rewrite load32_store32_eq, He. by apply u32_small. }
  assert (forall i, 0 <= i < NPDENTRIES -> i <> PDX va -> pde m' pgdir i = pde m pgdir i)
    as Hother.
  { intros i Hi Hne. unfold pde, m'. rewrite load32_store32_ne by lia.
    apply load32_ext. intros k Hk. rewrite load8_memset by mmlia.
    destruct (Z.leb_spec p (pgdir + 4 * i + k)),
      (Z.ltb_spec (pgdir + 4 * i + k) (p + PGSIZE)); simpl; try done. mmlia. }
  assert (present e = true) as Hpe by (unfold e; by rewrite present_lor, orb_true_r).
  assert (pgtab m' pgdir (PDX va) = p) as Hpt by (unfold pgtab; by rewrite Hpde).
  assert (forall i, 0 <= i < NPDENTRIES -> i <> PDX va -> pgtab m' pgdir i = pgtab m pgdir i)
    as Htother by (intros; unfold pgtab; by rewrite Hother).
  apply NoDup_cons in Hnd as [Hpl _].
  split_and!; [|by rewrite Hpde, Hpe|done..|].
  - pose proof (wf_dir_free _ _ _ Hwf) as Hdf. apply not_elem_of_cons in Hdf as [_ Hdf].
    split; [apply Hwf|exact Hdf| |].
    + intros i Hi Hpi. destruct (decide (i = PDX va)) as [->|Hne].
      * rewrite Hpt. split; [exact Hp|]. split; assumption.
      * rewrite Hother in Hpi by done. rewrite Htother by done.
        destruct (wf_tab _ _ _ Hwf i Hi Hpi) as (? & ? & Hn).
        apply not_elem_of_cons in Hn as [_ Hn]. split; [assumption|]. split; assumption.
    + intros i j Hi Hj Hpi Hpj.
      destruct (decide (i = PDX va)) as [->|Hnei], (decide (j = PDX va)) as [->|Hnej];
        try done.
      * rewrite Hpt, Htother by done. rewrite Hother in Hpj by done. intros ->.
        destruct (wf_tab _ _ _ Hwf j Hj Hpj) as (_ & _ & Hn).
        by apply not_elem_of_cons in Hn as [? _].
      * rewrite Hpt, Htother by done. rewrite Hother in Hpi by done. intros <-.
        destruct (wf_tab _ _ _ Hwf i Hi Hpi) as (_ & _ & Hn).
        by apply not_elem_of_cons in Hn as [? _].
      * rewrite !Htother by done. rewrite Hother in Hpi, Hpj by done.
        by apply (wf_inj _ _ _ Hwf).
  - intros va'. unfold pte, pte_addr. pose proof (PDX_range va') as Hx'.
    destruct (decide (PDX va' = PDX va)) as [->|Hne].
    + rewrite Hpde, Hpe, Hpt, Hnp. pose proof (pte_slot p va').
      unfold m'. rewrite load32_store32_ne by (pose proof (pde_slot pgdir (PDX va) Hx); lia).
      apply load32_memset0; lia.
    + rewrite Hother, Htother by done. destruct (present (pde m pgdir (PDX va'))) eqn:Hp';
        [|done].
      destruct (wf_tab _ _ _ Hwf (PDX va') Hx') as (? & ? & Hn); [by rewrite Hp'|].
      apply not_elem_of_cons in Hn as [? _].
      apply (agree_load32 m m' (pgtab m pgdir (PDX va')) PGSIZE);
        [apply Hfr; assumption|apply pte_slot..].
Qed.

(** ** What a routine on one address space may change

    It may take pages from the free list to make page tables of, and write
    the structure of that address space; everything else stays. *)

Definition rest (s : kst) : bool * gmap Z Z * Z * list lock * list (string * list Z) :=
  (use_lock s, pte_array s, cr3 s, held s, out s).

(** The bytes below the end of the kernel: its text and data, and what the firmware left. *)
Definition low_same (m m' : gmap Z Z) : Prop := forall a, a < end_ -> load8 m' a = load8 m a.

Lemma low_trans m1 m2 m3 : low_same m1 m2 -> low_same m2 m3 -> low_same m1 m3.
Proof. intros H1 H2 a Ha. by rewrite H2, H1. Qed.

Lemma low_store32 m a v : end_ <= a -> low_same m (store32 m a v).
Proof. intros Ha b Hb. apply load8_store32_ne. lia. Qed.

Lemma low_memset m p v n : end_ <= p -> 0 <= n -> low_same m (memset m p v n).
Proof.
  intros Hp Hn a Ha. rewrite load8_memset by done. by rewrite (proj2 (Z.leb_gt p a)) by lia.
Qed.

Lemma low_memmove m p q n : end_ <= p -> 0 <= n -> low_same m (memmove m p q n).
Proof.
  intros Hp Hn a Ha. rewrite load8_memmove by done. by rewrite (proj2 (Z.leb_gt p a)) by lia.
Qed.

Record pt_step (s : kst) (pgdir : Z) (free : list Z) (s' : kst) (free' : list Z) : Prop := {
  ps_inv : kinv s' free';
  ps_wf : as_wf (mem s') pgdir free';
  ps_sub : free' `suffix_of` free;
  ps_frame q : kpage q -> ~ owned (mem s) pgdir q -> q ∉ free ->
    agree (mem s) (mem s') q PGSIZE;
  ps_owned q : owned (mem s') pgdir q -> owned (mem s) pgdir q \/ q ∈ free;
  ps_rest : rest s' = rest s;
  ps_low : low_same (mem s) (mem s') }.

Lemma pt_step_refl s pgdir free : kinv s free -> as_wf (mem s) pgdir free ->
  pt_step s pgdir free s free.
Proof. intros. split; [done..|intros; apply agree_refl|by left|done|done]. Qed.

Lemma suffix_elem (l1 l2 : list Z) q : l1 `suffix_of` l2 -> q ∈ l1 -> q ∈ l2.
Proof. intros [k ->] Hq. apply elem_of_app. by right. Qed.

Lemma pt_step_trans s1 s2 s3 pgdir f1 f2 f3 :
  pt_step s1 pgdir f1 s2 f2 -> pt_step s2 pgdir f2 s3 f3 -> pt_step s1 pgdir f1 s3 f3.
Proof.
  intros [I1 W1 S1 F1 O1 R1 L1] [I2 W2 S2 F2 O2 R2 L2]. split; [done|done| | | |congruence|by eapply low_trans].
  - by etransitivity.
  - intros q Hq Ho Hf. apply agree_trans with (mem s2); [auto|]. apply F2; [done| |].
    + intros Ho2. apply O1 in Ho2. naive_solver.
    + intros Hf2. by eapply suffix_elem in Hf2.
  - intros q Ho. apply O2 in Ho as [Ho|Hf]; [auto|]. right. by eapply suffix_elem.
Qed.

(** [walkpgdir] without allocation reads. *)
Lemma walkpgdir_run s pgdir va :
  walkpgdir pgdir va false s =
    Done (if present (pde (mem s) pgdir (PDX va)) then pte_addr (mem s) pgdir va else 0) s.
Proof.
  unfold walkpgdir, bind, load, gets, present, pte_addr, pgtab, pde, ret; simpl.
  by destruct (negb _).
Qed.

(** Whether the table for [va] is missing, as a count of pages to allocate. *)
Definition missing (m : gmap Z Z) (pgdir va : Z) : Z :=
  if present (pde m pgdir (PDX va)) then 0 else 1.

Lemma walkpgdir_alloc s pgdir va free : kinv s free -> as_wf (mem s) pgdir free ->
  returns (walkpgdir pgdir va true) s (fun p s' => exists free',
    pt_step s pgdir free s' free' /\
    (forall va', pte (mem s') pgdir va' = pte (mem s) pgdir va') /\
    ((p = 0 /\ free' = [] /\ free = [] /\ s' = s /\ missing (mem s) pgdir va = 1) \/
     (p = pte_addr (mem s') pgdir va /\ p <> 0 /\ present (pde (mem s') pgdir (PDX va)) /\
      Z.of_nat (length free) = Z.of_nat (length free') + missing (mem s) pgdir va /\
      (forall i, 0 <= i < NPDENTRIES -> present (pde (mem s) pgdir i) ->
         present (pde (mem s') pgdir i))))).
Proof.
  intros Hk Hwf. unfold walkpgdir. ksteps. fold (pde (mem s) pgdir (PDX va)).
  fold (present (pde (mem s) pgdir (PDX va))). unfold missing. pose proof (PDX_range va) as Hx.
  destruct (present (pde (mem s) pgdir (PDX va))) eqn:Hp.
  { ksteps. exists free. split; [by apply pt_step_refl|]. split; [done|]. right.
    split; [done|]. rewrite Hp. split; [|split; [done|split; [lia|done]]].
    destruct (wf_tab _ _ _ Hwf _ Hx) as (Hq & _); [by rewrite Hp|].
    apply kpage_range in Hq. fold (pgtab (mem s) pgdir (PDX va)).
    pose proof (pte_slot (pgtab (mem s) pgdir (PDX va)) va). mmlia. }
  simpl. ksteps. unfold wp. rewrite (kalloc_run s free Hk). destruct free as [|p l].
  { simpl. exists []. split; [by apply pt_step_refl|]. split; [done|]. by left. }
  pose proof (kinv_pages _ _ Hk) as Hpg. apply Forall_cons in Hpg as [Hpk Hpg].
  pose proof (kpage_range p Hpk). rewrite (proj2 (Z.eqb_neq p 0)) by lia. simpl.
  destruct (install_table (mem s) pgdir p l va Hwf (kinv_nodup _ _ Hk) Hpk Hp)
    as (Hwf' & Hpres & Htab & Hoth & Hfr & Hview).
  set (m' := store32 _ _ _) in *.
  exists l. split; [|split; [done|right]].
  - split.
    + apply (kinv_frame (set_freelist (load32 (mem s) p) s) m'); [by apply kinv_kalloc|].
      intros q Hq. simpl. apply Hfr.
      * by eapply Forall_forall in Hpg.
      * intros ->. by apply (wf_dir_free _ _ _ Hwf), elem_of_cons; right.
      * intros ->. pose proof (kinv_nodup _ _ Hk) as Hnd. by apply NoDup_cons in Hnd as [? _].
    + done.
    + by exists [p].
    + intros q Hq Ho Hf. apply not_elem_of_cons in Hf as [Hf _]. apply Hfr; [done| |done].
      intros ->. apply Ho. by left.
    + simpl. intros q [->|(i & Hi & Hpi & ->)]; [left; by left|].
      destruct (decide (i = PDX va)) as [->|Hne].
      * right. rewrite Htab. apply elem_of_cons. by left.
      * left. right. exists i. unfold pgtab. by rewrite Hoth in Hpi |- *.
    + done.
    + destruct (wf_dir _ _ _ Hwf) as (_ & Hde & _). destruct Hpk as (_ & Hpe & _). pose proof (pde_slot pgdir (PDX va) Hx).
      apply (low_trans _ (memset (mem s) p 0 PGSIZE)); [by apply low_memset|apply low_store32; lia].
  - simpl. split; [unfold pte_addr; by rewrite Htab|].
    pose proof (pte_slot p va). split; [mmlia|]. split; [done|]. split; [lia|].
    intros i Hi Hpi. destruct (decide (i = PDX va)) as [->|Hne]; [done|]. by rewrite Hoth.
Qed.


(** ** Mapping a range *)

(** [n] pages from [a], mapped to physical memory from [pa], over the view [f]. *)
Definition map_view (f : Z -> Z) (a : Z) (n : Z) (pa perm va : Z) : Z :=
  if (a <=? va) && (va <? a + n * PGSIZE)
  then Z.lor (Z.lor (pa + (va / PGSIZE - a / PGSIZE) * PGSIZE) perm) PTE_P
  else f va.

(** Upper bound on the tables a walk from [a] to [last] allocates. *)
Definition tables_needed (m : gmap Z Z) (pgdir a last : Z) : Z :=
  PDX last - PDX a + missing m pgdir a.

Lemma map_view_0 f a pa perm va : map_view f a 0 pa perm va = f va.
Proof.
  unfold map_view. destruct (Z.leb_spec a va), (Z.ltb_spec va (a + 0 * PGSIZE)); simpl;
    try done. mmlia.
Qed.

Lemma map_view_out f a n pa perm va : va < a \/ a + n * PGSIZE <= va ->
  map_view f a n pa perm va = f va.
Proof.
  intros Ho. unfold map_view. destruct (Z.leb_spec a va), (Z.ltb_spec va (a + n * PGSIZE));
    simpl; try done. lia.
Qed.

Lemma map_view_in f a n pa perm va : a <= va < a + n * PGSIZE ->
  map_view f a n pa perm va =
    Z.lor (Z.lor (pa + (va / PGSIZE - a / PGSIZE) * PGSIZE) perm) PTE_P.
Proof.
  intros Hi. unfold map_view. by rewrite (proj2 (Z.leb_le _ _)), (proj2 (Z.ltb_lt _ _)) by lia.
Qed.

(** The first page, then the others. *)
Lemma map_view_step f g a n pa perm va : a mod PGSIZE = 0 -> 0 <= n ->
  g va = (if va / PGSIZE =? a / PGSIZE then Z.lor (Z.lor pa perm) PTE_P else f va) ->
  map_view g (a + PGSIZE) n (pa + PGSIZE) perm va = map_view f a (n + 1) pa perm va.
Proof.
  intros Ha Hn Hg. unfold map_view.
  destruct (Z.eqb_spec (va / PGSIZE) (a / PGSIZE)) as [He|He]; rewrite Hg.
  - rewrite He, Z.sub_diag, Z.mul_0_l, Z.add_0_r.
    rewrite (proj2 (Z.leb_gt (a + PGSIZE) va)) by mmlia. simpl.
    rewrite (proj2 (Z.leb_le a va)), (proj2 (Z.ltb_lt va _)) by mmlia. done.
  - destruct (Z.leb_spec (a + PGSIZE) va), (Z.leb_spec a va),
      (Z.ltb_spec va (a + PGSIZE + n * PGSIZE)), (Z.ltb_spec va (a + (n + 1) * PGSIZE));
      simpl; try done; try mmlia.
    do 2 f_equal. mmlia.
Qed.

Lemma PDX_step a last : 0 <= a -> a < last < 2 ^ 32 -> a + PGSIZE <= last ->
  PDX (a + PGSIZE) = PDX a \/ PDX (a + PGSIZE) = PDX a + 1 /\ PDX a < PDX last.
Proof. intros. rewrite !PDX_div by mmlia. mmlia. Qed.

Lemma missing_present m pgdir a : present (pde m pgdir (PDX a)) -> missing m pgdir a = 0.
Proof. unfold missing. by destruct (present _). Qed.

Lemma missing_range m pgdir a : 0 <= missing m pgdir a <= 1.
Proof. unfold missing. destruct (present _); lia. Qed.

Definition map_post (s : kst) (pgdir : Z) (free : list Z) (a n pa perm : Z) (r : Z) (s' : kst)
  : Prop :=
  exists free', pt_step s pgdir free s' free' /\
    let need := tables_needed (mem s) pgdir a (a + (n - 1) * PGSIZE) in
    ((r = 0 /\ Z.of_nat (length free) <= Z.of_nat (length free') + need /\
      forall va, 0 <= va < 2 ^ 32 ->
        pte (mem s') pgdir va = map_view (pte (mem s) pgdir) a n pa perm va) \/
     (r = -1 /\ free' = [] /\ Z.of_nat (length free) < need /\
      exists k, 0 <= k < n /\ forall va, 0 <= va < 2 ^ 32 ->
        pte (mem s') pgdir va = map_view (pte (mem s) pgdir) a k pa perm va)).

(** Writing the entry of a page whose table is there. *)
Lemma store_pte_step s pgdir free va v :
  kinv s free -> as_wf (mem s) pgdir free -> present (pde (mem s) pgdir (PDX va)) ->
  0 <= va < 2 ^ 32 ->
  pt_step s pgdir free (set_mem (store32 (mem s) (pte_addr (mem s) pgdir va) v) s) free.
Proof.
  intros Hk Hwf Hp Hva. pose proof (PDX_range va) as Hx.
  destruct (store_pte (mem s) pgdir free va v Hwf Hp Hva) as (Hwf2 & How & Hfr & _).
  destruct (wf_tab _ _ _ Hwf (PDX va) Hx Hp) as (_ & _ & Hnf).
  split; [|done|done| |intros q Hq; left; by apply How|done|].
  3: { destruct (wf_tab _ _ _ Hwf (PDX va) Hx Hp) as ((_ & Hte & _) & _). apply low_store32. unfold pte_addr.
       pose proof (pte_slot (pgtab (mem s) pgdir (PDX va)) va). lia. }
  - apply kinv_frame; [done|]. intros q Hq. apply Hfr; [|naive_solver].
    pose proof (kinv_pages _ _ Hk) as Hpg. by eapply Forall_forall in Hpg.
  - intros q Hq Ho _. apply Hfr; [done|]. intros ->. by apply Ho, owned_tab.
Qed.

(** One iteration of [mappages] on a page that is not mapped. *)
Lemma mappages_iter s pgdir free a pa perm k Q E :
  kinv s free -> as_wf (mem s) pgdir free -> 0 <= a < 2 ^ 32 ->
  present (pte (mem s) pgdir a) = false ->
  0 <= pa < 2 ^ 32 -> 0 <= perm < 4096 ->
  (free = [] -> missing (mem s) pgdir a = 1 -> Q (-1) s) ->
  (forall s2 free2, pt_step s pgdir free s2 free2 ->
     present (pde (mem s2) pgdir (PDX a)) ->
     Z.of_nat (length free) = Z.of_nat (length free2) + missing (mem s) pgdir a ->
     (forall va, 0 <= va < 2 ^ 32 -> pte (mem s2) pgdir va =
        if va / PGSIZE =? a / PGSIZE then Z.lor (Z.lor pa perm) PTE_P
        else pte (mem s) pgdir va) ->
     wp k s2 Q E) ->
  wp (let! p := walkpgdir pgdir a true in
      if p =? 0 then ret (-1)
      else
        let! e := load p in
        if negb (Z.land e PTE_P =? 0) then panic "remap"
        else store p (Z.lor (Z.lor pa perm) PTE_P) ;; k) s Q E.
Proof.
  intros Hk Hwf Har Hnp Hpa Hperm Hoom Hcont. apply wp_bind.
  eapply wp_mono; [by apply walkpgdir_alloc| |done].
  intros p s1 (free1 & Hst & Hv1 & Hcase).
  destruct Hcase as [(-> & -> & Hfr & -> & Hmiss)|(-> & Hp0 & Hpres & Hlen & _)].
  { simpl. ksteps. auto. }
  rewrite (proj2 (Z.eqb_neq _ 0)) by done. ksteps.
  assert (load32 (mem s1) (pte_addr (mem s1) pgdir a) = pte (mem s1) pgdir a) as ->
    by (unfold pte; by destruct (present (pde (mem s1) pgdir (PDX a)))).
  rewrite Hv1. fold (present (pte (mem s) pgdir a)). rewrite Hnp. ksteps.
  destruct Hst as [Hk1 Hwf1 Hsub1 Hfr1 How1 Hr1 Hlo1] eqn:Heq; clear Heq.
  destruct (store_pte (mem s1) pgdir free1 a (Z.lor (Z.lor pa perm) PTE_P) Hwf1 Hpres Har)
    as (_ & _ & _ & Hv2).
  apply (Hcont _ free1).
  - eapply pt_step_trans; [by split|]. by apply store_pte_step.
  - simpl. rewrite (pde_agree (mem s1)); [done| |apply PDX_range].
    pose proof (PDX_range a) as Hx.
    destruct (wf_tab _ _ _ Hwf1 (PDX a) Hx Hpres) as (Hq & Hne & _).
    apply agree_store32. unfold pte_addr. pose proof (pte_slot (pgtab (mem s1) pgdir (PDX a)) a).
    destruct (kpage_sep _ _ Hq (wf_dir _ _ _ Hwf1) Hne); lia.
  - done.
  - intros va Hva. simpl. rewrite Hv2, Hv1 by done. case_match; [|done].
    apply u32_small. apply lor_u32; [apply lor_u32; lia|by vm_compute].
Qed.

Lemma tables_needed_step m m2 pgdir a last : 0 <= a -> a + PGSIZE <= last < 2 ^ 32 ->
  present (pde m2 pgdir (PDX a)) ->
  tables_needed m2 pgdir (a + PGSIZE) last + missing m pgdir a <= tables_needed m pgdir a last.
Proof.
  intros Ha Hl Hp. unfold tables_needed.
  destruct (PDX_step a last) as [Hs|[Hs Hlt]]; [mmlia..| |].
  - unfold missing at 1. rewrite Hs. destruct (present (pde m2 pgdir (PDX a))); [lia|done].
  - pose proof (missing_range m2 pgdir (a + PGSIZE)). lia.
Qed.

(** The rest of the range, after its first page. *)
Lemma map_post_step s s2 pgdir free free2 a n pa perm r s' :
  a mod PGSIZE = 0 -> 0 <= a -> 1 <= n -> a + n * PGSIZE < 2 ^ 32 ->
  pt_step s pgdir free s2 free2 -> present (pde (mem s2) pgdir (PDX a)) ->
  Z.of_nat (length free) = Z.of_nat (length free2) + missing (mem s) pgdir a ->
  (forall va, 0 <= va < 2 ^ 32 -> pte (mem s2) pgdir va =
     if va / PGSIZE =? a / PGSIZE then Z.lor (Z.lor pa perm) PTE_P
     else pte (mem s) pgdir va) ->
  map_post s2 pgdir free2 (a + PGSIZE) n (pa + PGSIZE) perm r s' ->
  map_post s pgdir free a (n + 1) pa perm r s'.
Proof.
  intros Ha Ha0 Hn Hal Hst Hpres Hlen Hv (free' & Hst' & Hpost). exists free'.
  split; [by eapply pt_step_trans|].
  pose proof (tables_needed_step (mem s) (mem s2) pgdir a (a + n * PGSIZE) Ha0) as Hneed.
  replace (a + PGSIZE + (n - 1) * PGSIZE) with (a + n * PGSIZE) in Hpost by lia.
  replace (a + (n + 1 - 1) * PGSIZE) with (a + n * PGSIZE) by lia.
  specialize (Hneed ltac:(mmlia) Hpres). cbv zeta in *.
  destruct Hpost as [(-> & Hle & Hpv)|(-> & Hnil & Hlt & k & Hk & Hpv)]; [left|right].
  - split; [done|]. split; [lia|]. intros va Hva. rewrite Hpv by done.
    apply map_view_step; auto; lia.
  - split; [done|]. split; [done|]. split; [lia|]. exists (k + 1). split; [lia|].
    intros va Hva. rewrite Hpv by done. apply map_view_step; auto; lia.
Qed.

Lemma mappages_loop_ok n fuel pgdir a pa perm s free :
  (n < fuel)%nat -> a mod PGSIZE = 0 -> 0 <= a -> a + Z.of_nat n * PGSIZE < 2 ^ 32 ->
  0 <= pa -> pa + Z.of_nat n * PGSIZE < 2 ^ 32 -> 0 <= perm < 4096 ->
  kinv s free -> as_wf (mem s) pgdir free ->
  (forall va, a <= va < a + (Z.of_nat n + 1) * PGSIZE ->
     present (pte (mem s) pgdir va) = false) ->
  returns (mappages_loop fuel pgdir a (a + Z.of_nat n * PGSIZE) pa perm) s
    (map_post s pgdir free a (Z.of_nat n + 1) pa perm).
Proof.
  revert fuel a pa s free. induction n as [|n IH];
    intros fuel a pa s free Hf Ha Ha0 Hal Hpa Hpal Hperm Hk Hwf Hnp;
    (destruct fuel as [|fuel]; [lia|]); cbn [mappages_loop];
    apply (mappages_iter s pgdir free); try done; try mmlia; try (apply Hnp; mmlia).
  1,3: intros -> Hmiss; exists []; split; [by apply pt_step_refl|]; right;
    split; [done|]; split; [done|]; split;
    [ unfold tables_needed; change (Z.of_nat (length [])) with 0;
      rewrite Hmiss, !PDX_div by mmlia; mmlia
    | exists 0; split; [lia|]; intros; by rewrite map_view_0 ].
  - intros s2 free2 Hst Hpres Hlen Hv. rewrite Z.mul_0_l, Z.add_0_r, Z.eqb_refl. ksteps.
    exists free2. split; [done|]. left. split; [done|]. unfold tables_needed.
    split; [rewrite Z.mul_0_l, Z.add_0_r; lia|]. intros va Hva.
    rewrite <- (map_view_step _ (pte (mem s2) pgdir) a 0), map_view_0 by (try done; lia || auto).
    done.
  - intros s2 free2 Hst Hpres Hlen Hv.
    rewrite (proj2 (Z.eqb_neq a _)), !u32_small by mmlia.
    replace (a + Z.of_nat (S n) * PGSIZE) with (a + PGSIZE + Z.of_nat n * PGSIZE) by lia.
    eapply wp_mono; [apply (IH fuel (a + PGSIZE) (pa + PGSIZE) s2 free2); try mmlia| |done].
    + apply Hst.
    + apply Hst.
    + intros va Hva. rewrite Hv by mmlia.
      rewrite (proj2 (Z.eqb_neq _ _)) by mmlia. apply Hnp. mmlia.
    + intros r s' Hpost. replace (Z.of_nat (S n) + 1) with (Z.of_nat n + 1 + 1) by lia.
      eapply map_post_step; [..|exact Hpost]; done || mmlia.
Qed.

Lemma mappages_ok pgdir va size pa perm s free :
  0 <= va -> 0 < size -> va + size <= 2 ^ 32 ->
  let a := va - va mod PGSIZE in
  let n := (va + size - 1) / PGSIZE - va / PGSIZE + 1 in
  0 <= pa -> pa + (n - 1) * PGSIZE < 2 ^ 32 -> 0 <= perm < 4096 ->
  kinv s free -> as_wf (mem s) pgdir free ->
  (forall va', a <= va' < a + n * PGSIZE -> present (pte (mem s) pgdir va') = false) ->
  returns (mappages pgdir va size pa perm) s (map_post s pgdir free a n pa perm).
Proof.
  intros Hva Hsz Hend a n Hpa Hpal Hperm Hk Hwf Hnp. unfold mappages.
  rewrite (PGROUNDDOWN_eq va), (u32_small (va + size - 1)), PGROUNDDOWN_eq by mmlia.
  fold a. set (k := Z.to_nat (n - 1)).
  assert (va + size - 1 - (va + size - 1) mod PGSIZE = a + Z.of_nat k * PGSIZE) as ->.
  { subst k a n. mmlia. }
  replace n with (Z.of_nat k + 1) in * by (subst k n; mmlia).
  apply mappages_loop_ok; try done; try mmlia.
  - rewrite u32_small by (subst k a n; mmlia).
    replace (a + Z.of_nat k * PGSIZE - a) with (Z.of_nat k * PGSIZE) by lia.
    rewrite Z.div_mul by mmlia. lia.
  - subst a. mmlia.
  - subst a. mmlia.
  - subst k a n. mmlia.
Qed.


(** ** The kernel part of an address space *)

(** What the comment above [kmap] says every page table maps: I/O space,
    kernel text and read-only data, kernel data and free memory, devices. *)
Definition kernel_view (va : Z) : Z :=
  let page := va - va mod PGSIZE in
  if (KERNBASE <=? va) && (va <? KERNBASE + PHYSTOP) then
    let perm := if (KERNLINK <=? va) && (va <? data_) then 0 else PTE_W in
    Z.lor (Z.lor (page - KERNBASE) perm) PTE_P
  else if DEVSPACE <=? va then Z.lor (Z.lor page PTE_W) PTE_P
  else 0.

Lemma kernel_view_ram va : KERNBASE <= va < KERNBASE + PHYSTOP ->
  present (kernel_view va) = true /\ PTE_ADDR (kernel_view va) = va - va mod PGSIZE - KERNBASE.
Proof.
  intros Hva. unfold kernel_view. rewrite (proj2 (Z.leb_le _ _)), (proj2 (Z.ltb_lt _ _)) by lia.
  simpl. set (perm := if (_ : bool) then 0 else PTE_W). split; [by rewrite present_lor, orb_true_r|].
  set (pa := va - va mod PGSIZE - KERNBASE). rewrite <- Z.lor_assoc.
  assert (0 <= Z.lor perm PTE_P < 4096) as Hf
    by (unfold perm; destruct (_ && _); vm_compute; intuition congruence).
  assert (Z.lor pa (Z.lor perm PTE_P) = pa + Z.lor perm PTE_P) as ->
    by (apply (lor_aligned _ _ 12); [lia|unfold pa; mmlia|lia]).
  rewrite PTE_ADDR_eq by (unfold pa; mmlia). unfold pa. mmlia.
Qed.

Lemma fresh_dir s p l : kinv s (p :: l) ->
  let s' := set_mem (memset (mem s) p 0 PGSIZE) (set_freelist (load32 (mem s) p) s) in
  kinv s' l /\ as_wf (mem s') p l /\ (forall va, pte (mem s') p va = 0) /\
  (forall q, owned (mem s') p q -> q = p) /\
  (forall q, kpage q -> q <> p -> agree (mem s) (mem s') q PGSIZE).
Proof.
  intros Hk s'. pose proof (kinv_nodup _ _ Hk) as Hnd. apply NoDup_cons in Hnd as [Hpl _].
  pose proof (kinv_pages _ _ Hk) as Hpg. apply Forall_cons in Hpg as [Hp Hpg].
  assert (forall q, kpage q -> q <> p -> agree (mem s) (mem s') q PGSIZE) as Hfr.
  { intros q Hq Hne a Ha. simpl. pose proof (kpage_sep q p Hq Hp Hne).
    rewrite load8_memset by mmlia.
    destruct (Z.leb_spec p a), (Z.ltb_spec a (p + PGSIZE)); simpl; try done. lia. }
  assert (forall i, 0 <= i < NPDENTRIES -> pde (mem s') p i = 0) as Hz.
  { intros i Hi. simpl. unfold pde. pose proof (pde_slot p i Hi). apply load32_memset0; lia. }
  split; [|split; [|split; [|split]]].
  - apply kinv_frame; [by apply kinv_kalloc|]. intros q Hq. simpl. apply Hfr.
    + by eapply Forall_forall in Hpg.
    + by intros ->.
  - split; [done..| |].
    + intros i Hi. by rewrite Hz, present_0.
    + intros i k Hi Hk'. by rewrite (Hz i Hi), present_0.
  - intros va. unfold pte. by rewrite Hz, present_0 by apply PDX_range.
  - intros q [->|(i & Hi & Hp' & _)]; [done|]. by rewrite Hz, present_0 in Hp'.
  - done.
Qed.

(** The size of an entry of [kmap], and what the loop of [setupkvm] needs of it. *)
Definition ksize (k : kmap_entry) : Z := u32 (phys_end k - phys_start k).

Record kmap_ok (k : kmap_entry) : Prop := {
  ko_virt : virt k mod PGSIZE = 0;
  ko_virt0 : 0 <= virt k;
  ko_size : ksize k mod PGSIZE = 0;
  ko_size0 : 0 < ksize k;
  ko_end : virt k + ksize k <= 2 ^ 32;
  ko_phys : 0 <= phys_start k;
  ko_pend : phys_start k + ksize k <= 2 ^ 32;
  ko_perm : 0 <= kperm k < 4096 }.

(** Tables for one entry, and for a list of entries, at most. *)
Definition ktables (k : kmap_entry) : Z := PDX (virt k + ksize k - PGSIZE) - PDX (virt k) + 1.
Fixpoint ktables_all (ks : list kmap_entry) : Z :=
  match ks with [] => 0 | k :: ks' => ktables k + ktables_all ks' end.

Definition kdisj (k k' : kmap_entry) : Prop :=
  virt k + ksize k <= virt k' \/ virt k' + ksize k' <= virt k.

Fixpoint kmaps (f : Z -> Z) (ks : list kmap_entry) : Z -> Z :=
  match ks with
  | [] => f
  | k :: ks' => kmaps (map_view f (virt k) (ksize k / PGSIZE) (phys_start k) (kperm k)) ks'
  end.

Lemma kmaps_ext f g ks va : f va = g va -> kmaps f ks va = kmaps g ks va.
Proof.
  revert f g. induction ks as [|k ks IH]; intros f g Hfg; simpl; [done|].
  apply IH. unfold map_view. by rewrite Hfg.
Qed.

Lemma ktables_pos k : kmap_ok k -> 1 <= ktables k.
Proof. intros []. unfold ktables. rewrite !PDX_div by mmlia. mmlia. Qed.

Lemma setupkvm_loop_ok ks s pgdir free :
  kinv s free -> as_wf (mem s) pgdir free ->
  Forall kmap_ok ks -> ForallOrdPairs kdisj ks ->
  (forall k va, k ∈ ks -> virt k <= va < virt k + ksize k -> pte (mem s) pgdir va = 0) ->
  ktables_all ks <= Z.of_nat (length free) ->
  returns (setupkvm_loop pgdir ks) s (fun r s' => r = pgdir /\ exists free',
    pt_step s pgdir free s' free' /\
    Z.of_nat (length free) <= Z.of_nat (length free') + ktables_all ks /\
    forall va, 0 <= va < 2 ^ 32 -> pte (mem s') pgdir va = kmaps (pte (mem s) pgdir) ks va).
Proof.
  revert s free. induction ks as [|k ks IH]; intros s free Hk Hwf Hok Hdj Hv Hlen.
  { simpl. steps. split; [done|]. exists free. split; [by apply pt_step_refl|].
    split; [lia|done]. }
  apply Forall_cons in Hok as [Hko Hok]. pose proof Hko as [A1 A2 A3 A4 A5 A6 A7 A8].
  inversion Hdj as [|? ? Hd1 Hd2]; subst.
  cbn [setupkvm_loop ktables_all] in *. apply wp_bind. fold (ksize k).
  eapply wp_mono; [apply (mappages_ok pgdir (virt k) (ksize k) (phys_start k) (kperm k) s free);
                   try done|..|done].
  - mmlia.
  - replace (virt k - virt k mod PGSIZE) with (virt k) by lia. intros va Hr.
    rewrite (Hv k); [apply present_0|by apply elem_of_cons; left|mmlia].
  - intros r s1 (free1 & Hst & Hpost). cbv zeta in Hpost.
    replace ((virt k + ksize k - 1) / PGSIZE - virt k / PGSIZE + 1)
      with (ksize k / PGSIZE) in Hpost by mmlia.
    replace (virt k - virt k mod PGSIZE) with (virt k) in Hpost by lia.
    unfold tables_needed in Hpost. pose proof (missing_range (mem s) pgdir (virt k)).
    replace (virt k + (ksize k / PGSIZE - 1) * PGSIZE)
      with (virt k + ksize k - PGSIZE) in Hpost by mmlia.
    fold (ktables k) in *. pose proof (ktables_pos k Hko).
    assert (0 <= ktables_all ks).
    { clear -Hok. induction Hok as [|x xs Hx _ IH]; simpl; [lia|].
      pose proof (ktables_pos x Hx). lia. }
    assert (PDX (virt k + ksize k - PGSIZE) - PDX (virt k) = ktables k - 1) as Hkt
      by (unfold ktables; lia).
    destruct Hpost as [(-> & Hle & Hpv)|(_ & _ & Hlt & _)]; [|lia].
    cbn [Z.ltb Z.compare]. eapply wp_mono; [apply (IH s1 free1)| |done].
    + apply Hst. + apply Hst. + done. + done.
    + intros k' va Hk' Hr. pose proof (proj1 (Forall_forall _ _) Hd1 k' Hk') as Hdk.
      pose proof (proj1 (Forall_forall _ _) Hok k' Hk') as [].
      rewrite Hpv, map_view_out by (destruct Hdk; mmlia).
      apply (Hv k'); [by apply elem_of_cons; right|done].
    + lia.
    + intros r s' (-> & free' & Hst' & Hl' & Hv'). split; [done|]. exists free'.
      split; [by eapply pt_step_trans|]. split; [lia|]. intros va Hva. rewrite Hv' by done. simpl.
      by apply kmaps_ext, Hpv.
Qed.

Lemma kernel_view_maps f va : 0 <= va < 2 ^ 32 -> f va = 0 ->
  map_view (map_view (map_view (map_view f
    KERNBASE (EXTMEM / PGSIZE) 0 PTE_W)
    KERNLINK ((data_ - KERNLINK) / PGSIZE) EXTMEM 0)
    data_ ((KERNBASE + PHYSTOP - data_) / PGSIZE) (data_ - KERNBASE) PTE_W)
    DEVSPACE ((2 ^ 32 - DEVSPACE) / PGSIZE) DEVSPACE PTE_W va = kernel_view va.
Proof.
  intros Hva Hf. pose proof data_aligned. pose proof data_above. pose proof end_above.
  pose proof end_below. unfold kernel_view.
  destruct (Z.leb_spec KERNBASE va), (Z.ltb_spec va (KERNBASE + PHYSTOP)),
    (Z.leb_spec KERNLINK va), (Z.ltb_spec va data_), (Z.leb_spec DEVSPACE va);
    cbn [andb]; try mmlia;
    first
      [ rewrite (map_view_in _ DEVSPACE) by mmlia; do 2 f_equal; mmlia
      | rewrite map_view_out by mmlia;
        first
          [ rewrite (map_view_in _ data_) by mmlia; do 2 f_equal; mmlia
          | rewrite map_view_out by mmlia;
            first
              [ rewrite (map_view_in _ KERNLINK) by mmlia; do 2 f_equal; mmlia
              | rewrite map_view_out by mmlia;
                first
                  [ rewrite (map_view_in _ KERNBASE) by mmlia; do 2 f_equal; mmlia
                  | by rewrite map_view_out by mmlia ] ] ] ].
Qed.

(** The pages [setupkvm] needs at most: the directory and its tables. *)
Definition KVM_PAGES : Z := 67.

Lemma kmap_sizes :
  map (fun k => (virt k, ksize k, phys_start k, kperm k)) kmap =
    [ (KERNBASE, EXTMEM, 0, PTE_W);
      (KERNLINK, data_ - KERNLINK, EXTMEM, 0);
      (data_, KERNBASE + PHYSTOP - data_, data_ - KERNBASE, PTE_W);
      (DEVSPACE, 2 ^ 32 - DEVSPACE, DEVSPACE, PTE_W) ].
Proof.
  pose proof data_above. pose proof end_above. pose proof end_below.
  assert (v2p data_ = data_ - KERNBASE) as Hd by (unfold v2p; apply u32_small; mmlia).
  unfold kmap, ksize. simpl. rewrite Hd. change (v2p KERNLINK) with EXTMEM.
  rewrite !(u32_small (data_ - KERNBASE - EXTMEM)), (u32_small (PHYSTOP - (data_ - KERNBASE)))
    by mmlia.
  replace (data_ - KERNBASE - EXTMEM) with (data_ - KERNLINK) by mmlia.
  replace (PHYSTOP - (data_ - KERNBASE)) with (KERNBASE + PHYSTOP - data_) by lia. done.
Qed.

(** The entries of [kmap], as the linker places them. *)
Lemma kmap_all_ok : Forall kmap_ok kmap /\ ForallOrdPairs kdisj kmap /\
  ktables_all kmap + 1 <= KVM_PAGES.
Proof.
  pose proof data_aligned. pose proof data_above. pose proof end_above. pose proof end_below.
  pose proof kmap_sizes as Hs. unfold kmap in *. simpl in Hs. injection Hs as S2 S3 P3.
  change (v2p KERNLINK) with EXTMEM in *.
  assert (ksize (mkKmap KERNBASE 0 EXTMEM PTE_W) = EXTMEM) as S1 by done.
  assert (ksize (mkKmap DEVSPACE DEVSPACE 0 PTE_W) = 2 ^ 32 - DEVSPACE) as S4 by done.
  assert (PDX (data_ - PGSIZE) <= PDX data_) as Hx by (rewrite !PDX_div by mmlia; mmlia).
  split; [|split].
  - repeat (apply Forall_cons; split); [..|constructor]; split; simpl in *;
      try done; rewrite ?S1, ?S2, ?S3, ?S4, ?P3; done || mmlia.
  - unfold kdisj. repeat (constructor; simpl); rewrite ?S1, ?S2, ?S3, ?S4; mmlia.
  - unfold ktables_all, ktables; simpl in *. rewrite S1, S2, S3, S4.
    replace (KERNLINK + (data_ - KERNLINK) - PGSIZE) with (data_ - PGSIZE) by lia.
    replace (data_ + (KERNBASE + PHYSTOP - data_) - PGSIZE)
      with (KERNBASE + PHYSTOP - PGSIZE) by lia.
    change (PDX (KERNBASE + EXTMEM - PGSIZE) - PDX KERNBASE) with 0.
    change (PDX KERNLINK) with 512. change (PDX (KERNBASE + PHYSTOP - PGSIZE)) with 567.
    change (PDX (DEVSPACE + (2 ^ 32 - DEVSPACE) - PGSIZE) - PDX DEVSPACE) with 7.
    unfold KVM_PAGES. lia.
Qed.

Lemma kmaps_kernel_view f va : 0 <= va < 2 ^ 32 -> f va = 0 -> kmaps f kmap va = kernel_view va.
Proof.
  intros Hva Hf. rewrite <- (kernel_view_maps f va Hva Hf).
  pose proof kmap_sizes as Hs. unfold kmap in *. simpl in Hs. injection Hs as S2 S3 P3.
  change (v2p KERNLINK) with EXTMEM in *.
  assert (ksize (mkKmap KERNBASE 0 EXTMEM PTE_W) = EXTMEM) as S1 by done.
  assert (ksize (mkKmap DEVSPACE DEVSPACE 0 PTE_W) = 2 ^ 32 - DEVSPACE) as S4 by done.
  cbn [kmaps virt phys_start kperm]. by rewrite S1, S2, S3, S4, P3.
Qed.

(** A new page directory; nothing below the end of the kernel changes. *)
Lemma setupkvm_low s p l : kinv s (p :: l) -> KVM_PAGES <= Z.of_nat (length (p :: l)) ->
  returns setupkvm s (fun r s' => r = p /\ exists free',
    kinv s' free' /\ as_wf (mem s') p free' /\ free' `suffix_of` l /\
    Z.of_nat (length (p :: l)) <= Z.of_nat (length free') + KVM_PAGES /\
    (forall va, 0 <= va < 2 ^ 32 -> pte (mem s') p va = kernel_view va) /\
    (forall q, owned (mem s') p q -> q ∈ p :: l) /\
    (forall q, kpage q -> q ∉ p :: l -> agree (mem s) (mem s') q PGSIZE) /\
    rest s' = rest s /\ low_same (mem s) (mem s')).
Proof.
  intros Hk Hlen. pose proof (kinv_pages _ _ Hk) as Hpg. apply Forall_cons in Hpg as [Hp _].
  destruct (fresh_dir s p l Hk) as (Hk0 & Hwf0 & Hv0 & Ho0 & Hf0).
  destruct kmap_all_ok as (Hok & Hdj & Htab).
  unfold setupkvm. apply wp_bind. eapply returns_run; [by apply (kalloc_run s (p :: l))|].
  pose proof (kpage_range p Hp). rewrite (proj2 (Z.eqb_neq p 0)) by lia. ksteps.
  change (DEVSPACE <? p2v PHYSTOP) with false. cbn iota.
  set (s0 := set_mem _ _) in *. simpl length in Hlen.
  eapply wp_mono; [apply (setupkvm_loop_ok kmap s0 p l); done || lia| |done].
  intros r s' (-> & free' & [I W S F O R L] & Hl & Hv). split; [done|]. exists free'.
  split; [done|]. split; [done|]. split; [done|]. split; [simpl length; lia|].
  assert (low_same (mem s) (mem s0)) as Hlow by (destruct Hp as (_ & Hpe & _); by apply low_memset).
  split; [|split; [|split; [|split; [done|by eapply low_trans]]]].
  - intros va Hva. rewrite Hv by done. by apply kmaps_kernel_view.
  - intros q Hq. apply O in Hq as [Hq|Hq]; apply elem_of_cons; [left; auto|by right].
  - intros q Hq Hn. apply not_elem_of_cons in Hn as [Hn1 Hn2].
    apply agree_trans with (mem s0); [by apply Hf0|]. apply F; [done| |done].
    intros Ho. by apply Hn1, Ho0.
Qed.
Lemma setupkvm_ok s p l : kinv s (p :: l) -> KVM_PAGES <= Z.of_nat (length (p :: l)) ->
  returns setupkvm s (fun r s' => r = p /\ exists free',
    kinv s' free' /\ as_wf (mem s') p free' /\ free' `suffix_of` l /\
    Z.of_nat (length (p :: l)) <= Z.of_nat (length free') + KVM_PAGES /\
    (forall va, 0 <= va < 2 ^ 32 -> pte (mem s') p va = kernel_view va) /\
    (forall q, owned (mem s') p q -> q ∈ p :: l) /\
    (forall q, kpage q -> q ∉ p :: l -> agree (mem s) (mem s') q PGSIZE) /\
    rest s' = rest s).
Proof.
  intros Hk Hlen. eapply returns_mono; [by apply (setupkvm_low s p l)|].
  intros r s' (Hr & free' & H1 & H2 & H3 & H4 & H5 & H6 & H7 & H8 & _). split; [done|]. by exists free'.
Qed.
End pagetable.
