(* ===== verification/Uvm.v ===== *)
(** * User address spaces: the rest of vm.c but mprotect and cowfork

    allocuvm, deallocuvm, freevm, clearpteu, copyuvm, inituvm, uva2ka
    and copyout.  [uvm_wf] is the invariant of an address space of size [sz];
    the operations are shown to keep it, and [copyuvm] to give the child the
    parent's bytes in pages of its own. *)

From S2P Require Import Prelude Mmu Memory Kstate Kalloc PageTable.

Section uvm.
Context `{Layout}.

(** ** Dereferencing a pointer that may be null

    A null [pte_t*] is not checked everywhere.  The kernel runs on the
    process's page table, where address 0 is user memory: the access goes
    through the MMU.  CR0_WP is set (entry.S), so a store needs PTE_W. *)

Definition mmu (m : gmap Z Z) (pgdir va : Z) (write : bool) : option Z :=
  let e := pte m pgdir va in
  if present e && (negb write || negb (Z.land e PTE_W =? 0))
  then Some (p2v (PTE_ADDR e) + va mod PGSIZE) else None.

Definition deref (p : Z) : M kst Z := fun s =>
  if KERNBASE <=? p then Done (load32 (mem s) p) s
  else match mmu (mem s) (p2v (cr3 s)) p false with
       | Some a => Done (load32 (mem s) a) s
       | None => Stop (Faulted p) s
       end.

Definition assign (p v : Z) : M kst unit := fun s =>
  if KERNBASE <=? p then Done tt (set_mem (store32 (mem s) p v) s)
  else match mmu (mem s) (p2v (cr3 s)) p true with
       | Some a => Done tt (set_mem (store32 (mem s) a v) s)
       | None => Stop (Faulted p) s
       end.

(** ** Shrinking and freeing *)

(** The body of the loop of [deallocuvm] for a present entry at [p]. *)
Definition dealloc_pte (p e : Z) : M kst unit :=
  let pa := PTE_ADDR e in
  acquire L_pte_lookup ;;
  let! c := gets (fun s => refcount s (pa / PGSIZE)) in
  (if c <? 2 then
     (if pa =? 0 then release L_pte_lookup ;; panic "kfree" else ret tt) ;;
     kfree (p2v pa) ;;
     store p 0
   else if c =? 2 then
     let! e := load p in
     store p (Z.lor e PTE_W) ;;
     set_refcount (pa / PGSIZE) 1
   else set_refcount (pa / PGSIZE) (c - 1)) ;;
  release L_pte_lookup.

Fixpoint deallocuvm_loop (fuel : nat) (pgdir a oldsz : Z) : M kst unit :=
  match fuel with
  | O => halt Diverged
  | S f =>
      if a <? oldsz then
        let! p := walkpgdir pgdir a false in
        if p =? 0 then
          deallocuvm_loop f pgdir (u32 (u32 (a + (NPTENTRIES - 1) * PGSIZE) + PGSIZE)) oldsz
        else
          let! e := load p in
          (if negb (Z.land e PTE_P =? 0) then dealloc_pte p e else ret tt) ;;
          deallocuvm_loop f pgdir (u32 (a + PGSIZE)) oldsz
      else ret tt
  end.

Definition deallocuvm (pgdir oldsz newsz : Z) : M kst Z :=
  if oldsz <=? newsz then ret oldsz
  else
    let a := PGROUNDUP newsz in
    deallocuvm_loop (Z.to_nat ((oldsz - a) / PGSIZE + 2)) pgdir a oldsz ;;
    ret newsz.

(** [for(i = 0; i < NPDENTRIES; i++)] over the directory, from entry [i]. *)
Fixpoint freevm_loop (n : nat) (pgdir i : Z) : M kst unit :=
  match n with
  | O => ret tt
  | S n' =>
      let! e := load (pgdir + 4 * i) in
      (if negb (Z.land e PTE_P =? 0) then kfree (p2v (PTE_ADDR e)) else ret tt) ;;
      freevm_loop n' pgdir (i + 1)
  end.

Definition freevm (pgdir : Z) : M kst unit :=
  if pgdir =? 0 then panic "freevm: no pgdir"
  else
    deallocuvm pgdir KERNBASE 0 ;;
    freevm_loop (Z.to_nat NPDENTRIES) pgdir 0 ;;
    kfree pgdir.

(** ** Growing *)

Fixpoint allocuvm_loop (fuel : nat) (pgdir a oldsz newsz : Z) : M kst Z :=
  match fuel with
  | O => halt Diverged
  | S f =>
      if a <? newsz then
        let! p := kalloc in
        if p =? 0 then
          cprintf "allocuvm out of memory\n" [] ;;
          deallocuvm pgdir newsz oldsz ;;
          ret 0
        else
          on_mem (fun m => memset m p 0 PGSIZE) ;;
          mappages pgdir a PGSIZE (v2p p) (Z.lor PTE_W PTE_U) ;;
          allocuvm_loop f pgdir (u32 (a + PGSIZE)) oldsz newsz
      else ret newsz
  end.

Definition allocuvm (pgdir oldsz newsz : Z) : M kst Z :=
  if KERNBASE <=? newsz then ret 0
  else if newsz <? oldsz then ret oldsz
  else
    let a := PGROUNDUP oldsz in
    allocuvm_loop (Z.to_nat ((newsz - a) / PGSIZE + 2)) pgdir a oldsz newsz.

(** ** Copying an address space *)

Fixpoint copyuvm_loop (fuel : nat) (pgdir d i sz : Z) : M kst Z :=
  match fuel with
  | O => halt Diverged
  | S f =>
      if i <? sz then
        let! p := walkpgdir pgdir i false in
        if p =? 0 then panic "copyuvm: pte should exist"
        else
          let! e := load p in
          if Z.land e PTE_P =? 0 then panic "copyuvm: page not present"
          else
            let pa := PTE_ADDR e in
            let flags := PTE_FLAGS e in
            let! q := kalloc in
            if q =? 0 then freevm d ;; ret 0
            else
              on_mem (fun m => memmove m q (p2v pa) PGSIZE) ;;
              let! r := mappages d i PGSIZE (v2p q) flags in
              if r <? 0 then freevm d ;; ret 0
              else copyuvm_loop f pgdir d (u32 (i + PGSIZE)) sz
      else ret d
  end.

Definition copyuvm (pgdir sz : Z) : M kst Z :=
  let! d := setupkvm in
  if d =? 0 then ret 0
  else copyuvm_loop (Z.to_nat (sz / PGSIZE + 2)) pgdir d 0 sz.

(** ** Loading programs and moving bytes *)

(** The bytes [bs] stored from [a] on. *)
Fixpoint write_bytes (m : gmap Z Z) (a : Z) (bs : list Z) : gmap Z Z :=
  match bs with
  | [] => m
  | b :: bs' => write_bytes (store8 m a b) (a + 1) bs'
  end.

(** The result of [kalloc] is used without a test; at boot nothing is mapped at 0. *)
Definition inituvm (pgdir : Z) (init : list Z) : M kst unit :=
  let sz := Z.of_nat (length init) in
  if PGSIZE <=? sz then panic "inituvm: more than a page"
  else
    let! p := kalloc in
    if p =? 0 then halt (Faulted 0)
    else
    on_mem (fun m => memset m p 0 PGSIZE) ;;
    mappages pgdir 0 PGSIZE (v2p p) (Z.lor PTE_W PTE_U) ;;
    on_mem (fun m => write_bytes m p init).

Definition clearpteu (pgdir uva : Z) : M kst unit :=
  let! p := walkpgdir pgdir uva false in
  if p =? 0 then panic "clearpteu"
  else
    let! e := load p in
    store p (Z.land e (u32 (Z.lnot PTE_U))).

(** The result of [walkpgdir] is dereferenced without a test. *)
Definition uva2ka (pgdir uva : Z) : M kst Z :=
  let! p := walkpgdir pgdir uva false in
  let! e := deref p in
  if Z.land e PTE_P =? 0 then ret 0
  else if Z.land e PTE_U =? 0 then ret 0
  else ret (p2v (PTE_ADDR e)).

(** [bs] are the bytes at [p], [len] of them. *)
Fixpoint copyout_loop (fuel : nat) (pgdir va : Z) (bs : list Z) : M kst Z :=
  match fuel with
  | O => halt Diverged
  | S f =>
      match bs with
      | [] => ret 0
      | _ :: _ =>
          let va0 := PGROUNDDOWN va in
          let! pa0 := uva2ka pgdir va0 in
          if pa0 =? 0 then ret (-1)
          else
            let n := Z.min (PGSIZE - (va - va0)) (Z.of_nat (length bs)) in
            on_mem (fun m => write_bytes m (pa0 + (va - va0)) (take (Z.to_nat n) bs)) ;;
            copyout_loop f pgdir (u32 (va0 + PGSIZE)) (drop (Z.to_nat n) bs)
      end
  end.

Definition copyout (pgdir va : Z) (bs : list Z) : M kst Z :=
  copyout_loop (length bs + 1) pgdir va bs.

(** Loading the page directory of a process; the task state segment is not
    part of this state. *)
Definition switchuvm (pgdir : Z) : M kst unit :=
  if pgdir =? 0 then panic "switchuvm: no pgdir" else modify (set_cr3 (v2p pgdir)).

(** ** The invariant of a user address space *)

(** The page that backs [va]. *)
Definition upage (m : gmap Z Z) (pgdir va : Z) : Z := p2v (PTE_ADDR (pte m pgdir va)).

Record uvm_wf (m : gmap Z Z) (pgdir sz : Z) (free : list Z) : Prop := {
  uw_as : as_wf m pgdir free;
  uw_size : 0 <= sz < KERNBASE;
  uw_kern va : KERNBASE <= va < 2 ^ 32 -> pte m pgdir va = kernel_view va;
  uw_in va : 0 <= va < sz -> present (pte m pgdir va) = true /\
    kpage (upage m pgdir va) /\ ~ owned m pgdir (upage m pgdir va) /\
    upage m pgdir va ∉ free;
  uw_out va : PGROUNDUP sz <= va < KERNBASE -> present (pte m pgdir va) = false;
  uw_inj va va' : 0 <= va < sz -> 0 <= va' < sz ->
    upage m pgdir va = upage m pgdir va' -> va / PGSIZE = va' / PGSIZE }.

(** A page that is neither in the structure nor mapped counts as free. *)
Lemma uvm_wf_cons m pgdir sz q free : uvm_wf m pgdir sz free -> ~ owned m pgdir q ->
  (forall va, 0 <= va < sz -> upage m pgdir va <> q) -> uvm_wf m pgdir sz (q :: free).
Proof.
  intros [[Hd Hf Ht Hi] Hs Hk Hin Ho Hj] Hq Hu. split; [split|done|done| |done|done]; [done| | |done|].
  - rewrite not_elem_of_cons. split; [|done]. intros ->. apply Hq. by left.
  - intros i Hr Hp. destruct (Ht i Hr Hp) as (? & ? & ?). split; [done|]. split; [done|].
    rewrite not_elem_of_cons. split; [|done]. intros <-. apply Hq. right. by exists i.
  - intros va Hva. destruct (Hin va Hva) as (? & ? & ? & ?). do 3 (split; [done|]).
    rewrite not_elem_of_cons. split; [by apply Hu|done].
Qed.

(** ** Taking a page from the allocator and mapping it *)

Lemma take_page s pgdir p l g :
  kinv s (p :: l) -> as_wf (mem s) pgdir (p :: l) ->
  (forall q, kpage q -> q <> p -> agree (mem s) (g (mem s)) q PGSIZE) ->
  low_same (mem s) (g (mem s)) ->
  let s1 := set_mem (g (mem s)) (set_freelist (load32 (mem s) p) s) in
  pt_step s pgdir (p :: l) s1 l /\ (forall va, pte (mem s1) pgdir va = pte (mem s) pgdir va) /\
  ~ owned (mem s1) pgdir p /\ p ∉ l /\ kpage p.
Proof.
  intros Hk Hwf Hg Hglow s1. pose proof (kinv_nodup _ _ Hk) as Hnd. apply NoDup_cons in Hnd as [Hpl _].
  pose proof (kinv_pages _ _ Hk) as Hpg. apply Forall_cons in Hpg as [Hp Hpg].
  assert (forall q, owned (mem s) pgdir q -> kpage q /\ q <> p) as Hop.
  { intros q Hq. destruct (owned_kpage _ _ _ q Hwf Hq) as [Hq1 Hq2].
    apply not_elem_of_cons in Hq2. naive_solver. }
  assert (agree (mem s) (mem s1) pgdir PGSIZE) as Hd
    by (destruct (Hop pgdir); [by left|by apply Hg]).
  assert (forall q, owned (mem s1) pgdir q <-> owned (mem s) pgdir q) as Ho
    by (intros; symmetry; by apply owned_agree).
  split; [|split; [|split; [|done]]].
  - split.
    + apply kinv_frame; [by apply kinv_kalloc|]. intros q Hq. simpl. apply Hg.
      * by eapply Forall_forall in Hpg.
      * by intros ->.
    + eapply as_wf_agree; [exact Hd|]. eapply as_wf_suffix; [exact Hwf|].
      intros q Hq. apply elem_of_cons. by right.
    + by exists [p].
    + intros q Hq _ Hf. apply not_elem_of_cons in Hf as [Hf _]. by apply Hg.
    + intros q Hq. left. by apply Ho.
    + done.
    + done.
  - intros va. apply pte_agree. intros q Hq. apply Hop in Hq as [? ?]. by apply Hg.
  - rewrite Ho. intros Hq. by apply Hop in Hq as [_ ?].
Qed.

(** [mappages] of one page. *)
Lemma map_page s pgdir free a pa perm :
  a mod PGSIZE = 0 -> 0 <= a < 2 ^ 32 -> 0 <= pa < 2 ^ 32 -> 0 <= perm < 4096 ->
  kinv s free -> as_wf (mem s) pgdir free ->
  (forall va, a <= va < a + PGSIZE -> present (pte (mem s) pgdir va) = false) ->
  returns (mappages pgdir a PGSIZE pa perm) s (fun r s' => exists free',
    pt_step s pgdir free s' free' /\
    ((r = 0 /\ (length free <= length free' + 1)%nat /\
      forall va, 0 <= va < 2 ^ 32 -> pte (mem s') pgdir va =
        if va / PGSIZE =? a / PGSIZE then Z.lor (Z.lor pa perm) PTE_P
        else pte (mem s) pgdir va) \/
     (r = -1 /\ free = [] /\ forall va, 0 <= va < 2 ^ 32 ->
        pte (mem s') pgdir va = pte (mem s) pgdir va))).
Proof.
  intros Ha Har Hpa Hperm Hk Hwf Hnp.
  eapply returns_mono; [apply (mappages_ok pgdir a PGSIZE pa perm s free); try done; try mmlia|].
  { replace (a - a mod PGSIZE) with a by lia. intros va Hva. apply Hnp. mmlia. }
  intros r s' (free' & Hst & Hpost). exists free'. split; [done|].
  replace (a - a mod PGSIZE) with a in Hpost by lia.
  replace ((a + PGSIZE - 1) / PGSIZE - a / PGSIZE + 1) with 1 in Hpost by mmlia.
  cbv zeta in Hpost. unfold tables_needed in Hpost.
  replace (a + (1 - 1) * PGSIZE) with a in Hpost by lia.
  pose proof (missing_range (mem s) pgdir a).
  destruct Hpost as [(-> & Hl & Hv)|(-> & -> & Hl & k & Hkr & Hv)]; [left|right].
  - split; [done|]. split; [lia|]. intros va Hva. rewrite Hv by done.
    set (g va := if va / PGSIZE =? a / PGSIZE
      then Z.lor (Z.lor pa perm) PTE_P else pte (mem s) pgdir va).
    transitivity (map_view g (a + PGSIZE) 0 (pa + PGSIZE) perm va); [|apply map_view_0].
    symmetry. by apply map_view_step.
  - split; [done|]. split; [destruct free; [done|simpl in Hl; lia]|].
    intros va Hva. rewrite Hv by done. assert (k = 0) as -> by lia. apply map_view_0.
Qed.

(** ** Address spaces that grew *)

(** Pages [a] to [a + n * PGSIZE] were mapped to pages taken from [free], with
    flags [fl] and contents [byte]; everything else is as before. *)
Record grown (fl byte : Z -> Z) (s : kst) (pgdir : Z) (free : list Z) (a n : Z)
  (s' : kst) (free' : list Z) : Prop := {
  gr_step : pt_step s pgdir free s' free';
  gr_new va : a <= va < a + n * PGSIZE -> exists q,
    pte (mem s') pgdir va = Z.lor (Z.lor (v2p q) (fl va)) PTE_P /\
    kpage q /\ q ∈ free /\ q ∉ free' /\ ~ owned (mem s') pgdir q /\
    load8 (mem s') (q + va mod PGSIZE) = byte va;
  gr_inj va va' : a <= va < a + n * PGSIZE -> a <= va' < a + n * PGSIZE ->
    upage (mem s') pgdir va = upage (mem s') pgdir va' -> va / PGSIZE = va' / PGSIZE;
  gr_old va : 0 <= va < 2 ^ 32 -> va < a \/ a + n * PGSIZE <= va ->
    pte (mem s') pgdir va = pte (mem s) pgdir va }.

Lemma grown_0 fl byte s pgdir free a : kinv s free -> as_wf (mem s) pgdir free ->
  grown fl byte s pgdir free a 0 s free.
Proof. intros Hk Hwf. split; [by apply pt_step_refl|..]; intros; (done || mmlia). Qed.

Lemma flags_lor_P f : 0 <= f < 4096 -> 0 <= Z.lor f PTE_P < 4096.
Proof.
  intros Hf. split; [apply Z.lor_nonneg; unfold PTE_P; lia|].
  destruct (decide (Z.lor f PTE_P = 0)) as [->|Hne]; [lia|].
  assert (0 <= Z.lor f PTE_P) by (apply Z.lor_nonneg; unfold PTE_P; lia).
  change 4096 with (2 ^ 12). apply Z.log2_lt_pow2; [lia|].
  rewrite Z.log2_lor by (unfold PTE_P; lia). apply Z.max_lub_lt; [|by vm_compute].
  destruct (decide (f = 0)) as [->|]; [done|]. apply Z.log2_lt_pow2; pows; lia.
Qed.

Lemma entry_flags q f : kpage q -> 0 <= f < 4096 ->
  PTE_FLAGS (Z.lor (Z.lor (v2p q) f) PTE_P) = Z.lor f PTE_P.
Proof.
  intros Hq Hf. rewrite <- Z.lor_assoc.
  by destruct (kpage_entry q _ Hq (flags_lor_P f Hf)) as (_ & _ & _ & ?).
Qed.

Lemma upage_entry m pgdir va q f : kpage q -> 0 <= f < 4096 ->
  pte m pgdir va = Z.lor (Z.lor (v2p q) f) PTE_P -> upage m pgdir va = q.
Proof.
  intros Hq Hf He. unfold upage. rewrite He, <- Z.lor_assoc.
  by destruct (kpage_entry q _ Hq (flags_lor_P f Hf)) as (_ & _ & ? & _).
Qed.

(** One more page in front of those that grew. *)
Lemma grown_cons fl byte s s1 s' pgdir free free1 free' a n q :
  a mod PGSIZE = 0 -> 0 <= a -> 0 <= n -> a + (n + 1) * PGSIZE <= 2 ^ 32 ->
  (forall va, 0 <= fl va < 4096) ->
  pt_step s pgdir free s1 free1 ->
  kpage q -> q ∈ free -> q ∉ free1 -> ~ owned (mem s1) pgdir q ->
  (forall o, 0 <= o < PGSIZE -> load8 (mem s1) (q + o) = byte (a + o)) ->
  (forall va, a <= va < a + PGSIZE -> fl va = fl a) ->
  (forall va, 0 <= va < 2 ^ 32 -> pte (mem s1) pgdir va =
     if va / PGSIZE =? a / PGSIZE then Z.lor (Z.lor (v2p q) (fl a)) PTE_P
     else pte (mem s) pgdir va) ->
  grown fl byte s1 pgdir free1 (a + PGSIZE) n s' free' ->
  grown fl byte s pgdir free a (n + 1) s' free'.
Proof.
  intros Ha Ha0 Hn Hend Hfl Hst Hq Hqf Hqf1 Hqo Hb Hfa Hv [Gs Gn Gi Go].
  assert (forall va, a <= va < a + PGSIZE ->
    pte (mem s') pgdir va = Z.lor (Z.lor (v2p q) (fl va)) PTE_P) as Hfirst.
  { intros va Hva. rewrite Go, Hv by mmlia. rewrite (proj2 (Z.eqb_eq _ _)) by mmlia.
    by rewrite (Hfa va). }
  assert (q ∉ free' /\ ~ owned (mem s') pgdir q) as [Hqf' Hqo'].
  { split; [intros Hin; eapply suffix_elem in Hin; [done|apply Gs]|].
    intros Hin. apply (ps_owned _ _ _ _ _ Gs) in Hin. naive_solver. }
  assert (forall va, a + PGSIZE <= va < a + (n + 1) * PGSIZE ->
    upage (mem s') pgdir va ∈ free1) as Hrest.
  { intros va Hva. destruct (Gn va) as (q2 & He & Hk2 & Hf2 & _); [lia|].
    by erewrite upage_entry by done. }
  split; [by eapply pt_step_trans| | |].
  - intros va Hva. destruct (decide (va < a + PGSIZE)).
    + exists q. split; [apply Hfirst; lia|]. repeat (split; [done|]).
      rewrite (ps_frame _ _ _ _ _ Gs q Hq Hqo Hqf1) by (mmlia).
      rewrite Hb by mmlia. f_equal. mmlia.
    + destruct (Gn va) as (q2 & ? & ? & ? & ?); [lia|]. exists q2. split; [done|].
      split; [done|]. split; [|done]. eapply suffix_elem; [apply Hst|done].
  - intros va va' Hva Hva' He.
    destruct (decide (va < a + PGSIZE)), (decide (va' < a + PGSIZE)).
    + mmlia.
    + exfalso. apply Hqf1. erewrite <- (upage_entry (mem s') pgdir va q) by (try apply Hfirst; done || lia).
      rewrite He. apply Hrest. lia.
    + exfalso. apply Hqf1. erewrite <- (upage_entry (mem s') pgdir va' q) by (try apply Hfirst; done || lia).
      rewrite <- He. apply Hrest. lia.
    + apply Gi; [lia..|done].
  - intros va Hva Ho. rewrite Go, Hv by mmlia. by rewrite (proj2 (Z.eqb_neq _ _)) by mmlia.
Qed.

(** The body shared by the loops of [allocuvm] and [copyuvm], with the page
    [p] just taken from the allocator: fill it with [g], map it at [a]. *)
Lemma alloc_map_page {B} s pgdir p l a fl g byte (k : Z -> M kst B) Q E :
  kinv s (p :: l) -> as_wf (mem s) pgdir (p :: l) -> l <> [] ->
  a mod PGSIZE = 0 -> 0 <= a < 2 ^ 32 -> 0 <= fl < 4096 ->
  (forall va, a <= va < a + PGSIZE -> present (pte (mem s) pgdir va) = false) ->
  (forall q, kpage q -> q <> p -> agree (mem s) (g (mem s)) q PGSIZE) ->
  low_same (mem s) (g (mem s)) ->
  (forall o, 0 <= o < PGSIZE -> load8 (g (mem s)) (p + o) = byte (a + o)) ->
  (forall s1 free1, pt_step s pgdir (p :: l) s1 free1 -> (length l <= length free1 + 1)%nat ->
     kpage p -> p ∉ free1 -> ~ owned (mem s1) pgdir p ->
     (forall o, 0 <= o < PGSIZE -> load8 (mem s1) (p + o) = byte (a + o)) ->
     (forall va, 0 <= va < 2 ^ 32 -> pte (mem s1) pgdir va =
        if va / PGSIZE =? a / PGSIZE then Z.lor (Z.lor (v2p p) fl) PTE_P
        else pte (mem s) pgdir va) ->
     wp (k 0) s1 Q E) ->
  wp (on_mem g ;; let! r := mappages pgdir a PGSIZE (v2p p) fl in k r)
    (set_freelist (load32 (mem s) p) s) Q E.
Proof.
  intros Hk Hwf Hl Ha Har Hfl Hnp Hg Hglow Hgb Hcont. ksteps. simpl mem.
  destruct (take_page s pgdir p l g Hk Hwf Hg Hglow) as (Hst & Hv & Hno & Hpl & Hp).
  set (s1 := set_mem _ _) in *. destruct (kpage_v2p p Hp) as (_ & _ & Hpr).
  pose proof (ps_inv _ _ _ _ _ Hst) as Hk1. pose proof (ps_wf _ _ _ _ _ Hst) as Hwf1.
  eapply wp_mono; [apply (map_page s1 pgdir l a (v2p p) fl); try done| |done].
  { intros va Hva. rewrite Hv. auto. }
  intros r s2 (free2 & Hst2 & [(-> & Hlen & Hv2)|(_ & -> & _)]); [|done].
  apply (Hcont s2 free2); [by eapply pt_step_trans|done|done| | | |].
  - intros Hin. eapply suffix_elem in Hin; [done|apply Hst2].
  - intros Ho. apply (ps_owned _ _ _ _ _ Hst2) in Ho. naive_solver.
  - intros o Ho. rewrite (ps_frame _ _ _ _ _ Hst2 p Hp Hno Hpl) by lia. by apply Hgb.
  - intros va Hva. rewrite Hv2 by done. by rewrite Hv.
Qed.

Lemma memset_page m p q : kpage p -> kpage q -> q <> p ->
  agree m (memset m p 0 PGSIZE) q PGSIZE.
Proof.
  intros Hp Hq Hne a Ha. pose proof (kpage_sep q p Hq Hp Hne).
  rewrite load8_memset by mmlia.
  destruct (Z.leb_spec p a), (Z.ltb_spec a (p + PGSIZE)); simpl; try done. lia.
Qed.

Lemma allocuvm_loop_ok n fuel pgdir a oldsz newsz s free :
  (n < fuel)%nat -> a mod PGSIZE = 0 -> 0 <= a ->
  newsz <= a + Z.of_nat n * PGSIZE -> (0 < n)%nat \/ newsz <= a ->
  a + Z.of_nat n * PGSIZE < newsz + PGSIZE \/ n = O -> newsz < KERNBASE ->
  kinv s free -> as_wf (mem s) pgdir free -> (2 * n <= length free)%nat ->
  (forall va, a <= va < a + Z.of_nat n * PGSIZE -> present (pte (mem s) pgdir va) = false) ->
  returns (allocuvm_loop fuel pgdir a oldsz newsz) s (fun r s' => r = newsz /\
    exists free', (length free <= length free' + 2 * n)%nat /\
      grown (fun _ => Z.lor PTE_W PTE_U) (fun _ => 0) s pgdir free a (Z.of_nat n) s' free').
Proof.
  revert fuel a s free. induction n as [|n IH];
    intros fuel a s free Hf Ha Ha0 Hhi Hn Hlo Hks Hk Hwf Hlen Hnp;
    (destruct fuel as [|fuel]; [lia|]); cbn [allocuvm_loop].
  { rewrite (proj2 (Z.ltb_ge a newsz)) by lia. steps. split; [done|]. exists free.
    split; [lia|]. by apply grown_0. }
  rewrite (proj2 (Z.ltb_lt a newsz)) by mmlia.
  destruct free as [|p [|p2 l]]; [simpl in Hlen; lia..|].
  apply wp_bind. unfold wp at 1. rewrite (kalloc_run s _ Hk).
  pose proof (kinv_pages _ _ Hk) as Hpg. apply Forall_cons in Hpg as [Hp _].
  pose proof (kpage_range p Hp). rewrite (proj2 (Z.eqb_neq p 0)) by lia.
  apply (alloc_map_page s pgdir p (p2 :: l) a _ _ (fun _ => 0)); try done.
  - mmlia.
  - intros va Hva. apply Hnp. mmlia.
  - intros q Hq Hne. by apply memset_page.
  - destruct Hp as (_ & Hpe & _). by apply low_memset.
  - intros o Ho. rewrite load8_memset by mmlia.
    by rewrite (proj2 (Z.leb_le _ _)), (proj2 (Z.ltb_lt _ _)) by lia.
  - intros s1 free1 Hst Hlen1 _ Hpf Hpo Hb Hv. rewrite u32_small by mmlia.
    pose proof (ps_inv _ _ _ _ _ Hst) as Hk1. pose proof (ps_wf _ _ _ _ _ Hst) as Hwf1.
    eapply wp_mono; [apply (IH fuel (a + PGSIZE) s1 free1); try done; try mmlia| |done].
    + simpl in *. lia.
    + intros va Hva. rewrite Hv by mmlia. rewrite (proj2 (Z.eqb_neq _ _)) by mmlia.
      apply Hnp. mmlia.
    + intros r s' (-> & free' & Hl' & Hgr). split; [done|]. exists free'.
      split; [simpl in *; lia|]. replace (Z.of_nat (S n)) with (Z.of_nat n + 1) by lia.
      eapply (grown_cons _ _ s s1 s' pgdir _ free1 free' a _ p); try done; try mmlia.
      by apply elem_of_cons; left.
Qed.

(** ** The invariant under growth and under changes elsewhere *)

(** The byte user code reads at [va]. *)
Definition ubyte (m : gmap Z Z) (pgdir va : Z) : Z :=
  load8 m (upage m pgdir va + va mod PGSIZE).

Lemma pte_same_page m pgdir va va' : 0 <= va < 2 ^ 32 -> 0 <= va' < 2 ^ 32 ->
  va / PGSIZE = va' / PGSIZE -> pte m pgdir va = pte m pgdir va'.
Proof.
  intros Hva Hva' He. apply index_page in He as [E1 E2]; [|done..].
  unfold pte, pte_addr. by rewrite E1, E2.
Qed.

Lemma PGROUNDUP_user sz : 0 <= sz < KERNBASE ->
  PGROUNDUP sz = (sz + PGSIZE - 1) / PGSIZE * PGSIZE /\ sz <= PGROUNDUP sz <= KERNBASE /\
  PGROUNDUP sz mod PGSIZE = 0 /\ PGROUNDUP sz < sz + PGSIZE.
Proof.
  intros Hs. assert (PGROUNDUP sz = (sz + PGSIZE - 1) / PGSIZE * PGSIZE) as Hup
    by (apply PGROUNDUP_eq; mmlia).
  split; [done|]. rewrite Hup. mmlia.
Qed.

(** [uw_in] for every address of the last page. *)
Lemma uw_in_page m pgdir sz free va : uvm_wf m pgdir sz free -> 0 <= va < PGROUNDUP sz ->
  present (pte m pgdir va) = true /\ kpage (upage m pgdir va) /\
  ~ owned m pgdir (upage m pgdir va) /\ upage m pgdir va ∉ free.
Proof.
  intros Hwf Hva. pose proof (uw_size _ _ _ _ Hwf) as Hs.
  destruct (PGROUNDUP_user sz Hs) as (Hup & ?).
  assert (pte m pgdir va = pte m pgdir (va - va mod PGSIZE)) as He
    by (apply pte_same_page; mmlia).
  unfold upage. rewrite He. apply (uw_in _ _ _ _ Hwf). mmlia.
Qed.

Lemma uvm_wf_frame s s' pgdir sz free free' :
  (forall q, kpage q -> q ∉ free -> agree (mem s) (mem s') q PGSIZE) ->
  (forall q, q ∈ free' -> q ∈ free) ->
  uvm_wf (mem s) pgdir sz free -> uvm_wf (mem s') pgdir sz free'.
Proof.
  intros Hfr Hsub [Ha Hs Hk Hi Ho Hj].
  assert (forall q, owned (mem s) pgdir q -> agree (mem s) (mem s') q PGSIZE) as Hag.
  { intros q Hq. destruct (owned_kpage _ _ _ _ Ha Hq). by apply Hfr. }
  assert (forall va, pte (mem s') pgdir va = pte (mem s) pgdir va) as Hp
    by (intros; by apply pte_agree).
  assert (agree (mem s) (mem s') pgdir PGSIZE) as Hd by (apply Hag; by left).
  split; [|done| | | |].
  - eapply as_wf_suffix; [|exact Hsub]. by eapply as_wf_agree.
  - intros. rewrite Hp. by apply Hk.
  - intros va Hva. unfold upage. rewrite Hp, <- owned_agree by done.
    destruct (Hi va Hva) as (? & ? & ? & ?). naive_solver.
  - intros. rewrite Hp. by apply Ho.
  - intros va va'. unfold upage. rewrite !Hp. apply Hj.
Qed.

Lemma pte_frame s s' pgdir sz free va :
  (forall q, kpage q -> q ∉ free -> agree (mem s) (mem s') q PGSIZE) ->
  uvm_wf (mem s) pgdir sz free -> pte (mem s') pgdir va = pte (mem s) pgdir va.
Proof.
  intros Hfr Hwf. apply pte_agree. intros q Hq.
  destruct (owned_kpage _ _ _ _ (uw_as _ _ _ _ Hwf) Hq). by apply Hfr.
Qed.

Lemma ubyte_frame s s' pgdir sz free va :
  (forall q, kpage q -> q ∉ free -> agree (mem s) (mem s') q PGSIZE) ->
  uvm_wf (mem s) pgdir sz free -> 0 <= va < sz ->
  ubyte (mem s') pgdir va = ubyte (mem s) pgdir va.
Proof.
  intros Hfr Hwf Hva. unfold ubyte. pose proof (pte_frame s s' pgdir sz free va Hfr Hwf) as Hp.
  destruct (uw_in _ _ _ _ Hwf va Hva) as (_ & Hq & _ & Hf).
  unfold upage at 1. rewrite Hp. fold (upage (mem s) pgdir va). apply (Hfr _ Hq Hf). mmlia.
Qed.

Lemma grown_uvm_wf fl byte s pgdir oldsz newsz free n s' free' :
  (forall va, 0 <= fl va < 4096) ->
  uvm_wf (mem s) pgdir oldsz free -> oldsz <= newsz < KERNBASE ->
  PGROUNDUP newsz = PGROUNDUP oldsz + n * PGSIZE ->
  grown fl byte s pgdir free (PGROUNDUP oldsz) n s' free' ->
  uvm_wf (mem s') pgdir newsz free'.
Proof.
  intros Hfl Hwf Hsz Hup [Gs Gn Gi Go]. pose proof (uw_size _ _ _ _ Hwf) as Hos.
  destruct (PGROUNDUP_user oldsz Hos) as (U1 & U2 & U3 & U4).
  destruct (PGROUNDUP_user newsz ltac:(lia)) as (V1 & V2 & V3 & V4).
  pose proof (fun va => uw_in_page _ _ _ _ va Hwf) as Hin. pose proof (uw_out _ _ _ _ Hwf) as Hout.
  assert (KERNBASE = 2147483648) as HKB by done.
  remember (PGROUNDUP oldsz) as U eqn:EU; clear EU.
  remember (PGROUNDUP newsz) as V eqn:EV.
  assert (0 <= n * PGSIZE) by (unfold PGSIZE in *; lia).
  assert (forall va, 0 <= va < U ->
    upage (mem s') pgdir va = upage (mem s) pgdir va) as Hold.
  { intros va Hva. unfold upage. rewrite Go by lia. done. }
  assert (forall va, U <= va < V ->
    upage (mem s') pgdir va ∈ free) as Hnew.
  { intros va Hva. destruct (Gn va) as (q & He & Hk & Hf & _); [lia|].
    by erewrite upage_entry by done. }
  split; [apply Gs|lia| | | |].
  - intros va Hva. rewrite Go by lia. by apply (uw_kern _ _ _ _ Hwf).
  - intros va Hva. destruct (decide (va < U)) as [Hlt|Hge].
    + destruct (Hin va) as (Hp & Hk & Ho & Hf); [lia|].
      rewrite Hold, Go by lia. split; [done|]. split; [done|]. split.
      * intros Hx. apply (ps_owned _ _ _ _ _ Gs) in Hx. naive_solver.
      * intros Hx. eapply suffix_elem in Hx; [done|apply Gs].
    + destruct (Gn va) as (q & He & Hk & Hf & Hnf & Hno & _); [lia|].
      erewrite upage_entry by done. split; [|done].
      by rewrite He, present_lor, orb_true_r.
  - intros va Hva. rewrite Go by lia. apply Hout. lia.
  - intros va va' Hva Hva' He.
    destruct (decide (va < U)), (decide (va' < U)).
    + rewrite !Hold in He by lia.
      assert ((va - va mod PGSIZE) / PGSIZE = (va' - va' mod PGSIZE) / PGSIZE); [|mmlia].
      apply (uw_inj _ _ _ _ Hwf); [mmlia..|]. unfold upage in *.
      rewrite (pte_same_page _ _ (va - va mod PGSIZE) va) by mmlia.
      rewrite (pte_same_page _ _ (va' - va' mod PGSIZE) va') by mmlia. done.
    + exfalso. destruct (Hin va) as (_ & _ & _ & Hf); [lia|].
      apply Hf. rewrite <- Hold, He by lia. apply Hnew. lia.
    + exfalso. destruct (Hin va') as (_ & _ & _ & Hf); [lia|].
      apply Hf. rewrite <- Hold, <- He by lia. apply Hnew. lia.
    + apply Gi; [lia..|done].
Qed.

(** The pages between two sizes. *)
Definition new_pages (oldsz newsz : Z) : nat :=
  Z.to_nat ((PGROUNDUP newsz - PGROUNDUP oldsz) / PGSIZE).

Lemma new_pages_eq oldsz newsz : 0 <= oldsz <= newsz -> newsz < KERNBASE ->
  PGROUNDUP newsz = PGROUNDUP oldsz + Z.of_nat (new_pages oldsz newsz) * PGSIZE.
Proof.
  intros Ho Hn. destruct (PGROUNDUP_user oldsz ltac:(lia)) as (-> & _).
  destruct (PGROUNDUP_user newsz ltac:(lia)) as (E & _). unfold new_pages. rewrite E.
  rewrite PGROUNDUP_eq by mmlia. mmlia.
Qed.

Lemma allocuvm_run pgdir oldsz newsz s free :
  kinv s free -> uvm_wf (mem s) pgdir oldsz free -> oldsz <= newsz < KERNBASE ->
  (2 * new_pages oldsz newsz <= length free)%nat ->
  returns (allocuvm pgdir oldsz newsz) s (fun r s' => r = newsz /\ exists free',
    kinv s' free' /\ uvm_wf (mem s') pgdir newsz free' /\
    (length free <= length free' + 2 * new_pages oldsz newsz)%nat /\
    grown (fun _ => Z.lor PTE_W PTE_U) (fun _ => 0) s pgdir free (PGROUNDUP oldsz)
      (Z.of_nat (new_pages oldsz newsz)) s' free').
Proof.
  intros Hk Hwf Hsz Hlen. pose proof (uw_size _ _ _ _ Hwf) as Hos.
  pose proof (new_pages_eq oldsz newsz ltac:(lia) ltac:(lia)) as Hnp.
  destruct (PGROUNDUP_user oldsz Hos) as (U1 & U2 & U3 & U4).
  destruct (PGROUNDUP_user newsz ltac:(lia)) as (V1 & V2 & V3 & V4).
  pose proof (uw_out _ _ _ _ Hwf) as Hout.
  unfold allocuvm. rewrite (proj2 (Z.leb_gt _ _)), (proj2 (Z.ltb_ge _ _)) by lia.
  set (n := new_pages oldsz newsz) in *.
  remember (PGROUNDUP oldsz) as U eqn:EU. remember (PGROUNDUP newsz) as V eqn:EV.
  assert (0 <= Z.of_nat n * PGSIZE) by (unfold PGSIZE in *; lia).
  eapply returns_mono; [apply (allocuvm_loop_ok n _ pgdir U oldsz newsz s free); try done|].
  - clear -U2 V2 V4 Hnp H0. unfold PGSIZE in *. zlia.
  - lia.
  - lia.
  - unfold PGSIZE in *. lia.
  - lia.
  - lia.
  - apply Hwf.
  - intros va Hva. apply Hout. lia.
  - intros r s' (-> & free' & Hl & Hgr). split; [done|]. exists free'.
    split; [apply Hgr|]. split; [|done]. rewrite EU in Hgr.
    eapply (grown_uvm_wf _ _ s pgdir oldsz newsz); [..|exact Hgr]; try done.
    by rewrite <- EU, <- EV.
Qed.

(** What user code reads after growing: zeroes in the new pages, what was there
    in the old ones. *)
Lemma grown_ubyte fl byte s pgdir oldsz free n s' free' va :
  (forall va, 0 <= fl va < 4096) ->
  uvm_wf (mem s) pgdir oldsz free -> 0 <= va -> PGROUNDUP oldsz + n * PGSIZE <= KERNBASE ->
  grown fl byte s pgdir free (PGROUNDUP oldsz) n s' free' ->
  (va < PGROUNDUP oldsz -> ubyte (mem s') pgdir va = ubyte (mem s) pgdir va) /\
  (PGROUNDUP oldsz <= va < PGROUNDUP oldsz + n * PGSIZE -> ubyte (mem s') pgdir va = byte va).
Proof.
  intros Hfl Hwf Hva Hhi [Gs Gn Gi Go]. pose proof (uw_size _ _ _ _ Hwf) as Hos.
  destruct (PGROUNDUP_user oldsz Hos) as (U1 & U2 & U3 & U4). split; intros Hr.
  - destruct (uw_in_page _ _ _ _ va Hwf) as (_ & Hk & Ho & Hf); [lia|].
    unfold ubyte. unfold upage at 1. rewrite Go by mmlia. fold (upage (mem s) pgdir va).
    apply (ps_frame _ _ _ _ _ Gs _ Hk Ho Hf). mmlia.
  - destruct (Gn va Hr) as (q & He & Hk & _ & _ & _ & Hb).
    unfold ubyte. by erewrite upage_entry.
Qed.

(** ** Copying *)

(** Nothing but the pages free in [s0] differs between [s0] and [s]. *)
Definition untouched (s0 : kst) (free0 : list Z) (s : kst) : Prop :=
  forall q, kpage q -> q ∉ free0 -> agree (mem s0) (mem s) q PGSIZE.

Lemma untouched_step s0 free0 s d free s' free' :
  untouched s0 free0 s -> (forall q, q ∈ free -> q ∈ free0) ->
  (forall q, owned (mem s) d q -> q ∈ free0) -> pt_step s d free s' free' ->
  untouched s0 free0 s' /\ (forall q, q ∈ free' -> q ∈ free0) /\
  (forall q, owned (mem s') d q -> q ∈ free0).
Proof.
  intros Hu Hsub Hown Hst. split; [|split].
  - intros q Hq Hf. apply agree_trans with (mem s); [auto|]. apply Hst; auto.
  - intros q Hq. apply Hsub. eapply suffix_elem; [apply Hst|done].
  - intros q Hq. apply (ps_owned _ _ _ _ _ Hst) in Hq. naive_solver.
Qed.

Lemma memmove_page m p src q : kpage p -> kpage src -> kpage q -> q <> p -> src <> p ->
  agree m (memmove m p src PGSIZE) q PGSIZE /\
  forall o, 0 <= o < PGSIZE -> load8 (memmove m p src PGSIZE) (p + o) = load8 m (src + o).
Proof.
  intros Hp Hs Hq Hne Hns. pose proof (kpage_sep q p Hq Hp Hne). split.
  - intros a Ha. rewrite load8_memmove by mmlia.
    destruct (Z.leb_spec p a), (Z.ltb_spec a (p + PGSIZE)); simpl; try done. lia.
  - intros o Ho. rewrite load8_memmove by mmlia.
    rewrite (proj2 (Z.leb_le _ _)), (proj2 (Z.ltb_lt _ _)) by lia. simpl. f_equal. lia.
Qed.

(** The walk of [copyuvm] over the parent finds the entry. *)
Lemma walk_present m pgdir sz free va s : mem s = m -> uvm_wf m pgdir sz free ->
  0 <= va < sz ->
  walkpgdir pgdir va false s = Done (pte_addr m pgdir va) s /\ pte_addr m pgdir va <> 0 /\
  load32 m (pte_addr m pgdir va) = pte m pgdir va.
Proof.
  intros <- Hwf Hva. destruct (uw_in _ _ _ _ Hwf va Hva) as (Hp & _).
  pose proof (uw_size _ _ _ _ Hwf).
  rewrite walkpgdir_run. unfold pte in *.
  destruct (present (pde (mem s) pgdir (PDX va))) eqn:Hd; [|by rewrite present_0 in Hp].
  split; [done|]. split; [|done].
  destruct (wf_tab _ _ _ (uw_as _ _ _ _ Hwf) (PDX va)) as [Hk _];
    [apply PDX_range; mmlia|by rewrite Hd|].
  pose proof (kpage_range _ Hk). pose proof (PTX_range va). unfold pte_addr. mmlia.
Qed.

Lemma pte_range m pgdir va : 0 <= pte m pgdir va < 2 ^ 32.
Proof. unfold pte. destruct (present _); [apply load32_range|lia]. Qed.

(** The flags and bytes of the parent, page by page. *)
Lemma parent_page s0 free0 s pgdir sz i :
  uvm_wf (mem s0) pgdir sz free0 -> untouched s0 free0 s -> i mod PGSIZE = 0 -> 0 <= i < sz ->
  pte (mem s) pgdir i = pte (mem s0) pgdir i /\
  (forall o, 0 <= o < PGSIZE ->
     PTE_FLAGS (pte (mem s0) pgdir (i + o)) = PTE_FLAGS (pte (mem s0) pgdir i) /\
     load8 (mem s) (upage (mem s0) pgdir i + o) = ubyte (mem s0) pgdir (i + o)).
Proof.
  intros Hwf Hu Hi Hr. pose proof (uw_size _ _ _ _ Hwf) as Hs.
  destruct (uw_in _ _ _ _ Hwf i Hr) as (_ & Hk & _ & Hf). split.
  { apply pte_agree. intros q Hq.
    destruct (owned_kpage _ _ _ q (uw_as _ _ _ _ Hwf) Hq). by apply Hu. }
  intros o Ho. assert (pte (mem s0) pgdir (i + o) = pte (mem s0) pgdir i) as He
    by (apply pte_same_page; mmlia).
  rewrite He. split; [done|]. unfold ubyte. unfold upage at 2. rewrite He.
  fold (upage (mem s0) pgdir i). replace ((i + o) mod PGSIZE) with o by mmlia.
  apply (Hu _ Hk Hf). lia.
Qed.

Definition parent_flags (s0 : kst) (pgdir va : Z) : Z := PTE_FLAGS (pte (mem s0) pgdir va).

Lemma parent_flags_range s0 pgdir va : 0 <= parent_flags s0 pgdir va < 4096.
Proof.
  unfold parent_flags. rewrite PTE_FLAGS_eq by apply pte_range. apply Z.mod_pos_bound. lia.
Qed.

Lemma copyuvm_loop_ok n fuel pgdir d i sz s0 free0 s free :
  (n < fuel)%nat -> i mod PGSIZE = 0 -> 0 <= i ->
  sz <= i + Z.of_nat n * PGSIZE -> i + Z.of_nat n * PGSIZE < sz + PGSIZE \/ n = O ->
  uvm_wf (mem s0) pgdir sz free0 -> untouched s0 free0 s ->
  (forall q, q ∈ free -> q ∈ free0) -> (forall q, owned (mem s) d q -> q ∈ free0) ->
  kinv s free -> as_wf (mem s) d free -> (2 * n <= length free)%nat ->
  (forall va, i <= va < i + Z.of_nat n * PGSIZE -> present (pte (mem s) d va) = false) ->
  returns (copyuvm_loop fuel pgdir d i sz) s (fun r s' => r = d /\ exists free',
    grown (parent_flags s0 pgdir) (ubyte (mem s0) pgdir) s d free i (Z.of_nat n) s' free').
Proof.
  revert fuel i s free. induction n as [|n IH];
    intros fuel i s free Hf Hi Hi0 Hhi Hlo Hwf Hu Hsub Hown Hk Hwd Hlen Hnp;
    (destruct fuel as [|fuel]; [lia|]); cbn [copyuvm_loop].
  { rewrite (proj2 (Z.ltb_ge i sz)) by lia. steps. split; [done|]. exists free.
    by apply grown_0. }
  assert (0 <= i < sz) as Hr by mmlia. pose proof (uw_size _ _ _ _ Hwf) as Hs.
  rewrite (proj2 (Z.ltb_lt i sz)) by lia.
  destruct (parent_page s0 free0 s pgdir sz i Hwf Hu Hi Hr) as (He & Hpage).
  destruct (uw_in _ _ _ _ Hwf i Hr) as (Hp & Hkp & _ & Hfr).
  destruct (walk_present (mem s) pgdir sz free i s) as (Hw & Hnz & Hld); [done| |done|].
  { by eapply uvm_wf_frame. }
  apply wp_bind. eapply returns_run; [exact Hw|].
  rewrite (proj2 (Z.eqb_neq _ 0)) by done. ksteps. rewrite Hld, He.
  unfold present in Hp. apply negb_true_iff in Hp. rewrite Hp.
  destruct free as [|p [|p2 l]]; [simpl in Hlen; lia..|].
  apply wp_bind. eapply returns_run; [apply (kalloc_run s _ Hk)|].
  pose proof (kinv_pages _ _ Hk) as Hpg. apply Forall_cons in Hpg as [Hpp _].
  pose proof (kpage_range p Hpp). rewrite (proj2 (Z.eqb_neq p 0)) by lia.
  assert (upage (mem s0) pgdir i <> p) as Hne
    by (intros <-; apply Hfr, Hsub, elem_of_cons; by left).
  fold (upage (mem s0) pgdir i). fold (parent_flags s0 pgdir i).
  apply (alloc_map_page s d p (p2 :: l) i _
           (fun m => memmove m p (upage (mem s0) pgdir i) PGSIZE) (ubyte (mem s0) pgdir));
    try done.
  - mmlia.
  - apply parent_flags_range.
  - intros va Hva. apply Hnp. mmlia.
  - intros q Hq Hqp. by apply memmove_page.
  - destruct Hpp as (_ & Hpe & _). by apply low_memmove.
  - intros o Ho. rewrite <- (proj2 (Hpage o Ho)).
    by apply (memmove_page (mem s) p (upage (mem s0) pgdir i) (upage (mem s0) pgdir i)).
  - intros s1 free1 Hst Hlen1 _ Hpf Hpo Hb Hv. cbn [Z.ltb Z.compare].
    rewrite u32_small by mmlia.
    destruct (untouched_step _ _ _ _ _ _ _ Hu Hsub Hown Hst) as (Hu1 & Hsub1 & Hown1).
    pose proof (ps_inv _ _ _ _ _ Hst) as Hk1. pose proof (ps_wf _ _ _ _ _ Hst) as Hwf1.
    eapply wp_mono; [apply (IH fuel (i + PGSIZE) s1 free1); try done; try mmlia| |done].
    + simpl in *. lia.
    + intros va Hva. rewrite Hv by mmlia. rewrite (proj2 (Z.eqb_neq _ _)) by mmlia.
      apply Hnp. mmlia.
    + intros r s' (-> & free' & Hgr). split; [done|]. exists free'.
      replace (Z.of_nat (S n)) with (Z.of_nat n + 1) by lia.
      eapply (grown_cons _ _ s s1 s' d _ free1 free' i _ p); try done; try mmlia.
      * intros. apply parent_flags_range.
      * by apply elem_of_cons; left.
      * intros va Hva. unfold parent_flags. replace va with (i + (va - i)) by lia.
        apply Hpage. lia.
Qed.

Lemma present_flags e : 0 <= e < 2 ^ 32 -> present e = true ->
  Z.lor (PTE_FLAGS e) PTE_P = PTE_FLAGS e.
Proof.
  intros He Hp. rewrite present_bit0 in Hp. rewrite PTE_FLAGS_eq by done.
  change 4096 with (2 ^ 12). rewrite <- Z.land_ones by lia. apply Z.bits_inj'. intros k Hk.
  rewrite Z.lor_spec, Z.land_spec. unfold PTE_P. change 0x001 with (2 ^ 0).
  rewrite Z.pow2_bits_eqb by lia. destruct (Z.eqb_spec 0 k) as [<-|]; [|apply orb_false_r].
  by rewrite Hp.
Qed.

(** A fresh kernel page table is an address space of size 0. *)
Lemma kernel_uvm_wf m d free : as_wf m d free ->
  (forall va, 0 <= va < 2 ^ 32 -> pte m d va = kernel_view va) -> uvm_wf m d 0 free.
Proof.
  intros Hwf Hv. split; [done|mmlia|..]; intros va; try lia.
  - intros. apply Hv. mmlia.
  - change (PGROUNDUP 0) with 0. intros Hva. rewrite Hv by mmlia. unfold kernel_view.
    rewrite (proj2 (Z.leb_gt KERNBASE va)), (proj2 (Z.leb_gt DEVSPACE va)) by mmlia.
    apply present_0.
Qed.

(** What the child of [copyuvm] is, in the state it leaves: the parent's bytes
    and flags, in pages that are not the parent's. *)
Record copied (s : kst) (pgdir sz d : Z) (s' : kst) : Prop := {
  cp_byte va : 0 <= va < sz -> ubyte (mem s') d va = ubyte (mem s) pgdir va;
  cp_flags va : 0 <= va < sz ->
    PTE_FLAGS (pte (mem s') d va) = PTE_FLAGS (pte (mem s) pgdir va);
  cp_parent va : 0 <= va < sz -> ubyte (mem s') pgdir va = ubyte (mem s) pgdir va;
  cp_disj va va' : 0 <= va < sz -> 0 <= va' < sz ->
    upage (mem s') d va <> upage (mem s') pgdir va' }.

Lemma grown_copied s s1 s' pgdir sz d free free1 n free' :
  kinv s free -> uvm_wf (mem s) pgdir sz free -> uvm_wf (mem s1) d 0 free1 ->
  sz <= n * PGSIZE <= KERNBASE ->
  (forall q, q ∈ free1 -> q ∈ free) -> untouched s free s' ->
  grown (parent_flags s pgdir) (ubyte (mem s) pgdir) s1 d free1 0 n s' free' ->
  copied s pgdir sz d s'.
Proof.
  intros Hk Hwf Hd Hn Hsub Hu Hgr. pose proof Hgr as [Gs Gn Gi Go].
  pose proof (uw_size _ _ _ _ Hwf).
  split; intros va.
  - intros Hva. change 0 with (PGROUNDUP 0) in Hgr.
    eapply (grown_ubyte _ _ _ _ 0 _ _ _ _ va) in Hgr; [|intros; apply parent_flags_range|done|lia|].
    + apply Hgr. change (PGROUNDUP 0) with 0. lia.
    + change (PGROUNDUP 0) with 0. lia.
  - intros Hva. destruct (Gn va) as (q & He & Hq & _); [lia|].
    rewrite He, entry_flags by (done || apply parent_flags_range). unfold parent_flags.
    apply present_flags; [apply pte_range|]. by apply (uw_in _ _ _ _ Hwf).
  - intros Hva. by eapply ubyte_frame.
  - intros va' Hva Hva'. destruct (Gn va) as (q & He & Hq & Hf & _); [lia|].
    rewrite (upage_entry _ _ _ q (parent_flags s pgdir va)) by (done || apply parent_flags_range).
    destruct (uw_in _ _ _ _ Hwf va' Hva') as (_ & _ & _ & Hnf). unfold upage.
    rewrite (pte_agree (mem s) (mem s'))
      by (intros q' Hq'; destruct (owned_kpage _ _ _ _ (uw_as _ _ _ _ Hwf) Hq'); by apply Hu).
    fold (upage (mem s) pgdir va'). intros ->. auto.
Qed.

Lemma copyuvm_run pgdir sz s free :
  kinv s free -> uvm_wf (mem s) pgdir sz free ->
  KVM_PAGES + 2 * Z.of_nat (new_pages 0 sz) <= Z.of_nat (length free) ->
  returns (copyuvm pgdir sz) s (fun d s' => exists free',
    d ∈ free /\ kinv s' free' /\ uvm_wf (mem s') d sz free' /\
    uvm_wf (mem s') pgdir sz free' /\ copied s pgdir sz d s' /\
    untouched s free s' /\ rest s' = rest s /\ (forall q, q ∈ free' -> q ∈ free) /\
    (forall q, owned (mem s') d q -> q ∈ free) /\
    (forall va, 0 <= va < sz -> upage (mem s') d va ∈ free)).
Proof.
  intros Hk Hwf Hlen. pose proof (uw_size _ _ _ _ Hwf) as Hs.
  pose proof (new_pages_eq 0 sz ltac:(lia) ltac:(lia)) as Hnp.
  destruct (PGROUNDUP_user sz Hs) as (V1 & V2 & V3 & V4).
  change (PGROUNDUP 0) with 0 in Hnp. set (n := new_pages 0 sz) in *.
  destruct free as [|d l]; [unfold KVM_PAGES in Hlen; simpl in Hlen; lia|].
  pose proof (kinv_pages _ _ Hk) as Hpg. apply Forall_cons in Hpg as [Hd _].
  unfold copyuvm. apply wp_bind.
  eapply wp_mono; [apply (setupkvm_ok s d l Hk); unfold KVM_PAGES in *; lia| |done].
  intros r s1 (-> & free1 & Hk1 & Hwf1 & Hsub & Hl1 & Hv1 & Ho1 & Hf1 & Hr1).
  pose proof (kpage_range d Hd). rewrite (proj2 (Z.eqb_neq d 0)) by lia.
  pose proof (kernel_uvm_wf _ _ _ Hwf1 Hv1) as Hd0.
  assert (forall q, q ∈ free1 -> q ∈ d :: l) as Hsub1
    by (intros q Hq; apply elem_of_cons; right; by eapply suffix_elem).
  remember (PGROUNDUP sz) as V eqn:EV.
  eapply wp_mono; [apply (copyuvm_loop_ok n _ pgdir d 0 sz s (d :: l) s1 free1); try done|..|done].
  - unfold PGSIZE in *. zlia.
  - lia.
  - unfold PGSIZE in *. lia.
  - lia.
  - intros va Hva. rewrite Hv1 by mmlia. unfold kernel_view.
    rewrite (proj2 (Z.leb_gt KERNBASE va)), (proj2 (Z.leb_gt DEVSPACE va)) by mmlia.
    apply present_0.
  - intros r s' (-> & free' & Hgr).
    destruct (untouched_step s (d :: l) s1 d free1 s' free') as (Hu & Hsub' & Hown);
      [done..|apply Hgr|].
    exists free'. split; [apply elem_of_cons; by left|]. split; [apply Hgr|]. split; [|split; [|split]].
    + change 0 with (PGROUNDUP 0) in Hgr.
      eapply (grown_uvm_wf _ _ s1 d 0 sz); [intros; apply parent_flags_range|done|lia| |exact Hgr].
      change (PGROUNDUP 0) with 0. lia.
    + by eapply uvm_wf_frame.
    + eapply (grown_copied s s1 s' pgdir sz d (d :: l) free1); [..|exact Hgr]; done || lia.
    + split; [done|]. split; [|split; [done|split; [done|]]].
      { rewrite (ps_rest _ _ _ _ _ (gr_step _ _ _ _ _ _ _ _ _ Hgr)). exact Hr1. }
      intros va Hva. destruct (gr_new _ _ _ _ _ _ _ _ _ Hgr va) as (q & He & Hq & Hf & _); [unfold PGSIZE in *; lia|].
      rewrite (upage_entry _ _ _ q (parent_flags s pgdir va)) by (done || apply parent_flags_range). by apply Hsub1.
Qed.
End uvm.
