(* ===== verification/UvmFree.v ===== *)
(** * Giving user memory back: deallocuvm and freevm

    [deallocuvm_run] and [freevm_run]: the pages go back to the allocator, all of
    them, and the rest of the address space is as it was. *)

From S2P Require Import Prelude Mmu Memory Kstate Kalloc PageTable Uvm.

Section uvm_free.
Context `{Layout}.

(** ** Shrinking

    [space D]: the user pages that are mapped are those whose number is in [D].
    [uvm_wf] is the case of the pages below the size. *)

Record space (m : gmap Z Z) (pgdir : Z) (D : Z -> Prop) (free : list Z) : Prop := {
  sp_as : as_wf m pgdir free;
  sp_kern va : KERNBASE <= va < 2 ^ 32 -> pte m pgdir va = kernel_view va;
  sp_in va : 0 <= va < KERNBASE -> D (va / PGSIZE) -> present (pte m pgdir va) = true /\
    kpage (upage m pgdir va) /\ ~ owned m pgdir (upage m pgdir va) /\
    upage m pgdir va ∉ free;
  sp_out va : 0 <= va < KERNBASE -> ~ D (va / PGSIZE) -> present (pte m pgdir va) = false;
  sp_inj va va' : 0 <= va < KERNBASE -> 0 <= va' < KERNBASE ->
    D (va / PGSIZE) -> D (va' / PGSIZE) ->
    upage m pgdir va = upage m pgdir va' -> va / PGSIZE = va' / PGSIZE }.

Definition below (sz p : Z) : Prop := p * PGSIZE < sz.

Lemma uvm_wf_space m pgdir sz free : uvm_wf m pgdir sz free -> space m pgdir (below sz) free.
Proof.
  intros Hwf. pose proof (uw_size _ _ _ _ Hwf) as Hs. pose proof (uw_inj _ _ _ _ Hwf) as Hj.
  destruct (PGROUNDUP_user sz Hs) as (U1 & U2 & U3 & U4). unfold below.
  assert (forall va, 0 <= va < KERNBASE -> va / PGSIZE * PGSIZE < sz -> va < PGROUNDUP sz)
    as Hlt by (intros; unfold PGSIZE in *; zlia).
  split; [apply Hwf|apply Hwf|..].
  - intros va Hva Hb. apply (uw_in_page _ _ _ _ va Hwf). split; [lia|auto].
  - intros va Hva Hb. apply (uw_out _ _ _ _ Hwf). unfold PGSIZE in *. zlia.
  - intros va va' Hva Hva' Hb Hb' He.
    pose proof (Hj (va - va mod PGSIZE) (va' - va' mod PGSIZE)) as Hx. unfold upage in *.
    rewrite (pte_same_page _ _ (va - va mod PGSIZE) va),
      (pte_same_page _ _ (va' - va' mod PGSIZE) va') in Hx by mmlia.
    assert ((va - va mod PGSIZE) / PGSIZE = (va' - va' mod PGSIZE) / PGSIZE)
      by (apply Hx; mmlia). mmlia.
Qed.

Lemma space_uvm_wf m pgdir sz D free : 0 <= sz < KERNBASE ->
  (forall p, 0 <= p < KERNBASE / PGSIZE -> (D p <-> p * PGSIZE < sz)) ->
  space m pgdir D free -> uvm_wf m pgdir sz free.
Proof.
  intros Hs HD [Ha Hk Hi Ho Hj]. destruct (PGROUNDUP_user sz Hs) as (U1 & U2 & U3 & U4).
  split; [done|done|done|..].
  - intros va Hva. apply Hi; [lia|]. apply HD; mmlia.
  - intros va Hva. apply Ho; [lia|]. rewrite HD by mmlia. mmlia.
  - intros va va' Hva Hva'. apply Hj; [lia|lia|apply HD; mmlia|apply HD; mmlia].
Qed.

(** Pages number [lo] to [hi] were unmapped and freed. *)
Record shrunk (s : kst) (pgdir lo hi : Z) (free : list Z) (s' : kst) (free' : list Z)
  : Prop := {
  sh_inv : kinv s' free';
  sh_wf : as_wf (mem s') pgdir free';
  sh_pte va : 0 <= va < 2 ^ 32 -> pte (mem s') pgdir va =
    if (lo <=? va / PGSIZE) && (va / PGSIZE <? hi) then 0 else pte (mem s) pgdir va;
  sh_free q : q ∈ free' <->
    q ∈ free \/ exists p, lo <= p < hi /\ q = upage (mem s) pgdir (p * PGSIZE);
  sh_frame q : kpage q -> ~ owned (mem s) pgdir q -> q ∉ free' ->
    agree (mem s) (mem s') q PGSIZE;
  sh_owned q : owned (mem s') pgdir q <-> owned (mem s) pgdir q;
  sh_rest : rest s' = rest s }.

Lemma shrunk_refl s pgdir lo hi free : hi <= lo -> kinv s free -> as_wf (mem s) pgdir free ->
  shrunk s pgdir lo hi free s free.
Proof.
  intros Hh Hk Hwf. split; try done.
  - intros va _. destruct (Z.leb_spec lo (va / PGSIZE)); simpl; [|done].
    by rewrite (proj2 (Z.ltb_ge _ _)) by lia.
  - intros q. split; [by left|]. intros [|(p & ? & _)]; [done|lia].
Qed.

Lemma shrunk_cons s s1 s' pgdir lo hi free free1 free' :
  0 <= lo < hi -> hi * PGSIZE <= KERNBASE ->
  shrunk s pgdir lo (lo + 1) free s1 free1 -> shrunk s1 pgdir (lo + 1) hi free1 s' free' ->
  shrunk s pgdir lo hi free s' free'.
Proof.
  intros Hlo Hhi [I1 W1 P1 F1 A1 O1 R1] [I2 W2 P2 F2 A2 O2 R2].
  split; [done|done| | | | |congruence].
  - intros va Hva. rewrite P2, P1 by done.
    destruct (Z.leb_spec lo (va / PGSIZE)), (Z.leb_spec (lo + 1) (va / PGSIZE)),
      (Z.ltb_spec (va / PGSIZE) (lo + 1)), (Z.ltb_spec (va / PGSIZE) hi); simpl; done || lia.
  - intros q. rewrite F2, F1. split.
    + intros [[Hq|(p & Hp & ->)]|(p & Hp & ->)]; [by left|right; exists p; split; [lia|done]|].
      right. exists p. split; [lia|]. unfold upage. rewrite P1 by (unfold PGSIZE in *; mmlia).
      rewrite Z.div_mul by (unfold PGSIZE; lia). rewrite (proj2 (Z.ltb_ge _ _)) by lia.
      by rewrite andb_false_r.
    + intros [Hq|(p & Hp & ->)]; [auto|]. destruct (decide (p = lo)) as [->|].
      * left. right. exists lo. split; [lia|done].
      * right. exists p. split; [lia|]. unfold upage. rewrite P1 by (unfold PGSIZE in *; mmlia).
        rewrite Z.div_mul by (unfold PGSIZE; lia). rewrite (proj2 (Z.ltb_ge _ _)) by lia.
        by rewrite andb_false_r.
  - intros q Hq Ho Hf. apply agree_trans with (mem s1).
    + apply A1; [done|done|]. intros Hx. apply Hf, F2. by left.
    + apply A2; [done| |done]. by rewrite O1.
  - intros q. by rewrite O2.
Qed.

(** ** deallocuvm *)

Lemma space_page m pgdir D free a : space m pgdir D free -> 0 <= a < KERNBASE ->
  D (a / PGSIZE) ->
  present (pde m pgdir (PDX a)) = true /\ pte_addr m pgdir a <> 0 /\
  load32 m (pte_addr m pgdir a) = pte m pgdir a.
Proof.
  intros Hsp Ha HD. destruct (sp_in _ _ _ _ Hsp a Ha HD) as (Hp & _). unfold pte in *.
  destruct (present (pde m pgdir (PDX a))) eqn:Hd; [|by rewrite present_0 in Hp].
  split; [done|]. split; [|done].
  destruct (wf_tab _ _ _ (sp_as _ _ _ _ Hsp) (PDX a)) as [Hk _];
    [apply PDX_range; mmlia|by rewrite Hd|].
  pose proof (kpage_range _ Hk). pose proof (PTX_range a). unfold pte_addr. mmlia.
Qed.

(** Freeing the page at [a]: [kfree] of the page, then the entry cleared. *)
Lemma free_page_shrunk s pgdir D free a :
  space (mem s) pgdir D free -> kinv s free -> 0 <= a < KERNBASE -> D (a / PGSIZE) ->
  let q := upage (mem s) pgdir a in
  let m1 := store32 (memset (mem s) q 1 PGSIZE) q (freelist s) in
  shrunk s pgdir (a / PGSIZE) (a / PGSIZE + 1) free
    (set_mem (store32 m1 (pte_addr (mem s) pgdir a) 0) (set_freelist q (set_mem m1 s)))
    (q :: free).
Proof.
  intros Hsp Hk Ha HD q m1. destruct (sp_in _ _ _ _ Hsp a Ha HD) as (Hp & Hq & Hno & Hnf).
  destruct (space_page _ _ _ _ _ Hsp Ha HD) as (Hpd & _). fold q in Hq, Hno, Hnf.
  pose proof (sp_as _ _ _ _ Hsp) as Hwf.
  assert (forall o, owned (mem s) pgdir o -> agree (mem s) m1 o PGSIZE) as Hag.
  { intros o Ho. destruct (owned_kpage _ _ _ _ Hwf Ho). apply kfree_mem_agree; [done..|].
    by intros ->. }
  assert (agree (mem s) m1 pgdir PGSIZE) as Hd by (apply Hag; by left).
  assert (forall va, 0 <= va < 2 ^ 32 -> pte m1 pgdir va = pte (mem s) pgdir va) as Hpe
    by (intros; by apply pte_agree).
  assert (pte_addr m1 pgdir a = pte_addr (mem s) pgdir a) as Hpa.
  { unfold pte_addr. by rewrite (pgtab_agree (mem s) m1) by (done || apply PDX_range; mmlia). }
  assert (as_wf m1 pgdir (q :: free)) as Hwf1.
  { destruct (as_wf_agree _ _ _ _ Hd Hwf) as [W1 W2 W3 W4]. split; [done| |..|done].
    - apply not_elem_of_cons. split; [|done]. intros <-. apply Hno. by left.
    - intros i Hi Hpi. destruct (W3 i Hi Hpi) as (? & ? & ?). split; [done|]. split; [done|].
      apply not_elem_of_cons. split; [|done]. intros Hx. apply Hno.
      apply (owned_agree (mem s) m1); [done|]. right. exists i. by rewrite Hx. }
  assert (present (pde m1 pgdir (PDX a)) = true) as Hpd1
    by (by rewrite (pde_agree (mem s) m1) by (done || apply PDX_range; mmlia)).
  assert (kinv (set_freelist q (set_mem m1 s)) (q :: free)) as Hk1 by (by apply kinv_kfree).
  destruct (store_pte_step _ pgdir _ a 0 Hk1 Hwf1) as [I W _ F _ R];
    [simpl; by rewrite Hpd1|mmlia|].
  destruct (store_pte m1 pgdir _ a 0 Hwf1) as (_ & How & _ & Hv); [by rewrite Hpd1|mmlia|].
  simpl in I, W, F, R. rewrite Hpa in I, W, F, R, How, Hv.
  split; simpl; [done|done| | | | |done].
  - intros va Hva. rewrite Hv, Hpe by done.
    destruct (Z.eqb_spec (va / PGSIZE) (a / PGSIZE)),
      (Z.leb_spec (a / PGSIZE) (va / PGSIZE)), (Z.ltb_spec (va / PGSIZE) (a / PGSIZE + 1));
      simpl; done || lia.
  - intros q'. rewrite elem_of_cons.
    assert (upage (mem s) pgdir (a / PGSIZE * PGSIZE) = q) as Hqq.
    { unfold q, upage. by rewrite (pte_same_page _ _ (a / PGSIZE * PGSIZE) a) by mmlia. }
    split.
    + intros [->|?]; [right|by left]. exists (a / PGSIZE). split; [lia|done].
    + intros [?|(p & Hpr & ->)]; [by right|left]. by replace p with (a / PGSIZE) by lia.
  - intros o Hko Hoo Hf. apply not_elem_of_cons in Hf as [Hf1 Hf2].
    apply agree_trans with m1.
    + apply kfree_mem_agree; [done..|by intros <-].
    + apply F; [done| |by apply not_elem_of_cons].
      by rewrite <- (owned_agree (mem s) m1).
  - intros o. rewrite How. by rewrite <- (owned_agree (mem s) m1).
Qed.

(** A page with one owner: no address space but this one maps it. *)
Definition unshared (s : kst) (pgdir va : Z) : Prop :=
  refcount s (PTE_ADDR (pte (mem s) pgdir va) / PGSIZE) < 2.

Lemma PTE_ADDR_upage m pgdir va : kpage (upage m pgdir va) -> PTE_ADDR (pte m pgdir va) <> 0.
Proof. intros Hk He. apply kpage_range in Hk. unfold upage in Hk. rewrite He in Hk. change (p2v 0) with KERNBASE in Hk. lia. Qed.

Lemma dealloc_pte_run s pgdir p va :
  kpage (upage (mem s) pgdir va) -> unlocked s -> L_pte_lookup ∉ held s ->
  unshared s pgdir va ->
  let q := upage (mem s) pgdir va in
  let m1 := store32 (memset (mem s) q 1 PGSIZE) q (freelist s) in
  dealloc_pte p (pte (mem s) pgdir va) s =
    Done tt (set_mem (store32 m1 p 0) (set_freelist q (set_mem m1 s))).
Proof.
  intros Hq Hlk Hl Hu q m1. apply returns_eq. unfold dealloc_pte.
  apply wp_bind, wp_acquire; [done|]. ksteps.
  change (refcount (set_held _ s) ?i) with (refcount s i). unfold unshared in Hu.
  rewrite (proj2 (Z.ltb_lt _ 2) Hu), (proj2 (Z.eqb_neq _ 0) (PTE_ADDR_upage _ _ _ Hq)).
  ksteps. fold (upage (mem s) pgdir va). fold q.
  eapply returns_run.
  { apply kfree_run; [done|]. unfold unlocked in *. simpl. intros Hx.
    apply not_elem_of_cons. split; [done|auto]. }
  ksteps. apply wp_release; simpl; [apply elem_of_cons; by left|].
  rewrite release_top by done. by destruct s.
Qed.

Lemma walk_space s pgdir D free a : space (mem s) pgdir D free -> 0 <= a < KERNBASE ->
  exists p, walkpgdir pgdir a false s = Done p s /\
    (D (a / PGSIZE) -> p = pte_addr (mem s) pgdir a /\ p <> 0) /\
    (~ D (a / PGSIZE) -> p <> 0 -> Z.land (load32 (mem s) p) PTE_P = 0).
Proof.
  intros Hsp Ha. rewrite walkpgdir_run. eexists. split; [done|]. split.
  - intros HD. destruct (space_page _ _ _ _ _ Hsp Ha HD) as (-> & Hnz & _). done.
  - intros HD Hnz. pose proof (sp_out _ _ _ _ Hsp a Ha HD) as Hp. unfold pte in Hp.
    destruct (present (pde (mem s) pgdir (PDX a))); [|done].
    unfold present in Hp. apply negb_false_iff, Z.eqb_eq in Hp. done.
Qed.

Lemma shrunk_space s pgdir D lo hi free s' free' :
  0 <= lo -> hi * PGSIZE <= KERNBASE -> (forall p, lo <= p < hi -> D p) ->
  space (mem s) pgdir D free -> shrunk s pgdir lo hi free s' free' ->
  space (mem s') pgdir (fun p => D p /\ ~ lo <= p < hi) free'.
Proof.
  intros Hlo Hhi HF Hsp Hsh. pose proof Hsh as [I W P F A O R].
  assert (forall va, 0 <= va < KERNBASE -> ~ lo <= va / PGSIZE < hi ->
    pte (mem s') pgdir va = pte (mem s) pgdir va) as Hout.
  { intros va Hva Hn. rewrite P by mmlia.
    destruct (Z.leb_spec lo (va / PGSIZE)), (Z.ltb_spec (va / PGSIZE) hi); simpl; done || lia. }
  split; [done|..].
  - intros va Hva. rewrite P by mmlia. rewrite (proj2 (Z.ltb_ge _ hi)) by mmlia.
    rewrite andb_false_r. by apply (sp_kern _ _ _ _ Hsp).
  - intros va Hva [HD Hn]. unfold upage. rewrite Hout, O by done.
    destruct (sp_in _ _ _ _ Hsp va Hva HD) as (? & ? & ? & ?). split; [done|].
    split; [done|]. split; [done|]. rewrite F. intros [?|(p & Hp & He)]; [done|].
    apply Hn. rewrite (sp_inj _ _ _ _ Hsp va (p * PGSIZE)); [|done|mmlia|done| |done];
      rewrite Z.div_mul by mmlia; auto.
  - intros va Hva Hn. rewrite P by mmlia.
    destruct (Z.leb_spec lo (va / PGSIZE)), (Z.ltb_spec (va / PGSIZE) hi); simpl;
      try apply present_0; apply (sp_out _ _ _ _ Hsp); try done; intros ?; apply Hn;
      (split; [done|lia]).
  - intros va va' Hva Hva' [HD Hn] [HD' Hn']. unfold upage. rewrite !Hout by done.
    by apply (sp_inj _ _ _ _ Hsp).
Qed.

Lemma unshared_shrunk s pgdir lo hi free s' free' va :
  shrunk s pgdir lo hi free s' free' -> 0 <= va < 2 ^ 32 -> hi <= va / PGSIZE ->
  unshared s pgdir va -> unshared s' pgdir va.
Proof.
  intros [_ _ P _ _ _ R] Hva Hp. unfold unshared, refcount. rewrite P by done.
  rewrite (proj2 (Z.ltb_ge _ hi)), andb_false_r by lia. unfold rest in R. simplify_eq. congruence.
Qed.

Lemma shrunk_none s pgdir a a' hi free s' free' : hi <= a -> hi <= a' ->
  shrunk s pgdir a' hi free s' free' -> shrunk s pgdir a hi free s' free'.
Proof.
  intros Ha Ha' [I W P F A O R]. split; [done|done| | |done|done|done].
  - intros va Hva. rewrite P by done.
    destruct (Z.leb_spec a' (va / PGSIZE)), (Z.leb_spec a (va / PGSIZE)),
      (Z.ltb_spec (va / PGSIZE) hi); simpl; done || lia.
  - intros q. rewrite F. split; (intros [?|(p' & ? & _)]; [by left|lia]).
Qed.

(** The loop of [deallocuvm], from page number [a] on: the pages mapped there are
    [a] to [hi].  A table that is missing means nothing is mapped from there on. *)
Lemma deallocuvm_loop_ok fuel s pgdir D free a hi oldsz :
  space (mem s) pgdir D free -> kinv s free -> L_pte_lookup ∉ held s -> 0 <= a ->
  (forall p, a <= p -> p * PGSIZE < KERNBASE -> (D p <-> p < hi)) ->
  hi * PGSIZE < oldsz + PGSIZE -> 0 <= oldsz <= KERNBASE -> a * PGSIZE <= KERNBASE + 2 ^ 22 ->
  Z.max 0 (oldsz / PGSIZE + 1 - a) < Z.of_nat fuel ->
  (forall va, a * PGSIZE <= va < hi * PGSIZE -> unshared s pgdir va) ->
  returns (deallocuvm_loop fuel pgdir (a * PGSIZE) oldsz) s (fun _ s' =>
    exists free', shrunk s pgdir a hi free s' free').
Proof.
  revert s D free a. induction fuel as [|f IH];
    intros s D free a Hsp Hk Hl Ha HD Hhi Hold Ha2 Hf Hun; [mmlia|]. cbn [deallocuvm_loop].
  destruct (Z.ltb_spec (a * PGSIZE) oldsz) as [Hlt|Hge].
  2: { steps. exists free. apply shrunk_refl; [mmlia|done|apply Hsp]. }
  assert (a * PGSIZE / PGSIZE = a) as Hdiv by (apply Z.div_mul; mmlia).
  destruct (walk_space s pgdir D free (a * PGSIZE) Hsp) as (p & Hw & Hin & Hout); [mmlia|].
  rewrite Hdiv in Hin, Hout. apply wp_bind. eapply returns_run; [exact Hw|].
  destruct (decide (a < hi)) as [Hah|Hah].
  - assert (D a) as HDa by (apply HD; mmlia).
    destruct (Hin HDa) as [-> Hnz]. rewrite (proj2 (Z.eqb_neq _ 0) Hnz).
    destruct (space_page _ _ _ _ (a * PGSIZE) Hsp) as (_ & _ & Hld); [mmlia|by rewrite Hdiv|].
    destruct (sp_in _ _ _ _ Hsp (a * PGSIZE)) as (Hp & Hq & _); [mmlia|by rewrite Hdiv|].
    ksteps. rewrite Hld. unfold present in Hp. rewrite Hp. unfold u32 at 1.
    pose proof (free_page_shrunk s pgdir D free (a * PGSIZE) Hsp Hk) as Hsh.
    rewrite Hdiv in Hsh. specialize (Hsh ltac:(mmlia) HDa).
    eapply returns_run; [apply (dealloc_pte_run s pgdir _ (a * PGSIZE)); try done|].
    { apply Hk. } { apply Hun. mmlia. }
    cbv zeta in Hsh. set (s1 := set_mem _ (set_freelist _ _)) in *.
    replace ((a * PGSIZE + PGSIZE) mod 2 ^ 32) with ((a + 1) * PGSIZE) by mmlia.
    eapply wp_mono; [apply (IH s1 (fun p => D p /\ ~ a <= p < a + 1)
                              (upage (mem s) pgdir (a * PGSIZE) :: free) (a + 1))|..|done].
    + eapply (shrunk_space s pgdir D); [done|mmlia| |done|done].
      intros p Hpr. by replace p with a by lia.
    + apply Hsh. + done. + lia.
    + intros p Hp1 Hp2. rewrite HD by lia. lia.
    + done. + done. + mmlia. + mmlia.
    + intros va Hva. eapply unshared_shrunk; [exact Hsh|mmlia|mmlia|]. apply Hun. mmlia.
    + intros _ s' (free' & Hsh'). exists free'.
      eapply shrunk_cons; [lia|mmlia|exact Hsh|exact Hsh'].
  - assert (forall a', a <= a' -> a' * PGSIZE <= KERNBASE + 2 ^ 22 ->
      Z.max 0 (oldsz / PGSIZE + 1 - a') < Z.of_nat f ->
      returns (deallocuvm_loop f pgdir (a' * PGSIZE) oldsz) s (fun _ s' =>
        exists free', shrunk s pgdir a hi free s' free')) as Hrest.
    { intros a' Ha' Ha2' Hf'.
      eapply returns_mono; [apply (IH s D free a'); try done; try lia|].
      - intros p' Hp1 Hp2. apply HD; lia.
      - intros va Hva. apply Hun. unfold PGSIZE in *. lia.
      - intros _ s' (free' & Hsh). exists free'. eapply shrunk_none; [..|exact Hsh]; lia. }
    destruct (Z.eqb_spec p 0) as [->|Hnz].
    + replace (u32 (u32 (a * PGSIZE + (NPTENTRIES - 1) * PGSIZE) + PGSIZE))
        with ((a + NPTENTRIES) * PGSIZE) by (unfold u32; mmlia).
      apply Hrest; mmlia.
    + ksteps. rewrite Hout by (done || rewrite HD by mmlia; lia). simpl. ksteps.
      replace (u32 (a * PGSIZE + PGSIZE)) with ((a + 1) * PGSIZE) by (unfold u32; mmlia).
      apply Hrest; mmlia.
Qed.

Definition pages (sz : Z) : Z := PGROUNDUP sz / PGSIZE.

Lemma pages_eq sz : 0 <= sz < KERNBASE ->
  PGROUNDUP sz = pages sz * PGSIZE /\ 0 <= pages sz /\ pages sz * PGSIZE <= KERNBASE /\
  sz <= pages sz * PGSIZE < sz + PGSIZE.
Proof. intros Hs. destruct (PGROUNDUP_user sz Hs) as (U1 & U2 & U3 & U4). unfold pages. mmlia. Qed.

Lemma deallocuvm_run pgdir sz oldsz newsz s free :
  kinv s free -> L_pte_lookup ∉ held s -> uvm_wf (mem s) pgdir sz free ->
  sz <= oldsz <= KERNBASE -> 0 <= newsz < oldsz -> newsz < KERNBASE ->
  (forall va, newsz <= va < pages sz * PGSIZE -> unshared s pgdir va) ->
  returns (deallocuvm pgdir oldsz newsz) s (fun r s' => r = newsz /\ exists free',
    shrunk s pgdir (pages newsz) (pages sz) free s' free').
Proof.
  intros Hk Hl Hwf Hold Hnew Hnk Hun. pose proof (uw_size _ _ _ _ Hwf) as Hs.
  destruct (pages_eq sz Hs) as (_ & S1 & S2 & S3).
  destruct (pages_eq newsz ltac:(lia)) as (N0 & N1 & N2 & N3).
  unfold deallocuvm. rewrite (proj2 (Z.leb_gt _ _)) by lia. rewrite N0. apply wp_bind.
  eapply wp_mono; [apply (deallocuvm_loop_ok _ s pgdir (below sz) free (pages newsz) (pages sz));
                   try done|..|done].
  - by apply uvm_wf_space.
  - intros p Hp1 Hp2. unfold below. unfold PGSIZE in *. lia.
  - unfold PGSIZE in *. lia.
  - lia.
  - mmlia.
  - unfold PGSIZE in *. zlia.
  - intros va Hva. apply Hun. lia.
  - intros _ s' (free' & Hsh). ksteps. split; [done|]. by exists free'.
Qed.

Lemma shrunk_uvm_wf pgdir sz newsz s free s' free' :
  uvm_wf (mem s) pgdir sz free -> 0 <= newsz <= sz ->
  shrunk s pgdir (pages newsz) (pages sz) free s' free' -> uvm_wf (mem s') pgdir newsz free'.
Proof.
  intros Hwf Hn Hsh. pose proof (uw_size _ _ _ _ Hwf) as Hs.
  destruct (pages_eq sz Hs) as (_ & S1 & S2 & S3).
  destruct (pages_eq newsz ltac:(lia)) as (_ & N1 & N2 & N3).
  eapply (space_uvm_wf _ _ _ (fun p => below sz p /\ ~ pages newsz <= p < pages sz)); [lia| |].
  - intros p Hp. unfold below. unfold PGSIZE in *. lia.
  - eapply shrunk_space; [done|done| |by apply uvm_wf_space|exact Hsh].
    intros p Hp. unfold below. unfold PGSIZE in *. lia.
Qed.

(** What is kept reads as before. *)
Lemma shrunk_ubyte pgdir sz lo hi s free s' free' va :
  uvm_wf (mem s) pgdir sz free -> 0 <= va < sz -> va / PGSIZE < lo ->
  hi * PGSIZE < sz + PGSIZE ->
  shrunk s pgdir lo hi free s' free' -> ubyte (mem s') pgdir va = ubyte (mem s) pgdir va.
Proof.
  intros Hwf Hva Hlo Hhi [I W P F A O R]. pose proof (uw_size _ _ _ _ Hwf) as Hs.
  destruct (uw_in _ _ _ _ Hwf va Hva) as (_ & Hk & Ho & Hf).
  unfold ubyte. unfold upage at 1. rewrite P by mmlia.
  rewrite (proj2 (Z.leb_gt lo _)) by lia. simpl. fold (upage (mem s) pgdir va).
  apply (A _ Hk Ho); [|mmlia]. rewrite F. intros [?|(p & Hp & He)]; [done|].
  apply (uw_inj _ _ _ _ Hwf) in He; [mmlia|lia|mmlia].
Qed.

(** ** freevm *)

(** The tables from entry [i] on: each a page of its own, none of them free. *)
Record tables_wf (m : gmap Z Z) (pgdir i : Z) (free : list Z) : Prop := {
  tw_dir : kpage pgdir /\ pgdir ∉ free;
  tw_tab j : i <= j < NPDENTRIES -> present (pde m pgdir j) = true ->
    kpage (pgtab m pgdir j) /\ pgtab m pgdir j <> pgdir /\ pgtab m pgdir j ∉ free;
  tw_inj j k : i <= j < NPDENTRIES -> i <= k < NPDENTRIES ->
    present (pde m pgdir j) = true -> present (pde m pgdir k) = true ->
    pgtab m pgdir j = pgtab m pgdir k -> j = k }.

Lemma tables_wf_step s pgdir i free : 0 <= i ->
  tables_wf (mem s) pgdir i free -> present (pde (mem s) pgdir i) = true ->
  i < NPDENTRIES ->
  let q := pgtab (mem s) pgdir i in
  let m' := store32 (memset (mem s) q 1 PGSIZE) q (freelist s) in
  agree (mem s) m' pgdir PGSIZE /\ tables_wf m' pgdir (i + 1) (q :: free).
Proof.
  intros Hi [[Hd Hdf] Ht Hj] Hp Hlt q m'.
  destruct (Ht i) as (Hq & Hqd & Hqf); [lia|done|]. fold q in Hq, Hqd, Hqf.
  assert (agree (mem s) m' pgdir PGSIZE) as Hag by (by apply kfree_mem_agree).
  split; [done|]. split.
  - split; [done|]. by apply not_elem_of_cons.
  - intros j Hj1. rewrite (pde_agree (mem s) m'), (pgtab_agree (mem s) m') by (done || lia).
    intros Hpj. destruct (Ht j) as (? & ? & ?); [lia|done|]. split; [done|]. split; [done|].
    apply not_elem_of_cons. split; [|done]. intros He. apply Hj in He; [lia|lia|lia|done|done].
  - intros j k Hj1 Hk1.
    rewrite !(pde_agree (mem s) m'), !(pgtab_agree (mem s) m') by (done || lia).
    apply Hj; lia.
Qed.

Lemma freevm_loop_ok n pgdir i s free :
  i + Z.of_nat n = NPDENTRIES -> 0 <= i -> kinv s free -> tables_wf (mem s) pgdir i free ->
  returns (freevm_loop n pgdir i) s (fun _ s' => exists free',
    kinv s' free' /\ pgdir ∉ free' /\
    (forall q, q ∈ free' <-> q ∈ free \/ exists j, i <= j < NPDENTRIES /\
       present (pde (mem s) pgdir j) = true /\ q = pgtab (mem s) pgdir j) /\
    (forall q, kpage q -> q ∉ free' -> agree (mem s) (mem s') q PGSIZE) /\ rest s' = rest s).
Proof.
  revert i s free. induction n as [|n IH]; intros i s free Hn Hi Hk Htw; cbn [freevm_loop].
  { steps. exists free. split; [done|]. split; [apply Htw|]. split; [|done].
    intros q. split; [by left|]. intros [|(j & ? & _)]; [done|lia]. }
  ksteps. change (negb (Z.land (load32 (mem s) (pgdir + 4 * i)) PTE_P =? 0))
    with (present (pde (mem s) pgdir i)).
  destruct (present (pde (mem s) pgdir i)) eqn:Hp.
  - destruct (tw_tab _ _ _ _ Htw i) as (Hq & Hqd & Hqf); [lia|done|].
    destruct (tables_wf_step s pgdir i free Hi Htw Hp) as (Hag & Htw1); [lia|].
    change (p2v (PTE_ADDR (load32 (mem s) (pgdir + 4 * i)))) with (pgtab (mem s) pgdir i).
    eapply returns_run; [apply kfree_run; [done|apply Hk]|]. set (q := pgtab _ _ _) in *.
    pose proof (kinv_kfree s q free Hk Hq Hqf) as Hk1. set (s1 := set_freelist _ _) in *.
    eapply wp_mono; [apply (IH (i + 1) s1 (q :: free)); try done; lia|..|done].
    intros _ s' (free' & Hk' & Hd' & Hf' & Ha' & Hr'). exists free'. split; [done|].
    split; [done|]. split; [|split; [|done]].
    + intros q'. rewrite Hf', elem_of_cons. split.
      * intros [[->|?]|(j & Hj & Hpj & ->)]; [right; exists i; split; [lia|done]|by left|right].
        exists j. rewrite (pde_agree (mem s)) in Hpj by (done || lia).
        rewrite (pgtab_agree (mem s)) by (done || lia). repeat split; (lia || done).
      * intros [?|(j & Hj & Hpj & ->)]; [by left; right|].
        destruct (decide (j = i)) as [->|]; [by left; left|right]. exists j.
        rewrite (pde_agree (mem s) (mem s1)), (pgtab_agree (mem s) (mem s1)) by (done || lia).
        repeat split; (lia || done).
    + intros q' Hq' Hnf. apply agree_trans with (mem s1).
      * apply kfree_mem_agree; [done..|]. intros <-. apply Hnf, Hf'. left.
        apply elem_of_cons. by left.
      * by apply Ha'.
  - ksteps. eapply wp_mono; [apply (IH (i + 1) s free); try done; try lia|..|done].
    { destruct Htw as [T1 T2 T3]. split; [done|intros; apply T2; lia || done|].
      intros j k Hj1 Hk1. apply T3; lia. }
    intros _ s' (free' & Hk' & Hd' & Hf' & Ha' & Hr'). exists free'. split; [done|].
    split; [done|]. split; [|done]. intros q'. rewrite Hf'. split.
    + intros [?|(j & Hj & Hpj & ->)]; [by left|right]. exists j. repeat split; (lia || done).
    + intros [?|(j & Hj & Hpj & ->)]; [by left|right]. exists j.
      destruct (decide (j = i)) as [->|]; [congruence|]. repeat split; (lia || done).
Qed.

Lemma as_wf_tables m pgdir free : as_wf m pgdir free -> tables_wf m pgdir 0 free.
Proof.
  intros [W1 W2 W3 W4]. split; [done|..].
  - intros j Hj Hp. apply W3; [done|by rewrite Hp].
  - intros j k Hj Hk Hp Hp'. apply W4; [done|done|by rewrite Hp|by rewrite Hp'].
Qed.

Lemma freevm_run pgdir sz s free :
  kinv s free -> L_pte_lookup ∉ held s -> uvm_wf (mem s) pgdir sz free ->
  (forall va, 0 <= va < pages sz * PGSIZE -> unshared s pgdir va) ->
  returns (freevm pgdir) s (fun _ s' => exists free',
    kinv s' free' /\
    (forall q, q ∈ free' <-> q ∈ free \/ owned (mem s) pgdir q \/
       exists p, 0 <= p < pages sz /\ q = upage (mem s) pgdir (p * PGSIZE)) /\
    (forall q, kpage q -> q ∉ free' -> agree (mem s) (mem s') q PGSIZE) /\ rest s' = rest s).
Proof.
  intros Hk Hl Hwf Hun. pose proof (uw_size _ _ _ _ Hwf) as Hs.
  pose proof (wf_dir _ _ _ (uw_as _ _ _ _ Hwf)) as Hd. pose proof (kpage_range _ Hd).
  unfold freevm. rewrite (proj2 (Z.eqb_neq pgdir 0)) by lia. apply wp_bind.
  eapply wp_mono; [apply (deallocuvm_run pgdir sz KERNBASE 0 s free); try done; mmlia|..|done].
  intros r s1 (_ & free1 & [I W P F A O R]). change (pages 0) with 0 in *. apply wp_bind.
  eapply wp_mono; [apply (freevm_loop_ok _ pgdir 0 s1 free1);
                   [done|lia|done|by apply as_wf_tables]|..|done].
  intros _ s2 (free2 & Hk2 & Hd2 & Hf2 & Ha2 & Hr2).
  eapply returns_run; [apply kfree_run; [done|apply Hk2]|]. exists (pgdir :: free2).
  split; [by apply kinv_kfree|]. split; [|split].
  - intros q. rewrite elem_of_cons, Hf2, F, <- O. unfold owned. split.
    + intros [->|[[?|?]|(j & Hj & Hpj & ->)]]; [by right; left; left|by left|by right; right|].
      right. left. right. exists j. by rewrite Hpj.
    + intros [?|[[->|(j & Hj & Hpj & ->)]|?]]; [by right; left; left|by left| |].
      * right. right. exists j. apply Is_true_true in Hpj. done.
      * right. left. by right.
  - intros q Hq Hnf. apply not_elem_of_cons in Hnf as [Hnf1 Hnf2].
    assert (q ∉ free1) by (intros Hx; apply Hnf2, Hf2; by left).
    apply agree_trans with (mem s1); [apply A; [done| |done]|].
    + rewrite <- O. intros [->|(j & Hj & Hpj & ->)]; [done|].
      apply Hnf2, Hf2. right. exists j. apply Is_true_true in Hpj. done.
    + apply agree_trans with (mem s2); [by apply Ha2|].
      apply kfree_mem_agree; [done..|by intros <-].
  - rewrite <- R, <- Hr2. done.
Qed.
End uvm_free.
