(* ===== verification/Boot.v ===== *)
(** * Memory at boot

    The memory part of [main] (main.c): kinit1 on the first 4MB, kvmalloc, kinit2 on
    the rest.  [boot_ok] says what the free list and the kernel page table are
    then; [xv6_layout] has the addresses this kernel is linked at. *)

From S2P Require Import Prelude Mmu Memory Kstate Kalloc PageTable Uvm.

(** [kernel.ld] puts data at a page boundary; these are the addresses of the build. *)
#[global, refine] Instance xv6_layout : Layout := {
  end_ := 0x8021659c;
  data_ := 0x8010a000
}.
Proof. all: vm_compute; (reflexivity || discriminate). Defined.

Section boot.
Context `{Layout}.

(** The calls of [main] that set up memory, in their order. *)
Definition main_memory : M kst Z :=
  kinit1 end_ (p2v (4 * 1024 * 1024)) ;;
  let! kpgdir := kvmalloc in
  kinit2 (p2v (4 * 1024 * 1024)) (p2v PHYSTOP) ;;
  ret kpgdir.

(** Memory before [main]: whatever it holds; no lock is held. *)
Definition kst0 (m : gmap Z Z) : kst :=
  {| mem := m; freelist := 0; use_lock := false; pte_array := ∅; cr3 := 0;
     held := []; out := [] |}.

Lemma kinv_kst0 m : kinv (kst0 m) [].
Proof. by split; [|constructor|constructor|]. Qed.

Lemma frange_length a n : length (frange a n) = n.
Proof. revert a. induction n as [|n IH]; intros a; simpl; [done|]. by rewrite IH. Qed.

(** Every page above the kernel and below PHYSTOP. *)
Definition ram (q : Z) : Prop :=
  q mod PGSIZE = 0 /\ PGROUNDUP end_ <= q < KERNBASE + PHYSTOP.

Lemma ram_kpage q : ram q <-> kpage q.
Proof.
  pose proof end_range as He. unfold ram, kpage.
  rewrite (PGROUNDUP_eq end_) by mmlia. split; intros ?; mmlia.
Qed.

Lemma fourMB : p2v (4 * 1024 * 1024) = KERNBASE + 0x400000.
Proof. done. Qed.

Lemma end_up : end_ <= PGROUNDUP end_ < end_ + PGSIZE /\ PGROUNDUP end_ mod PGSIZE = 0.
Proof. pose proof end_range. rewrite PGROUNDUP_eq by mmlia. mmlia. Qed.

Lemma as_wf_free m d free free' : as_wf m d free ->
  (forall q, owned m d q -> q ∉ free') -> as_wf m d free'.
Proof.
  intros [W1 W2 W3 W4] Ho. split; [done|apply Ho; by left| |done].
  intros i Hi Hp. destruct (W3 i Hi Hp) as (? & ? & _). split; [done|]. split; [done|].
  apply Ho. right. by exists i.
Qed.

(** The boundary between the two phases. *)
Definition MB4 : Z := KERNBASE + 0x400000.

Lemma MB4_up : p2v (4 * 1024 * 1024) = MB4 /\ PGROUNDUP MB4 = MB4 /\
  p2v PHYSTOP = KERNBASE + PHYSTOP.
Proof. done. Qed.

(** The pages between the kernel and the boundary. *)
Definition first_pages : list Z := rev (frange (PGROUNDUP end_) (Z.to_nat ((MB4 - PGROUNDUP end_) / PGSIZE))).

Lemma kinit1_ok s : PGROUNDUP end_ <= MB4 -> kinv s [] ->
  returns (kinit1 end_ MB4) s (fun _ s' => kinv s' first_pages /\ held s' = held s /\ pte_array s' = pte_array s /\
    low_same (mem s) (mem s') /\ use_lock s' = false /\ cr3 s' = cr3 s).
Proof.
  intros Hm Hk0. pose proof end_range. destruct end_up. unfold kinit1. ksteps.
  eapply wp_mono; [apply (freerange_ok end_ MB4 _ []); unfold MB4 in *; try lia;
                   [mmlia|set_solver|by destruct Hk0; split]|..|done].
  intros _ s' (Hk & Hh & Hu & Hp & Hc & _ & Hfr). rewrite app_nil_r in Hk. do 3 (split; [done|]). split; [|done].
  intros a Hlt. apply Hfr. left. lia.
Qed.

Lemma elem_of_rev_frange q p n : q ∈ rev (frange p n) <-> q ∈ frange p n.
Proof. by rewrite !list_elem_of_In, <- in_rev. Qed.

Lemma kinit2_ok s d free : kinv s free -> as_wf (mem s) d free -> held s = [] ->
  (forall va, 0 <= va < 2 ^ 32 -> pte (mem s) d va = kernel_view va) ->
  (forall q, q ∈ free \/ owned (mem s) d q -> q + PGSIZE <= MB4) -> end_ <= MB4 ->
  returns (kinit2 MB4 (KERNBASE + PHYSTOP)) s (fun _ s' => exists free',
    kinv s' free' /\ uvm_wf (mem s') d 0 free' /\ cr3 s' = cr3 s /\ use_lock s' = true /\
    held s' = [] /\ pte_array s' = pte_array s /\
    (forall q, q ∈ free' <-> q ∈ free \/ kpage q /\ MB4 <= q) /\
    (KERNBASE + PHYSTOP - MB4) / PGSIZE <= Z.of_nat (length free') /\ low_same (mem s) (mem s')).
Proof.
  intros Hk Has Hh Hv Hlow Hend. unfold kinit2. ksteps.
  destruct MB4_up as (_ & Hup & _). pose proof (freerange_ok MB4 (KERNBASE + PHYSTOP) s free) as Hfr.
  rewrite Hup in Hfr. set (n := Z.to_nat ((KERNBASE + PHYSTOP - MB4) / PGSIZE)) in *.
  assert (MB4 + Z.of_nat n * PGSIZE = KERNBASE + PHYSTOP) as Hn by (unfold n, MB4; mmlia). clearbody n.
  assert ((KERNBASE + PHYSTOP - MB4) / PGSIZE = Z.of_nat n) as Hnq by mmlia.
  assert (MB4 mod PGSIZE = 0) as HMa by done.
  eapply wp_mono; [apply Hfr; [done|unfold MB4; mmlia|unfold MB4; mmlia| |done]|..|done].
  { intros q Hq. left. pose proof (Hlow q (or_introl Hq)). mmlia. }
  intros _ s' (Hk' & Hh' & Hu' & Hp' & Hc' & _ & Hfr'). ksteps.
  set (free' := rev _ ++ free) in *. exists free'.
  assert (forall q, q ∈ free' <-> q ∈ free \/ kpage q /\ MB4 <= q) as Hf.
  { intros q. unfold free'. rewrite elem_of_app, elem_of_rev_frange. split; intros [Hq|Hq].
    - right. pose proof (elem_of_frange _ _ _ Hq). split; [|lia].
      eapply Forall_forall; [apply (kinv_pages _ _ Hk')|]. unfold free'.
      rewrite elem_of_app, elem_of_rev_frange. by left.
    - by left.
    - by right.
    - destruct Hq as [(Hq1 & Hq2 & Hq3) Hq4]. left. apply frange_elem; done || lia. }
  assert (forall q, owned (mem s) d q -> agree (mem s) (mem s') q PGSIZE) as Hag.
  { intros q Hq a Ha. apply Hfr'. left. pose proof (Hlow q (or_intror Hq)). lia. }
  assert (agree (mem s) (mem s') d PGSIZE) as Hd by (apply Hag; by left).
  split; [|split; [|split; [done|split; [done|split; [|split; [done|split; [done|split]]]]]]].
  - destruct Hk' as [K1 K2 K3 K4]. split; try done. unfold unlocked. simpl. rewrite Hh', Hh.
    intros _. apply not_elem_of_nil.
  - apply kernel_uvm_wf.
    + apply (as_wf_free _ _ free); [by eapply as_wf_agree|]. intros q Hq.
      apply (owned_agree (mem s)) in Hq; [|done]. rewrite Hf. intros [Hx|[_ Hx]].
      * by destruct (owned_kpage _ _ _ _ Has Hq).
      * pose proof (Hlow q (or_intror Hq)). mmlia.
    + intros va Hva. rewrite (pte_agree (mem s)) by done. auto.
  - simpl. by rewrite Hh'.
  - unfold free'. rewrite length_app, length_rev, frange_length. lia.
  - intros a Hlt. apply Hfr'. left. lia.
Qed.

Lemma kvmalloc_ok s : PGROUNDUP end_ + KVM_PAGES * PGSIZE <= MB4 -> kinv s first_pages ->
  returns kvmalloc s (fun d s' => exists free, kinv s' free /\ as_wf (mem s') d free /\
    (forall va, 0 <= va < 2 ^ 32 -> pte (mem s') d va = kernel_view va) /\
    (forall q, q ∈ free \/ owned (mem s') d q -> q + PGSIZE <= MB4) /\
    rest s' = rest (set_cr3 (v2p d) s) /\ low_same (mem s) (mem s')).
Proof.
  intros Hend Hk1. pose proof end_range as He. destruct end_up as [Hae Ha]. unfold kvmalloc, KVM_PAGES in *.
  unfold first_pages in Hk1. set (n := Z.to_nat _) in Hk1.
  assert (67 <= Z.of_nat n) as Hn by (unfold n, PGSIZE in *; zlia).
  assert (PGROUNDUP end_ + Z.of_nat n * PGSIZE <= MB4) as Hn' by (unfold n, PGSIZE in *; zlia).
  clearbody n. pose proof (length_rev (frange (PGROUNDUP end_) n)) as Hlen.
  rewrite frange_length in Hlen.
  assert (forall q, q ∈ rev (frange (PGROUNDUP end_) n) -> q + PGSIZE <= MB4) as Hin
    by (intros q Hq; apply elem_of_rev_frange, elem_of_frange in Hq; lia).
  destruct (rev (frange _ n)) as [|d l]; [simpl in Hlen; lia|]. apply wp_bind.
  eapply wp_mono; [apply (setupkvm_low s d l Hk1); unfold KVM_PAGES; lia|..|done].
  intros r s2 (-> & free2 & Hk2 & Hwf2 & Hsub2 & _ & Hv2 & Ho2 & _ & Hr2 & Hl2).
  unfold rest in Hr2. injection Hr2 as Q1 Q2 Q3 Q4 Q5. unfold switchkvm. ksteps. exists free2.
  split; [by destruct Hk2; split|]. split; [done|]. split; [done|]. split; [|split; [|done]].
  - intros q [Hq|Hq]; [|by apply Hin, Ho2]. apply Hin, elem_of_cons. right. by eapply suffix_elem.
  - unfold rest. simpl. by rewrite Q1, Q2, Q4, Q5.
Qed.

Lemma main_memory_ok m : PGROUNDUP end_ + KVM_PAGES * PGSIZE <= MB4 ->
  returns main_memory (kst0 m) (fun d s' => exists free',
    kinv s' free' /\ uvm_wf (mem s') d 0 free' /\ cr3 s' = v2p d /\
    use_lock s' = true /\ held s' = [] /\ pte_array s' = ∅ /\
    (forall q, kpage q -> MB4 <= q -> q ∈ free') /\ 56320 <= Z.of_nat (length free')).
Proof.
  intros Hend. destruct MB4_up as (Hm & _ & Hp). destruct end_up as [Hae _].
  unfold main_memory. rewrite Hm, Hp. apply wp_bind.
  eapply wp_mono; [apply kinit1_ok; [unfold PGSIZE, KVM_PAGES in *; lia|apply kinv_kst0]|..|done].
  intros _ s1 (Hk1 & Hh1 & Hp1 & _). apply wp_bind.
  eapply wp_mono; [by apply kvmalloc_ok|..|done].
  intros d s2 (free2 & Hk2 & Hwf2 & Hv2 & Hin2 & Hr2 & _). unfold rest in Hr2. injection Hr2 as Q1 Q2 Q3 Q4 Q5. apply wp_bind.
  eapply wp_mono; [apply (kinit2_ok s2 d free2); try done|..|done].
  - by rewrite Q4.
  - unfold PGSIZE, KVM_PAGES in *. lia.
  - intros _ s3 (free3 & Hk3 & Hwf3 & Hc3 & Hu3 & Hh3 & Hp3 & Hf3 & Hl3 & _). ksteps. exists free3.
    split; [done|]. split; [done|]. split; [by rewrite Hc3, Q3|]. do 2 (split; [done|]). split; [by rewrite Hp3, Q2, Hp1|].
    split; [|exact Hl3]. intros q Hq Hlo. apply Hf3. by right.
Qed.

(** A first address space: two user pages on top of the kernel's mappings. *)
Definition first_space : M kst Z :=
  let! d := main_memory in
  allocuvm d 0 (2 * PGSIZE) ;;
  ret d.

Lemma first_space_ok m : PGROUNDUP end_ + KVM_PAGES * PGSIZE <= MB4 ->
  returns first_space (kst0 m) (fun d s => exists free,
    kinv s free /\ uvm_wf (mem s) d (2 * PGSIZE) free /\ held s = [] /\
    pte_array s = ∅ /\ 56000 <= Z.of_nat (length free) /\
    forall va, 0 <= va < 2 * PGSIZE ->
      PTE_FLAGS (pte (mem s) d va) = Z.lor (Z.lor PTE_W PTE_U) PTE_P).
Proof.
  intros Hend. unfold first_space. apply wp_bind.
  eapply wp_mono; [by apply main_memory_ok|..|done].
  intros d s (free & Hk & Hwf & _ & _ & Hh & Hp & _ & Hl). apply wp_bind.
  change (new_pages 0 (2 * PGSIZE)) with 2%nat.
  eapply wp_mono; [apply (allocuvm_run d 0 (2 * PGSIZE) s free); try done|..|done].
  { change (new_pages 0 (2 * PGSIZE)) with 2%nat. lia. }
  change (new_pages 0 (2 * PGSIZE)) with 2%nat.
  intros _ s' (-> & free' & Hk' & Hwf' & Hl' & Hg). ksteps. exists free'.
  pose proof (ps_rest _ _ _ _ _ (gr_step _ _ _ _ _ _ _ _ _ Hg)) as Hr.
  unfold rest in Hr. injection Hr as Q1 Q2 Q3 Q4 Q5.
  split; [done|]. split; [done|]. split; [by rewrite Q4|]. split; [by rewrite Q2|].
  split; [lia|]. intros va Hva.
  destruct (gr_new _ _ _ _ _ _ _ _ _ Hg va) as (q & -> & Hq & _);
    [change (PGROUNDUP 0) with 0; mmlia|]. by apply entry_flags.
Qed.
End boot.
