(* ===== verification/Mp.v ===== *)
(** * mp.c: the processors of the machine

    The BIOS describes processors and interrupt controllers in a table in low memory.
    mpinit finds the table by its signature and checksum and goes over its entries.
    Lemmas: the search gives the first structure that checks; a table of known entries is
    taken entry by entry; an entry of another type is looked at for ever, and a ninth
    processor is written past the array of processors. *)

From S2P Require Import Prelude Mmu Memory.

Definition NCPU : Z := 8.
Definition MPBOOT : Z := 0x02.
Definition MPPROC : Z := 0x00.
Definition MPBUS : Z := 0x01.
Definition MPIOAPIC : Z := 0x02.
Definition MPIOINTR : Z := 0x03.
Definition MPLINTR : Z := 0x04.

(** sizeof of struct mp, mpconf, mpproc and mpioapic *)
Definition MP_SZ : Z := 16.
Definition MPCONF_SZ : Z := 44.
Definition MPPROC_SZ : Z := 20.
Definition MPIOAPIC_SZ : Z := 8.

(** The globals that mpinit sets; [cpu_id] are the fields [cpus[i].id], [bcpu] an index. *)
Record mps := mkMps {
  cpu_id : Z -> Z;
  bcpu : Z;
  ismp : bool;
  ncpu : Z;
  ioapicid : Z;
  lapic : Z;
  imcr : bool }.               (* the IMCR was written *)

(** Before mpinit. *)
Definition mps0 : mps := mkMps (fun _ => 0) 0 false 0 0 0 false.

Section mp.
(** Physical memory, through the direct map. *)
Context (m : gmap Z Z).

Fixpoint sum_from (addr : Z) (len : nat) : Z :=
  match len with O => 0 | S n => load8 m addr + sum_from (addr + 1) n end.
Definition sum (addr len : Z) : Z := u8 (sum_from addr (Z.to_nat len)).

(** memcmp with a string constant *)
Fixpoint same_bytes (p : Z) (l : list Z) : bool :=
  match l with [] => true | b :: l => (load8 m p =? b) && same_bytes (p + 1) l end.

Definition MP_SIG : list Z := [95; 77; 80; 95].
Definition PCMP_SIG : list Z := [80; 67; 77; 80].

Definition is_mp (p : Z) : bool := same_bytes p MP_SIG && (sum p MP_SZ =? 0).

Fixpoint mpsearch1_from (n : nat) (p e : Z) : option Z :=
  match n with
  | O => None
  | S n => if p <? e then if is_mp p then Some p else mpsearch1_from n (p + MP_SZ) e else None
  end.

(** The loop makes at most [len] turns. *)
Definition mpsearch1 (a len : Z) : option Z :=
  let addr := p2v a in
  mpsearch1_from (Z.to_nat len) addr (addr + len).

Definition mpsearch : option Z :=
  let bda := p2v 0x400 in
  let p := Z.shiftl (Z.lor (Z.shiftl (load8 m (bda + 0x0F)) 8) (load8 m (bda + 0x0E))) 4 in
  let first :=
    if negb (p =? 0) then mpsearch1 p 1024
    else
      let p := Z.lor (Z.shiftl (load8 m (bda + 0x14)) 8) (load8 m (bda + 0x13)) * 1024 in
      mpsearch1 (u32 (p - 1024)) 1024 in
  match first with
  | Some mp => Some mp
  | None => mpsearch1 0xF0000 0x10000
  end.

Definition mp_physaddr (mp : Z) : Z := load32 m (mp + 4).
Definition mp_imcrp (mp : Z) : Z := load8 m (mp + 12).
Definition conf_length (conf : Z) : Z := load8 m (conf + 4) + load8 m (conf + 5) * 256.
Definition conf_version (conf : Z) : Z := load8 m (conf + 6).
Definition conf_lapicaddr (conf : Z) : Z := load32 m (conf + 36).

(** The floating pointer and the table. *)
Definition mpconfig : option (Z * Z) :=
  match mpsearch with
  | None => None
  | Some mp =>
      if mp_physaddr mp =? 0 then None
      else
        let conf := p2v (mp_physaddr mp) in
        if negb (same_bytes conf PCMP_SIG) then None
        else if negb (conf_version conf =? 1) && negb (conf_version conf =? 4) then None
        else if negb (sum conf (conf_length conf) =? 0) then None
        else Some (mp, conf)
  end.

(** A processor entry at [p]; an index past the end of cpus[] faults. *)
Definition mp_proc (p : Z) : M mps unit := fun s =>
  let apicid := load8 m (p + 1) in
  let flags := load8 m (p + 3) in
  let ismp' := if negb (ncpu s =? apicid) then false else ismp s in
  let bcpu' := if negb (Z.land flags MPBOOT =? 0) then ncpu s else bcpu s in
  let s := mkMps (cpu_id s) bcpu' ismp' (ncpu s) (ioapicid s) (lapic s) (imcr s) in
  if NCPU <=? ncpu s then Stop (Faulted (ncpu s)) s
  else Done tt (mkMps (upd (ncpu s) (ncpu s) (cpu_id s)) bcpu' ismp' (ncpu s + 1) (ioapicid s) (lapic s) (imcr s)).

Fixpoint mp_loop (n : nat) (p e : Z) : M mps unit :=
  match n with
  | O => halt Diverged
  | S n =>
      if p <? e then
        let t := load8 m p in
        if t =? MPPROC then mp_proc p ;; mp_loop n (p + MPPROC_SZ) e
        else if t =? MPIOAPIC then
          modify (fun s => mkMps (cpu_id s) (bcpu s) (ismp s) (ncpu s) (load8 m (p + 1)) (lapic s) (imcr s)) ;;
          mp_loop n (p + MPIOAPIC_SZ) e
        else if (t =? MPBUS) || (t =? MPIOINTR) || (t =? MPLINTR) then mp_loop n (p + 8) e
        else
          modify (fun s => mkMps (cpu_id s) (bcpu s) false (ncpu s) (ioapicid s) (lapic s) (imcr s)) ;;
          mp_loop n p e
      else ret tt
  end.

Definition mpinit (fuel : nat) : M mps unit :=
  modify (fun s => mkMps (cpu_id s) 0 (ismp s) (ncpu s) (ioapicid s) (lapic s) (imcr s)) ;;
  match mpconfig with
  | None => ret tt
  | Some (mp, conf) =>
      modify (fun s => mkMps (cpu_id s) (bcpu s) true (ncpu s) (ioapicid s) (conf_lapicaddr conf) (imcr s)) ;;
      mp_loop fuel (conf + MPCONF_SZ) (conf + conf_length conf) ;;
      let! ok := gets ismp in
      if negb ok then
        modify (fun s => mkMps (cpu_id s) (bcpu s) (ismp s) 1 0 0 (imcr s))
      else if negb (mp_imcrp mp =? 0) then
        modify (fun s => mkMps (cpu_id s) (bcpu s) (ismp s) (ncpu s) (ioapicid s) (lapic s) true)
      else ret tt
  end.

(** ** The search *)

Lemma mpsearch1_from_spec n p e : e - p <= 16 * Z.of_nat n ->
  match mpsearch1_from n p e with
  | Some q => exists k, 0 <= k /\ q = p + 16 * k /\ q < e /\ is_mp q = true /\
      forall j, 0 <= j < k -> is_mp (p + 16 * j) = false
  | None => forall j, 0 <= j -> p + 16 * j < e -> is_mp (p + 16 * j) = false
  end.
Proof.
  revert p. induction n as [|n IH]; intros p Hn; cbn [mpsearch1_from]; [intros; lia|].
  destruct (Z.ltb_spec p e) as [Hlt|Hge]; [|intros; lia]. destruct (is_mp p) eqn:E.
  - exists 0. split; [lia|]. split; [lia|]. split; [done|]. split; [done|]. lia.
  - specialize (IH (p + MP_SZ)). unfold MP_SZ in *. destruct (mpsearch1_from n (p + 16) e) as [q|].
    + destruct IH as (k & Hk & -> & Hq & Hm & Hb); [lia|]. exists (k + 1). split; [lia|]. split; [lia|].
      split; [done|]. split; [done|]. intros j Hj. destruct (decide (j = 0)) as [->|]; [by rewrite Z.add_0_r|].
      replace (p + 16 * j) with (p + 16 + 16 * (j - 1)) by lia. apply Hb. lia.
    + intros j Hj Hlt'. destruct (decide (j = 0)) as [->|]; [by rewrite Z.add_0_r|].
      replace (p + 16 * j) with (p + 16 + 16 * (j - 1)) by lia. apply IH; lia.
Qed.

Lemma mpsearch1_first n p e : p < e -> is_mp p = true -> mpsearch1_from (S n) p e = Some p.
Proof. intros Hp E. cbn [mpsearch1_from]. rewrite (proj2 (Z.ltb_lt p e) Hp). by rewrite E. Qed.

(** mpsearch1 gives the first structure on a 16-byte step from its start whose
    signature and checksum are right, and fails only when there is none. *)
Lemma mpsearch1_spec a len : 0 <= len ->
  match mpsearch1 a len with
  | Some q => exists k, 0 <= k /\ q = p2v a + 16 * k /\ q < p2v a + len /\ is_mp q = true /\
      forall j, 0 <= j < k -> is_mp (p2v a + 16 * j) = false
  | None => forall j, 0 <= j -> p2v a + 16 * j < p2v a + len -> is_mp (p2v a + 16 * j) = false
  end.
Proof. intros Hl. apply mpsearch1_from_spec. lia. Qed.

(** ** The table *)

Inductive ent := EProc (apicid flags : Z) | EIoapic (no : Z) | EOther.

(** The entry at [p] and its size. *)
Definition decode (p : Z) : option (ent * Z) :=
  let t := load8 m p in
  if t =? MPPROC then Some (EProc (load8 m (p + 1)) (load8 m (p + 3)), MPPROC_SZ)
  else if t =? MPIOAPIC then Some (EIoapic (load8 m (p + 1)), MPIOAPIC_SZ)
  else if (t =? MPBUS) || (t =? MPIOINTR) || (t =? MPLINTR) then Some (EOther, 8)
  else None.

Inductive entries : Z -> Z -> list ent -> Prop :=
| entries_nil p e : e <= p -> entries p e []
| entries_cons p e x sz l : p < e -> decode p = Some (x, sz) -> entries (p + sz) e l -> entries p e (x :: l).

Definition take_ent (s : mps) (x : ent) : mps :=
  match x with
  | EProc apicid flags =>
      mkMps (upd (ncpu s) (ncpu s) (cpu_id s)) (if negb (Z.land flags MPBOOT =? 0) then ncpu s else bcpu s)
        ((ncpu s =? apicid) && ismp s) (ncpu s + 1) (ioapicid s) (lapic s) (imcr s)
  | EIoapic no => mkMps (cpu_id s) (bcpu s) (ismp s) (ncpu s) no (lapic s) (imcr s)
  | EOther => s
  end.

Fixpoint nprocs (l : list ent) : Z :=
  match l with [] => 0 | EProc _ _ :: l => 1 + nprocs l | _ :: l => nprocs l end.

(** The processors are numbered from [n] on. *)
Fixpoint ordered (n : Z) (l : list ent) : bool :=
  match l with [] => true | EProc id _ :: l => (n =? id) && ordered (n + 1) l | _ :: l => ordered n l end.

Lemma nprocs_nonneg l : 0 <= nprocs l.
Proof. induction l as [|[] l IH]; simpl; lia. Qed.

Lemma take_table l s : let s' := fold_left take_ent l s in
  ncpu s' = ncpu s + nprocs l /\ ismp s' = ordered (ncpu s) l && ismp s /\ lapic s' = lapic s /\ imcr s' = imcr s /\
  forall i, cpu_id s' i = if decide (ncpu s <= i < ncpu s + nprocs l) then i else cpu_id s i.
Proof.
  revert s. induction l as [|[apicid flags|no|] l IH]; intros s; simpl.
  - split; [lia|]. do 3 (split; [done|]). intros i. by rewrite decide_False by lia.
  - destruct (IH (take_ent s (EProc apicid flags))) as (H1 & H2 & H3 & H4 & H5). simpl in *. pose proof (nprocs_nonneg l).
    split; [lia|]. split; [rewrite H2; by destruct (ncpu s =? apicid), (ordered (ncpu s + 1) l)|]. split; [done|]. split; [done|].
    intros i. rewrite H5. unfold upd. repeat case_decide; (done || lia).
  - apply (IH (take_ent s (EIoapic no))).
  - apply IH.
Qed.

(** The loop of mpinit takes a table of known entries one by one. *)
Lemma mp_loop_ok p e l : entries p e l -> forall n s, 0 <= ncpu s -> ncpu s + nprocs l <= NCPU -> (length l < n)%nat ->
  mp_loop n p e s = Done tt (fold_left take_ent l s).
Proof.
  induction 1 as [p e Hle|p e x sz l Hlt Hd _ IH]; intros n s H0 Hn Hlen; (destruct n as [|n]; [simpl in Hlen; lia|]);
    cbn [mp_loop]; simpl in Hlen.
  - by destruct (Z.ltb_spec p e); [lia|].
  - destruct (Z.ltb_spec p e) as [_|]; [|lia]. unfold decode in Hd. pose proof (nprocs_nonneg l) as Hp.
    destruct (load8 m p =? MPPROC); [|destruct (load8 m p =? MPIOAPIC);
      [|destruct ((load8 m p =? MPBUS) || (load8 m p =? MPIOINTR) || (load8 m p =? MPLINTR)); [|done]]];
      injection Hd as <- <-; simpl in Hn.
    + unfold bind, mp_proc. cbn [ncpu]. destruct (Z.leb_spec NCPU (ncpu s)); [lia|].
      rewrite IH; [|simpl; lia..]. simpl. do 3 f_equal. by destruct (ncpu s =? _).
    + unfold bind, modify. rewrite IH; [done|simpl; lia..].
    + rewrite IH; [done|lia..].
Qed.

(** mpinit on a table of known entries and at most NCPU processors: the processors are
    counted when they are numbered from 0 on, and else it falls back to one processor. *)
Lemma mpinit_spec mp conf l fuel : mpconfig = Some (mp, conf) ->
  entries (conf + MPCONF_SZ) (conf + conf_length conf) l -> nprocs l <= NCPU -> (length l < fuel)%nat ->
  returns (mpinit fuel) mps0 (fun _ s =>
    if ordered 0 l then ismp s = true /\ ncpu s = nprocs l /\ lapic s = conf_lapicaddr conf /\
      (forall i, 0 <= i < nprocs l -> cpu_id s i = i) /\ imcr s = negb (mp_imcrp mp =? 0)
    else ismp s = false /\ ncpu s = 1 /\ lapic s = 0 /\ ioapicid s = 0).
Proof.
  intros Hc He Hn Hf. unfold returns, wp, mpinit, bind at 1, modify at 1. rewrite Hc. unfold bind at 1, modify at 1.
  unfold bind at 1. rewrite (mp_loop_ok _ _ _ He) by (simpl; lia).
  set (s0 := mkMps _ _ _ _ _ _ _). destruct (take_table l s0) as (H1 & H2 & H3 & H4 & H5).
  set (s1 := fold_left take_ent l s0) in *. simpl in *. unfold bind, gets. rewrite H2, andb_true_r.
  destruct (ordered 0 l) eqn:Eo; cbn [negb]; [|by unfold modify].
  assert (forall i, 0 <= i < nprocs l -> cpu_id s1 i = i) as Hid by (intros i Hi; by rewrite H5, decide_True).
  destruct (mp_imcrp mp =? 0); cbn [negb]; unfold modify, ret; simpl; rewrite ?H1, ?H2, ?H3, ?H4; done.
Qed.

(** ** The globals after mpinit *)

(** The processors that are counted fit the array and are numbered in order. *)
Definition mp_inv (s : mps) : Prop := 0 <= ncpu s <= NCPU /\ cpu_id s 0 = 0 /\ forall i, 0 <= i < ncpu s -> cpu_id s i = i.

Lemma mp_loop_inv n p e s : mp_inv s -> wp (mp_loop n p e) s (fun _ => mp_inv) (fun _ _ => True).
Proof.
  revert p s. induction n as [|n IH]; intros p s Hs; cbn [mp_loop]; [done|]. destruct (p <? e); [|done].
  destruct (_ =? MPPROC); [|destruct (_ =? MPIOAPIC); [|destruct (_ || _)]].
  - apply wp_bind. unfold wp at 1, mp_proc. cbn [ncpu]. destruct (Z.leb_spec NCPU (ncpu s)); [done|]. apply IH.
    destruct Hs as (H1 & H2 & H3). split; [simpl; lia|]. simpl. unfold upd. split; [by case_decide|].
    intros i Hi. case_decide; [done|]. apply H3. lia.
  - apply wp_bind. step. by apply IH.
  - by apply IH.
  - apply wp_bind. step. by apply IH.
Qed.

Lemma mpinit_inv fuel : wp (mpinit fuel) mps0 (fun _ => mp_inv) (fun _ _ => True).
Proof.
  unfold mpinit. apply wp_bind. step. assert (mp_inv (mkMps (cpu_id mps0) 0 (ismp mps0) (ncpu mps0) (ioapicid mps0) (lapic mps0) (imcr mps0))) as H0.
  { split; [simpl; unfold NCPU; lia|]. split; [done|]. simpl. lia. }
  destruct mpconfig as [[mp conf]|]; [|done]. apply wp_bind. step. apply wp_bind. eapply wp_mono; [by apply mp_loop_inv| |done].
  intros [] s (H1 & H2 & H3). apply wp_bind. step. destruct (negb (ismp s)); [|by destruct (negb _)].
  split; [simpl; unfold NCPU; lia|]. split; [done|]. intros i Hi. simpl in *. by replace i with 0 by lia.
Qed.

(** An entry of an unknown type is not skipped: mpinit looks at it for ever. *)
Lemma mp_unknown_loops p e : p < e -> decode p = None -> forall n s, exists s', mp_loop n p e s = Stop Diverged s'.
Proof.
  intros Hlt Hd. unfold decode in Hd. induction n as [|n IH]; intros s; [by exists s|]. cbn [mp_loop].
  destruct (Z.ltb_spec p e); [|lia]. destruct (load8 m p =? MPPROC); [done|]. destruct (load8 m p =? MPIOAPIC); [done|].
  destruct (_ || _); [done|]. unfold bind, modify. apply IH.
Qed.

(** A ninth processor is written past the end of cpus[]. *)
Lemma mp_ninth p e n s : p < e -> load8 m p = MPPROC -> NCPU <= ncpu s ->
  exists s', mp_loop (S n) p e s = Stop (Faulted (ncpu s)) s'.
Proof.
  intros Hlt Ht Hn. assert (exists s', mp_proc p s = Stop (Faulted (ncpu s)) s') as [s' E].
  { unfold mp_proc. cbn [ncpu]. destruct (Z.leb_spec NCPU (ncpu s)); [by eexists|lia]. }
  exists s'. cbn [mp_loop]. destruct (Z.ltb_spec p e); [|lia]. rewrite Ht. change (MPPROC =? MPPROC) with true.
  unfold bind. by rewrite E.
Qed.
End mp.

(** ** What mpinit reads *)

Section same.
Context (m m' : gmap Z Z) (lim : Z) (Hm : forall a, a < lim -> load8 m' a = load8 m a).

Lemma same_bytes_ext l p : p + Z.of_nat (length l) <= lim -> same_bytes m' p l = same_bytes m p l.
Proof.
  revert p. induction l as [|b l IH]; intros p Hp; [done|]. cbn [same_bytes]. simpl length in Hp.
  rewrite Hm, IH by lia. done.
Qed.

Lemma sum_ext p len : 0 <= len -> p + len <= lim -> sum m' p len = sum m p len.
Proof.
  intros Hl Hp. unfold sum. f_equal. rewrite <- (Z2Nat.id len Hl) in Hp. revert p Hp. induction (Z.to_nat len) as [|n IH]; intros p Hp; [done|].
  cbn [sum_from]. rewrite Hm, IH by lia. done.
Qed.

Lemma is_mp_ext p : p + MP_SZ <= lim -> is_mp m' p = is_mp m p.
Proof. unfold is_mp, MP_SZ. intros Hp. rewrite same_bytes_ext, sum_ext by (simpl; lia). done. Qed.

Lemma mp_loop_ext n p e s : e + MPPROC_SZ <= lim -> mp_loop m' n p e s = mp_loop m n p e s.
Proof.
  intros He. unfold MPPROC_SZ in He. revert p s. induction n as [|n IH]; intros p s; cbn [mp_loop]; [done|].
  destruct (Z.ltb_spec p e) as [Hlt|]; [|done]. rewrite (Hm p) by lia.
  destruct (_ =? MPPROC); [|destruct (_ =? MPIOAPIC); [|destruct (_ || _)]].
  - unfold bind, mp_proc. rewrite !Hm by lia. cbn [ncpu]. by destruct (NCPU <=? ncpu s).
  - unfold bind, modify. by rewrite Hm by lia.
  - done.
  - unfold bind, modify. done.
Qed.

(** The floating pointer at the start of the EBDA, a table below [lim]. *)
Lemma mpinit_ext fuel s p conf : let bda := p2v 0x400 in
  bda + 16 <= lim -> p = Z.shiftl (Z.lor (Z.shiftl (load8 m (bda + 0x0F)) 8) (load8 m (bda + 0x0E))) 4 -> p <> 0 ->
  is_mp m (p2v p) = true -> p2v p + MP_SZ <= lim -> conf = p2v (mp_physaddr m (p2v p)) ->
  conf + MPCONF_SZ <= lim -> conf + conf_length m conf + MPPROC_SZ <= lim -> 0 <= conf_length m conf ->
  mpinit m' fuel s = mpinit m fuel s.
Proof.
  intros bda Hb Ep Hp His Hmp Ec Hc Hl H0. unfold MP_SZ, MPCONF_SZ, MPPROC_SZ in *.
  assert (forall m0, Z.shiftl (Z.lor (Z.shiftl (load8 m0 (bda + 0x0F)) 8) (load8 m0 (bda + 0x0E))) 4 = p -> is_mp m0 (p2v p) = true ->
    mpsearch m0 = Some (p2v p)) as Hs.
  { intros m0 E0 I0. unfold mpsearch. fold bda. rewrite E0, (proj2 (Z.eqb_neq p 0) Hp). cbn [negb]. unfold mpsearch1.
    change (Z.to_nat 1024) with (S 1023). by rewrite mpsearch1_first by (done || lia). }
  assert (mp_physaddr m' (p2v p) = mp_physaddr m (p2v p)) as E1 by (apply load32_ext; intros i Hi; apply Hm; lia).
  assert (conf_length m' conf = conf_length m conf) as E2 by (unfold conf_length; by rewrite !Hm by lia).
  assert (conf_version m' conf = conf_version m conf) as E3 by (unfold conf_version; by rewrite !Hm by lia).
  assert (mpconfig m' = mpconfig m) as E.
  { unfold mpconfig. rewrite (Hs m (eq_sym Ep) His), (Hs m') by (rewrite ?is_mp_ext by (unfold MP_SZ; lia); rewrite ?Hm by lia; done).
    rewrite E1. rewrite <- Ec, E2, E3, same_bytes_ext, sum_ext by (simpl; lia). done. }
  unfold mpinit. rewrite E. unfold mpconfig. rewrite (Hs m (eq_sym Ep) His). rewrite <- Ec.
  destruct (_ =? 0); [done|]. destruct (negb _); [done|]. destruct (_ && _); [done|]. destruct (negb _); [done|].
  unfold bind, modify. rewrite E2, mp_loop_ext by (unfold MPPROC_SZ; lia).
  assert (conf_lapicaddr m' conf = conf_lapicaddr m conf) as -> by (apply load32_ext; intros i Hi; apply Hm; lia).
  assert (mp_imcrp m' (p2v p) = mp_imcrp m (p2v p)) as -> by (unfold mp_imcrp; apply Hm; lia). done.
Qed.
End same.

(** ** A machine with one processor: the structures in the first KB of the EBDA *)

Fixpoint put_bytes (a : Z) (l : list Z) (m : gmap Z Z) : gmap Z Z :=
  match l with [] => m | b :: l => <[a := b]> (put_bytes (a + 1) l m) end.

Definition sample_bios : gmap Z Z :=
  put_bytes (p2v 0x40E) [0xC0; 0x9F]
    (put_bytes (p2v 0x9FC00) [95; 77; 80; 95; 0x10; 0xFC; 0x09; 0; 1; 4; 139; 0; 0; 0; 0; 0]
      (put_bytes (p2v 0x9FC10) ([80; 67; 77; 80; 64; 0; 4; 151] ++ replicate 28 0 ++ [0; 0; 0xE0; 0xFE; 0; 0; 0; 0] ++
         [0; 0; 20; 3] ++ replicate 16 0) ∅)).

Lemma mpinit_sample : returns (mpinit sample_bios 2) mps0 (fun _ s => ismp s = true /\ ncpu s = 1 /\ lapic s = 0xFEE00000).
Proof.
  eapply returns_mono; [apply (mpinit_spec sample_bios (p2v 0x9FC00) (p2v 0x9FC10) [EProc 0 3])|].
  - vm_compute. reflexivity.
  - eapply entries_cons; [vm_compute; reflexivity..|]. apply entries_nil. vm_compute. done.
  - unfold NCPU. simpl. lia.
  - simpl. lia.
  - intros _ s (H1 & H2 & H3 & _). split; [done|]. split; [done|]. rewrite H3. vm_compute. reflexivity.
Qed.
