(* ===== verification/Cow.v ===== *)
(** * mprotect and copy-on-write: what this kernel adds to vm.c

    [mprotect] rewrites the flags of a range of entries; [copyuvm_cow] shares the
    parent's pages with the child and counts the sharers in [pte_array];
    [handle_cow_fault] gives the faulting process a page of its own;
    [free_cow_vm] is the freevm of a process that shares memory. *)

From S2P Require Import Prelude Mmu Memory Kstate Kalloc PageTable Uvm UvmFree.

Section cow.
Context `{Layout}.

(** ** mprotect *)

(** The [switch(prot)] on the entry at [p]; other values of [prot] add nothing. *)
Definition or_pte (p bits : Z) : M kst unit :=
  let! e := deref p in assign p (Z.lor e bits).

Definition protect_switch (p prot : Z) : M kst unit :=
  if prot =? PROT_NONE then or_pte p PTE_P
  else if prot =? PROT_READ then or_pte p (Z.lor PTE_P PTE_U)
  else if prot =? PROT_WRITE then or_pte p (Z.lor PTE_P PTE_W)
  else if prot =? Z.lor PROT_READ PROT_WRITE then or_pte p (Z.lor (Z.lor PTE_P PTE_W) PTE_U)
  else ret tt.

(** The [do] loop; [stop] is [(uint)addr + len].  The result of [walkpgdir] is
    dereferenced without a test. *)
Fixpoint mprotect_loop (fuel : nat) (pgdir curr stop prot : Z) : M kst unit :=
  match fuel with
  | O => halt Diverged
  | S f =>
      let! p := walkpgdir pgdir curr false in
      let curr := u32 (curr + PGSIZE) in
      let! e := deref p in
      cprintf "page table entry before: 0x%x desireced prot = %d\n" [e; prot] ;;
      let! e := deref p in
      assign p (Z.land e 0xfffffff9) ;;
      protect_switch p prot ;;
      let! e := deref p in
      cprintf "page table entry after: 0x%x\n" [e] ;;
      if curr <? stop then mprotect_loop f pgdir curr stop prot else ret tt
  end.

(** [pgdir] is [proc->pgdir].  From [base] the loop passes every page up to the end
    of the range, one at least, so the fuel is enough whenever it ends at all. *)
Definition mprotect (pgdir addr len prot : Z) : M kst Z :=
  cprintf "*addr: %d\n" [addr] ;;
  let base_addr := PGROUNDDOWN addr in
  let stop := u32 (addr + len) in
  mprotect_loop (Z.to_nat (u32 (stop - base_addr) / PGSIZE + 2)) pgdir base_addr stop prot ;;
  modify (set_cr3 (v2p pgdir)) ;;
  ret 0.

(** ** copyuvm_cow *)

Definition share_page (pa : Z) : M kst unit :=
  acquire L_pte_lookup ;;
  let! c := gets (fun s => refcount s (pa / PGSIZE)) in
  (if c =? 0 then set_refcount (pa / PGSIZE) 2 else set_refcount (pa / PGSIZE) (c + 1)) ;;
  release L_pte_lookup.

(** [goto bad] *)
Definition cow_bad (d : Z) : M kst Z :=
  cprintf "BAD MEMORY!\n" [] ;; freevm d ;; ret 0.

Fixpoint copyuvm_cow_loop (fuel : nat) (pgdir d i sz : Z) : M kst Z :=
  match fuel with
  | O => halt Diverged
  | S f =>
      if i <? sz then
        let! p := walkpgdir pgdir i false in
        if p =? 0 then panic "copyuvm: pte should exist"
        else
          let! e := load p in
          if Z.land e PTE_P =? 0 then panic "copyuvm: page not present"
          else
            let pa := PTE_ADDR e in
            let flags := PTE_FLAGS e in
            let! q := kalloc in
            if q =? 0 then cow_bad d
            else
              share_page pa ;;
              let! r := mappages d i PGSIZE pa flags in
              if r <? 0 then cow_bad d
              else
                let! e := load p in
                store p (Z.land e (u32 (Z.lnot PTE_W))) ;;
                copyuvm_cow_loop f pgdir d (u32 (i + PGSIZE)) sz
      else
        modify (set_cr3 (v2p pgdir)) ;;
        ret d
  end.

Definition copyuvm_cow (pgdir sz : Z) : M kst Z :=
  let! d := setupkvm in
  if d =? 0 then ret 0
  else copyuvm_cow_loop (Z.to_nat (sz / PGSIZE + 2)) pgdir d 0 sz.

(** ** handle_cow_fault *)

(** [proc] is the page directory of the current process, if there is one.  The
    second test indexes the array with the result of a comparison, as the code
    does. *)
Definition handle_cow_fault (proc : option Z) (addr : Z) : M kst unit :=
  match proc with
  | None =>
      cprintf "YOU SENT ME A BROKEN PROC IN HANDLE_COW!\n YOU DIRTY COW YOU\n" [] ;;
      panic "handle_cow_fault: proc should exist"
  | Some pgdir =>
      if KERNBASE <=? addr then panic "handle_cow_fault: given kernel level address\n"
      else
        let! p := walkpgdir pgdir addr false in
        if p =? 0 then panic "handle_cow_fault: invalid memory addresss given"
        else
          let! e := load p in
          if negb (Z.land e PTE_W =? 0) then
            panic "handle_cow_fault: page memory already writable. PGFAULT out of my hooves"
          else
            let pa := PTE_ADDR e in
            acquire L_pte_lookup ;;
            let! c := gets (fun s => refcount s (pa / PGSIZE)) in
            let! c1 := gets (fun s => refcount s (if pa / PGSIZE =? 1 then 1 else 0)) in
            (if c =? 0 then
               release L_pte_lookup ;;
               cprintf "cowfork_handle_fault: process not shared\n" [] ;;
               panic "cowfork: process not shared"
             else if negb (c1 =? 0) then
               let! e := load p in
               store p (Z.lor e PTE_W) ;;
               set_refcount (pa / PGSIZE) (c - 1)
             else
               set_refcount (pa / PGSIZE) (c - 1) ;;
               let! e := load p in
               let pa := PTE_ADDR e in
               let! q := kalloc in
               if q =? 0 then
                 release L_pte_lookup ;;
                 cprintf "kalloc failed?\n" [] ;;
                 cprintf "cowfork handle fault: bad things happened\n" [] ;;
                 panic "cowfork handle fault: bad things happened"
               else
                 on_mem (fun m => memmove m q (p2v pa) PGSIZE) ;;
                 store p (Z.lor (Z.lor (Z.lor (v2p q) PTE_P) PTE_U) PTE_W)) ;;
            release L_pte_lookup ;;
            modify (set_cr3 (v2p pgdir))
  end.

(** ** free_cow_vm *)

Fixpoint free_cow_loop (n : nat) (pgdir i : Z) : M kst unit :=
  match n with
  | O => ret tt
  | S n' =>
      let! e := load (pgdir + 4 * i) in
      (if negb (Z.land e PTE_P =? 0) then
         let pa := PTE_ADDR e in
         let! c := gets (fun s => refcount s (pa / PGSIZE)) in
         (if c <? 2 then kfree (p2v (PTE_ADDR e)) else ret tt)
       else ret tt) ;;
      free_cow_loop n' pgdir (i + 1)
  end.

Definition free_cow_vm (pgdir : Z) : M kst unit :=
  if pgdir =? 0 then panic "freevm: no pgdir"
  else
    deallocuvm pgdir KERNBASE 0 ;;
    acquire L_pte_lookup ;;
    free_cow_loop (Z.to_nat NPDENTRIES) pgdir 0 ;;
    release L_pte_lookup.

(** ** mprotect: the entries of the range, and nothing else *)

(** What one iteration makes of an entry. *)
Definition prot_bits (prot : Z) : Z :=
  if prot =? PROT_NONE then PTE_P
  else if prot =? PROT_READ then Z.lor PTE_P PTE_U
  else if prot =? PROT_WRITE then Z.lor PTE_P PTE_W
  else if prot =? Z.lor PROT_READ PROT_WRITE then Z.lor (Z.lor PTE_P PTE_W) PTE_U
  else 0.

Definition new_entry (prot e : Z) : Z := Z.lor (Z.land e 0xfffffff9) (prot_bits prot).

(** The entries at [lo <= va < hi] became [g] of what they were. *)
Record rewritten (g : Z -> Z) (s : kst) (pgdir : Z) (free : list Z) (lo hi : Z) (s' : kst)
  : Prop := {
  rw_wf : as_wf (mem s') pgdir free;
  rw_pde i : 0 <= i < NPDENTRIES -> pde (mem s') pgdir i = pde (mem s) pgdir i;
  rw_frame q : kpage q -> ~ owned (mem s) pgdir q -> agree (mem s) (mem s') q PGSIZE;
  rw_pte va : 0 <= va < 2 ^ 32 -> pte (mem s') pgdir va =
    if (lo <=? va) && (va <? hi) then g (pte (mem s) pgdir va) else pte (mem s) pgdir va;
  rw_rest : freelist s' = freelist s /\ use_lock s' = use_lock s /\
    pte_array s' = pte_array s /\ held s' = held s }.

Lemma wp_deref p s (Q : Z -> kst -> Prop) E : KERNBASE <= p ->
  Q (load32 (mem s) p) s -> wp (deref p) s Q E.
Proof. intros Hp HQ. unfold wp, deref. by rewrite (proj2 (Z.leb_le _ _)). Qed.

Lemma wp_assign p v s (Q : unit -> kst -> Prop) E : KERNBASE <= p ->
  Q tt (set_mem (store32 (mem s) p v) s) -> wp (assign p v) s Q E.
Proof. intros Hp HQ. unfold wp, assign. by rewrite (proj2 (Z.leb_le _ _)). Qed.

Lemma owned_pde m m' pgdir q :
  (forall i, 0 <= i < NPDENTRIES -> pde m' pgdir i = pde m pgdir i) ->
  owned m' pgdir q <-> owned m pgdir q.
Proof.
  intros Hd. unfold owned, pgtab.
  split; intros [->|(i & Hi & Hp & ->)]; [by left|right|by left|right]; exists i;
    rewrite (Hd i Hi) in *; done.
Qed.

(** One store to an entry. *)
Lemma store_entry s pgdir free a v :
  as_wf (mem s) pgdir free -> present (pde (mem s) pgdir (PDX a)) = true ->
  a mod PGSIZE = 0 -> 0 <= a < 2 ^ 32 -> 0 <= v < 2 ^ 32 ->
  rewritten (fun _ => v) s pgdir free a (a + PGSIZE)
    (set_mem (store32 (mem s) (pte_addr (mem s) pgdir a) v) s).
Proof.
  intros Hwf Hp Ha Har Hv.
  destruct (store_pte (mem s) pgdir free a v Hwf) as (W & O & F & V); [by rewrite Hp|done|].
  destruct (wf_tab _ _ _ Hwf (PDX a)) as (Hk & Hne & _); [apply PDX_range|by rewrite Hp|].
  split; [done|..|done].
  - intros i Hi. apply pde_agree; [|done]. apply F; [apply Hwf|done].
  - intros q Hq Hno. apply F; [done|]. intros ->. apply Hno, owned_tab. by rewrite Hp.
  - intros va Hva. simpl. rewrite V, (u32_small v) by done.
    destruct (Z.eqb_spec (va / PGSIZE) (a / PGSIZE)), (Z.leb_spec a va),
      (Z.ltb_spec va (a + PGSIZE)); simpl; done || mmlia.
Qed.

Lemma rewritten_same g s pgdir free lo hi s1 s' : rewritten g s pgdir free lo hi s1 ->
  mem s' = mem s1 -> freelist s' = freelist s1 -> use_lock s' = use_lock s1 ->
  pte_array s' = pte_array s1 -> held s' = held s1 -> rewritten g s pgdir free lo hi s'.
Proof.
  intros [W D F V R] E1 E2 E3 E4 E5. split; rewrite ?E1, ?E2, ?E3, ?E4, ?E5; done.
Qed.

(** Two rewritings, one after the other; their effects compose pointwise. *)
Lemma rewritten_then g1 g2 g s pgdir free s1 s' lo1 hi1 lo2 hi2 lo hi :
  rewritten g1 s pgdir free lo1 hi1 s1 -> rewritten g2 s1 pgdir free lo2 hi2 s' ->
  (forall va, 0 <= va < 2 ^ 32 ->
     let e := pte (mem s) pgdir va in
     let e1 := if (lo1 <=? va) && (va <? hi1) then g1 e else e in
     (if (lo2 <=? va) && (va <? hi2) then g2 e1 else e1) =
     if (lo <=? va) && (va <? hi) then g e else e) ->
  rewritten g s pgdir free lo hi s'.
Proof.
  intros [W1 D1 F1 V1 (R1 & R2 & R3 & R4)] [W2 D2 F2 V2 (T1 & T2 & T3 & T4)] Hg.
  split; [done|..].
  - intros i Hi. by rewrite D2, D1.
  - intros q Hq Ho. apply agree_trans with (mem s1); [auto|]. apply F2; [done|].
    by rewrite (owned_pde (mem s)).
  - intros va Hva. rewrite V2, V1 by done. by apply Hg.
  - repeat split; congruence.
Qed.

Lemma new_entry_range prot e : 0 <= e < 2 ^ 32 -> 0 <= new_entry prot e < 2 ^ 32.
Proof.
  intros He. unfold new_entry. apply lor_u32.
  - apply land_u32; lia.
  - unfold prot_bits. repeat case_match; vm_compute; intuition congruence.
Qed.

Lemma wp_protect_switch p prot s (Q : unit -> kst -> Prop) E : KERNBASE <= p ->
  (forall s', s' = set_mem (store32 (mem s) p (Z.lor (load32 (mem s) p) (prot_bits prot))) s \/
     prot_bits prot = 0 /\ s' = s -> Q tt s') ->
  wp (protect_switch p prot) s Q E.
Proof.
  intros Hp HQ. unfold protect_switch, prot_bits in *.
  repeat case_match; try (apply wp_bind, wp_deref; [done|]; apply wp_assign; auto).
  apply wp_ret. auto.
Qed.

Lemma rewritten_refl g s pgdir free lo hi : as_wf (mem s) pgdir free -> hi <= lo ->
  rewritten g s pgdir free lo hi s.
Proof.
  intros Hwf Hh. split; try done. intros va _.
  destruct (Z.leb_spec lo va), (Z.ltb_spec va hi); simpl; done || lia.
Qed.

(** One iteration on the page at [a]. *)
Lemma mprotect_body s pgdir free a prot (k : unit -> M kst unit) Q E :
  as_wf (mem s) pgdir free -> present (pde (mem s) pgdir (PDX a)) = true ->
  a mod PGSIZE = 0 -> 0 <= a < 2 ^ 32 ->
  (forall s', rewritten (new_entry prot) s pgdir free a (a + PGSIZE) s' -> wp (k tt) s' Q E) ->
  let p := pte_addr (mem s) pgdir a in
  wp (let! e := deref p in
      cprintf "page table entry before: 0x%x desireced prot = %d\n" [e; prot] ;;
      let! e := deref p in
      assign p (Z.land e 0xfffffff9) ;;
      protect_switch p prot ;;
      let! e := deref p in
      cprintf "page table entry after: 0x%x\n" [e] ;; k tt) s Q E.
Proof.
  intros Hwf Hp Ha Har Hk p.
  destruct (wf_tab _ _ _ Hwf (PDX a)) as (Hkp & Hne & _); [apply PDX_range|by rewrite Hp|].
  assert (KERNBASE <= p) as HpK.
  { pose proof (kpage_range _ Hkp). pose proof (PTX_range a). unfold p, pte_addr. lia. }
  assert (load32 (mem s) p = pte (mem s) pgdir a) as Hld by (unfold pte; by rewrite Hp).
  pose proof (pte_range (mem s) pgdir a) as Her. rewrite <- Hld in Her.
  apply wp_bind, wp_deref; [done|]. ksteps. apply wp_deref; [done|]. ksteps.
  apply wp_assign; [done|]. simpl mem.
  set (v := Z.land (load32 (mem s) p) 0xfffffff9) in *.
  assert (0 <= v < 2 ^ 32) as Hv by (apply land_u32; lia).
  set (s1 := set_mem _ _). assert (mem s1 = store32 (mem s) p v) as Hm1 by done.
  assert (rewritten (fun _ => v) s pgdir free a (a + PGSIZE) s1) as R1.
  { eapply rewritten_same; [by apply store_entry|done..]. }
  assert (pte_addr (mem s1) pgdir a = p) as Hp1
    by (unfold p, pte_addr, pgtab; by rewrite (rw_pde _ _ _ _ _ _ _ R1) by apply PDX_range).
  assert (load32 (mem s1) p = v) as Hl1
    by (by rewrite Hm1, load32_store32_eq, u32_small).
  apply wp_bind, wp_protect_switch; [done|]. intros s2 Hs2.
  apply wp_bind, wp_deref; [done|]. ksteps. apply Hk.
  eapply rewritten_same with (s1 := s2); [|done..].
  assert (forall va, a <= va < a + PGSIZE -> pte (mem s) pgdir va = load32 (mem s) p) as Hpg.
  { intros va Hva. rewrite Hld. apply pte_same_page; mmlia. }
  assert (new_entry prot (load32 (mem s) p) = Z.lor v (prot_bits prot)) as Hne2 by done.
  destruct Hs2 as [->|[Hz ->]].
  - rewrite Hl1, <- Hp1.
    eapply (rewritten_then _ _ _ _ _ _ s1); [exact R1|apply store_entry| ];
      try done; try apply R1.
    + by rewrite (rw_pde _ _ _ _ _ _ _ R1) by apply PDX_range.
    + rewrite <- Hne2. by apply new_entry_range.
    + intros va Hva. cbv zeta.
      destruct (Z.leb_spec a va), (Z.ltb_spec va (a + PGSIZE)); simpl; try done.
      by rewrite Hpg.
  - eapply (rewritten_then _ _ _ _ _ _ s1); [exact R1|apply (rewritten_refl (fun e => e) _ _ _ a a)|];
      [apply R1|lia|].
    intros va Hva. cbv zeta.
    destruct (Z.leb_spec a va), (Z.ltb_spec va (a + PGSIZE)), (Z.ltb_spec va a); simpl;
      try done; try lia.
    rewrite Hpg by lia. by rewrite Hne2, Hz, Z.lor_0_r.
Qed.

Lemma mprotect_loop_ok n fuel pgdir curr stop prot s free :
  (n < fuel)%nat -> curr mod PGSIZE = 0 -> 0 <= curr ->
  curr + Z.of_nat n * PGSIZE < stop \/ n = O ->
  stop <= curr + (Z.of_nat n + 1) * PGSIZE -> stop <= 2 ^ 32 - PGSIZE ->
  curr + (Z.of_nat n + 1) * PGSIZE < 2 ^ 32 ->
  as_wf (mem s) pgdir free ->
  (forall va, curr <= va < curr + (Z.of_nat n + 1) * PGSIZE ->
     present (pde (mem s) pgdir (PDX va)) = true) ->
  returns (mprotect_loop fuel pgdir curr stop prot) s (fun _ s' =>
    rewritten (new_entry prot) s pgdir free curr (curr + (Z.of_nat n + 1) * PGSIZE) s').
Proof.
  revert fuel curr s. induction n as [|n IH]; intros fuel curr s Hf Hc Hc0 Hlo Hhi Hst Hw Hwf Hp;
    (destruct fuel as [|fuel]; [lia|]); cbn [mprotect_loop]; apply wp_bind;
    (eapply returns_run; [apply walkpgdir_run|]); rewrite Hp by mmlia.
  - apply (mprotect_body s pgdir free curr prot
             (fun _ => if u32 (curr + PGSIZE) <? stop then _ else ret tt));
      [done|apply Hp; mmlia|done|mmlia|]. intros s' Hr. rewrite u32_small by mmlia.
    rewrite (proj2 (Z.ltb_ge _ stop)) by lia. steps. by rewrite Z.mul_1_l.
  - apply (mprotect_body s pgdir free curr prot
             (fun _ => if u32 (curr + PGSIZE) <? stop then _ else ret tt));
      [done|apply Hp; mmlia|done|mmlia|]. intros s1 R1. rewrite u32_small by mmlia.
    rewrite (proj2 (Z.ltb_lt _ stop)) by mmlia.
    eapply wp_mono; [apply (IH fuel (curr + PGSIZE) s1); try mmlia; try apply R1|..|done].
    { intros va Hva. rewrite (rw_pde _ _ _ _ _ _ _ R1) by apply PDX_range. apply Hp. mmlia. }
    intros u s' R2. eapply rewritten_then; [exact R1|exact R2|]. intros va Hva. cbv zeta.
    replace (curr + PGSIZE + (Z.of_nat n + 1) * PGSIZE)
      with (curr + (Z.of_nat (S n) + 1) * PGSIZE) by lia.
    destruct (Z.leb_spec curr va), (Z.ltb_spec va (curr + PGSIZE)),
      (Z.leb_spec (curr + PGSIZE) va), (Z.ltb_spec va (curr + (Z.of_nat (S n) + 1) * PGSIZE));
      simpl; try done; mmlia.
Qed.

(** The end of the range [mprotect] works on: the page after its last byte. *)
Definition prot_end (addr len : Z) : Z := (addr + len - 1) / PGSIZE * PGSIZE + PGSIZE.

Lemma mprotect_run pgdir addr len prot s free :
  0 <= addr -> 0 < len -> addr + len <= 2 ^ 32 - PGSIZE -> as_wf (mem s) pgdir free ->
  (forall va, PGROUNDDOWN addr <= va < prot_end addr len ->
     present (pde (mem s) pgdir (PDX va)) = true) ->
  returns (mprotect pgdir addr len prot) s (fun r s' => r = 0 /\ cr3 s' = v2p pgdir /\
    rewritten (new_entry prot) s pgdir free (PGROUNDDOWN addr) (prot_end addr len) s').
Proof.
  intros Ha Hl He Hwf Hp. unfold mprotect. ksteps.
  assert (PGROUNDDOWN addr = addr - addr mod PGSIZE) as Hd by (apply PGROUNDDOWN_eq; mmlia).
  rewrite Hd in *. rewrite (u32_small (addr + len)) by mmlia.
  set (n := Z.to_nat ((addr + len - 1) / PGSIZE - addr / PGSIZE)).
  assert (prot_end addr len = addr - addr mod PGSIZE + (Z.of_nat n + 1) * PGSIZE) as Hend
    by (unfold prot_end, n; mmlia).
  rewrite Hend in *. eapply wp_mono; [apply (mprotect_loop_ok n); try done|..|done].
  - rewrite u32_small by mmlia. unfold n. mmlia.
  - mmlia.
  - mmlia.
  - unfold n. mmlia.
  - unfold n. mmlia.
  - unfold n. mmlia.
  - intros u s' R. ksteps. split; [done|]. split; [done|]. destruct R. by split.
Qed.

(** What the hardware lets user code do through an entry. *)
Definition user_may (write : bool) (e : Z) : bool :=
  present e && negb (Z.land e PTE_U =? 0) && (negb write || negb (Z.land e PTE_W =? 0)).

Lemma user_may_bits write e :
  user_may write e = Z.testbit e 0 && Z.testbit e 2 && (negb write || Z.testbit e 1).
Proof.
  unfold user_may, present, PTE_P, PTE_U, PTE_W. change 0x001 with (2 ^ 0).
  change 0x002 with (2 ^ 1). change 0x004 with (2 ^ 2).
  by rewrite !land_pow2_eqb0, !negb_involutive by lia.
Qed.

Lemma user_may_flags e : 0 <= e < 2 ^ 32 ->
  PTE_FLAGS e = Z.lor (Z.lor PTE_W PTE_U) PTE_P -> user_may true e = true.
Proof.
  intros He Hf. rewrite user_may_bits. rewrite PTE_FLAGS_eq in Hf by done.
  assert (forall k, 0 <= k < 12 -> Z.testbit e k = Z.testbit (e mod 2 ^ 12) k) as Hb
    by (intros; by rewrite Z.mod_pow2_bits_low by lia).
  rewrite !Hb by lia. change (2 ^ 12) with 4096. by rewrite Hf.
Qed.

Lemma new_entry_bits prot e k : Z.testbit (new_entry prot e) k =
  Z.testbit e k && Z.testbit 0xfffffff9 k || Z.testbit (prot_bits prot) k.
Proof. unfold new_entry. by rewrite Z.lor_spec, Z.land_spec. Qed.

Lemma new_entry_access prot e : 0 <= prot <= 3 ->
  user_may false (new_entry prot e) = ((prot =? PROT_READ) || (prot =? 3)) /\
  user_may true (new_entry prot e) = (prot =? 3).
Proof.
  intros Hp. rewrite !user_may_bits, !new_entry_bits.
  assert (prot = 0 \/ prot = 1 \/ prot = 2 \/ prot = 3) as [->|[->|[->| ->]]] by lia;
    generalize (Z.testbit e 0), (Z.testbit e 1), (Z.testbit e 2); intros [] [] []; done.
Qed.

Lemma new_entry_addr prot e : 0 <= e < 2 ^ 32 ->
  PTE_ADDR (new_entry prot e) = PTE_ADDR e /\
  (present e = true \/ 0 <= prot <= 3 -> present (new_entry prot e) = true).
Proof.
  intros He. split.
  - rewrite !PTE_ADDR_eq by (done || by apply new_entry_range).
    enough (new_entry prot e / 4096 = e / 4096) by zlia.
    change 4096 with (2 ^ 12). rewrite <- !Z.shiftr_div_pow2 by lia.
    unfold new_entry. rewrite Z.shiftr_lor, Z.shiftr_land.
    assert (Z.shiftr (prot_bits prot) 12 = 0) as ->
      by (unfold prot_bits; repeat case_match; done).
    rewrite Z.lor_0_r. change (Z.shiftr 0xfffffff9 12) with (Z.ones 20).
    rewrite Z.land_ones, Z.shiftr_div_pow2 by lia. apply Z.mod_small. zlia.
  - rewrite !present_bit0, new_entry_bits. intros [->|Hp]; [done|].
    assert (prot = 0 \/ prot = 1 \/ prot = 2 \/ prot = 3) as [->|[->|[->| ->]]] by lia;
      generalize (Z.testbit e 0); intros []; done.
Qed.

(** Entries of user pages change flags only: the address space stays well formed
    and reads as before. *)
Lemma rewritten_uvm g s pgdir sz free lo hi s' :
  kinv s free -> uvm_wf (mem s) pgdir sz free -> hi <= KERNBASE ->
  (forall va, lo <= va < hi -> va < PGROUNDUP sz) ->
  (forall va, lo <= va < hi -> let e := pte (mem s) pgdir va in
     PTE_ADDR (g e) = PTE_ADDR e /\ (present e = true -> present (g e) = true)) ->
  rewritten g s pgdir free lo hi s' ->
  kinv s' free /\ uvm_wf (mem s') pgdir sz free /\
  forall va, 0 <= va < sz -> upage (mem s') pgdir va = upage (mem s) pgdir va /\
    ubyte (mem s') pgdir va = ubyte (mem s) pgdir va.
Proof.
  intros Hk Hwf Hhi Hr Hg [W D F V (R1 & R2 & R3 & R4)]. pose proof (uw_size _ _ _ _ Hwf) as Hs.
  destruct (PGROUNDUP_user sz Hs) as (U1 & U2 & U3 & U4).
  assert (forall va, 0 <= va < 2 ^ 32 -> upage (mem s') pgdir va = upage (mem s) pgdir va) as Hu.
  { intros va Hva. unfold upage. rewrite V by done.
    destruct (Z.leb_spec lo va), (Z.ltb_spec va hi); simpl; try done.
    destruct (Hg va) as [-> _]; [lia|done]. }
  split; [|split].
  - destruct Hk as [K1 K2 K3 K4]. split; [|done|done|unfold unlocked in *; by rewrite R2, R4].
    rewrite R1. eapply flist_agree; [exact K1|]. intros q Hq. apply F.
    + by eapply Forall_forall in K3.
    + intros Ho. destruct (owned_kpage _ _ _ _ (uw_as _ _ _ _ Hwf) Ho). done.
  - split; [done|done|..].
    + intros va Hva. rewrite V by mmlia. rewrite (proj2 (Z.ltb_ge va hi)), andb_false_r by lia.
      by apply (uw_kern _ _ _ _ Hwf).
    + intros va Hva. destruct (uw_in _ _ _ _ Hwf va Hva) as (P1 & P2 & P3 & P4).
      rewrite Hu, (owned_pde (mem s)) by (done || mmlia). split; [|done].
      rewrite V by mmlia. destruct (Z.leb_spec lo va), (Z.ltb_spec va hi); simpl; try done.
      apply Hg; [lia|done].
    + intros va Hva. rewrite V by mmlia. pose proof (uw_out _ _ _ _ Hwf va Hva).
      destruct (Z.leb_spec lo va), (Z.ltb_spec va hi); simpl; try done.
      pose proof (Hr va). lia.
    + intros va va' Hva Hva'. rewrite !Hu by mmlia. by apply (uw_inj _ _ _ _ Hwf).
  - intros va Hva. rewrite Hu by mmlia. split; [done|]. unfold ubyte. rewrite Hu by mmlia.
    destruct (uw_in _ _ _ _ Hwf va Hva) as (_ & P2 & P3 & _). apply (F _ P2 P3). mmlia.
Qed.

(** ** A range that reaches the last page: no return *)

Definition never {A} (c : M kst A) : Prop :=
  forall s, wp c s (fun _ _ => False) (fun _ _ => True).

Lemma never_bind {A B} (c : M kst A) (k : A -> M kst B) :
  (forall a, never (k a)) -> never (bind c k).
Proof. intros Hk s. apply wp_bind. unfold wp. destruct (c s); [apply Hk|done]. Qed.

Lemma mprotect_loop_never fuel pgdir curr stop prot :
  curr mod PGSIZE = 0 -> 2 ^ 32 - PGSIZE < stop ->
  never (mprotect_loop fuel pgdir curr stop prot).
Proof.
  revert curr. induction fuel as [|f IH]; intros curr Hc Hs; [done|]. cbn [mprotect_loop].
  do 8 (apply never_bind; intros). rewrite (proj2 (Z.ltb_lt _ stop)).
  - apply IH; [unfold u32; mmlia|done].
  - unfold u32; mmlia.
Qed.

(** ** handle_cow_fault *)

(** The page at [a] moved to the fresh page [p], same bytes, new flags [f]. *)
Lemma remap_page s pgdir sz p l a f :
  kinv s (p :: l) -> uvm_wf (mem s) pgdir sz (p :: l) ->
  a mod PGSIZE = 0 -> 0 <= a < sz -> 0 <= f < 4096 ->
  let q := upage (mem s) pgdir a in
  let m1 := memmove (mem s) p q PGSIZE in
  let v := Z.lor (Z.lor (v2p p) f) PTE_P in
  let s' := set_mem (store32 m1 (pte_addr (mem s) pgdir a) v)
              (set_freelist (load32 (mem s) p) s) in
  kinv s' l /\ uvm_wf (mem s') pgdir sz l /\
  (forall va, 0 <= va < 2 ^ 32 -> pte (mem s') pgdir va =
     if va / PGSIZE =? a / PGSIZE then v else pte (mem s) pgdir va) /\
  (forall va, 0 <= va < sz -> ubyte (mem s') pgdir va = ubyte (mem s) pgdir va) /\
  agree (mem s) (mem s') q PGSIZE.
Proof.
  intros Hk Hwf Ha Har Hf q m1 v s'. pose proof (uw_size _ _ _ _ Hwf) as Hs.
  destruct (PGROUNDUP_user sz Hs) as (U1 & U2 & U3 & U4).
  pose proof (uw_as _ _ _ _ Hwf) as Has. pose proof (uw_in _ _ _ _ Hwf) as Hin.
  destruct (Hin a Har) as (Hp & Hq & Hqo & Hqf). fold q in Hq, Hqo, Hqf.
  apply not_elem_of_cons in Hqf as [Hqp Hql].
  pose proof (kinv_pages _ _ Hk) as Hpg. apply Forall_cons in Hpg as [Hkp _].
  destruct (take_page s pgdir p l (fun m => memmove m p q PGSIZE) Hk Has) as
    (Hst & Hv1 & Hno1 & Hpl & _). { intros q' Hq' Hne. by apply memmove_page. }
  { destruct Hkp as (_ & Hpe & _). by apply low_memmove. }
  cbv beta zeta in Hst, Hv1, Hno1.
  set (s1 := set_mem (memmove (mem s) p q PGSIZE) _) in *. pose proof (ps_wf _ _ _ _ _ Hst) as Hwf1.
  assert (0 <= v < 2 ^ 32) as Hvr.
  { unfold v. rewrite <- Z.lor_assoc. by apply kpage_entry; [|apply flags_lor_P]. }
  assert (agree (mem s) (mem s1) pgdir PGSIZE) as Hag
    by (apply memmove_page; try done; [apply Has|];
        intros ->; apply (wf_dir_free _ _ _ Has), elem_of_cons; by left).
  assert (pte_addr (mem s1) pgdir a = pte_addr (mem s) pgdir a) as Hpa
    by (unfold pte_addr; by rewrite (pgtab_agree (mem s)) by (done || apply PDX_range)).
  assert (present (pde (mem s) pgdir (PDX a)) = true) as Hpd.
  { unfold pte in Hp. destruct (present (pde _ _ _)); [done|by rewrite present_0 in Hp]. }
  assert (present (pde (mem s1) pgdir (PDX a)) = true) as Hpd1
    by (by rewrite (pde_agree (mem s)) by (done || apply PDX_range)).
  pose proof (store_entry s1 pgdir l a v Hwf1 Hpd1 Ha ltac:(mmlia) Hvr) as [W D F V _].
  rewrite Hpa in W, D, F, V. cbn [mem set_mem] in W, D, F, V.
  assert (forall va, 0 <= va < 2 ^ 32 -> pte (mem s') pgdir va =
     if va / PGSIZE =? a / PGSIZE then v else pte (mem s) pgdir va) as Hpte.
  { intros va Hva. unfold s'. cbn [mem set_mem]. rewrite V, <- Hv1 by done.
    destruct (Z.eqb_spec (va / PGSIZE) (a / PGSIZE)), (Z.leb_spec a va),
      (Z.ltb_spec va (a + PGSIZE)); simpl; done || mmlia. }
  assert (forall q', owned (mem s') pgdir q' <-> owned (mem s) pgdir q') as Hown.
  { intros q'. unfold s'. cbn [mem set_mem]. rewrite (owned_pde (mem s1)) by done.
    by rewrite <- (owned_agree (mem s) (mem s1)). }
  assert (forall q', kpage q' -> q' <> p -> ~ owned (mem s) pgdir q' ->
    agree (mem s) (mem s') q' PGSIZE) as Hfr.
  { intros q' Hq' Hne Ho. apply agree_trans with (mem s1); [by apply memmove_page|].
    apply F; [done|]. by rewrite <- (owned_agree (mem s) (mem s1)). }
  assert (forall va, 0 <= va < sz -> upage (mem s') pgdir va =
    if va / PGSIZE =? a / PGSIZE then p else upage (mem s) pgdir va) as Hup.
  { intros va Hva. unfold upage at 1. rewrite Hpte by mmlia.
    destruct (Z.eqb_spec (va / PGSIZE) (a / PGSIZE)); [|done]. unfold v.
    rewrite <- Z.lor_assoc. by apply kpage_entry; [|apply flags_lor_P]. }
  split; [|split; [|split; [done|split]]].
  - apply (kinv_frame s1); [apply Hst|]. intros q' Hq'. apply F.
    + pose proof (kinv_pages _ _ Hk) as Hpg. apply Forall_cons in Hpg as [_ Hpg].
      by eapply Forall_forall in Hpg.
    + intros Ho. destruct (owned_kpage _ _ _ _ Hwf1 Ho). done.
  - split; [exact W|done|..].
    + intros va Hva. rewrite Hpte by mmlia. rewrite (proj2 (Z.eqb_neq _ _)) by mmlia.
      by apply (uw_kern _ _ _ _ Hwf).
    + intros va Hva. destruct (Hin va Hva) as (P1 & P2 & P3 & P4).
      apply not_elem_of_cons in P4 as [P4 P5].
      rewrite Hpte, Hup, Hown by (done || mmlia).
      destruct (Z.eqb_spec (va / PGSIZE) (a / PGSIZE)); [|done].
      split; [unfold v; by rewrite present_lor, orb_true_r|]. split; [done|]. split; [|done].
      by rewrite (owned_agree (mem s) (mem s1)).
    + intros va Hva. rewrite Hpte by mmlia. rewrite (proj2 (Z.eqb_neq _ _)) by mmlia.
      by apply (uw_out _ _ _ _ Hwf).
    + intros va va' Hva Hva'. rewrite !Hup by done.
      destruct (Hin va Hva) as (_ & _ & _ & P4), (Hin va' Hva') as (_ & _ & _ & P4').
      apply not_elem_of_cons in P4 as [P4 _], P4' as [P4' _].
      destruct (Z.eqb_spec (va / PGSIZE) (a / PGSIZE)),
        (Z.eqb_spec (va' / PGSIZE) (a / PGSIZE)); try congruence.
      by apply (uw_inj _ _ _ _ Hwf).
  - intros va Hva. unfold ubyte. rewrite Hup by done.
    destruct (Hin va Hva) as (_ & P2 & P3 & P4). apply not_elem_of_cons in P4 as [P4 _].
    destruct (Z.eqb_spec (va / PGSIZE) (a / PGSIZE)) as [E|].
    + assert (upage (mem s) pgdir va = q) as -> by
        (unfold q, upage; by rewrite (pte_same_page _ _ va a) by mmlia).
      destruct (memmove_page (mem s) p q q) as [_ Hb]; [done..|].
      rewrite <- Hb by mmlia. assert (agree (mem s1) (mem s') p PGSIZE) as Hx
        by (apply F; done). apply Hx. mmlia.
    + apply (Hfr _ P2 P4 P3). mmlia.
  - by apply Hfr.
Qed.

Lemma page_base m pgdir va : 0 <= va < 2 ^ 32 ->
  let a := va - va mod PGSIZE in
  pte_addr m pgdir a = pte_addr m pgdir va /\ pte m pgdir a = pte m pgdir va /\
  upage m pgdir a = upage m pgdir va.
Proof.
  intros Hva a. assert (a / PGSIZE = va / PGSIZE) as He by (unfold a; mmlia).
  assert (0 <= a < 2 ^ 32) as Har by (unfold a; mmlia).
  destruct (index_page a va Har Hva He) as [E1 E2].
  unfold upage, pte, pte_addr. by rewrite E1, E2.
Qed.

(** The index of a user page in [pte_array]. *)
Definition page_no (m : gmap Z Z) (pgdir va : Z) : Z := PTE_ADDR (pte m pgdir va) / PGSIZE.

Lemma page_no_big m pgdir va : kpage (upage m pgdir va) -> 1 < page_no m pgdir va.
Proof.
  intros Hk. pose proof Hk as (_ & Hlo & _). pose proof data_above. pose proof end_above.
  pose proof (pte_range m pgdir va) as He. unfold page_no, upage in *.
  rewrite PTE_ADDR_eq in * by done. unfold p2v, u32 in *. mmlia.
Qed.

Lemma refcount_insert s i j v :
  refcount (set_pte_array (<[i := v]> (pte_array s)) s) j =
    if j =? i then s8 v else refcount s j.
Proof.
  unfold refcount. simpl. destruct (Z.eqb_spec j i) as [->|Hne].
  - by rewrite lookup_insert_eq.
  - by rewrite lookup_insert_ne.
Qed.

Definition cow_flags : Z := Z.lor PTE_U PTE_W.

Lemma handle_cow_fault_run pgdir sz addr s p l :
  kinv s (p :: l) -> uvm_wf (mem s) pgdir sz (p :: l) -> L_pte_lookup ∉ held s ->
  0 <= addr < sz -> Z.land (pte (mem s) pgdir addr) PTE_W = 0 ->
  refcount s (page_no (mem s) pgdir addr) <> 0 -> refcount s 0 = 0 ->
  returns (handle_cow_fault (Some pgdir) addr) s (fun _ s' =>
    kinv s' l /\ uvm_wf (mem s') pgdir sz l /\
    (forall va, 0 <= va < 2 ^ 32 -> pte (mem s') pgdir va =
       if va / PGSIZE =? addr / PGSIZE then Z.lor (Z.lor (v2p p) cow_flags) PTE_P
       else pte (mem s) pgdir va) /\
    (forall va, 0 <= va < sz -> ubyte (mem s') pgdir va = ubyte (mem s) pgdir va) /\
    agree (mem s) (mem s') (upage (mem s) pgdir addr) PGSIZE /\
    (forall i, refcount s' i = if i =? page_no (mem s) pgdir addr
                               then s8 (refcount s i - 1) else refcount s i) /\
    held s' = held s).
Proof.
  intros Hk Hwf Hl Ha Hw Hc H0. pose proof (uw_size _ _ _ _ Hwf) as Hs.
  destruct (uw_in _ _ _ _ Hwf addr Ha) as (_ & Hkq & _ & _).
  destruct (walk_present (mem s) pgdir sz _ addr s eq_refl Hwf Ha) as (Hwk & Hnz & Hld).
  pose proof (page_no_big _ _ _ Hkq) as Hbig.
  unfold handle_cow_fault. rewrite (proj2 (Z.leb_gt _ _)) by lia. apply wp_bind.
  eapply returns_run; [exact Hwk|]. rewrite (proj2 (Z.eqb_neq _ 0) Hnz). ksteps.
  rewrite Hld, Hw. cbn [negb Z.eqb]. fold (page_no (mem s) pgdir addr).
  apply wp_bind, wp_acquire; [done|]. ksteps.
  change (refcount (set_held _ s) ?i) with (refcount s i).
  rewrite (proj2 (Z.eqb_neq (page_no _ _ _) 1)) by lia. rewrite H0, (proj2 (Z.eqb_neq _ 0) Hc).
  cbn [negb Z.eqb]. ksteps. cbn [mem set_held set_pte_array]. rewrite Hld.
  set (s1 := set_pte_array _ _).
  assert (kinv s1 (p :: l)) as Hk1.
  { destruct Hk as [K1 K2 K3 K4]. split; try done. unfold unlocked in *. simpl.
    intros Hx. apply not_elem_of_cons. split; [done|auto]. }
  eapply returns_run; [apply (kalloc_run s1 _ Hk1)|].
  pose proof (kinv_pages _ _ Hk) as Hpg. apply Forall_cons in Hpg as [Hp _].
  pose proof (kpage_range p Hp). rewrite (proj2 (Z.eqb_neq p 0)) by lia. ksteps.
  apply wp_release; simpl; [apply elem_of_cons; by left|]. rewrite release_top by done. ksteps.
  set (a := addr - addr mod PGSIZE).
  destruct (page_base (mem s) pgdir addr ltac:(mmlia)) as (Epa & Epte & Eup). fold a in Epa, Epte, Eup.
  destruct (remap_page s pgdir sz p l a cow_flags Hk Hwf) as (R1 & R2 & R3 & R4 & R5);
    [unfold a; mmlia|unfold a; mmlia|done|].
  rewrite Eup, Epa in R1, R2, R3, R4, R5.
  assert (Z.lor (Z.lor (Z.lor (v2p p) PTE_P) PTE_U) PTE_W =
          Z.lor (Z.lor (v2p p) cow_flags) PTE_P) as -> by (rewrite <- !Z.lor_assoc; done).
  fold (upage (mem s) pgdir addr).
  split; [|split; [exact R2|split; [|split; [exact R4|split; [exact R5|]]]]].
  - destruct R1 as [K1 K2 K3 K4]. by split.
  - intros va Hva. eapply eq_trans; [exact (R3 va Hva)|].
    by replace (a / PGSIZE) with (addr / PGSIZE) by (unfold a; mmlia).
  - split; [|done]. intros i. eapply eq_trans; [exact (refcount_insert s _ i _)|].
    by destruct (Z.eqb_spec i (page_no (mem s) pgdir addr)) as [->|].
Qed.

(** ** copyuvm_cow: one set of pages, two page tables *)

Definition rc_inc (c : Z) : Z := s8 (if c =? 0 then 2 else c + 1).

Definition no_write (e : Z) : Z := Z.land e (u32 (Z.lnot PTE_W)).

(** Pages [a] to [a + n * PGSIZE] of [pgdir] were shared with [d]: the child has the
    entries the parent had, the parent's lost PTE_W. *)
Record cow_shared (s : kst) (pgdir d : Z) (free : list Z) (a n : Z) (s' : kst)
  (free' : list Z) : Prop := {
  cw_inv : kinv s' free';
  cw_d : as_wf (mem s') d free';
  cw_p : as_wf (mem s') pgdir free';
  cw_sub : free' `suffix_of` free;
  cw_len : Z.of_nat (length free') + n <= Z.of_nat (length free) <=
    Z.of_nat (length free') + 2 * n;
  cw_dview va : 0 <= va < 2 ^ 32 -> pte (mem s') d va =
    if (a <=? va) && (va <? a + n * PGSIZE) then pte (mem s) pgdir va else pte (mem s) d va;
  cw_pview va : 0 <= va < 2 ^ 32 -> pte (mem s') pgdir va =
    if (a <=? va) && (va <? a + n * PGSIZE) then no_write (pte (mem s) pgdir va)
    else pte (mem s) pgdir va;
  cw_frame q : kpage q -> ~ owned (mem s) d q -> ~ owned (mem s) pgdir q -> q ∉ free ->
    agree (mem s) (mem s') q PGSIZE;
  cw_downed q : owned (mem s') d q -> owned (mem s) d q \/ q ∈ free;
  cw_powned q : owned (mem s') pgdir q <-> owned (mem s) pgdir q;
  cw_rc_in va : a <= va < a + n * PGSIZE ->
    refcount s' (page_no (mem s) pgdir va) = rc_inc (refcount s (page_no (mem s) pgdir va));
  cw_rc_out i : (forall va, a <= va < a + n * PGSIZE -> i <> page_no (mem s) pgdir va) ->
    refcount s' i = refcount s i;
  cw_held : held s' = held s }.

Lemma share_page_run pa s : L_pte_lookup ∉ held s ->
  share_page pa s = Done tt (set_pte_array (<[pa / PGSIZE :=
    if refcount s (pa / PGSIZE) =? 0 then 2 else refcount s (pa / PGSIZE) + 1]>
      (pte_array s)) s).
Proof.
  intros Hl. apply returns_eq. unfold share_page. apply wp_bind, wp_acquire; [done|]. ksteps.
  change (refcount (set_held _ s) ?i) with (refcount s i).
  destruct (refcount s (pa / PGSIZE) =? 0); ksteps;
    (apply wp_release; simpl; [apply elem_of_cons; by left|]);
    rewrite release_top by done; by destruct s.
Qed.

Lemma entry_split e : 0 <= e < 2 ^ 32 -> present e = true ->
  Z.lor (Z.lor (PTE_ADDR e) (PTE_FLAGS e)) PTE_P = e.
Proof.
  intros He Hp. rewrite <- Z.lor_assoc, present_flags by done.
  rewrite PTE_ADDR_eq, PTE_FLAGS_eq by done.
  rewrite (lor_aligned _ _ 12); [lia|lia|zlia|zlia].
Qed.

Lemma no_write_facts e : 0 <= e < 2 ^ 32 ->
  0 <= no_write e < 2 ^ 32 /\ PTE_ADDR (no_write e) = PTE_ADDR e /\
  present (no_write e) = present e.
Proof.
  intros He. assert (0 <= no_write e < 2 ^ 32) as Hr by (apply land_u32; [lia|vm_compute; done]).
  split; [done|]. split.
  - rewrite !PTE_ADDR_eq by done. enough (no_write e / 4096 = e / 4096) by zlia.
    change 4096 with (2 ^ 12). rewrite <- !Z.shiftr_div_pow2 by lia. unfold no_write.
    rewrite Z.shiftr_land. change (Z.shiftr (u32 (Z.lnot PTE_W)) 12) with (Z.ones 20).
    rewrite Z.land_ones, Z.shiftr_div_pow2 by lia. apply Z.mod_small. zlia.
  - rewrite !present_bit0. unfold no_write. rewrite Z.land_spec.
    change (Z.testbit (u32 (Z.lnot PTE_W)) 0) with true. apply andb_true_r.
Qed.

Lemma kinv_same s s' l : kinv s l -> mem s' = mem s -> freelist s' = freelist s ->
  use_lock s' = use_lock s -> held s' = held s -> kinv s' l.
Proof.
  intros [K1 K2 K3 K4] E1 E2 E3 E4. split; try done.
  - by rewrite E1, E2.
  - unfold unlocked. by rewrite E3, E4.
Qed.

Lemma in_page a va : a mod PGSIZE = 0 ->
  (va / PGSIZE =? a / PGSIZE) = (a <=? va) && (va <? a + PGSIZE).
Proof.
  intros Ha. destruct (Z.eqb_spec (va / PGSIZE) (a / PGSIZE)), (Z.leb_spec a va),
    (Z.ltb_spec va (a + PGSIZE)); simpl; done || mmlia.
Qed.

(** The parent's entry cleared of PTE_W last: what the iteration did as a whole. *)
Lemma cow_shared_intro s s2 s3 pgdir d p l free2 i e :
  let s1 := set_pte_array (<[PTE_ADDR e / PGSIZE :=
    if refcount s (PTE_ADDR e / PGSIZE) =? 0 then 2 else refcount s (PTE_ADDR e / PGSIZE) + 1]>
      (pte_array s)) (set_freelist (load32 (mem s) p) s) in
  as_wf (mem s) pgdir (p :: l) -> (forall q, owned (mem s) d q -> ~ owned (mem s) pgdir q) ->
  i mod PGSIZE = 0 -> 0 <= i < KERNBASE -> e = pte (mem s) pgdir i ->
  pt_step s1 d l s2 free2 -> (length l <= length free2 + 1)%nat ->
  (forall va, 0 <= va < 2 ^ 32 -> pte (mem s2) d va =
    if (i <=? va) && (va <? i + 1 * PGSIZE) then pte (mem s) pgdir va
    else pte (mem s) d va) ->
  (forall q, owned (mem s) pgdir q -> agree (mem s) (mem s2) q PGSIZE) ->
  rewritten (fun _ => no_write e) s2 pgdir free2 i (i + PGSIZE) s3 ->
  cow_shared s pgdir d (p :: l) i 1 s3 free2.
Proof.
  intros s1 Hp Hdis Hi Hir He [I2 W2 S2 F2 O2 R2] Hlen Hdv Hpag [W3 D3 F3 V3 (R3 & R4 & R5 & R6)].
  assert (agree (mem s) (mem s2) pgdir PGSIZE) as Hpag0 by (apply Hpag; by left).
  assert (forall q, owned (mem s2) pgdir q <-> owned (mem s) pgdir q) as Hop
    by (intros; by rewrite <- (owned_agree (mem s) (mem s2))).
  assert (forall q, owned (mem s2) d q -> kpage q /\ ~ owned (mem s2) pgdir q) as Hdk.
  { intros q Hq. split; [by destruct (owned_kpage _ _ _ _ W2 Hq)|]. rewrite Hop. intros Ho.
    apply O2 in Hq as [Hq|Hq]; [by apply (Hdis q)|].
    destruct (owned_kpage _ _ _ _ Hp Ho) as [_ Hf]. apply Hf, elem_of_cons. by right. }
  assert (forall q, owned (mem s2) d q -> agree (mem s2) (mem s3) q PGSIZE) as Hdag
    by (intros q Hq; apply F3; by apply Hdk).
  unfold rest in R2. injection R2 as Q1 Q2 Q3 Q4 Q5.
  assert (forall j, refcount s3 j = refcount s1 j) as Hrc
    by (intros; unfold refcount; by rewrite R5, Q2).
  assert (forall va, i <= va < i + PGSIZE -> pte (mem s) pgdir va = e) as Hpg
    by (intros; subst e; apply pte_same_page; mmlia).
  split.
  - destruct I2 as [K1 K2 K3 K4]. split; [|done|done|unfold unlocked in *; by rewrite R4, R6].
    rewrite R3. eapply flist_agree; [exact K1|]. intros q Hq. apply F3.
    + by eapply Forall_forall in K3.
    + rewrite Hop. intros Ho. destruct (owned_kpage _ _ _ _ Hp Ho) as [_ Hf].
      apply Hf, elem_of_cons. right. by eapply suffix_elem.
  - eapply as_wf_agree; [|exact W2]. apply Hdag. by left.
  - done.
  - etransitivity; [exact S2|]. by exists [p].
  - apply suffix_length in S2. simpl. lia.
  - intros va Hva. rewrite <- Hdv by done. by apply pte_agree.
  - intros va Hva. rewrite V3, Z.mul_1_l by done.
    destruct (Z.leb_spec i va), (Z.ltb_spec va (i + PGSIZE)); simpl;
      first [by rewrite Hpg | by apply pte_agree].
  - intros q Hq Hod Hop' Hf. apply not_elem_of_cons in Hf as [_ Hf].
    apply agree_trans with (mem s2); [by apply F2|]. apply F3; [done|by rewrite Hop].
  - intros q Hq. rewrite <- (owned_agree (mem s2)) in Hq by (apply Hdag; by left).
    apply O2 in Hq as [?|?]; [by left|right]. apply elem_of_cons. by right.
  - intros q. by rewrite (owned_pde (mem s2)), Hop.
  - intros va Hva. rewrite Hrc. unfold page_no. rewrite Hpg by lia.
    eapply eq_trans; [exact (refcount_insert s _ _ _)|]. by rewrite Z.eqb_refl.
  - intros j Hj. rewrite Hrc. eapply eq_trans; [exact (refcount_insert s _ _ _)|].
    rewrite (proj2 (Z.eqb_neq j _)); [done|]. subst e. apply (Hj i). mmlia.
  - by rewrite R6, Q4.
Qed.

(** The iteration, from the state after the (unused) [kalloc] on. *)
Lemma cow_page_step s pgdir d p l i (k : unit -> M kst Z) Q E :
  kinv s (p :: l) -> as_wf (mem s) d (p :: l) -> as_wf (mem s) pgdir (p :: l) -> l <> [] ->
  (forall q, owned (mem s) d q -> ~ owned (mem s) pgdir q) -> L_pte_lookup ∉ held s ->
  i mod PGSIZE = 0 -> 0 <= i < KERNBASE ->
  present (pde (mem s) pgdir (PDX i)) = true -> present (pte (mem s) pgdir i) = true ->
  (forall va, i <= va < i + PGSIZE -> present (pte (mem s) d va) = false) ->
  (forall s' free', cow_shared s pgdir d (p :: l) i 1 s' free' -> wp (k tt) s' Q E) ->
  let e := pte (mem s) pgdir i in let P := pte_addr (mem s) pgdir i in
  wp (share_page (PTE_ADDR e) ;;
      let! r := mappages d i PGSIZE (PTE_ADDR e) (PTE_FLAGS e) in
      if r <? 0 then cow_bad d
      else let! e := load P in store P (Z.land e (u32 (Z.lnot PTE_W))) ;; k tt)
    (set_freelist (load32 (mem s) p) s) Q E.
Proof.
  intros Hk Hd Hp Hl Hdis Hlk Hi Hir Hpd Hpe Hnp Hcont e P.
  pose proof (pte_range (mem s) pgdir i) as Her. fold e in Her.
  assert (pt_step s d (p :: l) (set_freelist (load32 (mem s) p) s) l) as Hst1.
  { destruct (take_page s d p l (fun m => m) Hk Hd) as (Hst & _); [done|done|]. by destruct s. }
  apply wp_bind. eapply wp_run; [by apply share_page_run|].
  set (s1 := set_pte_array _ _). assert (mem s1 = mem s) as Hm1 by done.
  assert (kinv s1 l) as Hk1 by (eapply kinv_same; [apply Hst1|done..]).
  assert (as_wf (mem s1) d l) as Hd1 by apply Hst1.
  apply wp_bind.
  eapply wp_mono; [apply (map_page s1 d l i (PTE_ADDR e) (PTE_FLAGS e)); try done; try mmlia|..|done].
  { rewrite PTE_ADDR_eq by done. zlia. } { rewrite PTE_FLAGS_eq by done. zlia. }
  intros r s2 (free2 & Hst2 & [(-> & Hlen & Hv)|(_ & -> & _)]); [|done].
  cbn [Z.ltb Z.compare].
  assert (forall va, 0 <= va < 2 ^ 32 -> pte (mem s2) d va =
    if (i <=? va) && (va <? i + 1 * PGSIZE) then pte (mem s) pgdir va
    else pte (mem s) d va) as Hdv.
  { intros va Hva. rewrite Hv, in_page, Z.mul_1_l by done.
    destruct (Z.leb_spec i va), (Z.ltb_spec va (i + PGSIZE)); simpl; try done.
    unfold e. rewrite entry_split by done. apply pte_same_page; mmlia. }
  assert (forall q, owned (mem s) pgdir q -> agree (mem s) (mem s2) q PGSIZE) as Hpag.
  { intros q Hq. destruct (owned_kpage _ _ _ _ Hp Hq) as [Hkq Hf].
    apply not_elem_of_cons in Hf as [_ Hf]. apply (ps_frame _ _ _ _ _ Hst2 q Hkq); [|done].
    intros Ho. by apply (Hdis q). }
  assert (agree (mem s) (mem s2) pgdir PGSIZE) as Hpag0 by (apply Hpag; by left).
  assert (free2 `suffix_of` p :: l) as Hsub2
    by (etransitivity; [apply Hst2|]; by exists [p]).
  assert (as_wf (mem s2) pgdir free2) as Hp2.
  { eapply as_wf_suffix; [by eapply as_wf_agree|]. intros q. by apply suffix_elem. }
  assert (pte_addr (mem s2) pgdir i = P) as HP2
    by (unfold P, pte_addr; by rewrite (pgtab_agree (mem s)) by (done || apply PDX_range)).
  assert (pte (mem s2) pgdir i = e) as He2 by (by apply pte_agree).
  assert (present (pde (mem s2) pgdir (PDX i)) = true) as Hpd2
    by (by rewrite (pde_agree (mem s)) by (done || apply PDX_range)).
  assert (load32 (mem s2) P = e) as Hld
    by (rewrite <- He2, <- HP2; unfold pte; by rewrite Hpd2).
  destruct (no_write_facts e Her) as (Hnr & _). ksteps. rewrite Hld. fold (no_write e).
  rewrite <- HP2.
  pose proof (store_entry s2 pgdir free2 i (no_write e) Hp2 Hpd2 Hi ltac:(mmlia) Hnr) as Hr.
  apply (Hcont _ free2). apply (cow_shared_intro s s2 _ pgdir d p l free2 i e); done.
Qed.

Lemma cow_shared_0 s pgdir d free a : kinv s free -> as_wf (mem s) d free ->
  as_wf (mem s) pgdir free -> cow_shared s pgdir d free a 0 s free.
Proof.
  intros Hk Hd Hp. split; try done; try lia.
  - intros va _. destruct (Z.leb_spec a va), (Z.ltb_spec va (a + 0 * PGSIZE)); simpl; done || lia.
  - intros va _. destruct (Z.leb_spec a va), (Z.ltb_spec va (a + 0 * PGSIZE)); simpl; done || lia.
  - by left.
Qed.

Lemma page_no_shared s pgdir d free a n s' free' va : cow_shared s pgdir d free a n s' free' ->
  0 <= va < 2 ^ 32 -> page_no (mem s') pgdir va = page_no (mem s) pgdir va.
Proof.
  intros Hc Hva. unfold page_no. rewrite (cw_pview _ _ _ _ _ _ _ _ Hc) by done.
  destruct (_ && _); [|done].
  by destruct (no_write_facts _ (pte_range (mem s) pgdir va)) as (_ & -> & _).
Qed.

Lemma cow_shared_cons s s1 s' pgdir d free free1 free' a n :
  a mod PGSIZE = 0 -> 0 <= a -> 0 <= n -> a + (n + 1) * PGSIZE <= 2 ^ 32 ->
  (forall va va', a <= va < a + (n + 1) * PGSIZE -> a <= va' < a + (n + 1) * PGSIZE ->
     page_no (mem s) pgdir va = page_no (mem s) pgdir va' -> va / PGSIZE = va' / PGSIZE) ->
  cow_shared s pgdir d free a 1 s1 free1 ->
  cow_shared s1 pgdir d free1 (a + PGSIZE) n s' free' ->
  cow_shared s pgdir d free a (n + 1) s' free'.
Proof.
  intros Ha Ha0 Hn Hhi Hinj C1 C2.
  assert (forall va, 0 <= va < 2 ^ 32 -> page_no (mem s1) pgdir va = page_no (mem s) pgdir va)
    as Hno by (intros; by eapply page_no_shared).
  destruct C1 as [A1 A2 A3 A4 A5 A6 A7 A8 A9 A10 A11 A12 A13].
  destruct C2 as [B1 B2 B3 B4 B5 B6 B7 B8 B9 B10 B11 B12 B13].
  replace (a + 1 * PGSIZE) with (a + PGSIZE) in * by lia.
  replace (a + PGSIZE + n * PGSIZE) with (a + (n + 1) * PGSIZE) in * by lia.
  split; [done|done|done|by etransitivity|lia|..].
  - intros va Hva. rewrite B6, A6, A7 by done.
    destruct (Z.leb_spec (a + PGSIZE) va), (Z.ltb_spec va (a + (n + 1) * PGSIZE)),
      (Z.leb_spec a va), (Z.ltb_spec va (a + PGSIZE)); simpl; done || mmlia.
  - intros va Hva. rewrite B7, A7 by done.
    destruct (Z.leb_spec (a + PGSIZE) va), (Z.ltb_spec va (a + (n + 1) * PGSIZE)),
      (Z.leb_spec a va), (Z.ltb_spec va (a + PGSIZE)); simpl; done || mmlia.
  - intros q Hq Hd Hp Hf. apply agree_trans with (mem s1); [auto|]. apply B8; [done| | |].
    + intros Ho. apply A9 in Ho. naive_solver.
    + by rewrite A10.
    + intros Hx. eapply suffix_elem in Hx; [|exact A4]. done.
  - intros q Hq. apply B9 in Hq as [Hq|Hq]; [by apply A9|right]. by eapply suffix_elem.
  - intros q. by rewrite B10.
  - intros va Hva. destruct (Z.ltb_spec va (a + PGSIZE)).
    + rewrite B12; [apply A11; lia|]. intros va' Hva'. rewrite Hno by mmlia. intros He.
      apply Hinj in He; mmlia.
    + rewrite <- Hno by mmlia. rewrite B11 by lia. f_equal. rewrite Hno by mmlia.
      apply A12. intros va' Hva' He. apply Hinj in He; mmlia.
  - intros i Hi. rewrite B12.
    + apply A12. intros va Hva. apply Hi. mmlia.
    + intros va Hva. rewrite Hno by mmlia. apply Hi. mmlia.
  - congruence.
Qed.

Lemma copyuvm_cow_loop_ok n fuel pgdir d i sz s free :
  (n < fuel)%nat -> i mod PGSIZE = 0 -> 0 <= i ->
  sz <= i + Z.of_nat n * PGSIZE -> i + Z.of_nat n * PGSIZE < sz + PGSIZE \/ n = O ->
  sz < KERNBASE -> kinv s free -> as_wf (mem s) d free -> as_wf (mem s) pgdir free ->
  (forall q, owned (mem s) d q -> ~ owned (mem s) pgdir q) -> L_pte_lookup ∉ held s ->
  (2 * n <= length free)%nat ->
  (forall va, i <= va < i + Z.of_nat n * PGSIZE -> present (pte (mem s) pgdir va) = true) ->
  (forall va va', i <= va < i + Z.of_nat n * PGSIZE -> i <= va' < i + Z.of_nat n * PGSIZE ->
     page_no (mem s) pgdir va = page_no (mem s) pgdir va' -> va / PGSIZE = va' / PGSIZE) ->
  (forall va, i <= va < i + Z.of_nat n * PGSIZE -> present (pte (mem s) d va) = false) ->
  returns (copyuvm_cow_loop fuel pgdir d i sz) s (fun r s' => r = d /\ exists s1 free',
    s' = set_cr3 (v2p pgdir) s1 /\ cow_shared s pgdir d free i (Z.of_nat n) s1 free').
Proof.
  revert fuel i s free. induction n as [|n IH];
    intros fuel i s free Hf Hi Hi0 Hhi Hlo Hs Hk Hd Hp Hdis Hlk Hlen Hpr Hinj Hnp;
    (destruct fuel as [|fuel]; [lia|]); cbn [copyuvm_cow_loop].
  { rewrite (proj2 (Z.ltb_ge i sz)) by lia. ksteps. split; [done|]. exists s, free.
    split; [done|]. by apply cow_shared_0. }
  rewrite (proj2 (Z.ltb_lt i sz)) by mmlia.
  assert (present (pte (mem s) pgdir i) = true) as Hpe by (apply Hpr; mmlia).
  assert (present (pde (mem s) pgdir (PDX i)) = true) as Hpd.
  { unfold pte in Hpe. destruct (present (pde _ _ _)); [done|by rewrite present_0 in Hpe]. }
  apply wp_bind. eapply wp_run; [apply walkpgdir_run|]. rewrite Hpd.
  destruct (wf_tab _ _ _ Hp (PDX i)) as (Hkt & _); [apply PDX_range|by rewrite Hpd|].
  pose proof (kpage_range _ Hkt). pose proof (PTX_range i).
  rewrite (proj2 (Z.eqb_neq _ 0)) by (unfold pte_addr; lia). ksteps.
  assert (load32 (mem s) (pte_addr (mem s) pgdir i) = pte (mem s) pgdir i) as ->
    by (unfold pte; by rewrite Hpd).
  assert ((Z.land (pte (mem s) pgdir i) PTE_P =? 0) = false) as ->
    by (by apply negb_true_iff in Hpe).
  destruct free as [|p [|p2 l]]; [simpl in Hlen; lia..|].
  apply wp_bind. eapply wp_run; [apply (kalloc_run s _ Hk)|].
  pose proof (kinv_pages _ _ Hk) as Hpg. apply Forall_cons in Hpg as [Hpp _].
  pose proof (kpage_range p Hpp). rewrite (proj2 (Z.eqb_neq p 0)) by lia.
  apply (cow_page_step s pgdir d p (p2 :: l) i
           (fun _ => copyuvm_cow_loop fuel pgdir d (u32 (i + PGSIZE)) sz)); try done; try mmlia.
  { intros va Hva. apply Hnp. mmlia. }
  intros s1 free1 Hc. pose proof Hc as [C1 C2 C3 C4 C5 C6 C7 C8 C9 C10 C11 C12 C13].
  rewrite u32_small by mmlia. simpl length in *.
  assert (forall va, 0 <= va < 2 ^ 32 -> page_no (mem s1) pgdir va = page_no (mem s) pgdir va)
    as Hno by (intros; by eapply page_no_shared).
  assert (forall va, i + PGSIZE <= va < i + PGSIZE + Z.of_nat n * PGSIZE ->
    pte (mem s1) d va = pte (mem s) d va /\ pte (mem s1) pgdir va = pte (mem s) pgdir va) as Hv1.
  { intros va Hva. rewrite C6, C7 by mmlia.
    rewrite (proj2 (Z.ltb_ge va _)), andb_false_r by mmlia. done. }
  eapply wp_mono; [apply (IH fuel (i + PGSIZE) s1 free1); try done; try mmlia|..|done].
  - intros q Hq. rewrite C10. apply C9 in Hq as [Hq|Hq]; [auto|]. intros Ho.
    by destruct (owned_kpage _ _ _ _ Hp Ho).
  - by rewrite C13.
  - intros va Hva. destruct (Hv1 va Hva) as [_ ->]. apply Hpr. mmlia.
  - intros va va' Hva Hva'. rewrite !Hno by mmlia. apply Hinj; mmlia.
  - intros va Hva. destruct (Hv1 va Hva) as [-> _]. apply Hnp. mmlia.
  - intros r s' (-> & s2 & free' & -> & Hc2). split; [done|]. exists s2, free'. split; [done|].
    replace (Z.of_nat (S n)) with (Z.of_nat n + 1) in * by lia.
    eapply cow_shared_cons; try done; try mmlia.
Qed.

Lemma page_no_upage m m' pgdir d va va' :
  page_no m pgdir va = page_no m' d va' -> upage m pgdir va = upage m' d va'.
Proof.
  pose proof (pte_range m pgdir va). pose proof (pte_range m' d va').
  unfold page_no, upage. rewrite !PTE_ADDR_eq by done. intros He. f_equal. mmlia.
Qed.

(** What [copyuvm_cow] leaves: two address spaces on the parent's pages. *)
Record cow_copied (s : kst) (pgdir sz d : Z) (s' : kst) : Prop := {
  cc_child va : 0 <= va < sz -> pte (mem s') d va = pte (mem s) pgdir va;
  cc_parent va : 0 <= va < sz -> pte (mem s') pgdir va = no_write (pte (mem s) pgdir va);
  cc_byte va : 0 <= va < sz -> ubyte (mem s') d va = ubyte (mem s) pgdir va /\
    ubyte (mem s') pgdir va = ubyte (mem s) pgdir va;
  cc_count va : 0 <= va < sz ->
    refcount s' (page_no (mem s) pgdir va) = rc_inc (refcount s (page_no (mem s) pgdir va)) }.

(** From the state [s1] after [setupkvm] to the end of the loop. *)
Lemma cow_shared_wf s s1 pgdir d sz n free free1 s' free' :
  uvm_wf (mem s) pgdir sz free -> sz <= n * PGSIZE < sz + PGSIZE -> n * PGSIZE <= KERNBASE ->
  untouched s free s1 -> pte_array s1 = pte_array s -> (forall q, q ∈ free1 -> q ∈ free) ->
  (forall q, owned (mem s1) d q -> q ∈ free) ->
  (forall va, 0 <= va < 2 ^ 32 -> pte (mem s1) d va = kernel_view va) ->
  cow_shared s1 pgdir d free1 0 n s' free' ->
  uvm_wf (mem s') d sz free' /\ uvm_wf (mem s') pgdir sz free' /\
  cow_copied s pgdir sz d s'.
Proof.
  intros Hwf Hn Hnk Hu Hrc Hsub Hown Hkv [C1 C2 C3 C4 C5 C6 C7 C8 C9 C10 C11 C12 C13].
  pose proof (uw_size _ _ _ _ Hwf) as Hs. pose proof (uw_as _ _ _ _ Hwf) as Has.
  destruct (PGROUNDUP_user sz Hs) as (U1 & U2 & U3 & U4).
  assert (PGROUNDUP sz = n * PGSIZE) as Hup by (unfold PGSIZE in *; zlia).
  assert (forall q, owned (mem s) pgdir q -> agree (mem s) (mem s1) q PGSIZE) as Hag.
  { intros q Hq. destruct (owned_kpage _ _ _ _ Has Hq). by apply Hu. }
  assert (forall va, pte (mem s1) pgdir va = pte (mem s) pgdir va) as Hp1
    by (intros; by apply pte_agree).
  assert (forall q, owned (mem s1) pgdir q <-> owned (mem s) pgdir q) as Ho1
    by (intros; rewrite <- (owned_agree (mem s) (mem s1)); [done|]; apply Hag; by left).
  assert (forall va, 0 <= va < PGROUNDUP sz -> pte (mem s') d va = pte (mem s) pgdir va /\
    pte (mem s') pgdir va = no_write (pte (mem s) pgdir va)) as Hin.
  { intros va Hva. rewrite C6, C7, !Hp1 by mmlia.
    rewrite (proj2 (Z.leb_le 0 va)), (proj2 (Z.ltb_lt va _)) by lia. done. }
  assert (forall va, PGROUNDUP sz <= va < 2 ^ 32 -> pte (mem s') d va = kernel_view va /\
    pte (mem s') pgdir va = pte (mem s) pgdir va) as Hout.
  { intros va Hva. rewrite C6, C7, Hp1, Hkv by lia.
    rewrite (proj2 (Z.ltb_ge va _)), andb_false_r by lia. done. }
  assert (forall va, 0 <= va < PGROUNDUP sz ->
    upage (mem s') d va = upage (mem s) pgdir va /\
    upage (mem s') pgdir va = upage (mem s) pgdir va) as Hupg.
  { intros va Hva. destruct (Hin va Hva) as [E1 E2]. unfold upage. rewrite E1, E2.
    by destruct (no_write_facts _ (pte_range (mem s) pgdir va)) as (_ & -> & _). }
  assert (forall q, q ∈ free' -> q ∈ free) as Hsub'
    by (intros; apply Hsub; by eapply suffix_elem).
  assert (forall q, owned (mem s') d q -> q ∈ free) as Hown'.
  { intros q Hq. apply C9 in Hq. naive_solver. }
  split; [|split].
  - split; [done|done|..].
    + intros va Hva. apply Hout. lia.
    + intros va Hva. destruct (uw_in _ _ _ _ Hwf va Hva) as (P1 & P2 & P3 & P4).
      destruct (Hin va ltac:(lia)) as [-> _], (Hupg va ltac:(lia)) as [-> _]. naive_solver.
    + intros va Hva. destruct (Hout va ltac:(mmlia)) as [-> _]. unfold kernel_view.
      rewrite (proj2 (Z.leb_gt KERNBASE va)), (proj2 (Z.leb_gt DEVSPACE va)) by mmlia.
      apply present_0.
    + intros va va' Hva Hva'. destruct (Hupg va ltac:(lia)) as [-> _],
        (Hupg va' ltac:(lia)) as [-> _]. by apply (uw_inj _ _ _ _ Hwf).
  - split; [done|done|..].
    + intros va Hva. destruct (Hout va ltac:(lia)) as [_ ->]. by apply (uw_kern _ _ _ _ Hwf).
    + intros va Hva. destruct (uw_in _ _ _ _ Hwf va Hva) as (P1 & P2 & P3 & P4).
      rewrite C10, Ho1. destruct (Hin va ltac:(lia)) as [_ ->], (Hupg va ltac:(lia)) as [_ ->].
      destruct (no_write_facts _ (pte_range (mem s) pgdir va)) as (_ & _ & ->). naive_solver.
    + intros va Hva. destruct (Hout va ltac:(mmlia)) as [_ ->]. by apply (uw_out _ _ _ _ Hwf).
    + intros va va' Hva Hva'. destruct (Hupg va ltac:(lia)) as [_ ->],
        (Hupg va' ltac:(lia)) as [_ ->]. by apply (uw_inj _ _ _ _ Hwf).
  - split; intros va Hva; [apply Hin; lia|apply Hin; lia| |].
    + destruct (uw_in _ _ _ _ Hwf va Hva) as (P1 & P2 & P3 & P4).
      assert (agree (mem s) (mem s') (upage (mem s) pgdir va) PGSIZE) as Hb.
      { apply agree_trans with (mem s1); [by apply Hu|]. apply C8; [done| | |].
        - intros Ho. auto.
        - by rewrite Ho1.
        - intros Hx. auto. }
      unfold ubyte. destruct (Hupg va ltac:(lia)) as [-> ->]. split; apply Hb; mmlia.
    + assert (page_no (mem s1) pgdir va = page_no (mem s) pgdir va) as He
        by (unfold page_no; by rewrite Hp1).
      rewrite <- He, C11 by lia. unfold refcount. by rewrite Hrc.
Qed.

Lemma copyuvm_cow_run pgdir sz s free :
  kinv s free -> uvm_wf (mem s) pgdir sz free -> L_pte_lookup ∉ held s ->
  KVM_PAGES + 2 * Z.of_nat (new_pages 0 sz) <= Z.of_nat (length free) ->
  returns (copyuvm_cow pgdir sz) s (fun d s' => exists free',
    d ∈ free /\ kinv s' free' /\ uvm_wf (mem s') d sz free' /\
    uvm_wf (mem s') pgdir sz free' /\ cow_copied s pgdir sz d s' /\
    Z.of_nat (length free') + Z.of_nat (new_pages 0 sz) + 1 <= Z.of_nat (length free)).
Proof.
  intros Hk Hwf Hlk Hlen. pose proof (uw_size _ _ _ _ Hwf) as Hs.
  pose proof (new_pages_eq 0 sz ltac:(lia) ltac:(lia)) as Hnp.
  destruct (PGROUNDUP_user sz Hs) as (V1 & V2 & V3 & V4).
  change (PGROUNDUP 0) with 0 in Hnp. set (n := new_pages 0 sz) in *.
  destruct free as [|d l]; [unfold KVM_PAGES in Hlen; simpl in Hlen; lia|].
  pose proof (kinv_pages _ _ Hk) as Hpg. apply Forall_cons in Hpg as [Hd _].
  unfold copyuvm_cow. apply wp_bind.
  eapply wp_mono; [apply (setupkvm_ok s d l Hk); unfold KVM_PAGES in *; lia| |done].
  intros r s1 (-> & free1 & Hk1 & Hwf1 & Hsub & Hl1 & Hv1 & Ho1 & Hf1 & Hr1).
  unfold rest in Hr1. injection Hr1 as Q1 Q2 Q3 Q4 Q5.
  pose proof (kpage_range d Hd). rewrite (proj2 (Z.eqb_neq d 0)) by lia.
  assert (forall q, q ∈ free1 -> q ∈ d :: l) as Hsub1
    by (intros q Hq; apply elem_of_cons; right; by eapply suffix_elem).
  assert (uvm_wf (mem s1) pgdir sz free1) as Hwp by (by eapply uvm_wf_frame).
  assert (forall va, 0 <= va < KERNBASE -> present (pte (mem s1) d va) = false) as Hlow.
  { intros va Hva. rewrite Hv1 by mmlia. unfold kernel_view.
    rewrite (proj2 (Z.leb_gt KERNBASE va)), (proj2 (Z.leb_gt DEVSPACE va)) by mmlia.
    apply present_0. }
  assert (forall q, owned (mem s1) d q -> ~ owned (mem s1) pgdir q) as Hdis.
  { intros q Hq Hq'. rewrite <- (owned_agree (mem s) (mem s1)) in Hq'.
    - apply (owned_kpage _ _ _ _ (uw_as _ _ _ _ Hwf)) in Hq' as [_ Hx]. by apply Hx, Ho1.
    - apply Hf1; apply (uw_as _ _ _ _ Hwf). }
  remember (PGROUNDUP sz) as V eqn:EV.
  eapply wp_mono; [apply (copyuvm_cow_loop_ok n _ pgdir d 0 sz s1 free1); try done|..|done].
  - unfold PGSIZE in *. zlia.
  - lia.
  - unfold PGSIZE in *. lia.
  - lia.
  - apply Hwp.
  - by rewrite Q4.
  - lia.
  - intros va Hva. apply (uw_in_page _ _ _ _ va Hwp). rewrite <- EV. lia.
  - intros va va' Hva Hva' He. apply page_no_upage in He.
    apply (sp_inj _ _ _ _ (uvm_wf_space _ _ _ _ Hwp)); [lia|lia|unfold below; mmlia..|done].
  - intros va Hva. apply Hlow. lia.
  - intros r s' (-> & s2 & free' & -> & Hc).
    destruct (cow_shared_wf s s1 pgdir d sz (Z.of_nat n) (d :: l) free1 s2 free')
      as (W1 & W2 & W3); try done; try lia.
    exists free'. split; [apply elem_of_cons; by left|].
    split; [eapply kinv_same; [apply Hc|done..]|]. split; [done|]. split; [done|].
    split; [destruct W3; by split|]. pose proof (cw_len _ _ _ _ _ _ _ _ Hc).
    apply suffix_length in Hsub. simpl length. lia.
Qed.
End cow.
