(* ===== verification/VmTheorems.v ===== *)
(** * What the memory system promises

    The properties of kalloc.c and vm.c, each with a concrete case in which its
    hypotheses hold: the memory the kernel boots with, and the first address
    space on it. *)

From S2P Require Import Prelude Mmu Memory Kstate Kalloc PageTable Uvm UvmFree Boot Cow.

Section vm_theorems.
Context `{Layout}.

(** C22. The page allocator refines a stack of free pages: any sequence of
    [kalloc] and [kfree] calls that frees only pages it may free runs to the end
    without a panic and gives the results of the stack.  In particular no page
    is handed out twice. *)
Theorem kalloc_refines_stack ops s l rs l' :
  kinv s l -> kspecs ops l = Some (rs, l') ->
  returns (kexecs ops) s (fun rs' s' => rs' = rs /\ kinv s' l' /\ held s' = held s).
Proof. apply kexecs_refines. Qed.

(** [kfree] of an address that is not a page above the kernel and below
    PHYSTOP panics and changes nothing. *)
Theorem kfree_panics s v : ~ kpage v -> 0 <= v < 2 ^ 32 ->
  kfree v s = Stop (Panicked "kfree") s.
Proof. apply kfree_bad. Qed.

(** The memory part of boot: after kinit1, kvmalloc and kinit2 the free list
    is a duplicate-free list that has every page from 4MB to PHYSTOP, and the
    page table in %cr3 maps the kernel and nothing below KERNBASE. *)
Theorem boot_memory m : PGROUNDUP end_ + KVM_PAGES * PGSIZE <= MB4 ->
  returns main_memory (kst0 m) (fun d s' => exists free',
    kinv s' free' /\ uvm_wf (mem s') d 0 free' /\ cr3 s' = v2p d /\
    use_lock s' = true /\ held s' = [] /\ pte_array s' = ∅ /\
    (forall q, kpage q -> MB4 <= q -> q ∈ free') /\ 56320 <= Z.of_nat (length free')).
Proof. apply main_memory_ok. Qed.

(** [mappages] on unmapped pages: either it returns 0, and exactly the pages
    that [va, va + size) touches are mapped, in order from [pa] on, with
    [perm]; or it returns -1 because the allocator ran out, with some first
    pages mapped.  It takes memory from the allocator only, and touches no
    other page table and no data. *)
Theorem mappages_spec pgdir va size pa perm s free :
  0 <= va -> 0 < size -> va + size <= 2 ^ 32 ->
  let a := va - va mod PGSIZE in
  let n := (va + size - 1) / PGSIZE - va / PGSIZE + 1 in
  0 <= pa -> pa + (n - 1) * PGSIZE < 2 ^ 32 -> 0 <= perm < 4096 ->
  kinv s free -> as_wf (mem s) pgdir free ->
  (forall va', a <= va' < a + n * PGSIZE -> present (pte (mem s) pgdir va') = false) ->
  returns (mappages pgdir va size pa perm) s (map_post s pgdir free a n pa perm).
Proof. apply mappages_ok. Qed.

(** C23. [allocuvm] with two free pages for each new one returns the new size, keeps
    the invariant, gives user code zeroed writable pages and leaves what was
    mapped as it was. *)
Theorem allocuvm_spec pgdir oldsz newsz s free :
  kinv s free -> uvm_wf (mem s) pgdir oldsz free -> oldsz <= newsz < KERNBASE ->
  (2 * new_pages oldsz newsz <= length free)%nat ->
  returns (allocuvm pgdir oldsz newsz) s (fun r s' => r = newsz /\ exists free',
    kinv s' free' /\ uvm_wf (mem s') pgdir newsz free' /\
    forall va, 0 <= va < PGROUNDUP newsz ->
      if va <? PGROUNDUP oldsz
      then pte (mem s') pgdir va = pte (mem s) pgdir va /\
           ubyte (mem s') pgdir va = ubyte (mem s) pgdir va
      else user_may true (pte (mem s') pgdir va) = true /\ ubyte (mem s') pgdir va = 0).
Proof.
  intros Hk Hwf Hsz Hlen. pose proof (uw_size _ _ _ _ Hwf) as Hs.
  pose proof (new_pages_eq oldsz newsz ltac:(lia) ltac:(lia)) as Hn.
  destruct (PGROUNDUP_user oldsz Hs) as (_ & Ho & _).
  destruct (PGROUNDUP_user newsz ltac:(lia)) as (_ & Hw & _).
  eapply returns_mono; [by apply (allocuvm_run pgdir oldsz newsz s free)|].
  intros r s' (-> & free' & Hk' & Hwf' & _ & Hg). split; [done|]. exists free'.
  split; [done|]. split; [done|]. intros va Hva.
  assert (forall va : Z, 0 <= (fun _ => Z.lor PTE_W PTE_U) va < 4096) as Hfl by done.
  destruct (grown_ubyte _ _ _ _ oldsz _ (Z.of_nat (new_pages oldsz newsz)) _ _ va Hfl Hwf
              ltac:(lia) ltac:(lia) Hg) as [G1 G2].
  destruct (Z.ltb_spec va (PGROUNDUP oldsz)).
  - split; [|auto]. apply (gr_old _ _ _ _ _ _ _ _ _ Hg); [mmlia|by left].
  - split; [|apply G2; lia].
    destruct (gr_new _ _ _ _ _ _ _ _ _ Hg va ltac:(lia)) as (q & -> & _).
    rewrite user_may_bits, !Z.lor_spec. change (Z.testbit PTE_P 0) with true.
    change (Z.testbit (Z.lor PTE_W PTE_U) 1) with true.
    change (Z.testbit (Z.lor PTE_W PTE_U) 2) with true. by rewrite !orb_true_r.
Qed.

(** [deallocuvm] of pages that no other address space maps: it returns the new
    size and keeps the invariant; the pages that went are on the free list,
    those that stay read as before. *)
Theorem deallocuvm_spec pgdir sz newsz s free :
  kinv s free -> L_pte_lookup ∉ held s -> uvm_wf (mem s) pgdir sz free ->
  0 <= newsz < sz -> (forall va, newsz <= va < pages sz * PGSIZE -> unshared s pgdir va) ->
  returns (deallocuvm pgdir sz newsz) s (fun r s' => r = newsz /\ exists free',
    kinv s' free' /\ uvm_wf (mem s') pgdir newsz free' /\
    (forall q, q ∈ free' <-> q ∈ free \/ exists p, pages newsz <= p < pages sz /\
       q = upage (mem s) pgdir (p * PGSIZE)) /\
    forall va, 0 <= va < newsz -> ubyte (mem s') pgdir va = ubyte (mem s) pgdir va).
Proof.
  intros Hk Hl Hwf Hn Hun. pose proof (uw_size _ _ _ _ Hwf) as Hs.
  destruct (pages_eq sz Hs) as (_ & _ & _ & Hp).
  destruct (pages_eq newsz ltac:(lia)) as (_ & _ & _ & Hp').
  eapply returns_mono; [apply (deallocuvm_run pgdir sz sz newsz s free); done || lia|].
  intros r s' (-> & free' & Hsh). split; [done|]. exists free'.
  split; [apply Hsh|]. split; [eapply shrunk_uvm_wf; [done|lia|exact Hsh]|].
  split; [apply Hsh|]. intros va Hva.
  eapply (shrunk_ubyte _ _ (pages newsz) (pages sz)); [done|lia| |lia|exact Hsh].
  unfold PGSIZE in *. zlia.
Qed.

(** C4. [copyuvm] is a deep copy: the child has the parent's bytes and flags at every
    address, in pages that are none of the parent's, and the parent is as it
    was.  Both address spaces satisfy the invariant afterwards. *)
Theorem copyuvm_spec pgdir sz s free :
  kinv s free -> uvm_wf (mem s) pgdir sz free ->
  KVM_PAGES + 2 * Z.of_nat (new_pages 0 sz) <= Z.of_nat (length free) ->
  returns (copyuvm pgdir sz) s (fun d s' => exists free',
    d ∈ free /\ kinv s' free' /\ uvm_wf (mem s') d sz free' /\
    uvm_wf (mem s') pgdir sz free' /\ copied s pgdir sz d s').
Proof.
  intros Hk Hwf Hl. eapply returns_mono; [by apply copyuvm_run|].
  intros d s' (free' & H1 & H2 & H3 & H4 & H5 & _). by exists free'.
Qed.

(** C24. [freevm] gives everything back: afterwards the free list has, beside what it
    had, the pages of user memory, of the page tables and of the directory, and
    no other page changed. *)
Theorem freevm_spec pgdir sz s free :
  kinv s free -> L_pte_lookup ∉ held s -> uvm_wf (mem s) pgdir sz free ->
  (forall va, 0 <= va < pages sz * PGSIZE -> unshared s pgdir va) ->
  returns (freevm pgdir) s (fun _ s' => exists free',
    kinv s' free' /\
    (forall q, q ∈ free' <-> q ∈ free \/ owned (mem s) pgdir q \/
       exists p, 0 <= p < pages sz /\ q = upage (mem s) pgdir (p * PGSIZE)) /\
    (forall q, kpage q -> q ∉ free' -> agree (mem s) (mem s') q PGSIZE)).
Proof.
  intros Hk Hl Hwf Hun. eapply returns_mono; [by apply (freevm_run pgdir sz s free)|].
  naive_solver.
Qed.


(** [mprotect] does not check its range: on the addresses the kernel is mapped
    at, PROT_READ|PROT_WRITE succeeds and lets user code write the page. *)
Theorem mprotect_opens_kernel pgdir sz addr s free :
  uvm_wf (mem s) pgdir sz free -> KERNBASE <= addr < KERNBASE + PHYSTOP -> addr mod PGSIZE = 0 ->
  returns (mprotect pgdir addr 1 3) s (fun r s' => r = 0 /\
    user_may true (pte (mem s') pgdir addr) = true /\
    PTE_ADDR (pte (mem s') pgdir addr) = addr - KERNBASE).
Proof.
  intros Hwf Ha Hal. pose proof (uw_kern _ _ _ _ Hwf) as Hkv.
  assert (prot_end addr 1 = addr + PGSIZE) as Hend by (unfold prot_end; mmlia).
  assert (PGROUNDDOWN addr = addr) as Hdn by (rewrite PGROUNDDOWN_eq by mmlia; mmlia).
  eapply returns_mono;
    [apply (mprotect_run pgdir addr 1 3 s free); [mmlia|lia|mmlia|apply Hwf|]|].
  { rewrite Hend, Hdn. intros va Hva. pose proof (Hkv va ltac:(mmlia)) as Hp.
    unfold pte in Hp. destruct (present (pde _ _ _)); [done|]. exfalso.
    destruct (kernel_view_ram va) as [Hpk _]; [mmlia|].
    by rewrite <- Hp, present_0 in Hpk. }
  intros r s' (-> & _ & Hrw). split; [done|].
  rewrite (rw_pte _ _ _ _ _ _ _ Hrw), Hend, Hdn by mmlia.
  rewrite (proj2 (Z.leb_le _ _)), (proj2 (Z.ltb_lt _ _)) by mmlia. simpl.
  split; [by apply new_entry_access|].
  destruct (new_entry_addr 3 (pte (mem s) pgdir addr)) as [-> _]; [apply pte_range|].
  rewrite Hkv by mmlia. destruct (kernel_view_ram addr Ha) as [_ ->]. lia.
Qed.

(** A range that ends in the last page of the address space is never left: the
    loop variable wraps to 0 below every bound, so [mprotect] does not return,
    whatever the state and however long it runs. *)
Theorem mprotect_no_return fuel pgdir addr len prot s :
  2 ^ 32 - PGSIZE < u32 (addr + len) ->
  wp (mprotect_loop fuel pgdir (PGROUNDDOWN addr) (u32 (addr + len)) prot) s
    (fun _ _ => False) (fun _ _ => True).
Proof.
  intros Hs. apply mprotect_loop_never; [|done].
  assert (PGROUNDDOWN addr = PGROUNDDOWN (u32 addr)) as ->
    by (unfold PGROUNDDOWN; by rewrite u32_u32).
  pose proof (u32_range addr). rewrite PGROUNDDOWN_eq by done. mmlia.
Qed.

(** C37. [copyuvm_cow] shares: parent and child map the same pages with the same
    bytes, and the count of each page goes up.  Only the parent loses PTE_W: a
    page the parent could write stays writable for the child, so a store of the
    child goes to the page the parent reads.  And one page is taken from the
    allocator for each page shared, to no use. *)
Theorem copyuvm_cow_spec pgdir sz s free :
  kinv s free -> uvm_wf (mem s) pgdir sz free -> L_pte_lookup ∉ held s ->
  KVM_PAGES + 2 * Z.of_nat (new_pages 0 sz) <= Z.of_nat (length free) ->
  returns (copyuvm_cow pgdir sz) s (fun d s' => exists free',
    kinv s' free' /\ uvm_wf (mem s') d sz free' /\ uvm_wf (mem s') pgdir sz free' /\
    Z.of_nat (length free') + Z.of_nat (new_pages 0 sz) + 1 <= Z.of_nat (length free) /\
    forall va, 0 <= va < sz ->
      upage (mem s') d va = upage (mem s') pgdir va /\
      ubyte (mem s') d va = ubyte (mem s) pgdir va /\
      ubyte (mem s') pgdir va = ubyte (mem s) pgdir va /\
      refcount s' (page_no (mem s) pgdir va) =
        rc_inc (refcount s (page_no (mem s) pgdir va)) /\
      user_may true (pte (mem s') pgdir va) = false /\
      user_may true (pte (mem s') d va) = user_may true (pte (mem s) pgdir va)).
Proof.
  intros Hk Hwf Hl Hlen. eapply returns_mono; [by apply (copyuvm_cow_run pgdir sz s free)|].
  intros d s' (free' & _ & Hk' & Hw1 & Hw2 & [C1 C2 C3 C4] & Hlen').
  exists free'. repeat (split; [done|]). intros va Hva.
  destruct (C3 va Hva) as [B1 B2]. split; [|split; [done|split; [done|split; [auto|]]]].
  - unfold upage. rewrite C1, C2 by done.
    by destruct (no_write_facts _ (pte_range (mem s) pgdir va)) as (_ & -> & _).
  - rewrite C1, C2 by done. split; [|done]. rewrite user_may_bits. unfold no_write.
    rewrite !Z.land_spec. change (Z.testbit (u32 (Z.lnot PTE_W)) 1) with false.
    by rewrite andb_false_r, orb_false_l, andb_false_r.
Qed.

(** C38. [handle_cow_fault] on a write to a shared page: the process gets a fresh
    page with the same bytes that it may write; nothing else of its address
    space changes, the page it shared is untouched, and its count goes down by
    one.  (The shared page is not freed, also when the count was one.) *)
Theorem handle_cow_fault_spec pgdir sz addr s p l :
  kinv s (p :: l) -> uvm_wf (mem s) pgdir sz (p :: l) -> L_pte_lookup ∉ held s ->
  0 <= addr < sz -> Z.land (pte (mem s) pgdir addr) PTE_W = 0 ->
  refcount s (page_no (mem s) pgdir addr) <> 0 -> refcount s 0 = 0 ->
  returns (handle_cow_fault (Some pgdir) addr) s (fun _ s' =>
    kinv s' l /\ uvm_wf (mem s') pgdir sz l /\
    upage (mem s') pgdir addr = p /\ user_may true (pte (mem s') pgdir addr) = true /\
    (forall va, 0 <= va < sz -> ubyte (mem s') pgdir va = ubyte (mem s) pgdir va) /\
    (forall va, 0 <= va < 2 ^ 32 -> va / PGSIZE <> addr / PGSIZE ->
       pte (mem s') pgdir va = pte (mem s) pgdir va) /\
    agree (mem s) (mem s') (upage (mem s) pgdir addr) PGSIZE /\
    refcount s' (page_no (mem s) pgdir addr) =
      s8 (refcount s (page_no (mem s) pgdir addr) - 1)).
Proof.
  intros Hk Hwf Hl Ha Hw Hc H0. pose proof (uw_size _ _ _ _ Hwf) as Hs.
  eapply returns_mono; [by apply (handle_cow_fault_run pgdir sz addr s p l)|].
  intros _ s' (Hk' & Hwf' & Hv & Hb & Hag & Hrc & _). split; [done|]. split; [done|].
  pose proof (kinv_pages _ _ Hk) as Hpg. apply Forall_cons in Hpg as [Hp _].
  pose proof (Hv addr ltac:(mmlia)) as Hva. rewrite Z.eqb_refl in Hva.
  split; [by eapply (upage_entry _ _ _ p cow_flags)|]. split.
  { rewrite Hva, user_may_bits, !Z.lor_spec. change (Z.testbit PTE_P 0) with true.
    change (Z.testbit cow_flags 1) with true. change (Z.testbit cow_flags 2) with true.
    by rewrite !orb_true_r. }
  split; [done|]. split; [|split; [done|]].
  - intros va Hr Hne. rewrite Hv by done. by rewrite (proj2 (Z.eqb_neq _ _)).
  - by rewrite Hrc, Z.eqb_refl.
Qed.
End vm_theorems.

(** ** Cases in which the hypotheses hold *)

Lemma xv6_fits : PGROUNDUP end_ + KVM_PAGES * PGSIZE <= MB4.
Proof. vm_compute. discriminate. Qed.

(** The two pages [0x80300000] and [0x80301000], taken and given back. *)
Definition small_ops : list kop := [Kfree 0x80300000; Kfree 0x80301000; Kalloc; Kalloc; Kalloc].

Lemma kalloc_refines_stack_witness :
  returns (kexecs small_ops) (kst0 ∅) (fun rs' s' =>
    rs' = [0; 0; 0x80301000; 0x80300000; 0] /\ kinv s' [] /\ held s' = []).
Proof.
  apply (kalloc_refines_stack small_ops (kst0 ∅) [] _ []); [apply kinv_kst0|].
  vm_compute. reflexivity.
Defined.

Lemma kfree_panics_witness : kfree 0x80300001 (kst0 ∅) = Stop (Panicked "kfree") (kst0 ∅).
Proof. apply (kfree_panics (kst0 ∅) 0x80300001); [intros [Hx _]; discriminate|done]. Defined.

Lemma boot_memory_witness : exists d s, main_memory (kst0 ∅) = Done d s /\ cr3 s = v2p d.
Proof.
  destruct (proj1 (returns_done main_memory (kst0 ∅) _) (boot_memory ∅ xv6_fits))
    as (d & s & Hd & free & _ & _ & Hc & _). exists d, s. exact (conj Hd Hc).
Defined.

(** The state [first_space] leaves: an address space of two pages. *)
Definition first_state (d : Z) (s : kst) (free : list Z) : Prop :=
  first_space (kst0 ∅) = Done d s /\
  kinv s free /\ uvm_wf (mem s) d (2 * PGSIZE) free /\ held s = [] /\ pte_array s = ∅ /\
  56000 <= Z.of_nat (length free).

Lemma first_state_ex : exists d s free, first_state d s free /\
  forall va, 0 <= va < 2 * PGSIZE ->
    PTE_FLAGS (pte (mem s) d va) = Z.lor (Z.lor PTE_W PTE_U) PTE_P.
Proof.
  destruct (proj1 (returns_done first_space (kst0 ∅) _) (first_space_ok ∅ xv6_fits))
    as (d & s & Hd & free & H1 & H2 & H3 & H4 & H5 & H6). exists d, s, free.
  split; [|exact H6]. unfold first_state. repeat (split; [assumption|]). assumption.
Qed.

#[local] Opaque first_space main_memory.

Lemma first_unshared d s free va : first_state d s free -> unshared s d va.
Proof.
  intros (_ & _ & _ & _ & Hp & _). unfold unshared, refcount. rewrite Hp, lookup_empty. done.
Qed.

Lemma mappages_spec_witness : exists d s free, first_state d s free /\
  returns (mappages d 0x10000 PGSIZE 0x1000 PTE_U) s
    (map_post s d free 0x10000 1 0x1000 PTE_U).
Proof.
  destruct first_state_ex as (d & s & free & Hf & _). exists d, s, free. split; [exact Hf|].
  destruct Hf as (_ & Hk & Hwf & _).
  apply (mappages_spec d 0x10000 PGSIZE 0x1000 PTE_U s free);
    [lia|done|done|lia|done|done|exact Hk|apply (uw_as _ _ _ _ Hwf)|].
  intros va Hva. apply (uw_out _ _ _ _ Hwf). change (PGROUNDUP (2 * PGSIZE)) with (2 * PGSIZE).
  mmlia.
Defined.

Lemma allocuvm_spec_witness : exists d s free, first_state d s free /\
  returns (allocuvm d (2 * PGSIZE) (5 * PGSIZE + 1)) s (fun r _ => r = 5 * PGSIZE + 1).
Proof.
  destruct first_state_ex as (d & s & free & Hf & _). exists d, s, free. split; [exact Hf|].
  destruct Hf as (_ & Hk & Hwf & _ & _ & Hl). eapply returns_mono;
    [apply (allocuvm_spec d (2 * PGSIZE) (5 * PGSIZE + 1) s free Hk Hwf)|].
  - done.
  - change (new_pages (2 * PGSIZE) (5 * PGSIZE + 1)) with 4%nat. lia.
  - by intros r s' [-> _].
Defined.

Lemma deallocuvm_spec_witness : exists d s free, first_state d s free /\
  returns (deallocuvm d (2 * PGSIZE) 10) s (fun r _ => r = 10).
Proof.
  destruct first_state_ex as (d & s & free & Hf & _). exists d, s, free. split; [exact Hf|].
  pose proof Hf as (_ & Hk & Hwf & Hh & _). eapply returns_mono;
    [apply (deallocuvm_spec d (2 * PGSIZE) 10 s free Hk)|].
  - rewrite Hh. apply not_elem_of_nil.
  - exact Hwf.
  - done.
  - intros va _. by eapply first_unshared.
  - by intros r s' [-> _].
Defined.

Lemma copyuvm_spec_witness : exists d s free, first_state d s free /\
  returns (copyuvm d (2 * PGSIZE)) s (fun c s' => copied s d (2 * PGSIZE) c s').
Proof.
  destruct first_state_ex as (d & s & free & Hf & _). exists d, s, free. split; [exact Hf|].
  destruct Hf as (_ & Hk & Hwf & _ & _ & Hl). eapply returns_mono;
    [apply (copyuvm_spec d (2 * PGSIZE) s free Hk Hwf)|].
  - change (new_pages 0 (2 * PGSIZE)) with 2%nat. unfold KVM_PAGES. lia.
  - by intros c s' (free' & _ & _ & _ & _ & Hc).
Defined.

Lemma freevm_spec_witness : exists d s free, first_state d s free /\
  returns (freevm d) s (fun _ s' => exists free', kinv s' free' /\ d ∈ free').
Proof.
  destruct first_state_ex as (d & s & free & Hf & _). exists d, s, free. split; [exact Hf|].
  pose proof Hf as (_ & Hk & Hwf & Hh & _). eapply returns_mono;
    [apply (freevm_spec d (2 * PGSIZE) s free Hk)|].
  - rewrite Hh. apply not_elem_of_nil.
  - exact Hwf.
  - intros va _. by eapply first_unshared.
  - intros _ s' (free' & Hk' & Hq & _). exists free'. split; [exact Hk'|].
    apply Hq. right. left. by left.
Defined.


Lemma mprotect_opens_kernel_witness : exists d s free, first_state d s free /\
  returns (mprotect d 0x80100000 1 3) s (fun r s' => r = 0 /\
    user_may true (pte (mem s') d 0x80100000) = true).
Proof.
  destruct first_state_ex as (d & s & free & Hf & _). exists d, s, free. split; [exact Hf|].
  destruct Hf as (_ & Hk & Hwf & _). eapply returns_mono;
    [apply (mprotect_opens_kernel d (2 * PGSIZE) 0x80100000 s free Hwf); done|].
  by intros r s' (-> & -> & _).
Defined.

Lemma mprotect_no_return_witness : wp (mprotect_loop 3 0x80300000 (PGROUNDDOWN 0xfffff000)
    (u32 (0xfffff000 + 1)) PROT_READ) (kst0 ∅) (fun _ _ => False) (fun _ _ => True).
Proof. apply (mprotect_no_return 3 0x80300000 0xfffff000 1 PROT_READ (kst0 ∅)). done. Defined.

Lemma copyuvm_cow_spec_witness : exists d s free, first_state d s free /\
  returns (copyuvm_cow d (2 * PGSIZE)) s (fun c s' =>
    upage (mem s') c 0 = upage (mem s') d 0 /\ user_may true (pte (mem s') c 0) = true).
Proof.
  destruct first_state_ex as (d & s & free & Hf & Hfl). exists d, s, free. split; [exact Hf|].
  destruct Hf as (_ & Hk & Hwf & Hh & _ & Hl). eapply returns_mono;
    [apply (copyuvm_cow_spec d (2 * PGSIZE) s free Hk Hwf)|].
  - rewrite Hh. apply not_elem_of_nil.
  - change (new_pages 0 (2 * PGSIZE)) with 2%nat. unfold KVM_PAGES. lia.
  - intros c s' (free' & _ & _ & _ & _ & Hv). destruct (Hv 0) as (Hu & _ & _ & _ & _ & Hw); [done|].
    split; [exact Hu|]. rewrite Hw. apply user_may_flags; [apply pte_range|]. by rewrite Hfl.
Defined.

(** The first page made read-only, and counted as shared by two. *)
Lemma shared_state : exists d s p l,
  kinv s (p :: l) /\ uvm_wf (mem s) d (2 * PGSIZE) (p :: l) /\ held s = [] /\
  Z.land (pte (mem s) d 5) PTE_W = 0 /\
  refcount s (page_no (mem s) d 5) = 2 /\ refcount s 0 = 0.
Proof.
  destruct first_state_ex as (d & s & free & Hf & _). destruct Hf as (_ & Hk & Hwf & Hh & Hp & Hl).
  destruct free as [|p l]; [simpl in Hl; lia|].
  assert (forall va, PGROUNDDOWN 0 <= va < prot_end 0 1 ->
    present (pde (mem s) d (PDX va)) = true) as Hpd.
  { intros va Hva. change (PGROUNDDOWN 0) with 0 in Hva. change (prot_end 0 1) with PGSIZE in Hva.
    destruct (uw_in _ _ _ _ Hwf va ltac:(mmlia)) as (Hpr & _). unfold pte in Hpr.
    destruct (present (pde _ _ _)); [done|by rewrite present_0 in Hpr]. }
  destruct (proj1 (returns_done (mprotect d 0 1 PROT_READ) s _)
    (mprotect_run d 0 1 PROT_READ s (p :: l) ltac:(lia) ltac:(lia) ltac:(done)
       (uw_as _ _ _ _ Hwf) Hpd)) as (r & s1 & _ & _ & _ & Hrw).
  destruct (rewritten_uvm (new_entry PROT_READ) s d (2 * PGSIZE) (p :: l) (PGROUNDDOWN 0)
    (prot_end 0 1) s1 Hk Hwf) as (Hk1 & Hwf1 & _); [done| | |exact Hrw|].
  { intros va Hva. change (prot_end 0 1) with PGSIZE in Hva.
    change (PGROUNDUP (2 * PGSIZE)) with (2 * PGSIZE). mmlia. }
  { intros va _ e. destruct (new_entry_addr PROT_READ e) as [E P]; [apply pte_range|auto]. }
  set (i := page_no (mem s1) d 5).
  exists d, (set_pte_array (<[i := 2]> (pte_array s1)) s1), p, l.
  destruct (rw_rest _ _ _ _ _ _ _ Hrw) as (_ & _ & R3 & R4).
  split; [by destruct Hk1; split|]. split; [exact Hwf1|]. split; [simpl; by rewrite R4|].
  split; [|split].
  - simpl. rewrite (rw_pte _ _ _ _ _ _ _ Hrw 5 ltac:(done)).
    change ((PGROUNDDOWN 0 <=? 5) && (5 <? prot_end 0 1)) with true. cbn iota.
    change PTE_W with (2 ^ 1). rewrite land_pow2, new_entry_bits by lia.
    change (Z.testbit 0xfffffff9 1) with false. by rewrite andb_false_r.
  - rewrite refcount_insert. simpl mem. fold i. by rewrite Z.eqb_refl.
  - rewrite refcount_insert, (proj2 (Z.eqb_neq 0 i)).
    + unfold refcount. by rewrite R3, Hp, lookup_empty.
    + assert (1 < i); [|lia]. apply page_no_big. by apply (uw_in _ _ _ _ Hwf1 5).
Qed.

Lemma handle_cow_fault_spec_witness : exists d s p l,
  returns (handle_cow_fault (Some d) 5) s (fun _ s' =>
    upage (mem s') d 5 = p /\ kinv s' l /\ user_may true (pte (mem s') d 5) = true).
Proof.
  destruct shared_state as (d & s & p & l & Hk & Hwf & Hh & Hw & Hc & H0). exists d, s, p, l.
  eapply returns_mono; [apply (handle_cow_fault_spec d (2 * PGSIZE) 5 s p l Hk Hwf)|].
  - rewrite Hh. apply not_elem_of_nil.
  - done.
  - exact Hw.
  - rewrite Hc. discriminate.
  - exact H0.
  - intros _ s' (H1 & _ & H2 & H3 & _). exact (conj H2 (conj H1 H3)).
Defined.
