(* ===== verification/Spinlock.v ===== *)
(** * spinlock.c on a multiprocessor

    Any number of CPUs run [acquire] and [release] on any number of locks, one
    atomic access to shared memory at a time.  [exec] is one step of one CPU;
    the theorems are about every interleaving.  They justify the locks of
    [Kstate]: a lock is held by at most one CPU, [acquire] of a lock the CPU
    holds and [release] of one it does not hold panic. *)

From S2P Require Import Prelude Mmu Memory.

Section spinlock.

(** ** State *)

(** struct spinlock, but its name and the recorded call stack. *)
Record spinlock := mkSpinlock { locked : Z; lk_cpu : option nat }.

Definition initlock : spinlock := {| locked := 0; lk_cpu := None |}.

(** What a CPU does next.  [Running] is code outside spinlock.c. *)
Inductive pc :=
| Running
| AcqLocked (lk : Z)    (* holding(lk) in acquire: read lk->locked *)
| AcqCpu (lk : Z)       (* ... and then lk->cpu *)
| AcqXchg (lk : Z)      (* while(xchg(&lk->locked, 1) != 0) *)
| AcqRecord (lk : Z)    (* lk->cpu = cpu *)
| RelLocked (lk : Z)    (* holding(lk) in release *)
| RelCpu (lk : Z)
| RelClear (lk : Z)     (* lk->cpu = 0 *)
| RelXchg (lk : Z)      (* xchg(&lk->locked, 0) *)
| RelPop                (* popcli() *)
| Halted (msg : string).

(** struct cpu, as far as spinlock.c uses it; [IF] is the interrupt flag of eflags.
    [owns] is not in memory: the locks whose [locked] this CPU set and has not
    cleared. *)
Record cpu := mkCpu { ncli : Z; intena : bool; IF : bool; at_ : pc; owns : list Z }.

Record machine := mkMachine { locks : Z -> spinlock; cpus : nat -> cpu }.

Definition set_at (p : pc) (c : cpu) : cpu :=
  mkCpu (ncli c) (intena c) (IF c) p (owns c).
Definition set_owns (l : list Z) (c : cpu) : cpu :=
  mkCpu (ncli c) (intena c) (IF c) (at_ c) l.

(** ** pushcli, popcli and holding *)

Definition pushcli (c : cpu) : cpu :=
  let eflags_if := IF c in
  mkCpu (ncli c + 1) (if ncli c =? 0 then eflags_if else intena c) false (at_ c) (owns c).

Definition popcli (c : cpu) : cpu :=
  if IF c then set_at (Halted "popcli - interruptible") c
  else
    let n := ncli c - 1 in
    let c := mkCpu n (intena c) (IF c) (at_ c) (owns c) in
    if n <? 0 then set_at (Halted "popcli") c
    else if (n =? 0) && intena c then mkCpu n (intena c) true (at_ c) (owns c)
    else c.

Definition holding (l : spinlock) (i : nat) : bool :=
  negb (locked l =? 0) && bool_decide (lk_cpu l = Some i).

(** The saved return addresses, following the %ebp chain from below [v]; the
    rest of the ten entries is zero. *)
Fixpoint follow_ebp (n : nat) (m : gmap Z Z) (ebp : Z) : list Z :=
  match n with
  | O => []
  | S n' =>
      if (ebp =? 0) || (ebp <? KERNBASE) || (ebp =? 0xffffffff) then replicate n 0
      else load32 m (ebp + 4) :: follow_ebp n' m (load32 m ebp)
  end.

Definition getcallerpcs (m : gmap Z Z) (v : Z) : list Z := follow_ebp 10 m (u32 (v - 8)).

(** ** One step of CPU [i]; what it calls next, when it is free to, is [call]. *)

Inductive call := Acquire (lk : Z) | Release (lk : Z).

Definition exec (i : nat) (what : call) (m : machine) : machine :=
  let c := cpus m i in
  let goto p := mkMachine (locks m) (upd i (set_at p c) (cpus m)) in
  match at_ c with
  | Running =>
      match what with
      | Acquire lk =>
          mkMachine (locks m) (upd i (set_at (AcqLocked lk) (pushcli c)) (cpus m))
      | Release lk => goto (RelLocked lk)
      end
  | AcqLocked lk => if locked (locks m lk) =? 0 then goto (AcqXchg lk) else goto (AcqCpu lk)
  | AcqCpu lk =>
      if bool_decide (lk_cpu (locks m lk) = Some i) then goto (Halted "acquire")
      else goto (AcqXchg lk)
  | AcqXchg lk =>
      let l := locks m lk in
      let locks' := upd lk (mkSpinlock 1 (lk_cpu l)) (locks m) in
      if locked l =? 0
      then mkMachine locks' (upd i (set_at (AcqRecord lk) (set_owns (lk :: owns c) c)) (cpus m))
      else mkMachine locks' (cpus m)
  | AcqRecord lk =>
      mkMachine (upd lk (mkSpinlock (locked (locks m lk)) (Some i)) (locks m))
        (upd i (set_at Running c) (cpus m))
  | RelLocked lk =>
      if locked (locks m lk) =? 0 then goto (Halted "release") else goto (RelCpu lk)
  | RelCpu lk =>
      if bool_decide (lk_cpu (locks m lk) = Some i) then goto (RelClear lk)
      else goto (Halted "release")
  | RelClear lk =>
      mkMachine (upd lk (mkSpinlock (locked (locks m lk)) None) (locks m))
        (upd i (set_at (RelXchg lk) c) (cpus m))
  | RelXchg lk =>
      mkMachine (upd lk (mkSpinlock 0 (lk_cpu (locks m lk))) (locks m))
        (upd i (set_at RelPop (set_owns (filter (fun x => x <> lk) (owns c)) c)) (cpus m))
  | RelPop => mkMachine (locks m) (upd i (popcli (set_at Running c)) (cpus m))
  | Halted _ => m
  end.

(** All locks initialised; CPUs run outside spinlock.c, interrupts on or off. *)
Definition initial (m : machine) : Prop :=
  (forall lk, locks m lk = initlock) /\
  (forall i, at_ (cpus m i) = Running /\ owns (cpus m i) = [] /\ ncli (cpus m i) = 0).

Inductive reachable : machine -> Prop :=
| reach_init m : initial m -> reachable m
| reach_step m i what : reachable m -> reachable (exec i what m).

(** ** The invariant *)

(** The locks whose [cpu] field the CPU has written and not cleared. *)
Definition recorded (c : cpu) (lk : Z) : Prop :=
  lk ∈ owns c /\ at_ c <> AcqRecord lk /\ at_ c <> RelXchg lk.

(** How many of the pushcli calls are not for a lock the CPU owns already. *)
Definition pending (p : pc) : Z :=
  match p with
  | AcqLocked _ | AcqCpu _ | AcqXchg _ | RelPop => 1
  | _ => 0
  end.

Definition halted (p : pc) : bool := match p with Halted _ => true | _ => false end.

Record cpu_inv (c : cpu) : Prop := {
  ci_nodup : NoDup (owns c);
  ci_fresh lk : at_ c = AcqXchg lk -> lk ∉ owns c;
  ci_mine lk : at_ c = AcqRecord lk \/ at_ c = RelClear lk \/ at_ c = RelXchg lk -> lk ∈ owns c;
  ci_ncli : halted (at_ c) = false -> ncli c = Z.of_nat (length (owns c)) + pending (at_ c);
  ci_if : halted (at_ c) = false -> 0 < ncli c -> IF c = false }.

Record inv (m : machine) : Prop := {
  iv_cpu i : cpu_inv (cpus m i);
  iv_locked lk : locked (locks m lk) <> 0 <-> exists i, lk ∈ owns (cpus m i);
  iv_excl lk i j : lk ∈ owns (cpus m i) -> lk ∈ owns (cpus m j) -> i = j;
  iv_rec lk i : lk_cpu (locks m lk) = Some i <-> recorded (cpus m i) lk }.

(** ** Every step keeps it *)

Lemma inv_initial m : initial m -> inv m.
Proof.
  intros [Hl Hc]. split.
  - intros i. destruct (Hc i) as (Ha & Ho & Hn). split; rewrite ?Ha, ?Ho, ?Hn; try done.
    + constructor.
    + intros lk [|[|]]; done.
  - intros lk. rewrite Hl. split; [done|]. intros [i Hi]. destruct (Hc i) as (_ & Ho & _).
    rewrite Ho in Hi. by apply elem_of_nil in Hi.
  - intros lk i j Hi. destruct (Hc i) as (_ & Ho & _). rewrite Ho in Hi.
    by apply elem_of_nil in Hi.
  - intros lk i. rewrite Hl. split; [done|]. intros [Hi _]. destruct (Hc i) as (_ & Ho & _).
    rewrite Ho in Hi. by apply elem_of_nil in Hi.
Qed.

(** A step that changes its CPU's registers only. *)
Lemma inv_local m i c' : inv m -> owns c' = owns (cpus m i) ->
  (forall lk, recorded c' lk <-> recorded (cpus m i) lk) -> cpu_inv c' ->
  inv (mkMachine (locks m) (upd i c' (cpus m))).
Proof.
  intros [Hc Hl He Hr] Ho Hrec Hc'.
  assert (forall j, owns (upd i c' (cpus m) j) = owns (cpus m j)) as Hown.
  { intros j. destruct (decide (j = i)) as [->|]; [by rewrite upd_eq|by rewrite upd_ne]. }
  split; simpl.
  - intros j. destruct (decide (j = i)) as [->|]; [by rewrite upd_eq|by rewrite upd_ne].
  - intros lk. rewrite Hl. by setoid_rewrite Hown.
  - intros lk j k. rewrite !Hown. apply He.
  - intros lk j. rewrite Hr. destruct (decide (j = i)) as [->|].
    + by rewrite upd_eq, Hrec.
    + by rewrite upd_ne.
Qed.

(** Moving between places where no write to a [cpu] field is due. *)
Definition quiet (p : pc) : Prop :=
  match p with AcqRecord _ | RelXchg _ => False | _ => True end.

Lemma recorded_quiet c lk : quiet (at_ c) -> recorded c lk <-> lk ∈ owns c.
Proof.
  intros Hq. unfold recorded. split; [by intros []|]. intros Ho. split; [done|].
  split; intros Ha; by rewrite Ha in Hq.
Qed.

Lemma inv_goto m i c' : inv m -> owns c' = owns (cpus m i) ->
  quiet (at_ (cpus m i)) -> quiet (at_ c') -> cpu_inv c' ->
  inv (mkMachine (locks m) (upd i c' (cpus m))).
Proof.
  intros Hi Ho Hq Hq' Hc. apply inv_local; try done. intros lk. by rewrite !recorded_quiet, Ho.
Qed.

Lemma cpu_inv_at c p : cpu_inv c -> halted (at_ c) = false -> pending p = pending (at_ c) \/ halted p = true ->
  (forall lk, p = AcqXchg lk -> lk ∉ owns c) ->
  (forall lk, p = AcqRecord lk \/ p = RelClear lk \/ p = RelXchg lk -> lk ∈ owns c) ->
  cpu_inv (set_at p c).
Proof.
  intros [H1 H2 H3 H4 H5] Hh Hp Hf Hm. split; simpl; try done.
  - intros Hnh. destruct Hp as [->|]; [auto|congruence].
  - intros Hnh. destruct Hp as [_|]; [auto|congruence].
Qed.

Lemma filter_out_id lk (l : list Z) : lk ∉ l -> filter (fun x => x <> lk) l = l.
Proof.
  induction l as [|x l IH]; intros Hn; [done|]. apply not_elem_of_cons in Hn as [Hx Hn].
  rewrite filter_cons, decide_True by done. by rewrite IH.
Qed.

Lemma length_filter_out lk (l : list Z) : NoDup l -> lk ∈ l ->
  Z.of_nat (length (filter (fun x => x <> lk) l)) = Z.of_nat (length l) - 1.
Proof.
  intros Hnd. induction Hnd as [|x l Hx Hnd IH]; intros Hin; [by apply elem_of_nil in Hin|].
  rewrite filter_cons. destruct (decide (x = lk)) as [->|Hne].
  - rewrite decide_False by naive_solver. simpl.
    rewrite filter_out_id by done. lia.
  - rewrite decide_True by done. simpl. apply elem_of_cons in Hin as [|Hin]; [by subst|].
    apply IH in Hin. lia.
Qed.

Lemma inv_xchg m i lk : inv m -> at_ (cpus m i) = AcqXchg lk -> locked (locks m lk) = 0 ->
  inv (mkMachine (upd lk (mkSpinlock 1 (lk_cpu (locks m lk))) (locks m))
         (upd i (set_at (AcqRecord lk) (set_owns (lk :: owns (cpus m i)) (cpus m i))) (cpus m))).
Proof.
  intros [Hc Hl He Hr] Ha H0.
  assert (forall j, lk ∉ owns (cpus m j)) as Hfree.
  { intros j Hj. assert (locked (locks m lk) <> 0); [|done]. apply Hl. by exists j. }
  destruct (Hc i) as [H1 H2 H3 H4 H5]. rewrite Ha in *. split; simpl.
  - intros j. destruct (decide (j = i)) as [->|]; [rewrite upd_eq|by rewrite upd_ne].
    split; simpl; try done.
    + constructor; [apply Hfree|done].
    + intros lk' [E|[E|E]]; simplify_eq. apply elem_of_cons. by left.
    + intros _. rewrite H4 by done. simpl. lia.
  - intros lk'. destruct (decide (lk' = lk)) as [->|Hne].
    + rewrite upd_eq. split; [|done]. intros _. exists i. rewrite upd_eq. simpl.
      apply elem_of_cons. by left.
    + rewrite upd_ne, Hl by done. split; intros [j Hj]; exists j.
      * destruct (decide (j = i)) as [->|]; [|by rewrite upd_ne]. rewrite upd_eq. simpl.
        apply elem_of_cons. by right.
      * destruct (decide (j = i)) as [->|]; [|by rewrite upd_ne in Hj].
        rewrite upd_eq in Hj. simpl in Hj. by apply elem_of_cons in Hj as [|].
  - intros lk' j k. unfold upd. repeat case_decide; subst; simpl; try apply He; try done.
    + rewrite elem_of_cons. intros [->|Hj] Hk; [by destruct (Hfree k)|by apply (He lk')].
    + rewrite elem_of_cons. intros Hj [->|Hk]; [by destruct (Hfree j)|by apply (He lk')].
  - intros lk' j. transitivity (lk_cpu (locks m lk') = Some j).
    { unfold upd. by case_decide; subst. }
    rewrite Hr. destruct (decide (j = i)) as [->|]; [rewrite upd_eq|by rewrite upd_ne].
    unfold recorded. simpl. rewrite Ha, elem_of_cons. split.
    + intros (Hj & _). split; [by right|]. split; [|done]. intros E. simplify_eq.
      by destruct (Hfree i).
    + intros ([->|Hj] & Hx & _); [done|]. done.
Qed.

Lemma inv_record m i lk : inv m -> at_ (cpus m i) = AcqRecord lk ->
  inv (mkMachine (upd lk (mkSpinlock (locked (locks m lk)) (Some i)) (locks m))
         (upd i (set_at Running (cpus m i)) (cpus m))).
Proof.
  intros [Hc Hl He Hr] Ha.
  assert (lk ∈ owns (cpus m i)) as Hmine by (apply (ci_mine _ (Hc i)); by left).
  assert (forall j, owns (upd i (set_at Running (cpus m i)) (cpus m) j) = owns (cpus m j)) as Hown.
  { intros j. unfold upd. by case_decide; subst. }
  split; simpl.
  - intros j. destruct (decide (j = i)) as [->|]; [rewrite upd_eq|by rewrite upd_ne].
    apply cpu_inv_at; [done|by rewrite Ha|rewrite Ha; by left|done|]. by intros lk' [|[|]].
  - intros lk'. setoid_rewrite Hown. rewrite <- Hl. unfold upd. by case_decide; subst.
  - intros lk' j k. rewrite !Hown. apply He.
  - intros lk' j. destruct (decide (lk' = lk)) as [->|Hne].
    + rewrite upd_eq. simpl. destruct (decide (j = i)) as [->|Hji].
      * rewrite upd_eq, recorded_quiet by done. done.
      * rewrite upd_ne by done. split; [congruence|]. intros [Hj _]. by rewrite (He lk j i) in Hji.
    + rewrite (upd_ne lk), Hr by done. destruct (decide (j = i)) as [->|]; [|by rewrite upd_ne].
      rewrite upd_eq, (recorded_quiet (set_at Running _)) by done. unfold recorded. rewrite Ha. naive_solver.
Qed.

Lemma inv_clear m i lk : inv m -> at_ (cpus m i) = RelClear lk ->
  inv (mkMachine (upd lk (mkSpinlock (locked (locks m lk)) None) (locks m))
         (upd i (set_at (RelXchg lk) (cpus m i)) (cpus m))).
Proof.
  intros [Hc Hl He Hr] Ha.
  assert (lk ∈ owns (cpus m i)) as Hmine by (apply (ci_mine _ (Hc i)); auto).
  assert (forall j, owns (upd i (set_at (RelXchg lk) (cpus m i)) (cpus m) j) = owns (cpus m j))
    as Hown. { intros j. unfold upd. by case_decide; subst. }
  split; simpl.
  - intros j. destruct (decide (j = i)) as [->|]; [rewrite upd_eq|by rewrite upd_ne].
    apply cpu_inv_at; [done|by rewrite Ha|rewrite Ha; by left|done|].
    intros lk' [|[|]]; simplify_eq; done.
  - intros lk'. setoid_rewrite Hown. rewrite <- Hl. unfold upd. by case_decide; subst.
  - intros lk' j k. rewrite !Hown. apply He.
  - intros lk' j. destruct (decide (lk' = lk)) as [->|Hne].
    + rewrite upd_eq. simpl. split; [done|]. intros Hrec. exfalso.
      destruct (decide (j = i)) as [->|Hji].
      * rewrite upd_eq in Hrec. by destruct Hrec as (_ & _ & ?).
      * rewrite upd_ne in Hrec by done. apply Hji, (He lk); [apply Hrec|done].
    + rewrite (upd_ne lk), Hr by done. destruct (decide (j = i)) as [->|]; [|by rewrite upd_ne].
      rewrite upd_eq, recorded_quiet by (by rewrite Ha). unfold recorded. simpl. naive_solver.
Qed.

Lemma inv_unlock m i lk : inv m -> at_ (cpus m i) = RelXchg lk ->
  inv (mkMachine (upd lk (mkSpinlock 0 (lk_cpu (locks m lk))) (locks m))
         (upd i (set_at RelPop (set_owns (filter (fun x => x <> lk) (owns (cpus m i)))
                                  (cpus m i))) (cpus m))).
Proof.
  intros [Hc Hl He Hr] Ha. destruct (Hc i) as [H1 H2 H3 H4 H5]. rewrite Ha in *.
  assert (lk ∈ owns (cpus m i)) as Hmine by auto.
  assert (forall j, lk ∈ owns (cpus m j) -> j = i) as Hone by (intros; by apply (He lk)).
  set (c' := set_at _ _). assert (forall lk', lk' ∈ owns c' <-> lk' <> lk /\ lk' ∈ owns (cpus m i))
    as Ho by (intros; unfold c'; simpl; by rewrite list_elem_of_filter).
  split; simpl.
  - intros j. destruct (decide (j = i)) as [->|]; [rewrite upd_eq|by rewrite upd_ne].
    split; simpl; try done.
    + by apply NoDup_filter.
    + by intros lk' [|[|]].
    + intros _. rewrite H4, length_filter_out by done. simpl. lia.
  - intros lk'. destruct (decide (lk' = lk)) as [->|Hne].
    + rewrite upd_eq. split; [done|]. intros [j Hj]. destruct (decide (j = i)) as [->|Hji].
      * rewrite upd_eq in Hj. by apply Ho in Hj as [? _].
      * rewrite upd_ne in Hj by done. by destruct (Hji (Hone j Hj)).
    + rewrite upd_ne, Hl by done. split; intros [j Hj]; exists j;
        (destruct (decide (j = i)) as [->|]; [rewrite upd_eq in *|by rewrite upd_ne in *]).
      * by apply Ho.
      * by apply Ho in Hj as [_ Hj].
  - intros lk' j k. unfold upd. repeat case_decide; subst; rewrite ?Ho; naive_solver.
  - intros lk' j. transitivity (lk_cpu (locks m lk') = Some j).
    { unfold upd. by case_decide; subst. }
    rewrite Hr. destruct (decide (j = i)) as [->|]; [rewrite upd_eq|by rewrite upd_ne].
    rewrite (recorded_quiet c') by done. rewrite Ho. unfold recorded. rewrite Ha. naive_solver.
Qed.

Lemma cpu_inv_push c lk : cpu_inv c -> at_ c = Running -> cpu_inv (set_at (AcqLocked lk) (pushcli c)).
Proof.
  intros [H1 H2 H3 H4 H5] Ha. rewrite Ha in *. split; simpl; try done.
  - by intros lk' [|[|]].
  - intros _. rewrite H4 by done. simpl. lia.
Qed.

Lemma popcli_ok c : cpu_inv c -> at_ c = RelPop ->
  let c' := popcli (set_at Running c) in
  at_ c' = Running /\ owns c' = owns c /\ cpu_inv c'.
Proof.
  intros [H1 H2 H3 H4 H5] Ha. rewrite Ha in *. specialize (H4 eq_refl). specialize (H5 eq_refl).
  simpl in H4. unfold popcli. cbv zeta. cbn [IF set_at ncli intena owns at_]. rewrite H5 by lia.
  rewrite (proj2 (Z.ltb_ge _ 0)) by lia.
  assert (forall f, (0 < ncli c - 1 -> f = false) ->
    cpu_inv (mkCpu (ncli c - 1) (intena c) f Running (owns c))) as Hinv.
  { intros f Hf. split; simpl; try done; try (by intros lk [|[|]]). intros _. lia. }
  destruct (Z.eqb_spec (ncli c - 1) 0); destruct (intena c) in Hinv |- *; cbn [andb];
    (split; [done|]); (split; [done|]); apply Hinv; done || lia.
Qed.

Ltac goto_step Ha :=
  apply inv_goto; rewrite ?Ha; try done;
  apply cpu_inv_at; rewrite ?Ha; auto; try done; try (by intros ? [|[|]]).

Lemma inv_exec m i what : inv m -> inv (exec i what m).
Proof.
  intros Hi. pose proof (iv_cpu _ Hi i) as Hc. unfold exec.
  destruct (at_ (cpus m i)) as [|lk|lk|lk|lk|lk|lk|lk|lk| |msg] eqn:Ha.
  - destruct what as [lk|lk]; [|goto_step Ha].
    apply inv_goto; rewrite ?Ha; try done. by apply cpu_inv_push.
  - destruct (Z.eqb_spec (locked (locks m lk)) 0) as [H0|H0]; goto_step Ha.
    intros lk' E Hin. simplify_eq. apply (proj2 (iv_locked _ Hi lk')); [by exists i|done].
  - case_bool_decide as Hx; goto_step Ha.
    intros lk' E Hin. simplify_eq. apply Hx, (iv_rec _ Hi), recorded_quiet; [by rewrite Ha|done].
  - destruct (Z.eqb_spec (locked (locks m lk)) 0) as [H0|H0]; [by apply inv_xchg|].
    destruct Hi as [I1 I2 I3 I4]. split; simpl; try done; intros lk'.
    + rewrite <- I2. unfold upd. by case_decide; subst.
    + intros j. rewrite <- I4. unfold upd. by case_decide; subst.
  - by apply inv_record.
  - destruct (Z.eqb_spec (locked (locks m lk)) 0) as [H0|H0]; goto_step Ha.
  - case_bool_decide as Hx; goto_step Ha.
    intros lk' [|[|]]; simplify_eq. by apply (iv_rec _ Hi) in Hx as [? _].
  - by apply inv_clear.
  - by apply inv_unlock.
  - destruct (popcli_ok (cpus m i) Hc Ha) as (P1 & P2 & P3).
    apply inv_goto; rewrite ?Ha, ?P1; done.
  - done.
Qed.

Lemma reachable_inv m : reachable m -> inv m.
Proof. induction 1 as [m Hm|m i what _ IH]; [by apply inv_initial|by apply inv_exec]. Qed.

(** ** What spinlock.c promises *)

(** C9. Mutual exclusion: in every state that any interleaving of the CPUs reaches,
    a lock that two CPUs own is owned by one CPU. *)
Theorem spinlock_mutex m lk i j : reachable m ->
  lk ∈ owns (cpus m i) -> lk ∈ owns (cpus m j) -> i = j.
Proof. intros Hr. apply iv_excl. by apply reachable_inv. Qed.

(** C39. [holding] is exact where it is asked: outside the two instructions in which a
    lock is taken or given up, it holds for CPU [i] iff [i] owns the lock, so
    [acquire] panics iff the CPU holds the lock already and [release] iff it does
    not hold it; [popcli] in [release] never panics; and a CPU that owns a lock
    runs with interrupts off. *)
Theorem spinlock_discipline m i lk : reachable m -> halted (at_ (cpus m i)) = false ->
  (quiet (at_ (cpus m i)) -> holding (locks m lk) i = true <-> lk ∈ owns (cpus m i)) /\
  (at_ (cpus m i) = RelPop -> forall what, at_ (cpus (exec i what m) i) = Running) /\
  (lk ∈ owns (cpus m i) -> IF (cpus m i) = false).
Proof.
  intros Hr Hh. apply reachable_inv in Hr as Hi. pose proof (iv_cpu _ Hi i) as Hc.
  split; [|split].
  - intros Hq. unfold holding. rewrite andb_true_iff, negb_true_iff, Z.eqb_neq, bool_decide_eq_true.
    rewrite (iv_rec _ Hi), recorded_quiet by done. split; [by intros []|]. intros Ho.
    split; [|done]. apply (iv_locked _ Hi). by exists i.
  - intros Ha what. unfold exec. rewrite Ha. simpl. rewrite upd_eq.
    by destruct (popcli_ok (cpus m i) Hc Ha) as (? & _).
  - intros Ho. apply (ci_if _ Hc); [done|]. rewrite (ci_ncli _ Hc) by done.
    destruct (owns (cpus m i)); [by apply elem_of_nil in Ho|]. simpl.
    assert (0 <= pending (at_ (cpus m i))) by (by destruct (at_ (cpus m i))). lia.
Qed.
End spinlock.

Lemma getcallerpcs_length m v : length (getcallerpcs m v) = 10%nat.
Proof.
  unfold getcallerpcs. generalize (u32 (v - 8)). generalize 10%nat as n.
  induction n as [|n IH]; intros ebp; [done|]. cbn [follow_ebp].
  destruct (_ || _); [by rewrite length_replicate|]. simpl. by rewrite IH.
Qed.

(** ** A run: CPU 0 takes lock 7 while CPU 1 spins on it *)

Definition machine0 : machine :=
  mkMachine (fun _ => initlock) (fun _ => mkCpu 0 false true Running []).

Definition run (steps : list (nat * call)) (m : machine) : machine :=
  fold_left (fun m '(i, what) => exec i what m) steps m.

Lemma reachable_run steps m : reachable m -> reachable (run steps m).
Proof.
  revert m. induction steps as [|[i what] steps IH]; intros m Hm; [done|].
  apply IH. by constructor.
Qed.

Lemma reachable0 : reachable machine0.
Proof. apply reach_init. by split; [|intros i; split; [|split]]. Qed.

Definition contended : machine :=
  run [(0, Acquire 7); (0, Acquire 7); (1, Acquire 7); (0, Acquire 7); (0, Acquire 7);
       (1, Acquire 7); (1, Acquire 7); (1, Acquire 7)]%nat machine0.

Lemma spinlock_mutex_witness : 7 ∈ owns (cpus contended 0%nat) /\
  (7 ∈ owns (cpus contended 1%nat) -> 0%nat = 1%nat).
Proof.
  assert (7 ∈ owns (cpus contended 0%nat)) as H7 by (apply elem_of_cons; by left).
  split; [exact H7|]. apply (spinlock_mutex contended 7 0%nat 1%nat); [|exact H7].
  apply reachable_run, reachable0.
Defined.

Lemma spinlock_discipline_witness : IF (cpus contended 0%nat) = false /\
  holding (locks contended 7) 0%nat = true /\ at_ (cpus contended 1%nat) = AcqXchg 7.
Proof.
  destruct (spinlock_discipline contended 0%nat 7) as (H1 & _ & H3);
    [apply reachable_run, reachable0|reflexivity|].
  assert (7 ∈ owns (cpus contended 0%nat)) as H7 by (apply elem_of_cons; by left).
  split; [exact (H3 H7)|]. split; [|reflexivity]. apply H1; [exact I|exact H7].
Defined.
