(* ===== verification/Pipe.v ===== *)
(** * pipe.c: the bounded buffer and the processes on it

    [pipewrite_from] and [piperead_from] are the bodies of pipewrite and piperead
    from a point where the process holds the pipe's lock to where it gives it up:
    at a return or in [sleep].  [pstep] runs any number of readers and writers in
    any order, with the wakeups the code sends. *)

From S2P Require Import Prelude.

(** ** The pipe *)

Definition PIPESIZE : Z := 512.

(** [data] by index; a byte never written is 0 (kalloc leaves anything). *)
Record pipe := mkPipe {
  data : gmap Z Z;
  nread : Z;
  nwrite : Z;
  readopen : bool;
  writeopen : bool }.

(** The fields pipealloc sets. *)
Definition pipe_init (d : gmap Z Z) : pipe := mkPipe d 0 0 true true.

Inductive chan := Nread | Nwrite.
#[export] Instance chan_eq_dec : EqDecision chan.
Proof. solve_decision. Defined.

Definition full (p : pipe) : bool := nwrite p =? u32 (nread p + PIPESIZE).
Definition empty (p : pipe) : bool := nread p =? nwrite p.

(** [p->data[p->nwrite++ % PIPESIZE] = b] *)
Definition put (b : Z) (p : pipe) : pipe :=
  mkPipe (<[nwrite p mod PIPESIZE := u8 b]> (data p)) (nread p) (u32 (nwrite p + 1))
    (readopen p) (writeopen p).

(** [p->data[p->nread++ % PIPESIZE]] *)
Definition get (p : pipe) : Z * pipe :=
  (default 0 (data p !! (nread p mod PIPESIZE)),
   mkPipe (data p) (u32 (nread p + 1)) (nwrite p) (readopen p) (writeopen p)).

(** How a critical section ends; a process that sleeps keeps what is left to do. *)
Inductive wres := WDone | WFail | WSleep (left_ : list Z).

(** The pipe afterwards, the bytes stored, and how it ended. *)
Fixpoint pipewrite_from (p : pipe) (killed : bool) (bs : list Z) : pipe * list Z * wres :=
  match bs with
  | [] => (p, [], WDone)
  | b :: bs' =>
      if full p then
        if negb (readopen p) || killed then (p, [], WFail) else (p, [], WSleep bs)
      else
        let '(p', st, r) := pipewrite_from (put b p) killed bs' in (p', u8 b :: st, r)
  end.

Fixpoint pipe_copy (n : nat) (p : pipe) : list Z * pipe :=
  match n with
  | O => ([], p)
  | S n' =>
      if empty p then ([], p)
      else
        let '(b, p1) := get p in
        let '(bs, p2) := pipe_copy n' p1 in (b :: bs, p2)
  end.

Inductive rres := RDone (p : pipe) (bs : list Z) | RFail | RSleep.

Definition piperead_from (p : pipe) (killed : bool) (n : nat) : rres :=
  if empty p && writeopen p then if killed then RFail else RSleep
  else let '(bs, p') := pipe_copy n p in RDone p' bs.

(** The pipe afterwards, whom it wakes, and whether its page is freed. *)
Definition pipeclose (p : pipe) (writable : bool) : pipe * chan * bool :=
  let p' :=
    if writable then mkPipe (data p) (nread p) (nwrite p) (readopen p) false
    else mkPipe (data p) (nread p) (nwrite p) false (writeopen p) in
  (p', if writable then Nread else Nwrite, negb (readopen p') && negb (writeopen p')).

(** ** Processes *)

Inductive proc :=
| Idle
| Writing (left_ : list Z)    (* in pipewrite, about to hold the lock *)
| Reading (n : nat)           (* in piperead, about to hold the lock *)
| AsleepW (left_ : list Z)    (* in sleep(&p->nwrite, &p->lock) *)
| AsleepR (n : nat).          (* in sleep(&p->nread, &p->lock) *)

(** [sent] and [received] are histories: the bytes stored, and the bytes that reads
    returned, in order. *)
Record sys := mkSys {
  pp : pipe;
  procs : nat -> proc;
  killed : nat -> bool;
  sent : list Z;
  received : list Z }.

(** [wakeup(chan)]: those asleep on it go on. *)
Definition wake (c : chan) (ps : nat -> proc) : nat -> proc := fun j =>
  match ps j with
  | AsleepW l => if decide (c = Nwrite) then Writing l else AsleepW l
  | AsleepR n => if decide (c = Nread) then Reading n else AsleepR n
  | x => x
  end.

Inductive event :=
| CallWrite (i : nat) (bs : list Z)
| CallRead (i : nat) (n : nat)
| Run (i : nat)
| Kill (i : nat)
| Close (writable : bool).

(** [kill] also makes a sleeping process runnable. *)
Definition pstep (e : event) (s : sys) : sys :=
  match e with
  | CallWrite i bs =>
      match procs s i with
      | Idle => mkSys (pp s) (upd i (Writing bs) (procs s)) (killed s) (sent s) (received s)
      | _ => s
      end
  | CallRead i n =>
      match procs s i with
      | Idle => mkSys (pp s) (upd i (Reading n) (procs s)) (killed s) (sent s) (received s)
      | _ => s
      end
  | Run i =>
      match procs s i with
      | Writing bs =>
          let '(p, st, r) := pipewrite_from (pp s) (killed s i) bs in
          let ps := match r with
                    | WDone => wake Nread (upd i Idle (procs s))
                    | WFail => upd i Idle (procs s)
                    | WSleep l => upd i (AsleepW l) (wake Nread (procs s))
                    end in
          mkSys p ps (killed s) (sent s ++ st) (received s)
      | Reading n =>
          match piperead_from (pp s) (killed s i) n with
          | RDone p bs =>
              mkSys p (wake Nwrite (upd i Idle (procs s))) (killed s) (sent s) (received s ++ bs)
          | RFail => mkSys (pp s) (upd i Idle (procs s)) (killed s) (sent s) (received s)
          | RSleep => mkSys (pp s) (upd i (AsleepR n) (procs s)) (killed s) (sent s) (received s)
          end
      | _ => s
      end
  | Kill i =>
      let ps := match procs s i with
                | AsleepW l => upd i (Writing l) (procs s)
                | AsleepR n => upd i (Reading n) (procs s)
                | _ => procs s
                end in
      mkSys (pp s) ps (upd i true (killed s)) (sent s) (received s)
  | Close w =>
      let '(p', c, _) := pipeclose (pp s) w in
      mkSys p' (wake c (procs s)) (killed s) (sent s) (received s)
  end.

Fixpoint psteps (es : list event) (s : sys) : sys :=
  match es with [] => s | e :: es' => psteps es' (pstep e s) end.

Definition sys_init (d : gmap Z Z) : sys :=
  mkSys (pipe_init d) (fun _ => Idle) (fun _ => false) [] [].

(** ** What is in the pipe *)

Definition count (p : pipe) : Z := u32 (nwrite p - nread p).

Definition byte_at (p : pipe) (k : nat) : Z :=
  default 0 (data p !! ((nread p + Z.of_nat k) mod PIPESIZE)).

Definition contents (p : pipe) : list Z := map (byte_at p) (seq 0 (Z.to_nat (count p))).

Record pipe_wf (p : pipe) : Prop := {
  pw_r : 0 <= nread p < 2 ^ 32;
  pw_w : 0 <= nwrite p < 2 ^ 32;
  pw_n : count p <= PIPESIZE }.

Lemma pipe_init_wf d : pipe_wf (pipe_init d).
Proof. split; simpl; [lia|lia|done]. Qed.

Lemma count_range p : 0 <= count p < 2 ^ 32.
Proof. apply u32_range. Qed.

Lemma full_count p : pipe_wf p -> full p = (count p =? PIPESIZE).
Proof.
  intros [Hr Hw Hn]. unfold full, count, PIPESIZE, u32 in *.
  destruct (Z.eqb_spec (nwrite p) ((nread p + 512) mod 2 ^ 32)),
    (Z.eqb_spec ((nwrite p - nread p) mod 2 ^ 32) 512); done || zlia.
Qed.

Lemma empty_count p : pipe_wf p -> empty p = (count p =? 0).
Proof.
  intros [Hr Hw Hn]. unfold empty, count, PIPESIZE, u32 in *.
  destruct (Z.eqb_spec (nread p) (nwrite p)),
    (Z.eqb_spec ((nwrite p - nread p) mod 2 ^ 32) 0); done || zlia.
Qed.

Lemma empty_contents p : pipe_wf p -> empty p = true -> contents p = [].
Proof.
  intros Hp He. rewrite empty_count in He by done. unfold contents.
  by rewrite (proj1 (Z.eqb_eq _ _) He).
Qed.

Lemma put_count p b : pipe_wf p -> full p = false -> count (put b p) = count p + 1.
Proof.
  intros Hp Hf. rewrite full_count in Hf by done. destruct Hp as [Hr Hw Hn].
  apply Z.eqb_neq in Hf. unfold count, put, u32, PIPESIZE in *; simpl in *. zlia.
Qed.

Lemma put_ok p b : pipe_wf p -> full p = false ->
  pipe_wf (put b p) /\ contents (put b p) = contents p ++ [u8 b].
Proof.
  intros Hp Hf. pose proof (put_count p b Hp Hf) as Hc. pose proof (count_range p).
  rewrite full_count in Hf by done. apply Z.eqb_neq in Hf. destruct Hp as [Hr Hw Hn].
  split; [split; [done|apply u32_range|rewrite Hc; lia]|].
  unfold contents. rewrite Hc. replace (Z.to_nat (count p + 1)) with (Z.to_nat (count p) + 1)%nat
    by lia.
  rewrite seq_app, map_app. simpl map at 2. f_equal.
  - apply map_ext_in. intros k Hk. apply in_seq in Hk. unfold byte_at, put; simpl.
    rewrite lookup_insert_ne; [done|]. unfold count, PIPESIZE, u32 in *. zlia.
  - unfold byte_at, put; simpl. f_equal. rewrite Z2Nat.id by lia.
    replace ((nread p + count p) mod PIPESIZE) with (nwrite p mod PIPESIZE)
      by (unfold count, PIPESIZE, u32 in *; zlia).
    by rewrite lookup_insert_eq.
Qed.

Lemma get_ok p : pipe_wf p -> empty p = false ->
  pipe_wf (get p).2 /\ contents p = (get p).1 :: contents (get p).2 /\
  readopen (get p).2 = readopen p /\ writeopen (get p).2 = writeopen p.
Proof.
  intros Hp He. rewrite empty_count in He by done. apply Z.eqb_neq in He.
  pose proof (count_range p). destruct Hp as [Hr Hw Hn].
  assert (count (get p).2 = count p - 1) as Hc
    by (unfold count, get, u32, PIPESIZE in *; simpl in *; zlia).
  split; [split; [apply u32_range|done|lia]|]. split; [|done].
  unfold contents. rewrite Hc.
  replace (Z.to_nat (count p)) with (S (Z.to_nat (count p - 1))) by lia.
  simpl. f_equal; [unfold byte_at; simpl; by rewrite Z.add_0_r|].
  rewrite <- seq_shift, map_map. apply map_ext. intros k. unfold byte_at, get; simpl.
  do 2 f_equal. unfold u32, PIPESIZE. zlia.
Qed.

Lemma pipewrite_from_ok bs p kl : pipe_wf p ->
  let '(p', st, r) := pipewrite_from p kl bs in
  pipe_wf p' /\ contents p' = contents p ++ st /\ readopen p' = readopen p /\
  writeopen p' = writeopen p /\
  match r with
  | WDone => st = map u8 bs
  | WFail => full p' = true /\ (readopen p = false \/ kl = true) /\
      exists l0 l, bs = l0 ++ l /\ st = map u8 l0
  | WSleep l => full p' = true /\ (readopen p = true /\ kl = false) /\
      exists l0, bs = l0 ++ l /\ st = map u8 l0
  end.
Proof.
  revert p. induction bs as [|b bs IH]; intros p Hp; simpl; [by rewrite app_nil_r|].
  destruct (full p) eqn:Hf.
  - destruct (readopen p) eqn:Hr; [destruct kl|]; simpl; rewrite app_nil_r, Hr;
      (do 5 (split; [done|])); (split; [by auto|]).
    + by exists [], (b :: bs).
    + by exists [].
    + by exists [], (b :: bs).
  - destruct (put_ok p b Hp Hf) as [Hp1 Hc1]. specialize (IH _ Hp1).
    destruct (pipewrite_from (put b p) kl bs) as [[p' st] r].
    destruct IH as (Hp' & Hc' & Hr' & Hw' & Hres). split; [done|].
    split; [rewrite Hc', Hc1, <- app_assoc; done|]. split; [done|]. split; [done|].
    destruct r as [| |l]; [by rewrite Hres|..].
    + destruct Hres as (? & ? & l0 & l & -> & ->). split; [done|]. split; [done|].
      by exists (b :: l0), l.
    + destruct Hres as (? & ? & l0 & -> & ->). split; [done|]. split; [done|].
      by exists (b :: l0).
Qed.

Lemma pipe_copy_ok n p : pipe_wf p ->
  let '(bs, p') := pipe_copy n p in
  pipe_wf p' /\ contents p = bs ++ contents p' /\ (length bs <= n)%nat /\
  (length bs < n -> empty p' = true)%nat /\
  readopen p' = readopen p /\ writeopen p' = writeopen p.
Proof.
  revert p. induction n as [|n IH]; intros p Hp; cbn [pipe_copy].
  { split; [done|]. split; [done|]. split; [simpl; lia|]. split; [simpl; lia|done]. }
  destruct (empty p) eqn:He; [split; [done|]; split; [done|]; split; [simpl; lia|]; done|].
  destruct (get_ok p Hp He) as (Hp1 & Hc1 & Hr1 & Hw1).
  destruct (get p) as [b p1]. cbn [fst snd] in *. specialize (IH p1 Hp1).
  destruct (pipe_copy n p1) as [bs p2]. destruct IH as (H1 & H2 & H3 & H4 & H5 & H6).
  cbv beta iota. split; [done|]. split; [by rewrite Hc1, H2|]. simpl. split; [lia|].
  split; [intros; apply H4; lia|]. split; congruence.
Qed.

Lemma pipewrite_from_full bs p kl : full p = true -> full (pipewrite_from p kl bs).1.1 = true.
Proof. intros Hf. destruct bs as [|b bs]; simpl; [done|]. rewrite Hf. by destruct (_ || _). Qed.

(** ** The invariant over any interleaving *)

Record fifo (s : sys) : Prop := {
  ff_wf : pipe_wf (pp s);
  ff_hist : sent s = received s ++ contents (pp s) }.

Lemma fifo_step e s : fifo s -> fifo (pstep e s).
Proof.
  intros [Hp Hh]. destruct e as [i bs|i n|i|i|w]; simpl.
  - by destruct (procs s i).
  - by destruct (procs s i).
  - destruct (procs s i) as [|bs|n| |]; try done.
    + pose proof (pipewrite_from_ok bs (pp s) (killed s i) Hp) as Hw.
      destruct (pipewrite_from _ _ bs) as [[p st] r]. destruct Hw as (Hp' & Hc & _).
      split; simpl; [done|]. by rewrite Hh, Hc, app_assoc.
    + unfold piperead_from. destruct (empty (pp s) && writeopen (pp s)).
      * by destruct (killed s i).
      * pose proof (pipe_copy_ok n (pp s) Hp) as Hr. destruct (pipe_copy n (pp s)) as [bs p].
        destruct Hr as (Hp' & Hc & _). split; simpl; [done|]. by rewrite Hh, Hc, <- app_assoc.
  - by destruct (procs s i).
  - destruct Hp as [? ? ?]. destruct w; (split; [by split|done]).
Qed.

Lemma fifo_steps es s : fifo s -> fifo (psteps es s).
Proof. revert s. induction es as [|e es IH]; intros s Hs; [done|]. by apply IH, fifo_step. Qed.

Lemma fifo_init d : fifo (sys_init d).
Proof. split; [apply pipe_init_wf|done]. Qed.

(** C25. A pipe is a bounded queue, whatever readers and writers do and in whatever
    order: the bytes the reads returned, followed by those in the buffer, are the
    bytes the writes stored, in order; the buffer never has more than PIPESIZE.
    The counters wrap at 2^32 and this still holds. *)
Theorem pipe_fifo es s : fifo s ->
  let s' := psteps es s in
  sent s' = received s' ++ contents (pp s') /\
  Z.of_nat (length (contents (pp s'))) <= PIPESIZE.
Proof.
  intros Hs s'. destruct (fifo_steps es s Hs) as [[_ _ Hn] Hh]. split; [done|].
  unfold contents. rewrite length_map, length_seq. pose proof (count_range (pp s')).
  fold s' in Hn. lia.
Qed.

(** ** Wakeups *)

(** Nobody sleeps on a condition that does not hold any more. *)
Definition no_lost_wakeup (s : sys) : Prop :=
  forall i, match procs s i with
            | AsleepR _ => empty (pp s) = true /\ writeopen (pp s) = true
            | AsleepW _ => full (pp s) = true
            | _ => True
            end.

(** The read end stays open and nobody is killed. *)
Definition calm (e : event) : bool :=
  match e with Kill _ => false | Close w => w | _ => true end.

Record calm_sys (s : sys) : Prop := {
  cs_fifo : fifo s;
  cs_open : readopen (pp s) = true;
  cs_alive i : killed s i = false;
  cs_wake : no_lost_wakeup s }.

Lemma wake_r ps j : match wake Nread ps j with AsleepR _ => False | AsleepW l => ps j = AsleepW l | _ => True end.
Proof. unfold wake. by destruct (ps j). Qed.

Lemma wake_w ps j : match wake Nwrite ps j with AsleepW _ => False | AsleepR n => ps j = AsleepR n | _ => True end.
Proof. unfold wake. by destruct (ps j). Qed.

(** After a write, readers are awake; a writer asleep is one the write left asleep. *)
Lemma calm_write s i bs : calm_sys s -> procs s i = Writing bs -> no_lost_wakeup (pstep (Run i) s).
Proof.
  intros [[Hp Hh] Ho Ha Hw] Hi j. simpl. rewrite Hi, Ha.
  pose proof (pipewrite_from_ok bs (pp s) false Hp) as Hok.
  pose proof (pipewrite_from_full bs (pp s) false) as Hfull.
  destruct (pipewrite_from (pp s) false bs) as [[p st] r]. destruct Hok as (Hp' & Hc & Hr & Hwo & Hres).
  assert (forall l, procs s j = AsleepW l -> full p = true) as Hasl.
  { intros l Hj. specialize (Hw j). rewrite Hj in Hw. by apply Hfull. }
  destruct r as [| |l].
  - simpl. pose proof (wake_r (upd i Idle (procs s)) j) as Hk. destruct (wake _ _ j); try done.
    unfold upd in Hk. case_decide; [done|]. by eapply Hasl.
  - destruct Hres as (_ & [?|?] & _); congruence.
  - simpl. destruct (decide (j = i)) as [->|Hne]; [by rewrite upd_eq; destruct Hres|].
    rewrite upd_ne by done. pose proof (wake_r (procs s) j) as Hk.
    destruct (wake _ _ j); try done. by eapply Hasl.
Qed.

Lemma empty_full p : pipe_wf p -> empty p = true -> full p = false.
Proof.
  intros Hp He. rewrite empty_count in He by done. rewrite full_count by done.
  apply Z.eqb_eq in He. by rewrite He.
Qed.

Lemma calm_read s i n : calm_sys s -> procs s i = Reading n -> no_lost_wakeup (pstep (Run i) s).
Proof.
  intros [[Hp Hh] Ho Ha Hw] Hi j. simpl. rewrite Hi, Ha. unfold piperead_from.
  destruct (empty (pp s) && writeopen (pp s)) eqn:He; simpl.
  - apply andb_true_iff in He. destruct (decide (j = i)) as [->|]; [by rewrite upd_eq|].
    rewrite upd_ne by done. apply Hw.
  - pose proof (pipe_copy_ok n (pp s) Hp) as Hok.
    destruct (pipe_copy n (pp s)) as [bs p]. destruct Hok as (Hp' & Hc & _ & _ & Hr & Hwo). simpl in *.
    pose proof (wake_w (upd i Idle (procs s)) j) as Hk. destruct (wake _ _ j) as [| | | |m]; try done.
    unfold upd in Hk. case_decide; [done|]. specialize (Hw j). rewrite Hk in Hw.
    destruct Hw as [Hw1 Hw2]. by rewrite Hw1, Hw2 in He.
Qed.

Lemma calm_step e s : calm e = true -> calm_sys s -> calm_sys (pstep e s).
Proof.
  intros He Hs. pose proof Hs as [Hf Ho Ha Hw]. split; [by apply fifo_step|..].
  - destruct e as [i bs|i n|i|i|[]]; simpl in *; try done; try (by destruct (procs s i)).
    destruct (procs s i) as [|bs|n| |]; try done.
    + pose proof (pipewrite_from_ok bs (pp s) (killed s i) (ff_wf _ Hf)) as Hok.
      destruct (pipewrite_from _ _ bs) as [[p st] r]. simpl. by destruct Hok as (_ & _ & -> & _).
    + unfold piperead_from. destruct (_ && _); [by destruct (killed s i)|].
      pose proof (pipe_copy_ok n (pp s) (ff_wf _ Hf)) as Hok.
      destruct (pipe_copy n (pp s)) as [bs p]. simpl. by destruct Hok as (_ & _ & _ & _ & -> & _).
  - intros j. specialize (Ha j). destruct e as [i bs|i n|i|i|[]]; simpl in *; try done;
      try (by destruct (procs s i)). destruct (procs s i) as [|bs|n| |]; try done.
    + by destruct (pipewrite_from _ _ bs) as [[p st] r].
    + unfold piperead_from. destruct (_ && _); [by destruct (killed s i)|].
      by destruct (pipe_copy n (pp s)).
  - destruct e as [i bs|i n|i|i|[]]; try done.
    + intros j. simpl. destruct (procs s i) eqn:Hi; try apply Hw. simpl. unfold upd.
      case_decide; [done|apply Hw].
    + intros j. simpl. destruct (procs s i) eqn:Hi; try apply Hw. simpl. unfold upd.
      case_decide; [done|apply Hw].
    + destruct (procs s i) as [|bs|n| |] eqn:Hi.
      * intros j. simpl. rewrite Hi. apply Hw.
      * by eapply calm_write.
      * by eapply calm_read.
      * intros j. simpl. rewrite Hi. apply Hw.
      * intros j. simpl. rewrite Hi. apply Hw.
    + intros j. simpl. pose proof (wake_r (procs s) j) as Hk. destruct (wake _ _ j) eqn:Hj; try done.
      specialize (Hw j). by rewrite Hk in Hw.
Qed.


(** With a kill, one is: a writer that fills the pipe and finds itself killed
    returns -1 without [wakeup(&p->nread)], and a reader that went to sleep on the
    empty pipe sleeps on although the pipe is full. *)
Theorem pipe_killed_writer_loses_wakeup (d : gmap Z Z) (bs : list Z) (b : Z) :
  Z.of_nat (length bs) = PIPESIZE ->
  let s := psteps [CallRead 1 1; Run 1; CallWrite 2 (bs ++ [b]); Kill 2; Run 2] (sys_init d) in
  procs s 1%nat = AsleepR 1 /\ procs s 2%nat = Idle /\ contents (pp s) = map u8 bs.
Proof.
  intros Hl. pose proof (pipewrite_from_ok (bs ++ [b]) (pipe_init d) true (pipe_init_wf d)) as Hok.
  destruct (pipewrite_from (pipe_init d) true (bs ++ [b])) as [[p st] r] eqn:Hw.
  assert (psteps [CallRead 1 1; Run 1; CallWrite 2 (bs ++ [b]); Kill 2; Run 2] (sys_init d) =
    pstep (Run 2) (mkSys (pipe_init d)
      (upd 2 (Writing (bs ++ [b])) (upd 1 (AsleepR 1) (upd 1 (Reading 1) (fun _ => Idle))))
      (upd 2 true (fun _ => false)) [] []))%nat as -> by done.
  cbn [pstep procs pp killed sent received]. rewrite !upd_eq, Hw.
  destruct Hok as (Hp' & Hc & _ & _ & Hr). pose proof (pw_n _ Hp') as Hn. change (contents (pipe_init d)) with (@nil Z) in Hc.
  simpl in Hc. assert (Z.of_nat (length st) <= PIPESIZE) as Hlen.
  { rewrite <- Hc. unfold contents. rewrite length_map, length_seq. pose proof (count_range p). lia. }
  destruct r as [| |l].
  - rewrite Hr, length_map, length_app in Hlen. simpl in Hlen. lia.
  - destruct Hr as (Hf & _ & l0 & l & Hl0 & ->). simpl. split; [done|]. split; [done|]. rewrite Hc.
    rewrite full_count in Hf by done. apply Z.eqb_eq in Hf.
    assert (length l0 = length bs) as Hle.
    { apply (f_equal length) in Hc. unfold contents in Hc. rewrite !length_map, length_seq in Hc.
      lia. }
    f_equal. apply (f_equal (take (length bs))) in Hl0. rewrite take_app_length, <- Hle in Hl0.
    by rewrite take_app_length in Hl0.
  - destruct Hr as (_ & [_ ?] & _). done.
Qed.

(** ** Cases *)

(** Counters about to wrap, three bytes in the buffer. *)
Definition wrapping : sys :=
  mkSys (mkPipe {[ 509 := 7; 510 := 8; 511 := 9 ]} 4294967293 0 true true)
    (fun _ => Idle) (fun _ => false) [7; 8; 9] [].

Lemma wrapping_fifo : fifo wrapping.
Proof. split; [split; simpl; [lia|lia|done]|done]. Qed.

Lemma pipe_fifo_witness :
  let s' := psteps [CallWrite 1 [1; 2]; Run 1; CallRead 2 4; Run 2] wrapping in
  sent s' = received s' ++ contents (pp s') /\ received s' = [7; 8; 9; 1].
Proof.
  split; [|vm_compute; reflexivity].
  exact (proj1 (pipe_fifo [CallWrite 1 [1; 2]; Run 1; CallRead 2 4; Run 2] wrapping
                  wrapping_fifo)).
Defined.

Lemma calm_init d : calm_sys (sys_init d).
Proof. by split; [apply fifo_init| | |]. Qed.


Definition fill : list Z := replicate 512 1.

Lemma fill_length : Z.of_nat (length fill) = PIPESIZE.
Proof. unfold fill. by rewrite length_replicate. Qed.

Lemma pipe_killed_writer_loses_wakeup_witness :
  let s := psteps [CallRead 1 1; Run 1; CallWrite 2 (fill ++ [1]); Kill 2; Run 2] (sys_init ∅) in
  procs s 1%nat = AsleepR 1 /\ procs s 2%nat = Idle /\ contents (pp s) = map u8 fill.
Proof. exact (pipe_killed_writer_loses_wakeup ∅ fill 1 fill_length). Defined.
