(* ===== verification/Console.v ===== *)
(** * console.c, and printf.c beside it

    Numbers and formats ([printint], [cprintf], and printf.c's [printf]), the screen
    ([cgaputc]), and the input line ([consoleintr] and [consoleread]).  The input
    is shown to refine a queue of finished lines with one line being edited. *)

From S2P Require Import Prelude.

(** ** Numbers *)

Definition digits (d : Z) : Z := if d <? 10 then 48 + d else 97 + (d - 10).
Definition digits_user (d : Z) : Z := if d <? 10 then 48 + d else 65 + (d - 10).

(** The [do] loop: the characters of [buf], last digit first. *)
Fixpoint digit_loop (dig : Z -> Z) (fuel : nat) (x base : Z) : list Z :=
  match fuel with
  | O => []
  | S f => dig (x mod base) :: (if x / base =? 0 then [] else digit_loop dig f (x / base) base)
  end.

(** [buf] when it is printed, from its end; [x] has 32 bits, so 32 rounds are enough
    for any base. *)
Definition printint_with (dig : Z -> Z) (xx base : Z) (sign : bool) : list Z :=
  let neg := sign && (xx <? 0) in
  let x := if neg then u32 (- xx) else u32 xx in
  rev (digit_loop dig 32 x base ++ if neg then [45] else []).

(** console.c's and printf.c's. *)
Definition printint := printint_with digits.
Definition printint_user := printint_with digits_user.

(** ulib.c *)
Fixpoint atoi_loop (s : list Z) (n : Z) : Z :=
  match s with
  | c :: s' => if (48 <=? c) && (c <=? 57) then atoi_loop s' (s32 (s32 (s32 (n * 10) + c) - 48)) else n
  | [] => n
  end.
Definition atoi (s : list Z) : Z := atoi_loop s 0.

(** ** Formats *)

(** [args] are the words after [fmt] on the stack; [str a] is the C string at [a]. *)
Section format.
Variable str : Z -> list Z.

Definition string_arg (a : Z) : list Z :=
  if a =? 0 then [40; 110; 117; 108; 108; 41] else str a.

(** cprintf, from [fmt] on with the next argument at index [k]. *)
Fixpoint cprintf_from (fmt : list Z) (args : nat -> Z) (k : nat) : list Z :=
  match fmt with
  | [] => []
  | c :: fmt' =>
      if negb (c =? 37) then c :: cprintf_from fmt' args k
      else
        match fmt' with
        | [] => []
        | c :: fmt'' =>
            if c =? 100 then printint (s32 (args k)) 10 true ++ cprintf_from fmt'' args (S k)
            else if (c =? 120) || (c =? 112)
            then printint (s32 (args k)) 16 false ++ cprintf_from fmt'' args (S k)
            else if c =? 115 then string_arg (args k) ++ cprintf_from fmt'' args (S k)
            else if c =? 37 then 37 :: cprintf_from fmt'' args k
            else 37 :: c :: cprintf_from fmt'' args k
        end
  end.

Definition cprintf (fmt : list Z) (args : nat -> Z) : list Z := cprintf_from fmt args 0.

(** printf; [percent] is [state == '%']. *)
Fixpoint printf_from (fmt : list Z) (percent : bool) (ap : nat -> Z) (k : nat) : list Z :=
  match fmt with
  | [] => []
  | c :: fmt' =>
      if negb percent then
        if c =? 37 then printf_from fmt' true ap k else c :: printf_from fmt' false ap k
      else if c =? 100 then
        printint_user (s32 (ap k)) 10 true ++ printf_from fmt' false ap (S k)
      else if (c =? 120) || (c =? 112) then
        printint_user (s32 (ap k)) 16 false ++ printf_from fmt' false ap (S k)
      else if c =? 115 then string_arg (ap k) ++ printf_from fmt' false ap (S k)
      else if c =? 99 then u8 (ap k) :: printf_from fmt' false ap (S k)
      else if c =? 37 then c :: printf_from fmt' false ap k
      else 37 :: c :: printf_from fmt' false ap k
  end.

Definition printf (fmt : list Z) (ap : nat -> Z) : list Z := printf_from fmt false ap 0.
End format.

(** ** The screen *)

Definition BACKSPACE : Z := 0x100.

(** The cursor register and CGA memory, one 16-bit cell per character. *)
Record cga := mkCga { pos : Z; crt : gmap Z Z }.

Definition cell (m : gmap Z Z) (i : Z) : Z := default 0 (m !! i).

(** [memmove(crt, crt+80, 2*23*80)] and [memset(crt+p, 0, 2*n)], by cells. *)
Definition scroll_cells (m : gmap Z Z) : gmap Z Z :=
  fold_left (fun m' i => <[Z.of_nat i := cell m (Z.of_nat i + 80)]> m') (seq 0 (23 * 80)) m.
Definition clear_cells (p n : Z) (m : gmap Z Z) : gmap Z Z :=
  fold_left (fun m' i => <[p + Z.of_nat i := 0]> m') (seq 0 (Z.to_nat n)) m.

Definition cgaputc (c : Z) (g : cga) : cga :=
  let '(p, m) :=
    if c =? 10 then (pos g + (80 - pos g mod 80), crt g)
    else if c =? BACKSPACE then (if 0 <? pos g then pos g - 1 else pos g, crt g)
    else (pos g + 1, <[pos g := Z.lor (Z.land c 0xff) 0x0700]> (crt g)) in
  let '(p, m) :=
    if 24 <=? p / 80 then (p - 80, clear_cells (p - 80) (24 * 80 - (p - 80)) (scroll_cells m))
    else (p, m) in
  mkCga (p mod 65536) (<[p := Z.lor 32 0x0700]> m).

(** Serial line and screen; once a CPU has panicked the others stop here. *)
Definition consputc (panicked : bool) (c : Z) (st : list Z * cga) : option (list Z * cga) :=
  if panicked then None
  else Some (st.1 ++ (if c =? BACKSPACE then [8; 32; 8] else [c]), cgaputc c st.2).

(** ** The input line *)

Definition INPUT_BUF : Z := 128.
Definition C (x : Z) : Z := x - 64.

Record input := mkInput { buf : gmap Z Z; r : Z; w : Z; e : Z }.

Definition at_buf (i : input) (k : Z) : Z := default 0 (buf i !! (k mod INPUT_BUF)).

(** What the interrupt handler does beside: characters echoed, the wakeup of
    readers, the process listing. *)
Inductive effect := Put (c : Z) | Wakeup | Procdump.

(** Kill line: [n] bounds the rounds; the edited part has at most INPUT_BUF. *)
Fixpoint kill_line (n : nat) (i : input) : input * list effect :=
  match n with
  | O => (i, [])
  | S n' =>
      if negb (e i =? w i) && negb (at_buf i (u32 (e i - 1)) =? 10) then
        let '(i', tr) := kill_line n' (mkInput (buf i) (r i) (w i) (u32 (e i - 1))) in
        (i', Put BACKSPACE :: tr)
      else (i, [])
  end.

(** One character of consoleintr's loop. *)
Definition intr_char (c : Z) (i : input) : input * list effect :=
  if c =? C 80 then (i, [Procdump])
  else if c =? C 85 then kill_line (Z.to_nat INPUT_BUF) i
  else if (c =? C 72) || (c =? 127) then
    if negb (e i =? w i) then (mkInput (buf i) (r i) (w i) (u32 (e i - 1)), [Put BACKSPACE])
    else (i, [])
  else
    if negb (c =? 0) && (u32 (e i - r i) <? INPUT_BUF) then
      let c := if c =? 13 then 10 else c in
      let i1 := mkInput (<[e i mod INPUT_BUF := u8 c]> (buf i)) (r i) (w i) (u32 (e i + 1)) in
      if (c =? 10) || (c =? C 68) || (e i1 =? u32 (r i1 + INPUT_BUF))
      then (mkInput (buf i1) (r i1) (e i1) (e i1), [Put c; Wakeup])
      else (i1, [Put c])
    else (i, []).

(** [getc] returns the characters of [cs] and then a negative number. *)
Fixpoint consoleintr (cs : list Z) (i : input) : input * list effect :=
  match cs with
  | [] => (i, [])
  | c :: cs' =>
      let '(i1, t1) := intr_char c i in
      let '(i2, t2) := consoleintr cs' i1 in (i2, t1 ++ t2)
  end.

(** consoleread, from where it holds the lock with [n] bytes still wanted of [target];
    a process that sleeps goes on with the [n] it had. *)
Inductive cres := CDone (got : list Z) | CSleep (got : list Z) (n : nat) | CFail.

Fixpoint consoleread_from (n : nat) (target : nat) (killed : bool) (i : input) : input * cres :=
  match n with
  | O => (i, CDone [])
  | S n' =>
      if r i =? w i then (i, if killed then CFail else CSleep [] n)
      else
        let c := at_buf i (r i) in
        let i1 := mkInput (buf i) (u32 (r i + 1)) (w i) (e i) in
        if c =? C 68 then
          if (n <? target)%nat then (mkInput (buf i) (u32 (r i1 - 1)) (w i) (e i), CDone [])
          else (i1, CDone [])
        else if c =? 10 then (i1, CDone [c])
        else
          let '(i2, res) := consoleread_from n' target killed i1 in
          (i2, match res with
               | CDone got => CDone (c :: got)
               | CSleep got n => CSleep (c :: got) n
               | CFail => CFail
               end)
  end.

(** ** Printed numbers *)

Lemma digit_loop_length dig f x base : 2 <= base -> 0 <= x < base ^ Z.of_nat f ->
  (1 <= f)%nat -> (length (digit_loop dig f x base) <= f)%nat.
Proof.
  intros Hb. revert x. induction f as [|f IH]; intros x Hx Hf; [lia|]. cbn [digit_loop length].
  destruct (Z.eqb_spec (x / base) 0); [simpl; lia|].
  destruct f as [|f]; [change (base ^ Z.of_nat 1) with (base ^ 1) in Hx; rewrite Z.pow_1_r in Hx;
    rewrite Z.div_small in * by lia; done|].
  assert (length (digit_loop dig (S f) (x / base) base) <= S f)%nat; [|lia].
  apply IH; [|lia]. split; [apply Z.div_pos; lia|]. apply Z.div_lt_upper_bound; [lia|].
  rewrite <- Z.pow_succ_r by lia. replace (Z.succ (Z.of_nat (S f))) with (Z.of_nat (S (S f))) by lia. lia.
Qed.

(** More fuel than digits changes nothing. *)
Lemma digit_loop_fuel dig f g x base : 2 <= base -> 0 <= x < base ^ Z.of_nat f -> (1 <= f <= g)%nat ->
  digit_loop dig g x base = digit_loop dig f x base.
Proof.
  intros Hb. revert g x. induction f as [|f IH]; intros g x Hx Hf; [lia|].
  destruct g as [|g]; [lia|]. cbn [digit_loop]. f_equal.
  destruct (Z.eqb_spec (x / base) 0); [done|].
  destruct f as [|f]; [change (base ^ Z.of_nat 1) with (base ^ 1) in Hx; rewrite Z.pow_1_r in Hx;
    rewrite Z.div_small in * by lia; done|].
  apply IH; [|lia]. split; [apply Z.div_pos; lia|]. apply Z.div_lt_upper_bound; [lia|].
  rewrite <- Z.pow_succ_r by lia. replace (Z.succ (Z.of_nat (S f))) with (Z.of_nat (S (S f))) by lia. lia.
Qed.

Definition is_digit (c : Z) : Prop := 48 <= c <= 57.

Lemma atoi_loop_app l l' n : Forall is_digit l ->
  atoi_loop (l ++ l') n = atoi_loop l' (atoi_loop l n).
Proof.
  intros Hl. revert n. induction Hl as [|c l Hc _ IH]; intros n; [done|]. simpl.
  unfold is_digit in Hc. rewrite (proj2 (Z.leb_le 48 c)), (proj2 (Z.leb_le c 57)) by lia. apply IH.
Qed.

Lemma atoi_digits dig f x :
  (forall d, 0 <= d < 10 -> dig d = 48 + d) -> 0 <= x < 2 ^ 31 -> x < 10 ^ Z.of_nat f ->
  (1 <= f)%nat ->
  let l := rev (digit_loop dig f x 10) in Forall is_digit l /\ atoi_loop l 0 = x.
Proof.
  intros Hd. revert x. induction f as [|f IH]; intros x Hx Hf Hf1; [lia|]. cbn [digit_loop rev].
  pose proof (Z.mod_pos_bound x 10 ltac:(lia)) as Hm. rewrite Hd by lia.
  assert (forall n, 0 <= n -> n * 10 + x mod 10 = x ->
    atoi_loop [48 + x mod 10] n = x) as Hlast.
  { intros n Hn He. simpl. rewrite (proj2 (Z.leb_le 48 _)), (proj2 (Z.leb_le _ 57)) by lia. simpl.
    unfold s32, u32 in *. repeat case_match; bool_prop; zlia. }
  destruct (Z.eqb_spec (x / 10) 0) as [Hz|Hz].
  - simpl. split; [constructor; [unfold is_digit; lia|constructor]|]. apply Hlast; zlia.
  - destruct f as [|f].
    { change (10 ^ Z.of_nat 1) with 10 in Hf. rewrite Z.div_small in Hz by lia. done. }
    destruct (IH (x / 10)) as [IH1 IH2]; [zlia| |lia|].
    { apply Z.div_lt_upper_bound; [lia|]. rewrite <- Z.pow_succ_r by lia.
      replace (Z.succ (Z.of_nat (S f))) with (Z.of_nat (S (S f))) by lia. lia. }
    split.
    + apply Forall_app. split; [done|]. constructor; [unfold is_digit; lia|constructor].
    + rewrite atoi_loop_app, IH2 by done. apply Hlast; zlia.
Qed.

(** A number that printf prints in decimal is read back by atoi, a negative one
    is printed as '-' and its absolute value, and the digits and sign of a number
    in base 10 or 16 fit the 16 bytes of [buf]. *)
Theorem printint_atoi x : 0 <= x < 2 ^ 31 ->
  atoi (printint_user x 10 true) = x /\
  (0 < x -> printint_user (- x) 10 true = 45 :: printint_user x 10 true) /\
  (length (printint_user (- x) 10 true) <= 16)%nat /\
  (length (printint (s32 (2 * x + 1)) 16 false) <= 16)%nat.
Proof.
  intros Hx. unfold atoi, printint_user, printint_with. simpl andb.
  rewrite (proj2 (Z.ltb_ge x 0)) by lia. rewrite (u32_small x) by lia.
  assert (x < 10 ^ Z.of_nat 10) by (change (10 ^ Z.of_nat 10) with 10000000000; lia).
  rewrite app_nil_r, (digit_loop_fuel _ 10 32) by lia.
  destruct (atoi_digits digits_user 10 x) as [_ Ha]; [|lia|lia|lia|].
  { intros d Hd. unfold digits_user. by rewrite (proj2 (Z.ltb_lt d 10)) by lia. }
  split; [done|]. split; [|split].
  - intros Hp. rewrite (proj2 (Z.ltb_lt (- x) 0)) by lia.
    rewrite Z.opp_involutive, (u32_small x), (digit_loop_fuel _ 10 32), rev_app_distr by lia. done.
  - destruct (Z.ltb_spec (- x) 0); [rewrite Z.opp_involutive, (u32_small x)|
      assert (x = 0) as -> by lia; rewrite (u32_small (-0))]; try lia;
      rewrite (digit_loop_fuel _ 10 32) by (change (10 ^ Z.of_nat 10) with 10000000000; lia);
      rewrite length_rev, length_app; simpl length at 2.
    + pose proof (digit_loop_length digits_user 10 x 10). lia.
    + pose proof (digit_loop_length digits_user 10 (-0) 10). simpl in *. lia.
  - unfold printint, printint_with. simpl andb.
    pose proof (u32_range (s32 (2 * x + 1))) as Hu. set (y := u32 (s32 (2 * x + 1))) in *.
    rewrite (digit_loop_fuel _ 8 32) by (change (16 ^ Z.of_nat 8) with (2 ^ 32); lia).
    rewrite length_rev, app_nil_r. pose proof (digit_loop_length digits 8 y 16).
    change (16 ^ Z.of_nat 8) with (2 ^ 32) in *. lia.
Qed.

Lemma printint_atoi_witness : atoi (printint_user 2147483647 10 true) = 2147483647.
Proof. apply (printint_atoi 2147483647). lia. Defined.

(** ** One format language *)

(** No conversion whose result differs by design: %x and %p (the case of the digits)
    and %c (which cprintf does not know). *)
Fixpoint common (fmt : list Z) : bool :=
  match fmt with
  | [] => true
  | c :: fmt' =>
      if c =? 37 then
        match fmt' with
        | [] => true
        | c :: fmt'' => negb ((c =? 120) || (c =? 112) || (c =? 99)) && common fmt''
        end
      else common fmt'
  end.

Lemma digits_agree f x : digit_loop digits f x 10 = digit_loop digits_user f x 10.
Proof.
  revert x. induction f as [|f IH]; intros x; [done|]. cbn [digit_loop]. rewrite IH. f_equal.
  pose proof (Z.mod_pos_bound x 10 ltac:(lia)). unfold digits, digits_user.
  by rewrite (proj2 (Z.ltb_lt (x mod 10) 10)) by lia.
Qed.

Lemma printint_agree x : printint x 10 true = printint_user x 10 true.
Proof. unfold printint, printint_user, printint_with. by rewrite digits_agree. Qed.

Lemma printf_cprintf_from str n fmt args k : (length fmt <= n)%nat -> common fmt = true ->
  printf_from str fmt false args k = cprintf_from str fmt args k.
Proof.
  revert fmt k. induction n as [|n IH]; intros fmt k Hn Hc; (destruct fmt as [|c fmt]; [done|]);
    simpl in Hn; [lia|]. cbn [printf_from cprintf_from common negb] in *.
  destruct (Z.eqb_spec c 37) as [->|Hc37]; simpl.
  - destruct fmt as [|d fmt]; [done|]. simpl in Hn. apply andb_true_iff in Hc as [Hd Hc].
    apply negb_true_iff, orb_false_iff in Hd as [Hd Hd99]. cbn [printf_from negb].
    rewrite Hd, Hd99, printint_agree. rewrite !IH by (done || lia).
    destruct (Z.eqb_spec d 37) as [->|]; done.
  - f_equal. apply IH; [lia|done].
Qed.

(** The kernel's cprintf and the user library's printf print the same text for
    the same format and arguments, but for %x, %p and %c. *)
Lemma printf_cprintf str fmt args : common fmt = true ->
  printf str fmt args = cprintf str fmt args.
Proof. intros Hc. by apply (printf_cprintf_from str (length fmt)). Qed.

Lemma printf_cprintf_witness :
  printf (fun _ => [97]) [120; 61; 37; 100; 37; 115; 37; 37; 37; 113] (fun k => Z.of_nat k) =
  cprintf (fun _ => [97]) [120; 61; 37; 100; 37; 115; 37; 37; 37; 113] (fun k => Z.of_nat k).
Proof.
  apply (printf_cprintf (fun _ => [97]) [120; 61; 37; 100; 37; 115; 37; 37; 37; 113]). reflexivity.
Defined.

(** ** The screen *)

Lemma fold_insert_out {A} (f : A -> Z) (g : A -> Z) (l : list A) (m : gmap Z Z) i :
  (forall x, x ∈ l -> f x <> i) ->
  fold_left (fun m' x => <[f x := g x]> m') l m !! i = m !! i.
Proof.
  revert m. induction l as [|x l IH]; intros m Hl; [done|]. simpl. rewrite IH.
  - rewrite lookup_insert_ne; [done|]. apply Hl, elem_of_cons. by left.
  - intros y Hy. apply Hl, elem_of_cons. by right.
Qed.

(** The screen: from a cursor on one of the 24 lines, any character leaves the
    cursor on one of them, and CGA memory is written nowhere else. *)
Lemma cgaputc_bounds c g : 0 <= pos g < 24 * 80 ->
  0 <= pos (cgaputc c g) < 24 * 80 /\
  forall i, ~ 0 <= i < 24 * 80 -> crt (cgaputc c g) !! i = crt g !! i.
Proof.
  intros Hp. unfold cgaputc.
  set (pm := if c =? 10 then _ else _).
  assert (0 <= pm.1 <= 24 * 80 /\ forall i, ~ 0 <= i < 24 * 80 -> pm.2 !! i = crt g !! i) as [H1 H2].
  { unfold pm. destruct (c =? 10); [simpl; split; [zlia|done]|].
    destruct (c =? BACKSPACE); [destruct (Z.ltb_spec 0 (pos g)); simpl; split; done || lia|].
    simpl. split; [lia|]. intros i Hi. rewrite lookup_insert_ne by lia. done. }
  clearbody pm. destruct pm as [p m]. simpl in H1, H2.
  destruct (Z.leb_spec 24 (p / 80)) as [Hs|Hs]; cbn [pos crt].
  - assert (p = 1920) as -> by zlia. split; [done|]. intros i Hi.
    rewrite lookup_insert_ne by lia. unfold clear_cells. rewrite fold_insert_out.
    + unfold scroll_cells. rewrite fold_insert_out; [by apply H2|].
      intros x Hx. apply elem_of_seq in Hx. lia.
    + intros x Hx. apply elem_of_seq in Hx. lia.
  - assert (p < 1920) by zlia. rewrite Z.mod_small by lia. split; [lia|]. intros i Hi.
    rewrite lookup_insert_ne by lia. by apply H2.
Qed.

Lemma cgaputc_bounds_witness : 0 <= pos (cgaputc 10 (mkCga 1919 ∅)) < 24 * 80.
Proof. apply (cgaputc_bounds 10 (mkCga 1919 ∅)). simpl. lia. Defined.

(** ** Lines: the specification

    [ready] are the bytes a read may take, [line] the ones still being edited. *)
Record lines := mkLines { ready : list Z; line : list Z }.

Definition line_char (c : Z) (l : lines) : lines :=
  if c =? C 80 then l
  else if c =? C 85 then mkLines (ready l) []
  else if (c =? C 72) || (c =? 127) then mkLines (ready l) (removelast (line l))
  else
    if negb (c =? 0) && (Z.of_nat (length (ready l) + length (line l)) <? INPUT_BUF) then
      let c := if c =? 13 then 10 else c in
      let line' := line l ++ [c] in
      if (c =? 10) || (c =? C 68) || (Z.of_nat (length (ready l) + length line') =? INPUT_BUF)
      then mkLines (ready l ++ line') [] else mkLines (ready l) line'
    else l.

(** A read of at most [n] bytes from what is ready: up to the end of a line, or to an
    end-of-file mark, which is taken only by a read that would be empty. *)
Fixpoint line_read (n target : nat) (q : list Z) : option (list Z * list Z) :=
  match n, q with
  | O, _ => Some ([], q)
  | S _, [] => None
  | S n', c :: q' =>
      if c =? C 68 then if (n <? target)%nat then Some ([], q) else Some ([], q')
      else if c =? 10 then Some ([c], q')
      else match line_read n' target q' with
           | Some (got, q'') => Some (c :: got, q'')
           | None => None
           end
  end.

(** The representation; an unfinished line has no newline. *)
Record stored (i : input) (l : lines) : Prop := {
  ir_r : 0 <= r i < 2 ^ 32;
  ir_w : w i = u32 (r i + Z.of_nat (length (ready l)));
  ir_e : e i = u32 (w i + Z.of_nat (length (line l)));
  ir_n : Z.of_nat (length (ready l) + length (line l)) <= INPUT_BUF;
  ir_ready : ready l = ring (buf i) INPUT_BUF (r i) (length (ready l));
  ir_line : line l = ring (buf i) INPUT_BUF (w i) (length (line l)) }.

Definition input_rep (i : input) (l : lines) : Prop :=
  stored i l /\ Forall (fun c => c <> 10) (line l).

Lemma u32_mod128 x : u32 x mod INPUT_BUF = x mod INPUT_BUF.
Proof. unfold u32, INPUT_BUF. zlia. Qed.

(** The last byte of the line. *)
Lemma rep_last i l c line' : input_rep i l -> line l = line' ++ [c] ->
  at_buf i (u32 (e i - 1)) = c /\
  input_rep (mkInput (buf i) (r i) (w i) (u32 (e i - 1))) (mkLines (ready l) line').
Proof.
  intros [[R1 R2 R3 R4 R5 R6] R7] Hl. rewrite Hl, length_app in *. simpl length in *.
  rewrite ring_app in R6. apply app_inj_1 in R6 as [E1 E2]; [|by rewrite length_ring].
  unfold ring in E2. simpl in E2. injection E2 as E2.
  assert (u32 (e i - 1) = u32 (w i + Z.of_nat (length line'))) as He.
  { rewrite R3. unfold u32. zlia. }
  split.
  - unfold at_buf. rewrite He, u32_mod128, E2. do 3 f_equal. lia.
  - apply Forall_app in R7 as [R7 _]. split; [|done]. split; simpl; try done. lia.
Qed.

Lemma rep_empty_line i l : input_rep i l -> (e i =? w i) = match line l with [] => true | _ => false end.
Proof.
  intros [[R1 R2 R3 R4 R5 R6] R7]. destruct (line l) as [|c line'] eqn:Hl; simpl length in *.
  - rewrite R3, Z.add_0_r. apply Z.eqb_eq. rewrite R2. unfold u32. zlia.
  - apply Z.eqb_neq. rewrite R3. pose proof (u32_range (r i + Z.of_nat (length (ready l)))).
    rewrite <- R2 in *. unfold u32, INPUT_BUF in *. zlia.
Qed.

Lemma list_snoc (l : list Z) : l = [] \/ exists l' c, l = l' ++ [c].
Proof. induction l as [|c l _] using rev_ind; [by left|right; by exists l, c]. Qed.

Lemma kill_line_rep n i l : input_rep i l -> (length (line l) <= n)%nat ->
  input_rep (kill_line n i).1 (mkLines (ready l) []).
Proof.
  revert i l. induction n as [|n IH]; intros i l Hr Hn; cbn [kill_line].
  { assert (line l = []) as Hl by (by destruct (line l); [|simpl in Hn; lia]).
    destruct l as [q x]; simpl in *. by subst. }
  rewrite (rep_empty_line _ _ Hr). destruct (list_snoc (line l)) as [Hl|(line' & c & Hl)].
  - rewrite Hl. simpl. destruct l as [q x]; simpl in *. by subst.
  - destruct (rep_last _ _ _ _ Hr Hl) as [Hc Hr']. pose proof (proj2 Hr) as Hnl.
    rewrite Hl in Hnl. apply Forall_app in Hnl as [_ Hnl]. apply Forall_cons in Hnl as [Hnl _].
    rewrite Hc, (proj2 (Z.eqb_neq c 10) Hnl), Hl.
    replace (match line' ++ [c] with [] => true | _ => false end) with false by (by destruct line').
    simpl. rewrite Hl, length_app in Hn. simpl in Hn.
    specialize (IH _ _ Hr' ltac:(simpl; lia)). simpl in IH.
    by destruct (kill_line n _) as [i' tr].
Qed.

(** Storing one more byte. *)
Lemma rep_put i l c : stored i l -> 0 <= c < 256 ->
  Z.of_nat (length (ready l) + length (line l)) < INPUT_BUF ->
  stored (mkInput (<[e i mod INPUT_BUF := u8 c]> (buf i)) (r i) (w i) (u32 (e i + 1)))
    (mkLines (ready l) (line l ++ [c])).
Proof.
  intros [R1 R2 R3 R4 R5 R6] Hc Hn. assert (0 < INPUT_BUF) as H0 by done.
  assert (e i mod INPUT_BUF = (w i + Z.of_nat (length (line l))) mod INPUT_BUF) as He
    by (rewrite R3; apply u32_mod128).
  assert (e i mod INPUT_BUF =
    (r i + Z.of_nat (length (ready l) + length (line l))) mod INPUT_BUF) as He'.
  { rewrite He, Nat2Z.inj_add, Z.add_assoc. apply mod_shift; [done|]. rewrite R2.
    apply u32_mod128. }
  split; simpl; try done.
  - rewrite length_app. simpl. rewrite R3. unfold u32. zlia.
  - rewrite length_app. simpl. lia.
  - rewrite ring_insert; [done|]. intros k Hk E. rewrite He' in E.
    apply mod_inj in E; lia.
  - rewrite length_app, ring_app. simpl length. rewrite ring_insert.
    + rewrite <- R6. f_equal. rewrite ring_S. unfold ring at 1. simpl. f_equal.
      rewrite <- He, lookup_insert_eq. simpl. unfold u8. zlia.
    + intros k Hk E. rewrite He in E. apply mod_inj in E; lia.
Qed.

(** Making the line ready. *)
Lemma rep_commit i l : stored i l ->
  input_rep (mkInput (buf i) (r i) (e i) (e i)) (mkLines (ready l ++ line l) []).
Proof.
  intros [R1 R2 R3 R4 R5 R6]. split; [|constructor]. split; simpl; try done.
  - rewrite R3, R2, length_app. unfold u32. zlia.
  - rewrite R3, R2. unfold u32. zlia.
  - rewrite length_app. lia.
  - rewrite length_app, ring_app, <- R5. f_equal. rewrite R6 at 1. apply ring_mod; [done|].
    rewrite R2. apply u32_mod128.
Qed.

Lemma stored_count i l : stored i l ->
  u32 (e i - r i) = Z.of_nat (length (ready l) + length (line l)).
Proof. intros [R1 R2 R3 R4 R5 R6]. rewrite R3, R2. unfold u32, INPUT_BUF in *. zlia. Qed.

Lemma stored_full i l : stored i l -> (e i =? u32 (r i + INPUT_BUF)) =
  (Z.of_nat (length (ready l) + length (line l)) =? INPUT_BUF).
Proof.
  intros Hs. rewrite <- (stored_count i l Hs). destruct Hs as [R1 R2 R3 R4 R5 R6].
  assert (0 <= e i < 2 ^ 32) by (rewrite R3; apply u32_range). unfold u32, INPUT_BUF in *.
  destruct (Z.eqb_spec (e i) ((r i + 128) mod 2 ^ 32)), (Z.eqb_spec ((e i - r i) mod 2 ^ 32) 128);
    done || zlia.
Qed.

Lemma intr_char_rep c i l : 0 <= c < 256 -> input_rep i l ->
  input_rep (intr_char c i).1 (line_char c l).
Proof.
  intros Hc Hr. pose proof Hr as [Hs Hnl]. unfold intr_char, line_char.
  destruct (c =? C 80); [done|]. destruct (c =? C 85).
  { apply kill_line_rep; [done|]. pose proof (ir_n _ _ Hs). unfold INPUT_BUF in *. lia. }
  destruct ((c =? C 72) || (c =? 127)).
  { rewrite (rep_empty_line _ _ Hr). destruct (list_snoc (line l)) as [Hl|(line' & x & Hl)].
    - rewrite Hl. simpl. destruct l as [q z]; simpl in *. by subst.
    - rewrite Hl, removelast_last.
      replace (match line' ++ [x] with [] => true | _ => false end) with false by (by destruct line').
      by apply (rep_last _ _ x). }
  rewrite (stored_count _ _ Hs).
  destruct (negb (c =? 0) && (Z.of_nat (length (ready l) + length (line l)) <? INPUT_BUF)) eqn:Hg;
    [|done].
  apply andb_true_iff in Hg as [_ Hn]. apply Z.ltb_lt in Hn.
  set (c' := if c =? 13 then 10 else c). assert (0 <= c' < 256) as Hc'
    by (unfold c'; destruct (c =? 13); lia).
  pose proof (rep_put i l c' Hs Hc' Hn) as Hp. cbv zeta. rewrite (stored_full _ _ Hp).
  cbn [ready line]. set (i1 := mkInput _ _ _ _) in *.
  destruct ((c' =? 10) || (c' =? C 68) || (_ =? INPUT_BUF)) eqn:Hf; cbn [fst].
  - apply (rep_commit _ _ Hp).
  - split; [exact Hp|]. apply orb_false_iff in Hf as [Hf _]. apply orb_false_iff in Hf as [Hf _].
    apply Z.eqb_neq in Hf. apply Forall_app. split; [done|]. by constructor; [|constructor].
Qed.

Lemma rep_empty_ready i l : stored i l ->
  (r i =? w i) = match ready l with [] => true | _ => false end.
Proof.
  intros [R1 R2 R3 R4 R5 R6]. destruct (ready l) as [|c q] eqn:Hq; simpl length in *.
  - rewrite R2, Z.add_0_r, u32_small by lia. apply Z.eqb_refl.
  - apply Z.eqb_neq. rewrite R2. unfold u32, INPUT_BUF in *. zlia.
Qed.

Lemma rep_get i l c q : input_rep i l -> ready l = c :: q ->
  at_buf i (r i) = c /\
  input_rep (mkInput (buf i) (u32 (r i + 1)) (w i) (e i)) (mkLines q (line l)).
Proof.
  intros [[R1 R2 R3 R4 R5 R6] Hnl] Hq. rewrite Hq in *. simpl length in *.
  rewrite ring_S in R5. injection R5 as E1 E2. split; [by rewrite E1|]. split; [|done].
  split; simpl; try done.
  - apply u32_range.
  - rewrite R2. unfold u32. zlia.
  - lia.
  - rewrite E2 at 1. apply ring_mod; [done|]. symmetry. apply u32_mod128.
Qed.

Lemma rep_unget i l : input_rep i l -> u32 (u32 (r i + 1) - 1) = r i.
Proof. intros [[R1 _ _ _ _ _] _]. unfold u32. zlia. Qed.

Lemma consoleread_rep n target kl i l : input_rep i l ->
  match line_read n target (ready l) with
  | Some (got, q) => exists i', consoleread_from n target kl i = (i', CDone got) /\
      input_rep i' (mkLines q (line l))
  | None => exists i' res, consoleread_from n target kl i = (i', res) /\
      input_rep i' (mkLines [] (line l)) /\
      match res with CDone _ => False | CSleep _ _ => kl = false | CFail => kl = true end
  end.
Proof.
  revert i l. induction n as [|n IH]; intros i l Hr; cbn [line_read consoleread_from].
  { exists i. split; [done|]. by destruct l. }
  rewrite (rep_empty_ready _ _ (proj1 Hr)). destruct (ready l) as [|c q] eqn:Hq.
  { exists i, (if kl then CFail else CSleep [] (S n)). split; [done|].
    split; [destruct l; simpl in *; by subst|by destruct kl]. }
  destruct (rep_get _ _ _ _ Hr Hq) as [Hc Hr']. rewrite Hc.
  destruct (c =? C 68).
  { destruct (S n <? target)%nat.
    - eexists. split; [done|]. cbn [r]. rewrite (rep_unget _ _ Hr).
      rewrite <- Hq. by destruct i, l.
    - eexists. split; [done|]. done. }
  destruct (c =? 10); [by eexists; split|].
  specialize (IH _ _ Hr'). cbn [ready line] in IH.
  destruct (line_read n target q) as [[got q']|].
  - destruct IH as (i' & -> & Hi'). by exists i'.
  - destruct IH as (i' & res & -> & Hi' & Hres). exists i'.
    destruct res as [|got m|]; [done|by exists (CSleep (c :: got) m)|by exists CFail].
Qed.

(** C40. The console input is a queue of finished lines and one line being edited: any
    sequence of keys changes the ring buffer as it changes the two lists, with
    backspace and kill-line working on the edited line only and at most INPUT_BUF
    bytes in all. *)
Theorem consoleintr_refines cs i l : Forall (fun c => 0 <= c < 256) cs -> input_rep i l ->
  input_rep (consoleintr cs i).1 (fold_left (fun l c => line_char c l) cs l).
Proof.
  intros Hcs. revert i l. induction Hcs as [|c cs Hc _ IH]; intros i l Hr; [done|].
  cbn [consoleintr fold_left]. pose proof (intr_char_rep c i l Hc Hr) as H1.
  destruct (intr_char c i) as [i1 t1]. cbn [fst] in H1. specialize (IH _ _ H1).
  by destruct (consoleintr cs i1) as [i2 t2].
Qed.

(** A console read takes finished input only: up to [n] bytes, to the end of a line
    or to an end-of-file mark, and sleeps (or fails, when the process is killed)
    iff what is ready does not complete it. *)
Theorem consoleread_refines n target kl i l : input_rep i l ->
  match line_read n target (ready l) with
  | Some (got, q) => exists i', consoleread_from n target kl i = (i', CDone got) /\
      input_rep i' (mkLines q (line l))
  | None => exists i' res, consoleread_from n target kl i = (i', res) /\
      input_rep i' (mkLines [] (line l)) /\
      match res with CDone _ => False | CSleep _ _ => kl = false | CFail => kl = true end
  end.
Proof. apply consoleread_rep. Qed.

Lemma input_init_rep : input_rep (mkInput ∅ 0 0 0) (mkLines [] []).
Proof. by split; [split; simpl; try done; lia|constructor]. Qed.

(** "ab", backspace, "c", return; then a read of ten bytes. *)
Lemma consoleintr_refines_witness :
  input_rep (consoleintr [97; 98; 8; 99; 13] (mkInput ∅ 0 0 0)).1 (mkLines [97; 99; 10] []).
Proof.
  apply (consoleintr_refines [97; 98; 8; 99; 13] (mkInput ∅ 0 0 0) (mkLines [] [])).
  - repeat constructor; lia.
  - apply input_init_rep.
Defined.

Lemma consoleread_refines_witness : exists i',
  consoleread_from 10 10 false (consoleintr [97; 13] (mkInput ∅ 0 0 0)).1 = (i', CDone [97; 10]).
Proof.
  destruct (consoleread_refines 10 10 false (consoleintr [97; 13] (mkInput ∅ 0 0 0)).1
              (mkLines [97; 10] [])) as (i' & Hi & _).
  - split; [|constructor]. split; vm_compute; (reflexivity || intuition congruence).
  - exists i'. exact Hi.
Defined.
