(* ===== verification/Kbd.v ===== *)
(** * kbd.c: scan codes to characters

    The tables of kbd.h and kbdgetc, which keeps the state of the modifier keys in a
    static variable.  Lemmas: what letters give under shift, caps lock and control, the
    range of state and result, and that the keys of a modifier undo each other. *)

From S2P Require Import Prelude Console.

(** ** kbd.h *)

Definition NO : Z := 0.
Definition SHIFT : Z := Z.shiftl 1 0.
Definition CTL : Z := Z.shiftl 1 1.
Definition ALT : Z := Z.shiftl 1 2.
Definition CAPSLOCK : Z := Z.shiftl 1 3.
Definition NUMLOCK : Z := Z.shiftl 1 4.
Definition SCROLLLOCK : Z := Z.shiftl 1 5.
Definition E0ESC : Z := Z.shiftl 1 6.

Definition KEY_HOME : Z := 0xE0.
Definition KEY_END : Z := 0xE1.
Definition KEY_UP : Z := 0xE2.
Definition KEY_DN : Z := 0xE3.
Definition KEY_LF : Z := 0xE4.
Definition KEY_RT : Z := 0xE5.
Definition KEY_PGUP : Z := 0xE6.
Definition KEY_PGDN : Z := 0xE7.
Definition KEY_INS : Z := 0xE8.
Definition KEY_DEL : Z := 0xE9.

(** A table of 256 bytes: the first entries in order, then some by index. *)
Fixpoint designated (l : list (Z * Z)) (i : Z) : Z :=
  match l with [] => 0 | (j, v) :: l => if i =? j then u8 v else designated l i end.
Definition table (first : list Z) (rest : list (Z * Z)) (i : Z) : Z :=
  if i <? Z.of_nat (length first) then u8 (nth (Z.to_nat i) first 0) else designated rest i.

Definition shiftcode : Z -> Z :=
  table [] [(0x1D, CTL); (0x2A, SHIFT); (0x36, SHIFT); (0x38, ALT); (0x9D, CTL); (0xB8, ALT)].

Definition togglecode : Z -> Z := table [] [(0x3A, CAPSLOCK); (0x45, NUMLOCK); (0x46, SCROLLLOCK)].

(** The keys behind the escape 0xE0 that are the same in all three maps. *)
Definition grey : list (Z * Z) :=
  [(0xC8, KEY_UP); (0xD0, KEY_DN); (0xC9, KEY_PGUP); (0xD1, KEY_PGDN); (0xCB, KEY_LF); (0xCD, KEY_RT);
   (0x97, KEY_HOME); (0xCF, KEY_END); (0xD2, KEY_INS); (0xD3, KEY_DEL)].

Definition normalmap : Z -> Z :=
  table [NO; 0x1B; 49; 50; 51; 52; 53; 54;          55; 56; 57; 48; 45; 61; 8; 9;
         113; 119; 101; 114; 116; 121; 117; 105;    111; 112; 91; 93; 10; NO; 97; 115;
         100; 102; 103; 104; 106; 107; 108; 59;     39; 96; NO; 92; 122; 120; 99; 118;
         98; 110; 109; 44; 46; 47; NO; 42;          NO; 32; NO; NO; NO; NO; NO; NO;
         NO; NO; NO; NO; NO; NO; NO; 55;            56; 57; 45; 52; 53; 54; 43; 49;
         50; 51; 48; 46; NO; NO; NO; NO]
        ((0x9C, 10) :: (0xB5, 47) :: grey).

Definition shiftmap : Z -> Z :=
  table [NO; 27; 33; 64; 35; 36; 37; 94;            38; 42; 40; 41; 95; 43; 8; 9;
         81; 87; 69; 82; 84; 89; 85; 73;            79; 80; 123; 125; 10; NO; 65; 83;
         68; 70; 71; 72; 74; 75; 76; 58;            34; 126; NO; 124; 90; 88; 67; 86;
         66; 78; 77; 60; 62; 63; NO; 42;            NO; 32; NO; NO; NO; NO; NO; NO;
         NO; NO; NO; NO; NO; NO; NO; 55;            56; 57; 45; 52; 53; 54; 43; 49;
         50; 51; 48; 46; NO; NO; NO; NO]
        ((0x9C, 10) :: (0xB5, 47) :: grey).

(** The macro C(x) of kbd.h. *)
Definition Ctl (x : Z) : Z := x - 64.

Definition ctlmap : Z -> Z :=
  table [NO; NO; NO; NO; NO; NO; NO; NO;            NO; NO; NO; NO; NO; NO; NO; NO;
         Ctl 81; Ctl 87; Ctl 69; Ctl 82; Ctl 84; Ctl 89; Ctl 85; Ctl 73;
         Ctl 79; Ctl 80; NO; NO; 13; NO; Ctl 65; Ctl 83;
         Ctl 68; Ctl 70; Ctl 71; Ctl 72; Ctl 74; Ctl 75; Ctl 76; NO;
         NO; NO; NO; Ctl 92; Ctl 90; Ctl 88; Ctl 67; Ctl 86;
         Ctl 66; Ctl 78; Ctl 77; NO; NO; Ctl 47; NO; NO]
        ((0x9C, 13) :: (0xB5, Ctl 47) :: grey).

(** ** kbd.c *)

Definition charcode (k : Z) : Z -> Z :=
  if k =? 0 then normalmap else if k =? 1 then shiftmap else ctlmap.

Definition capsed (c : Z) : Z :=
  if (97 <=? c) && (c <=? 122) then c + (65 - 97)
  else if (65 <=? c) && (c <=? 90) then c + (97 - 65)
  else c.

(** A key that goes down, after the escape has been taken into account. *)
Definition key_down (data shift : Z) : Z * Z :=
  let shift := Z.lor shift (shiftcode data) in
  let shift := Z.lxor shift (togglecode data) in
  let c := charcode (Z.land shift (Z.lor CTL SHIFT)) data in
  ((if negb (Z.land shift CAPSLOCK =? 0) then capsed c else c), shift).

(** kbdgetc: [port] is the byte of the data port, [None] when the controller has none.
    The character, 0 for none, -1 for no data, and the new value of [shift]. *)
Definition kbdgetc (port : option Z) (shift : Z) : Z * Z :=
  match port with
  | None => (-1, shift)
  | Some data =>
      if data =? 0xE0 then (0, Z.lor shift E0ESC)
      else if negb (Z.land data 0x80 =? 0) then
        let data := if negb (Z.land shift E0ESC =? 0) then data else Z.land data 0x7F in
        (0, Z.land shift (Z.lnot (Z.lor (shiftcode data) E0ESC)))
      else if negb (Z.land shift E0ESC =? 0) then
        key_down (Z.lor data 0x80) (Z.land shift (Z.lnot E0ESC))
      else key_down data shift
  end.

(** What kbdgetc returns, call by call, until the controller has no more. *)
Fixpoint kbd_chars (codes : list Z) (shift : Z) : list Z * Z :=
  match codes with
  | [] => ([], shift)
  | d :: codes =>
      let '(c, shift) := kbdgetc (Some d) shift in
      let '(cs, shift) := kbd_chars codes shift in
      (c :: cs, shift)
  end.

Definition kbdintr (codes : list Z) (st : Z * input) : (Z * input) * list effect :=
  let '(cs, shift) := kbd_chars codes st.1 in
  let '(i, es) := consoleintr cs st.2 in
  ((shift, i), es).

(** ** Lemmas *)

Lemma lor_below n a b : 0 <= n -> 0 <= a < 2 ^ n -> 0 <= b < 2 ^ n -> 0 <= Z.lor a b < 2 ^ n.
Proof.
  intros Hn [Ha1 Ha2]%below_shiftr [Hb1 Hb2]%below_shiftr; [|done..]. apply below_shiftr; [done|].
  rewrite Z.shiftr_lor, Ha2, Hb2. split; [by apply Z.lor_nonneg|done].
Qed.

Lemma lxor_below n a b : 0 <= n -> 0 <= a < 2 ^ n -> 0 <= b < 2 ^ n -> 0 <= Z.lxor a b < 2 ^ n.
Proof.
  intros Hn [Ha1 Ha2]%below_shiftr [Hb1 Hb2]%below_shiftr; [|done..]. apply below_shiftr; [done|].
  rewrite Z.shiftr_lxor, Ha2, Hb2. split; [by apply Z.lxor_nonneg|done].
Qed.

Lemma table_cases first rest i (P : Z -> Prop) : P 0 -> Forall (fun x => P (u8 x)) first ->
  Forall (fun x => P (u8 x.2)) rest -> P (table first rest i).
Proof.
  intros H0 Hf Hr. unfold table. case_match.
  - destruct (nth_in_or_default (Z.to_nat i) first 0) as [H1| ->]; [|done].
    rewrite Forall_forall in Hf. apply (Hf _). by apply list_elem_of_In.
  - induction Hr as [|[j v] rest Hv Hr IH]; simpl; [done|]. by case_match.
Qed.

Lemma u8_below x : 0 <= u8 x < 256.
Proof. unfold u8. apply Z.mod_pos_bound. done. Qed.

Lemma charcode_below k i : 0 <= charcode k i < 256.
Proof.
  unfold charcode, normalmap, shiftmap, ctlmap. repeat case_match; apply (table_cases _ _ i (fun x => 0 <= x < 256)); try done; apply Forall_forall; intros x _; apply u8_below.
Qed.

Lemma codes_below i : 0 <= shiftcode i < 2 ^ 7 /\ 0 <= togglecode i < 2 ^ 7.
Proof.
  unfold shiftcode, togglecode. split; apply (table_cases _ _ i (fun x => 0 <= x < 2 ^ 7)); try done; repeat constructor; done.
Qed.

(** kbdgetc returns -1, 0 or a byte, and its state stays within its seven flags. *)
Lemma kbdgetc_range port shift : 0 <= shift < 128 ->
  -1 <= (kbdgetc port shift).1 < 256 /\ 0 <= (kbdgetc port shift).2 < 128.
Proof.
  change 128 with (2 ^ 7). intros Hs.
  assert (forall d s, 0 <= s < 2 ^ 7 -> -1 <= (key_down d s).1 < 256 /\ 0 <= (key_down d s).2 < 2 ^ 7) as Hk.
  { intros d s Hd. destruct (codes_below d) as [H1 H2]. unfold key_down. cbn [fst snd]. split.
    - pose proof (charcode_below (Z.land (Z.lxor (Z.lor s (shiftcode d)) (togglecode d)) (Z.lor CTL SHIFT)) d).
      unfold capsed. repeat case_match; lia.
    - apply lxor_below; [done| |done]. by apply lor_below. }
  destruct port as [d|]; [|simpl; lia]. unfold kbdgetc. repeat case_match; cbn [fst snd]; try (apply Hk).
  - split; [lia|]. by apply lor_below.
  - split; [lia|]. by apply land_below.
  - split; [lia|]. by apply land_below.
  - by apply land_below.
  - done.
Qed.

(** Scan code and letter. *)
Definition letters : list (Z * Z) :=
  [(0x1E, 97); (0x30, 98); (0x2E, 99); (0x20, 100); (0x12, 101); (0x21, 102); (0x22, 103); (0x23, 104); (0x17, 105);
   (0x24, 106); (0x25, 107); (0x26, 108); (0x32, 109); (0x31, 110); (0x18, 111); (0x19, 112); (0x10, 113); (0x13, 114);
   (0x1F, 115); (0x14, 116); (0x16, 117); (0x2F, 118); (0x11, 119); (0x2D, 120); (0x15, 121); (0x2C, 122)].

Definition letter_char (ch shift : Z) : Z :=
  if negb (Z.land shift CTL =? 0) then ch - 96
  else if xorb (negb (Z.land shift SHIFT =? 0)) (negb (Z.land shift CAPSLOCK =? 0)) then ch - 32
  else ch.

(** A letter key gives the control character with control held, else the upper case
    letter when exactly one of shift and caps lock is on, and changes no modifier. *)
Lemma kbd_letter code ch shift : In (code, ch) letters -> 0 <= shift < 128 -> Z.land shift E0ESC = 0 ->
  kbdgetc (Some code) shift = (letter_char ch shift, shift).
Proof.
  intros Hin Hs He.
  assert (forallb (fun s => forallb (fun x => let r := kbdgetc (Some x.1) (Z.of_nat s) in
    (r.1 =? letter_char x.2 (Z.of_nat s)) && (r.2 =? Z.of_nat s)) letters) (seq 0 64) = true) as H
    by (vm_compute; reflexivity).
  assert (shift < 64) as Hlt.
  { change E0ESC with (2 ^ 6) in He. destruct (decide (shift < 64)); [done|].
    assert (Z.testbit shift 6 = true) as Ht.
    { rewrite Z.testbit_true by lia. replace (shift / 2 ^ 6) with 1; [done|]. zlia. }
    assert (Z.testbit (Z.land shift (2 ^ 6)) 6 = true) as H6 by (rewrite Z.land_spec, Ht; done).
    rewrite He in H6. done. }
  rewrite forallb_forall in H. specialize (H (Z.to_nat shift)). rewrite forallb_forall in H.
  rewrite Z2Nat.id in H by lia. specialize (H ltac:(apply in_seq; lia) (code, ch) Hin). cbn beta zeta in H.
  cbn [fst snd] in H. bool_prop. destruct H as [H1 H2]. destruct (kbdgetc (Some code) shift). simpl in *. congruence.
Qed.

(** A modifier key that goes down and up again leaves the modifier off and the rest alone. *)
Lemma kbd_modifier code shift : In code [0x1D; 0x2A; 0x36; 0x38] -> 0 <= shift < 64 ->
  (kbd_chars [code; Z.lor code 0x80] shift).2 = Z.land shift (Z.lnot (shiftcode code)).
Proof.
  intros Hin Hs.
  assert (forallb (fun s => forallb (fun k => (kbd_chars [k; Z.lor k 0x80] (Z.of_nat s)).2 =?
    Z.land (Z.of_nat s) (Z.lnot (shiftcode k))) [0x1D; 0x2A; 0x36; 0x38]) (seq 0 64) = true) as H
    by (vm_compute; reflexivity).
  rewrite forallb_forall in H. specialize (H (Z.to_nat shift) ltac:(apply in_seq; lia)).
  rewrite forallb_forall in H. rewrite Z2Nat.id in H by lia. specialize (H code Hin). by bool_prop.
Qed.
