(* ===== verification/Irq.v ===== *)
(** * Interrupt controllers, the timer and the serial port

    picirq.c, ioapic.c, timer.c and uart.c, and the initialisers of ide.c and console.c.  A
    write to a port is a record of what was written; what a read gives is up to the device.
    The I/O APIC is its registers, which are reached through an index register.  Lemmas: the
    masks of the two 8259A are those of [irqmask], where the lines enabled so far are clear;
    the redirection table after ioapicinit and ioapicenable; the serial port is waited for
    a bounded time, and uartintr hands on the characters that have come in; ideinit finds
    the second disk when its status is not 0. *)

From S2P Require Import Prelude Traps Console.

(** [outs]: the writes to ports, in order; [ins]: what reads of a port will give, 0 when
    nothing is left; [ioreg], [iotab]: the index register and the registers of the I/O APIC;
    [havedisk1]: ide.c's; [locking], [condev]: cons.locking, and whether devsw has the
    console's routines. *)
Record irqst := mkIrqst {
  outs : list (Z * Z);
  ins : Z -> list Z;
  irqmask : Z;
  ioreg : Z;
  iotab : Z -> Z;
  uart : bool;
  havedisk1 : bool;
  locking : bool;
  condev : bool }.

Definition set_outs (l : list (Z * Z)) (s : irqst) : irqst :=
  mkIrqst l (ins s) (irqmask s) (ioreg s) (iotab s) (uart s) (havedisk1 s) (locking s) (condev s).
Definition set_ins (f : Z -> list Z) (s : irqst) : irqst :=
  mkIrqst (outs s) f (irqmask s) (ioreg s) (iotab s) (uart s) (havedisk1 s) (locking s) (condev s).
Definition set_irqmask (m : Z) (s : irqst) : irqst :=
  mkIrqst (outs s) (ins s) m (ioreg s) (iotab s) (uart s) (havedisk1 s) (locking s) (condev s).
Definition set_ioapic (r : Z) (t : Z -> Z) (s : irqst) : irqst :=
  mkIrqst (outs s) (ins s) (irqmask s) r t (uart s) (havedisk1 s) (locking s) (condev s).
Definition set_uart (b : bool) (s : irqst) : irqst :=
  mkIrqst (outs s) (ins s) (irqmask s) (ioreg s) (iotab s) b (havedisk1 s) (locking s) (condev s).
Definition set_havedisk1 (b : bool) (s : irqst) : irqst :=
  mkIrqst (outs s) (ins s) (irqmask s) (ioreg s) (iotab s) (uart s) b (locking s) (condev s).
Definition set_console (b : bool) (s : irqst) : irqst :=
  mkIrqst (outs s) (ins s) (irqmask s) (ioreg s) (iotab s) (uart s) (havedisk1 s) b b.

(** x86.h *)
Definition outb (port data : Z) : M irqst unit := modify (fun s => set_outs (outs s ++ [(port, u8 data)]) s).
Definition inb (port : Z) : M irqst Z := fun s =>
  Done (u8 (hd 0 (ins s port))) (set_ins (upd port (tl (ins s port)) (ins s)) s).

(** ** picirq.c *)

Definition IO_PIC1 : Z := 0x20.
Definition IO_PIC2 : Z := 0xA0.
Definition IRQ_SLAVE : Z := 2.

(** Before any call. *)
Definition irqmask0 : Z := Z.land 0xFFFF (Z.lnot (Z.shiftl 1 IRQ_SLAVE)).


Definition picsetmask (mask : Z) : M irqst unit :=
  let mask := u16 mask in
  modify (set_irqmask mask) ;;
  outb (IO_PIC1 + 1) mask ;;
  outb (IO_PIC2 + 1) (Z.shiftr mask 8).

Definition picenable (irq : Z) : M irqst unit :=
  let! m := gets irqmask in
  picsetmask (Z.land m (Z.lnot (Z.shiftl 1 irq))).

Definition picinit : M irqst unit :=
  outb (IO_PIC1 + 1) 0xFF ;;
  outb (IO_PIC2 + 1) 0xFF ;;
  outb IO_PIC1 0x11 ;;
  outb (IO_PIC1 + 1) T_IRQ0 ;;
  outb (IO_PIC1 + 1) (Z.shiftl 1 IRQ_SLAVE) ;;
  outb (IO_PIC1 + 1) 0x3 ;;
  outb IO_PIC2 0x11 ;;
  outb (IO_PIC2 + 1) (T_IRQ0 + 8) ;;
  outb (IO_PIC2 + 1) IRQ_SLAVE ;;
  outb (IO_PIC2 + 1) 0x3 ;;
  outb IO_PIC1 0x68 ;;
  outb IO_PIC1 0x0a ;;
  outb IO_PIC2 0x68 ;;
  outb IO_PIC2 0x0a ;;
  let! m := gets irqmask in
  if negb (m =? 0xFFFF) then picsetmask m else ret tt.

(** ** ioapic.c *)

Definition REG_ID : Z := 0x00.
Definition REG_VER : Z := 0x01.
Definition REG_TABLE : Z := 0x10.
Definition INT_DISABLED : Z := 0x00010000.

Definition ioapicread (reg : Z) : M irqst Z :=
  modify (fun s => set_ioapic reg (iotab s) s) ;;
  gets (fun s => iotab s (ioreg s)).
Definition ioapicwrite (reg data : Z) : M irqst unit :=
  modify (fun s => set_ioapic reg (iotab s) s) ;;
  modify (fun s => set_ioapic (ioreg s) (upd (ioreg s) (u32 data) (iotab s)) s).

Fixpoint ioapic_entries (n : nat) (i : Z) : M irqst unit :=
  match n with
  | O => ret tt
  | S n =>
      ioapicwrite (REG_TABLE + 2 * i) (Z.lor INT_DISABLED (T_IRQ0 + i)) ;;
      ioapicwrite (REG_TABLE + 2 * i + 1) 0 ;;
      ioapic_entries n (i + 1)
  end.

(** Whether the message that the ids differ was printed. *)
Definition ioapicinit (ismp : bool) (ioapicid : Z) : M irqst bool :=
  if negb ismp then ret false
  else
    let! v := ioapicread REG_VER in
    let maxintr := Z.land (Z.shiftr v 16) 0xFF in
    let! r := ioapicread REG_ID in
    let id := Z.shiftr r 24 in
    ioapic_entries (Z.to_nat (maxintr + 1)) 0 ;;
    ret (negb (id =? ioapicid)).

Definition ioapicenable (ismp : bool) (irq cpunum : Z) : M irqst unit :=
  if negb ismp then ret tt
  else
    ioapicwrite (REG_TABLE + 2 * irq) (T_IRQ0 + irq) ;;
    ioapicwrite (REG_TABLE + 2 * irq + 1) (Z.shiftl cpunum 24).

(** ** timer.c *)

Definition IO_TIMER1 : Z := 0x040.
Definition TIMER_FREQ : Z := 1193182.
Definition TIMER_DIV (x : Z) : Z := (TIMER_FREQ + x / 2) / x.
Definition TIMER_MODE : Z := IO_TIMER1 + 3.
Definition TIMER_SEL0 : Z := 0x00.
Definition TIMER_RATEGEN : Z := 0x04.
Definition TIMER_16BIT : Z := 0x30.

Definition timerinit : M irqst unit :=
  outb TIMER_MODE (Z.lor (Z.lor TIMER_SEL0 TIMER_RATEGEN) TIMER_16BIT) ;;
  outb IO_TIMER1 (TIMER_DIV 100 mod 256) ;;
  outb IO_TIMER1 (TIMER_DIV 100 / 256) ;;
  picenable IRQ_TIMER.

(** ** uart.c *)

Definition COM1 : Z := 0x3f8.

(** The loop that waits for the transmitter, with [n] turns left. *)
Fixpoint uart_wait (n : nat) : M irqst unit :=
  match n with
  | O => ret tt
  | S n => let! st := inb (COM1 + 5) in if Z.land st 0x20 =? 0 then uart_wait n else ret tt
  end.

Definition uartputc (c : Z) : M irqst unit :=
  let! u := gets uart in
  if negb u then ret tt else uart_wait 128 ;; outb (COM1 + 0) c.

Definition uartgetc : M irqst Z :=
  let! u := gets uart in
  if negb u then ret (-1)
  else
    let! st := inb (COM1 + 5) in
    if Z.land st 0x01 =? 0 then ret (-1) else inb (COM1 + 0).

Fixpoint uart_puts (l : list Z) : M irqst unit :=
  match l with [] => ret tt | c :: l => uartputc c ;; uart_puts l end.

Definition uartinit (ismp : bool) : M irqst unit :=
  outb (COM1 + 2) 0 ;;
  outb (COM1 + 3) 0x80 ;;
  outb (COM1 + 0) (115200 / 9600) ;;
  outb (COM1 + 1) 0 ;;
  outb (COM1 + 3) 0x03 ;;
  outb (COM1 + 4) 0 ;;
  outb (COM1 + 1) 0x01 ;;
  let! st := inb (COM1 + 5) in
  if st =? 0xFF then ret tt
  else
    modify (set_uart true) ;;
    inb (COM1 + 2) ;;
    inb (COM1 + 0) ;;
    picenable IRQ_COM1 ;;
    ioapicenable ismp IRQ_COM1 0 ;;
    uart_puts [120; 118; 54; 46; 46; 46; 10].

(** uartintr is consoleintr on what uartgetc gives, as long as that is not negative; the
    port has a status for every turn but the last. *)
Fixpoint uart_chars (n : nat) : M irqst (list Z) :=
  match n with
  | O => halt Diverged
  | S n =>
      let! c := uartgetc in
      if 0 <=? c then let! cs := uart_chars n in ret (c :: cs) else ret []
  end.

Definition uartintr (i : input) : M irqst (input * list effect) :=
  let! fuel := gets (fun s => S (length (ins s (COM1 + 5)))) in
  let! cs := uart_chars fuel in
  ret (consoleintr cs i).

(** ** The initialisers of ide.c and console.c *)

Definition IDE_BSY : Z := 0x80.
Definition IDE_DRDY : Z := 0x40.
Definition IDE_DF : Z := 0x20.
Definition IDE_ERR : Z := 0x01.

Fixpoint idewait_loop (fuel : nat) : M irqst Z :=
  match fuel with
  | O => halt Diverged
  | S f => let! r := inb 0x1f7 in if Z.land r (Z.lor IDE_BSY IDE_DRDY) =? IDE_DRDY then ret r else idewait_loop f
  end.

Definition idewait (checkerr : bool) : M irqst Z :=
  let! fuel := gets (fun s => length (ins s 0x1f7)) in
  let! r := idewait_loop fuel in
  if checkerr && negb (Z.land r (Z.lor IDE_DF IDE_ERR) =? 0) then ret (-1) else ret 0.

(** The loop that looks for disk 1, with [n] turns left. *)
Fixpoint disk1_loop (n : nat) : M irqst unit :=
  match n with
  | O => ret tt
  | S n => let! r := inb 0x1f7 in if negb (r =? 0) then modify (set_havedisk1 true) else disk1_loop n
  end.

Definition ideinit (ismp : bool) (ncpu : Z) : M irqst unit :=
  picenable IRQ_IDE ;;
  ioapicenable ismp IRQ_IDE (ncpu - 1) ;;
  idewait false ;;
  outb 0x1f6 (Z.lor 0xe0 (Z.shiftl 1 4)) ;;
  disk1_loop 1000 ;;
  outb 0x1f6 (Z.lor 0xe0 (Z.shiftl 0 4)).

Definition consoleinit (ismp : bool) : M irqst unit :=
  modify (set_console true) ;;
  picenable IRQ_KBD ;;
  ioapicenable ismp IRQ_KBD 0.

(** ** The masks of the 8259A *)

(** The last value written to a port. *)
Fixpoint last_out (p : Z) (l : list (Z * Z)) (d : Z) : Z :=
  match l with [] => d | (q, v) :: l => last_out p l (if q =? p then v else d) end.

Lemma last_out_app p l l' d : last_out p (l ++ l') d = last_out p l' (last_out p l d).
Proof. revert d. induction l as [|[q v] l IH]; intros d; [done|]. simpl. apply IH. Qed.

(** What the controllers were told last is the mask. *)
Definition pic_ok (s : irqst) : Prop :=
  0 <= irqmask s < 2 ^ 16 /\ last_out (IO_PIC1 + 1) (outs s) 0 = u8 (irqmask s) /\
  last_out (IO_PIC2 + 1) (outs s) 0 = irqmask s / 2 ^ 8.

Lemma picsetmask_ok mask s : returns (picsetmask mask) s (fun _ s' => pic_ok s' /\ irqmask s' = u16 mask).
Proof.
  unfold picsetmask, outb. steps. unfold pic_ok. cbn [irqmask set_outs set_irqmask outs].
  assert (0 <= u16 mask < 2 ^ 16) as Hm by (apply Z.mod_pos_bound; done).
  split; [|done]. split; [done|]. rewrite !last_out_app. cbn [last_out]. split; [done|].
  change (IO_PIC2 + 1 =? IO_PIC2 + 1) with true. cbv iota. rewrite Z.shiftr_div_pow2 by lia.
  unfold u8. apply Z.mod_small. zlia.
Qed.

Lemma picenable_ok irq s : 0 <= irq -> returns (picenable irq) s (fun _ s' => pic_ok s' /\
  forall i, 0 <= i < 16 -> Z.testbit (irqmask s') i = Z.testbit (irqmask s) i && negb (i =? irq)).
Proof.
  intros Hq. unfold picenable. apply wp_bind. step. eapply wp_mono; [apply picsetmask_ok| |done].
  intros _ s' [Hok Hm]. split; [done|]. intros i Hi. rewrite Hm. unfold u16. rewrite Z.mod_pow2_bits_low by lia.
  rewrite Z.land_spec, Z.lnot_spec, Z.shiftl_spec by lia. f_equal. f_equal.
  destruct (Z.eqb_spec i irq) as [->|Hne]; [by rewrite Z.sub_diag|].
  destruct (Z.ltb_spec i irq); [by rewrite Z.testbit_neg_r by lia|].
  change 1 with (2 ^ 0). rewrite Z.pow2_bits_false by lia. done.
Qed.

(** What picenable and ioapicenable leave alone. *)
Lemma picenable_set irq s : 0 <= irq -> returns (picenable irq) s (fun _ s' =>
  (forall i, 0 <= i < 16 -> Z.testbit (irqmask s') i = Z.testbit (irqmask s) i && negb (i =? irq)) /\
  exists o m, s' = set_outs o (set_irqmask m s)).
Proof.
  intros Hq. pose proof (picenable_ok irq s Hq) as H. unfold returns, wp in *.
  unfold picenable, picsetmask, outb, bind, gets, modify in *. destruct H as [_ H]. split; [exact H|].
  by eexists _, _.
Qed.

Lemma ioapicenable_set ismp irq cpunum s : returns (ioapicenable ismp irq cpunum) s (fun _ s' => exists r t, s' = set_ioapic r t s).
Proof.
  unfold ioapicenable. destruct ismp; cbn [negb].
  - by eexists _, _.
  - exists (ioreg s), (iotab s). by destruct s.
Qed.

Fixpoint pic_all (l : list Z) : M irqst unit :=
  match l with [] => ret tt | i :: l => picenable i ;; pic_all l end.

(** A write that is not to a mask register, or not the last one. *)
Lemma wp_outb p v (k : M irqst unit) m s Q E : irqmask s = m -> (forall s', irqmask s' = m -> wp k s' Q E) ->
  wp (outb p v ;; k) s Q E.
Proof. intros Hm Hk. apply wp_bind. unfold outb. step. by apply Hk. Qed.

Lemma pic_all_ok l (P : Z -> Prop) s : Forall (fun i => 0 <= i < 16) l -> pic_ok s ->
  (forall i, 0 <= i < 16 -> Z.testbit (irqmask s) i = false <-> P i) ->
  returns (pic_all l) s (fun _ s' => pic_ok s' /\
    forall i, 0 <= i < 16 -> Z.testbit (irqmask s') i = false <-> P i \/ i ∈ l).
Proof.
  intros Hl. revert P s. induction Hl as [|j l Hj Hl IH]; intros P s Hok Hb; cbn [pic_all].
  - steps. split; [done|]. intros i Hi. rewrite Hb, elem_of_nil by done. split; [by left|by intros [?|[]]].
  - apply wp_bind. eapply wp_mono; [apply picenable_ok; lia| |done]. intros _ s2 [Hok2 Hm2].
    eapply wp_mono; [apply (IH (fun i => P i \/ i = j) s2 Hok2)| |done].
    + intros i Hi. rewrite Hm2, andb_false_iff, Hb, negb_false_iff, Z.eqb_eq by done. done.
    + intros _ s' [H1 H2]. split; [done|]. intros i Hi. rewrite H2, elem_of_cons by done. clear. tauto.
Qed.

Lemma irqmask0_bits i : 0 <= i < 16 -> Z.testbit irqmask0 i = false <-> i = IRQ_SLAVE.
Proof.
  intros Hi. unfold irqmask0. rewrite Z.land_spec, Z.lnot_spec, Z.shiftl_spec by lia.
  change 0xFFFF with (Z.ones 16). rewrite Z.ones_spec_low by lia. cbn [andb]. rewrite negb_false_iff.
  change 1 with (2 ^ 0). rewrite Z.pow2_bits_eqb by lia. rewrite Z.eqb_eq. lia.
Qed.

Lemma picinit_ok s : irqmask s = irqmask0 -> wp picinit s (fun _ s' => pic_ok s' /\ irqmask s' = irqmask0) (fun _ _ => False).
Proof.
  intros Hm. unfold picinit. do 14 (apply (wp_outb _ _ _ irqmask0); [done|clear s Hm; intros s Hm]).
  apply wp_bind, wp_gets. rewrite Hm. change (negb (irqmask0 =? 0xFFFF)) with true. cbv iota.
  eapply wp_mono; [apply picsetmask_ok| |done]. intros _ s' [H1 H2]. split; [done|]. by rewrite H2.
Qed.

(** After picinit and any calls of picenable, the controllers let through the lines that
    were enabled and the one that connects them, and no other. *)
Lemma pic_masks l s : irqmask s = irqmask0 -> Forall (fun i => 0 <= i < 16) l ->
  returns (picinit ;; pic_all l) s (fun _ s' => pic_ok s' /\
    forall i, 0 <= i < 16 -> Z.testbit (irqmask s') i = false <-> i = IRQ_SLAVE \/ i ∈ l).
Proof.
  intros Hm Hl. unfold returns. apply wp_bind. eapply wp_mono; [exact (picinit_ok s Hm)| |intros w s' HF; exact HF]. intros _ s1 [Hok1 Hm1].
  apply (pic_all_ok l (fun i => i = IRQ_SLAVE)); [done|done|]. intros i Hi. rewrite Hm1. by apply irqmask0_bits.
Qed.

(** ** The redirection table *)

Lemma ioapicwrite_run reg data s : ioapicwrite reg data s = Done tt (set_ioapic reg (upd reg (u32 data) (iotab s)) s).
Proof. reflexivity. Qed.

Lemma ioapic_entries_ok n i s : 0 <= i -> i + Z.of_nat n <= 2 ^ 16 ->
  returns (ioapic_entries n i) s (fun _ s' =>
    (forall j, i <= j < i + Z.of_nat n -> iotab s' (REG_TABLE + 2 * j) = Z.lor INT_DISABLED (T_IRQ0 + j) /\
       iotab s' (REG_TABLE + 2 * j + 1) = 0) /\
    (forall r, r < REG_TABLE + 2 * i \/ REG_TABLE + 2 * (i + Z.of_nat n) <= r -> iotab s' r = iotab s r) /\
    s' = set_ioapic (ioreg s') (iotab s') s).
Proof.
  revert i s. induction n as [|n IH]; intros i s Hi Hn; cbn [ioapic_entries].
  { steps. split; [lia|]. split; [done|]. by destruct s. }
  apply wp_bind. eapply wp_run; [apply ioapicwrite_run|]. cbv beta. apply wp_bind. eapply wp_run; [apply ioapicwrite_run|]. cbv beta.
  eapply wp_mono; [apply IH; lia| |done]. intros _ s' (H1 & H2 & H3). cbn [iotab set_ioapic] in *. split; [|split].
  - intros j Hj. destruct (decide (j = i)) as [->|]; [|apply H1; lia]. rewrite !H2 by lia.
    rewrite upd_ne, !upd_eq by lia. split; [|done].
    apply u32_small. split; [apply Z.lor_nonneg; unfold INT_DISABLED, T_IRQ0; lia|].
    destruct (decide (Z.lor INT_DISABLED (T_IRQ0 + i) = 0)) as [->|Hne]; [done|].
    apply Z.log2_lt_pow2; [pose proof (proj2 (Z.lor_nonneg INT_DISABLED (T_IRQ0 + i))); unfold INT_DISABLED, T_IRQ0 in *; lia|].
    rewrite Z.log2_lor by (unfold INT_DISABLED, T_IRQ0; lia). apply Z.max_lub_lt; [done|].
    apply Z.log2_lt_pow2; unfold T_IRQ0; lia.
  - intros r Hr. rewrite H2 by lia. by rewrite !upd_ne by lia.
  - rewrite H3. done.
Qed.

(** After ioapicinit every line is disabled and goes to no processor; ioapicenable sends
    one line to one processor and leaves the others alone. *)
Lemma ioapic_tables s id irq cpu : let v := Z.land (Z.shiftr (iotab s REG_VER) 16) 0xFF in
  0 <= irq <= v -> 0 <= cpu < 256 ->
  returns (ioapicinit true id ;; ioapicenable true irq cpu) s (fun _ s' =>
    (forall j, 0 <= j <= v -> j <> irq -> iotab s' (REG_TABLE + 2 * j) = Z.lor INT_DISABLED (T_IRQ0 + j) /\
       iotab s' (REG_TABLE + 2 * j + 1) = 0) /\
    iotab s' (REG_TABLE + 2 * irq) = T_IRQ0 + irq /\ iotab s' (REG_TABLE + 2 * irq + 1) = cpu * 2 ^ 24).
Proof.
  intros v Hirq Hcpu. assert (0 <= v < 256) as Hv.
  { unfold v. change 0xFF with (Z.ones 8). rewrite Z.land_ones by lia. apply Z.mod_pos_bound. done. }
  unfold ioapicinit, ioapicenable. cbn [negb]. apply wp_bind. unfold ioapicread. steps. cbn [iotab ioreg set_ioapic]. fold v.
  eapply wp_mono; [apply ioapic_entries_ok; lia| |done]. intros _ s1 (H1 & _ & _). step.
  apply wp_bind. eapply wp_run; [apply ioapicwrite_run|]. cbv beta. eapply wp_run; [apply ioapicwrite_run|]. cbv beta.
  cbn [iotab set_ioapic]. split; [|split].
  - intros j Hj Hne. rewrite !upd_ne by lia. apply H1. lia.
  - rewrite upd_ne, upd_eq by lia. apply u32_small. unfold T_IRQ0. lia.
  - rewrite upd_eq. rewrite Z.shiftl_mul_pow2 by lia. apply u32_small. lia.
Qed.

(** ** The serial port *)

(** uartputc writes the character once, after at most 128 looks at the line status. *)
Lemma uartputc_ok c s : uart s = true -> returns (uartputc c) s (fun _ s' =>
  outs s' = outs s ++ [(COM1, u8 c)] /\ irqmask s' = irqmask s /\
  (forall p, p <> COM1 + 5 -> ins s' p = ins s p) /\ exists n, (n <= 128)%nat /\ ins s' (COM1 + 5) = drop n (ins s (COM1 + 5))).
Proof.
  intros Hu. unfold uartputc. apply wp_bind. step. rewrite Hu. cbn [negb]. apply wp_bind.
  assert (forall n s, returns (uart_wait n) s (fun _ s' => outs s' = outs s /\ irqmask s' = irqmask s /\
    (forall p, p <> COM1 + 5 -> ins s' p = ins s p) /\ exists k, (k <= n)%nat /\ ins s' (COM1 + 5) = drop k (ins s (COM1 + 5)))) as Hw.
  { induction n as [|n IH]; intros s1; cbn [uart_wait]; [steps; repeat (split; [done|]); exists 0%nat; by rewrite drop_0|].
    apply wp_bind. unfold inb, wp at 1. cbv beta iota. set (s2 := set_ins _ s1).
    assert (ins s2 (COM1 + 5) = drop 1 (ins s1 (COM1 + 5))) as H2 by (unfold s2; cbn [ins set_ins]; rewrite upd_eq; by destruct (ins s1 _)).
    assert (forall p, p <> COM1 + 5 -> ins s2 p = ins s1 p) as H3 by (intros p Hp; unfold s2; cbn [ins set_ins]; by rewrite upd_ne).
    destruct (Z.land _ 0x20 =? 0).
    - eapply wp_mono; [apply IH| |done]. intros _ s3 (E1 & E2 & E3 & k & Hk & E4).
      split; [done|]. split; [done|]. split; [intros p Hp; by rewrite E3, H3|]. exists (S k). split; [lia|].
      rewrite E4, H2, drop_drop. done.
    - steps. split; [done|]. split; [done|]. split; [done|]. exists 1%nat. split; [lia|done]. }
  eapply wp_mono; [apply (Hw 128%nat s)| |done]. intros _ s1 (E1 & E2 & E3 & E4). unfold outb. step. cbn [outs set_outs irqmask ins].
  rewrite E1. split; [done|]. split; [done|]. by split.
Qed.

(** Without a serial port nothing is written and nothing comes in. *)
Lemma uart_absent c s : uart s = false -> uartputc c s = Done tt s /\ uartgetc s = Done (-1) s.
Proof. intros Hu. unfold uartputc, uartgetc, bind, gets. rewrite Hu. done. Qed.

(** What has come in: a character for each status that says so, up to the first that does
    not. *)
Fixpoint received (status data : list Z) : list Z :=
  match status with
  | st :: status => if Z.odd st then u8 (hd 0 data) :: received status (tl data) else []
  | [] => []
  end.

Lemma land_1_odd x : (Z.land (u8 x) 0x01 =? 0) = negb (Z.odd x).
Proof.
  change 0x01 with (Z.ones 1). rewrite Z.land_ones by lia. change (2 ^ 1) with 2.
  unfold u8. replace ((x mod 2 ^ 8) mod 2) with (x mod 2) by zlia. rewrite Zmod_odd. by destruct (Z.odd x).
Qed.

Lemma uart_chars_ok n s : uart s = true -> (length (ins s (COM1 + 5)) < n)%nat ->
  returns (uart_chars n) s (fun cs _ => cs = received (ins s (COM1 + 5)) (ins s COM1)).
Proof.
  revert s. induction n as [|n IH]; intros s Hu Hn; [lia|]. cbn [uart_chars]. unfold uartgetc at 1.
  apply wp_bind. apply wp_bind, wp_gets. rewrite Hu. cbn [negb]. apply wp_bind. unfold inb at 1, wp at 1. cbv beta iota.
  rewrite land_1_odd. set (s1 := set_ins _ s).
  assert (ins s1 (COM1 + 5) = tl (ins s (COM1 + 5)) /\ ins s1 COM1 = ins s COM1 /\ uart s1 = true) as (H5 & H0 & Hu1).
  { unfold s1. cbn [ins set_ins uart]. rewrite upd_eq, upd_ne by done. done. }
  destruct (ins s (COM1 + 5)) as [|st rest] eqn:Est; cbn [hd tl received] in *; [by repeat step|].
  destruct (Z.odd st); cbn [negb]; [|by repeat step].
  unfold inb, wp at 1. cbv beta iota. change (COM1 + 0) with COM1. rewrite H0. set (c := u8 _).
  assert (0 <=? c = true) as -> by (apply Z.leb_le; unfold c, u8; zlia). set (s2 := set_ins _ s1).
  assert (ins s2 (COM1 + 5) = rest /\ ins s2 COM1 = tl (ins s COM1) /\ uart s2 = true) as (H52 & H02 & Hu2).
  { unfold s2. cbn [ins set_ins uart]. rewrite upd_ne, upd_eq by done. done. }
  apply wp_bind. eapply wp_mono; [apply IH; [done|rewrite H52; simpl in Hn; lia]| |done].
  intros cs s3 ->. step. by rewrite H52, H02.
Qed.

(** An interrupt of the serial port hands the characters that have come in to the console,
    and ends. *)
Lemma uartintr_ok i s : uart s = true ->
  returns (uartintr i) s (fun r _ => r = consoleintr (received (ins s (COM1 + 5)) (ins s COM1)) i).
Proof.
  intros Hu. unfold uartintr. apply wp_bind, wp_gets. apply wp_bind. eapply wp_mono; [apply uart_chars_ok; [done|lia]| |done].
  intros cs s1 ->. by step.
Qed.

(** ** The disk driver's start *)

(** The drive is ready at the [k]-th look, having been busy before. *)
Definition ready_at (k : nat) (l : list Z) (r : Z) : Prop :=
  l !! k = Some r /\ Z.land (u8 r) (Z.lor IDE_BSY IDE_DRDY) = IDE_DRDY /\
  forall j x, (j < k)%nat -> l !! j = Some x -> Z.land (u8 x) (Z.lor IDE_BSY IDE_DRDY) <> IDE_DRDY.

Lemma idewait_loop_ok k r s fuel : ready_at k (ins s 0x1f7) r -> (k < fuel)%nat ->
  returns (idewait_loop fuel) s (fun v s' => v = u8 r /\ ins s' 0x1f7 = drop (S k) (ins s 0x1f7) /\
    outs s' = outs s /\ irqmask s' = irqmask s /\ havedisk1 s' = havedisk1 s).
Proof.
  revert k s. induction fuel as [|f IH]; intros k s (Hk & Hr & Hb) Hf; [lia|]. cbn [idewait_loop].
  apply wp_bind. unfold inb, wp at 1. cbv beta iota. set (s1 := set_ins _ s).
  assert (ins s1 0x1f7 = tl (ins s 0x1f7)) as H1 by (unfold s1; cbn [ins set_ins]; by rewrite upd_eq).
  destruct (ins s 0x1f7) as [|x l] eqn:El; [done|]. cbn [hd tl] in *. destruct k as [|k]; cbn [lookup list_lookup] in Hk.
  - injection Hk as ->. rewrite Hr, Z.eqb_refl. step. rewrite H1. done.
  - rewrite (proj2 (Z.eqb_neq _ _) (Hb 0%nat x ltac:(lia) eq_refl)).
    eapply wp_mono; [apply (IH k s1); [|lia]| |done].
    + rewrite H1. split; [done|]. split; [done|]. intros j y Hj Hy. apply (Hb (S j) y); [lia|done].
    + intros v s2 (-> & E1 & E2 & E3 & E4). rewrite E1, H1. done.
Qed.

(** Disk 1 is found when one of the first thousand looks at its status is not 0. *)
Lemma disk1_loop_ok n s :
  returns (disk1_loop n) s (fun _ s' => outs s' = outs s /\ irqmask s' = irqmask s /\
    havedisk1 s' = havedisk1 s || existsb (fun x => negb (u8 x =? 0)) (take n (ins s 0x1f7))).
Proof.
  revert s. induction n as [|n IH]; intros s; cbn [disk1_loop]; [step; by rewrite orb_false_r|].
  apply wp_bind. unfold inb, wp at 1. cbv beta iota. set (s1 := set_ins _ s).
  assert (ins s1 0x1f7 = tl (ins s 0x1f7)) as H1 by (unfold s1; cbn [ins set_ins]; by rewrite upd_eq).
  destruct (ins s 0x1f7) as [|x l] eqn:El; cbn [hd tl take existsb] in *.
  - change (u8 0 =? 0) with true. cbn [negb]. eapply wp_mono; [apply IH| |done]. intros _ s2 (E1 & E2 & E3).
    rewrite E1, E2, E3, H1, take_nil. done.
  - destruct (negb (u8 x =? 0)).
    + step. cbn [orb]. by rewrite orb_true_r.
    + eapply wp_mono; [apply IH| |done]. intros _ s2 (E1 & E2 & E3). rewrite E1, E2, E3, H1. done.
Qed.

(** ideinit enables its line, waits for the drive, and leaves disk 0 selected. *)
Lemma ideinit_ok ismp ncpu k r s : ready_at k (ins s 0x1f7) r ->
  returns (ideinit ismp ncpu) s (fun _ s' => last_out 0x1f6 (outs s') 0 = 0xe0 /\
    (forall i, 0 <= i < 16 -> Z.testbit (irqmask s') i = Z.testbit (irqmask s) i && negb (i =? IRQ_IDE)) /\
    havedisk1 s' = havedisk1 s || existsb (fun x => negb (u8 x =? 0)) (take 1000 (drop (S k) (ins s 0x1f7)))).
Proof.
  intros Hr. unfold ideinit. apply wp_bind. eapply wp_mono; [apply picenable_set; done| |done].
  intros _ s1 (Hm & o & m & ->). apply wp_bind. eapply wp_mono; [apply ioapicenable_set| |done].
  intros _ s2 (q & t & ->). apply wp_bind. unfold idewait. apply wp_bind, wp_gets. cbn [ins set_ioapic set_outs set_irqmask].
  apply wp_bind. eapply wp_mono; [apply (idewait_loop_ok k r); [exact Hr|]| |done].
  { destruct Hr as [Hk _]. by apply lookup_lt_Some in Hk. }
  intros v s3 (_ & E1 & E2 & E3 & E4). cbn [andb]. step. unfold outb at 1. apply wp_bind. step. apply wp_bind.
  eapply wp_mono; [apply disk1_loop_ok| |done]. intros _ s4 (D1 & D2 & D3). unfold outb. step. split; [|split].
  - cbn [outs set_outs]. by rewrite last_out_app.
  - intros i Hi. rewrite <- Hm by done. cbn [irqmask set_outs] in *. rewrite D2. cbn [irqmask set_outs]. by rewrite E3.
  - cbn [havedisk1 set_outs ins] in *. rewrite D3. cbn [havedisk1 set_outs ins]. rewrite E4, E1. done.
Qed.

(** The timer counts down from the nearest value to a hundredth of a second. *)
Lemma timer_rate : TIMER_DIV 100 = 11932 /\ (TIMER_DIV 100 mod 256) + 256 * u8 (TIMER_DIV 100 / 256) = TIMER_DIV 100 /\
  Z.abs (TIMER_FREQ - 100 * TIMER_DIV 100) <= 50.
Proof. by vm_compute. Qed.

(** ** The devices one after the other *)

Definition line_on (i : Z) (s : irqst) : Prop := Z.testbit (irqmask s) i = false.
Definition routed (i cpu : Z) (s : irqst) : Prop :=
  iotab s (REG_TABLE + 2 * i) = T_IRQ0 + i /\ iotab s (REG_TABLE + 2 * i + 1) = cpu * 2 ^ 24.

(** A step that leaves the status of the disk to be read, disables no line, and changes the
    way of the lines [k] only. *)
Record dev_step (k : Z -> Prop) (s s' : irqst) : Prop := {
  ds_ins : ins s' 0x1f7 = ins s 0x1f7;
  ds_mask i : 0 <= i < 16 -> line_on i s -> line_on i s';
  ds_route i cpu : 0 <= i -> ~ k i -> routed i cpu s -> routed i cpu s' }.

Lemma dev_refl k s : dev_step k s s.
Proof. by split. Qed.

Lemma dev_trans k s1 s2 s3 : dev_step k s1 s2 -> dev_step k s2 s3 -> dev_step k s1 s3.
Proof. intros [A1 A2 A3] [B1 B2 B3]. split; [congruence|auto|auto]. Qed.

Lemma dev_outs k o s : dev_step k s (set_outs o s).
Proof. by split. Qed.

Lemma dev_mono (k k' : Z -> Prop) s s' : dev_step k s s' -> (forall i, k i -> k' i) -> dev_step k' s s'.
Proof. intros [A1 A2 A3] Hk. split; [done|done|]. naive_solver. Qed.

Lemma picenable_step k irq s : 0 <= irq < 16 -> returns (picenable irq) s (fun _ s' => dev_step k s s' /\ line_on irq s').
Proof.
  intros Hq. eapply returns_mono; [apply picenable_set; lia|]. intros [] s' (Hm & o & m & ->). cbv beta. split.
  - split; [done| |done]. intros i Hi Hl. unfold line_on in *. by rewrite Hm, Hl.
  - unfold line_on. rewrite Hm by done. by rewrite Z.eqb_refl, andb_false_r.
Qed.

Lemma ioapicenable_step mp irq cpu s : 0 <= irq < 16 -> 0 <= cpu < 256 ->
  returns (ioapicenable mp irq cpu) s (fun _ s' => dev_step (eq irq) s s' /\ irqmask s' = irqmask s /\ (mp = true -> routed irq cpu s')).
Proof.
  intros Hq Hc. unfold ioapicenable. destruct mp; cbn [negb]; [|by unfold returns; step].
  unfold returns. apply wp_bind. eapply wp_run; [apply ioapicwrite_run|]. cbv beta. eapply wp_run; [apply ioapicwrite_run|]. cbv beta.
  split; [|split; [done|intros _; split]].
  - split; [done|done|]. intros i c Hi Hne [R1 R2]. unfold routed. cbn [iotab set_ioapic]. rewrite !upd_ne by lia. done.
  - cbn [iotab set_ioapic]. rewrite upd_ne, upd_eq by lia. apply u32_small. unfold T_IRQ0. lia.
  - cbn [iotab set_ioapic]. rewrite upd_eq. rewrite Z.shiftl_mul_pow2 by lia. apply u32_small. lia.
Qed.

Lemma inb_step k p s : p <> 0x1f7 -> returns (inb p) s (fun _ s' => dev_step k s s' /\ uart s' = uart s).
Proof. intros Hp. unfold inb, returns, wp. split; [|done]. split; [|done|done]. cbn. by rewrite upd_ne. Qed.

Lemma uart_wait_step k n s : returns (uart_wait n) s (fun _ s' => dev_step k s s').
Proof.
  revert s. induction n as [|n IH]; intros s; cbn [uart_wait]; [apply dev_refl|].
  apply wp_bind. eapply wp_mono; [by apply (inb_step k)| |done]. intros st s1 [H1 _]. cbv beta. destruct (_ =? 0); [|by step].
  eapply wp_mono; [apply IH| |done]. intros [] s2 H2. cbv beta in H2. by eapply dev_trans.
Qed.

Lemma uart_puts_step k l s : returns (uart_puts l) s (fun _ s' => dev_step k s s').
Proof.
  revert s. induction l as [|c l IH]; intros s; cbn [uart_puts]; [apply dev_refl|].
  apply wp_bind. eapply (wp_mono _ _ (fun _ s' => dev_step k s s') _ (fun _ _ => False)); [| |done].
  - unfold uartputc. apply wp_bind, wp_gets. destruct (negb (uart s)); [step; apply dev_refl|].
    apply wp_bind. eapply wp_mono; [apply uart_wait_step| |done]. intros [] s1 H1. cbv beta in H1. unfold outb. step.
    eapply dev_trans; [exact H1|apply dev_outs].
  - intros [] s1 H1. cbv beta in H1. eapply wp_mono; [apply IH| |done]. intros [] s2 H2. cbv beta in H2. by eapply dev_trans.
Qed.

Lemma uartinit_step mp s : returns (uartinit mp) s (fun _ s' => dev_step (eq IRQ_COM1) s s').
Proof.
  unfold uartinit. do 7 (apply wp_bind; unfold outb at 1; step). set (s1 := set_outs _ _).
  assert (dev_step (eq IRQ_COM1) s s1) as H1 by by split. clearbody s1.
  apply wp_bind. eapply wp_mono; [by apply (inb_step (eq IRQ_COM1))| |done]. intros st s2 [H2 _]. cbv beta.
  pose proof (dev_trans _ _ _ _ H1 H2) as D. clear H1 H2. destruct (st =? 0xFF); [by step|].
  apply wp_bind. step. set (s3 := set_uart true s2). assert (dev_step (eq IRQ_COM1) s2 s3) as H3 by by split. clearbody s3.
  pose proof (dev_trans _ _ _ _ D H3) as D'. clear D H3 s1 s2.
  apply wp_bind. eapply wp_mono; [by apply (inb_step (eq IRQ_COM1))| |done]. intros x s4 [H4 _]. pose proof (dev_trans _ _ _ _ D' H4) as D. clear D' H4.
  apply wp_bind. eapply wp_mono; [by apply (inb_step (eq IRQ_COM1))| |done]. intros y s5 [H5 _]. pose proof (dev_trans _ _ _ _ D H5) as D'. clear D H5.
  apply wp_bind. eapply wp_mono; [by apply (picenable_step (eq IRQ_COM1))| |done]. intros [] s6 [H6 _]. pose proof (dev_trans _ _ _ _ D' H6) as D. clear D' H6.
  apply wp_bind. eapply wp_mono; [by apply ioapicenable_step| |done]. intros [] s7 [H7 _]. pose proof (dev_trans _ _ _ _ D H7) as D'. clear D H7.
  eapply wp_mono; [apply (uart_puts_step (eq IRQ_COM1))| |done]. intros [] s8 H8. cbv beta in H8. by eapply dev_trans.
Qed.

Lemma consoleinit_step mp s : returns (consoleinit mp) s (fun _ s' => ins s' 0x1f7 = ins s 0x1f7 /\ line_on IRQ_KBD s' /\ (mp = true -> routed IRQ_KBD 0 s')).
Proof.
  unfold consoleinit. apply wp_bind. step. apply wp_bind. eapply wp_mono; [by apply (picenable_step (fun _ => False))| |done].
  intros [] s1 [[A1 A2 A3] A4]. eapply returns_mono; [by apply ioapicenable_step|]. intros [] s2 ([B1 B2 B3] & B4 & B5).
  split; [by rewrite B1, A1|]. split; [|done]. unfold line_on in *. by rewrite B4.
Qed.

Lemma picinit_ins s : returns picinit s (fun _ s' => ins s' 0x1f7 = ins s 0x1f7).
Proof. unfold picinit. do 14 (apply wp_bind; unfold outb at 1; step). apply wp_bind, wp_gets. case_match; done. Qed.

Lemma ioapicinit_ins mp id s : returns (ioapicinit mp id) s (fun _ s' => ins s' 0x1f7 = ins s 0x1f7).
Proof.
  unfold ioapicinit. destruct mp; cbn [negb]; [|by unfold returns; step]. apply wp_bind. unfold ioapicread. steps.
  eapply wp_mono; [apply ioapic_entries_ok; [done|]| |done].
  - cbn [iotab ioreg set_ioapic]. change 0xFF with (Z.ones 8). rewrite Z.land_ones by lia.
    pose proof (Z.mod_pos_bound (Z.shiftr (iotab s REG_VER) 16) (2 ^ 8) ltac:(done)). lia.
  - intros [] s1 (_ & _ & ->). by step.
Qed.

(** The drive's status is read without a change of the redirection table. *)
Lemma idewait_loop_tab fuel s : wp (idewait_loop fuel) s (fun _ s' => iotab s' = iotab s) (fun _ _ => True).
Proof.
  revert s. induction fuel as [|f IH]; intros s; cbn [idewait_loop]; [done|]. apply wp_bind. unfold inb, wp at 1. cbv iota beta.
  case_match; [done|]. eapply wp_mono; [apply IH| |done]. by intros v s' ->.
Qed.

Lemma disk1_loop_tab n s : wp (disk1_loop n) s (fun _ s' => iotab s' = iotab s) (fun _ _ => True).
Proof.
  revert s. induction n as [|n IH]; intros s; cbn [disk1_loop]; [done|]. apply wp_bind. unfold inb, wp at 1. cbv iota beta.
  case_match; [done|]. eapply wp_mono; [apply IH| |done]. by intros v s' ->.
Qed.

Lemma ideinit_routes mp nc s : (mp = true -> 0 <= nc - 1 < 256) -> wp (ideinit mp nc) s (fun _ s' => (mp = true -> routed IRQ_IDE (nc - 1) s') /\
  forall i cpu, 0 <= i -> i <> IRQ_IDE -> routed i cpu s -> routed i cpu s') (fun _ _ => True).
Proof.
  intros Hnc. unfold ideinit. apply wp_bind. eapply wp_mono; [by apply (picenable_step (eq IRQ_IDE))| |done]. intros [] s1 [[_ _ H1] _].
  apply wp_bind. eapply (wp_mono _ _ (fun _ s' => (mp = true -> routed IRQ_IDE (nc - 1) s') /\
    forall i cpu, 0 <= i -> i <> IRQ_IDE -> routed i cpu s1 -> routed i cpu s') _ (fun _ _ => False)); [| |done].
  { destruct mp; [|by unfold ioapicenable; cbn [negb]; step]. eapply wp_mono; [apply ioapicenable_step; [done|auto]| |done].
    intros [] s2 ([_ _ H2] & _ & H3). split; [done|]. intros i cpu Hi Hne. apply H2; [done|congruence]. }
  intros [] s2 [H2 H2']. apply wp_bind. unfold idewait. apply wp_bind, wp_gets. apply wp_bind.
  eapply wp_mono; [apply idewait_loop_tab| |done]. intros v s3 E3. cbv beta in E3. cbn [andb]. step. apply wp_bind. unfold outb at 1. step. apply wp_bind.
  eapply wp_mono; [apply disk1_loop_tab| |done]. intros [] s4 E4. cbv beta in E4. unfold outb. step.
  assert (forall i cpu, routed i cpu s2 -> routed i cpu (set_outs (outs s4 ++ [(0x1f6, u8 (Z.lor 0xe0 (Z.shiftl 0 4)))]) s4)) as H4.
  { intros i cpu. unfold routed. cbn [iotab set_outs] in *. rewrite E4. cbn [iotab set_outs]. by rewrite E3. }
  split; [intros Hmp; by apply H4, H2|]. intros i cpu Hi Hne Hr. apply H4, H2'; [done|done|]. apply H1; [done|congruence|done].
Qed.

(** The devices as main starts them: the lines of the keyboard and of the disk are on; on a
    multiprocessor the first goes to processor 0 and the second to the last one; otherwise the
    timer is on as well. *)
Definition devices_on (mp : bool) (nc : Z) (s : irqst) : Prop :=
  line_on IRQ_KBD s /\ line_on IRQ_IDE s /\ (mp = true -> routed IRQ_KBD 0 s /\ routed IRQ_IDE (nc - 1) s) /\
  (mp = false -> line_on IRQ_TIMER s).

Lemma ideinit_step mp nc k r s : ready_at k (ins s 0x1f7) r -> (mp = true -> 0 <= nc - 1 < 256) ->
  line_on IRQ_KBD s -> (mp = true -> routed IRQ_KBD 0 s) ->
  returns (ideinit mp nc) s (fun _ s' => line_on IRQ_KBD s' /\ line_on IRQ_IDE s' /\
    (mp = true -> routed IRQ_KBD 0 s' /\ routed IRQ_IDE (nc - 1) s')).
Proof.
  intros Hr Hnc Hk Hkr. eapply returns_mono; [eapply returns_and; [by apply (ideinit_ok mp nc k r)|by apply ideinit_routes]|].
  intros [] s' ((_ & Hm & _) & H2 & H3). unfold line_on in *. split; [by rewrite Hm, Hk|]. split; [rewrite Hm by done; by rewrite Z.eqb_refl, andb_false_r|].
  intros Hmp. split; [|by apply H2]. apply H3; [done|done|by apply Hkr].
Qed.

Lemma timerinit_step s mp nc : mp = false -> line_on IRQ_KBD s -> line_on IRQ_IDE s -> returns timerinit s (fun _ s' => devices_on mp nc s').
Proof.
  intros -> H1 H2. unfold timerinit. do 3 (apply wp_bind; unfold outb at 1; step). eapply wp_mono; [by apply (picenable_step (fun _ => False))| |done].
  intros [] s' [[_ D _] Ht]. unfold devices_on. split; [by apply D|]. split; [by apply D|]. by split.
Qed.
