(* ===== verification/Lapic.v ===== *)
(** * lapic.c: the local APIC and the clock

    The registers of the APIC and the ports are written in an order that matters, so a
    write is a record of what was written; what a read gives is up to the device.  The
    clock runs while it is read: [rtc] gives its registers at each reading.  Lemmas:
    cmostime returns a time that was read twice with no update in progress, decodes it, and
    ends when the clock rests for one turn; the warm reset vector and the interrupts that
    start a processor. *)

From S2P Require Import Prelude Mmu Traps Memory.

(** Registers, as indices of words *)
Definition ID : Z := 0x0020 / 4.
Definition VER : Z := 0x0030 / 4.
Definition TPR : Z := 0x0080 / 4.
Definition EOI : Z := 0x00B0 / 4.
Definition SVR : Z := 0x00F0 / 4.
Definition ENABLE : Z := 0x00000100.
Definition ESR : Z := 0x0280 / 4.
Definition ICRLO : Z := 0x0300 / 4.
Definition INIT : Z := 0x00000500.
Definition STARTUP : Z := 0x00000600.
Definition DELIVS : Z := 0x00001000.
Definition ASSERT : Z := 0x00004000.
Definition LEVEL : Z := 0x00008000.
Definition BCAST : Z := 0x00080000.
Definition ICRHI : Z := 0x0310 / 4.
Definition TIMER : Z := 0x0320 / 4.
Definition X1 : Z := 0x0000000B.
Definition PERIODIC : Z := 0x00020000.
Definition PCINT : Z := 0x0340 / 4.
Definition LINT0 : Z := 0x0350 / 4.
Definition LINT1 : Z := 0x0360 / 4.
Definition ERROR : Z := 0x0370 / 4.
Definition MASKED : Z := 0x00010000.
Definition TICR : Z := 0x0380 / 4.
Definition TDCR : Z := 0x03E0 / 4.

Definition CMOS_PORT : Z := 0x70.
Definition CMOS_STATA : Z := 0x0a.
Definition CMOS_STATB : Z := 0x0b.
Definition CMOS_UIP : Z := Z.shiftl 1 7.
Definition SECS : Z := 0x00.
Definition MINS : Z := 0x02.
Definition HOURS : Z := 0x04.
Definition DAY : Z := 0x07.
Definition MONTH : Z := 0x08.
Definition YEAR : Z := 0x09.

(** [lapic]: whether there is one; [lregs]: the writes to its registers, in order; [lreads]:
    what reads of a register will give, the last for ever and 0 if there is none; [lports]: the writes to
    ports; [lmem]: memory; [now]: how often the clock was read; [warned]: the static
    counter of cpunum. *)
Record lapst := mkLapst {
  lapic : bool;
  lregs : list (Z * Z);
  lreads : Z -> list Z;
  lports : list (Z * Z);
  lmem : gmap Z Z;
  now : nat;
  warned : Z }.

Definition set_lregs (l : list (Z * Z)) (s : lapst) : lapst :=
  mkLapst (lapic s) l (lreads s) (lports s) (lmem s) (now s) (warned s).
Definition set_lreads (f : Z -> list Z) (s : lapst) : lapst :=
  mkLapst (lapic s) (lregs s) f (lports s) (lmem s) (now s) (warned s).
Definition set_lports (l : list (Z * Z)) (s : lapst) : lapst :=
  mkLapst (lapic s) (lregs s) (lreads s) l (lmem s) (now s) (warned s).
Definition set_lmem (m : gmap Z Z) (s : lapst) : lapst :=
  mkLapst (lapic s) (lregs s) (lreads s) (lports s) m (now s) (warned s).
Definition set_now (n : nat) (s : lapst) : lapst :=
  mkLapst (lapic s) (lregs s) (lreads s) (lports s) (lmem s) n (warned s).
Definition set_warned (n : Z) (s : lapst) : lapst :=
  mkLapst (lapic s) (lregs s) (lreads s) (lports s) (lmem s) (now s) n.

Definition read_on (l : list Z) : list Z := match l with _ :: (_ :: _) as l' => l' | _ => l end.

Definition lapicr (index : Z) : M lapst Z := fun s =>
  Done (u32 (hd 0 (lreads s index))) (set_lreads (upd index (read_on (lreads s index)) (lreads s)) s).

Definition lapicw (index value : Z) : M lapst unit :=
  modify (fun s => set_lregs (lregs s ++ [(index, u32 value)]) s) ;;
  lapicr ID ;;
  ret tt.

Definition outb (port data : Z) : M lapst unit := modify (fun s => set_lports (lports s ++ [(port, u8 data)]) s).

(** The loop that waits for the delivery. *)
Fixpoint deliv_wait (fuel : nat) : M lapst unit :=
  match fuel with
  | O => halt Diverged
  | S f => let! v := lapicr ICRLO in if Z.land v DELIVS =? 0 then ret tt else deliv_wait f
  end.

Definition lapicinit : M lapst unit :=
  let! there := gets lapic in
  if negb there then ret tt
  else
    lapicw SVR (Z.lor ENABLE (T_IRQ0 + IRQ_SPURIOUS)) ;;
    lapicw TDCR X1 ;;
    lapicw TIMER (Z.lor PERIODIC (T_IRQ0 + IRQ_TIMER)) ;;
    lapicw TICR 10000000 ;;
    lapicw LINT0 MASKED ;;
    lapicw LINT1 MASKED ;;
    let! v := lapicr VER in
    (if 4 <=? Z.land (Z.shiftr v 16) 0xFF then lapicw PCINT MASKED else ret tt) ;;
    lapicw ERROR (T_IRQ0 + IRQ_ERROR) ;;
    lapicw ESR 0 ;;
    lapicw ESR 0 ;;
    lapicw EOI 0 ;;
    lapicw ICRHI 0 ;;
    lapicw ICRLO (Z.lor (Z.lor BCAST INIT) LEVEL) ;;
    let! fuel := gets (fun s => S (length (lreads s ICRLO))) in
    deliv_wait fuel ;;
    lapicw TPR 0.

(** The number of the CPU, and whether the warning was printed; [intr] is the interrupt
    flag. *)
Definition cpunum (intr : bool) : M lapst (Z * bool) :=
  let! w := (if intr then
               let! n := gets warned in
               modify (set_warned (n + 1)) ;;
               ret (n =? 0)
             else ret false) in
  let! there := gets lapic in
  if there then let! v := lapicr ID in ret (Z.shiftr v 24, w) else ret (0, w).

Definition lapiceoi : M lapst unit :=
  let! there := gets lapic in
  if there then lapicw EOI 0 else ret tt.

Definition startup_ipi (apicid addr : Z) : M lapst unit :=
  lapicw ICRHI (Z.shiftl apicid 24) ;;
  lapicw ICRLO (Z.lor STARTUP (Z.shiftr addr 12)).

Definition lapicstartap (apicid addr : Z) : M lapst unit :=
  outb CMOS_PORT 0xF ;;
  outb (CMOS_PORT + 1) 0x0A ;;
  let wrv := p2v (Z.lor (Z.shiftl 0x40 4) 0x67) in
  modify (fun s => set_lmem (store16 (lmem s) wrv 0) s) ;;
  modify (fun s => set_lmem (store16 (lmem s) (wrv + 2) (Z.shiftr addr 4)) s) ;;
  lapicw ICRHI (Z.shiftl apicid 24) ;;
  lapicw ICRLO (Z.lor (Z.lor INIT LEVEL) ASSERT) ;;
  lapicw ICRLO (Z.lor INIT LEVEL) ;;
  startup_ipi apicid addr ;;
  startup_ipi apicid addr.

(** ** The clock *)

Section clock.
(** The register [r] at the [n]-th reading. *)
Context (rtc : nat -> Z -> Z).

Definition cmos_read (reg : Z) : M lapst Z :=
  outb CMOS_PORT reg ;;
  let! n := gets now in
  modify (set_now (S n)) ;;
  ret (u8 (rtc n reg)).

(** struct rtcdate *)
Record rtcdate := mkRtc { second : Z; minute : Z; hour : Z; day : Z; month : Z; year : Z }.
#[export] Instance rtcdate_eq_dec : EqDecision rtcdate.
Proof. solve_decision. Defined.

Definition fill_rtcdate : M lapst rtcdate :=
  let! s := cmos_read SECS in
  let! mi := cmos_read MINS in
  let! h := cmos_read HOURS in
  let! d := cmos_read DAY in
  let! mo := cmos_read MONTH in
  let! y := cmos_read YEAR in
  ret (mkRtc s mi h d mo y).

Fixpoint cmos_loop (fuel : nat) : M lapst rtcdate :=
  match fuel with
  | O => halt Diverged
  | S f =>
      let! t1 := fill_rtcdate in
      let! a := cmos_read CMOS_STATA in
      if negb (Z.land a CMOS_UIP =? 0) then cmos_loop f
      else
        let! t2 := fill_rtcdate in
        if decide (t1 = t2) then ret t1 else cmos_loop f
  end.

Definition CONV (x : Z) : Z := Z.shiftr x 4 * 10 + Z.land x 0xf.
Definition conv_date (t : rtcdate) : rtcdate :=
  mkRtc (CONV (second t)) (CONV (minute t)) (CONV (hour t)) (CONV (day t)) (CONV (month t)) (CONV (year t)).

Definition cmostime (fuel : nat) : M lapst rtcdate :=
  let! sb := cmos_read CMOS_STATB in
  let bcd := Z.land sb (Z.shiftl 1 2) =? 0 in
  let! t1 := cmos_loop fuel in
  let t1 := if bcd then conv_date t1 else t1 in
  ret (mkRtc (second t1) (minute t1) (hour t1) (day t1) (month t1) (year t1 + 2000)).

(** ** What cmostime returns *)

(** The date as six readings from the [n]-th on give it. *)
Definition read_at (n : nat) : rtcdate :=
  mkRtc (u8 (rtc n SECS)) (u8 (rtc (n + 1) MINS)) (u8 (rtc (n + 2) HOURS)) (u8 (rtc (n + 3) DAY))
    (u8 (rtc (n + 4) MONTH)) (u8 (rtc (n + 5) YEAR)).

Lemma wp_cmos_read reg s (Q : Z -> lapst -> Prop) E :
  (forall s', now s' = S (now s) -> Q (u8 (rtc (now s) reg)) s') -> wp (cmos_read reg) s Q E.
Proof. intros HQ. unfold cmos_read, outb. steps. by apply HQ. Qed.

Lemma wp_fill s (Q : rtcdate -> lapst -> Prop) E :
  (forall s', now s' = (now s + 6)%nat -> Q (read_at (now s)) s') -> wp fill_rtcdate s Q E.
Proof.
  intros HQ. unfold fill_rtcdate.
  apply wp_bind, wp_cmos_read; intros s1 E1. apply wp_bind, wp_cmos_read; intros s2 E2.
  apply wp_bind, wp_cmos_read; intros s3 E3. apply wp_bind, wp_cmos_read; intros s4 E4.
  apply wp_bind, wp_cmos_read; intros s5 E5. apply wp_bind, wp_cmos_read; intros s6 E6.
  step. rewrite E5, E4, E3, E2, E1. unfold read_at in HQ.
  replace (now s + 1)%nat with (S (now s)) in HQ by lia. replace (now s + 2)%nat with (S (S (now s))) in HQ by lia.
  replace (now s + 3)%nat with (S (S (S (now s)))) in HQ by lia. replace (now s + 4)%nat with (S (S (S (S (now s))))) in HQ by lia.
  replace (now s + 5)%nat with (S (S (S (S (S (now s)))))) in HQ by lia. apply HQ. lia.
Qed.

(** A date the loop accepts at the [n]-th reading: read twice, with no update in progress
    in between. *)
Definition accepted (n : nat) (t : rtcdate) : Prop :=
  t = read_at n /\ t = read_at (n + 7) /\ Z.land (u8 (rtc (n + 6) CMOS_STATA)) CMOS_UIP = 0.

(** One turn of the loop. *)
Lemma cmos_turn f s (Q : rtcdate -> lapst -> Prop) E :
  (forall s', accepted (now s) (read_at (now s)) -> Q (read_at (now s)) s') ->
  (forall s', ~ accepted (now s) (read_at (now s)) -> (now s < now s')%nat -> wp (cmos_loop f) s' Q E) ->
  wp (cmos_loop (S f)) s Q E.
Proof.
  intros HY HN. cbn [cmos_loop]. apply wp_bind, wp_fill. intros s1 E1. apply wp_bind, wp_cmos_read. intros s2 E2. rewrite E1.
  destruct (Z.eqb_spec (Z.land (u8 (rtc (now s + 6) CMOS_STATA)) CMOS_UIP) 0) as [Hu|Hu]; cbn [negb].
  - apply wp_bind, wp_fill. intros s3 E3. rewrite E2, E1. replace (S (now s + 6)) with (now s + 7)%nat by lia.
    destruct (decide (read_at (now s) = read_at (now s + 7))) as [Ht|Ht].
    + step. by apply HY.
    + apply HN; [|lia]. by intros (_ & ? & _).
  - apply HN; [|lia]. by intros (_ & _ & ?).
Qed.

(** Whatever the clock does, what the loop returns was read consistently. *)
Lemma cmos_loop_sound fuel s : wp (cmos_loop fuel) s (fun t _ => exists n, accepted n t) (fun w _ => w = Diverged).
Proof.
  revert s. induction fuel as [|f IH]; intros s; [done|]. apply cmos_turn.
  - intros s' Ha. by exists (now s).
  - intros s' _ _. apply IH.
Qed.

(** The clock rests: for 13 readings nothing changes and no update is in progress. *)
Definition rests (n : nat) : Prop :=
  forall i, (i < 13)%nat -> (forall r, rtc (n + i) r = rtc n r) /\ Z.land (u8 (rtc n CMOS_STATA)) CMOS_UIP = 0.

Lemma rests_accepted n : rests n -> accepted n (read_at n).
Proof.
  intros Hr. split; [done|]. split.
  - unfold read_at. repeat rewrite <- Nat.add_assoc. cbn [Nat.add].
    rewrite !(fun i Hi => proj1 (Hr i Hi)) by lia. done.
  - rewrite (proj1 (Hr 6%nat ltac:(lia))). apply (Hr 0%nat). lia.
Qed.

(** When it rests at the next turn, the loop ends. *)
Lemma cmos_loop_ends f s : rests (now s) ->
  returns (cmos_loop (S f)) s (fun t _ => t = read_at (now s)).
Proof. intros Hr. apply cmos_turn; [done|]. intros s' Hn _. by destruct Hn; apply rests_accepted. Qed.
End clock.

(** Two decimal digits in a byte are decoded. *)
Lemma CONV_bcd x : 0 <= x < 100 -> CONV (x / 10 * 16 + x mod 10) = x.
Proof.
  intros Hx. unfold CONV. rewrite Z.shiftr_div_pow2 by lia. change 0xf with (Z.ones 4). rewrite Z.land_ones by lia. zlia.
Qed.

(** ** Starting a processor *)

(** Steps that write [l] to the registers, in this order: ports, memory and what registers
    hold in the end are as before. *)
Record lap_step (l : list (Z * Z)) (s s' : lapst) : Prop := {
  ls_regs : lregs s' = lregs s ++ l;
  ls_lapic : lapic s' = lapic s;
  ls_ports : lports s' = lports s;
  ls_mem : lmem s' = lmem s;
  ls_last r : List.last (lreads s' r) 0 = List.last (lreads s r) 0;
  ls_length r : (length (lreads s' r) <= length (lreads s r))%nat }.

Lemma read_on_last l : List.last (read_on l) 0 = List.last l 0 /\ (length (read_on l) <= length l)%nat.
Proof. destruct l as [|x [|y l]]; simpl; split; done || lia. Qed.

Lemma lap_refl s : lap_step [] s s.
Proof. by split; rewrite ?app_nil_r. Qed.

Lemma lap_trans l1 l2 s1 s2 s3 : lap_step l1 s1 s2 -> lap_step l2 s2 s3 -> lap_step (l1 ++ l2) s1 s3.
Proof.
  intros [A1 A2 A3 A4 A5 A6] [B1 B2 B3 B4 B5 B6]. split; [by rewrite B1, A1, app_assoc|congruence..| |].
  - intros r. by rewrite B5, A5.
  - intros r. specialize (A6 r). specialize (B6 r). lia.
Qed.

Lemma lap_read r s : lap_step [] s (set_lreads (upd r (read_on (lreads s r)) (lreads s)) s).
Proof.
  pose proof (read_on_last (lreads s r)) as [H1 H2].
  split; [by rewrite app_nil_r|done..| |]; intros q; cbn [lreads set_lreads]; (destruct (decide (q = r)) as [->|]; [by rewrite upd_eq|by rewrite upd_ne]).
Qed.

(** A register write, from a state reached by [l]. *)
Lemma wp_lapicw index value l s0 s (k : M lapst unit) (Q : unit -> lapst -> Prop) E : lap_step l s0 s ->
  (forall s', lap_step (l ++ [(index, u32 value)]) s0 s' -> (forall r, r <> ID -> lreads s' r = lreads s r) -> wp k s' Q E) ->
  wp (lapicw index value ;; k) s Q E.
Proof.
  intros Hl HQ. apply wp_bind. unfold lapicw. apply wp_bind. step. apply wp_bind. unfold lapicr, wp at 1. cbv iota beta. step. apply HQ.
  - apply (lap_trans _ _ _ s); [done|]. set (s1 := set_lregs _ s).
    assert (lap_step [(index, u32 value)] s s1) as H1 by by split. exact (lap_trans _ [] _ _ _ H1 (lap_read ID s1)).
  - intros r Hr. cbn [lreads set_lreads]. by rewrite upd_ne.
Qed.

Lemma lapicw_last index value l s0 s : lap_step l s0 s ->
  returns (lapicw index value) s (fun _ s' => lap_step (l ++ [(index, u32 value)]) s0 s').
Proof.
  intros Hl. pose proof (wp_lapicw index value l s0 s (ret tt) (fun _ s' => lap_step (l ++ [(index, u32 value)]) s0 s') (fun _ _ => False) Hl) as H.
  unfold returns, wp in *. unfold bind in H. destruct (lapicw index value s) as [[] s'|]; apply H; intros s'' Hs _; exact Hs.
Qed.

Ltac lapicw_step H := eapply wp_lapicw; [exact H|]; clear H; intros ? H ?.

(** The APIC is busy only so often. *)
Definition delivers (s : lapst) : Prop := Z.land (u32 (List.last (lreads s ICRLO) 0)) DELIVS = 0.

(** The wait for the delivery ends. *)
Lemma deliv_wait_ok n s : delivers s -> (length (lreads s ICRLO) < n)%nat ->
  returns (deliv_wait n) s (fun _ s' => lap_step [] s s').
Proof.
  revert s. induction n as [|n IH]; intros s Hd Hn; [lia|]. cbn [deliv_wait]. apply wp_bind. unfold lapicr, wp at 1. cbv iota beta.
  pose proof (lap_read ICRLO s) as Hr. set (s1 := set_lreads _ s) in *.
  destruct (Z.eqb_spec (Z.land (u32 (hd 0 (lreads s ICRLO))) DELIVS) 0) as [|Hne]; [by step|]. unfold delivers in Hd.
  assert (lreads s1 ICRLO = read_on (lreads s ICRLO)) as E1 by apply upd_eq.
  destruct (lreads s ICRLO) as [|x [|y l]] eqn:El; [done|done|]. eapply wp_mono; [apply IH| |done].
  - unfold delivers. by rewrite E1.
  - rewrite E1. simpl in *. lia.
  - intros [] s' H. exact (lap_trans [] [] _ _ _ Hr H).
Qed.

Definition has_pcint (s : lapst) : bool := 4 <=? Z.land (Z.shiftr (u32 (hd 0 (lreads s VER))) 16) 0xFF.

(** What lapicinit writes: the local APIC enabled, the timer periodic on the vector of the
    timer, the local lines and (where there is one) the performance counter masked, errors on
    their vector, arbitration synchronised, and last the priority that lets interrupts in. *)
Definition lapic_regs (s : lapst) : list (Z * Z) :=
  [(SVR, 0x13F); (TDCR, 0xB); (TIMER, 0x20020); (TICR, 10000000); (LINT0, MASKED); (LINT1, MASKED)] ++
  (if has_pcint s then [(PCINT, MASKED)] else []) ++
  [(ERROR, 51); (ESR, 0); (ESR, 0); (EOI, 0); (ICRHI, 0); (ICRLO, 0x88500); (TPR, 0)].

Lemma pcint_ok (b : bool) l s0 s : lap_step l s0 s ->
  returns (if b then lapicw PCINT MASKED else ret tt) s (fun _ s' => lap_step (l ++ if b then [(PCINT, MASKED)] else []) s0 s').
Proof. intros H. destruct b; [exact (lapicw_last _ _ _ _ _ H)|]. unfold returns. step. by rewrite app_nil_r. Qed.

Lemma lapicinit_ok s : lapic s = true -> delivers s -> returns lapicinit s (fun _ s' => lap_step (lapic_regs s) s s').
Proof.
  intros Hl Hd. unfold lapicinit. apply wp_bind, wp_gets. rewrite Hl. cbn [negb]. pose proof (lap_refl s) as H.
  do 6 lapicw_step H. apply wp_bind. unfold lapicr at 1, wp at 1. cbv iota beta.
  match goal with |- context [set_lreads ?f ?x] => pose proof (lap_trans _ _ _ _ _ H (lap_read VER x)) as H'; set (s7 := set_lreads f x) in * end.
  clear H. clearbody s7. rewrite app_nil_r in H'.
  match goal with |- context [lreads ?x VER] => assert (lreads x VER = lreads s VER) as -> by (repeat (match goal with E : forall r, r <> ID -> _ |- _ => rewrite E by done; clear E end); done) end.
  fold (has_pcint s). apply wp_bind. eapply wp_mono; [apply (pcint_ok _ _ _ _ H')| |done].
  intros [] s8 H. cbv beta in H. do 6 lapicw_step H. apply wp_bind, wp_gets. apply wp_bind.
  eapply wp_mono; [apply deliv_wait_ok; [|lia]| |done].
  { unfold delivers. by rewrite (ls_last _ _ _ H). }
  intros [] s15 H15. cbv beta in H15. pose proof (lap_trans _ _ _ _ _ H H15) as H15'. eapply returns_mono; [exact (lapicw_last _ _ _ _ _ H15')|].
  intros [] s16 H16. cbv beta in H16. unfold lapic_regs. rewrite <- !app_assoc in H16. exact H16.
Qed.

(** The words segment : offset at 40:67. *)
Definition reset_vector (m : gmap Z Z) : Z * Z :=
  let A := 0x80000467 in (load8 m A + load8 m (A + 1) * 256, load8 m (A + 2) + load8 m (A + 3) * 256).

Lemma start_vector m addr : 0 <= addr < 2 ^ 20 ->
  reset_vector (store16 (store16 m 0x80000467 0) 0x80000469 (Z.shiftr addr 4)) = (0, addr / 16).
Proof.
  intros Ha. unfold reset_vector, store16. set (A := 0x80000467). change 0x80000469 with (A + 2). clearbody A.
  replace (A + 2 + 1) with (A + 3) by lia. rewrite Z.shiftr_div_pow2 by lia. change (0 / 2 ^ 8) with 0.
  rewrite (load8_store8_eq _ (A + 3)), (load8_store8_ne _ (A + 3) _ (A + 2)), (load8_store8_eq _ (A + 2)) by lia.
  rewrite !(load8_store8_ne _ (A + 3)), !(load8_store8_ne _ (A + 2)) by lia.
  rewrite load8_store8_eq, load8_store8_ne, load8_store8_eq by lia. unfold u8. change (0 mod 2 ^ 8) with 0.
  change (2 ^ 4) with 16. change (2 ^ 8) with 256. change (2 ^ 20) with 1048576 in Ha. f_equal. zlia.
Qed.

Lemma startup_ipi_ok apicid addr l s0 s : lap_step l s0 s ->
  returns (startup_ipi apicid addr) s (fun _ s' =>
    lap_step (l ++ [(ICRHI, u32 (Z.shiftl apicid 24)); (ICRLO, u32 (Z.lor STARTUP (Z.shiftr addr 12)))]) s0 s').
Proof.
  intros H. unfold returns, startup_ipi. lapicw_step H. eapply returns_mono; [exact (lapicw_last _ _ _ _ _ H)|].
  intros [] s2 H2. cbv beta in H2. by rewrite <- app_assoc in H2.
Qed.

(** lapicstartap leaves the address in the warm reset vector and sends INIT, its end, and
    twice the page of the start-up code, all to the processor [apicid]. *)
Lemma lapicstartap_ok apicid addr s : 0 <= apicid < 256 -> 0 <= addr < 2 ^ 20 -> addr mod 4096 = 0 ->
  returns (lapicstartap apicid addr) s (fun _ s' => exists s1,
    lap_step [(ICRHI, apicid * 2 ^ 24); (ICRLO, 0xC500); (ICRLO, 0x8500);
      (ICRHI, apicid * 2 ^ 24); (ICRLO, 0x600 + addr / 4096); (ICRHI, apicid * 2 ^ 24); (ICRLO, 0x600 + addr / 4096)] s1 s' /\
    s1 = set_lmem (lmem s1) (set_lports (lports s ++ [(CMOS_PORT, 0xF); (CMOS_PORT + 1, 0x0A)]) s) /\
    reset_vector (lmem s1) = (0, addr / 16) /\
    forall a, a < 0x80000467 \/ 0x8000046b <= a -> load8 (lmem s1) a = load8 (lmem s) a).
Proof.
  intros Hid Haddr Hal.
  assert (u32 (Z.shiftl apicid 24) = apicid * 2 ^ 24) as E1 by (rewrite Z.shiftl_mul_pow2 by lia; apply u32_small; lia).
  assert (u32 (Z.lor STARTUP (Z.shiftr addr 12)) = 0x600 + addr / 4096) as E2.
  { rewrite Z.shiftr_div_pow2 by lia. unfold STARTUP. rewrite (lor_aligned _ _ 8) by (done || zlia). apply u32_small. zlia. }
  unfold lapicstartap. unfold outb at 1 2. do 4 (apply wp_bind; step). set (s1 := set_lmem _ _).
  assert (lmem s1 = store16 (store16 (lmem s) 0x80000467 0) 0x80000469 (Z.shiftr addr 4)) as M1 by done.
  assert (s1 = set_lmem (lmem s1) (set_lports (lports s ++ [(CMOS_PORT, 0xF); (CMOS_PORT + 1, 0x0A)]) s)) as S1
    by (unfold s1, set_lports, set_lmem; cbn; by rewrite <- app_assoc).
  clearbody s1. pose proof (lap_refl s1) as H. do 3 lapicw_step H. rewrite E1 in H.
  apply wp_bind. eapply wp_mono; [apply (startup_ipi_ok apicid addr _ _ _ H)| |done]. clear H. intros [] s6 H. cbv beta in H.
  eapply returns_mono; [apply (startup_ipi_ok apicid addr _ _ _ H)|].
  clear H. intros [] s8 H. cbv beta in H. rewrite E1, E2, <- !app_assoc in H. exists s1. split; [exact H|]. split; [done|]. rewrite M1. split.
  - by apply start_vector.
  - intros a Ha. unfold store16. rewrite !load8_store8_ne by lia. done.
Qed.
