(* ===== verification/Bio.v ===== *)
(** * bio.c and ide.c: the buffer cache over the disk

    A cache of NBUF buffers in most-recently-used order, the request queue of the
    disk driver, and the disk.  [view] is what the file system sees of a sector:
    the cached copy if there is a valid one, else the disk.  The operations are
    shown to keep one buffer per sector and to give and take the view. *)

From S2P Require Import Prelude.

(** ** Buffers *)

Definition BSIZE : Z := 512.
Definition NBUF : nat := 30.

Definition block := list Z.

(** struct buf; the links are in [order] and [queue] below. *)
Record buf := mkBuf {
  busy : bool;
  valid : bool;
  dirty : bool;
  bdev : Z;
  sector : Z;
  bdata : block }.

Definition set_flags (bu va di : bool) (b : buf) : buf :=
  mkBuf bu va di (bdev b) (sector b) (bdata b).
Definition set_data (d : block) (b : buf) : buf :=
  mkBuf (busy b) (valid b) (dirty b) (bdev b) (sector b) d.

(** What the driver last told the drive. *)
Inductive cmd := CmdRead | CmdWrite (d : block).
Record request := mkReq { rdev : Z; lba : Z; rcmd : cmd }.

(** [order] lists the buffers from head.next on, most recently used first. *)
Record bcache := mkBcache {
  bufs : nat -> buf;
  order : list nat;
  queue : list nat;             (* idequeue *)
  drive : option request;       (* the command the drive works on *)
  disk : Z -> Z -> block;       (* by device and sector *)
  havedisk1 : bool }.

Definition set_buf (i : nat) (b : buf) (c : bcache) : bcache :=
  mkBcache (upd i b (bufs c)) (order c) (queue c) (drive c) (disk c) (havedisk1 c).
Definition set_order (o : list nat) (c : bcache) : bcache :=
  mkBcache (bufs c) o (queue c) (drive c) (disk c) (havedisk1 c).
Definition set_queue (q : list nat) (c : bcache) : bcache :=
  mkBcache (bufs c) (order c) q (drive c) (disk c) (havedisk1 c).
Definition set_drive (r : option request) (c : bcache) : bcache :=
  mkBcache (bufs c) (order c) (queue c) r (disk c) (havedisk1 c).
Definition set_disk (d : Z -> Z -> block) (c : bcache) : bcache :=
  mkBcache (bufs c) (order c) (queue c) (drive c) d (havedisk1 c).

(** binit links each buffer in front; dev is -1, the rest zero. *)
Definition binit (d : Z -> Z -> block) (data0 : nat -> block) (h1 : bool) : bcache :=
  mkBcache (fun i => mkBuf false false false (-1) 0 (data0 i)) (rev (seq 0 NBUF)) [] None d h1.

(** ** The driver *)

Definition store_sector (dev s : Z) (d : block) (dk : Z -> Z -> block) : Z -> Z -> block :=
  upd dev (upd s d (dk dev)) dk.

(** The registers get the sector in four parts, the last of four bits, and one bit of
    the device. *)
Definition idestart (i : nat) (c : bcache) : bcache :=
  let b := bufs c i in
  let s := Z.lor (Z.lor (Z.land (sector b) 0xff) (Z.shiftl (Z.land (Z.shiftr (sector b) 8) 0xff) 8))
             (Z.lor (Z.shiftl (Z.land (Z.shiftr (sector b) 16) 0xff) 16)
                (Z.shiftl (Z.land (Z.shiftr (sector b) 24) 0x0f) 24)) in
  set_drive (Some (mkReq (Z.land (bdev b) 1) s (if dirty b then CmdWrite (bdata b) else CmdRead))) c.

(** The drive carries out a write when it has the data; then it interrupts.  [ok] is
    what [idewait(1)] finds. *)
Definition drive_done (c : bcache) : bcache :=
  match drive c with
  | Some (mkReq dv s (CmdWrite d)) => set_disk (store_sector dv s d (disk c)) c
  | _ => c
  end.

Definition ideintr (ok : bool) (c : bcache) : bcache :=
  match queue c with
  | [] => c
  | i :: q =>
      let b := bufs c i in
      let c := set_queue q c in
      let data :=
        match drive c with
        | Some (mkReq dv s CmdRead) => if negb (dirty b) && ok then disk c dv s else bdata b
        | _ => bdata b
        end in
      let c := set_buf i (set_flags (busy b) true false (set_data data b)) c in
      match q with
      | [] => set_drive None c
      | j :: _ => idestart j c
      end
  end.

(** iderw up to its [sleep]: the checks, the queue, and the start of the disk. *)
Definition iderw_start (i : nat) : M bcache unit := fun c =>
  let b := bufs c i in
  if negb (busy b) then Stop (Panicked "iderw: buf not busy") c
  else if valid b && negb (dirty b) then Stop (Panicked "iderw: nothing to do") c
  else if negb (bdev b =? 0) && negb (havedisk1 c)
  then Stop (Panicked "iderw: ide disk 1 not present") c
  else
    let c := set_queue (queue c ++ [i]) c in
    Done tt (match queue c with
             | j :: _ => if decide (j = i) then idestart i c else c
             | [] => c
             end).

(** The disk finishes one request after the other, each with an interrupt, until the
    caller of iderw finds its buffer valid and clean. *)
Fixpoint ide_wait (n : nat) (i : nat) : M bcache unit := fun c =>
  if valid (bufs c i) && negb (dirty (bufs c i)) then Done tt c
  else match n with
       | O => Stop (Blocked (Z.of_nat i)) c
       | S n' => ide_wait n' i (ideintr true (drive_done c))
       end.

Definition iderw (i : nat) : M bcache unit :=
  iderw_start i ;;
  let! q := gets queue in
  ide_wait (length q) i.

(** ** The cache *)

(** The first loop of bget: the buffer of the sector. *)
Definition find_buf (dev s : Z) (c : bcache) : option nat :=
  List.find (fun i => (bdev (bufs c i) =? dev) && (sector (bufs c i) =? s)) (order c).

(** The second: from the least recently used on, one neither busy nor dirty. *)
Definition find_victim (c : bcache) : option nat :=
  List.find (fun i => negb (busy (bufs c i)) && negb (dirty (bufs c i))) (rev (order c)).

(** A buffer in use by another process: the caller sleeps, and starts over. *)
Definition bget (dev s : Z) : M bcache nat := fun c =>
  match find_buf dev s c with
  | Some i =>
      let b := bufs c i in
      if negb (busy b) then Done i (set_buf i (set_flags true (valid b) (dirty b) b) c)
      else Stop (Blocked (Z.of_nat i)) c
  | None =>
      match find_victim c with
      | Some i => Done i (set_buf i (mkBuf true false false dev s (bdata (bufs c i))) c)
      | None => Stop (Panicked "bget: no buffers") c
      end
  end.

Definition bread (dev s : Z) : M bcache nat :=
  let! i := bget dev s in
  let! v := gets (fun c => valid (bufs c i)) in
  (if negb v then iderw i else ret tt) ;;
  ret i.

Definition bwrite (i : nat) : M bcache unit :=
  let! b := gets (fun c => bufs c i) in
  if negb (busy b) then panic "bwrite"
  else
    modify (set_buf i (set_flags (busy b) (valid b) true b)) ;;
    iderw i.

Definition brelse (i : nat) : M bcache unit :=
  let! b := gets (fun c => bufs c i) in
  if negb (busy b) then panic "brelse"
  else
    modify (fun c => set_order (i :: filter (fun j => j <> i) (order c)) c) ;;
    modify (set_buf i (set_flags false (valid b) (dirty b) b)).

(** ** The driver serves its queue in order *)

(** A buffer the driver may be asked to sync. *)
Definition wants_io (c : bcache) (i : nat) : Prop :=
  let b := bufs c i in
  busy b = true /\ valid b && negb (dirty b) = false /\
  (bdev b = 0 \/ bdev b = 1 /\ havedisk1 c = true) /\ 0 <= sector b < 2 ^ 28.

(** What the request of buffer [i] does to it and to the disk. *)
Definition complete (c : bcache) (i : nat) : bcache :=
  let b := bufs c i in
  if dirty b then
    set_disk (store_sector (bdev b) (sector b) (bdata b) (disk c))
      (set_buf i (set_flags (busy b) true false b) c)
  else set_buf i (set_flags (busy b) true false (set_data (disk c (bdev b) (sector b)) b)) c.

Definition req_of (b : buf) : request :=
  mkReq (bdev b) (sector b) (if dirty b then CmdWrite (bdata b) else CmdRead).

Record ide_inv (c : bcache) : Prop := {
  id_nodup : NoDup (queue c);
  id_wants i : i ∈ queue c -> wants_io c i;
  id_drive : drive c = match queue c with [] => None | i :: _ => Some (req_of (bufs c i)) end }.

(** The four parts of the sector number make it up again. *)
Lemma split_sector s : 0 <= s < 2 ^ 28 ->
  Z.lor (Z.lor (Z.land s 0xff) (Z.shiftl (Z.land (Z.shiftr s 8) 0xff) 8))
    (Z.lor (Z.shiftl (Z.land (Z.shiftr s 16) 0xff) 16)
       (Z.shiftl (Z.land (Z.shiftr s 24) 0x0f) 24)) = s.
Proof.
  intros Hs. change 0xff with (Z.ones 8). change 0x0f with (Z.ones 4).
  rewrite !Z.land_ones, !Z.shiftr_div_pow2, !Z.shiftl_mul_pow2 by lia.
  assert (forall a f n, 0 <= n -> a mod 2 ^ n = 0 -> 0 <= f < 2 ^ n -> Z.lor f a = a + f) as Hl
    by (intros; rewrite Z.lor_comm; by apply (lor_aligned _ _ n)).
  rewrite (Hl (s / 2 ^ 8 mod 2 ^ 8 * 2 ^ 8) (s mod 2 ^ 8) 8) by zlia.
  rewrite (Hl (s / 2 ^ 24 mod 2 ^ 4 * 2 ^ 24) (s / 2 ^ 16 mod 2 ^ 8 * 2 ^ 16) 24) by zlia.
  rewrite (Hl _ _ 16) by zlia. zlia.
Qed.

Lemma idestart_req c i : wants_io c i -> idestart i c = set_drive (Some (req_of (bufs c i))) c.
Proof.
  intros (_ & _ & Hd & Hs). unfold idestart, req_of. rewrite split_sector by done.
  do 3 f_equal. by destruct Hd as [->|[-> _]].
Qed.

Lemma complete_other c i j : i <> j -> bufs (complete c i) j = bufs c j.
Proof. intros Hij. unfold complete. destruct (dirty _); simpl; by rewrite upd_ne. Qed.

Lemma complete_self c i : bufs (complete c i) i =
  set_flags (busy (bufs c i)) true false
    (if dirty (bufs c i) then bufs c i
     else set_data (disk c (bdev (bufs c i)) (sector (bufs c i))) (bufs c i)).
Proof. unfold complete. destruct (dirty _); simpl; by rewrite upd_eq. Qed.

Lemma complete_fields c i : queue (complete c i) = queue c /\ order (complete c i) = order c /\
  havedisk1 (complete c i) = havedisk1 c /\ drive (complete c i) = drive c.
Proof. unfold complete. by destruct (dirty _). Qed.

(** One interrupt completes the first request and starts the next. *)
Lemma ideintr_step c i q : ide_inv c -> queue c = i :: q ->
  let c1 := complete c i in
  ideintr true (drive_done c) =
    set_drive (match q with [] => None | j :: _ => Some (req_of (bufs c j)) end) (set_queue q c1) /\
  ide_inv (ideintr true (drive_done c)).
Proof.
  intros [Hnd Hw Hd] Hq c1. rewrite Hq in *. apply NoDup_cons in Hnd as [Hni Hnd].
  assert (forall j, j ∈ q -> j <> i) as Hne by (intros j Hj ->; done).
  assert (ideintr true (drive_done c) =
    set_drive (match q with [] => None | j :: _ => Some (req_of (bufs c j)) end)
      (set_queue q c1)) as He.
  { assert (drive_done c = if dirty (bufs c i) then
      set_disk (store_sector (bdev (bufs c i)) (sector (bufs c i)) (bdata (bufs c i)) (disk c)) c
      else c) as -> by (unfold drive_done, req_of in *; rewrite Hd; by destruct (dirty _)).
    unfold ideintr, c1, complete, req_of in *.
    destruct (dirty (bufs c i)) eqn:Hdi; cbn [queue set_disk]; rewrite Hq;
      cbn [bufs set_queue set_disk drive dirty]; rewrite ?Hd, ?Hdi; cbn [negb andb];
      (destruct q as [|j q']; [done|]);
      (rewrite idestart_req;
        [unfold req_of; cbn [bufs set_buf set_queue set_disk];
         rewrite upd_ne by (apply Hne, elem_of_cons; by left); done|]);
      unfold wants_io; cbn [bufs set_buf havedisk1 set_queue set_disk];
      rewrite upd_ne by (apply Hne, elem_of_cons; by left);
      apply Hw, elem_of_cons; right; apply elem_of_cons; by left. }
  split; [done|]. rewrite He. split; simpl; [done| |].
  - intros j Hj. unfold wants_io, c1. simpl. rewrite complete_other by (apply not_eq_sym; auto).
    destruct (complete_fields c i) as (_ & _ & -> & _). apply Hw, elem_of_cons. by right.
  - destruct q as [|j q']; [done|]. unfold c1. rewrite complete_other; [done|].
    apply not_eq_sym, Hne, elem_of_cons. by left.
Qed.

Lemma fold_complete_frame l r q c : fold_left complete l (set_drive r (set_queue q c)) =
  set_drive r (set_queue q (fold_left complete l c)).
Proof.
  revert c. induction l as [|k l IH]; intros c; [done|]. simpl.
  replace (complete (set_drive r (set_queue q c)) k) with (set_drive r (set_queue q (complete c k)))
    by (unfold complete; simpl; by destruct (dirty _)).
  apply IH.
Qed.

(** The caller that sleeps in iderw gets every request before its own served, in the
    order of the queue, and then its own. *)
Lemma ide_wait_run q c i : ide_inv c -> queue c = q ++ [i] -> forall n, (length q < n)%nat ->
  ide_wait n i c = Done tt (set_drive None (set_queue [] (fold_left complete (q ++ [i]) c))).
Proof.
  revert c. induction q as [|j q IH]; intros c Hi Hq n Hn; (destruct n as [|n]; [simpl in Hn; lia|]).
  - destruct (ideintr_step c i [] Hi Hq) as [He _].
    assert (valid (bufs c i) && negb (dirty (bufs c i)) = false) as Hv
      by (apply (id_wants c Hi); rewrite Hq; by apply elem_of_cons; left).
    simpl. rewrite Hv, He.
    assert (valid (bufs (complete c i) i) && negb (dirty (bufs (complete c i) i)) = true) as Hv1
      by (by rewrite complete_self).
    destruct n; simpl; by rewrite Hv1.
  - destruct (ideintr_step c j (q ++ [i]) Hi Hq) as [He Hi'].
    assert (valid (bufs c i) && negb (dirty (bufs c i)) = false) as Hv
      by (apply (id_wants c Hi); rewrite Hq; set_solver).
    cbn [ide_wait]. rewrite Hv. rewrite He in *. rewrite IH; [|done|done|simpl in Hn; lia].
    rewrite fold_complete_frame. done.
Qed.

Lemma iderw_start_run c i : ide_inv c -> i ∉ queue c -> wants_io c i ->
  exists c', iderw_start i c = Done tt c' /\ ide_inv c' /\ queue c' = queue c ++ [i] /\
    exists r, c' = set_drive r (set_queue (queue c ++ [i]) c).
Proof.
  intros [Hnd Hw Hd] Hi Hwi. pose proof Hwi as (Hb & Hv & Hdev & Hs).
  assert (negb (bdev (bufs c i) =? 0) && negb (havedisk1 c) = false) as Hh
    by (destruct Hdev as [->|[-> ->]]; done).
  assert (NoDup (queue c ++ [i])) as Hnd'
    by (apply NoDup_app; split; [done|]; split; [|apply NoDup_singleton];
        intros x Hx ->%list_elem_of_singleton; done).
  assert (forall c', (exists r, c' = set_drive r (set_queue (queue c ++ [i]) c)) ->
    forall j, j ∈ queue c' -> wants_io c' j) as Hw'
    by (intros c' [r ->] j; simpl; rewrite elem_of_app, list_elem_of_singleton; intros [Hj| ->];
        [by apply Hw|done]).
  unfold iderw_start. rewrite Hb, Hv, Hh. cbn [negb]. cbn [queue set_queue].
  destruct (queue c) as [|j q] eqn:Hq; cbn [app].
  - rewrite decide_True by done. eexists; split; [done|].
    rewrite idestart_req by done.
    split; [|split; [done|by eexists]]. split; [done|apply Hw'; by eexists|done].
  - rewrite decide_False by (intros ->; apply Hi, elem_of_cons; by left).
    eexists; split; [done|].
    assert (set_queue (j :: q ++ [i]) c = set_drive (drive c) (set_queue (j :: q ++ [i]) c)) as He
      by done.
    split; [|split; [done|by eexists]]. split; [done|apply Hw'; by eexists|done].
Qed.

Lemma iderw_run c i : ide_inv c -> i ∉ queue c -> wants_io c i ->
  iderw i c = Done tt (set_drive None (set_queue [] (fold_left complete (queue c ++ [i]) c))).
Proof.
  intros Hc Hi Hw. destruct (iderw_start_run c i Hc Hi Hw) as (c' & He & Hc' & Hq & r & ->).
  unfold iderw, bind. rewrite He. unfold gets.
  rewrite (ide_wait_run (queue c)) by (done || (simpl; rewrite length_app; simpl; lia)).
  by rewrite fold_complete_frame.
Qed.

(** ** One buffer per sector, and the view of the disk *)

Definition dev_ok (c : bcache) (dev s : Z) : Prop :=
  (dev = 0 \/ dev = 1 /\ havedisk1 c = true) /\ 0 <= s < 2 ^ 28.

(** The cache between two calls: no request is pending, and the buffers that nobody
    holds agree with the disk unless they are dirty. *)
Record cache_ok (c : bcache) : Prop := {
  co_order : order c ≡ₚ seq 0 NBUF;
  co_idle : queue c = [] /\ drive c = None;
  co_one i j : (i < NBUF)%nat -> (j < NBUF)%nat -> 0 <= bdev (bufs c i) ->
    bdev (bufs c i) = bdev (bufs c j) -> sector (bufs c i) = sector (bufs c j) -> i = j;
  co_disk i : (i < NBUF)%nat -> busy (bufs c i) = false -> valid (bufs c i) = true ->
    dirty (bufs c i) = false -> bdata (bufs c i) = disk c (bdev (bufs c i)) (sector (bufs c i));
  co_dirty i : (i < NBUF)%nat -> dirty (bufs c i) = true -> valid (bufs c i) = true }.

(** What the file system sees of a sector: the cached copy, or else the disk. *)
Definition view (c : bcache) (dev s : Z) : block :=
  match find_buf dev s c with
  | Some i => if valid (bufs c i) then bdata (bufs c i) else disk c dev s
  | None => disk c dev s
  end.

Definition holds (c : bcache) (i : nat) (dev s : Z) : Prop :=
  (i < NBUF)%nat /\ bdev (bufs c i) = dev /\ sector (bufs c i) = s.

Lemma in_order c i : cache_ok c -> In i (order c) <-> (i < NBUF)%nat.
Proof. intros Hc. rewrite (co_order c Hc), in_seq. lia. Qed.

Lemma find_buf_some c dev s i : cache_ok c -> 0 <= dev ->
  find_buf dev s c = Some i <-> holds c i dev s.
Proof.
  intros Hc Hd. unfold find_buf, holds. split.
  - intros [Hin Hb]%find_some. bool_prop. rewrite in_order in Hin by done. done.
  - intros (Hi & Hdev & Hs). destruct (List.find _ _) as [j|] eqn:E.
    + apply find_some in E as [Hin Hb]. bool_prop. rewrite in_order in Hin by done.
      f_equal. apply (co_one c Hc); congruence.
    + apply (in_order c i Hc), (find_none _ _ E i) in Hi.
      rewrite Hdev, Hs, !Z.eqb_refl in Hi. done.
Qed.

Lemma find_buf_none c dev s i : cache_ok c -> find_buf dev s c = None -> ~ holds c i dev s.
Proof.
  intros Hc E (Hi & Hdev & Hs). unfold find_buf in E.
  apply (in_order c i Hc), (find_none _ _ E i) in Hi.
  rewrite Hdev, Hs, !Z.eqb_refl in Hi. done.
Qed.

Lemma view_holds c dev s i : cache_ok c -> 0 <= dev -> holds c i dev s ->
  view c dev s = if valid (bufs c i) then bdata (bufs c i) else disk c dev s.
Proof. intros Hc Hd Hi. unfold view. by rewrite (proj2 (find_buf_some c dev s i Hc Hd) Hi). Qed.

Lemma view_free c dev s : cache_ok c -> 0 <= dev -> (forall i, ~ holds c i dev s) ->
  view c dev s = disk c dev s.
Proof.
  intros Hc Hd Hn. unfold view. destruct (find_buf dev s c) eqn:E; [|done].
  apply find_buf_some in E; [by apply Hn in E|done..].
Qed.

(** The view after buffer [i] was changed to [b]. *)
Lemma view_set_buf c i b dev s : cache_ok c -> cache_ok (set_buf i b c) -> 0 <= dev ->
  (i < NBUF)%nat ->
  view (set_buf i b c) dev s =
    if decide (bdev b = dev /\ sector b = s) then if valid b then bdata b else disk c dev s
    else if decide (holds c i dev s) then disk c dev s else view c dev s.
Proof.
  intros Hc Hc' Hd Hi. case_decide as H; [|case_decide as H0].
  - rewrite (view_holds _ dev s i) by (done || (unfold holds; simpl; by rewrite upd_eq)).
    simpl. by rewrite upd_eq.
  - rewrite view_free; [done|done..|]. intros j (Hj & E1 & E2). simpl in *.
    destruct (decide (j = i)) as [->|Hne]; [rewrite upd_eq in E1, E2; tauto|].
    rewrite upd_ne in E1, E2 by done. apply Hne. destruct H0 as (_ & E3 & E4).
    apply (co_one c Hc); (done || congruence).
  - unfold view at 2. destruct (find_buf dev s c) as [j|] eqn:E.
    + apply find_buf_some in E; [|done..].
      assert (j <> i) as Hne by (intros ->; done).
      rewrite (view_holds _ dev s j); [|done..|].
      * simpl. by rewrite upd_ne.
      * unfold holds in *. simpl. by rewrite upd_ne.
    + rewrite view_free; [done|done..|]. intros j Hj. unfold holds in Hj; simpl in Hj.
      destruct (decide (j = i)) as [->|Hne]; [rewrite upd_eq in Hj; tauto|].
      rewrite upd_ne in Hj by done. by apply (find_buf_none c dev s j Hc E).
Qed.

(** A buffer may be changed to one that keeps the invariant. *)
Lemma cache_ok_set_buf c i b : cache_ok c -> (i < NBUF)%nat ->
  (forall j, (j < NBUF)%nat -> j <> i -> 0 <= bdev b ->
     ~ (bdev (bufs c j) = bdev b /\ sector (bufs c j) = sector b)) ->
  (busy b = false -> valid b = true -> dirty b = false -> bdata b = disk c (bdev b) (sector b)) ->
  (dirty b = true -> valid b = true) ->
  cache_ok (set_buf i b c).
Proof.
  intros Hc Hi Hone Hdisk Hdirty. split; simpl; [apply Hc|apply Hc|..].
  - intros j k Hj Hk. unfold upd. repeat case_decide; subst; try done; intros Hd E1 E2.
    + by destruct (Hone k).
    + by destruct (Hone j); [..|congruence|].
    + by apply (co_one c Hc).
  - intros j Hj. unfold upd. case_decide; [done|]. by apply Hc.
  - intros j Hj. unfold upd. case_decide; [done|]. by apply Hc.
Qed.

Lemma same_sector_set_buf c i b : cache_ok c -> (i < NBUF)%nat ->
  bdev b = bdev (bufs c i) -> sector b = sector (bufs c i) ->
  forall j, (j < NBUF)%nat -> j <> i -> 0 <= bdev b ->
     ~ (bdev (bufs c j) = bdev b /\ sector (bufs c j) = sector b).
Proof.
  intros Hc Hi E1 E2 j Hj Hne Hd [E3 E4]. apply Hne, (co_one c Hc); (done || congruence).
Qed.

(** A buffer for the sector can be had: it is cached and free, or there is a victim. *)
Definition available (c : bcache) (dev s : Z) : Prop :=
  match find_buf dev s c with
  | Some i => busy (bufs c i) = false
  | None => exists i, find_victim c = Some i
  end.

Lemma find_victim_some c i : cache_ok c -> find_victim c = Some i ->
  (i < NBUF)%nat /\ busy (bufs c i) = false /\ dirty (bufs c i) = false.
Proof.
  intros Hc [Hin Hb]%find_some. rewrite <- in_rev, in_order in Hin by done. bool_prop. done.
Qed.

Lemma find_victim_none c i : cache_ok c -> find_victim c = None -> (i < NBUF)%nat ->
  busy (bufs c i) = false -> dirty (bufs c i) = true.
Proof.
  intros Hc E Hi Hb. apply (in_order c i Hc), in_rev, (find_none _ _ E) in Hi.
  rewrite Hb in Hi. by destruct (dirty _).
Qed.

Lemma bget_run c dev s : cache_ok c -> 0 <= dev -> available c dev s ->
  exists i b c', bget dev s c = Done i c' /\ c' = set_buf i b c /\ cache_ok c' /\ (i < NBUF)%nat /\
    busy (bufs c i) = false /\ dirty b = dirty (bufs c i) /\
    (dirty (bufs c i) = true -> holds c i dev s) /\
    bdev b = dev /\ sector b = s /\ busy b = true /\
    (forall dev' s', 0 <= dev' -> view c' dev' s' = view c dev' s') /\
    (valid b = false -> dirty b = false /\ view c dev s = disk c dev s).
Proof.
  intros Hc Hd Ha. unfold available, bget in *. destruct (find_buf dev s c) as [i|] eqn:E.
  - rewrite Ha. simpl. apply find_buf_some in E; [|done..]. pose proof E as (Hi & E1 & E2).
    set (b := set_flags true (valid (bufs c i)) (dirty (bufs c i)) (bufs c i)).
    assert (cache_ok (set_buf i b c)) as Hc'.
    { apply cache_ok_set_buf; [done..|by apply same_sector_set_buf|done|by apply Hc]. }
    exists i, b, (set_buf i b c). repeat (split; [done|]). split.
    + intros dev' s' Hd'. rewrite view_set_buf by done. unfold b. simpl.
      case_decide as H; [by rewrite (view_holds c dev' s' i)|].
      case_decide as H'; [|done]. destruct H. by destruct H' as (_ & -> & ->).
    + simpl. intros Hv. rewrite (view_holds c dev s i), Hv by done. split; [|done].
      destruct (dirty (bufs c i)) eqn:Hdi; [|done]. apply Hc in Hdi; [congruence|done].
  - destruct Ha as [i Ha]. rewrite Ha. destruct (find_victim_some c i Hc Ha) as (Hi & Hb & Hdi).
    set (b := mkBuf true false false dev s (bdata (bufs c i))).
    assert (cache_ok (set_buf i b c)) as Hc'.
    { apply cache_ok_set_buf; [done..| |done|done]. intros j Hj _ _ [E1 E2].
      by apply (find_buf_none c dev s j Hc E). }
    assert (view c dev s = disk c dev s) as Hv by (unfold view; by rewrite E).
    exists i, b, (set_buf i b c). do 5 (split; [done|]). split; [by rewrite Hdi|].
    split; [by rewrite Hdi|]. repeat (split; [done|]). split; [|done].
    intros dev' s' Hd'. rewrite view_set_buf by done. unfold b. simpl.
    case_decide as H; [by destruct H as [<- <-]|]. case_decide as H'; [|done].
    rewrite (view_holds c dev' s' i) by done. destruct (valid _) eqn:Hvi; [|done].
    destruct H' as (_ & <- & <-). symmetry. by apply Hc.
Qed.

Lemma iderw_idle c i : cache_ok c -> wants_io c i -> iderw i c = Done tt (complete c i).
Proof.
  intros Hc Hw. destruct (co_idle c Hc) as [Hq Hd].
  rewrite iderw_run; [|split; rewrite ?Hq; [apply NoDup_nil_2|set_solver|done]|rewrite Hq; set_solver|done].
  rewrite Hq. simpl. f_equal. unfold complete, set_drive, set_queue.
  destruct (dirty _); simpl; unfold set_disk, set_buf; simpl; by rewrite Hq, Hd.
Qed.

Lemma bread_run c dev s : cache_ok c -> dev_ok c dev s -> available c dev s ->
  exists i c', bread dev s c = Done i c' /\ cache_ok c' /\ (i < NBUF)%nat /\
    busy (bufs c i) = false /\ (dirty (bufs c i) = true -> holds c i dev s) /\
    bufs c' i = mkBuf true true (dirty (bufs c i)) dev s (view c dev s) /\
    (forall j, j <> i -> bufs c' j = bufs c j) /\
    disk c' = disk c /\ order c' = order c /\ havedisk1 c' = havedisk1 c /\
    (forall dev' s', 0 <= dev' -> view c' dev' s' = view c dev' s').
Proof.
  intros Hc [Hdv Hs] Ha. assert (0 <= dev) as Hd by lia.
  destruct (bget_run c dev s Hc Hd Ha) as 
    (i & b & c' & He & Ec' & Hc' & Hi & Hfree & Hdb & Hdh & E1 & E2 & Hb & Hv & Hn).
  assert (bufs c' i = b) as Hbi by (rewrite Ec'; apply upd_eq).
  assert (holds c' i dev s) as Hh by (unfold holds; by rewrite Hbi).
  assert (forall j, j <> i -> bufs c' j = bufs c j) as Ho by (intros; rewrite Ec'; by apply upd_ne).
  unfold bread, bind, gets, ret. rewrite He, Hbi.
  destruct (valid b) eqn:Hvb; simpl.
  - exists i, c'. do 5 (split; [done|]). split; [|by rewrite Ec' in *].
    rewrite <- Hv, (view_holds c' dev s i), Hbi, Hvb, <- Hdb by done.
    destruct b; simpl in *; by subst.
  - destruct (Hn eq_refl) as [Hdi Hvd].
    rewrite iderw_idle; [|done|].
    2:{ unfold wants_io. rewrite Hbi, Hvb, Hb, E1, E2. rewrite Ec'. done. }
    assert (complete c' i = set_buf i (mkBuf true true false dev s (view c dev s)) c') as ->.
    { unfold complete. rewrite Hbi, Hdi, E1, E2, Hvd. unfold set_flags, set_data. simpl.
      rewrite Hb, E1, E2, Ec'. done. }
    set (b' := mkBuf true true false dev s (view c dev s)).
    assert (cache_ok (set_buf i b' c')) as Hc''.
    { apply cache_ok_set_buf; [done..| |done|done].
      apply same_sector_set_buf; [done..| |]; by rewrite Hbi. }
    exists i, (set_buf i b' c'). split; [done|]. split; [done|]. repeat (split; [done|]).
    split; [rewrite <- Hdb, Hdi; apply upd_eq|].
    split; [intros j Hj; rewrite <- Ho by done; by apply upd_ne|].
    repeat (split; [by rewrite Ec'|]). intros dev' s' Hd'. rewrite <- Hv, view_set_buf by done.
    unfold b'. simpl. case_decide as H; [destruct H as [<- <-]; by rewrite Hv|].
    case_decide as H'; [|done]. destruct H. by destruct H' as (_ & <- & <-); rewrite Hbi.
Qed.

Lemma store_sector_eq dev s d dk : store_sector dev s d dk dev s = d.
Proof. unfold store_sector. by rewrite !upd_eq. Qed.

Lemma store_sector_ne dev s d dk dev' s' : ~ (dev' = dev /\ s' = s) ->
  store_sector dev s d dk dev' s' = dk dev' s'.
Proof.
  intros H. unfold store_sector. destruct (decide (dev' = dev)) as [->|Hd].
  - rewrite upd_eq, upd_ne; [done|]. intros ->. by apply H.
  - by rewrite upd_ne.
Qed.

(** A buffer that was written to the disk. *)
Definition written (i : nat) (c : bcache) : bcache :=
  let b := bufs c i in
  set_disk (store_sector (bdev b) (sector b) (bdata b) (disk c))
    (set_buf i (set_flags true true false b) c).

Lemma bwrite_run c i : cache_ok c -> (i < NBUF)%nat -> busy (bufs c i) = true ->
  valid (bufs c i) = true -> dev_ok c (bdev (bufs c i)) (sector (bufs c i)) ->
  bwrite i c = Done tt (written i c).
Proof.
  intros Hc Hi Hb Hv [Hdv Hs]. unfold bwrite, bind, gets, modify. rewrite Hb. simpl.
  set (c1 := set_buf i _ c).
  assert (cache_ok c1) as Hc1.
  { apply cache_ok_set_buf; [done..|by apply same_sector_set_buf| |done]. simpl. congruence. }
  assert (bufs c1 i = set_flags true (valid (bufs c i)) true (bufs c i)) as E1
    by (unfold c1; simpl; by rewrite upd_eq).
  rewrite iderw_idle; [|done|unfold wants_io; rewrite E1; simpl; by rewrite Hv].
  unfold complete. rewrite E1. simpl. f_equal. unfold written, set_disk, set_buf; simpl.
  by rewrite upd_upd.
Qed.

Lemma written_ok c i : cache_ok c -> (i < NBUF)%nat -> 0 <= bdev (bufs c i) ->
  cache_ok (written i c) /\
  forall dev s, 0 <= dev -> view (written i c) dev s =
    if decide (holds c i dev s) then bdata (bufs c i) else view c dev s.
Proof.
  intros Hc Hi Hd. set (b := bufs c i). set (c1 := set_buf i (set_flags true true false b) c).
  assert (cache_ok c1) as Hc1
    by (apply cache_ok_set_buf; [done..|by apply same_sector_set_buf|done|done]).
  assert (cache_ok (written i c)) as Hc'.
  { split; simpl; [apply Hc|apply Hc|apply Hc1| |apply Hc1].
    intros j Hj Hb Hv Hdi. pose proof (co_disk c1 Hc1 j Hj Hb Hv Hdi) as E. unfold c1, b in *.
    simpl in *. rewrite store_sector_ne; [done|]. intros [E1 E2]. revert Hb E1 E2. unfold upd.
    case_decide; [done|]. intros _ E1 E2.
    pose proof (co_one c Hc i j Hi Hj). naive_solver. }
  split; [done|]. intros dev s Hdev. case_decide as H.
  - rewrite (view_holds _ dev s i) by (done || (unfold holds in *; simpl; by rewrite upd_eq)).
    simpl. by rewrite upd_eq.
  - unfold view. change (find_buf dev s (written i c)) with (find_buf dev s c1).
    transitivity (view c1 dev s).
    + unfold view. simpl. rewrite store_sector_ne; [done|].
      intros [-> ->]. by apply H.
    + unfold c1. rewrite view_set_buf by done. simpl. rewrite decide_False.
      * by rewrite decide_False.
      * intros [<- <-]. by apply H.
Qed.

Lemma brelse_run c i : cache_ok c -> (i < NBUF)%nat -> busy (bufs c i) = true ->
  (valid (bufs c i) = true -> dirty (bufs c i) = false ->
   bdata (bufs c i) = disk c (bdev (bufs c i)) (sector (bufs c i))) ->
  let b := bufs c i in
  let c' := set_buf i (set_flags false (valid b) (dirty b) b)
              (set_order (i :: filter (fun j => j <> i) (order c)) c) in
  brelse i c = Done tt c' /\ cache_ok c' /\
  forall dev s, 0 <= dev -> view c' dev s = view c dev s.
Proof.
  intros Hc Hi Hb Hcl b c'. unfold brelse, bind, gets, modify. rewrite Hb. simpl. split; [done|].
  set (c1 := set_buf i (set_flags false (valid b) (dirty b) b) c).
  assert (cache_ok c1) as Hc1
    by (apply cache_ok_set_buf; [done..|by apply same_sector_set_buf|done|apply Hc; done]).
  assert (cache_ok c') as Hc'.
  { split; simpl; try apply Hc1. assert (i ∈ order c) as Hin
      by (rewrite list_elem_of_In; by apply in_order).
    assert (NoDup (order c)) as Hnd by (rewrite (co_order c Hc); apply NoDup_seq).
    etransitivity; [|apply (co_order c Hc)]. apply NoDup_Permutation; [|done|].
    - apply NoDup_cons. split; [rewrite list_elem_of_filter; tauto|by apply NoDup_filter].
    - intros x. rewrite elem_of_cons, list_elem_of_filter. destruct (decide (x = i)); naive_solver. }
  split; [done|]. intros dev s Hd. transitivity (view c1 dev s).
  - destruct (find_buf dev s c1) as [j|] eqn:E.
    + apply find_buf_some in E; [|done..]. by rewrite (view_holds c1 _ _ j), (view_holds c' _ _ j).
    + assert (forall j, ~ holds c1 j dev s) as Hn by (intros j; by apply find_buf_none).
      rewrite (view_free c1), (view_free c'); done.
  - unfold c1. rewrite view_set_buf by done. simpl. case_decide as H.
    + by rewrite (view_holds c dev s i).
    + case_decide as H'; [|done]. destruct H. by destruct H' as (_ & <- & <-).
Qed.

Lemma binit_ok d data0 h1 : cache_ok (binit d data0 h1).
Proof.
  split; [|done|simpl; lia|done|done]. unfold binit. cbn [order]. symmetry. apply Permutation_rev.
Qed.

Lemma binit_available d data0 h1 dev s : 0 <= dev -> available (binit d data0 h1) dev s.
Proof.
  intros Hd. unfold available. destruct (find_buf dev s (binit d data0 h1)) as [i|] eqn:E.
  - apply find_buf_some in E; [|apply binit_ok|done]. destruct E as (_ & E & _). simpl in E. lia.
  - by exists 0%nat.
Qed.

(** ** Theorems *)

(** The disk driver serves its queue in order: a process that calls iderw on a
    buffer returns after every request queued before it was carried out, first come
    first served, and then its own; each request reads its sector into the buffer or
    writes a dirty buffer to it, and leaves the buffer valid and clean.  The sector
    number the driver spreads over four registers arrives whole below 2^28. *)
Lemma iderw_spec (c : bcache) (i : nat) : ide_inv c -> i ∉ queue c -> wants_io c i ->
  exists c', iderw i c = Done tt c' /\
    c' = set_drive None (set_queue [] (fold_left complete (queue c ++ [i]) c)) /\
    valid (bufs c' i) = true /\ dirty (bufs c' i) = false.
Proof.
  intros Hc Hi Hw. rewrite (iderw_run c i) by done. eexists. split; [done|]. split; [done|]. simpl.
  rewrite fold_left_app. simpl. by rewrite complete_self.
Qed.

Definition two_requests : bcache :=
  let c := binit (fun _ s => [s]) (fun _ => []) false in
  let c := set_buf 1 (mkBuf true false false 0 7 []) c in
  let c := set_buf 2 (mkBuf true true true 0 9 [42]) c in
  set_drive (Some (mkReq 0 7 CmdRead)) (set_queue [1%nat] c).

Lemma iderw_spec_witness : exists c', iderw 2 two_requests = Done tt c' /\
  bdata (bufs c' 1) = [7] /\ disk c' 0 9 = [42].
Proof.
  destruct (iderw_spec two_requests 2) as (c' & He & -> & _).
  - split; [apply NoDup_singleton| |done]. intros i ->%list_elem_of_singleton.
    unfold wants_io. simpl. repeat (split; [done|]). split; [by left|lia].
  - simpl. rewrite list_elem_of_singleton. lia.
  - unfold wants_io. simpl. repeat (split; [done|]). split; [by left|lia].
  - eexists. split; [exact He|]. split; reflexivity.
Defined.

(** C6. The buffer cache implements the disk: bread of a sector gives a locked buffer
    with the current contents of the sector, whichever buffers are cached, and leaves
    the contents of all sectors alone; writing [d] into that buffer, bwrite and brelse
    put [d] on the disk and make it the contents of that sector and of no other.  There
    is at most one buffer for a sector before and after. *)
Theorem bcache_refines_disk (c : bcache) (dev s : Z) (d : block) :
  cache_ok c -> dev_ok c dev s -> available c dev s ->
  exists i c1, bread dev s c = Done i c1 /\ cache_ok c1 /\
    busy (bufs c1 i) = true /\ bdata (bufs c1 i) = view c dev s /\
    (forall dev' s', 0 <= dev' -> view c1 dev' s' = view c dev' s') /\
    returns (modify (fun c => set_buf i (set_data d (bufs c i)) c) ;; bwrite i ;; brelse i) c1
      (fun _ c2 => cache_ok c2 /\ disk c2 = store_sector dev s d (disk c) /\
         forall dev' s', 0 <= dev' ->
           view c2 dev' s' = if decide (dev' = dev /\ s' = s) then d else view c dev' s').
Proof.
  intros Hc Hdv Ha. assert (0 <= dev) as Hd by (destruct Hdv; lia).
  destruct (bread_run c dev s Hc Hdv Ha)
    as (i & c1 & He & Hc1 & Hi & _ & _ & Hb & _ & Hdk & _ & Hh & Hv).
  set (di := dirty (bufs c i)) in *.
  exists i, c1. rewrite Hb. repeat (split; [done|]). unfold returns. steps.
  rewrite Hb. unfold set_data at 1. simpl. set (c2 := set_buf i _ c1).
  assert (bufs c2 i = mkBuf true true di dev s d) as Hb2 by (apply upd_eq).
  assert (cache_ok c2) as Hc2
    by (apply cache_ok_set_buf; [done..|apply same_sector_set_buf; by rewrite ?Hb|done|done]).
  assert (forall dev' s', 0 <= dev' -> ~ (dev' = dev /\ s' = s) ->
    view c2 dev' s' = view c dev' s') as Hv2.
  { intros dev' s' Hd' Hne. unfold c2. rewrite view_set_buf, <- Hv by done. simpl.
    rewrite decide_False by naive_solver. rewrite decide_False; [done|].
    unfold holds. rewrite Hb. simpl. naive_solver. }
  assert (disk c2 = disk c /\ havedisk1 c2 = havedisk1 c) as [Hdk2 Hh2] by (split; [exact Hdk|exact Hh]).
  clearbody c2. eapply wp_run.
  { apply bwrite_run; rewrite ?Hb2; try done. unfold dev_ok in *. simpl. by rewrite Hh2. }
  destruct (written_ok c2 i Hc2 Hi) as [Hc3 Hv3]; [by rewrite Hb2|].
  destruct (brelse_run (written i c2) i Hc3 Hi) as (He4 & Hc4 & Hv4).
  - unfold written. simpl. by rewrite upd_eq.
  - unfold written. simpl. rewrite upd_eq, Hb2. simpl. intros _ _. by rewrite store_sector_eq.
  - eapply wp_run; [exact He4|]. split; [done|]. split.
    { simpl. by rewrite Hb2, Hdk2. }
    intros dev' s' Hd'. rewrite Hv4, Hv3 by done. unfold holds. rewrite Hb2. simpl.
    destruct (decide (dev' = dev /\ s' = s)) as [[-> ->]|Hne].
    + by rewrite decide_True.
    + rewrite decide_False by naive_solver. by apply Hv2.
Qed.

Lemma bcache_refines_disk_witness :
  let c := binit (fun _ s => [s]) (fun _ => []) false in
  exists i c1, bread 0 5 c = Done i c1 /\ bdata (bufs c1 i) = [5].
Proof.
  intros c. destruct (bcache_refines_disk c 0 5 [8]) as (i & c1 & He & _ & _ & Hb & _).
  - apply binit_ok.
  - split; [by left|lia].
  - apply binit_available. lia.
  - exists i, c1. split; [exact He|]. rewrite Hb. reflexivity.
Defined.

(** Least recently used: when bget has to recycle a buffer for an uncached sector it
    takes one that nobody holds and that has nothing to write, and every buffer released
    less recently is held or dirty; if all are held or dirty it panics, whatever the sector. *)
Lemma bget_recycles_lru (c : bcache) (dev s : Z) : find_buf dev s c = None ->
  match bget dev s c with
  | Done i c' => busy (bufs c i) = false /\ dirty (bufs c i) = false /\
      bufs c' i = mkBuf true false false dev s (bdata (bufs c i)) /\
      exists l1 l2, order c = l1 ++ i :: l2 /\
        forall j, j ∈ l2 -> busy (bufs c j) || dirty (bufs c j) = true
  | Stop w c' => w = Panicked "bget: no buffers" /\ c' = c /\
      forall j, j ∈ order c -> busy (bufs c j) || dirty (bufs c j) = true
  end.
Proof.
  intros Hf. unfold bget. rewrite Hf. unfold find_victim.
  assert (forall l, match List.find (fun i => negb (busy (bufs c i)) && negb (dirty (bufs c i))) l with
    | Some i => busy (bufs c i) = false /\ dirty (bufs c i) = false /\
        exists l1 l2, l = l1 ++ i :: l2 /\ forall j, j ∈ l1 -> busy (bufs c j) || dirty (bufs c j) = true
    | None => forall j, j ∈ l -> busy (bufs c j) || dirty (bufs c j) = true end) as Hfind.
  { induction l as [|k l IH]; simpl; [set_solver|].
    destruct (busy (bufs c k)) eqn:Eb, (dirty (bufs c k)) eqn:Ed; simpl.
    4:{ split; [done|]. split; [done|]. exists [], l. split; [done|set_solver]. }
    all: destruct (List.find _ l) as [i|];
      [destruct IH as (? & ? & l1 & l2 & -> & Hl); do 2 (split; [done|]);
       exists (k :: l1), l2; split; [done|]; intros j [->|Hj]%elem_of_cons; [by rewrite Eb, Ed|by apply Hl]
      |intros j [->|Hj]%elem_of_cons; [by rewrite Eb, Ed|by apply IH]]. }
  specialize (Hfind (rev (order c))). destruct (List.find _ _) as [i|].
  - destruct Hfind as (Hb & Hd & l1 & l2 & E & Hl). do 2 (split; [done|]).
    split; [apply upd_eq|]. exists (rev l2), (rev l1). split.
    + rewrite <- (rev_involutive (order c)), E, rev_app_distr. simpl. by rewrite <- app_assoc.
    + intros j Hj. apply Hl. by rewrite list_elem_of_In, in_rev, <- list_elem_of_In.
  - split; [done|]. split; [done|]. intros j Hj. apply Hfind.
    by rewrite list_elem_of_In, <- in_rev, <- list_elem_of_In.
Qed.

Lemma bget_recycles_lru_witness :
  exists i c', bget 1 4 (binit (fun _ _ => []) (fun _ => []) false) = Done i c' /\
    busy (bufs (binit (fun _ _ => []) (fun _ => []) false) i) = false.
Proof.
  pose proof (bget_recycles_lru (binit (fun _ _ => []) (fun _ => []) false) 1 4 eq_refl) as H.
  eexists _, _. split; [reflexivity|]. exact (proj1 H).
Defined.
