(* ===== verification/Memide.v ===== *)
(** * memide.c: a disk in memory

    The stand-in for the disk driver, which keeps the blocks in an array of bytes.  It
    implements what the buffer cache needs of ide.c: where the array holds the disk, its
    iderw does to buffer and disk what iderw of ide.c does when the disk is idle. *)

From S2P Require Import Prelude Bytes Bio.

Record memide := mkMemide {
  mbufs : nat -> buf;
  memdisk : list Z;
  disksize : Z }.

(** [_binary_fs_img_start] and [_binary_fs_img_size] *)
Definition ideinit (image : list Z) (bufs : nat -> buf) : memide := mkMemide bufs image (zlen image / 512).

Definition mem_ideintr (d : memide) : memide := d.

Definition mem_iderw (i : nat) : M memide unit := fun d =>
  let b := mbufs d i in
  if negb (busy b) then Stop (Panicked "iderw: buf not busy") d
  else if valid b && negb (dirty b) then Stop (Panicked "iderw: nothing to do") d
  else if negb (bdev b =? 1) then Stop (Panicked "iderw: request not for disk 1") d
  else if disksize d <=? sector b then Stop (Panicked "iderw: sector out of range") d
  else
    let p := sector b * 512 in
    if dirty b then
      Done tt (mkMemide (upd i (set_flags (busy b) true false b) (mbufs d)) (splice p (bdata b) (memdisk d)) (disksize d))
    else
      Done tt (mkMemide (upd i (set_flags (busy b) true (dirty b) (set_data (slice p 512 (memdisk d)) b)) (mbufs d))
                 (memdisk d) (disksize d)).

(** The array holds disk 1, and the buffers are those of the cache. *)
Record in_memory (d : memide) (c : bcache) : Prop := {
  mm_bufs : mbufs d = bufs c;
  mm_size : zlen (memdisk d) = 512 * disksize d;
  mm_disk s : 0 <= s < disksize d -> slice (s * 512) 512 (memdisk d) = disk c 1 s }.

Lemma slice_splice_sector s t x l : 0 <= s -> 0 <= t -> zlen x = 512 -> 512 * (s + 1) <= zlen l -> 512 * (t + 1) <= zlen l ->
  slice (t * 512) 512 (splice (s * 512) x l) = if decide (t = s) then x else slice (t * 512) 512 l.
Proof.
  intros Hs Ht Hx Hl Hl'. case_decide as E.
  - subst t. rewrite <- Hx at 2. apply slice_splice_eq; lia.
  - apply slice_splice_ne; lia.
Qed.

(** On a disk that is idle the two drivers do the same. *)
Lemma memide_refines d c i : in_memory d c -> cache_ok c -> wants_io c i ->
  bdev (bufs c i) = 1 -> sector (bufs c i) < disksize d -> zlen (bdata (bufs c i)) = 512 ->
  exists d' c', mem_iderw i d = Done tt d' /\ iderw i c = Done tt c' /\ in_memory d' c'.
Proof.
  intros [Hb Hz Hd] Hc Hw Hdev Hs Hlen. rewrite (iderw_idle c i Hc Hw). destruct Hw as (W1 & W2 & _ & W4).
  unfold mem_iderw. rewrite Hb, W1, W2, Hdev. cbn [negb]. change (1 =? 1) with true. cbn [negb].
  destruct (Z.leb_spec (disksize d) (sector (bufs c i))); [lia|]. unfold complete. rewrite W1.
  destruct (dirty (bufs c i)) eqn:Ed; eexists _, _; (split; [done|]); (split; [done|]); split; simpl; try done.
  - rewrite zlen_splice; lia.
  - intros t Ht. rewrite slice_splice_sector by lia. rewrite Hdev. unfold store_sector. rewrite upd_eq. unfold upd.
    case_decide; [done|]. by apply Hd.
  - rewrite Hd, Hdev by lia. done.
Qed.
