(* ===== verification/Device.v ===== *)
(** * The disk as the log and the file system see it

    A [device] is a disk with some blocks pinned in memory: what bio.c promises to
    log.c.  Reading a block gives the pinned copy if there is one; bwrite puts a
    block on the disk and unpins it; a block that log_write marks B_DIRTY is pinned.
    The machine may lose power after a given number of block writes ([power]).
    The cache of Bio.v implements the device. *)

From S2P Require Import Prelude Bio.

Record device := mkDevice {
  ondisk : Z -> block;
  pinned : gmap Z block;
  power : option nat }.

Definition contents (d : device) (s : Z) : block := default (ondisk d s) (pinned d !! s).

Definition dread (s : Z) : M device block := gets (fun d => contents d s).

Definition dwrite (s : Z) (b : block) : M device unit := fun d =>
  match power d with
  | Some O => Stop Crashed d
  | p => Done tt (mkDevice (upd s b (ondisk d)) (delete s (pinned d)) (pred <$> p))
  end.

Definition dpin (s : Z) (b : block) : M device unit :=
  modify (fun d => mkDevice (ondisk d) (<[s := b]> (pinned d)) (power d)).

(** After a power failure the memory is gone. *)
Definition reboot (p : option nat) (d : device) : device := mkDevice (ondisk d) ∅ p.

(** ** The cache implements the device *)

Definition read_block (dev s : Z) : M bcache block :=
  let! i := bread dev s in
  let! b := gets (fun c => bdata (bufs c i)) in
  brelse i ;; ret b.

Definition write_block (dev s : Z) (b : block) : M bcache unit :=
  let! i := bread dev s in
  modify (fun c => set_buf i (set_data b (bufs c i)) c) ;; bwrite i ;; brelse i.

(** The last line of log_write, and the caller's brelse. *)
Definition pin_block (dev s : Z) (b : block) : M bcache unit :=
  let! i := bread dev s in
  modify (fun c => set_buf i (set_data b (bufs c i)) c) ;;
  modify (fun c => set_buf i (set_flags (busy (bufs c i)) (valid (bufs c i)) true (bufs c i)) c) ;;
  brelse i.

Record sim (dev : Z) (c : bcache) (d : device) : Prop := {
  sim_ok : cache_ok c;
  sim_power : power d = None;
  sim_free i : (i < NBUF)%nat -> busy (bufs c i) = false;
  sim_view s : view c dev s = contents d s;
  sim_disk s : disk c dev s = ondisk d s;
  sim_dirty i : (i < NBUF)%nat -> dirty (bufs c i) = true ->
    bdev (bufs c i) = dev /\ is_Some (pinned d !! sector (bufs c i));
  sim_pinned s : is_Some (pinned d !! s) -> exists i, holds c i dev s /\ dirty (bufs c i) = true }.

(** As long as fewer blocks are pinned than there are buffers, a buffer can be had. *)
Lemma sim_available dev c d s : 0 <= dev -> sim dev c d -> (size (pinned d) < NBUF)%nat ->
  available c dev s.
Proof.
  intros Hd Hs Hn. unfold available. destruct (find_buf dev s c) as [i|] eqn:E.
  { apply find_buf_some in E; [|apply Hs|done]. apply (sim_free dev c d Hs), E. }
  destruct (find_victim c) as [i|] eqn:Ev; [by exists i|]. exfalso.
  assert (forall i, (i < NBUF)%nat -> dirty (bufs c i) = true) as Hdi.
  { intros i Hi. apply (find_victim_none c i (sim_ok _ _ _ Hs) Ev Hi), Hs, Hi. }
  set (l := map (fun i => sector (bufs c i)) (seq 0 NBUF)).
  assert (NoDup l) as Hnd.
  { apply NoDup_fmap_2_strong; [|apply NoDup_seq]. intros i j Hi Hj Hij.
    apply elem_of_seq in Hi, Hj.
    destruct (sim_dirty dev c d Hs i) as [Ei _]; [lia|apply Hdi; lia|].
    destruct (sim_dirty dev c d Hs j) as [Ej _]; [lia|apply Hdi; lia|].
    apply (co_one c (sim_ok _ _ _ Hs)); (lia || congruence). }
  assert (length l <= size (pinned d))%nat as Hle.
  { rewrite <- size_dom, <- (size_list_to_set (C := gset Z) l Hnd). apply subseteq_size.
    intros x Hx. apply elem_of_list_to_set in Hx. apply list_elem_of_fmap in Hx as (i & -> & Hi).
    apply elem_of_seq in Hi. apply elem_of_dom. apply (sim_dirty dev c d Hs); [lia|apply Hdi; lia]. }
  unfold l in Hle. rewrite length_map, length_seq in Hle. lia.
Qed.

(** The simulation is kept by an operation on the one buffer it locked. *)
Lemma sim_update dev c d c' d' i s di x : 0 <= dev -> sim dev c d -> (i < NBUF)%nat ->
  (dirty (bufs c i) = true -> holds c i dev s) ->
  cache_ok c' -> power d' = None ->
  (forall j, j <> i -> bufs c' j = bufs c j) -> bufs c' i = mkBuf false true di dev s x ->
  (forall s', view c' dev s' = contents d' s') -> (forall s', disk c' dev s' = ondisk d' s') ->
  (di = true <-> is_Some (pinned d' !! s)) ->
  (forall s', s' <> s -> pinned d' !! s' = pinned d !! s') ->
  sim dev c' d'.
Proof.
  intros Hd Hs Hi Hold Hc' Hp Hoth Hbi Hv Hdk Hpin Hpo. split; try done.
  - intros j Hj. destruct (decide (j = i)) as [->|Hne]; [by rewrite Hbi|].
    rewrite Hoth by done. by apply Hs.
  - intros j Hj. destruct (decide (j = i)) as [->|Hne].
    { rewrite Hbi. simpl. tauto. }
    intros Hdj. rewrite Hoth in * by done. destruct (sim_dirty dev c d Hs j Hj Hdj) as [E1 E2].
    split; [done|]. rewrite Hpo; [done|]. intros E3. apply Hne, (co_one c' Hc'); [done..| | |].
    all: rewrite Hoth by done; rewrite ?Hbi; simpl; congruence.
  - intros s' Hs'. destruct (decide (s' = s)) as [->|Hne].
    { exists i. unfold holds. rewrite Hbi. simpl. tauto. }
    rewrite Hpo in Hs' by done. destruct (sim_pinned dev c d Hs s' Hs') as (j & Hh & Hdj).
    assert (j <> i) as Hji.
    { intros ->. destruct (Hold Hdj) as (_ & _ & E). destruct Hh as (_ & _ & E'). congruence. }
    exists j. unfold holds. rewrite Hoth by done. done.
Qed.

Section simulation.
Context (dev : Z) (c : bcache) (d : device) (s : Z).
Hypothesis Hs : sim dev c d.
Hypothesis Hdev : dev_ok c dev s.
Hypothesis Hroom : (size (pinned d) < NBUF)%nat.

Lemma sim_bread : exists i c1, bread dev s c = Done i c1 /\ cache_ok c1 /\ (i < NBUF)%nat /\
  (dirty (bufs c i) = true -> holds c i dev s) /\
  bufs c1 i = mkBuf true true (dirty (bufs c i)) dev s (contents d s) /\
  (forall j, j <> i -> bufs c1 j = bufs c j) /\ disk c1 = disk c /\ havedisk1 c1 = havedisk1 c /\
  (forall s', view c1 dev s' = contents d s') /\
  (dirty (bufs c i) = true <-> is_Some (pinned d !! s)).
Proof.
  assert (0 <= dev) as Hd by (destruct Hdev; lia).
  destruct (bread_run c dev s (sim_ok _ _ _ Hs) Hdev (sim_available dev c d s Hd Hs Hroom))
    as (i & c1 & He & Hc1 & Hi & _ & Hdh & Hb & Ho & Hdk & _ & Hh & Hv).
  rewrite (sim_view _ _ _ Hs) in Hb. exists i, c1. repeat (split; [done|]).
  split; [intros s'; rewrite Hv by done; apply Hs|]. split.
  - intros Hdi. destruct (Hdh Hdi) as (_ & _ & <-). by apply (sim_dirty dev c d Hs).
  - intros Hp. destruct (sim_pinned dev c d Hs s Hp) as (j & (Hj & E1 & E2) & Hdj).
    assert (j = i) as ->; [|done]. apply (co_one c1 Hc1); [done..| | |].
    all: destruct (decide (j = i)) as [->|Hne]; rewrite ?Hb, ?Ho by done; simpl; congruence.
Qed.

(** Reading a block. *)
Lemma sim_read : returns (read_block dev s) c (fun b c' => b = contents d s /\ sim dev c' d).
Proof.
  assert (0 <= dev) as Hd by (destruct Hdev; lia).
  destruct sim_bread as (i & c1 & He & Hc1 & Hi & Hdh & Hb & Ho & Hdk & _ & Hv & Hp).
  unfold read_block, returns. step. eapply wp_run; [exact He|]. steps. rewrite Hb. simpl.
  destruct (brelse_run c1 i Hc1 Hi) as (He2 & Hc2 & Hv2); [by rewrite Hb| |].
  { rewrite Hb. simpl. intros _ Hdi. rewrite Hdk, (sim_disk _ _ _ Hs). unfold contents.
    destruct (pinned d !! s) eqn:E; [|done]. destruct Hp as [_ Hp].
    rewrite Hp in Hdi by done. done. }
  eapply wp_run; [exact He2|]. steps. split; [done|].
  eapply (sim_update dev c d _ d i s); try done.
  - apply Hs.
  - intros j Hj. simpl. rewrite upd_ne by done. by apply Ho.
  - simpl. rewrite upd_eq, Hb. done.
  - intros s'. rewrite Hv2 by done. apply Hv.
  - intros s'. simpl. rewrite Hdk. apply Hs.
Qed.

(** The holder of the locked buffer changes it. *)
Lemma sim_locked i c1 b di : cache_ok c1 -> (i < NBUF)%nat -> 0 <= dev ->
  bufs c1 i = mkBuf true true (dirty (bufs c i)) dev s (contents d s) ->
  (forall s', view c1 dev s' = contents d s') ->
  let c2 := set_buf i (mkBuf true true di dev s b) c1 in
  cache_ok c2 /\ bufs c2 i = mkBuf true true di dev s b /\
  forall s', view c2 dev s' = if decide (s' = s) then b else contents d s'.
Proof.
  intros Hc1 Hi Hd Hb Hv c2. assert (cache_ok c2) as Hc2
    by (apply cache_ok_set_buf; [done..|apply same_sector_set_buf; by rewrite ?Hb|done|done]).
  split; [done|]. split; [apply upd_eq|]. intros s'. unfold c2. rewrite view_set_buf by done. simpl.
  destruct (decide (s' = s)) as [->|Hne].
  - by rewrite decide_True.
  - rewrite decide_False by (intros [_ E]; by apply Hne). rewrite decide_False; [by apply Hv|].
    unfold holds. rewrite Hb. simpl. naive_solver.
Qed.

(** Writing one. *)
Lemma sim_write b : returns (write_block dev s b) c (fun _ c' =>
  exists d', dwrite s b d = Done tt d' /\ sim dev c' d').
Proof.
  assert (0 <= dev) as Hd by (destruct Hdev; lia).
  destruct sim_bread as (i & c1 & He & Hc1 & Hi & Hdh & Hb & Ho & Hdk & Hh & Hv & Hp).
  unfold write_block, returns. step. eapply wp_run; [exact He|]. steps.
  rewrite Hb. unfold set_data. simpl.
  destruct (sim_locked i c1 b (dirty (bufs c i)) Hc1 Hi Hd Hb Hv) as (Hc2 & Hb2 & Hv2).
  set (c2 := set_buf i _ c1) in *.
  assert (disk c2 = disk c /\ havedisk1 c2 = havedisk1 c /\ forall j, j <> i -> bufs c2 j = bufs c j)
    as (Hdk2 & Hh2 & Ho2).
  { split; [done|]. split; [done|]. intros j Hj. rewrite <- Ho by done. by apply upd_ne. }
  clearbody c2. eapply wp_run.
  { apply bwrite_run; rewrite ?Hb2; try done. unfold dev_ok in *. simpl. by rewrite Hh2. }
  destruct (written_ok c2 i Hc2 Hi) as [Hc3 Hv3]; [by rewrite Hb2|].
  destruct (brelse_run (written i c2) i Hc3 Hi) as (He4 & Hc4 & Hv4).
  { unfold written. simpl. by rewrite upd_eq. }
  { unfold written. simpl. rewrite upd_eq, Hb2. simpl. intros _ _. by rewrite store_sector_eq. }
  eapply wp_run; [exact He4|]. unfold dwrite. rewrite (sim_power _ _ _ Hs).
  eexists. split; [done|]. simpl in Hc4.
  eapply (sim_update dev c d _ _ i s); try done; simpl.
  - intros j Hj. rewrite !upd_ne by done. by apply Ho2.
  - rewrite !upd_eq, Hb2. done.
  - intros s'. rewrite Hv4, Hv3, Hv2 by done. unfold contents, holds. rewrite Hb2. simpl.
    destruct (decide (s' = s)) as [->|Hne].
    + rewrite decide_True by done. by rewrite lookup_delete_eq, upd_eq.
    + rewrite decide_False by naive_solver. by rewrite lookup_delete_ne, upd_ne by done.
  - intros s'. rewrite Hb2, Hdk2. simpl. destruct (decide (s' = s)) as [->|Hne].
    + by rewrite store_sector_eq, upd_eq.
    + rewrite store_sector_ne, upd_ne by naive_solver. apply Hs.
  - rewrite lookup_delete_eq, is_Some_alt. done.
  - intros s' Hne. by rewrite lookup_delete_ne.
Qed.

(** Pinning one. *)
Lemma sim_pin b : returns (pin_block dev s b) c (fun _ c' =>
  exists d', dpin s b d = Done tt d' /\ sim dev c' d').
Proof.
  assert (0 <= dev) as Hd by (destruct Hdev; lia).
  destruct sim_bread as (i & c1 & He & Hc1 & Hi & Hdh & Hb & Ho & Hdk & Hh & Hv & Hp).
  unfold pin_block, returns. step. eapply wp_run; [exact He|]. steps.
  destruct (sim_locked i c1 b true Hc1 Hi Hd Hb Hv) as (Hc2 & Hb2 & Hv2).
  assert (set_buf i (set_flags true true true (set_data b (bufs c1 i)))
    (set_buf i (set_data b (bufs c1 i)) c1) = set_buf i (mkBuf true true true dev s b) c1) as E.
  { unfold set_buf at 1 3. simpl. rewrite upd_upd, Hb. done. }
  simpl. rewrite upd_eq. unfold set_data at 1 2. simpl. rewrite Hb at 1 2. simpl.
  rewrite E. set (c2 := set_buf i _ c1) in *.
  assert (disk c2 = disk c /\ forall j, j <> i -> bufs c2 j = bufs c j) as (Hdk2 & Ho2).
  { split; [done|]. intros j Hj. rewrite <- Ho by done. by apply upd_ne. }
  clearbody c2.
  destruct (brelse_run c2 i Hc2 Hi) as (He4 & Hc4 & Hv4); [by rewrite Hb2|by rewrite Hb2|].
  eapply wp_run; [exact He4|]. eexists. split; [done|].
  eapply (sim_update dev c d _ _ i s); try done; simpl.
  - apply Hs.
  - intros j Hj. rewrite !upd_ne by done. by apply Ho2.
  - rewrite !upd_eq, Hb2. done.
  - intros s'. rewrite Hv4, Hv2 by done. unfold contents. simpl.
    destruct (decide (s' = s)) as [->|Hne]; [by rewrite lookup_insert_eq|by rewrite lookup_insert_ne].
  - intros s'. rewrite Hdk2. apply Hs.
  - rewrite lookup_insert_eq, is_Some_alt. done.
  - intros s' Hne. by rewrite lookup_insert_ne.
Qed.
End simulation.

Lemma sim_binit dev d data0 h1 : 0 <= dev ->
  sim dev (binit d data0 h1) (mkDevice (d dev) ∅ None).
Proof.
  intros Hd. split; try done.
  - apply binit_ok.
  - intros s. rewrite view_free; [done|apply binit_ok|done|]. intros i (_ & E & _). simpl in E. lia.
  - intros s [x Hx]. done.
Qed.

(** C7. The buffer cache implements a disk with pinned blocks: while fewer than NBUF
    blocks are pinned, reading a block through bread and brelse gives its pinned copy or
    else what is on the disk; bwrite puts the block on the disk and unpins it; marking it
    dirty, as log_write does, keeps it in the cache and off the disk.  None of them
    disturbs another block, and no sequence of them makes the cache give stale data. *)
Theorem cache_simulates_device (dev : Z) (c : bcache) (d : device) (s : Z) (b : block) :
  sim dev c d -> dev_ok c dev s -> (size (pinned d) < NBUF)%nat ->
  returns (read_block dev s) c (fun x c' => dread s d = Done x d /\ sim dev c' d) /\
  returns (write_block dev s b) c (fun _ c' => exists d', dwrite s b d = Done tt d' /\ sim dev c' d') /\
  returns (pin_block dev s b) c (fun _ c' => exists d', dpin s b d = Done tt d' /\ sim dev c' d').
Proof.
  intros Hs Hd Hr. split; [|split; [by apply sim_write|by apply sim_pin]].
  eapply returns_mono; [by apply sim_read|]. intros x c' [-> Hc']. done.
Qed.

Lemma cache_simulates_device_witness :
  returns (pin_block 1 9 [3]) (binit (fun _ s => [s]) (fun _ => []) true)
    (fun _ c' => exists d', dpin 9 [3] (mkDevice (fun s => [s]) ∅ None) = Done tt d' /\ sim 1 c' d').
Proof.
  apply (cache_simulates_device 1 (binit (fun _ s => [s]) (fun _ => []) true)
           (mkDevice (fun s => [s]) ∅ None) 9 [3]).
  - apply (sim_binit 1 (fun _ s => [s])). lia.
  - split; [by right|lia].
  - cbn [pinned]. rewrite map_size_empty. unfold NBUF. lia.
Defined.
