(* ===== verification/Log.v ===== *)
(** * log.c: transactions that survive a power failure

    The log keeps in memory the sectors of the transaction ([lh]); their new contents
    are pinned in the cache.  commit copies them to the log area of the disk, writes
    the header, installs them and clears the header.  The machine may lose power
    before any block write ([power] of the device); recover_from_log runs at the next
    start.  The theorems: whatever the moment of the failure, and of failures during
    recovery, the disk ends with all of the transaction or none of it; the space that
    begin_op reserves is enough when the log area holds LOGSIZE blocks besides its
    header, and is one block short with the log area mkfs makes. *)

From S2P Require Import Prelude Bytes FsFormat Device.

Definition MAXOPBLOCKS : Z := 10.
Definition LOGSIZE : Z := MAXOPBLOCKS * 3.

(** struct log and the device under it. *)
Record lstate := mkLog {
  dv : device;
  start : Z;
  lsize : Z;
  outstanding : Z;
  committing : bool;
  lh : list Z }.

Definition set_dv (d : device) (s : lstate) : lstate :=
  mkLog d (start s) (lsize s) (outstanding s) (committing s) (lh s).
Definition set_lh (l : list Z) (s : lstate) : lstate :=
  mkLog (dv s) (start s) (lsize s) (outstanding s) (committing s) l.
Definition set_out (n : Z) (s : lstate) : lstate :=
  mkLog (dv s) (start s) (lsize s) n (committing s) (lh s).
Definition set_committing (b : bool) (s : lstate) : lstate :=
  mkLog (dv s) (start s) (lsize s) (outstanding s) b (lh s).

Definition lift {A} (c : M device A) : M lstate A := fun s =>
  match c (dv s) with
  | Done a d => Done a (set_dv d s)
  | Stop w d => Stop w (set_dv d s)
  end.

(** ** The header *)

(** The in-memory header holds LOGSIZE sectors; a larger count on the disk would
    overrun it. *)
Definition read_head : M lstate unit :=
  let! st := gets start in
  let! b := lift (dread st) in
  let n := s32 (rd 4 0 b) in
  if LOGSIZE <? n then halt (Faulted n)
  else modify (set_lh (get_words 4 (Z.to_nat n) b)).

Definition write_head : M lstate unit :=
  let! s := gets id in
  let! b := lift (dread (start s)) in
  lift (dwrite (start s) (put_words 4 (lh s) (wr 4 0 (zlen (lh s)) b))).

(** ** Installing and writing *)

Fixpoint install_from (tail : Z) (l : list Z) : M lstate unit :=
  match l with
  | [] => ret tt
  | s :: l =>
      let! st := gets start in
      let! lbuf := lift (dread (st + tail + 1)) in
      let! dbuf := lift (dread s) in
      lift (dwrite s (splice 0 (slice 0 BSIZE lbuf) dbuf)) ;;
      install_from (tail + 1) l
  end.

Definition install_trans : M lstate unit :=
  let! l := gets lh in install_from 0 l.

Fixpoint write_log_from (tail : Z) (l : list Z) : M lstate unit :=
  match l with
  | [] => ret tt
  | s :: l =>
      let! st := gets start in
      let! to := lift (dread (st + tail + 1)) in
      let! from := lift (dread s) in
      lift (dwrite (st + tail + 1) (splice 0 (slice 0 BSIZE from) to)) ;;
      write_log_from (tail + 1) l
  end.

Definition write_log : M lstate unit :=
  let! l := gets lh in write_log_from 0 l.

Definition recover_from_log : M lstate unit :=
  read_head ;;
  install_trans ;;
  modify (set_lh []) ;;
  write_head.

Definition readsb : M lstate superblock :=
  let! b := lift (dread 1) in ret (sb_of_block b).

Definition initlog : M lstate unit :=
  if BSIZE <=? 4 + 4 * LOGSIZE then panic "initlog: too big logheader"
  else
    let! sb := readsb in
    modify (fun s => mkLog (dv s) (s32 (sb_size sb - sb_nlog sb)) (s32 (sb_nlog sb))
                       (outstanding s) (committing s) (lh s)) ;;
    recover_from_log.

Definition commit : M lstate unit :=
  let! l := gets lh in
  if 0 <? zlen l then
    write_log ;;
    write_head ;;
    install_trans ;;
    modify (set_lh []) ;;
    write_head
  else ret tt.

(** ** The interface to the file system *)

(** One turn of the loop; a process that has to wait sleeps on the log and starts over. *)
Definition begin_op : M lstate unit :=
  let! s := gets id in
  if committing s then halt (Blocked 0)
  else if LOGSIZE <? zlen (lh s) + (outstanding s + 1) * MAXOPBLOCKS then halt (Blocked 0)
  else modify (set_out (outstanding s + 1)).

Definition end_op : M lstate unit :=
  modify (fun s => set_out (outstanding s - 1) s) ;;
  let! s := gets id in
  if committing s then panic "log.committing"
  else if outstanding s =? 0 then
    modify (set_committing true) ;;
    commit ;;
    modify (set_committing false)
  else ret tt.

(** The loop that looks for the sector, and the assignment at the index it ends at. *)
Fixpoint absorb (sec : Z) (l : list Z) : list Z :=
  match l with
  | [] => [sec]
  | x :: l => if x =? sec then sec :: l else x :: absorb sec l
  end.

(** [b] is what the caller left in the buffer of sector [sec]. *)
Definition log_write (sec : Z) (b : list Z) : M lstate unit :=
  let! s := gets id in
  if (LOGSIZE <=? zlen (lh s)) || (lsize s - 1 <=? zlen (lh s)) then panic "too big a transaction"
  else if outstanding s <? 1 then panic "log_write outside of trans"
  else
    modify (set_lh (absorb sec (lh s))) ;;
    lift (dpin sec b).

(** ** Reading and writing blocks *)

Lemma set_dv_id s : set_dv (dv s) s = s.
Proof. by destruct s. Qed.

Lemma wp_dread x s (Q : list Z -> lstate -> Prop) E : Q (contents (dv s) x) s -> wp (lift (dread x)) s Q E.
Proof. intros H. unfold wp, lift, dread, gets. by rewrite set_dv_id. Qed.

(** A write happens, or the power fails before it, if it can. *)
Definition stored (x : Z) (b : list Z) (p : option nat) (s : lstate) : lstate :=
  set_dv (mkDevice (upd x b (ondisk (dv s))) (delete x (pinned (dv s))) p) s.

Lemma wp_dwrite x b s (Q : unit -> lstate -> Prop) (E : stop -> lstate -> Prop) :
  (power (dv s) <> None -> E Crashed s) ->
  (forall p, (power (dv s) = None -> p = None) -> Q tt (stored x b p s)) ->
  wp (lift (dwrite x b)) s Q E.
Proof.
  intros HE HQ. unfold wp, lift, dwrite. destruct (power (dv s)) as [[|n]|] eqn:Hp.
  - rewrite set_dv_id. by apply HE.
  - apply HQ. done.
  - apply HQ. done.
Qed.

(** The blocks of a device have BSIZE bytes. *)
Definition sized (d : device) : Prop := forall x, zlen (ondisk d x) = BSIZE /\ zlen (contents d x) = BSIZE.

Lemma sized_stored x b p s : sized (dv s) -> zlen b = BSIZE -> sized (dv (stored x b p s)).
Proof.
  intros Hs Hb y. destruct (Hs y) as [H1 H2]. unfold contents in *. simpl.
  destruct (decide (y = x)) as [->|Hne].
  - by rewrite lookup_delete_eq, upd_eq.
  - by rewrite lookup_delete_ne, upd_ne by done.
Qed.

Lemma copy_block b b' : zlen b = BSIZE -> zlen b' = BSIZE -> splice 0 (slice 0 BSIZE b) b' = b.
Proof.
  intros H H'. rewrite <- H, slice_all. apply splice_all. congruence.
Qed.

Section log_area.
Context (st sz : Z).

(** The blocks outside of the log area. *)
Definition home (x : Z) : Prop := ~ (st <= x < st + sz).

(** Nothing of the log area is pinned. *)
Definition pins_home (d : device) : Prop := forall x, is_Some (pinned d !! x) -> home x.

Lemma contents_log d x : pins_home d -> ~ home x -> contents d x = ondisk d x.
Proof.
  intros Hp Hx. unfold contents. destruct (pinned d !! x) eqn:E; [|done]. destruct Hx.
  apply Hp. by rewrite E.
Qed.

Lemma pins_home_stored x b p s : pins_home (dv s) -> pins_home (dv (stored x b p s)).
Proof. intros H y [z Hz]. simpl in Hz. apply lookup_delete_Some in Hz as [_ Hz]. apply H. by exists z. Qed.

(** write_log copies the pinned blocks, in order, into the log area and changes nothing
    else. *)
Lemma write_log_from_ok l tail s : start s = st -> sized (dv s) -> pins_home (dv s) ->
  0 <= tail -> tail + zlen l + 1 <= sz -> Forall home l ->
  wp (write_log_from tail l) s
    (fun _ s' => exists d', s' = set_dv d' s /\ sized d' /\ pinned d' = pinned (dv s) /\
       (power (dv s) = None -> power d' = None) /\
       (forall x, x < st + tail + 1 \/ st + tail + 1 + zlen l <= x -> ondisk d' x = ondisk (dv s) x) /\
       (forall i x, l !! i = Some x -> ondisk d' (st + tail + 1 + Z.of_nat i) = contents (dv s) x))
    (fun w s' => w = Crashed /\ power (dv s) <> None /\ exists d', s' = set_dv d' s /\ sized d' /\
       (forall x, x < st + 1 \/ st + sz <= x -> ondisk d' x = ondisk (dv s) x)).
Proof.
  revert tail s. induction l as [|y l IH]; intros tail s Hst Hsz Hp Ht Hl Hh.
  { apply wp_ret. exists (dv s). rewrite set_dv_id. repeat (split; [done|]). done. }
  apply Forall_cons in Hh as [Hy Hh].
  replace (zlen (y :: l)) with (1 + zlen l) in * by (unfold zlen; simpl; lia).
  pose proof (zlen_nonneg l). cbn [write_log_from]. steps. rewrite Hst. apply wp_dread. steps.
  apply wp_dread. steps. rewrite copy_block by apply Hsz.
  apply wp_dwrite.
  { intros Hpw. split; [done|]. split; [done|]. exists (dv s). rewrite set_dv_id. done. }
  intros p Hpw. set (s1 := stored _ _ p s).
  assert (pinned (dv s1) = pinned (dv s)) as Hpin.
  { simpl. apply delete_id. destruct (pinned (dv s) !! _) eqn:E; [|done].
    destruct (Hp (st + tail + 1)); [by rewrite E|lia]. }
  assert (sized (dv s1)) as Hs1 by (apply sized_stored; [done|apply Hsz]).
  eapply wp_mono.
  { apply (IH (tail + 1) s1); [done|done|by apply pins_home_stored|lia|lia|done]. }
  - intros u s' (d' & -> & Hd1 & Hd2 & Hd3 & Hd4 & Hd5). exists d'.
    split; [done|]. split; [done|]. split; [congruence|]. split; [auto|]. split.
    + intros x Hx. rewrite Hd4 by lia. simpl. rewrite upd_ne by lia. done.
    + intros i x Hi. destruct i as [|i].
      * injection Hi as <-. rewrite Hd4 by lia. simpl. rewrite Z.add_0_r, upd_eq. done.
      * replace (st + tail + 1 + Z.of_nat (S i)) with (st + (tail + 1) + 1 + Z.of_nat i) by lia.
        assert (home x) as Hx by (rewrite Forall_forall in Hh; apply Hh, list_elem_of_lookup; eauto).
        rewrite (Hd5 i x Hi). unfold contents. rewrite Hpin. simpl. rewrite upd_ne; [done|].
        intros ->. apply Hx. lia.
  - intros w s' (-> & Hpw' & d' & -> & Hd1 & Hd2). split; [done|]. split; [tauto|].
    exists d'. split; [done|]. split; [done|]. intros x Hx. rewrite Hd2 by lia. simpl.
    rewrite upd_ne by lia. done.
Qed.

(** install_trans copies the log blocks to their homes. *)
Lemma install_from_ok new l tail s : start s = st -> sized (dv s) -> pins_home (dv s) ->
  0 <= tail -> tail + zlen l + 1 <= sz -> Forall home l ->
  (forall i x, l !! i = Some x -> ondisk (dv s) (st + tail + 1 + Z.of_nat i) = new x) ->
  wp (install_from tail l) s
    (fun _ s' => exists d', s' = set_dv d' s /\ sized d' /\
       (power (dv s) = None -> power d' = None) /\
       (forall x, pinned d' !! x = if decide (x ∈ l) then None else pinned (dv s) !! x) /\
       (forall x, ondisk d' x = if decide (x ∈ l) then new x else ondisk (dv s) x))
    (fun w s' => w = Crashed /\ power (dv s) <> None /\ exists d', s' = set_dv d' s /\ sized d' /\
       (forall x, ondisk d' x = ondisk (dv s) x \/ x ∈ l /\ ondisk d' x = new x)).
Proof.
  revert tail s. induction l as [|y l IH]; intros tail s Hst Hsz Hp Ht Hl Hh Hlog.
  { apply wp_ret. exists (dv s). rewrite set_dv_id. repeat (split; [done|]). done. }
  apply Forall_cons in Hh as [Hy Hh].
  replace (zlen (y :: l)) with (1 + zlen l) in * by (unfold zlen; simpl; lia).
  pose proof (zlen_nonneg l). cbn [install_from]. steps. rewrite Hst. apply wp_dread. steps.
  apply wp_dread. steps. rewrite copy_block by apply Hsz.
  apply wp_dwrite.
  { intros Hpw. split; [done|]. split; [done|]. exists (dv s). rewrite set_dv_id. split; [done|].
    split; [done|]. intros x. by left. }
  intros p Hpw. set (s1 := stored _ _ p s).
  assert (contents (dv s) (st + tail + 1) = new y) as Hnew.
  { rewrite contents_log by (done || (unfold home; lia)). rewrite <- (Hlog 0%nat y eq_refl). f_equal. lia. }
  assert (sized (dv s1)) as Hs1 by (apply sized_stored; [done|apply Hsz]).
  eapply wp_mono.
  { apply (IH (tail + 1) s1); [done|done|by apply pins_home_stored|lia|lia|done|].
    intros i x Hi. replace (st + (tail + 1) + 1 + Z.of_nat i) with (st + tail + 1 + Z.of_nat (S i)) by lia.
    rewrite <- (Hlog (S i) x Hi). simpl. rewrite upd_ne; [done|]. intros E. apply Hy.
    apply lookup_lt_Some in Hi. unfold zlen in *. lia. }
  - intros u s' (d' & -> & Hd1 & Hd2 & Hd3 & Hd4). exists d'.
    split; [done|]. split; [done|]. split; [auto|]. split; intros x.
    + rewrite Hd3. simpl. destruct (decide (x = y)) as [->|Hne].
      * rewrite lookup_delete_eq. rewrite (decide_True (P := y ∈ y :: l)) by (apply elem_of_cons; by left).
        by case_decide.
      * rewrite lookup_delete_ne by done. repeat case_decide; try done; set_solver.
    + rewrite Hd4. simpl. destruct (decide (x = y)) as [->|Hne].
      * rewrite upd_eq, Hnew. rewrite (decide_True (P := y ∈ y :: l)) by (apply elem_of_cons; by left).
        by case_decide.
      * rewrite upd_ne by done. repeat case_decide; try done; set_solver.
  - intros w s' (-> & Hpw' & d' & -> & Hd1 & Hd2). split; [done|]. split; [tauto|].
    exists d'. split; [done|]. split; [done|]. intros x. destruct (Hd2 x) as [->|[Hx ->]].
    + simpl. destruct (decide (x = y)) as [->|Hne].
      * rewrite upd_eq, Hnew. right. split; [apply elem_of_cons; by left|done].
      * rewrite upd_ne by done. by left.
    + right. split; [apply elem_of_cons; by right|done].
Qed.

(** The header of [l] in a block. *)
Definition head_of (l : list Z) (b : list Z) : list Z := put_words 4 l (wr 4 0 (zlen l) b).

Definition is_head (l : list Z) (b : list Z) : Prop :=
  rd 4 0 b = zlen l /\ get_words 4 (length l) b = l.

Lemma head_of_ok l b : zlen b = BSIZE -> zlen l <= LOGSIZE -> Forall (fun x => 0 <= x < 2 ^ 32) l ->
  zlen (head_of l b) = BSIZE /\ is_head l (head_of l b).
Proof.
  unfold head_of, is_head, BSIZE, LOGSIZE, MAXOPBLOCKS. intros Hb Hl Hf.
  pose proof (zlen_nonneg l). split; [len|]. split.
  - fields. apply Z.mod_small. change (256 ^ Z.of_nat 4) with (2 ^ 32). lia.
  - apply get_put_words; [lia|len|done].
Qed.

Lemma write_head_ok s : start s = st -> pins_home (dv s) -> 0 < sz ->
  wp write_head s
    (fun _ s' => exists p, (power (dv s) = None -> p = None) /\
       s' = stored st (head_of (lh s) (ondisk (dv s) st)) p s)
    (fun w s' => w = Crashed /\ power (dv s) <> None /\ s' = s).
Proof.
  intros Hst Hp Hsz. unfold write_head. steps. cbn [id]. rewrite Hst. apply wp_dread. steps.
  rewrite contents_log by (done || (unfold home; lia)). apply wp_dwrite; [done|].
  intros p Hpw. exists p. done.
Qed.

Lemma read_head_ok l s : start s = st -> pins_home (dv s) -> 0 < sz -> zlen l <= LOGSIZE ->
  is_head l (ondisk (dv s) st) ->
  read_head s = Done tt (set_lh l s).
Proof.
  intros Hst Hp Hsz Hl [Hn Hw]. apply returns_eq. unfold read_head. steps. rewrite Hst.
  apply wp_dread. rewrite contents_log by (done || (unfold home; lia)).
  rewrite Hn. pose proof (zlen_nonneg l).
  rewrite s32_small by (unfold LOGSIZE, MAXOPBLOCKS in *; lia).
  destruct (LOGSIZE <? zlen l) eqn:E; [bool_prop; lia|]. steps.
  unfold zlen. by rewrite Nat2Z.id, Hw.
Qed.

(** ** What is on the disk

    [logged d l img]: the header commits the sectors [l], whose new contents are in the
    log area, and with them installed the disk is [img].  With [l] empty the disk is
    [img] already. *)
Record logged (d : device) (l : list Z) (img : Z -> list Z) : Prop := {
  lg_sized : sized d;
  lg_head : is_head l (ondisk d st);
  lg_len : zlen l <= LOGSIZE /\ zlen l + 1 <= sz;
  lg_home : Forall home l;
  lg_log i x : l !! i = Some x -> ondisk d (st + 1 + Z.of_nat i) = img x;
  lg_rest x : home x -> x ∉ l -> ondisk d x = img x }.

Definition no_pins (d : device) : Prop := pinned d = ∅.

(** Clearing the header of an installed transaction. *)
Lemma clear_head_ok img s : start s = st -> 0 < sz -> no_pins (dv s) -> sized (dv s) -> lh s = [] ->
  (forall x, home x -> ondisk (dv s) x = img x) ->
  wp write_head s
    (fun _ s' => exists d', s' = set_dv d' s /\ no_pins d' /\ logged d' [] img /\
       (power (dv s) = None -> power d' = None))
    (fun w s' => w = Crashed /\ power (dv s) <> None /\ s' = s).
Proof.
  intros Hst Hsz Hp Hs Hl Hi. eapply wp_mono; [apply write_head_ok; [done| |done]| |done].
  { intros x [z Hz]. rewrite Hp in Hz. done. }
  intros u s' (p & Hpw & ->). rewrite Hl.
  destruct (head_of_ok [] (ondisk (dv s) st)) as [H1 H2]; [apply Hs|done|by apply Forall_nil|].
  eexists. split; [done|]. split; [unfold no_pins; simpl; by rewrite Hp, delete_empty|].
  split; [|done]. split.
  - by apply (sized_stored st _ p s).
  - simpl. by rewrite upd_eq.
  - unfold zlen, LOGSIZE, MAXOPBLOCKS. simpl. lia.
  - by apply Forall_nil.
  - done.
  - intros x Hx _. simpl. rewrite upd_ne; [by apply Hi|]. intros ->. apply Hx. lia.
Qed.

(** A state with some of the transaction installed is still logged. *)
Lemma logged_install d d' l img : logged d l img -> sized d' ->
  (forall x, ondisk d' x = ondisk d x \/ x ∈ l /\ ondisk d' x = img x) -> logged d' l img.
Proof.
  intros [Hsz Hhd [Hl1 Hl2] Hh Hlog Hrest] Hs' Hd. pose proof (zlen_nonneg l).
  assert (forall x, x ∈ l -> home x) as Hin by (by apply Forall_forall).
  assert (forall x, st <= x < st + sz -> ondisk d' x = ondisk d x) as Hlg.
  { intros x Hx. destruct (Hd x) as [->|[Hxl _]]; [done|]. by apply Hin in Hxl. }
  split; [done| |done|done| |].
  - rewrite Hlg; [done|lia].
  - intros i x Hi. rewrite Hlg; [by apply Hlog|]. apply lookup_lt_Some in Hi. unfold zlen in *. lia.
  - intros x Hx Hxl. destruct (Hd x) as [->|[Hxl' _]]; [by apply Hrest|done].
Qed.

(** Installing: at any moment the state is logged, in the end the disk is the image. *)
Lemma install_ok l img s : start s = st -> pins_home (dv s) -> lh s = l ->
  logged (dv s) l img ->
  wp install_trans s
    (fun _ s' => exists d', s' = set_dv d' s /\ logged d' l img /\ (power (dv s) = None -> power d' = None) /\
       (forall x, pinned d' !! x = if decide (x ∈ l) then None else pinned (dv s) !! x) /\
       (forall x, home x -> ondisk d' x = img x))
    (fun w s' => w = Crashed /\ power (dv s) <> None /\ exists d', s' = set_dv d' s /\ logged d' l img).
Proof.
  intros Hst Hp Hlh Hlg. pose proof Hlg as [Hsz Hhd [Hl1 Hl2] Hh Hlog Hrest].
  unfold install_trans. steps. rewrite Hlh. eapply wp_mono.
  - apply (install_from_ok img l 0 s); try done; try lia. intros i x Hi. rewrite <- (Hlog i x Hi).
    f_equal. lia.
  - intros u s' (d' & -> & Hs' & Hpw & Hpi & Hd). exists d'. split; [done|]. split.
    + apply (logged_install (dv s)); [done..|]. intros x. rewrite Hd. case_decide; [by right|by left].
    + repeat (split; [done|]). intros x Hx. rewrite Hd. case_decide; [done|by apply Hrest].
  - intros w s' (-> & Hpw & d' & -> & Hs' & Hd). split; [done|]. split; [done|]. exists d'.
    split; [done|]. by apply (logged_install (dv s)).
Qed.

(** Install and clear: the common end of commit and recovery. *)
Lemma finish_ok l img s : start s = st -> 0 < sz -> pins_home (dv s) -> lh s = l ->
  (forall x, x ∉ l -> pinned (dv s) !! x = None) -> logged (dv s) l img ->
  wp (install_trans ;; modify (set_lh []) ;; write_head) s
    (fun _ s' => exists d', s' = set_lh [] (set_dv d' s) /\ no_pins d' /\ logged d' [] img /\
       (power (dv s) = None -> power d' = None))
    (fun w s' => w = Crashed /\ power (dv s) <> None /\ start s' = st /\ logged (dv s') l img).
Proof.
  intros Hst Hsz Hph Hlh Hp Hlg. step. eapply wp_mono; [by apply (install_ok l img)| |].
  - intros u s' (d' & -> & Hl' & Hpw & Hpi & Hd). steps.
    eapply wp_mono; [apply (clear_head_ok img); try done| |].
    { apply map_empty. intros x. simpl. rewrite Hpi. case_decide; [done|]. by apply Hp. }
    { apply Hl'. }
    + intros u' s' (d2 & -> & Hp2 & Hl2 & Hpw2). exists d2. repeat (split; [done|]). simpl in *. tauto.
    + intros w s' (-> & Hpw' & ->). split; [done|]. simpl in *. split; [tauto|]. done.
  - intros w s' (-> & Hpw & d' & -> & Hl'). done.
Qed.

Lemma recover_ok l img s : start s = st -> 0 < sz -> no_pins (dv s) -> logged (dv s) l img ->
  wp recover_from_log s
    (fun _ s' => exists d', s' = set_lh [] (set_dv d' s) /\ no_pins d' /\ logged d' [] img /\
       (power (dv s) = None -> power d' = None))
    (fun w s' => w = Crashed /\ power (dv s) <> None /\ start s' = st /\ logged (dv s') l img).
Proof.
  intros Hst Hsz Hp Hlg.
  assert (pins_home (dv s)) as Hph by (intros x [z Hz]; rewrite Hp in Hz; done).
  unfold recover_from_log. step.
  eapply wp_run; [apply (read_head_ok l); try done; [apply Hlg|apply Hlg]|].
  apply (finish_ok l img (set_lh l s)); try done. intros x _. simpl. by rewrite Hp.
Qed.

(** ** Commit *)

(** A transaction ready to commit: the disk is [old], the sectors of [lh] and only
    these are pinned. *)
Record ready (s : lstate) (old : Z -> list Z) : Prop := {
  rd_start : start s = st /\ lsize s = sz;
  rd_disk : logged (dv s) [] old;
  rd_len : zlen (lh s) <= LOGSIZE /\ zlen (lh s) + 1 <= sz;
  rd_home : Forall home (lh s) /\ Forall (fun x => 0 <= x < 2 ^ 32) (lh s);
  rd_pins x : x ∉ lh s -> pinned (dv s) !! x = None }.

Lemma logged_log_part d d' img : 0 < sz -> logged d [] img -> sized d' ->
  (forall x, x < st + 1 \/ st + sz <= x -> ondisk d' x = ondisk d x) -> logged d' [] img.
Proof.
  intros Hsz [Hs Hhd Hl Hh Hlog Hrest] Hs' Hd. split; [done| |done|done|done|].
  - by rewrite Hd by lia.
  - intros x Hx Hxl. rewrite Hd by (unfold home in Hx; lia). by apply Hrest.
Qed.

Lemma ready_pins s old : ready s old -> pins_home (dv s).
Proof.
  intros [_ _ _ [Hh _] Hpin] x [z Hz]. destruct (decide (x ∈ lh s)) as [Hx|Hx].
  - by apply (proj1 (Forall_forall _ _) Hh).
  - rewrite Hpin in Hz by done. done.
Qed.

(** The header write is the commit point. *)
Lemma write_head_commits s old d' : ready s old -> sized d' -> pinned d' = pinned (dv s) ->
  (forall x, x < st + 1 \/ st + sz <= x -> ondisk d' x = ondisk (dv s) x) ->
  (forall i x, lh s !! i = Some x -> ondisk d' (st + 1 + Z.of_nat i) = contents (dv s) x) ->
  forall p, logged (dv (stored st (head_of (lh s) (ondisk d' st)) p (set_dv d' s))) (lh s) (contents (dv s)).
Proof.
  intros [[Hst Hsz] Hd [Hl1 Hl2] [Hh Hu] Hpin] Hs' Hpe Hrest Hlog p. pose proof (zlen_nonneg (lh s)).
  destruct (head_of_ok (lh s) (ondisk d' st)) as [H1 H2]; [apply Hs'|done|done|].
  split; [by apply (sized_stored st _ p (set_dv d' s))| |done|done| |]; simpl.
  - by rewrite upd_eq.
  - intros i x Hi. rewrite upd_ne by lia. by apply Hlog.
  - intros x Hx Hxl. unfold home in Hx. rewrite upd_ne by lia. rewrite Hrest by lia.
    unfold contents. by rewrite Hpin.
Qed.

Lemma commit_ok s old : ready s old ->
  let new := contents (dv s) in
  wp commit s
    (fun _ s' => exists d', s' = set_lh [] (set_dv d' s) /\ no_pins d' /\ logged d' [] new /\
       (power (dv s) = None -> power d' = None))
    (fun w s' => w = Crashed /\ power (dv s) <> None /\ start s' = st /\
       (logged (dv s') [] old \/ logged (dv s') (lh s) new)).
Proof.
  intros Hr new. pose proof (ready_pins s old Hr) as Hph.
  pose proof Hr as [[Hst Hsz] Hd [Hl1 Hl2] [Hh Hu] Hpin]. pose proof (zlen_nonneg (lh s)).
  unfold commit. steps. destruct (0 <? zlen (lh s)) eqn:E; last first.
  { assert (lh s = []) as Hnil
      by (destruct (lh s); [done|unfold zlen in *; simpl in *; bool_prop; lia]).
    step. exists (dv s). rewrite Hnil in Hpin. split; [destruct s; simpl in *; by rewrite Hnil|].
    split; [apply map_empty; intros x; apply Hpin; by apply not_elem_of_nil|]. split; [|done].
    destruct Hd. split; try done. intros x Hx _. unfold new, contents.
    by rewrite Hpin by apply not_elem_of_nil. }
  step. eapply wp_mono; [unfold write_log; steps; apply (write_log_from_ok (lh s) 0); try done; apply Hd| |].
  2:{ intros w s' (-> & Hpw & d' & -> & Hs' & Hd'). repeat (split; [done|]). left.
      apply (logged_log_part (dv s)); try done. lia. }
  intros u s' (d' & -> & Hs' & Hpe & Hpw & Hout & Hin). rewrite Z.add_0_r in *.
  assert (forall x, x < st + 1 \/ st + sz <= x -> ondisk d' x = ondisk (dv s) x) as Hout'
    by (intros; apply Hout; lia).
  step. eapply wp_mono; [apply write_head_ok; try done; [unfold pins_home; simpl; by rewrite Hpe|lia]| |].
  2:{ intros w s' (-> & Hpw' & ->). simpl in *. split; [done|]. split; [tauto|]. split; [done|]. left.
      apply (logged_log_part (dv s)); try done. lia. }
  intros u' s' (p & Hp & ->).
  pose proof (write_head_commits s old d' Hr Hs' Hpe Hout' Hin p) as Hcom.
  eapply wp_mono; [apply (finish_ok (lh s) new); try done; [lia| |]| |].
  - apply pins_home_stored. unfold pins_home. simpl. by rewrite Hpe.
  - intros x Hx. simpl. rewrite Hpe. apply lookup_delete_None. right. by apply Hpin.
  - intros u'' s' (d2 & -> & Hp2 & Hl & Hpw2). exists d2. repeat (split; [done|]). simpl in *. tauto.
  - intros w s' (-> & Hpw' & Hst' & Hl). simpl in *. split; [done|]. split; [tauto|]. split; [done|].
    by right.
Qed.
End log_area.

(** ** Power failures *)

Definition with_power (p : option nat) (s : lstate) : lstate :=
  set_dv (mkDevice (ondisk (dv s)) (pinned (dv s)) p) s.

(** The machine starts again, with an empty memory. *)
Definition boot (p : option nat) (s : lstate) : outcome lstate unit :=
  initlog (mkLog (reboot p (dv s)) 0 0 0 false []).

(** The superblock describes the log area. *)
Definition sb_log (st sz : Z) (b : list Z) : Prop :=
  s32 (sb_size (sb_of_block b) - sb_nlog (sb_of_block b)) = st /\ s32 (sb_nlog (sb_of_block b)) = sz.

Definition boots_to (st sz : Z) (img : Z -> list Z) (s : lstate) : Prop :=
  exists l, logged st sz (dv s) l img /\ 1 ∉ l.

Section boot.
Context (st sz : Z) (img : Z -> list Z).
Hypothesis Hsb : sb_log st sz (img 1).
Hypothesis H1 : home st sz 1.

Lemma sized_reboot p d : sized d -> sized (reboot p d).
Proof. intros H x. split; apply H. Qed.

Lemma logged_reboot p d l : logged st sz d l img -> logged st sz (reboot p d) l img.
Proof. intros []. split; try done. by apply sized_reboot. Qed.

Lemma boot_ok p s : boots_to st sz img s ->
  match boot p s with
  | Done _ s' => lh s' = [] /\ start s' = st /\ logged st sz (dv s') [] img /\ (p = None -> power (dv s') = None)
  | Stop w s' => w = Crashed /\ p <> None /\ boots_to st sz img s'
  end.
Proof.
  intros (l & Hl & Hn). pose proof (zlen_nonneg l).
  assert (0 < sz) as Hsz by (destruct Hl as [_ _ [_ ?]]; lia).
  set (s0 := mkLog (reboot p (dv s)) 0 0 0 false []).
  assert (wp initlog s0
    (fun _ s' => lh s' = [] /\ start s' = st /\ logged st sz (dv s') [] img /\ (p = None -> power (dv s') = None))
    (fun w s' => w = Crashed /\ p <> None /\ boots_to st sz img s')) as H0.
  { unfold initlog. destruct (BSIZE <=? 4 + 4 * LOGSIZE) eqn:E; [done|]. unfold readsb. steps.
    apply wp_dread. steps. cbn [dv s0].
    assert (contents (reboot p (dv s)) 1 = img 1) as -> by (change (ondisk (dv s) 1 = img 1); by apply Hl).
    destruct Hsb as [-> ->]. cbn [outstanding committing lh s0].
    eapply wp_mono; [apply (recover_ok st sz l img); try done; by apply logged_reboot| |].
    - intros u s' (d' & -> & _ & Hl' & Hp). done.
    - intros w s' (-> & Hp & Hst & Hl'). split; [done|]. split; [done|]. by exists l. }
  unfold wp in H0. unfold boot. fold s0. by destruct (initlog s0).
Qed.

Lemma boots_to_final p s : boots_to st sz img s -> boots_to st sz img (final (boot p s)).
Proof.
  intros H. pose proof (boot_ok p s H) as Hb. destruct (boot p s) as [u s'|w s']; simpl.
  - exists []. split; [apply Hb|apply not_elem_of_nil].
  - apply Hb.
Qed.

Lemma boots_to_crashes ks s : boots_to st sz img s ->
  boots_to st sz img (fold_left (fun s k => final (boot (Some k) s)) ks s).
Proof.
  revert s. induction ks as [|k ks IH]; intros s H; [done|]. simpl. by apply IH, boots_to_final.
Qed.
End boot.

Lemma ready_power st sz p s old : ready st sz s old -> ready st sz (with_power p s) old.
Proof. intros [H1 [] H3 H4 H5]. by split; [|split|..]. Qed.

(** C1. Transactions are atomic: let the power fail before the [k]-th block write of a
    commit, or after the commit, and again during any number of recoveries, at any
    writes [ks]; the next start that runs to the end finds the disk as it was before
    the transaction in all blocks, or with all its writes, and the log empty.  A commit
    that returned is never lost. *)
Theorem log_crash_atomic (st sz : Z) (s : lstate) (old : Z -> list Z) (k : nat) (ks : list nat) :
  ready st sz s old -> home st sz 1 -> 1 ∉ lh s -> sb_log st sz (old 1) ->
  let new := contents (dv s) in
  let s1 := final (commit (with_power (Some k) s)) in
  let s2 := fold_left (fun s k => final (boot (Some k) s)) ks s1 in
  exists s3, boot None s2 = Done tt s3 /\ lh s3 = [] /\
    ((forall x, home st sz x -> ondisk (dv s3) x = new x) \/
     (forall x, home st sz x -> ondisk (dv s3) x = old x) /\
     exists s', commit (with_power (Some k) s) = Stop Crashed s').
Proof.
  intros Hr H1 H1l Hsb new s1 s2.
  pose proof (ready_power st sz (Some k) s old Hr) as Hr'.
  pose proof (commit_ok st sz _ old Hr') as Hc. cbn zeta in Hc. unfold wp in Hc.
  assert (sb_log st sz (new 1)) as Hsb'.
  { assert (new 1 = old 1) as ->; [|done]. unfold new, contents. destruct Hr as [_ Hd _ _ Hp].
    rewrite Hp by done. simpl. apply Hd; [done|apply not_elem_of_nil]. }
  assert (exists img, boots_to st sz img s1 /\ sb_log st sz (img 1) /\
    (img = new \/ img = old /\ exists s', commit (with_power (Some k) s) = Stop Crashed s')) as (img & Hb & Hsbi & Hi).
  { unfold s1. destruct (commit (with_power (Some k) s)) as [u s'|w s']; simpl.
    - destruct Hc as (d' & -> & _ & Hl & _). exists new. split; [|by split; [|left]].
      exists []. split; [done|apply not_elem_of_nil].
    - destruct Hc as (-> & _ & _ & [Hl|Hl]).
      + exists old. split; [exists []; split; [done|apply not_elem_of_nil]|]. split; [done|]. right.
        split; [done|by exists s'].
      + exists new. split; [by exists (lh s)|]. by split; [|left]. }
  pose proof (boot_ok st sz img Hsbi H1 None s2 (boots_to_crashes st sz img Hsbi H1 ks s1 Hb)) as H.
  destruct (boot None s2) as [[] s3|w s3]; [|by destruct H as (_ & ? & _)].
  destruct H as (Hlh & _ & Hl & _). exists s3. split; [done|]. split; [done|].
  assert (forall x, home st sz x -> ondisk (dv s3) x = img x) as Himg
    by (intros x Hx; apply Hl; [done|apply not_elem_of_nil]).
  destruct Hi as [->|[-> Hi]]; [by left|by right].
Qed.

(** A disk of zeros with the superblock of 1000 blocks, 30 of them log. *)
Definition blank : list Z := replicate 512 0.
Definition sample_disk (x : Z) : list Z :=
  if decide (x = 1) then splice 0 (sb_bytes (mkSb 1000 900 200 30)) blank else blank.
Definition sample_log : lstate :=
  mkLog (mkDevice sample_disk {[ 7 := replicate 512 255 ]} None) 970 30 1 true [7].

Lemma sample_ready : ready 970 30 sample_log sample_disk.
Proof.
  assert (forall x, zlen (sample_disk x) = BSIZE) as Hz by (intros x; unfold sample_disk; by case_decide).
  split; cbn [start lsize lh dv pinned].
  - done.
  - split; [|done|done|by apply Forall_nil|done|done]. intros x. split; [apply Hz|].
    unfold contents, sample_log. cbn [dv ondisk pinned].
    destruct (decide (x = 7)) as [->|Hne]; [by rewrite lookup_singleton_eq|].
    rewrite lookup_singleton_ne by done. apply Hz.
  - done.
  - split; apply Forall_singleton; unfold home; lia.
  - intros x Hx. apply lookup_singleton_ne. intros <-. apply Hx, elem_of_cons. by left.
Qed.

Lemma log_crash_atomic_witness :
  exists s3, boot None (final (boot (Some 1%nat) (final (commit (with_power (Some 2%nat) sample_log))))) =
    Done tt s3 /\ lh s3 = [].
Proof.
  destruct (log_crash_atomic 970 30 sample_log sample_disk 2 [1%nat]) as (s3 & He & Hl & _).
  - exact sample_ready.
  - unfold home. lia.
  - simpl. rewrite list_elem_of_singleton. lia.
  - split; reflexivity.
  - exists s3. split; [exact He|exact Hl].
Defined.

(** ** Space in the log

    The operations in progress and how often each called log_write.  A step is a call
    that returns. *)
Inductive lstep : lstate * list Z -> lstate * list Z -> Prop :=
| step_begin s ops s' : begin_op s = Done tt s' -> lstep (s, ops) (s', ops ++ [0])
| step_write s ops i u sec b s' : ops !! i = Some u -> u < MAXOPBLOCKS ->
    log_write sec b s = Done tt s' -> lstep (s, ops) (s', <[i := u + 1]> ops)
| step_end s ops i s' : (i < length ops)%nat -> end_op s = Done tt s' ->
    lstep (s, ops) (s', delete i ops).

Definition fresh_log (s : lstate) : Prop := lh s = [] /\ outstanding s = 0 /\ committing s = false.

Definition log_reachable (s0 : lstate) (s : lstate) (ops : list Z) : Prop :=
  rtc lstep (s0, []) (s, ops).

(** What the operations may still log. *)
Definition reserve (ops : list Z) : Z := foldr (fun u n => (MAXOPBLOCKS - u) + n) 0 ops.

Record space_inv (z : Z) (s : lstate) (ops : list Z) : Prop := {
  si_size : lsize s = z;
  si_out : outstanding s = zlen ops /\ committing s = false;
  si_ops : Forall (fun u => 0 <= u <= MAXOPBLOCKS) ops;
  si_fit : zlen (lh s) + reserve ops <= LOGSIZE }.

Lemma reserve_app l k : reserve (l ++ k) = reserve l + reserve k.
Proof. unfold reserve. induction l; simpl; [done|]. rewrite IHl. lia. Qed.

Lemma reserve_bounds l : Forall (fun u => 0 <= u <= MAXOPBLOCKS) l ->
  0 <= reserve l <= zlen l * MAXOPBLOCKS.
Proof.
  unfold MAXOPBLOCKS. induction l as [|u l IH]; [done|]. intros [Hu Hl]%Forall_cons.
  specialize (IH Hl). unfold zlen, reserve, MAXOPBLOCKS in *. cbn [foldr length]. lia.
Qed.

Lemma reserve_insert l i u v : l !! i = Some u -> reserve (<[i := v]> l) = reserve l + u - v.
Proof.
  intros H. rewrite <- (take_drop_middle l i u H) at 2.
  rewrite insert_take_drop by (by eapply lookup_lt_Some). rewrite !reserve_app. unfold reserve. simpl. lia.
Qed.

Lemma reserve_delete l i u : l !! i = Some u -> reserve (delete i l) = reserve l - (MAXOPBLOCKS - u).
Proof.
  intros H. rewrite <- (take_drop_middle l i u H) at 2. rewrite delete_take_drop, !reserve_app.
  unfold reserve. simpl. lia.
Qed.

Lemma absorb_len sec l : zlen l <= zlen (absorb sec l) <= zlen l + 1.
Proof.
  unfold zlen. induction l as [|x l IH]; simpl; [lia|]. destruct (x =? sec); simpl; lia.
Qed.

(** The copying routines change the device only. *)
Definition only_dv {A} (c : M lstate A) : Prop := forall s, exists d, final (c s) = set_dv d s.

Lemma only_dv_lift {A} (c : M device A) : only_dv (lift c).
Proof. intros s. unfold lift. destruct (c (dv s)); by eexists. Qed.

Lemma only_dv_bind {A B} (c : M lstate A) (k : A -> M lstate B) :
  only_dv c -> (forall a, only_dv (k a)) -> only_dv (bind c k).
Proof.
  intros Hc Hk s. unfold bind. destruct (Hc s) as [d Hd]. destruct (c s) as [a s'|w s']; simpl in Hd.
  - subst s'. destruct (Hk a (set_dv d s)) as [d' ->]. by exists d'.
  - subst s'. by exists d.
Qed.

Lemma only_dv_gets {A} (f : lstate -> A) : only_dv (gets f).
Proof. intros s. exists (dv s). simpl. by rewrite set_dv_id. Qed.

#[local] Hint Resolve only_dv_lift only_dv_bind only_dv_gets : xv6.

Lemma only_dv_copy : only_dv write_head /\ only_dv install_trans /\ only_dv write_log.
Proof.
  split; [unfold write_head; auto with xv6|]. split.
  - apply only_dv_bind; [apply only_dv_gets|]. intros l. generalize 0 as t.
    induction l; intros t; simpl; auto 8 with xv6. intros s. exists (dv s). by rewrite set_dv_id.
  - apply only_dv_bind; [apply only_dv_gets|]. intros l. generalize 0 as t.
    induction l; intros t; simpl; auto 8 with xv6. intros s. exists (dv s). by rewrite set_dv_id.
Qed.

Lemma only_dv_done {A} (c : M lstate A) s a s' : only_dv c -> c s = Done a s' -> exists d, s' = set_dv d s.
Proof. intros H He. destruct (H s) as [d Hd]. rewrite He in Hd. by exists d. Qed.

Lemma commit_done s s' : commit s = Done tt s' -> exists d, s' = set_lh [] (set_dv d s).
Proof.
  destruct only_dv_copy as (Hh & Hi & Hw). unfold commit, bind at 1, gets.
  destruct (0 <? zlen (lh s)) eqn:E.
  - unfold bind, modify. destruct (write_log s) as [u s1|] eqn:E1; [|done].
    destruct (write_head s1) as [u2 s2|] eqn:E2; [|done].
    destruct (install_trans s2) as [u3 s3|] eqn:E3; [|done]. intros E4.
    apply only_dv_done in E1 as [d1 ->], E2 as [d2 ->], E3 as [d3 ->], E4 as [d4 ->]; try done.
    by exists d4.
  - intros [= <-]. exists (dv s). rewrite set_dv_id. destruct s as [d st sz o cm [|x l]]; [done|].
    unfold zlen in E. simpl in E. bool_prop. lia.
Qed.

Lemma space_step z s ops s' ops' : space_inv z s ops -> lstep (s, ops) (s', ops') -> space_inv z s' ops'.
Proof.
  intros [Hz [Ho Hc] Hops Hfit] Hst. inversion Hst as [? ? ? He|? ? i u sec b ? Hi Hu He|? ? i ? Hi He]; subst.
  - revert He. unfold begin_op, bind, gets, id. rewrite Hc. destruct (LOGSIZE <? _) eqn:E; [done|].
    intros [= <-]. bool_prop. pose proof (reserve_bounds ops Hops). split; simpl.
    + done.
    + split; [|done]. unfold zlen in *. rewrite length_app. simpl. lia.
    + apply Forall_app. split; [done|]. apply Forall_singleton. by unfold MAXOPBLOCKS.
    + rewrite reserve_app. unfold reserve at 2. simpl. lia.
  - revert He. unfold log_write, bind, gets, id. destruct ((LOGSIZE <=? _) || _) eqn:E; [done|].
    destruct (outstanding s <? 1) eqn:E'; [done|]. intros [= <-].
    pose proof (absorb_len sec (lh s)). split; simpl.
    + done.
    + by rewrite <- Hc, Ho; unfold zlen; rewrite length_insert.
    + apply Forall_insert; [done|]. pose proof (Forall_lookup_1 _ _ _ _ Hops Hi) as Hu'. simpl in Hu'. lia.
    + rewrite (reserve_insert ops i u) by done. lia.
  - destruct (lookup_lt_is_Some_2 ops i Hi) as [u Hu].
    pose proof (Forall_lookup_1 _ _ _ _ Hops Hu) as Hu'. simpl in Hu'.
    assert (Forall (fun u => 0 <= u <= MAXOPBLOCKS) (delete i ops)) as Hops' by (by apply Forall_delete).
    assert (zlen (delete i ops) = zlen ops - 1) as Hlen
      by (unfold zlen; rewrite length_delete by done; lia).
    revert He. unfold end_op, bind, gets, modify, id. cbn [committing set_out outstanding]. rewrite Hc.
    destruct (outstanding s - 1 =? 0) eqn:E.
    + destruct (commit _) as [[] s1|] eqn:Ec; [|done]. apply commit_done in Ec as [d ->].
      intros [= <-]. split; cbn [lsize outstanding committing lh set_lh set_dv set_out set_committing];
        [done|split; [lia|done]|done|].
      rewrite (reserve_delete ops i u) by done. pose proof (zlen_nonneg (lh s)).
      unfold zlen at 1. simpl. lia.
    + intros [= <-]. split; cbn [lsize outstanding committing lh set_lh set_dv set_out set_committing];
        [done|split; [lia|done]|done|].
      rewrite (reserve_delete ops i u) by done. lia.
Qed.

Lemma space_reachable s0 s ops : fresh_log s0 -> log_reachable s0 s ops -> space_inv (lsize s0) s ops.
Proof.
  intros (Hl & Ho & Hc) Hr. unfold log_reachable in Hr.
  assert (forall x y, rtc lstep x y -> space_inv (lsize s0) x.1 x.2 -> space_inv (lsize s0) y.1 y.2) as Hind.
  { induction 1 as [x|[s1 o1] [s2 o2] y Hs _ IH]; [done|]. intros Hi. apply IH. by eapply space_step. }
  apply (Hind _ _ Hr). split; simpl; [done|done|by apply Forall_nil|]. rewrite Hl. done.
Qed.


Definition empty_log (size : Z) : lstate :=
  mkLog (mkDevice (fun _ => []) ∅ None) (1000 - size) size 0 false [].


(** Events of a run: a begin_op, or a log_write of a sector by an operation. *)
Inductive event := EBegin | EWrite (i : nat) (sec : Z).

Definition run_event (e : event) (x : lstate * list Z) : option (lstate * list Z) :=
  match e with
  | EBegin => match begin_op x.1 with Done _ s => Some (s, x.2 ++ [0]) | Stop _ _ => None end
  | EWrite i sec =>
      match x.2 !! i with
      | Some u =>
          if u <? MAXOPBLOCKS then
            match log_write sec [] x.1 with
            | Done _ s => Some (s, <[i := u + 1]> x.2)
            | Stop _ _ => None
            end
          else None
      | None => None
      end
  end.

Fixpoint run_events (es : list event) (x : lstate * list Z) : option (lstate * list Z) :=
  match es with
  | [] => Some x
  | e :: es => match run_event e x with Some y => run_events es y | None => None end
  end.

Lemma run_event_step e x y : run_event e x = Some y -> lstep x y.
Proof.
  destruct x as [s ops], e as [|i sec]; simpl.
  - destruct (begin_op s) as [[] s'|] eqn:E; [|done]. intros [= <-]. by constructor.
  - destruct (ops !! i) as [u|] eqn:Eu; [|done]. destruct (u <? MAXOPBLOCKS) eqn:Hu; [|done].
    destruct (log_write sec [] s) as [[] s'|] eqn:E; [|done]. intros [= <-]. bool_prop.
    by eapply step_write.
Qed.

Lemma run_events_steps es x y : run_events es x = Some y -> rtc lstep x y.
Proof.
  revert x. induction es as [|e es IH]; intros x; simpl; [intros [= ->]; apply rtc_refl|].
  destruct (run_event e x) as [z|] eqn:E; [|done]. intros Hy. eapply rtc_l; [|by apply IH].
  by apply run_event_step in E.
Qed.

(** Three operations, of ten, ten and nine blocks. *)
Definition three_ops : list event :=
  [EBegin; EBegin; EBegin] ++
  map (fun k => EWrite (k / 10) (Z.of_nat k + 100)) (seq 0 29).

(** With the log area that mkfs makes (LOGSIZE blocks, header included) the reservation
    is one block short: three operations that begin_op admits together, each within
    MAXOPBLOCKS, bring log_write to the panic "too big a transaction". *)
Theorem log_one_block_short : exists (s : lstate) (ops : list Z),
  log_reachable (empty_log LOGSIZE) s ops /\ ops = [10; 10; 9] /\
  log_write 129 [] s = Stop (Panicked "too big a transaction") s.
Proof.
  destruct (run_events three_ops (empty_log LOGSIZE, [])) as [[s ops]|] eqn:E; [|by vm_compute in E].
  exists s, ops. split; [by eapply run_events_steps|].
  assert (ops = [10; 10; 9] /\ zlen (lh s) = 29 /\ lsize s = 30) as (-> & Hn & Hz).
  { revert E. vm_compute. intros [= <- <-]. done. }
  split; [done|]. unfold log_write, bind, gets, id. rewrite Hn, Hz. done.
Qed.
