(* ===== verification/Fs.v ===== *)
(** * fs.c, blocks: the state of the file system, balloc and bfree

    The file system works on the blocks as the current transaction leaves them: a
    block is read with bread, changed, and handed to log_write.  [fb] is that view
    (Log.v and Device.v show what becomes of it), [flog] the sectors that log_write
    recorded for the transaction, with absorption.  All inodes live on ROOTDEV, the
    one device with a file system.  Theorems: balloc gives the first free block,
    zeroed, and changes nothing else; bfree undoes it. *)

From S2P Require Import Prelude Bytes FsFormat.

(** ** State *)

(** struct inode of file.h. *)
Record inode := mkInode {
  inum : Z;
  iref : Z;
  ibusy : bool;
  ivalid : bool;
  idi : dinode }.

Definition NINODE : nat := 50.

Record fs := mkFs {
  fb : Z -> list Z;
  flog : list Z;
  icache : nat -> inode;
  cwd : nat }.

Definition set_fb (f : Z -> list Z) (s : fs) : fs := mkFs f (flog s) (icache s) (cwd s).
Definition set_flog (l : list Z) (s : fs) : fs := mkFs (fb s) l (icache s) (cwd s).
Definition set_icache (c : nat -> inode) (s : fs) : fs := mkFs (fb s) (flog s) c (cwd s).

Definition bread (b : Z) : M fs (list Z) := gets (fun s => fb s b).

(** log_write of a buffer with data [d], as far as the file system sees it. *)
Definition log_write (b : Z) (d : list Z) : M fs unit :=
  modify (fun s => set_flog (if decide (b ∈ flog s) then flog s else flog s ++ [b])
                     (set_fb (upd b d (fb s)) s)).

Definition readsb : M fs superblock :=
  let! b := bread 1 in ret (sb_of_block b).

Definition bzero (bno : Z) : M fs unit :=
  let! d := bread bno in
  log_write bno (splice 0 (replicate 512 0) d).

Lemma wp_bread b s (Q : list Z -> fs -> Prop) E : Q (fb s b) s -> wp (bread b) s Q E.
Proof. done. Qed.

Lemma wp_log_write b d s (Q : unit -> fs -> Prop) E :
  (forall l, Q tt (set_flog l (set_fb (upd b d (fb s)) s))) -> wp (log_write b d) s Q E.
Proof. intros H. apply H. Qed.

Ltac fstep :=
  first [ step | lazymatch goal with
    | |- wp (bread _) _ _ _ => apply wp_bread
    | |- wp (log_write _ _) _ _ _ => apply wp_log_write; intros ?
    | |- wp readsb _ _ _ => unfold readsb
    end ].
Ltac fsteps := repeat (fstep; cbn beta).

(** ** The bitmap *)

(** The inner loop of balloc: the first zero bit from [bi] on, below [lim]. *)
Fixpoint scan_bits (n : nat) (bi lim : Z) (d : list Z) : option Z :=
  match n with
  | O => None
  | S n =>
      if bi <? lim then
        if Z.land (rd 1 (bi / 8) d) (Z.shiftl 1 (bi mod 8)) =? 0 then Some bi
        else scan_bits n (bi + 1) lim d
      else None
  end.

Fixpoint balloc_from (n : nat) (b : Z) (sb : superblock) : M fs Z :=
  match n with
  | O => halt Diverged
  | S n =>
      if b <? sb_size sb then
        let! d := bread (BBLOCK b (sb_ninodes sb)) in
        match scan_bits (Z.to_nat BPB) 0 (sb_size sb - b) d with
        | Some bi =>
            log_write (BBLOCK b (sb_ninodes sb))
              (wr 1 (bi / 8) (Z.lor (rd 1 (bi / 8) d) (Z.shiftl 1 (bi mod 8))) d) ;;
            bzero (b + bi) ;;
            ret (b + bi)
        | None => balloc_from n (b + BPB) sb
        end
      else panic "balloc: out of blocks"
  end.

Definition balloc : M fs Z :=
  let! sb := readsb in
  balloc_from (S (Z.to_nat (sb_size sb / BPB + 1))) 0 sb.

Definition bfree (b : Z) : M fs unit :=
  let! sb := readsb in
  let! d := bread (BBLOCK b (sb_ninodes sb)) in
  let bi := b mod BPB in
  let m := Z.shiftl 1 (bi mod 8) in
  if Z.land (rd 1 (bi / 8) d) m =? 0 then panic "freeing free block"
  else log_write (BBLOCK b (sb_ninodes sb)) (wr 1 (bi / 8) (Z.land (rd 1 (bi / 8) d) (Z.lnot m)) d).

(** ** Well-formed file systems *)

(** The bit of block [b]. *)
Definition used (f : Z -> list Z) (b : Z) : bool :=
  Z.testbit (rd 1 (b mod BPB / 8) (f (BBLOCK b (sb_ninodes (sb_of_block (f 1)))))) (b mod 8).

(** The blocks before the first data block: boot block, superblock, inodes, bitmap. *)
Definition first_data (f : Z -> list Z) : Z :=
  BBLOCK (sb_size (sb_of_block (f 1)) - 1) (sb_ninodes (sb_of_block (f 1))) + 1.

Record fs_wf (f : Z -> list Z) : Prop := {
  fw_len b : zlen (f b) = BSIZE;
  fw_size : 1 < sb_size (sb_of_block (f 1)) < 2 ^ 28;
  fw_first : first_data f <= sb_size (sb_of_block (f 1));
  fw_meta b : 0 <= b < first_data f -> used f b = true }.

Definition disk_full (f : Z -> list Z) : Prop :=
  forall b, 0 <= b < sb_size (sb_of_block (f 1)) -> used f b = true.

(** ** Bits of a bitmap block *)

Definition bit (d : list Z) (j : Z) : bool := Z.testbit (rd 1 (j / 8) d) (j mod 8).
Definition set_bit (d : list Z) (j : Z) : list Z :=
  wr 1 (j / 8) (Z.lor (rd 1 (j / 8) d) (Z.shiftl 1 (j mod 8))) d.
Definition clear_bit (d : list Z) (j : Z) : list Z :=
  wr 1 (j / 8) (Z.land (rd 1 (j / 8) d) (Z.lnot (Z.shiftl 1 (j mod 8)))) d.

Lemma test_bit d j : 0 <= j -> (Z.land (rd 1 (j / 8) d) (Z.shiftl 1 (j mod 8)) =? 0) = negb (bit d j).
Proof. intros. rewrite Z.shiftl_1_l. apply land_pow2_eqb0. zlia. Qed.

Lemma testbit_mod256 x j : Z.testbit (x mod 256 ^ Z.of_nat 1) (j mod 8) = Z.testbit x (j mod 8).
Proof.
  change (256 ^ Z.of_nat 1) with (2 ^ 8). apply Z.mod_pow2_bits_low. zlia.
Qed.

Lemma bit_set d j k : zlen d = BSIZE -> 0 <= j < BPB -> 0 <= k < BPB ->
  bit (set_bit d k) j = (j =? k) || bit d j.
Proof.
  unfold BSIZE, BPB, BSIZE, bit, set_bit. intros Hd Hj Hk.
  destruct (decide (j / 8 = k / 8)) as [E|E].
  - rewrite E, rd_wr_eq by (pows; zlia). rewrite testbit_mod256, Z.lor_spec, Z.shiftl_1_l.
    rewrite Z.pow2_bits_eqb by zlia. rewrite orb_comm. f_equal.
    destruct (Z.eqb_spec (k mod 8) (j mod 8)), (Z.eqb_spec j k); try done; zlia.
  - rewrite rd_wr_ne by zlia. destruct (Z.eqb_spec j k) as [->|]; done.
Qed.

Lemma bit_clear d j k : zlen d = BSIZE -> 0 <= j < BPB -> 0 <= k < BPB ->
  bit (clear_bit d k) j = negb (j =? k) && bit d j.
Proof.
  unfold BSIZE, BPB, BSIZE, bit, clear_bit. intros Hd Hj Hk.
  destruct (decide (j / 8 = k / 8)) as [E|E].
  - rewrite E, rd_wr_eq by (pows; zlia).
    rewrite testbit_mod256, Z.land_spec, Z.lnot_spec, Z.shiftl_1_l by zlia.
    rewrite Z.pow2_bits_eqb by zlia. rewrite andb_comm. do 2 f_equal.
    destruct (Z.eqb_spec (k mod 8) (j mod 8)), (Z.eqb_spec j k); try done; zlia.
  - rewrite rd_wr_ne by zlia. destruct (Z.eqb_spec j k) as [->|]; done.
Qed.

Lemma scan_bits_spec n bi lim d : 0 <= bi ->
  match scan_bits n bi lim d with
  | Some k => bi <= k < lim /\ k < bi + Z.of_nat n /\ bit d k = false /\
      forall j, bi <= j < k -> bit d j = true
  | None => forall j, bi <= j < bi + Z.of_nat n -> j < lim -> bit d j = true
  end.
Proof.
  revert bi. induction n as [|n IH]; intros bi Hbi; cbn [scan_bits]; [lia|].
  destruct (bi <? lim) eqn:E; bool_prop; [|lia]. rewrite test_bit by done.
  destruct (bit d bi) eqn:Hb; simpl.
  - specialize (IH (bi + 1) ltac:(lia)). destruct (scan_bits n (bi + 1) lim d) as [k|].
    + destruct IH as (H1 & H2 & H3 & H4). split; [lia|]. split; [lia|]. split; [done|].
      intros j Hj. destruct (decide (j = bi)) as [->|]; [done|]. apply H4. lia.
    + intros j Hj Hl. destruct (decide (j = bi)) as [->|]; [done|]. apply IH; lia.
  - split; [lia|]. split; [lia|]. split; [done|]. lia.
Qed.

(** ** balloc and bfree *)

Definition zeros : list Z := replicate 512 0.

Lemma zlen_zeros : zlen zeros = BSIZE.
Proof. reflexivity. Qed.

Lemma splice_zeros d : zlen d = BSIZE -> splice 0 (replicate 512 0) d = zeros.
Proof. intros H. apply splice_all. by rewrite H. Qed.

Definition sbof (f : Z -> list Z) : superblock := sb_of_block (f 1).
Definition bblock (f : Z -> list Z) (b : Z) : Z := BBLOCK b (sb_ninodes (sbof f)).

(** The blocks of the bitmap are metadata. *)
Lemma sb_ninodes_nonneg b : zlen b = BSIZE -> 0 <= sb_ninodes (sb_of_block b).
Proof. intros H. apply (rd_range 4 8 b); unfold BSIZE in *; lia. Qed.

Lemma bblock_range f b : fs_wf f -> 0 <= b < sb_size (sbof f) -> 3 <= bblock f b < first_data f.
Proof.
  intros [Hl Hs _ _] Hb. pose proof (sb_ninodes_nonneg (f 1) (Hl 1)).
  unfold bblock, first_data, BBLOCK, sbof in *. change BPB with 4096. change IPB with 8. zlia.
Qed.

Lemma used_bit f b : 0 <= b -> used f b = bit (f (bblock f b)) (b mod BPB).
Proof.
  intros. unfold used, bit, bblock, sbof. f_equal. unfold BPB, BSIZE. zlia.
Qed.

Definition mark (b : Z) (f : Z -> list Z) : Z -> list Z :=
  upd (bblock f b) (set_bit (f (bblock f b)) (b mod BPB)) f.
Definition unmark (b : Z) (f : Z -> list Z) : Z -> list Z :=
  upd (bblock f b) (clear_bit (f (bblock f b)) (b mod BPB)) f.

(** Changing the bitmap block of [b]. *)
Lemma bitmap_update f b d : fs_wf f -> 0 <= b < sb_size (sbof f) -> zlen d = BSIZE ->
  let f' := upd (bblock f b) d f in
  sbof f' = sbof f /\ first_data f' = first_data f /\
  forall j, 0 <= j -> used f' j = if decide (j / BPB = b / BPB) then bit d (j mod BPB) else used f j.
Proof.
  intros Hf Hb Hd f'. pose proof (bblock_range f b Hf Hb).
  assert (sbof f' = sbof f) as Hsb by (unfold sbof, f'; by rewrite upd_ne by lia).
  split; [done|]. split; [unfold first_data; fold (sbof f'); by rewrite Hsb|].
  intros j Hj. rewrite !used_bit by done. unfold bblock at 1. rewrite Hsb. fold (bblock f j).
  unfold f'. case_decide as E.
  - replace (bblock f j) with (bblock f b) by (unfold bblock, BBLOCK; by rewrite E). by rewrite upd_eq.
  - rewrite upd_ne; [done|]. unfold bblock, BBLOCK. lia.
Qed.

Lemma zlen_set_bit d k : zlen d = BSIZE -> 0 <= k < BPB -> zlen (set_bit d k) = BSIZE.
Proof. unfold set_bit, BSIZE, BPB, BSIZE. intros. rewrite zlen_wr; zlia. Qed.
Lemma zlen_clear_bit d k : zlen d = BSIZE -> 0 <= k < BPB -> zlen (clear_bit d k) = BSIZE.
Proof. unfold clear_bit, BSIZE, BPB, BSIZE. intros. rewrite zlen_wr; zlia. Qed.

Lemma mod_BPB b : 0 <= b mod BPB < BPB.
Proof. unfold BPB, BSIZE. zlia. Qed.

Lemma BPB_split j b : j / BPB = b / BPB -> (j mod BPB =? b mod BPB) = (j =? b).
Proof.
  unfold BPB, BSIZE. intros. destruct (Z.eqb_spec (j mod (512 * 8)) (b mod (512 * 8))), (Z.eqb_spec j b);
    try done; zlia.
Qed.

Lemma mark_ok f b : fs_wf f -> 0 <= b < sb_size (sbof f) ->
  sbof (mark b f) = sbof f /\ fs_wf (mark b f) /\
  forall j, 0 <= j -> used (mark b f) j = (j =? b) || used f j.
Proof.
  intros Hf Hb. pose proof (mod_BPB b). pose proof (fw_len f Hf (bblock f b)) as Hl.
  destruct (bitmap_update f b (set_bit (f (bblock f b)) (b mod BPB)) Hf Hb) as (Hsb & Hfd & Hu);
    [by apply zlen_set_bit|]. fold (mark b f) in *.
  assert (forall j, 0 <= j -> used (mark b f) j = (j =? b) || used f j) as Hu'.
  { intros j Hj. rewrite Hu by done. case_decide as E.
    - rewrite bit_set, used_bit, BPB_split by (done || apply mod_BPB).
      unfold bblock, BBLOCK. by rewrite E.
    - destruct (Z.eqb_spec j b) as [->|]; done. }
  split; [done|]. split; [|done]. split.
  - intros j. unfold mark. destruct (decide (j = bblock f b)) as [->|].
    + rewrite upd_eq. by apply zlen_set_bit.
    + rewrite upd_ne by done. apply Hf.
  - fold (sbof (mark b f)). rewrite Hsb. apply Hf.
  - fold (sbof (mark b f)). rewrite Hfd, Hsb. apply Hf.
  - intros j Hj. rewrite Hfd in Hj. rewrite Hu', (fw_meta f Hf) by lia. apply orb_true_r.
Qed.

Lemma unmark_ok f b : fs_wf f -> first_data f <= b < sb_size (sbof f) ->
  sbof (unmark b f) = sbof f /\ fs_wf (unmark b f) /\
  forall j, 0 <= j -> used (unmark b f) j = negb (j =? b) && used f j.
Proof.
  intros Hf Hb. pose proof (mod_BPB b). pose proof (fw_len f Hf (bblock f b)) as Hl.
  assert (0 <= b < sb_size (sbof f)) as Hb'.
  { split; [|lia]. pose proof (sb_ninodes_nonneg (f 1) (fw_len f Hf 1)). pose proof (fw_size f Hf).
    unfold first_data, BBLOCK in Hb. change BPB with 4096 in Hb. change IPB with 8 in Hb. zlia. }
  destruct (bitmap_update f b (clear_bit (f (bblock f b)) (b mod BPB)) Hf Hb') as (Hsb & Hfd & Hu);
    [by apply zlen_clear_bit|]. fold (unmark b f) in *.
  assert (forall j, 0 <= j -> used (unmark b f) j = negb (j =? b) && used f j) as Hu'.
  { intros j Hj. rewrite Hu by done. case_decide as E.
    - rewrite bit_clear, used_bit, BPB_split by (done || apply mod_BPB).
      unfold bblock, BBLOCK. by rewrite E.
    - destruct (Z.eqb_spec j b) as [->|]; done. }
  split; [done|]. split; [|done]. split.
  - intros j. unfold unmark. destruct (decide (j = bblock f b)) as [->|].
    + rewrite upd_eq. by apply zlen_clear_bit.
    + rewrite upd_ne by done. apply Hf.
  - fold (sbof (unmark b f)). rewrite Hsb. apply Hf.
  - fold (sbof (unmark b f)). rewrite Hfd, Hsb. apply Hf.
  - intros j Hj. rewrite Hfd in Hj. rewrite Hu', (fw_meta f Hf) by lia.
    destruct (Z.eqb_spec j b); [lia|done].
Qed.

(** Storing in a data block keeps the file system well-formed. *)
Lemma store_ok f b d : fs_wf f -> first_data f <= b -> zlen d = BSIZE ->
  sbof (upd b d f) = sbof f /\ fs_wf (upd b d f) /\
  forall j, 0 <= j < sb_size (sbof f) -> used (upd b d f) j = used f j.
Proof.
  intros Hf Hb Hd. assert (3 <= first_data f) as H3.
  { pose proof (fw_size f Hf). pose proof (bblock_range f 0 Hf). unfold sbof in *. lia. }
  assert (sbof (upd b d f) = sbof f) as Hsb by (unfold sbof; by rewrite upd_ne by lia).
  assert (forall j, 0 <= j < sb_size (sbof f) -> used (upd b d f) j = used f j) as Hu.
  { intros j Hj. rewrite !used_bit by lia. unfold bblock at 1. rewrite Hsb. fold (bblock f j).
    rewrite upd_ne; [done|]. pose proof (bblock_range f j Hf Hj). lia. }
  assert (first_data (upd b d f) = first_data f) as Hfd.
  { unfold first_data. fold (sbof (upd b d f)) (sbof f). by rewrite Hsb. }
  split; [done|]. split; [|done]. split.
  - intros j. unfold upd. case_decide; [done|apply Hf].
  - fold (sbof (upd b d f)). rewrite Hsb. apply Hf.
  - fold (sbof (upd b d f)). rewrite Hfd, Hsb. apply Hf.
  - intros j Hj. rewrite Hfd in Hj. pose proof (fw_first f Hf). rewrite Hu by (unfold sbof; lia).
    by apply Hf.
Qed.

Lemma first_data_eq f f' : sbof f = sbof f' -> first_data f = first_data f'.
Proof. unfold first_data. fold (sbof f) (sbof f'). by intros ->. Qed.

(** What balloc does to the blocks. *)
Definition allocated (b : Z) (f : Z -> list Z) : Z -> list Z := upd b zeros (mark b f).

Lemma free_not_meta f b : fs_wf f -> 0 <= b -> used f b = false -> first_data f <= b.
Proof. intros Hf Hb Hu. destruct (decide (first_data f <= b)); [done|]. rewrite (fw_meta f Hf) in Hu; [done|lia]. Qed.

Lemma allocated_ok f b : fs_wf f -> 0 <= b < sb_size (sbof f) -> used f b = false ->
  sbof (allocated b f) = sbof f /\ fs_wf (allocated b f) /\
  (forall j, 0 <= j < sb_size (sbof f) -> used (allocated b f) j = (j =? b) || used f j) /\
  (forall j, first_data f <= j -> j <> b -> allocated b f j = f j).
Proof.
  intros Hf Hb Hu. pose proof (free_not_meta f b Hf ltac:(lia) Hu) as Hfb.
  destruct (mark_ok f b Hf Hb) as (Hsb & Hf1 & Hu1).
  destruct (store_ok (mark b f) b zeros Hf1) as (Hsb2 & Hf2 & Hu2);
    [by rewrite (first_data_eq _ _ Hsb)|done|]. fold (allocated b f) in *.
  rewrite Hsb in *. split; [congruence|]. split; [done|]. split.
  - intros j Hj. rewrite Hu2 by done. apply Hu1. lia.
  - intros j Hj Hne. unfold allocated. rewrite upd_ne by done. unfold mark.
    pose proof (bblock_range f b Hf Hb). apply upd_ne. lia.
Qed.

Lemma balloc_from_ok n b s : fs_wf (fb s) -> 0 <= b -> b mod BPB = 0 -> (0 < n)%nat ->
  sb_size (sbof (fb s)) <= b + BPB * (Z.of_nat n - 1) ->
  (forall j, 0 <= j < b -> j < sb_size (sbof (fb s)) -> used (fb s) j = true) ->
  wp (balloc_from n b (sbof (fb s))) s
    (fun r s' => 0 <= r < sb_size (sbof (fb s)) /\ used (fb s) r = false /\
       (forall j, 0 <= j < r -> used (fb s) j = true) /\
       exists l, s' = set_flog l (set_fb (allocated r (fb s)) s))
    (fun w s' => w = Panicked "balloc: out of blocks" /\ s' = s /\ disk_full (fb s)).
Proof.
  revert b. induction n as [|n IH]; intros b Hf Hb Hm Hn0 Hn Hused; [lia|].
  cbn [balloc_from]. destruct (b <? sb_size (sbof (fb s))) eqn:E; bool_prop; last first.
  { step. split; [done|]. split; [done|]. intros j Hj. apply Hused; unfold sbof in *; lia. }
  fsteps. fold (bblock (fb s) b).
  pose proof (scan_bits_spec (Z.to_nat BPB) 0 (sb_size (sbof (fb s)) - b) (fb s (bblock (fb s) b))
    ltac:(lia)) as Hscan.
  assert (forall k, 0 <= k < BPB -> used (fb s) (b + k) = bit (fb s (bblock (fb s) b)) k) as Hub.
  { intros k Hk. rewrite used_bit by lia.
    assert ((b + k) / BPB = b / BPB /\ (b + k) mod BPB = k) as [E1 E2]
      by (unfold BPB, BSIZE in *; zlia). rewrite E2. unfold bblock, BBLOCK. by rewrite E1. }
  assert (0 < BPB) as HBPB by (by unfold BPB, BSIZE). rewrite Z2Nat.id in Hscan by lia.
  destruct (scan_bits _ _ _ _) as [k|] eqn:Es.
  - destruct Hscan as (Hk & Hk2 & Hfree & Hbefore).
    rewrite <- (Hub k) in Hfree by lia.
    pose proof (free_not_meta (fb s) (b + k) Hf ltac:(lia) Hfree) as Hmeta.
    unfold bzero. fsteps. split; [lia|]. split; [done|]. split.
    { intros j Hj. destruct (decide (j < b)); [apply Hused; lia|].
      replace j with (b + (j - b)) by lia. rewrite Hub by lia. apply Hbefore. lia. }
    eexists. unfold set_flog, set_fb. simpl. f_equal.
    pose proof (bblock_range (fb s) (b + k) Hf ltac:(lia)).
    assert (bblock (fb s) (b + k) = bblock (fb s) b) as Ebb
      by (unfold bblock, BBLOCK; do 2 f_equal; unfold BPB, BSIZE in *; zlia).
    rewrite upd_ne by lia. rewrite splice_zeros by apply Hf. unfold allocated, mark. rewrite Ebb.
    unfold set_bit. replace ((b + k) mod BPB) with k by (unfold BPB, BSIZE in *; zlia). done.
  - apply IH; [done|lia|unfold BPB, BSIZE in *; zlia|lia|lia|].
    intros j Hj Hs. destruct (decide (j < b)); [apply Hused; lia|].
    replace j with (b + (j - b)) by lia. rewrite Hub by lia. apply Hscan; lia.
Qed.

Lemma balloc_ok s : fs_wf (fb s) ->
  wp balloc s
    (fun r s' => 0 <= r < sb_size (sbof (fb s)) /\ used (fb s) r = false /\
       (forall j, 0 <= j < r -> used (fb s) j = true) /\
       exists l, s' = set_flog l (set_fb (allocated r (fb s)) s))
    (fun w s' => w = Panicked "balloc: out of blocks" /\ s' = s /\ disk_full (fb s)).
Proof.
  intros Hf. unfold balloc. fsteps. fold (sbof (fb s)).
  apply balloc_from_ok; [done|lia|done|lia| |lia].
  pose proof (fw_size _ Hf). fold (sbof (fb s)) in *. unfold BPB, BSIZE. zlia.
Qed.

Lemma bfree_ok s b : fs_wf (fb s) -> first_data (fb s) <= b < sb_size (sbof (fb s)) ->
  used (fb s) b = true ->
  returns (bfree b) s (fun _ s' => exists l, s' = set_flog l (set_fb (unmark b (fb s)) s)).
Proof.
  intros Hf Hb Hu. assert (0 <= b) as Hb0.
  { pose proof (bblock_range (fb s) 0 Hf). pose proof (fw_size _ Hf). fold (sbof (fb s)) in *. lia. }
  unfold bfree. fsteps. fold (sbof (fb s)). fold (bblock (fb s) b).
  rewrite test_bit by apply mod_BPB. rewrite used_bit in Hu by done. rewrite Hu. simpl.
  eexists. done.
Qed.

(** bfree of a free block panics. *)
Lemma bfree_panics s b : 0 <= b -> used (fb s) b = false ->
  bfree b s = Stop (Panicked "freeing free block") s.
Proof.
  intros Hb Hu. unfold bfree, readsb, bind, bread, gets, ret.
  fold (sbof (fb s)). fold (bblock (fb s) b).
  rewrite test_bit by apply mod_BPB. rewrite used_bit in Hu by done. rewrite Hu. done.
Qed.
