(* ===== verification/Inode.v ===== *)
(** * fs.c, inodes: the inode cache, the blocks of a file, readi and writei

    The inode cache is a table of NINODE slots; a pointer to an inode is the index of
    its slot.  The table of device routines ([devread], [devwrite]: devsw) is filled at
    run time and is a parameter.  File contents are the bytes of its blocks ([fbyte]).
    Theorems: readi gives the bytes of the file; writei changes exactly the bytes it
    is given and no other file; both stop only when the disk is full; at most one slot
    holds an inode, with a reference count that counts the pointers. *)

From S2P Require Import Prelude Bytes FsFormat Fs.

Definition T_DIR : Z := 1.
Definition T_FILE : Z := 2.
Definition T_DEV : Z := 3.
Definition NDEV : Z := 10.

(** ** Slots *)

Definition set_inode (i : nat) (ip : inode) (s : fs) : fs := set_icache (upd i ip (icache s)) s.
Definition set_ref (r : Z) (ip : inode) : inode := mkInode (inum ip) r (ibusy ip) (ivalid ip) (idi ip).
Definition set_iflags (bu va : bool) (ip : inode) : inode := mkInode (inum ip) (iref ip) bu va (idi ip).
Definition set_di (d : dinode) (ip : inode) : inode :=
  mkInode (inum ip) (iref ip) (ibusy ip) (ivalid ip) d.
Definition set_type (t : Z) (d : dinode) : dinode :=
  mkDinode t (di_major d) (di_minor d) (di_nlink d) (di_size d) (di_addrs d).
Definition set_nlink (n : Z) (d : dinode) : dinode :=
  mkDinode (di_type d) (di_major d) (di_minor d) n (di_size d) (di_addrs d).
Definition set_size (n : Z) (d : dinode) : dinode :=
  mkDinode (di_type d) (di_major d) (di_minor d) (di_nlink d) n (di_addrs d).
Definition set_addr (k : Z) (a : Z) (d : dinode) : dinode :=
  mkDinode (di_type d) (di_major d) (di_minor d) (di_nlink d) (di_size d)
    (<[Z.to_nat k := a]> (di_addrs d)).

Definition addr (d : dinode) (k : Z) : Z := default 0 (di_addrs d !! Z.to_nat k).

Definition change (i : nat) (f : inode -> inode) : M fs unit :=
  modify (fun s => set_inode i (f (icache s i)) s).
Definition change_di (i : nat) (f : dinode -> dinode) : M fs unit :=
  change i (fun ip => set_di (f (idi ip)) ip).

(** ** References *)

(** The loop of iget: the slot of the inode, and the first free slot. *)
Fixpoint iget_scan (n : Z) (c : nat -> inode) (l : list nat) (empty : option nat)
  : option nat * option nat :=
  match l with
  | [] => (None, empty)
  | i :: l =>
      if (0 <? iref (c i)) && (inum (c i) =? n) then (Some i, empty)
      else iget_scan n c l
             (match empty with
              | None => if iref (c i) =? 0 then Some i else None
              | Some _ => empty
              end)
  end.

Definition iget (n : Z) : M fs nat := fun s =>
  match iget_scan n (icache s) (seq 0 NINODE) None with
  | (Some i, _) => Done i (set_inode i (set_ref (iref (icache s i) + 1) (icache s i)) s)
  | (None, Some i) => Done i (set_inode i (mkInode n 1 false false (idi (icache s i))) s)
  | (None, None) => Stop (Panicked "iget: no inodes") s
  end.

Definition idup (i : nat) : M fs nat :=
  change i (fun ip => set_ref (iref ip + 1) ip) ;; ret i.

Definition ilock (i : nat) : M fs unit :=
  let! ip := gets (fun s => icache s i) in
  if iref ip <? 1 then panic "ilock"
  else if ibusy ip then halt (Blocked (Z.of_nat i))
  else
    change i (fun ip => set_iflags true (ivalid ip) ip) ;;
    if ivalid ip then ret tt
    else
      let! d := bread (IBLOCK (inum ip)) in
      change i (set_di (dinode_of (inum ip) d)) ;;
      change i (set_iflags true true) ;;
      if di_type (dinode_of (inum ip) d) =? 0 then panic "ilock: no type" else ret tt.

Definition iunlock (i : nat) : M fs unit :=
  let! ip := gets (fun s => icache s i) in
  if negb (ibusy ip) || (iref ip <? 1) then panic "iunlock"
  else change i (fun ip => set_iflags false (ivalid ip) ip).

Definition iupdate (i : nat) : M fs unit :=
  let! ip := gets (fun s => icache s i) in
  let! d := bread (IBLOCK (inum ip)) in
  log_write (IBLOCK (inum ip)) (put_dinode (inum ip) (idi ip) d).

(** ** The blocks of a file *)

Definition bmap (i : nat) (bn : Z) : M fs Z :=
  let! ip := gets (fun s => icache s i) in
  if bn <? NDIRECT then
    if addr (idi ip) bn =? 0 then
      let! a := balloc in
      change_di i (set_addr bn a) ;;
      ret a
    else ret (addr (idi ip) bn)
  else
    let bn := bn - NDIRECT in
    if bn <? NINDIRECT then
      let! ind :=
        (if addr (idi ip) NDIRECT =? 0 then
           let! a := balloc in
           change_di i (set_addr NDIRECT a) ;;
           ret a
         else ret (addr (idi ip) NDIRECT)) in
      let! d := bread ind in
      if rd 4 (4 * bn) d =? 0 then
        let! a := balloc in
        log_write ind (wr 4 (4 * bn) a d) ;;
        ret a
      else ret (rd 4 (4 * bn) d)
    else panic "bmap: out of range".

Fixpoint trunc_direct (i : nat) (l : list nat) : M fs unit :=
  match l with
  | [] => ret tt
  | k :: l =>
      let! ip := gets (fun s => icache s i) in
      let a := addr (idi ip) (Z.of_nat k) in
      (if a =? 0 then ret tt
       else bfree a ;; change_di i (set_addr (Z.of_nat k) 0)) ;;
      trunc_direct i l
  end.

Fixpoint trunc_indirect (l : list Z) : M fs unit :=
  match l with
  | [] => ret tt
  | a :: l => (if a =? 0 then ret tt else bfree a) ;; trunc_indirect l
  end.

Definition itrunc (i : nat) : M fs unit :=
  trunc_direct i (seq 0 (Z.to_nat NDIRECT)) ;;
  let! ip := gets (fun s => icache s i) in
  let ind := addr (idi ip) NDIRECT in
  (if ind =? 0 then ret tt
   else
     let! d := bread ind in
     trunc_indirect (get_words 0 (Z.to_nat NINDIRECT) d) ;;
     bfree ind ;;
     change_di i (set_addr NDIRECT 0)) ;;
  change_di i (set_size 0) ;;
  iupdate i.

Definition iput (i : nat) : M fs unit :=
  let! ip := gets (fun s => icache s i) in
  (if (iref ip =? 1) && ivalid ip && (di_nlink (idi ip) =? 0) then
     if ibusy ip then panic "iput busy"
     else
       change i (fun ip => set_iflags true (ivalid ip) ip) ;;
       itrunc i ;;
       change_di i (set_type 0) ;;
       iupdate i ;;
       change i (set_iflags false false)
   else ret tt) ;;
  change i (fun ip => set_ref (iref ip - 1) ip).

Definition iunlockput (i : nat) : M fs unit := iunlock i ;; iput i.

Fixpoint ialloc_from (n : nat) (k : Z) (sb : superblock) (type : Z) : M fs nat :=
  match n with
  | O => halt Diverged
  | S n =>
      if k <? sb_ninodes sb then
        let! d := bread (IBLOCK k) in
        if di_type (dinode_of k d) =? 0 then
          log_write (IBLOCK k)
            (wr 2 (dinode_off k) type (splice (dinode_off k) (replicate 64 0) d)) ;;
          iget k
        else ialloc_from n (k + 1) sb type
      else panic "ialloc: no inodes"
  end.

Definition ialloc (type : Z) : M fs nat :=
  let! sb := readsb in
  ialloc_from (S (Z.to_nat (sb_ninodes sb))) 1 sb type.

(** struct stat *)
Record stat := mkStat { st_type : Z; st_dev : Z; st_ino : Z; st_nlink : Z; st_size : Z }.
Definition ROOTDEV : Z := 1.

Definition stati (i : nat) : M fs stat :=
  let! ip := gets (fun s => icache s i) in
  ret (mkStat (di_type (idi ip)) ROOTDEV (inum ip) (di_nlink (idi ip)) (di_size (idi ip))).

(** ** Reading and writing *)

Section rw.
Context (devread : Z -> option (nat -> Z -> M fs (Z * list Z))).
Context (devwrite : Z -> option (nat -> list Z -> M fs Z)).

(** The loop of readi, from [tot] on; each turn copies at least a byte. *)
Fixpoint readi_from (fuel : nat) (i : nat) (tot n off : Z) : M fs (list Z) :=
  if tot <? n then
    match fuel with
    | O => halt Diverged
    | S fuel =>
        let! a := bmap i (off / BSIZE) in
        let! d := bread a in
        let m := Z.min (n - tot) (BSIZE - off mod BSIZE) in
        let! rest := readi_from fuel i (tot + m) n (off + m) in
        ret (slice (off mod BSIZE) m d ++ rest)
    end
  else ret [].

(** The value returned and the bytes copied to dst. *)
Definition readi (i : nat) (off n : Z) : M fs (Z * list Z) :=
  let! ip := gets (fun s => icache s i) in
  let di := idi ip in
  if di_type di =? T_DEV then
    if (di_major di <? 0) || (NDEV <=? di_major di) then ret (-1, [])
    else match devread (di_major di) with
         | None => ret (-1, [])
         | Some f => f i n
         end
  else if (di_size di <? off) || (u32 (off + n) <? off) then ret (-1, [])
  else
    let n := if di_size di <? u32 (off + n) then di_size di - off else n in
    let! l := readi_from (Z.to_nat n) i 0 n off in
    ret (n, l).

Fixpoint writei_from (fuel : nat) (i : nat) (src : list Z) (tot n off : Z) : M fs Z :=
  if tot <? n then
    match fuel with
    | O => halt Diverged
    | S fuel =>
        let! a := bmap i (off / BSIZE) in
        let! d := bread a in
        let m := Z.min (n - tot) (BSIZE - off mod BSIZE) in
        log_write a (splice (off mod BSIZE) (slice tot m src) d) ;;
        writei_from fuel i src (tot + m) n (off + m)
    end
  else ret off.

Definition writei (i : nat) (src : list Z) (off n : Z) : M fs Z :=
  let! ip := gets (fun s => icache s i) in
  let di := idi ip in
  if di_type di =? T_DEV then
    if (di_major di <? 0) || (NDEV <=? di_major di) then ret (-1)
    else match devwrite (di_major di) with
         | None => ret (-1)
         | Some f => f i (slice 0 n src)
         end
  else if (di_size di <? off) || (u32 (off + n) <? off) then ret (-1)
  else if MAXFILE * BSIZE <? u32 (off + n) then ret (-1)
  else
    let! off := writei_from (Z.to_nat n) i src 0 n off in
    let! ip := gets (fun s => icache s i) in
    (if (0 <? n) && (di_size (idi ip) <? off) then
       change_di i (set_size off) ;; iupdate i
     else ret tt) ;;
    ret n.
End rw.

(** ** The contents of a file

    The pointers of an inode: 12 direct blocks, the indirect block, and its 128
    entries. *)

Definition slot (f : Z -> list Z) (d : dinode) (k : Z) : Z :=
  if k <=? NDIRECT then addr d k
  else if addr d NDIRECT =? 0 then 0 else rd 4 (4 * (k - 13)) (f (addr d NDIRECT)).

Definition NSLOT : Z := 141.

(** The slot of the [bn]-th block of the file. *)
Definition bslot (bn : Z) : Z := if bn <? NDIRECT then bn else bn + 1.

Definition fblock (f : Z -> list Z) (d : dinode) (bn : Z) : list Z :=
  let a := slot f d (bslot bn) in if a =? 0 then zeros else f a.

Definition fbyte (f : Z -> list Z) (d : dinode) (p : Z) : Z :=
  nth (Z.to_nat (p mod BSIZE)) (fblock f d (p / BSIZE)) 0.

(** Every pointer is a data block in use, and no two are the same. *)
Record di_ok (f : Z -> list Z) (d : dinode) : Prop := {
  do_len : length (di_addrs d) = 13%nat;
  do_data k : 0 <= k < NSLOT -> slot f d k <> 0 ->
    first_data f <= slot f d k < sb_size (sbof f) /\ used f (slot f d k) = true;
  do_inj k k' : 0 <= k < NSLOT -> 0 <= k' < NSLOT -> slot f d k <> 0 ->
    slot f d k = slot f d k' -> k = k' }.

Definition disj (f : Z -> list Z) (d e : dinode) : Prop :=
  forall k k', 0 <= k < NSLOT -> 0 <= k' < NSLOT -> slot f d k <> 0 -> slot f d k <> slot f e k'.

Definition same_blocks (f f' : Z -> list Z) (d d' : dinode) : Prop :=
  forall bn, 0 <= bn < MAXFILE -> fblock f' d' bn = fblock f d bn.

(** Every other file keeps its blocks. *)
Definition undisturbed (f f' : Z -> list Z) (d d' : dinode) : Prop :=
  forall e, di_ok f e -> disj f d e -> di_ok f' e /\ disj f' d' e /\ same_blocks f f' e e.

Lemma bslot_range bn : 0 <= bn < MAXFILE -> 0 <= bslot bn < NSLOT /\ bslot bn <> NDIRECT.
Proof. unfold bslot, NDIRECT, NSLOT. change MAXFILE with 140. intros. destruct (bn <? 12) eqn:E; bool_prop; lia. Qed.

(** The pointers of an inode depend on its indirect block only. *)
Lemma slot_ext f f' d k : (addr d NDIRECT <> 0 -> f' (addr d NDIRECT) = f (addr d NDIRECT)) ->
  slot f' d k = slot f d k.
Proof.
  intros H. unfold slot. case_match; [done|]. destruct (addr d NDIRECT =? 0) eqn:E; [done|].
  bool_prop. by rewrite H.
Qed.

Lemma slot_indirect f d : slot f d NDIRECT = addr d NDIRECT.
Proof. done. Qed.

(** A file none of whose blocks changed. *)
Lemma same_file f f' e : di_ok f e -> sbof f' = sbof f ->
  (forall a, first_data f <= a < sb_size (sbof f) -> used f a = true ->
     (exists k, 0 <= k < NSLOT /\ slot f e k = a) -> f' a = f a /\ used f' a = true) ->
  (forall k, slot f' e k = slot f e k) /\ di_ok f' e /\ same_blocks f f' e e.
Proof.
  intros [Hl Hd Hi] Hsb Ha.
  assert (forall k, 0 <= k < NSLOT -> slot f e k <> 0 ->
    f' (slot f e k) = f (slot f e k) /\ used f' (slot f e k) = true) as Hk.
  { intros k Hk Hnz. destruct (Hd k Hk Hnz) as [H1 H2]. apply Ha; [done..|]. by exists k. }
  assert (forall k, slot f' e k = slot f e k) as Hs.
  { intros k. apply slot_ext. intros Hnz. rewrite <- slot_indirect with (f := f) in *.
    by apply Hk. }
  split; [done|]. split; [split; [done|..]|].
  - intros k Hkr. rewrite Hs, Hsb, (first_data_eq f' f) by done. intros Hnz.
    split; [by apply Hd|by apply Hk].
  - intros k k' Hkr Hkr'. rewrite !Hs. by apply Hi.
  - intros bn Hbn. unfold fblock. rewrite Hs. destruct (bslot_range bn Hbn).
    destruct (slot f e (bslot bn) =? 0) eqn:E; [done|]. bool_prop. by apply Hk.
Qed.

Lemma first_data_pos f : fs_wf f -> 3 <= first_data f.
Proof. intros Hwf. pose proof (fw_size f Hwf). pose proof (bblock_range f 0 Hwf). unfold sbof in *. lia. Qed.

(** One more block, fresh and zeroed, in an empty slot: the contents stay. *)
Section grow.
Context (f f' : Z -> list Z) (d d' : dinode) (k b : Z).
Hypothesis Hwf : fs_wf f.
Hypothesis Hok : di_ok f d.
Hypothesis Hsb : sbof f' = sbof f.
Hypothesis Hk : 0 <= k < NSLOT.
Hypothesis Hfree : slot f d k = 0.
Hypothesis Hb : first_data f <= b < sb_size (sbof f).
Hypothesis Hbfree : used f b = false.
Hypothesis Hlen : length (di_addrs d') = 13%nat.
Hypothesis Hused : forall j, 0 <= j < sb_size (sbof f) -> used f' j = (j =? b) || used f j.
Hypothesis Hslot : forall j, 0 <= j < NSLOT -> slot f' d' j = if decide (j = k) then b else slot f d j.
Hypothesis Hsame : forall a, first_data f <= a < sb_size (sbof f) -> used f a = true ->
  a <> addr d NDIRECT -> f' a = f a.
Hypothesis Hzero : f' b = zeros.

Lemma grow_data a : first_data f <= a < sb_size (sbof f) -> used f a = true -> used f' a = true.
Proof.
  intros Ha Hu. pose proof (first_data_pos f Hwf). rewrite Hused by lia. rewrite Hu. apply orb_true_r.
Qed.

Lemma grow_ok : di_ok f' d'.
Proof.
  pose proof (first_data_pos f Hwf). split; [done|..].
  - intros j Hj. rewrite (Hslot j Hj), Hsb, (first_data_eq f' f) by done. case_decide as E.
    + intros _. split; [done|]. rewrite Hused by lia. by rewrite Z.eqb_refl.
    + intros Hnz. destruct (do_data f d Hok j Hj Hnz) as [H1 H2]. split; [done|]. by apply grow_data.
  - assert (forall j, 0 <= j < NSLOT -> slot f d j <> b) as Hnb.
    { intros j Hj E. destruct (decide (slot f d j = 0)); [lia|].
      destruct (do_data f d Hok j Hj) as [_ H1]; [done|]. congruence. }
    intros j j' Hj Hj'. rewrite !Hslot by done. repeat case_decide; subst; try done.
    + intros _ E. exfalso. by apply (Hnb j').
    + intros _ E. exfalso. by apply (Hnb j).
    + by apply (do_inj f d Hok).
Qed.

Lemma grow_same : same_blocks f f' d d'.
Proof.
  intros bn Hbn. destruct (bslot_range bn Hbn) as [Hr Hne]. unfold fblock. rewrite Hslot by done.
  case_decide as E.
  - subst k. rewrite Hfree. simpl. pose proof (first_data_pos f Hwf). destruct (b =? 0) eqn:Eb; bool_prop; [lia|done].
  - destruct (slot f d (bslot bn) =? 0) eqn:E0; [done|]. bool_prop.
    destruct (do_data f d Hok _ Hr E0) as [H1 H2]. apply Hsame; [done..|].
    intros E1. apply Hne, (do_inj f d Hok); [done|by unfold NSLOT, NDIRECT|done|]. done.
Qed.

Lemma grow_undisturbed : undisturbed f f' d d'.
Proof.
  intros e He Hdj. pose proof (first_data_pos f Hwf).
  destruct (same_file f f' e He Hsb) as (Hs & Hok' & Hsm).
  { intros a Ha Hu (j & Hj & <-). split; [|by apply grow_data]. apply Hsame; [done..|].
    intros E. apply (Hdj NDIRECT j); [done|done| |done]. rewrite slot_indirect. lia. }
  split; [done|]. split; [|done]. intros j j' Hj Hj'. rewrite Hs, Hslot by done. case_decide as E.
  - intros _ E'. destruct (decide (slot f e j' = 0)); [lia|].
    destruct (do_data f e He j' Hj') as [_ H1]; [done|]. congruence.
  - by apply Hdj.
Qed.
End grow.

(** ** bmap *)

Definition di (s : fs) (i : nat) : dinode := idi (icache s i).
Definition set_addrs (l : list Z) (d : dinode) : dinode :=
  mkDinode (di_type d) (di_major d) (di_minor d) (di_nlink d) (di_size d) l.

(** File [i] may have got more blocks; its contents and all other files are as before. *)
Record grows (i : nat) (s s' : fs) : Prop := {
  gr_wf : fs_wf (fb s');
  gr_sb : sbof (fb s') = sbof (fb s);
  gr_ok : di_ok (fb s') (di s' i);
  gr_same : same_blocks (fb s) (fb s') (di s i) (di s' i);
  gr_others : undisturbed (fb s) (fb s') (di s i) (di s' i);
  gr_slots j : j <> i -> icache s' j = icache s j;
  gr_ip : exists l, icache s' i = set_di (set_addrs l (di s i)) (icache s i);
  gr_inodes b : 0 <= b < 3 + sb_ninodes (sbof (fb s)) / IPB -> fb s' b = fb s b;
  gr_cwd : cwd s' = cwd s;
  gr_keep k : 0 <= k < NSLOT -> slot (fb s) (di s i) k <> 0 ->
    slot (fb s') (di s' i) k = slot (fb s) (di s i) k }.

Lemma grows_refl i s : fs_wf (fb s) -> di_ok (fb s) (di s i) -> grows i s s.
Proof.
  intros. split; try done. exists (di_addrs (di s i)). unfold set_addrs, di.
  by destruct (icache s i) as [? ? ? ? []].
Qed.

Lemma grows_trans i s1 s2 s3 : grows i s1 s2 -> grows i s2 s3 -> grows i s1 s3.
Proof.
  intros [A1 A2 A3 A4 A5 A6 [l A7] A8 A9 A10] [B1 B2 B3 B4 B5 B6 [l' B7] B8 B9 B10]. split; try done.
  - congruence.
  - intros bn Hbn. rewrite B4 by done. by apply A4.
  - intros e He Hd. destruct (A5 e He Hd) as (H1 & H2 & H3). destruct (B5 e H1 H2) as (H4 & H5 & H6).
    split; [done|]. split; [done|]. intros bn Hbn. rewrite H6 by done. by apply H3.
  - intros j Hj. rewrite B6 by done. by apply A6.
  - exists l'. rewrite B7. unfold di in *. rewrite A7. done.
  - intros b Hb. rewrite B8 by (by rewrite A2). by apply A8.
  - congruence.
  - intros k Hk Hnz. rewrite <- A10 by done. apply B10; [done|]. by rewrite A10.
Qed.

Lemma grows_keep i s s' : grows i s s' ->
  di_type (di s' i) = di_type (di s i) /\ di_size (di s' i) = di_size (di s i) /\
  di_major (di s' i) = di_major (di s i) /\
  inum (icache s' i) = inum (icache s i) /\ iref (icache s' i) = iref (icache s i) /\
  ibusy (icache s' i) = ibusy (icache s i) /\ ivalid (icache s' i) = ivalid (icache s i) /\
  di_nlink (di s' i) = di_nlink (di s i) /\ di_minor (di s' i) = di_minor (di s i).
Proof. intros [_ _ _ _ _ _ [l Hl] _ _ _]. unfold di in *. by rewrite Hl. Qed.

Lemma addr_set_addr d k a j : length (di_addrs d) = 13%nat -> 0 <= k < 13 -> 0 <= j < 13 ->
  addr (set_addr k a d) j = if decide (j = k) then a else addr d j.
Proof.
  intros Hl Hk Hj. unfold addr, set_addr. cbn [di_addrs]. case_decide as E.
  - subst. by rewrite list_lookup_insert_eq by lia.
  - rewrite list_lookup_insert_ne; [done|lia].
Qed.

Lemma rd_zeros o : 0 <= o -> rd 4 o zeros = 0.
Proof.
  intros Ho. unfold rd, slice, zeros.
  assert (forall l, Forall (fun x => x = 0) l -> le_value l = 0) as H.
  { induction l as [|x l IH]; [done|]. intros [-> Hl]%Forall_cons. simpl. by rewrite IH. }
  apply H, Forall_take, Forall_drop, Forall_replicate. done.
Qed.

(** The first bitmap block is the first block balloc may change. *)
Lemma inodes_before f : fs_wf f -> 3 + sb_ninodes (sbof f) / IPB < first_data f.
Proof.
  intros Hf. unfold first_data, BBLOCK. fold (sbof f). pose proof (fw_size _ Hf). fold (sbof f) in *.
  pose proof (Z.div_pos (sb_size (sbof f) - 1) BPB ltac:(lia) ltac:(by unfold BPB, BSIZE)). lia.
Qed.

Lemma allocated_inodes f r b : fs_wf f -> 0 <= r < sb_size (sbof f) -> first_data f <= r ->
  0 <= b < 3 + sb_ninodes (sbof f) / IPB -> allocated r f b = f b.
Proof.
  intros Hf Hr Hrd Hb. unfold allocated, mark. pose proof (inodes_before f Hf).
  rewrite !upd_ne; [done| |lia]. unfold bblock, BBLOCK.
  pose proof (Z.div_pos r BPB ltac:(lia) ltac:(by unfold BPB, BSIZE)). lia.
Qed.

(** A new block for a pointer in the inode. *)
Lemma alloc_addr_ok s i k : fs_wf (fb s) -> di_ok (fb s) (di s i) -> 0 <= k <= NDIRECT ->
  addr (di s i) k = 0 ->
  wp (let! a := balloc in change_di i (set_addr k a) ;; ret a) s
    (fun r s' => grows i s s' /\ r <> 0 /\ addr (di s' i) k = r)
    (fun w s' => w = Panicked "balloc: out of blocks" /\ disk_full (fb s')).
Proof.
  intros Hf Hd Hk H0. unfold NDIRECT in Hk. step. eapply wp_mono; [by apply balloc_ok| |].
  2:{ by intros w s' (-> & -> & ?). }
  intros r s' (Hr & Hu & _ & l & ->). unfold change_di, change. fsteps.
  pose proof (free_not_meta _ _ Hf (proj1 Hr) Hu) as Hrd.
  assert (first_data (fb s) <= r < sb_size (sbof (fb s))) as Hrr by lia.
  destruct (allocated_ok (fb s) r Hf Hr Hu) as (Hsb & Hf' & Hu' & Hs').
  pose proof (first_data_pos (fb s) Hf) as H3. pose proof (do_len _ _ Hd) as Hlen.
  set (s1 := set_inode _ _ _).
  assert (di s1 i = set_addr k r (di s i)) as Hdi by (unfold di, s1; simpl; by rewrite upd_eq).
  assert (fb s1 = allocated r (fb s)) as Hfb by done.
  assert (forall j, 0 <= j < NSLOT ->
    slot (fb s1) (di s1 i) j = if decide (j = k) then r else slot (fb s) (di s i) j) as Hslot.
  { intros j Hj. rewrite Hdi, Hfb. unfold slot, NDIRECT, NSLOT in *.
    destruct (j <=? 12) eqn:E; bool_prop; [apply addr_set_addr; (done || lia)|].
    rewrite decide_False by lia. rewrite addr_set_addr by (done || lia). case_decide as E'.
    - subst k. rewrite H0. simpl. destruct (r =? 0) eqn:Er; [bool_prop; lia|].
      unfold allocated. rewrite upd_eq. apply rd_zeros. lia.
    - destruct (addr (di s i) 12 =? 0) eqn:Ea; [done|]. bool_prop. rewrite Hs'; [done|..].
      + apply (do_data _ _ Hd 12); [unfold NSLOT; lia|]. done.
      + intros E2. destruct (do_data _ _ Hd 12) as [_ H1]; [unfold NSLOT; lia|done|].
        unfold slot, NDIRECT in H1. simpl in H1. congruence. }
  assert (forall a, first_data (fb s) <= a < sb_size (sbof (fb s)) -> used (fb s) a = true ->
    a <> addr (di s i) NDIRECT -> fb s1 a = fb s a) as Hsame.
  { intros a Ha Hua _. rewrite Hfb. apply Hs'; [lia|]. congruence. }
  assert (fb s1 r = zeros) as Hz by (rewrite Hfb; apply upd_eq).
  assert (length (di_addrs (di s1 i)) = 13%nat) as Hlen' by (rewrite Hdi; simpl; by rewrite length_insert).
  assert (0 <= k < NSLOT) as Hk' by (unfold NSLOT; lia).
  assert (slot (fb s) (di s i) k = 0) as Hsk.
  { unfold slot, NDIRECT. destruct (k <=? 12) eqn:E; [done|bool_prop; lia]. }
  split; [|split; [lia|rewrite Hdi, addr_set_addr by (done || lia); by rewrite decide_True]].
  split; try done.
  - by apply (grow_ok (fb s) (fb s1) (di s i) (di s1 i) k r).
  - by apply (grow_same (fb s) (fb s1) (di s i) (di s1 i) k r).
  - by apply (grow_undisturbed (fb s) (fb s1) (di s i) (di s1 i) k r).
  - intros j Hj. unfold s1. simpl. by apply upd_ne.
  - eexists. unfold s1. simpl. rewrite upd_eq. done.
  - intros b Hb. rewrite Hfb. by apply allocated_inodes.
  - intros j Hj Hnz. rewrite Hslot by done. rewrite decide_False; [done|congruence].
Qed.

(** A new block for an entry of the indirect block. *)
Lemma alloc_entry_ok s i bn : fs_wf (fb s) -> di_ok (fb s) (di s i) -> 0 <= bn < NINDIRECT ->
  let ind := addr (di s i) NDIRECT in
  ind <> 0 -> rd 4 (4 * bn) (fb s ind) = 0 ->
  wp (let! a := balloc in log_write ind (wr 4 (4 * bn) a (fb s ind)) ;; ret a) s
    (fun r s' => grows i s s' /\ r <> 0 /\ slot (fb s') (di s' i) (bn + 13) = r)
    (fun w s' => w = Panicked "balloc: out of blocks" /\ disk_full (fb s')).
Proof.
  intros Hf Hd Hbn ind Hind H0. change NINDIRECT with 128 in Hbn. step.
  eapply wp_mono; [by apply balloc_ok| |]. 2:{ by intros w s' (-> & -> & ?). }
  intros r s' (Hr & Hu & _ & l & ->). fsteps.
  pose proof (free_not_meta _ _ Hf (proj1 Hr) Hu) as Hrd.
  assert (first_data (fb s) <= r < sb_size (sbof (fb s))) as Hrr by lia.
  destruct (allocated_ok (fb s) r Hf Hr Hu) as (Hsb & Hf' & Hu' & Hs').
  pose proof (first_data_pos (fb s) Hf) as H3. pose proof (fw_len _ Hf ind) as Hil.
  destruct (do_data _ _ Hd NDIRECT) as [Hi1 Hi2]; [done|done|]. rewrite slot_indirect in Hi1, Hi2.
  fold ind in Hi1, Hi2. assert (ind <> r) as Hir by congruence.
  set (s1 := set_flog _ _).
  assert (fb s1 = upd ind (wr 4 (4 * bn) r (fb s ind)) (allocated r (fb s))) as Hfb by done.
  assert (di s1 i = di s i) as Hdi by done.
  destruct (store_ok (allocated r (fb s)) ind (wr 4 (4 * bn) r (fb s ind)) Hf') as (Hsb2 & Hf2 & Hu2).
  { rewrite (first_data_eq _ _ Hsb). lia. }
  { unfold BSIZE in *. rewrite zlen_wr; lia. }
  rewrite <- Hfb in Hsb2, Hf2, Hu2. rewrite Hsb in *.
  assert (r < 2 ^ 32) as Hr32 by (pose proof (fw_size _ Hf); fold (sbof (fb s)) in *; lia).
  assert (forall j, 0 <= j < NSLOT ->
    slot (fb s1) (di s1 i) j = if decide (j = bn + 13) then r else slot (fb s) (di s i) j) as Hslot.
  { intros j Hj. rewrite Hdi, Hfb. unfold slot, NDIRECT, NSLOT in *. fold ind.
    destruct (j <=? 12) eqn:E; bool_prop; [by rewrite decide_False by lia|].
    destruct (ind =? 0) eqn:Ei; [bool_prop; lia|]. rewrite upd_eq. unfold BSIZE in Hil. case_decide as E'.
    - subst j. replace (bn + 13 - 13) with bn by lia. rewrite rd_wr_eq by lia.
      apply Z.mod_small. change (256 ^ Z.of_nat 4) with (2 ^ 32). lia.
    - by rewrite rd_wr_ne by lia. }
  assert (forall a, first_data (fb s) <= a < sb_size (sbof (fb s)) -> used (fb s) a = true ->
    a <> addr (di s i) NDIRECT -> fb s1 a = fb s a) as Hsame.
  { intros a Ha Hua Hne. rewrite Hfb. rewrite upd_ne by done. apply Hs'; [lia|]. congruence. }
  assert (fb s1 r = zeros) as Hz by (rewrite Hfb, upd_ne by done; apply upd_eq).
  assert (forall j, 0 <= j < sb_size (sbof (fb s)) -> used (fb s1) j = (j =? r) || used (fb s) j) as Hused
    by (intros j Hj; rewrite Hu2 by done; by apply Hu').
  assert (0 <= bn + 13 < NSLOT) as Hk' by (unfold NSLOT; lia).
  assert (slot (fb s) (di s i) (bn + 13) = 0) as Hsk.
  { unfold slot. fold ind. destruct (bn + 13 <=? NDIRECT) eqn:E; [unfold NDIRECT in E; bool_prop; lia|].
    destruct (ind =? 0) eqn:Ei; [done|]. by replace (bn + 13 - 13) with bn by lia. }
  pose proof (do_len _ _ Hd) as Hlen.
  split; [|split; [lia|rewrite Hslot by done; by rewrite decide_True]].
  split; try done.
  - by apply (grow_ok (fb s) (fb s1) (di s i) (di s1 i) (bn + 13) r).
  - by apply (grow_same (fb s) (fb s1) (di s i) (di s1 i) (bn + 13) r).
  - by apply (grow_undisturbed (fb s) (fb s1) (di s i) (di s1 i) (bn + 13) r).
  - exists (di_addrs (di s i)). unfold s1, di, set_addrs. simpl. by destruct (icache s i) as [? ? ? ? []].
  - intros b Hb. rewrite Hfb. pose proof (inodes_before _ Hf). rewrite upd_ne by lia.
    by apply allocated_inodes.
  - intros j Hj Hnz. rewrite Hslot by done. rewrite decide_False; [done|congruence].
Qed.

Lemma bmap_ok s i bn : fs_wf (fb s) -> di_ok (fb s) (di s i) -> 0 <= bn < MAXFILE ->
  wp (bmap i bn) s
    (fun r s' => grows i s s' /\ r <> 0 /\ slot (fb s') (di s' i) (bslot bn) = r)
    (fun w s' => w = Panicked "balloc: out of blocks" /\ disk_full (fb s')).
Proof.
  intros Hf Hd Hbn. change MAXFILE with 140 in Hbn. unfold bmap. steps. fold (di s i). unfold bslot.
  destruct (bn <? NDIRECT) eqn:E; unfold NDIRECT in E; bool_prop.
  - assert (forall f d, slot f d bn = addr d bn) as Hs.
    { intros. unfold slot, NDIRECT. destruct (bn <=? 12) eqn:E'; [done|bool_prop; lia]. }
    destruct (addr (di s i) bn =? 0) eqn:E0; bool_prop.
    + eapply wp_mono; [apply alloc_addr_ok; (done || (unfold NDIRECT; lia))| |done].
      intros r s' (H1 & H2 & H3). by rewrite Hs.
    + step. split; [by apply grows_refl|]. split; [done|]. apply Hs.
  - change NINDIRECT with 128. unfold NDIRECT. destruct (bn - 12 <? 128) eqn:E1; bool_prop; [|lia].
    step. apply wp_mono with
      (Q := fun r s' => grows i s s' /\ r <> 0 /\ addr (di s' i) NDIRECT = r)
      (E := fun w s' => w = Panicked "balloc: out of blocks" /\ disk_full (fb s')); [| |done].
    { destruct (addr (di s i) 12 =? 0) eqn:E0; bool_prop.
      - eapply wp_mono; [apply alloc_addr_ok; (done || (unfold NDIRECT; lia))|done|done].
      - step. split; [by apply grows_refl|]. done. }
    intros ind s1 (Hg & Hi & Hia). fsteps. subst ind.
    replace (bn + 1) with (bn - 12 + 13) by lia.
    destruct (rd 4 (4 * (bn - 12)) (fb s1 (addr (di s1 i) NDIRECT)) =? 0) eqn:E2; bool_prop.
    + eapply wp_mono; [apply (alloc_entry_ok s1 i (bn - 12)); try done| |done].
      { apply Hg. } { apply Hg. } { change NINDIRECT with 128. lia. }
      intros r s' (H1 & H2 & H3). split; [by eapply grows_trans|]. done.
    + step. split; [done|]. split; [done|]. unfold slot.
      destruct (bn - 12 + 13 <=? NDIRECT) eqn:E3; unfold NDIRECT in E3; bool_prop; [lia|].
      destruct (addr (di s1 i) NDIRECT =? 0) eqn:E4; bool_prop; [done|].
      by replace (bn - 12 + 13 - 13) with (bn - 12) by lia.
Qed.
