(* ===== verification/Condev.v ===== *)
(** * The console as a device

    The routines of console.c that the rest of the kernel calls: cprintf and panic over the
    serial line and the screen, and consolewrite and consoleread as devsw holds them, with
    the inode they unlock while they work.  Lemmas: what panic leaves on the line and that
    no other CPU prints after it; consolewrite sends its bytes and consoleread takes a
    finished line, both with the inode locked again at the end. *)

From S2P Require Import Prelude Console Fs Inode.

(** [panicked], cons.locking, the two locks of console.c, what went to the serial line with
    the screen, and the input. *)
Record con := mkCon {
  panicked : bool;
  clocking : bool;
  cons_lock : bool;
  input_lock : bool;
  cout : list Z * cga;
  cinput : input }.

Definition set_panicked (b : bool) (c : con) : con :=
  mkCon b (clocking c) (cons_lock c) (input_lock c) (cout c) (cinput c).
Definition set_clocking (b : bool) (c : con) : con :=
  mkCon (panicked c) b (cons_lock c) (input_lock c) (cout c) (cinput c).
Definition set_cons_lock (b : bool) (c : con) : con :=
  mkCon (panicked c) (clocking c) b (input_lock c) (cout c) (cinput c).
Definition set_input_lock (b : bool) (c : con) : con :=
  mkCon (panicked c) (clocking c) (cons_lock c) b (cout c) (cinput c).
Definition set_cout (o : list Z * cga) (c : con) : con :=
  mkCon (panicked c) (clocking c) (cons_lock c) (input_lock c) o (cinput c).
Definition set_cinput (i : input) (c : con) : con :=
  mkCon (panicked c) (clocking c) (cons_lock c) (input_lock c) (cout c) i.

(** acquire and release of this CPU, on a lock given by its field. *)
Definition lock_with (get : con -> bool) (set : bool -> con -> con) : M con unit :=
  let! b := gets get in if b then panic "acquire" else modify (set true).
Definition unlock_with (get : con -> bool) (set : bool -> con -> con) : M con unit :=
  let! b := gets get in if b then modify (set false) else panic "release".

(** ** Printing *)

Definition putc (c : Z) : M con unit := fun s =>
  match consputc (panicked s) c (cout s) with
  | Some o => Done tt (set_cout o s)
  | None => Stop Diverged s
  end.

Fixpoint putcs (l : list Z) : M con unit :=
  match l with [] => ret tt | c :: l => putc c ;; putcs l end.

Section printing.
(** The C string at an address. *)
Context (str : Z -> list Z).

Definition con_cprintf (fmt : list Z) (args : list Z) : M con unit :=
  let! locking := gets clocking in
  (if locking then lock_with cons_lock set_cons_lock else ret tt) ;;
  putcs (cprintf str fmt (fun k => nth k args 0)) ;;
  (if locking then unlock_with cons_lock set_cons_lock else ret tt).

Fixpoint print_pcs (pcs : list Z) : M con unit :=
  match pcs with [] => ret tt | pc :: pcs => con_cprintf [32; 37; 112] [pc] ;; print_pcs pcs end.

(** "cpu%d: panic: " *)
Definition panic_fmt : list Z := [99; 112; 117; 37; 100; 58; 32; 112; 97; 110; 105; 99; 58; 32].

(** [s] is the message, [pcs] what getcallerpcs found; the CPU stays in the last loop. *)
Definition con_panic (cpuid : Z) (s pcs : list Z) : M con unit :=
  modify (set_clocking false) ;;
  con_cprintf panic_fmt [cpuid] ;;
  con_cprintf s [] ;;
  con_cprintf [10] [] ;;
  print_pcs pcs ;;
  modify (set_panicked true) ;;
  halt Diverged.
End printing.

(** ** The device *)

Definition condev : Type := fs * con.
Definition on_inode {A} (c : M fs A) : M condev A := fun s =>
  match c s.1 with Done a f => Done a (f, s.2) | Stop w f => Stop w (f, s.2) end.
Definition on_con {A} (c : M con A) : M condev A := fun s =>
  match c s.2 with Done a k => Done a (s.1, k) | Stop w k => Stop w (s.1, k) end.

Definition consolewrite (ip : nat) (buf : list Z) (n : Z) : M condev Z :=
  on_inode (iunlock ip) ;;
  on_con (lock_with cons_lock set_cons_lock) ;;
  on_con (putcs (map (fun c => Z.land c 0xff) (take (Z.to_nat n) buf))) ;;
  on_con (unlock_with cons_lock set_cons_lock) ;;
  on_inode (ilock ip) ;;
  ret n.

(** The loop of consoleread from where it holds the lock, [n] bytes of [target] wanted and
    [got] stored; sleep gives the lock up.  What a killed process had stored is left out:
    it never runs again as a user program. *)
Definition consoleread_loop (killed : bool) (ip n target : nat) (got : list Z) : M condev (Z * list Z) :=
  let! i := gets (fun s => cinput s.2) in
  let '(i', r) := consoleread_from n target killed i in
  on_con (modify (set_cinput i')) ;;
  on_con (unlock_with input_lock set_input_lock) ;;
  match r with
  | CDone l => on_inode (ilock ip) ;; ret (Z.of_nat (length (got ++ l)), got ++ l)
  | CFail => on_inode (ilock ip) ;; ret (-1, [])
  | CSleep _ _ => halt (Blocked 0)
  end.

Definition consoleread (killed : bool) (ip : nat) (n : Z) : M condev (Z * list Z) :=
  on_inode (iunlock ip) ;;
  on_con (lock_with input_lock set_input_lock) ;;
  consoleread_loop killed ip (Z.to_nat n) (Z.to_nat n) [].

(** ** panic *)

(** The characters as they go over the serial line. *)
Definition on_line (l : list Z) : list Z := flat_map (fun c => if c =? BACKSPACE then [8; 32; 8] else [c]) l.

Lemma putcs_ok l s : panicked s = false -> exists g,
  putcs l s = Done tt (set_cout ((cout s).1 ++ on_line l, g) s) /\
  (0 <= pos (cout s).2 < 24 * 80 -> 0 <= pos g < 24 * 80).
Proof.
  revert s. induction l as [|c l IH]; intros s Hp; cbn [putcs on_line flat_map].
  - exists (cout s).2. rewrite app_nil_r. split; [|done]. by destruct s as [? ? ? ? [] ?].
  - unfold bind, putc, consputc. rewrite Hp.
    destruct (IH (set_cout ((cout s).1 ++ (if c =? BACKSPACE then [8; 32; 8] else [c]), cgaputc c (cout s).2) s) Hp) as (g & -> & Hg).
    exists g. split; [cbn; by rewrite <- app_assoc|]. intros Hpos. by apply Hg, cgaputc_bounds.
Qed.

(** Without the lock nothing but the output changes; with it, it is free again. *)
Lemma cprintf_ok str fmt args s : panicked s = false -> (clocking s = true -> cons_lock s = false) -> exists g,
  con_cprintf str fmt args s = Done tt (set_cout ((cout s).1 ++ on_line (cprintf str fmt (fun k => nth k args 0)), g) s) /\
  (0 <= pos (cout s).2 < 24 * 80 -> 0 <= pos g < 24 * 80).
Proof.
  intros Hp Hl. unfold con_cprintf. rewrite (bind_run _ _ s (clocking s) s) by done. destruct (clocking s) eqn:Hc.
  - rewrite (bind_run _ _ s tt (set_cons_lock true s)) by (unfold lock_with, bind, gets, modify; by rewrite Hl).
    destruct (putcs_ok (cprintf str fmt (fun k => nth k args 0)) (set_cons_lock true s) Hp) as (g & Eg & Hg).
    exists g. split; [|exact Hg]. rewrite (bind_run _ _ _ _ _ Eg). unfold unlock_with, bind, gets, modify. cbn.
    specialize (Hl eq_refl). destruct s as [? ? ? ? ? ?]. cbn in *. by subst.
  - rewrite (bind_run _ _ s tt s) by done.
    destruct (putcs_ok (cprintf str fmt (fun k => nth k args 0)) s Hp) as (g & Eg & Hg).
    exists g. split; [|exact Hg]. by rewrite (bind_run _ _ _ _ _ Eg).
Qed.

Lemma cprintf_plain str fmt args k : Forall (fun c => c <> 37) fmt -> cprintf_from str fmt args k = fmt.
Proof.
  intros Hf. revert k. induction Hf as [|c fmt Hc _ IH]; intros k; [done|]. cbn [cprintf_from].
  rewrite (proj2 (Z.eqb_neq _ _) Hc). cbn [negb]. by rewrite IH.
Qed.

Lemma on_line_app l l' : on_line (l ++ l') = on_line l ++ on_line l'.
Proof. apply flat_map_app. Qed.

(** The return addresses, as " %p" prints them. *)
Definition pcs_text (pcs : list Z) : list Z := flat_map (fun pc => 32 :: printint (s32 pc) 16 false) pcs.

Lemma print_pcs_ok str pcs s : panicked s = false -> clocking s = false -> exists g,
  print_pcs str pcs s = Done tt (set_cout ((cout s).1 ++ on_line (pcs_text pcs), g) s).
Proof.
  intros Hp Hc. revert s Hp Hc. induction pcs as [|pc pcs IH]; intros s Hp Hc; cbn [print_pcs].
  - exists (cout s).2. rewrite app_nil_r. by destruct s as [? ? ? ? [] ?].
  - destruct (cprintf_ok str [32; 37; 112] [pc] s Hp) as (g & Eg & _); [by rewrite Hc|]. rewrite (bind_run _ _ _ _ _ Eg).
    set (s1 := set_cout _ s). destruct (IH s1) as (g' & ->); [done..|]. exists g'. unfold s1. cbn [cout set_cout fst].
    replace (cprintf str [32; 37; 112] _) with (32 :: printint (s32 pc) 16 false).
    + cbn [pcs_text flat_map]. by rewrite (on_line_app (_ :: _)), app_assoc.
    + unfold cprintf. cbn [cprintf_from Z.eqb Pos.eqb negb orb nth]. by rewrite app_nil_r.
Qed.

(** "cpu0: panic: " *)
Definition panic_head (cpuid : Z) : list Z :=
  [99; 112; 117] ++ printint (s32 cpuid) 10 true ++ [58; 32; 112; 97; 110; 105; 99; 58; 32].

Lemma panic_head_ok str cpuid : cprintf str panic_fmt (fun k => nth k [cpuid] 0) = panic_head cpuid.
Proof. reflexivity. Qed.

(** The message of a panic: the CPU, the text, and the return addresses, on the line even
    when this CPU was printing. *)
Lemma panic_prints str cpuid msg pcs s : panicked s = false -> Forall (fun c => c <> 37) msg ->
  exists s', con_panic str cpuid msg pcs s = Stop Diverged s' /\ panicked s' = true /\
    (cout s').1 = (cout s).1 ++ on_line (panic_head cpuid ++ msg ++ [10] ++ pcs_text pcs).
Proof.
  intros Hp Hm. unfold con_panic. rewrite (bind_run _ _ s tt (set_clocking false s)) by done.
  set (s0 := set_clocking false s). assert (panicked s0 = false /\ clocking s0 = false) as [Hp0 Hc0] by done.
  assert (cout s0 = cout s) as Eo by done. clearbody s0. rewrite <- Eo. clear Eo s Hp.
  destruct (cprintf_ok str panic_fmt [cpuid] s0 Hp0) as (g1 & E1 & _); [by rewrite Hc0|]. rewrite (bind_run _ _ _ _ _ E1).
  set (s1 := set_cout _ s0). destruct (cprintf_ok str msg [] s1) as (g2 & E2 & _); [done|intros H; change (clocking s0 = true) in H; congruence|].
  rewrite (bind_run _ _ _ _ _ E2). set (s2 := set_cout _ s1).
  destruct (cprintf_ok str [10] [] s2) as (g3 & E3 & _); [done|intros H; change (clocking s0 = true) in H; congruence|]. rewrite (bind_run _ _ _ _ _ E3).
  set (s3 := set_cout _ s2). destruct (print_pcs_ok str pcs s3) as (g4 & E4); [done..|]. rewrite (bind_run _ _ _ _ _ E4).
  eexists. split; [reflexivity|]. split; [done|]. cbn [cout set_panicked set_cout fst]. unfold s3, s2, s1. cbn [cout set_cout fst].
  rewrite panic_head_ok. unfold cprintf. rewrite !cprintf_plain by (done || by repeat constructor). by rewrite !on_line_app, !app_assoc.
Qed.

(** After a panic every CPU that prints stops there, holding what it holds. *)
Lemma panic_freezes c s : panicked s = true -> putc c s = Stop Diverged s.
Proof. intros Hp. unfold putc, consputc. by rewrite Hp. Qed.

(** ** The device routines *)

(** An inode the caller has locked. *)
Definition locked (f : fs) (ip : nat) : Prop :=
  1 <= iref (icache f ip) /\ ibusy (icache f ip) = true /\ ivalid (icache f ip) = true.

Definition same_fs (f f' : fs) : Prop :=
  f' = set_icache (icache f') f /\ forall j, icache f' j = icache f j.

Lemma iunlock_run ip f : locked f ip ->
  iunlock ip f = Done tt (set_inode ip (set_iflags false true (icache f ip)) f).
Proof.
  intros (Hr & Hb & Hv). unfold iunlock, bind, gets, change, modify. rewrite Hb. cbn [negb orb].
  rewrite (proj2 (Z.ltb_ge _ _) Hr). by rewrite Hv.
Qed.

Lemma relock_run ip f : locked f ip -> exists f',
  ilock ip (set_inode ip (set_iflags false true (icache f ip)) f) = Done tt f' /\ same_fs f f'.
Proof.
  intros (Hr & Hb & Hv). unfold ilock, bind, gets, change, modify. cbn [icache set_inode set_icache]. rewrite upd_eq.
  cbn [iref ibusy ivalid set_iflags]. rewrite (proj2 (Z.ltb_ge _ _) Hr). eexists. split; [reflexivity|]. split; [done|].
  intros j. cbn [icache set_icache set_inode]. unfold upd. case_decide; [|done]. subst. rewrite decide_True by done.
  destruct (icache f ip). cbn in *. by subst.
Qed.

(** consolewrite sends the bytes to the line and the screen, and gives inode and lock back. *)
Lemma consolewrite_ok ip buf n f c : locked f ip -> panicked c = false -> cons_lock c = false -> Forall (fun b => 0 <= b < 256) buf ->
  exists f' g, consolewrite ip buf n (f, c) = Done n (f', set_cout ((cout c).1 ++ take (Z.to_nat n) buf, g) c) /\ same_fs f f'.
Proof.
  intros Hl Hp Hc Hb. unfold consolewrite. erewrite bind_run by (unfold on_inode; cbn [fst snd]; by rewrite (iunlock_run _ _ Hl)).
  erewrite bind_run by (unfold on_con, lock_with, bind, gets, modify; cbn [fst snd]; by rewrite Hc).
  set (l := map _ _). assert (on_line l = take (Z.to_nat n) buf) as El.
  { unfold l, on_line. apply (Forall_take _ (Z.to_nat n)) in Hb. induction Hb as [|b r Hb _ IH]; [done|]. cbn [map flat_map].
    change 0xff with (Z.ones 8). rewrite Z.land_ones, Z.mod_small by lia.
    destruct (Z.eqb_spec b BACKSPACE) as [->|]; [unfold BACKSPACE in Hb; lia|]. cbn [app]. f_equal. exact IH. }
  destruct (putcs_ok l (set_cons_lock true c) Hp) as (g & Eg & _). rewrite El in Eg.
  erewrite bind_run by (unfold on_con; cbn [fst snd]; by rewrite Eg).
  erewrite bind_run by (unfold on_con, unlock_with, bind, gets, modify; reflexivity).
  destruct (relock_run ip f Hl) as (f' & Ef & Hs). exists f', g. split; [|done].
  erewrite bind_run by (unfold on_inode; cbn [fst snd]; by rewrite Ef). destruct c. cbn in *. by subst.
Qed.

(** consoleread of a process that is not killed takes what [line_read] says, with inode
    and lock as before; where that is not there yet it sleeps, with both given up. *)
Lemma consoleread_ok ip n f c l : locked f ip -> input_lock c = false -> input_rep (cinput c) l ->
  match line_read (Z.to_nat n) (Z.to_nat n) (ready l) with
  | Some (got, q) => exists f' i, consoleread false ip n (f, c) = Done (Z.of_nat (length got), got) (f', set_cinput i c) /\
      same_fs f f' /\ input_rep i (mkLines q (line l))
  | None => exists f' i, consoleread false ip n (f, c) = Stop (Blocked 0) (f', set_cinput i c) /\
      ibusy (icache f' ip) = false /\ input_rep i (mkLines [] (line l))
  end.
Proof.
  intros Hl Hc Hi. unfold consoleread. erewrite bind_run by (unfold on_inode; cbn [fst snd]; by rewrite (iunlock_run _ _ Hl)).
  erewrite bind_run by (unfold on_con, lock_with, bind, gets, modify; cbn [fst snd]; by rewrite Hc).
  unfold consoleread_loop. rewrite (bind_run _ _ _ (cinput c) _) by done.
  pose proof (consoleread_rep (Z.to_nat n) (Z.to_nat n) false (cinput c) l Hi) as H.
  assert (forall i, set_input_lock false (set_cinput i (set_input_lock true c)) = set_cinput i c) as Ec
    by (intros i; destruct c; cbn in *; by subst).
  destruct (line_read _ _ _) as [[got q]|].
  - destruct H as (i & -> & Hq). destruct (relock_run ip f Hl) as (f' & Ef & Hs). exists f', i. split; [|done].
    unfold on_con, on_inode, unlock_with, bind, modify, gets. cbn [fst snd input_lock set_cinput set_input_lock].
    rewrite Ef, Ec. done.
  - destruct H as (i & r & -> & Hq & Hr). destruct r; [done| |done].
    eexists _, i. unfold on_con, unlock_with, bind, modify, gets. cbn [fst snd input_lock set_cinput set_input_lock].
    rewrite Ec. split; [reflexivity|]. split; [|done]. cbn [icache set_inode set_icache]. by rewrite upd_eq.
Qed.
