(* ===== verification/InodeData.v ===== *)
(** * readi and writei: the contents of files

    Proofs about the operations of Inode.v: a file is the sequence of its bytes
    ([fbyte]); readi gives them, writei replaces the bytes it is given, growing the
    file when it ends past its end, and leaves every other file alone. *)

From S2P Require Import Prelude Bytes FsFormat Fs Inode.

(** ** Bytes of a file *)

Definition MAXBYTES : Z := MAXFILE * BSIZE.

Definition fbytes (f : Z -> list Z) (d : dinode) (off n : Z) : list Z :=
  map (fun k => fbyte f d (off + Z.of_nat k)) (seq 0 (Z.to_nat n)).

Lemma fbytes_split f d off m n : 0 <= m -> 0 <= n ->
  fbytes f d off (m + n) = fbytes f d off m ++ fbytes f d (off + m) n.
Proof.
  intros. unfold fbytes. rewrite Z2Nat.inj_add, seq_app, map_app by done. f_equal.
  rewrite Nat.add_0_l. replace (Z.to_nat m) with (Z.to_nat m + 0)%nat at 1 by lia.
  rewrite <- fmap_add_seq, map_map. apply map_ext. intros k. f_equal. lia.
Qed.

Lemma zlen_fblock f d bn : fs_wf f -> zlen (fblock f d bn) = BSIZE.
Proof. intros Hf. unfold fblock. case_match; [done|apply Hf]. Qed.

(** A piece of a block. *)
Lemma fbytes_block f d off m : fs_wf f -> 0 <= off -> 0 <= m -> off mod BSIZE + m <= BSIZE ->
  slice (off mod BSIZE) m (fblock f d (off / BSIZE)) = fbytes f d off m.
Proof.
  intros Hf Ho Hm Hle. pose proof (zlen_fblock f d (off / BSIZE) Hf) as Hl.
  assert (0 <= off mod BSIZE < BSIZE) as Hmod by (apply Z.mod_pos_bound; done).
  apply list_eq. intros k. rewrite lookup_slice. unfold fbytes, zlen in *. case_decide as E.
  - rewrite list_lookup_fmap, lookup_seq_lt by done. simpl.
    unfold fbyte. assert ((off + Z.of_nat k) / BSIZE = off / BSIZE /\
      (off + Z.of_nat k) mod BSIZE = off mod BSIZE + Z.of_nat k) as [-> ->]
      by (unfold BSIZE in *; zlia).
    rewrite Z2Nat.inj_add, Nat2Z.id by lia.
    rewrite nth_lookup.
    destruct (lookup_lt_is_Some_2 (fblock f d (off / BSIZE)) (Z.to_nat (off mod BSIZE) + k)) as [x ->];
      [lia|done].
  - symmetry. apply lookup_ge_None. rewrite length_map, length_seq. lia.
Qed.

Lemma fbyte_same f f' d d' p : same_blocks f f' d d' -> 0 <= p < MAXBYTES -> fbyte f' d' p = fbyte f d p.
Proof.
  intros Hs Hp. unfold fbyte. rewrite Hs; [done|]. unfold MAXBYTES, BSIZE in *. zlia.
Qed.

Lemma fbytes_same f f' d d' off n : same_blocks f f' d d' -> 0 <= off -> off + n <= MAXBYTES ->
  fbytes f' d' off n = fbytes f d off n.
Proof.
  intros Hs Ho Hn. unfold fbytes. apply map_ext_in. intros k Hk%in_seq. apply fbyte_same; [done|lia].
Qed.

(** ** readi *)

Lemma readi_from_ok fuel i tot n off s : fs_wf (fb s) -> di_ok (fb s) (di s i) ->
  0 <= tot <= n -> n - tot <= Z.of_nat fuel -> 0 <= off -> off + (n - tot) <= MAXBYTES ->
  wp (readi_from fuel i tot n off) s
    (fun l s' => grows i s s' /\ l = fbytes (fb s) (di s i) off (n - tot))
    (fun w s' => w = Panicked "balloc: out of blocks" /\ disk_full (fb s')).
Proof.
  revert tot off s. induction fuel as [|fuel IH]; intros tot off s Hf Hd Ht Hfu Ho Hn.
  { simpl. destruct (tot <? n) eqn:E; bool_prop; [lia|]. step. split; [by apply grows_refl|].
    by replace (n - tot) with 0 by lia. }
  simpl. destruct (tot <? n) eqn:E; bool_prop; last first.
  { step. split; [by apply grows_refl|]. by replace (n - tot) with 0 by lia. }
  assert (0 <= off mod BSIZE < BSIZE) as Hmod by (apply Z.mod_pos_bound; done).
  step. eapply wp_mono; [apply bmap_ok; [done|done|]| |done].
  { unfold MAXBYTES, BSIZE in *. zlia. }
  intros a s1 (Hg & Ha & Hsl). fsteps. set (m := Z.min (n - tot) (BSIZE - off mod BSIZE)).
  eapply wp_mono; [apply (IH (tot + m) (off + m) s1); try apply Hg; lia| |done].
  intros l s2 (Hg2 & ->). fsteps. split; [by eapply grows_trans|].
  replace (n - tot) with (m + (n - (tot + m))) by lia. rewrite fbytes_split by lia. f_equal.
  - rewrite <- (fbytes_same _ (fb s1) _ (di s1 i)); [|apply Hg|lia|lia].
    rewrite <- fbytes_block; [|apply Hg|lia..]. unfold fblock. rewrite Hsl.
    destruct (a =? 0) eqn:Ea; [bool_prop; lia|done].
  - apply fbytes_same; [apply Hg|lia|lia].
Qed.

(** ** writei *)

(** As [grows], but the contents of the file may change. *)
Record evolves (i : nat) (s s' : fs) : Prop := {
  ev_wf : fs_wf (fb s');
  ev_sb : sbof (fb s') = sbof (fb s);
  ev_ok : di_ok (fb s') (di s' i);
  ev_others : undisturbed (fb s) (fb s') (di s i) (di s' i);
  ev_slots j : j <> i -> icache s' j = icache s j;
  ev_ip : exists l, icache s' i = set_di (set_addrs l (di s i)) (icache s i);
  ev_inodes b : 0 <= b < 3 + sb_ninodes (sbof (fb s)) / IPB -> fb s' b = fb s b;
  ev_cwd : cwd s' = cwd s;
  ev_keep k : 0 <= k < NSLOT -> slot (fb s) (di s i) k <> 0 ->
    slot (fb s') (di s' i) k = slot (fb s) (di s i) k }.

Lemma grows_evolves i s s' : grows i s s' -> evolves i s s'.
Proof. intros []. by split. Qed.

Lemma evolves_trans i s1 s2 s3 : evolves i s1 s2 -> evolves i s2 s3 -> evolves i s1 s3.
Proof.
  intros [A1 A2 A3 A5 A6 [l A7] A8 A9 A10] [B1 B2 B3 B5 B6 [l' B7] B8 B9 B10]. split; try done.
  - congruence.
  - intros e He Hd. destruct (A5 e He Hd) as (H1 & H2 & H3). destruct (B5 e H1 H2) as (H4 & H5 & H6).
    split; [done|]. split; [done|]. intros bn Hbn. rewrite H6 by done. by apply H3.
  - intros j Hj. rewrite B6 by done. by apply A6.
  - exists l'. rewrite B7. unfold di in *. rewrite A7. done.
  - intros b Hb. rewrite B8 by (by rewrite A2). by apply A8.
  - congruence.
  - intros k Hk Hnz. rewrite <- A10 by done. apply B10; [done|]. by rewrite A10.
Qed.

(** Storing in the [bn]-th block of the file. *)
Lemma store_block_ok s i bn x l : fs_wf (fb s) -> di_ok (fb s) (di s i) -> 0 <= bn < MAXFILE ->
  let a := slot (fb s) (di s i) (bslot bn) in
  a <> 0 -> zlen x = BSIZE ->
  let s' := set_flog l (set_fb (upd a x (fb s)) s) in
  evolves i s s' /\
  forall bn', 0 <= bn' < MAXFILE ->
    fblock (fb s') (di s' i) bn' = if decide (bn' = bn) then x else fblock (fb s) (di s i) bn'.
Proof.
  intros Hf Hd Hbn a Ha Hx s'. destruct (bslot_range bn Hbn) as [Hr Hne].
  destruct (do_data _ _ Hd _ Hr Ha) as [Ha1 Ha2].
  destruct (store_ok (fb s) a x Hf) as (Hsb & Hf' & Hu); [unfold a; lia|done|].
  pose proof (first_data_pos _ Hf) as H3.
  assert (forall k, slot (fb s') (di s' i) k = slot (fb s) (di s i) k) as Hsl.
  { intros k. apply (slot_ext (fb s)). intros Hnz. simpl. apply upd_ne. intros E.
    apply Hne. symmetry. apply (do_inj _ _ Hd); [done|done|done|exact E]. }
  split; [split|]; try done.
  - destruct Hd as [D1 D2 D3]. split; [done| |].
    + intros k Hk. rewrite Hsl. intros Hnz. change (fb s') with (upd a x (fb s)).
      rewrite Hsb, (first_data_eq _ _ Hsb).
      destruct (D2 k Hk Hnz) as [H1 H2]. split; [done|]. rewrite Hu; [done|lia].
    + intros k k' Hk Hk'. rewrite !Hsl. by apply D3.
  - intros e He Hdj. destruct (same_file (fb s) (fb s') e He Hsb) as (Hs & Hok & Hsm).
    { intros b Hb Hub (k & Hk & <-). split; [|rewrite <- Hub; apply Hu; lia]. simpl. apply upd_ne.
      intros E. by apply (Hdj (bslot bn) k). }
    split; [done|]. split; [|done]. intros k k' Hk Hk'. rewrite Hsl, Hs. by apply Hdj.
  - exists (di_addrs (di s i)). unfold s', di, set_addrs. simpl. by destruct (icache s i) as [? ? ? ? []].
  - intros b Hb. simpl. apply upd_ne. pose proof (inodes_before _ Hf). unfold a. lia.
  - intros bn' Hbn'. destruct (bslot_range bn' Hbn') as [Hr' Hne']. unfold fblock. rewrite Hsl. simpl.
    case_decide as E.
    + subst bn'. fold a. destruct (a =? 0) eqn:E0; bool_prop; [done|]. apply upd_eq.
    + destruct (slot (fb s) (di s i) (bslot bn') =? 0) eqn:E0; [done|]. bool_prop. apply upd_ne.
      intros E1. apply E. assert (bslot bn' = bslot bn) as E2 by (by apply (do_inj _ _ Hd)).
      unfold bslot, NDIRECT in E2. repeat case_match; bool_prop; lia.
Qed.

(** The bytes after a piece was stored. *)
Lemma fbyte_splice f f' d d' bn o x p : fs_wf f -> 0 <= bn < MAXFILE ->
  0 <= o -> o + zlen x <= BSIZE ->
  (forall bn', 0 <= bn' < MAXFILE ->
     fblock f' d' bn' = if decide (bn' = bn) then splice o x (fblock f d bn) else fblock f d bn') ->
  0 <= p < MAXBYTES ->
  fbyte f' d' p =
    if decide (bn * BSIZE + o <= p < bn * BSIZE + o + zlen x) then nth (Z.to_nat (p - (bn * BSIZE + o))) x 0
    else fbyte f d p.
Proof.
  intros Hf Hbn Ho Hx Hb Hp. unfold fbyte. rewrite Hb by (unfold MAXBYTES, BSIZE in *; zlia).
  assert (0 <= p mod BSIZE < BSIZE) as Hmod by (apply Z.mod_pos_bound; done).
  assert (p = p / BSIZE * BSIZE + p mod BSIZE) as Hpd by (unfold BSIZE; zlia).
  pose proof (zlen_nonneg x). pose proof (zlen_fblock f d bn Hf) as Hl. case_decide as E.
  - rewrite E in Hpd. rewrite !nth_lookup, lookup_splice by lia. unfold zlen in *. rewrite E.
    case_decide as E1.
    + rewrite decide_False by lia. done.
    + case_decide as E2.
      * rewrite decide_True by lia. do 2 f_equal. lia.
      * by rewrite decide_False by lia.
  - rewrite decide_False; [done|]. intros Hr. apply E. unfold BSIZE in *. zlia.
Qed.

Lemma evolves_refl i s : fs_wf (fb s) -> di_ok (fb s) (di s i) -> evolves i s s.
Proof. intros. by apply grows_evolves, grows_refl. Qed.

Lemma nth_slice o m x k : 0 <= o -> 0 <= k < m -> nth (Z.to_nat k) (slice o m x) 0 = nth (Z.to_nat (o + k)) x 0.
Proof.
  intros. rewrite !nth_lookup, lookup_slice. rewrite decide_True by lia. do 2 f_equal. lia.
Qed.

Lemma writei_from_ok fuel i src tot n off s : fs_wf (fb s) -> di_ok (fb s) (di s i) ->
  0 <= tot <= n -> n <= zlen src -> n - tot <= Z.of_nat fuel -> 0 <= off -> off + (n - tot) <= MAXBYTES ->
  wp (writei_from fuel i src tot n off) s
    (fun r s' => r = off + (n - tot) /\ evolves i s s' /\
       (forall p, 0 <= p < MAXBYTES -> fbyte (fb s') (di s' i) p =
         if decide (off <= p < off + (n - tot)) then nth (Z.to_nat (tot + (p - off))) src 0
         else fbyte (fb s) (di s i) p) /\
       forall p, off <= p < off + (n - tot) -> slot (fb s') (di s' i) (bslot (p / BSIZE)) <> 0)
    (fun w s' => w = Panicked "balloc: out of blocks" /\ disk_full (fb s')).
Proof.
  revert tot off s. induction fuel as [|fuel IH]; intros tot off s Hf Hd Ht Hsrc Hfu Ho Hn; simpl.
  { destruct (tot <? n) eqn:E; bool_prop; [lia|]. step. split; [lia|]. split; [by apply evolves_refl|].
    split; [intros p Hp; by rewrite decide_False by lia|lia]. }
  destruct (tot <? n) eqn:E; bool_prop; last first.
  { step. split; [lia|]. split; [by apply evolves_refl|].
    split; [intros p Hp; by rewrite decide_False by lia|lia]. }
  assert (0 <= off mod BSIZE < BSIZE) as Hmod by (apply Z.mod_pos_bound; done).
  assert (0 <= off / BSIZE < MAXFILE) as Hbn by (unfold MAXBYTES, BSIZE in *; zlia).
  step. eapply wp_mono; [by apply bmap_ok| |done].
  intros a s1 (Hg & Ha & Hsl). fsteps. set (m := Z.min (n - tot) (BSIZE - off mod BSIZE)).
  set (x := splice _ _ _).
  assert (zlen (slice tot m src) = m) as Hzs by (apply zlen_slice; lia).
  assert (zlen x = BSIZE) as Hx
    by (unfold x; rewrite zlen_splice; rewrite ?Hzs, ?(fw_len _ (gr_wf _ _ _ Hg)); lia).
  pose proof (gr_wf _ _ _ Hg) as Hf1. pose proof (gr_ok _ _ _ Hg) as Hd1. subst a.
  destruct (store_block_ok s1 i (off / BSIZE) x l Hf1 Hd1 Hbn Ha Hx) as [Hev Hblk].
  set (s2 := set_flog l _) in *. clearbody s2.
  eapply wp_mono; [apply (IH (tot + m) (off + m) s2); try apply Hev; lia| |done].
  intros r s3 (-> & Hev3 & Hby & Hnz). split; [lia|].
  split; [eapply evolves_trans; [by apply grows_evolves|by eapply evolves_trans]|].
  split; [|intros p Hp; destruct (decide (p / BSIZE = off / BSIZE)) as [->|Hne];
    [|apply Hnz; unfold BSIZE in *; zlia]].
  2:{ destruct (bslot_range _ Hbn) as [Hr _].
      assert (slot (fb s2) (di s2 i) (bslot (off / BSIZE)) = slot (fb s1) (di s1 i) (bslot (off / BSIZE)))
        as Hk2 by (by apply (ev_keep _ _ _ Hev)).
      rewrite (ev_keep _ _ _ Hev3); [|done|]; by rewrite Hk2. }
  intros p Hp. rewrite Hby by done.
  assert (off = off / BSIZE * BSIZE + off mod BSIZE) as Hod by (unfold BSIZE; zlia).
  destruct (decide (off + m <= p < off + m + (n - (tot + m)))) as [H1|H1].
  { rewrite decide_True by lia. do 2 f_equal. lia. }
  rewrite (fbyte_splice (fb s1) _ (di s1 i) _ (off / BSIZE) (off mod BSIZE) (slice tot m src)); try done.
  - rewrite <- Hod, Hzs. destruct (decide (off <= p < off + m)) as [H2|H2].
    + rewrite decide_True by lia. apply nth_slice; lia.
    + rewrite decide_False by lia. apply fbyte_same; [apply Hg|done].
  - lia.
  - rewrite Hzs. lia.
  - intros bn' Hbn'. rewrite Hblk by done. case_decide; [|done]. unfold x. f_equal. unfold fblock.
    destruct (slot (fb s1) (di s1 i) (bslot (off / BSIZE)) =? 0) eqn:E0; [bool_prop; done|done].
Qed.

(** ** iupdate *)

(** A store in an inode block disturbs no file contents. *)
Lemma inode_block_ok f b x : fs_wf f -> 2 <= b < 3 + sb_ninodes (sbof f) / IPB -> zlen x = BSIZE ->
  sbof (upd b x f) = sbof f /\ fs_wf (upd b x f) /\
  (forall j, 0 <= j < sb_size (sbof f) -> used (upd b x f) j = used f j) /\
  forall a, first_data f <= a -> upd b x f a = f a.
Proof.
  intros Hf Hb Hx. pose proof (inodes_before f Hf) as Hi. set (f' := upd b x f).
  assert (sbof f' = sbof f) as Hsb by (unfold sbof, f'; by rewrite upd_ne by lia).
  assert (forall j, 0 <= j < sb_size (sbof f) -> used f' j = used f j) as Hu.
  { intros j Hj. rewrite !used_bit by lia. unfold bblock at 1. rewrite Hsb. fold (bblock f j).
    unfold f'. rewrite upd_ne; [done|]. unfold bblock, BBLOCK.
    pose proof (Z.div_pos j BPB ltac:(lia) ltac:(by unfold BPB, BSIZE)). lia. }
  pose proof (first_data_eq _ _ Hsb) as Hfd. pose proof (fw_first f Hf) as Hff. fold (sbof f) in Hff.
  split; [done|]. split; [|split; [done|intros a Ha; unfold f'; apply upd_ne; lia]]. split.
  - intros j. unfold f', upd. case_decide; [done|apply Hf].
  - fold (sbof f'). rewrite Hsb. apply Hf.
  - fold (sbof f'). by rewrite Hfd, Hsb.
  - intros j Hj. rewrite Hfd in Hj. rewrite Hu by lia. by apply Hf.
Qed.

Lemma IBLOCK_range f k : 0 <= k < sb_ninodes (sbof f) -> 2 <= IBLOCK k < 3 + sb_ninodes (sbof f) / IPB.
Proof. intros. unfold IBLOCK. change IPB with 8. zlia. Qed.

(** What the disk says about inode [k]. *)
Definition disk_inode (f : Z -> list Z) (k : Z) : dinode := dinode_of k (f (IBLOCK k)).

Lemma disk_inode_put f k d j : fs_wf f -> dinode_wf d ->
  disk_inode (upd (IBLOCK k) (put_dinode k d (f (IBLOCK k))) f) j = if decide (j = k) then d else disk_inode f j.
Proof.
  intros Hf Hd. unfold disk_inode. pose proof (fw_len f Hf (IBLOCK k)) as Hl. case_decide as E.
  - subst. rewrite upd_eq. by apply dinode_of_put.
  - destruct (decide (IBLOCK j = IBLOCK k)) as [E'|E'].
    + rewrite E', upd_eq. apply dinode_of_put_ne; [done|apply Hd| |done].
      unfold IBLOCK in E'. lia.
    + by rewrite upd_ne.
Qed.

Lemma iupdate_ok s i : fs_wf (fb s) -> 0 <= inum (icache s i) < sb_ninodes (sbof (fb s)) ->
  dinode_wf (di s i) ->
  returns (iupdate i) s (fun _ s' => exists l f', s' = set_flog l (set_fb f' s) /\
    sbof f' = sbof (fb s) /\ fs_wf f' /\
    (forall j, disk_inode f' j = if decide (j = inum (icache s i)) then di s i else disk_inode (fb s) j) /\
    (forall e, di_ok (fb s) e -> (forall k, slot f' e k = slot (fb s) e k) /\ di_ok f' e /\
       same_blocks (fb s) f' e e)).
Proof.
  intros Hf Hi Hd. unfold iupdate. unfold returns. fsteps. fold (di s i).
  set (k := inum (icache s i)) in *. eexists _, _. split; [done|].
  destruct (inode_block_ok (fb s) (IBLOCK k) (put_dinode k (di s i) (fb s (IBLOCK k))) Hf)
    as (Hsb & Hf' & Hu & Ha).
  { by apply IBLOCK_range. } { apply zlen_put_dinode; [apply Hf|apply Hd]. }
  split; [done|]. split; [done|]. split; [intros j; by apply disk_inode_put|].
  intros e He. apply same_file; [done|done|]. intros a Har Hua _. pose proof (first_data_pos _ Hf).
  split; [apply Ha; lia|]. rewrite Hu; [done|lia].
Qed.

Lemma slot_addrs f d e k : di_addrs d = di_addrs e -> slot f d k = slot f e k.
Proof. unfold slot, addr. by intros ->. Qed.

Lemma di_ok_addrs f d e : di_addrs d = di_addrs e -> di_ok f d -> di_ok f e.
Proof.
  intros E [H1 H2 H3]. split.
  - by rewrite <- E.
  - intros k. rewrite <- (slot_addrs f d e) by done. apply H2.
  - intros k k'. rewrite <- !(slot_addrs f d e) by done. apply H3.
Qed.

Lemma fbyte_addrs f d e p : di_addrs d = di_addrs e -> fbyte f d p = fbyte f e p.
Proof. intros E. unfold fbyte, fblock. by rewrite (slot_addrs f d e). Qed.

(** A file that may be read and written. *)
Record file_ok (s : fs) (i : nat) : Prop := {
  fo_wf : fs_wf (fb s);
  fo_ok : di_ok (fb s) (di s i);
  fo_type : di_type (di s i) <> T_DEV;
  fo_size : 0 <= di_size (di s i) <= MAXBYTES;
  fo_inum : 0 <= inum (icache s i) < sb_ninodes (sbof (fb s));
  fo_fields : short (di_type (di s i)) /\ short (di_major (di s i)) /\ short (di_minor (di s i)) /\
    short (di_nlink (di s i)) }.

(** The pointers of a good inode are machine words. *)
Lemma di_ok_uint f d : fs_wf f -> di_ok f d -> Forall uint (di_addrs d).
Proof.
  intros Hf Hd. apply Forall_lookup. intros k a Hk. pose proof (lookup_lt_Some _ _ _ Hk) as Hlt.
  rewrite (do_len _ _ Hd) in Hlt. pose proof (first_data_pos f Hf). pose proof (fw_size f Hf).
  assert (slot f d (Z.of_nat k) = a) as E.
  { unfold slot, NDIRECT. destruct (Z.of_nat k <=? 12) eqn:E; bool_prop; [|lia].
    unfold addr. by rewrite Nat2Z.id, Hk. }
  destruct (decide (a = 0)) as [->|Hnz]; [done|].
  destruct (do_data _ _ Hd (Z.of_nat k)) as [H1 _]; [unfold NSLOT; lia|congruence|].
  rewrite E in H1. unfold uint, sbof in *. lia.
Qed.

(** The end of writei, when the file grew. *)
Lemma grow_size_ok s i sz : fs_wf (fb s) -> di_ok (fb s) (di s i) ->
  0 <= inum (icache s i) < sb_ninodes (sbof (fb s)) -> 0 <= sz < 2 ^ 32 ->
  short (di_type (di s i)) /\ short (di_major (di s i)) /\ short (di_minor (di s i)) /\
  short (di_nlink (di s i)) ->
  returns (change_di i (set_size sz) ;; iupdate i) s (fun _ s' =>
    fs_wf (fb s') /\ sbof (fb s') = sbof (fb s) /\
    icache s' i = set_di (set_size sz (di s i)) (icache s i) /\
    (forall j, j <> i -> icache s' j = icache s j) /\
    (forall j, disk_inode (fb s') j = if decide (j = inum (icache s i)) then di s' i else disk_inode (fb s) j) /\
    (forall e, di_ok (fb s) e -> (forall k, slot (fb s') e k = slot (fb s) e k) /\ di_ok (fb s') e /\
       same_blocks (fb s) (fb s') e e) /\ cwd s' = cwd s).
Proof.
  intros Hf Hd Hin Hsz (F1 & F2 & F3 & F4). unfold returns, change_di, change. steps.
  set (s1 := set_inode _ _ _).
  assert (icache s1 i = set_di (set_size sz (di s i)) (icache s i)) as Hic by (unfold s1; simpl; by rewrite upd_eq).
  assert (forall j, j <> i -> icache s1 j = icache s j) as Hoth by (intros j Hj; unfold s1; simpl; by apply upd_ne).
  assert (fb s1 = fb s /\ cwd s1 = cwd s) as [Hfb Hcwd] by done. clearbody s1.
  assert (di s1 i = set_size sz (di s i)) as Hdi by (unfold di at 1; by rewrite Hic).
  eapply wp_mono; [apply (iupdate_ok s1 i)| |done].
  - by rewrite Hfb.
  - by rewrite Hic, Hfb.
  - rewrite Hdi. split; try done. split; [apply Hd|exact (di_ok_uint _ _ Hf Hd)].
  - intros u s2 (l & f' & -> & Hsb & Hf' & Hdk & Hrest). rewrite Hfb in *. rewrite Hic in *.
    repeat (split; [done|]). done.
Qed.

Record written_file (i : nat) (src : list Z) (off n : Z) (s s' : fs) : Prop := {
  wf_ok : file_ok s' i;
  wf_sb : sbof (fb s') = sbof (fb s);
  wf_size : di_size (di s' i) = Z.max (di_size (di s i)) (off + n);
  wf_bytes p : 0 <= p < MAXBYTES -> fbyte (fb s') (di s' i) p =
    if decide (off <= p < off + n) then nth (Z.to_nat (p - off)) src 0 else fbyte (fb s) (di s i) p;
  wf_others : undisturbed (fb s) (fb s') (di s i) (di s' i);
  wf_slots j : j <> i -> icache s' j = icache s j;
  wf_disk j : 0 <= j < sb_ninodes (sbof (fb s)) -> j <> inum (icache s i) ->
    disk_inode (fb s') j = disk_inode (fb s) j;
  wf_self : di_size (di s i) < off + n -> disk_inode (fb s') (inum (icache s i)) = di s' i;
  wf_type : di_type (di s' i) = di_type (di s i) /\ inum (icache s' i) = inum (icache s i);
  wf_cwd : cwd s' = cwd s;
  wf_keep k : 0 <= k < NSLOT -> slot (fb s) (di s i) k <> 0 ->
    slot (fb s') (di s' i) k = slot (fb s) (di s i) k;
  wf_filled p : off <= p < off + n -> slot (fb s') (di s' i) (bslot (p / BSIZE)) <> 0;
  wf_flags : iref (icache s' i) = iref (icache s i) /\ ibusy (icache s' i) = ibusy (icache s i) /\
    ivalid (icache s' i) = ivalid (icache s i) }.

(** ** Files without holes *)

Definition filled (s : fs) (i : nat) (off n : Z) : Prop :=
  forall p, off <= p < off + n -> slot (fb s) (di s i) (bslot (p / BSIZE)) <> 0.

Lemma bmap_hit s i bn : 0 <= bn < MAXFILE -> slot (fb s) (di s i) (bslot bn) <> 0 ->
  bmap i bn s = Done (slot (fb s) (di s i) (bslot bn)) s.
Proof.
  change MAXFILE with 140. unfold bmap, bind, gets, ret, slot, bslot, bread. fold (di s i).
  change NINDIRECT with 128. unfold NDIRECT. intros Hbn. destruct (bn <? 12) eqn:E; bool_prop.
  - destruct (bn <=? 12) eqn:E1; bool_prop; [|lia]. intros Hnz.
    destruct (addr (di s i) bn =? 0) eqn:E2; bool_prop; [done|done].
  - destruct (bn + 1 <=? 12) eqn:E1; bool_prop; [lia|]. replace (bn + 1 - 13) with (bn - 12) by lia.
    destruct (bn - 12 <? 128) eqn:E3; bool_prop; [|lia].
    destruct (addr (di s i) 12 =? 0) eqn:E4; [done|]. intros Hnz.
    unfold gets. cbn beta iota.
    destruct (rd 4 (4 * (bn - 12)) (fb s (addr (di s i) 12)) =? 0) eqn:E5; bool_prop; [done|]. done.
Qed.

Lemma readi_from_pure fuel i tot n off s : fs_wf (fb s) ->
  0 <= tot <= n -> n - tot <= Z.of_nat fuel -> 0 <= off -> off + (n - tot) <= MAXBYTES ->
  filled s i off (n - tot) ->
  readi_from fuel i tot n off s = Done (fbytes (fb s) (di s i) off (n - tot)) s.
Proof.
  intros Hf. revert tot off. induction fuel as [|fuel IH]; intros tot off Ht Hfu Ho Hn Hfill; simpl.
  { destruct (tot <? n) eqn:E; bool_prop; [lia|]. by replace (n - tot) with 0 by lia. }
  destruct (tot <? n) eqn:E; bool_prop; [|by replace (n - tot) with 0 by lia].
  assert (0 <= off mod BSIZE < BSIZE) as Hmod by (apply Z.mod_pos_bound; done).
  assert (slot (fb s) (di s i) (bslot (off / BSIZE)) <> 0) as Hnz by (apply Hfill; lia).
  unfold bind at 1. rewrite bmap_hit; [|unfold MAXBYTES, BSIZE in *; zlia|done].
  unfold bind at 1, bread, gets. set (m := Z.min (n - tot) (BSIZE - off mod BSIZE)).
  unfold bind. rewrite IH; [|lia..|intros p Hp; apply Hfill; lia]. unfold ret. f_equal.
  assert (n - tot = m + (n - (tot + m))) as Em by lia. rewrite Em, fbytes_split by lia. f_equal.
  rewrite <- fbytes_block by (done || lia). unfold fblock.
  destruct (slot (fb s) (di s i) (bslot (off / BSIZE)) =? 0) eqn:E0; [bool_prop; done|done].
Qed.

Section rw_spec.
Context (devread : Z -> option (nat -> Z -> M fs (Z * list Z))).
Context (devwrite : Z -> option (nat -> list Z -> M fs Z)).

Lemma readi_ok i off n s : fs_wf (fb s) -> di_ok (fb s) (di s i) ->
  di_type (di s i) <> T_DEV -> 0 <= off <= di_size (di s i) -> di_size (di s i) <= MAXBYTES ->
  0 <= n -> off + n < 2 ^ 32 ->
  wp (readi devread i off n) s
    (fun r s' => grows i s s' /\
       r = (Z.min n (di_size (di s i) - off), fbytes (fb s) (di s i) off (Z.min n (di_size (di s i) - off))))
    (fun w s' => w = Panicked "balloc: out of blocks" /\ disk_full (fb s')).
Proof.
  intros Hf Hd Ht Ho Hs Hn Hon. unfold readi. steps. fold (di s i).
  destruct (di_type (di s i) =? T_DEV) eqn:E; bool_prop; [done|].
  rewrite u32_small by lia.
  destruct ((di_size (di s i) <? off) || (off + n <? off)) eqn:E1.
  { apply orb_true_iff in E1 as [E1|E1]; bool_prop; lia. }
  assert ((if di_size (di s i) <? off + n then di_size (di s i) - off else n) =
    Z.min n (di_size (di s i) - off)) as -> by (case_match; bool_prop; lia).
  set (m := Z.min n (di_size (di s i) - off)).
  step. eapply wp_mono; [apply (readi_from_ok _ i 0 m off s); try done; lia| |done].
  intros l s' (Hg & ->). step. rewrite Z.sub_0_r. done.
Qed.

Lemma writei_ok i src off n s : file_ok s i -> 0 <= off <= di_size (di s i) -> 0 < n ->
  off + n <= MAXBYTES -> n <= zlen src ->
  wp (writei devwrite i src off n) s
    (fun r s' => r = n /\ written_file i src off n s s')
    (fun w s' => w = Panicked "balloc: out of blocks" /\ disk_full (fb s')).
Proof.
  intros [Hf Hd Ht Hsz Hin (F1 & F2 & F3 & F4)] Ho Hn Hon Hsrc. unfold writei. steps. fold (di s i).
  destruct (di_type (di s i) =? T_DEV) eqn:E; bool_prop; [done|].
  assert (MAXBYTES = 71680) as HMB by done.
  rewrite u32_small by lia.
  destruct ((di_size (di s i) <? off) || (off + n <? off)) eqn:E1.
  { apply orb_true_iff in E1 as [E1|E1]; bool_prop; lia. }
  change (MAXFILE * BSIZE) with MAXBYTES.
  destruct (MAXBYTES <? off + n) eqn:E2; bool_prop; [lia|].
  step. eapply wp_mono; [apply (writei_from_ok _ i src 0 n off s); try done; lia| |done].
  intros r s1 (-> & Hev & Hby & Hnz). rewrite Z.sub_0_r in *. steps. fold (di s1 i).
  pose proof Hev as [V1 V2 V3 V4 V5 [l V6] V7 V8 V9].
  assert (di s1 i = set_addrs l (di s i)) as Hdi by (unfold di at 1; rewrite V6; done).
  assert (inum (icache s1 i) = inum (icache s i)) as Hin1 by (rewrite V6; done).
  assert (forall j, 0 <= j < sb_ninodes (sbof (fb s)) -> disk_inode (fb s1) j = disk_inode (fb s) j) as Hdk.
  { intros j Hj. unfold disk_inode. rewrite V7; [done|]. pose proof (IBLOCK_range (fb s) j). lia. }
  assert (di_size (di s1 i) = di_size (di s i)) as Hsz1 by (by rewrite Hdi).
  rewrite Hsz1. destruct (0 <? n) eqn:E3; bool_prop; [|lia]. cbn [andb].
  destruct (di_size (di s i) <? off + n) eqn:E4; bool_prop.
  - eapply wp_mono; [apply (grow_size_ok s1 i (off + n)); try done; [by rewrite Hin1, V2|lia|by rewrite Hdi]| |done].
    intros u s2 (Hf2 & Hsb2 & Hic & Hoth & Hdisk & Hrest & Hcwd). steps. split; [done|].
    assert (di s2 i = set_size (off + n) (di s1 i)) as Hdi2 by (unfold di at 1; by rewrite Hic).
    destruct (Hrest _ V3) as (Hsl & Hok2 & Hsm). split.
    + split; try done.
      * by rewrite Hdi2; apply (di_ok_addrs _ (di s1 i)).
      * by rewrite Hdi2, Hdi.
      * rewrite Hdi2. simpl. lia.
      * rewrite Hic, Hsb2, V2. simpl. by rewrite Hin1.
      * by rewrite Hdi2, Hdi.
    + congruence.
    + rewrite Hdi2. simpl. lia.
    + intros p Hp. rewrite Hdi2, (fbyte_addrs _ _ (di s1 i)), (fbyte_same (fb s1) _ (di s1 i)) by done.
      by apply Hby.
    + intros e He Hdj. destruct (V4 e He Hdj) as (H1 & H2 & H3).
      destruct (Hrest e H1) as (H4 & H5 & H6). split; [done|]. split.
      * intros k k' Hk Hk'. rewrite Hdi2, (slot_addrs _ _ (di s1 i)), Hsl, H4 by done. by apply H2.
      * intros bn Hbn. rewrite H6 by done. by apply H3.
    + intros j Hj. rewrite Hoth by done. by apply V5.
    + intros j Hj Hne. rewrite Hdisk, decide_False by congruence. by apply Hdk.
    + intros _. rewrite Hdisk, decide_True by done. done.
    + rewrite Hdi2, Hdi, Hic. simpl. by rewrite Hin1.
    + congruence.
    + intros k Hk Hk0. rewrite Hdi2, (slot_addrs _ _ (di s1 i)), Hsl by done. by apply V9.
    + intros p Hp. rewrite Hdi2, (slot_addrs _ _ (di s1 i)), Hsl by done. by apply Hnz.
    + rewrite Hic, V6. done.
  - steps. split; [done|]. split; try done.
    + split; try done; rewrite ?Hdi; try done. by rewrite Hin1, V2.
    + rewrite Hsz1. lia.
    + intros j Hj _. by apply Hdk.
    + lia.
    + by rewrite Hdi, Hin1.
    + by rewrite V6.
Qed.

(** Reading a file without holes changes nothing. *)
Lemma readi_pure i off n s : fs_wf (fb s) -> di_type (di s i) <> T_DEV ->
  0 <= off <= di_size (di s i) -> di_size (di s i) <= MAXBYTES -> 0 <= n -> off + n < 2 ^ 32 ->
  let m := Z.min n (di_size (di s i) - off) in
  filled s i off m ->
  readi devread i off n s = Done (m, fbytes (fb s) (di s i) off m) s.
Proof.
  intros Hf Ht Ho Hs Hn Hon m Hfill. unfold readi, bind, gets. fold (di s i).
  destruct (di_type (di s i) =? T_DEV) eqn:E; bool_prop; [done|].
  rewrite u32_small by lia.
  destruct ((di_size (di s i) <? off) || (off + n <? off)) eqn:E1.
  { apply orb_true_iff in E1 as [E1|E1]; bool_prop; lia. }
  assert ((if di_size (di s i) <? off + n then di_size (di s i) - off else n) = m) as ->
    by (unfold m; case_match; bool_prop; lia).
  rewrite readi_from_pure; rewrite ?Z.sub_0_r; try done; lia.
Qed.

End rw_spec.

(** ** A small file system: 200 blocks, 16 inodes, one empty file in slot 0 *)

Definition sample_sb : superblock := mkSb 200 164 16 30.
Definition sample_blocks (b : Z) : list Z :=
  if b =? 1 then splice 0 (sb_bytes sample_sb) zeros
  else if b =? 5 then wr 1 0 63 zeros
  else zeros.
Definition empty_dinode (t : Z) : dinode := mkDinode t 0 0 1 0 (replicate 13 0).
Definition sample_fs (t : Z) : fs :=
  mkFs sample_blocks [] (fun _ => mkInode 1 1 true true (empty_dinode t)) 0.

Lemma sample_wf : fs_wf sample_blocks.
Proof.
  split.
  - intros b. unfold sample_blocks. repeat case_match; reflexivity.
  - change (sb_size (sb_of_block (sample_blocks 1))) with 200. lia.
  - change (first_data sample_blocks) with 6. change (sb_size (sb_of_block (sample_blocks 1))) with 200. lia.
  - change (first_data sample_blocks) with 6. intros b Hb.
    assert (b = 0 \/ b = 1 \/ b = 2 \/ b = 3 \/ b = 4 \/ b = 5) as Hc by lia.
    destruct Hc as [->|[->|[->|[->|[->| ->]]]]]; reflexivity.
Qed.

Lemma empty_slots f t k : slot f (empty_dinode t) k = 0.
Proof.
  assert (forall j, addr (empty_dinode t) j = 0) as H.
  { intros j. unfold addr, empty_dinode. cbn [di_addrs].
    destruct (replicate 13 0 !! Z.to_nat j) eqn:E; [|done]. by apply lookup_replicate in E as [-> _]. }
  unfold slot. rewrite !H. by case_match.
Qed.

Lemma sample_file_ok t : t = T_FILE \/ t = T_DIR -> file_ok (sample_fs t) 0.
Proof.
  intros Ht. split; cbn [fb icache sample_fs].
  - exact sample_wf.
  - unfold di. cbn [icache sample_fs idi]. split; [done|..]; intros; by rewrite empty_slots in *.
  - unfold di. simpl. by destruct Ht as [-> | ->].
  - unfold di. simpl. done.
  - done.
  - unfold di, short. simpl. destruct Ht as [-> | ->]; unfold T_FILE, T_DIR; lia.
Qed.

