(* ===== verification/Dir.v ===== *)
(** * fs.c, directories and paths

    A directory is a file of 16-byte entries.  Strings are byte lists without their
    NUL; a name in an entry is padded with NULs to DIRSIZ bytes.  Theorems: dirlookup
    finds the first entry of a name; after dirlink the name is found with its inode
    number and every other name as before; skipelem splits a path at its slashes. *)

From S2P Require Import Prelude Bytes FsFormat Fs Inode InodeData.

(** ** Strings *)

(** strncmp on NUL-terminated strings. *)
Fixpoint strncmp (n : nat) (p q : list Z) : Z :=
  match n with
  | O => 0
  | S n =>
      let a := hd 0 p in
      let b := hd 0 q in
      if negb (a =? 0) && (a =? b) then strncmp n (tl p) (tl q) else u8 a - u8 b
  end.

(** strncpy: up to the NUL, then NULs up to [n] bytes. *)
Fixpoint strncpy (n : nat) (t : list Z) : list Z :=
  match n with
  | O => []
  | S n => hd 0 t :: (if hd 0 t =? 0 then replicate n 0 else strncpy n (tl t))
  end.

Definition namecmp (s t : list Z) : Z := strncmp (Z.to_nat DIRSIZ) s t.

Section dirs.
Context (devread : Z -> option (nat -> Z -> M fs (Z * list Z))).
Context (devwrite : Z -> option (nat -> list Z -> M fs Z)).

(** ** Directories *)

Fixpoint dirlookup_from (fuel : nat) (dp : nat) (name : list Z) (off : Z) : M fs (option (nat * Z)) :=
  let! size := gets (fun s => di_size (di s dp)) in
  if off <? size then
    match fuel with
    | O => halt Diverged
    | S fuel =>
        let! '(r, l) := readi devread dp off dirent_sz in
        if negb (r =? dirent_sz) then panic "dirlink read"
        else
          let de := dirent_of l in
          if de_inum de =? 0 then dirlookup_from fuel dp name (off + dirent_sz)
          else if namecmp name (de_name de) =? 0 then
            let! ip := iget (de_inum de) in
            ret (Some (ip, off))
          else dirlookup_from fuel dp name (off + dirent_sz)
    end
  else ret None.

Definition dirlookup (dp : nat) (name : list Z) : M fs (option (nat * Z)) :=
  let! d := gets (fun s => di s dp) in
  if negb (di_type d =? T_DIR) then panic "dirlookup not DIR"
  else dirlookup_from (Z.to_nat (di_size d)) dp name 0.

(** The loop that looks for an empty entry. *)
Fixpoint free_entry (fuel : nat) (dp : nat) (off : Z) : M fs Z :=
  let! size := gets (fun s => di_size (di s dp)) in
  if off <? size then
    match fuel with
    | O => halt Diverged
    | S fuel =>
        let! '(r, l) := readi devread dp off dirent_sz in
        if negb (r =? dirent_sz) then panic "dirlink read"
        else if de_inum (dirent_of l) =? 0 then ret off
        else free_entry fuel dp (off + dirent_sz)
    end
  else ret off.

Definition dirlink (dp : nat) (name : list Z) (n : Z) : M fs Z :=
  let! r := dirlookup dp name in
  match r with
  | Some (ip, _) => iput ip ;; ret (-1)
  | None =>
      let! size := gets (fun s => di_size (di s dp)) in
      let! off := free_entry (Z.to_nat size) dp 0 in
      let! w := writei devwrite dp (dirent_bytes (mkDirent n (strncpy (Z.to_nat DIRSIZ) name)))
                  off dirent_sz in
      if negb (w =? dirent_sz) then panic "dirlink" else ret 0
  end.

(** ** Paths *)

Definition slash : Z := 47.

Fixpoint skip_slashes (path : list Z) : list Z :=
  match path with
  | c :: path' => if c =? slash then skip_slashes path' else path
  | [] => []
  end.

Fixpoint take_elem (path : list Z) : list Z * list Z :=
  match path with
  | c :: path' => if c =? slash then ([], path) else let (s, rest) := take_elem path' in (c :: s, rest)
  | [] => ([], [])
  end.

(** The rest of the path and the name, of at most DIRSIZ bytes. *)
Definition skipelem (path : list Z) : option (list Z * list Z) :=
  match skip_slashes path with
  | [] => None
  | path =>
      let (s, rest) := take_elem path in
      Some (skip_slashes rest, take (Z.to_nat DIRSIZ) s)
  end.

Fixpoint namex_from (fuel : nat) (ip : nat) (path name : list Z) (parent : bool)
  : M fs (option nat * list Z) :=
  match skipelem path with
  | None => if parent then iput ip ;; ret (None, name) else ret (Some ip, name)
  | Some (path, name) =>
      match fuel with
      | O => halt Diverged
      | S fuel =>
          ilock ip ;;
          let! d := gets (fun s => di s ip) in
          if negb (di_type d =? T_DIR) then iunlockput ip ;; ret (None, name)
          else if parent && (if decide (path = []) then true else false) then
            iunlock ip ;; ret (Some ip, name)
          else
            let! next := dirlookup ip name in
            match next with
            | None => iunlockput ip ;; ret (None, name)
            | Some (next, _) => iunlockput ip ;; namex_from fuel next path name parent
            end
      end
  end.

(** The inode, if any, and the name left in the caller's buffer. *)
Definition namex (path : list Z) (parent : bool) : M fs (option nat * list Z) :=
  let! ip :=
    (if hd 0 path =? slash then iget ROOTINO
     else let! c := gets cwd in idup c) in
  namex_from (length path) ip path [] parent.

Definition namei (path : list Z) : M fs (option nat) :=
  let! '(r, _) := namex path false in ret r.

Definition nameiparent (path : list Z) : M fs (option nat * list Z) := namex path true.
End dirs.

(** ** skipelem splits paths *)

(** The pieces between slashes. *)
Fixpoint split_path (path : list Z) : list (list Z) :=
  match path with
  | [] => [[]]
  | c :: path =>
      if c =? slash then [] :: split_path path
      else match split_path path with
           | e :: es => (c :: e) :: es
           | [] => [[c]]
           end
  end.

Definition nonempty (e : list Z) : bool := match e with [] => false | _ => true end.

(** The elements of a path: the non-empty pieces, cut to DIRSIZ bytes. *)
Definition elems (path : list Z) : list (list Z) :=
  map (take (Z.to_nat DIRSIZ)) (List.filter nonempty (split_path path)).

Lemma split_path_cons path : exists e es, split_path path = e :: es.
Proof.
  induction path as [|c path (e & es & IH)]; simpl; [by eexists _, _|].
  destruct (c =? slash); [by eexists _, _|]. rewrite IH. by eexists _, _.
Qed.

Lemma elems_skip_slashes path : elems (skip_slashes path) = elems path.
Proof.
  induction path as [|c path IH]; simpl; [done|]. destruct (c =? slash) eqn:E; [|done].
  unfold elems at 2. simpl. rewrite E. simpl. apply IH.
Qed.

Lemma skip_slashes_hd path : skip_slashes path = [] \/ hd 0 (skip_slashes path) <> slash.
Proof.
  induction path as [|c path IH]; simpl; [by left|]. destruct (c =? slash) eqn:E; [done|].
  right. simpl. by bool_prop.
Qed.

Lemma skip_slashes_len path : (length (skip_slashes path) <= length path)%nat.
Proof. induction path as [|c path IH]; simpl; [done|]. destruct (c =? slash); simpl; lia. Qed.

Lemma take_elem_spec path s rest : take_elem path = (s, rest) ->
  (hd 0 rest = slash \/ rest = []) /\ path = s ++ rest /\
  exists es, split_path path = s :: es /\ List.filter nonempty es = List.filter nonempty (split_path rest).
Proof.
  revert s rest. induction path as [|c path IH]; intros s rest; simpl.
  - intros [= <- <-]. split; [by right|]. split; [done|]. by exists [].
  - destruct (c =? slash) eqn:E.
    + intros [= <- <-]. bool_prop. subst c. split; [by left|]. split; [done|].
      exists (split_path path). split; [done|]. simpl. done.
    + destruct (take_elem path) as [s' rest'] eqn:Et. intros [= <- <-].
      destruct (IH s' rest' eq_refl) as (H1 & -> & es & H2 & H3). split; [done|]. split; [done|].
      rewrite H2. by exists es.
Qed.

(** Any path that starts with something else than a slash has an element. *)
Lemma elems_nonempty c path : c <> slash -> elems (c :: path) <> [].
Proof.
  intros Hc. unfold elems. simpl. destruct (c =? slash) eqn:E; [by bool_prop|].
  destruct (split_path_cons path) as (e & es & ->). done.
Qed.

Lemma skipelem_elems path :
  match skipelem path with
  | None => elems path = []
  | Some (rest, name) =>
      elems path = name :: elems rest /\ (length rest < length path)%nat /\
      (rest = [] <-> elems rest = [])
  end.
Proof.
  unfold skipelem. rewrite <- (elems_skip_slashes path).
  pose proof (skip_slashes_len path). pose proof (skip_slashes_hd path) as Hhd.
  destruct (skip_slashes path) as [|c p] eqn:Ep; [done|]. destruct Hhd as [?|Hhd]; [done|]. simpl in Hhd.
  destruct (take_elem (c :: p)) as [s rest] eqn:Et.
  destruct (take_elem_spec _ _ _ Et) as (Hr & Hcp & es & Hs & Hes).
  assert (s <> []) as Hne.
  { intros ->. simpl in Hcp. subst rest. destruct Hr as [Hr|Hr]; [by simpl in Hr|done]. }
  split; [|split].
  - rewrite elems_skip_slashes. unfold elems. rewrite Hs. destruct s; [done|]. simpl. by rewrite Hes.
  - pose proof (skip_slashes_len rest). rewrite Hcp, length_app in H. destruct s; [done|]. simpl in H. lia.
  - pose proof (skip_slashes_hd rest) as Hh. split; [by intros ->|].
    destruct (skip_slashes rest) as [|c' r]; [done|]. destruct Hh as [?|Hh]; [done|].
    intros E. by destruct (elems_nonempty c' r).
Qed.

(** ** Looking up names *)

Definition dent (f : Z -> list Z) (d : dinode) (k : nat) : dirent :=
  dirent_of (fbytes f d (16 * Z.of_nat k) 16).

Definition matches (name : list Z) (e : dirent) : bool :=
  negb (de_inum e =? 0) && (namecmp name (de_name e) =? 0).

(** The first entry of a name, among those from [k] on. *)
Definition find_entry (f : Z -> list Z) (d : dinode) (name : list Z) : option nat :=
  List.find (fun k => matches name (dent f d k)) (seq 0 (Z.to_nat (di_size d / 16))).

(** The inode number a directory gives a name. *)
Definition dir_inum (f : Z -> list Z) (d : dinode) (name : list Z) : option Z :=
  match find_entry f d name with
  | Some k => Some (de_inum (dent f d k))
  | None => None
  end.

Record dir_ok (s : fs) (dp : nat) : Prop := {
  dr_file : file_ok s dp;
  dr_type : di_type (di s dp) = T_DIR;
  dr_size : di_size (di s dp) mod 16 = 0;
  dr_full : filled s dp 0 (di_size (di s dp)) }.

Definition nents (dp : nat) (s : fs) : nat := Z.to_nat (di_size (di s dp) / 16).

Lemma nents_size dp s : dir_ok s dp -> 16 * Z.of_nat (nents dp s) = di_size (di s dp).
Proof.
  intros Hdir. unfold nents. pose proof (dr_size _ _ Hdir). destruct Hdir as [[_ _ _ Hs _ _] _ _ _].
  rewrite Z2Nat.id by zlia. zlia.
Qed.

Section lookup.
Context (devread : Z -> option (nat -> Z -> M fs (Z * list Z))).
Context (devwrite : Z -> option (nat -> list Z -> M fs Z)).
Context (dp : nat) (s : fs).
Hypothesis Hdir : dir_ok s dp.

Lemma read_entry k : (k < (nents dp s))%nat ->
  readi devread dp (16 * Z.of_nat k) dirent_sz s =
    Done (16, fbytes (fb s) (di s dp) (16 * Z.of_nat k) 16) s.
Proof.
  intros Hk. pose proof (nents_size dp s Hdir) as Hn. destruct Hdir as [[Hf _ Ht Hs _ _] _ _ Hfull].
  assert (MAXBYTES = 71680) as HM by done.
  rewrite readi_pure; unfold dirent_sz; try done; try lia.
  - by replace (Z.min 16 (di_size (di s dp) - 16 * Z.of_nat k)) with 16 by lia.
  - intros p Hp. apply Hfull. lia.
Qed.

Lemma dirlookup_from_run fuel name k : (k <= (nents dp s))%nat -> ((nents dp s) - k <= fuel)%nat ->
  dirlookup_from devread fuel dp name (16 * Z.of_nat k) s =
    match List.find (fun k => matches name (dent (fb s) (di s dp) k)) (seq k ((nents dp s) - k)) with
    | Some j => (let! ip := iget (de_inum (dent (fb s) (di s dp) j)) in
                 ret (Some (ip, 16 * Z.of_nat j))) s
    | None => Done None s
    end.
Proof.
  revert k. pose proof (nents_size dp s Hdir) as Hn. induction fuel as [|fuel IH]; intros k Hk Hfu.
  - assert (k = (nents dp s)) as -> by lia. rewrite Nat.sub_diag. cbn [dirlookup_from seq List.find].
    unfold bind, gets. rewrite Hn, Z.ltb_irrefl. done.
  - cbn [dirlookup_from]. unfold bind at 1, gets at 1. destruct (decide (k = (nents dp s))) as [->|Hne].
    { rewrite Nat.sub_diag, Hn, Z.ltb_irrefl. done. }
    destruct (16 * Z.of_nat k <? di_size (di s dp)) eqn:E; bool_prop; [|lia].
    unfold bind at 1. rewrite read_entry by lia. cbn [negb]. change (16 =? dirent_sz) with true. cbn [negb].
    replace ((nents dp s) - k)%nat with (S ((nents dp s) - S k)) by lia. cbn [seq List.find].
    fold (dent (fb s) (di s dp) k). unfold matches at 1.
    replace (16 * Z.of_nat k + dirent_sz) with (16 * Z.of_nat (S k)) by (unfold dirent_sz; lia).
    destruct (de_inum (dent (fb s) (di s dp) k) =? 0); cbn [negb andb]; [apply IH; lia|].
    destruct (namecmp name (de_name (dent (fb s) (di s dp) k)) =? 0); [done|]. apply IH; lia.
Qed.

(** dirlookup returns the inode of the first entry with the name. *)
Lemma dirlookup_run name :
  dirlookup devread dp name s =
    match find_entry (fb s) (di s dp) name with
    | Some k => (let! ip := iget (de_inum (dent (fb s) (di s dp) k)) in
                 ret (Some (ip, 16 * Z.of_nat k))) s
    | None => Done None s
    end.
Proof.
  unfold dirlookup, bind at 1, gets. rewrite (dr_type _ _ Hdir). cbn [negb]. change (T_DIR =? T_DIR) with true.
  cbn [negb]. pose proof (nents_size dp s Hdir) as Hn.
  change 0 with (16 * Z.of_nat 0). rewrite dirlookup_from_run by lia. by rewrite Nat.sub_0_r.
Qed.
End lookup.

(** ** Adding names *)

Lemma strncmp_strncpy n p q : strncmp n p (strncpy n q) = strncmp n p q.
Proof.
  revert p q. induction n as [|n IH]; intros p q; [done|]. simpl.
  destruct (hd 0 p =? 0) eqn:E1; simpl; [done|]. destruct (hd 0 p =? hd 0 q) eqn:E2; [|done].
  bool_prop. destruct (hd 0 q =? 0) eqn:E3; bool_prop; [congruence|]. apply IH.
Qed.

Lemma zlen_strncpy n t : zlen (strncpy n t) = Z.of_nat n.
Proof.
  unfold zlen. revert t. induction n as [|n IH]; intros t; [done|]. cbn [strncpy length].
  rewrite !Nat2Z.inj_succ. f_equal. case_match; [by rewrite length_replicate|apply IH].
Qed.

Lemma namecmp_refl t : namecmp t t = 0.
Proof.
  unfold namecmp. generalize (Z.to_nat DIRSIZ) as n. intros n. revert t.
  induction n as [|n IH]; intros t; [done|]. simpl. rewrite Z.eqb_refl, andb_true_r.
  case_match; [apply IH|lia].
Qed.

Lemma find_ext {A} (f g : A -> bool) l : (forall x, In x l -> f x = g x) -> List.find f l = List.find g l.
Proof.
  induction l as [|x l IH]; intros H; [done|]. simpl. rewrite H by (by left). case_match; [done|].
  apply IH. intros y Hy. apply H. by right.
Qed.

Lemma find_app {A} (f : A -> bool) l k :
  List.find f (l ++ k) = match List.find f l with Some x => Some x | None => List.find f k end.
Proof. induction l as [|x l IH]; simpl; [done|]. rewrite IH. by destruct (f x). Qed.

Lemma find_only (f : nat -> bool) k l : In k l -> f k = true -> (forall x, In x l -> f x = true -> x = k) ->
  List.find f l = Some k.
Proof.
  intros Hin Hk Ho. destruct (List.find f l) as [x|] eqn:E.
  - apply find_some in E as [H1 H2]. f_equal. by apply Ho.
  - apply (find_none _ _ E) in Hin. congruence.
Qed.

Section link.
Context (devread : Z -> option (nat -> Z -> M fs (Z * list Z))).
Context (devwrite : Z -> option (nat -> list Z -> M fs Z)).
Context (dp : nat) (s : fs).
Hypothesis Hdir : dir_ok s dp.

Lemma free_entry_run fuel k : (k <= nents dp s)%nat -> (nents dp s - k <= fuel)%nat ->
  exists j, (k <= j <= nents dp s)%nat /\
    free_entry devread fuel dp (16 * Z.of_nat k) s = Done (16 * Z.of_nat j) s /\
    ((j < nents dp s)%nat -> de_inum (dent (fb s) (di s dp) j) = 0).
Proof.
  revert k. pose proof (nents_size dp s Hdir) as Hn. induction fuel as [|fuel IH]; intros k Hk Hfu.
  - assert (k = nents dp s) as -> by lia. exists (nents dp s). split; [lia|]. split; [|lia].
    cbn [free_entry]. unfold bind, gets. by rewrite Hn, Z.ltb_irrefl.
  - cbn [free_entry]. unfold bind at 1, gets at 1. destruct (decide (k = nents dp s)) as [->|Hne].
    { exists (nents dp s). split; [lia|]. split; [|lia]. by rewrite Hn, Z.ltb_irrefl. }
    destruct (16 * Z.of_nat k <? di_size (di s dp)) eqn:E; bool_prop; [|lia].
    unfold bind at 1. rewrite read_entry by (done || lia). change (16 =? dirent_sz) with true. cbn [negb].
    fold (dent (fb s) (di s dp) k).
    replace (16 * Z.of_nat k + dirent_sz) with (16 * Z.of_nat (S k)) by (unfold dirent_sz; lia).
    destruct (de_inum (dent (fb s) (di s dp) k) =? 0) eqn:E0; bool_prop.
    + exists k. split; [lia|]. done.
    + destruct (IH (S k)) as (j & Hj & He & Hz); [lia|lia|]. exists j. split; [lia|done].
Qed.

(** The directory after entry [k] was written. *)
Lemma written_entry k e s' : (k <= nents dp s)%nat -> 0 <= de_inum e < 2 ^ 16 -> zlen (de_name e) = DIRSIZ ->
  di_size (di s dp) + 16 <= MAXBYTES ->
  written_file dp (dirent_bytes e) (16 * Z.of_nat k) 16 s s' ->
  dir_ok s' dp /\
  nents dp s' = Nat.max (nents dp s) (S k) /\
  forall j, (j < nents dp s')%nat ->
    dent (fb s') (di s' dp) j = if decide (j = k) then e else dent (fb s) (di s dp) j.
Proof.
  intros Hk Hin Hnm Hmax Hw. pose proof (nents_size dp s Hdir) as Hn. pose proof (wf_size _ _ _ _ _ _ Hw) as Hsz.
  pose proof Hdir as [Hfo Hty Hm Hfull]. pose proof (wf_type _ _ _ _ _ _ Hw) as [Hty' _].
  assert (dir_ok s' dp) as Hd'.
  { split; [apply Hw|congruence|rewrite Hsz; zlia|].
    intros p Hp. destruct (decide (16 * Z.of_nat k <= p < 16 * Z.of_nat k + 16)) as [H1|H1].
    - by apply (wf_filled _ _ _ _ _ _ Hw).
    - assert (0 <= p < di_size (di s dp)) as Hp' by lia.
      pose proof (Hfull p ltac:(lia)) as Hnz. pose proof (fo_size _ _ Hfo).
      destruct (bslot_range (p / BSIZE)) as [Hr _]; [unfold MAXBYTES, BSIZE in *; zlia|].
      rewrite (wf_keep _ _ _ _ _ _ Hw); done. }
  pose proof (nents_size dp s' Hd') as Hn'. split; [done|]. split; [lia|].
  intros j Hj. unfold dent. assert (zlen (dirent_bytes e) = 16) as Hz.
  { unfold dirent_bytes. rewrite zlen_app, zlen_le_bytes, Hnm. unfold DIRSIZ. lia. }
  pose proof (fo_size _ _ (dr_file _ _ Hd')) as Hmx. case_decide as E.
  - subst j. assert (fbytes (fb s') (di s' dp) (16 * Z.of_nat k) 16 = dirent_bytes e) as ->;
      [|by apply dirent_of_bytes].
    apply list_eq. intros i. unfold fbytes, zlen in *. rewrite list_lookup_fmap.
    destruct (decide (i < Z.to_nat 16)%nat) as [Hi|Hi].
    + rewrite lookup_seq_lt by done. simpl fmap. rewrite (wf_bytes _ _ _ _ _ _ Hw) by lia.
      rewrite decide_True by lia. replace (Z.to_nat _) with i by lia. rewrite nth_lookup.
      destruct (lookup_lt_is_Some_2 (dirent_bytes e) i) as [x ->]; [lia|done].
    + rewrite lookup_seq_ge by lia. symmetry. apply lookup_ge_None. lia.
  - f_equal. unfold fbytes. apply map_ext_in. intros i Hi%in_seq.
    rewrite (wf_bytes _ _ _ _ _ _ Hw) by lia. rewrite decide_False by lia. done.
Qed.

(** dirlink of a new name. *)
Lemma dirlink_ok name n : find_entry (fb s) (di s dp) name = None -> 0 < n < 2 ^ 16 ->
  di_size (di s dp) + 16 <= MAXBYTES ->
  wp (dirlink devread devwrite dp name n) s
    (fun r s' => r = 0 /\ dir_ok s' dp /\ dir_inum (fb s') (di s' dp) name = Some n /\
       (forall name', namecmp name' name <> 0 ->
          dir_inum (fb s') (di s' dp) name' = dir_inum (fb s) (di s dp) name') /\
       undisturbed (fb s) (fb s') (di s dp) (di s' dp))
    (fun w s' => w = Panicked "balloc: out of blocks" /\ disk_full (fb s')).
Proof.
  intros Hnone Hn Hmax. unfold dirlink. step. eapply wp_run; [rewrite dirlookup_run, Hnone by done; done|].
  cbn beta iota. steps. destruct (free_entry_run (Z.to_nat (di_size (di s dp))) 0) as (k & Hk & He & Hz); [lia| |].
  { pose proof (nents_size dp s Hdir). lia. }
  eapply wp_run; [exact He|]. cbn beta. step. pose proof (nents_size dp s Hdir) as Hsz.
  set (e := mkDirent n (strncpy (Z.to_nat DIRSIZ) name)).
  assert (zlen (de_name e) = DIRSIZ) as Hnm by (apply (zlen_strncpy (Z.to_nat DIRSIZ))).
  assert (zlen (dirent_bytes e) = 16) as Hb.
  { unfold dirent_bytes. rewrite zlen_app, zlen_le_bytes, Hnm. unfold DIRSIZ. lia. }
  eapply wp_mono; [apply writei_ok; [apply Hdir|lia|done|unfold dirent_sz; lia|unfold dirent_sz; lia]| |done].
  intros r s' (-> & Hw). cbn [negb]. change (dirent_sz =? dirent_sz) with true. cbn [negb]. step.
  destruct (written_entry k e s' ltac:(lia) ltac:(simpl; lia) Hnm Hmax Hw) as (Hd' & Hns & Hent).
  assert (forall nm, namecmp nm (de_name e) = namecmp nm name) as Hcmp by (intros nm; apply strncmp_strncpy).
  assert (forall j, In j (seq 0 (nents dp s)) -> matches name (dent (fb s) (di s dp) j) = false) as Hno
    by (by apply find_none).
  split; [done|]. split; [done|]. split; [|split; [|apply Hw]].
  - unfold dir_inum, find_entry. fold (nents dp s'). rewrite (find_only _ k).
    + rewrite Hent by lia. by rewrite decide_True.
    + apply in_seq. lia.
    + rewrite Hent, decide_True by (done || lia). unfold matches. rewrite Hcmp, namecmp_refl. simpl.
      destruct (n =? 0) eqn:E; bool_prop; [lia|done].
    + intros j Hj%in_seq Hm. rewrite Hent in Hm by lia. case_decide as E; [done|].
      rewrite Hno in Hm; [done|]. apply in_seq. lia.
  - intros nm Hne. assert (matches nm e = false) as Hme.
    { unfold matches. rewrite Hcmp. destruct (namecmp nm name =? 0) eqn:E; bool_prop; [done|]. apply andb_false_r. }
    assert (forall j, (j < nents dp s)%nat ->
      matches nm (dent (fb s') (di s' dp) j) = matches nm (dent (fb s) (di s dp) j)) as Hsame.
    { intros j Hj. rewrite Hent by lia. case_decide as E; [|done]. subst j. rewrite Hme. unfold matches.
      by rewrite Hz. }
    assert (find_entry (fb s') (di s' dp) nm = find_entry (fb s) (di s dp) nm) as Hf.
    { unfold find_entry. fold (nents dp s') (nents dp s). destruct (decide (k < nents dp s)%nat) as [Hlt|Hge].
      - replace (nents dp s') with (nents dp s) by lia. apply find_ext. intros j Hj%in_seq. apply Hsame. lia.
      - assert (k = nents dp s) as -> by lia. replace (nents dp s') with (nents dp s + 1)%nat by lia.
        rewrite seq_app, find_app. simpl.
        rewrite (find_ext _ (fun j => matches nm (dent (fb s) (di s dp) j)))
          by (intros j Hj%in_seq; apply Hsame; lia).
        rewrite Hent, decide_True, Hme by (done || lia). by case_match. }
    unfold dir_inum. rewrite Hf. destruct (find_entry (fb s) (di s dp) nm) as [j|] eqn:Ej; [|done].
    apply find_some in Ej as [Hj%in_seq Hmj]. do 2 f_equal. fold (nents dp s) in Hj.
    rewrite Hent by lia. case_decide as E; [|done]. subst j. unfold matches in Hmj.
    rewrite Hz in Hmj by lia. done.
Qed.
End link.
