(* ===== verification/FsTheorems.v ===== *)
(** * The file system: theorems

    The properties of fs.c that the earlier files prepare, on the block allocator, the
    directories and the paths, each at a small concrete file system as well. *)

From S2P Require Import Prelude Bytes FsFormat Fs Inode InodeData Dir.

(** C29. balloc gives the lowest free block, marks it used and no other, zeroes it, and
    leaves every other data block and every inode block alone; bfree of that block makes
    it free again and no other.  When every block is in use, balloc panics. *)
Theorem balloc_spec (s : fs) : fs_wf (fb s) ->
  wp balloc s
    (fun b s' => 0 <= b < sb_size (sbof (fb s)) /\ used (fb s) b = false /\
       (forall j, 0 <= j < b -> used (fb s) j = true) /\
       fs_wf (fb s') /\ fb s' b = zeros /\
       (forall j, 0 <= j < sb_size (sbof (fb s)) -> used (fb s') j = (j =? b) || used (fb s) j) /\
       (forall j, first_data (fb s) <= j -> j <> b -> fb s' j = fb s j) /\
       (forall j, 0 <= j < 3 + sb_ninodes (sbof (fb s)) / IPB -> fb s' j = fb s j) /\
       returns (bfree b) s' (fun _ s2 => fs_wf (fb s2) /\
         forall j, 0 <= j < sb_size (sbof (fb s)) -> used (fb s2) j = used (fb s) j))
    (fun w s' => w = Panicked "balloc: out of blocks" /\ s' = s /\ disk_full (fb s)).
Proof.
  intros Hf. eapply wp_mono; [by apply balloc_ok| |done].
  intros b s' (Hb & Hu & Hlow & l & ->). cbn [fb set_flog set_fb].
  destruct (allocated_ok (fb s) b Hf Hb Hu) as (Hsb & Hf' & Hu' & Hs').
  pose proof (free_not_meta _ _ Hf (proj1 Hb) Hu) as Hm.
  repeat (split; [done|]). split; [apply upd_eq|]. repeat (split; [done|]).
  split; [intros j Hj; by apply allocated_inodes|].
  eapply returns_mono; [apply bfree_ok; cbn [fb set_flog set_fb]|].
  - done.
  - rewrite (first_data_eq _ _ Hsb), Hsb. lia.
  - rewrite Hu' by done. by rewrite Z.eqb_refl.
  - intros u s2 (l2 & ->). cbn [fb set_flog set_fb].
    destruct (unmark_ok (allocated b (fb s)) b Hf') as (_ & Hf2 & Hu2);
      [rewrite (first_data_eq _ _ Hsb), Hsb; lia|].
    split; [done|]. intros j Hj. rewrite Hu2, Hu' by lia.
    destruct (Z.eqb_spec j b) as [->|]; [by rewrite Hu|done].
Qed.

Lemma balloc_spec_witness :
  wp balloc (sample_fs T_FILE) (fun b s' => fb s' b = zeros)
    (fun w s' => w = Panicked "balloc: out of blocks" /\ s' = sample_fs T_FILE /\ disk_full sample_blocks).
Proof.
  eapply wp_mono; [apply (balloc_spec (sample_fs T_FILE))| |].
  - exact sample_wf.
  - intros b s' (_ & _ & _ & _ & H & _). exact H.
  - intros w s' H. exact H.
Defined.

(** The allocator does not know the log area: when all blocks before it are in use,
    balloc gives a block of the log to a file, where the next commit writes over it. *)
Theorem balloc_takes_log_blocks (s : fs) :
  let sb := sbof (fb s) in
  let start := sb_size sb - sb_nlog sb in
  fs_wf (fb s) -> 0 < start -> 0 < sb_nlog sb ->
  (forall j, 0 <= j < start -> used (fb s) j = true) -> used (fb s) start = false ->
  returns balloc s (fun b _ => b = start).
Proof.
  intros sb start Hf Hs0 Hn Hall Hfree. unfold returns. eapply wp_mono; [by apply balloc_ok| |].
  - intros b s' (Hb & Hu & Hlow & _). destruct (decide (b < start)) as [Hlt|Hge].
    + rewrite Hall in Hu by lia. done.
    + destruct (decide (b = start)); [done|]. rewrite Hlow in Hfree by lia. done.
  - intros w s' (_ & _ & Hfull). unfold disk_full in Hfull. fold (sbof (fb s)) in Hfull.
    rewrite Hfull in Hfree; [done|]. fold sb. lia.
Qed.

(** The small file system with its 170 blocks before the log in use. *)
Definition full_blocks (b : Z) : list Z :=
  if b =? 1 then splice 0 (sb_bytes sample_sb) zeros
  else if b =? 5 then splice 0 (replicate 21 255 ++ [3]) zeros
  else zeros.
Definition full_fs : fs :=
  mkFs full_blocks [] (fun _ => mkInode 1 1 true true (empty_dinode T_FILE)) 0.

Lemma full_used j : 0 <= j < 170 -> used full_blocks j = true.
Proof.
  intros Hj.
  assert (forallb (fun k => used full_blocks (Z.of_nat k)) (seq 0 170) = true) as H by reflexivity.
  rewrite forallb_forall in H. specialize (H (Z.to_nat j)). rewrite Z2Nat.id in H by lia. apply H, in_seq. lia.
Qed.

Lemma full_wf : fs_wf full_blocks.
Proof.
  split.
  - intros b. unfold full_blocks. repeat case_match; reflexivity.
  - change (sb_size (sb_of_block (full_blocks 1))) with 200. lia.
  - change (first_data full_blocks) with 6. change (sb_size (sb_of_block (full_blocks 1))) with 200. lia.
  - change (first_data full_blocks) with 6. intros b Hb. apply full_used. lia.
Qed.

Lemma balloc_takes_log_blocks_witness : returns balloc full_fs (fun b _ => b = 170).
Proof.
  apply (balloc_takes_log_blocks full_fs).
  - exact full_wf.
  - change (0 < 170). lia.
  - change (0 < 30). lia.
  - change (forall j, 0 <= j < 170 -> used full_blocks j = true). exact full_used.
  - reflexivity.
Defined.

(** C28. Directories: adding a name that is not there returns 0; the name then has the
    inode number it was given, and every other name the one it had; the other files of the
    file system are undisturbed.  Looking a name up gives its first entry's inode.  The
    only other outcome is a full disk. *)
Theorem dirlink_dirlookup (devread : Z -> option (nat -> Z -> M fs (Z * list Z)))
    (devwrite : Z -> option (nat -> list Z -> M fs Z)) (dp : nat) (s : fs) (name : list Z) (n : Z) :
  dir_ok s dp -> dir_inum (fb s) (di s dp) name = None -> 0 < n < 2 ^ 16 ->
  di_size (di s dp) + 16 <= MAXBYTES ->
  dirlookup devread dp name s = Done None s /\
  wp (dirlink devread devwrite dp name n) s
    (fun r s' => r = 0 /\ dir_ok s' dp /\
       (exists off, dirlookup devread dp name s' = (let! ip := iget n in ret (Some (ip, off))) s') /\
       (forall name', namecmp name' name <> 0 ->
          dir_inum (fb s') (di s' dp) name' = dir_inum (fb s) (di s dp) name') /\
       undisturbed (fb s) (fb s') (di s dp) (di s' dp))
    (fun w s' => w = Panicked "balloc: out of blocks" /\ disk_full (fb s')).
Proof.
  intros Hd Hnone Hn Hmax. unfold dir_inum in Hnone.
  destruct (find_entry (fb s) (di s dp) name) as [k|] eqn:E; [done|].
  split; [by rewrite dirlookup_run, E|].
  eapply wp_mono; [by apply dirlink_ok| |done].
  intros r s' (-> & Hd' & Hin & Hoth & Hun). repeat (split; [done|]). split; [|done].
  rewrite dirlookup_run by done. unfold dir_inum in Hin.
  destruct (find_entry (fb s') (di s' dp) name) as [k|]; [|done].
  assert (de_inum (dent (fb s') (di s' dp) k) = n) as -> by congruence.
  by eexists.
Qed.

Lemma dirlink_dirlookup_witness :
  dirlookup (fun _ => None) 0 [97] (sample_fs T_DIR) = Done None (sample_fs T_DIR).
Proof.
  refine (proj1 (dirlink_dirlookup (fun _ => None) (fun _ => None) 0 (sample_fs T_DIR) [97] 1 _ _ _ _)).
  - split; [apply sample_file_ok; by right|reflexivity|reflexivity|].
    intros p Hp. unfold di in Hp. simpl in Hp. lia.
  - reflexivity.
  - lia.
  - change (0 + 16 <= 71680). lia.
Defined.

(** Path names: skipelem takes the elements of a path one by one, as they are between
    runs of slashes, cut to DIRSIZ bytes; it returns 0 exactly when none is left; what it
    returns is shorter, and empty exactly when the name was the last. *)
Theorem skipelem_spec (path : list Z) :
  match skipelem path with
  | None => elems path = []
  | Some (rest, name) =>
      elems path = name :: elems rest /\ (length rest < length path)%nat /\
      (rest = [] <-> elems rest = [])
  end.
Proof. exact (skipelem_elems path). Qed.
