(* ===== verification/Mkfs.v ===== *)
(** * mkfs.c: the builder of the file system image

    mkfs runs on the build host.  It writes an image of [size] sectors: superblock,
    inodes, a root directory, the files of its command line, and at the end the bitmap.
    It has an allocator of its own that hands out blocks and inodes in order.  The
    theorems put it together with the kernel: a kernel that starts with the image finds
    each file under its name and reads its bytes. *)

From Stdlib Require Import FunctionalExtensionality.
From S2P Require Import Prelude Bytes FsFormat Log Fs Inode InodeData Dir.

(** ** State *)

(** The image, a file of [isize] sectors, and the counters. *)
Record mk := mkMk {
  img : Z -> list Z;
  isize : Z;
  freeblock : Z;
  usedblocks : Z;
  freeinode : Z }.

Definition set_img (f : Z -> list Z) (n : Z) (s : mk) : mk := mkMk f n (freeblock s) (usedblocks s) (freeinode s).

Definition nblocks : Z := 995 - LOGSIZE.
Definition nlog : Z := LOGSIZE.
Definition ninodes : Z := 200.
Definition size : Z := 1024.

(** Numbers in the byte order of the image, read on a little-endian host. *)
Definition xshort (x : Z) : Z := le_value (le_bytes 2 x).
Definition xint (x : Z) : Z := le_value (le_bytes 4 x).

(** ** Sectors, inodes and blocks *)

(** Writing past the end makes the file longer. *)
Definition wsect (sec : Z) (buf : list Z) : M mk unit :=
  modify (fun s => set_img (upd sec buf (img s)) (Z.max (isize s) (sec + 1)) s).

(** A read past the end fails, and mkfs exits. *)
Definition rsect (sec : Z) : M mk (list Z) := fun s =>
  if sec <? isize s then Done (img s sec) s else Stop (Panicked "read") s.

Definition i2b (inum : Z) : Z := inum / IPB + 2.

Definition winode (inum : Z) (ip : dinode) : M mk unit :=
  let bn := i2b inum in
  let! buf := rsect bn in
  wsect bn (put_dinode inum ip buf).

Definition rinode (inum : Z) : M mk dinode :=
  let! buf := rsect (i2b inum) in
  ret (dinode_of inum buf).

Definition ialloc (type : Z) : M mk Z :=
  let! inum := gets freeinode in
  modify (fun s => mkMk (img s) (isize s) (freeblock s) (usedblocks s) (freeinode s + 1)) ;;
  winode inum (mkDinode (s16 (xshort type)) 0 0 (s16 (xshort 1)) (xint 0) (replicate 13 0)) ;;
  ret inum.

(** The bitmap with the first [used] bits set. *)
Definition bits (used : nat) : list Z :=
  fold_left (fun buf i => let i := Z.of_nat i in
    wr 1 (i / 8) (Z.lor (rd 1 (i / 8) buf) (Z.shiftl 1 (i mod 8))) buf) (seq 0 used) (replicate 512 0).

Definition balloc (used : Z) : M mk unit :=
  if negb (used <? 512 * 8) then panic "assert"
  else wsect (ninodes / IPB + 3) (bits (Z.to_nat used)).

(** [freeblock++], [usedblocks++]. *)
Definition next_block : M mk Z := fun s =>
  Done (freeblock s) (mkMk (img s) (isize s) (freeblock s + 1) (usedblocks s + 1) (freeinode s)).

(** A pointer of the inode, with a new block where there is none; the inode is the
    local copy of iappend. *)
Definition need_addr (k : Z) (din : dinode) : M mk dinode :=
  if xint (addr din k) =? 0 then
    let! b := next_block in
    ret (set_addr k (xint b) din)
  else ret din.

(** The sector of block [fbn] of a file. *)
Definition file_block (fbn : Z) (din : dinode) : M mk (Z * dinode) :=
  if fbn <? NDIRECT then
    let! din := need_addr fbn din in
    ret (xint (addr din fbn), din)
  else
    let! din := need_addr NDIRECT din in
    let! indirect := rsect (xint (addr din NDIRECT)) in
    if rd 4 (4 * (fbn - NDIRECT)) indirect =? 0 then
      let! b := next_block in
      let indirect := wr 4 (4 * (fbn - NDIRECT)) (xint b) indirect in
      wsect (xint (addr din NDIRECT)) indirect ;;
      ret (xint (rd 4 (4 * (fbn - NDIRECT)) indirect), din)
    else ret (xint (rd 4 (4 * (fbn - NDIRECT)) indirect), din).

(** The loop of iappend: the bytes [p] are left to append at [off]. *)
Fixpoint iappend_from (fuel : nat) (p : list Z) (off : Z) (din : dinode) : M mk (Z * dinode) :=
  if 0 <? zlen p then
    match fuel with
    | O => halt Diverged
    | S fuel =>
        let fbn := off / 512 in
        if negb (fbn <? MAXFILE) then panic "assert"
        else
          let! '(x, din) := file_block fbn din in
          let n1 := Z.min (zlen p) ((fbn + 1) * 512 - off) in
          let! buf := rsect x in
          wsect x (splice (off - fbn * 512) (slice 0 n1 p) buf) ;;
          iappend_from fuel (drop (Z.to_nat n1) p) (off + n1) din
    end
  else ret (off, din).

Definition iappend (inum : Z) (p : list Z) : M mk unit :=
  let! din := rinode inum in
  let! '(off, din) := iappend_from (length p) p (xint (di_size din)) din in
  winode inum (set_size (xint off) din).

(** ** main *)

Fixpoint zero_from (n : nat) (i : Z) : M mk unit :=
  match n with
  | O => ret tt
  | S n => wsect i (replicate 512 0) ;; zero_from n (i + 1)
  end.

Definition DOT : Z := 46.
Definition UNDERSCORE : Z := 95.

(** struct dirent with the name copied by strncpy into zeroes. *)
Definition entry (inum : Z) (name : list Z) : list Z :=
  dirent_bytes (mkDirent (xshort inum) (strncpy (Z.to_nat DIRSIZ) name)).

(** [while((cc = read(fd, buf, sizeof(buf))) > 0) iappend(inum, buf, cc)] on a regular
    file: each read gives 512 bytes or what is left. *)
Fixpoint copy_file (fuel : nat) (inum : Z) (l : list Z) : M mk unit :=
  if 0 <? zlen l then
    match fuel with
    | O => halt Diverged
    | S fuel => iappend inum (take 512 l) ;; copy_file fuel inum (drop 512 l)
    end
  else ret tt.

Definition skip_underscore (name : list Z) : list Z :=
  if hd 0 name =? UNDERSCORE then tl name else name.

Section main.
(** The files of the build host: their contents, [None] where open fails. *)
Context (host : list Z -> option (list Z)).

Fixpoint add_files (rootino : Z) (args : list (list Z)) : M mk unit :=
  match args with
  | [] => ret tt
  | arg :: args =>
      if existsb (Z.eqb slash) arg then panic "assert"
      else match host arg with
      | None => panic "open"
      | Some contents =>
          let! inum := ialloc T_FILE in
          iappend rootino (entry inum (skip_underscore arg)) ;;
          copy_file (length contents) inum contents ;;
          add_files rootino args
      end
  end.

(** From the image file, which open has emptied; [args] are the names after it. *)
Definition mkfs (args : list (list Z)) : M mk unit :=
  let sb := mkSb (xint size) (xint nblocks) (xint ninodes) (xint nlog) in
  let bitblocks := size / (512 * 8) + 1 in
  let used := ninodes / IPB + 3 + bitblocks in
  modify (fun s => mkMk (img s) (isize s) used used (freeinode s)) ;;
  if negb (nblocks + used + nlog =? size) then panic "assert"
  else
    zero_from (Z.to_nat (nblocks + used + nlog)) 0 ;;
    wsect 1 (splice 0 (sb_bytes sb) (replicate 512 0)) ;;
    let! rootino := ialloc T_DIR in
    if negb (rootino =? ROOTINO) then panic "assert"
    else
      iappend rootino (entry rootino [DOT]) ;;
      iappend rootino (entry rootino [DOT; DOT]) ;;
      add_files rootino args ;;
      let! din := rinode rootino in
      let off := xint (di_size din) in
      winode rootino (set_size (xint ((off / BSIZE + 1) * BSIZE)) din) ;;
      let! used := gets usedblocks in
      balloc used.
End main.

(** The globals at the start, and an empty image; a hole reads as zeroes. *)
Definition mk0 : mk := mkMk (fun _ => zeros) 0 0 0 1.

(** ** The image as it would be with the bitmap written now *)

Lemma xint_id x : 0 <= x < 2 ^ 32 -> xint x = x.
Proof. intros. unfold xint. rewrite le_value_bytes. by apply Z.mod_small. Qed.

Lemma xshort_id x : 0 <= x < 2 ^ 16 -> xshort x = x.
Proof. intros. unfold xshort. rewrite le_value_bytes. by apply Z.mod_small. Qed.

Lemma bits_S n : bits (S n) = set_bit (bits n) (Z.of_nat n).
Proof. unfold bits. by rewrite seq_S, fold_left_app. Qed.

Lemma zlen_bits n : Z.of_nat n <= BPB -> zlen (bits n) = BSIZE.
Proof.
  induction n as [|n IH]; [done|]. intros Hn. rewrite bits_S. apply zlen_set_bit; [apply IH|]; lia.
Qed.

Lemma bit_bits n j : Z.of_nat n <= BPB -> 0 <= j < BPB -> bit (bits n) j = (j <? Z.of_nat n).
Proof.
  intros Hn Hj. induction n as [|n IH].
  - destruct (Z.ltb_spec j (Z.of_nat 0)); [lia|]. unfold bit.
    replace (rd 1 (j / 8) (bits 0)) with 0; [apply Z.bits_0|]. symmetry.
    change (bits 0) with (replicate 512 0). unfold rd, slice. rewrite drop_replicate, take_replicate.
    change (Z.to_nat (Z.of_nat 1)) with 1%nat. by destruct (512 - Z.to_nat (j / 8))%nat.
  - rewrite bits_S, bit_set, IH by (try lia; apply zlen_bits; lia).
    destruct (Z.eqb_spec j (Z.of_nat n)), (Z.ltb_spec j (Z.of_nat n)), (Z.ltb_spec j (Z.of_nat (S n))); (done || lia).
Qed.

Definition SB : superblock := mkSb 1024 965 200 30.
Definition BITMAP : Z := 28.
Definition FIRST : Z := 29.

Definition seal (s : mk) : Z -> list Z := upd BITMAP (bits (Z.to_nat (freeblock s))) (img s).

Record good (s : mk) : Prop := {
  g_len b : zlen (img s b) = BSIZE;
  g_sb : sb_of_block (img s 1) = SB;
  g_free : FIRST <= freeblock s <= size;
  g_used : usedblocks s = freeblock s;
  g_size : isize s = size;
  g_zero b : freeblock s <= b -> img s b = zeros }.

Section good.
Context (s : mk) (Hg : good s).

Lemma seal_sb : sbof (seal s) = SB.
Proof using Hg. unfold sbof, seal. rewrite upd_ne by done. apply Hg. Qed.

Lemma seal_first : first_data (seal s) = FIRST.
Proof using Hg. unfold first_data. fold (sbof (seal s)). by rewrite seal_sb. Qed.

Lemma seal_used b : 0 <= b < BPB -> used (seal s) b = (b <? freeblock s).
Proof using Hg.
  intros Hb. pose proof (g_free s Hg) as Hf. unfold FIRST, size in Hf. rewrite used_bit by lia.
  assert (bblock (seal s) b = BITMAP) as ->.
  { unfold bblock. rewrite seal_sb. unfold BBLOCK. rewrite Z.div_small by done. done. }
  unfold seal. rewrite upd_eq, Z.mod_small by done. change BPB with 4096 in *.
  rewrite bit_bits by (change BPB with 4096; lia). by rewrite Z2Nat.id by lia.
Qed.

Lemma seal_len b : zlen (seal s b) = BSIZE.
Proof using Hg.
  pose proof (g_free s Hg) as Hf. unfold FIRST, size in Hf. unfold seal, upd. case_decide; [|apply Hg].
  apply zlen_bits. change BPB with 4096. lia.
Qed.

Lemma seal_wf : fs_wf (seal s).
Proof using Hg.
  pose proof (g_free s Hg) as Hf. unfold FIRST, size in Hf. split.
  - apply seal_len.
  - fold (sbof (seal s)). rewrite seal_sb. simpl. lia.
  - fold (sbof (seal s)). rewrite seal_sb, seal_first. done.
  - rewrite seal_first. unfold FIRST. intros b Hb. rewrite seal_used by (change BPB with 4096; lia).
    apply Z.ltb_lt. lia.
Qed.

Lemma seal_ne b : b <> BITMAP -> seal s b = img s b.
Proof using Type. intros. by apply upd_ne. Qed.
End good.

(** ** New blocks for a file *)

(** The file [d], which is not written back yet, becomes [d']; it takes blocks that were
    free, and nothing else changes. *)
Record step (s s' : mk) (d d' : dinode) : Prop := {
  st_good : good s';
  st_free : freeblock s <= freeblock s';
  st_ok : di_ok (seal s') d';
  st_own j : 0 <= j < NSLOT -> slot (seal s') d' j <> 0 ->
    slot (seal s') d' j = slot (seal s) d j \/ freeblock s <= slot (seal s') d' j;
  st_keep a : FIRST <= a < freeblock s -> (forall j, 0 <= j < NSLOT -> slot (seal s) d j <> a) ->
    img s' a = img s a;
  st_inodes b : 0 <= b < BITMAP -> img s' b = img s b;
  st_next : freeinode s' = freeinode s;
  st_fields : exists l, d' = set_addrs l d }.

Lemma step_refl s d : good s -> di_ok (seal s) d -> step s s d d.
Proof.
  intros Hg Hd. split; try done.
  - by left.
  - exists (di_addrs d). by destruct d.
Qed.

Lemma step_trans s1 s2 s3 d1 d2 d3 : step s1 s2 d1 d2 -> step s2 s3 d2 d3 -> step s1 s3 d1 d3.
Proof.
  intros [A1 A2 A3 A4 A5 A6 A7 [l A8]] [B1 B2 B3 B4 B5 B6 B7 [l' B8]]. split; try done.
  - lia.
  - intros j Hj Hnz. destruct (B4 j Hj Hnz) as [E|E]; [|right; lia].
    rewrite E in *. by apply A4.
  - intros a Ha Hj. rewrite B5; [by apply A5|lia|]. intros j Hjr E.
    destruct (A4 j Hjr) as [E'|E']; [unfold FIRST in *; lia| |lia]. apply (Hj j Hjr). congruence.
  - intros b Hb. rewrite B6 by done. by apply A6.
  - congruence.
  - exists l'. subst. done.
Qed.

(** A pointer of a good file. *)
Lemma slot_block s d j : good s -> di_ok (seal s) d -> 0 <= j < NSLOT -> slot (seal s) d j <> 0 ->
  FIRST <= slot (seal s) d j < freeblock s.
Proof.
  intros Hg Hd Hj Hnz. destruct (do_data _ _ Hd j Hj Hnz) as [H1 H2].
  rewrite (seal_first s Hg), (seal_sb s Hg) in H1. simpl in H1. unfold FIRST in *.
  rewrite (seal_used s Hg) in H2 by (change BPB with 4096; lia). bool_prop. lia.
Qed.

Lemma grown_step s s' d d' k : good s -> good s' -> di_ok (seal s) d ->
  freeblock s' = freeblock s + 1 -> 0 <= k < NSLOT -> slot (seal s) d k = 0 ->
  (forall j, 0 <= j < NSLOT -> slot (seal s') d' j = if decide (j = k) then freeblock s else slot (seal s) d j) ->
  (forall a, a <> addr d NDIRECT \/ addr d NDIRECT = 0 -> img s' a = img s a) ->
  freeinode s' = freeinode s -> length (di_addrs d') = 13%nat -> (exists l, d' = set_addrs l d) ->
  step s s' d d' /\ same_blocks (seal s) (seal s') d d'.
Proof.
  intros Hg Hg' Hd Hfb Hk Hk0 Hslot Himg Hin Hlen Hl.
  pose proof (g_free s Hg) as Hf. pose proof (g_free s' Hg') as Hf'. unfold FIRST, size in *.
  assert (addr d NDIRECT <> 0 -> 29 <= addr d NDIRECT < freeblock s) as Hind.
  { intros Hnz. by apply (slot_block s d NDIRECT Hg Hd). }
  assert (sbof (seal s') = sbof (seal s)) as Hsb by (by rewrite !seal_sb).
  assert (sb_size (sbof (seal s)) = 1024) as Hsz by (by rewrite seal_sb).
  assert (first_data (seal s) = 29) as Hfd by (by apply seal_first).
  assert (used (seal s) (freeblock s) = false) as Hu0.
  { rewrite (seal_used s Hg) by (change BPB with 4096; lia). apply Z.ltb_irrefl. }
  assert (forall j, 0 <= j < sb_size (sbof (seal s)) ->
    used (seal s') j = (j =? freeblock s) || used (seal s) j) as Hu.
  { intros j Hj. rewrite Hsz in Hj. rewrite (seal_used s' Hg'), (seal_used s Hg), Hfb by (change BPB with 4096; lia).
    destruct (Z.eqb_spec j (freeblock s)), (Z.ltb_spec j (freeblock s)), (Z.ltb_spec j (freeblock s + 1)); (done || lia). }
  assert (forall a, 29 <= a -> a <> addr d NDIRECT -> seal s' a = seal s a) as Hsame.
  { intros a Ha Hne. rewrite !seal_ne by (unfold BITMAP; lia). apply Himg. by left. }
  assert (seal s' (freeblock s) = zeros) as Hz.
  { rewrite seal_ne by (unfold BITMAP; lia). rewrite Himg by lia. by apply (g_zero s Hg). }
  assert (di_ok (seal s') d') as Hok'.
  { apply (grow_ok (seal s) (seal s') d d' k (freeblock s)); rewrite ?Hfd, ?Hsz; try done; try lia.
    by apply seal_wf. by rewrite <- Hsz. }
  split.
  - split; try done; [lia|..].
    + intros j Hj. rewrite Hslot by done. case_decide; [intros _; right; lia|by left].
    + intros a Ha Hj. apply Himg. destruct (decide (addr d NDIRECT = 0)); [by right|left].
      intros E. by apply (Hj NDIRECT).
    + intros b Hb. apply Himg. unfold BITMAP in Hb. lia.
  - apply (grow_same (seal s) (seal s') d d' k (freeblock s)); rewrite ?Hfd, ?Hsz; try done; try lia.
    { by apply seal_wf. } { intros a Ha _. apply Hsame. lia. }
Qed.

Definition bumped (s : mk) : mk := mkMk (img s) (isize s) (freeblock s + 1) (usedblocks s + 1) (freeinode s).

Lemma good_bumped s : good s -> freeblock s < size -> good (bumped s).
Proof.
  intros [H1 H2 H3 H4 H5 H6] Hf. split; simpl; try done; [lia|lia|]. intros b Hb. apply H6. lia.
Qed.

(** Writing a block that is not beyond the blocks in use. *)
Lemma good_wsect s b x : good s -> 2 <= b < freeblock s -> zlen x = BSIZE ->
  exists s', wsect b x s = Done tt s' /\ good s' /\ s' = set_img (upd b x (img s)) (isize s) s.
Proof.
  intros [H1 H2 H3 H4 H5 H6] Hb Hx. unfold wsect, modify. eexists. split; [done|].
  rewrite Z.max_l by lia. split; [|done]. split; simpl; try done.
  - intros b'. unfold upd. case_decide; [done|apply H1].
  - by rewrite upd_ne by lia.
  - intros b' Hb'. rewrite upd_ne by lia. by apply H6.
Qed.

Lemma rsect_ok s b : good s -> b < size -> rsect b s = Done (img s b) s.
Proof. intros Hg Hb. unfold rsect. rewrite (g_size s Hg). by destruct (Z.ltb_spec b size); [|lia]. Qed.

Lemma addr_range s d k : good s -> di_ok (seal s) d -> 0 <= k <= NDIRECT ->
  addr d k = 0 \/ FIRST <= addr d k < freeblock s.
Proof.
  intros Hg Hd Hk. destruct (decide (addr d k = 0)) as [|Hnz]; [by left|right].
  assert (slot (seal s) d k = addr d k) as E by (unfold slot; by destruct (Z.leb_spec k NDIRECT); [|lia]).
  rewrite <- E. apply slot_block; [done..|unfold NSLOT, NDIRECT in *; lia|congruence].
Qed.

Lemma xint_addr s d k : good s -> di_ok (seal s) d -> 0 <= k <= NDIRECT -> xint (addr d k) = addr d k.
Proof.
  intros Hg Hd Hk. apply xint_id. pose proof (g_free s Hg). pose proof (addr_range s d k Hg Hd Hk).
  unfold FIRST, size in *. lia.
Qed.

Lemma xint_free s : good s -> xint (freeblock s) = freeblock s.
Proof. intros Hg. apply xint_id. pose proof (g_free s Hg). unfold FIRST, size in *. lia. Qed.

Lemma alloc_addr_step s d k : good s -> freeblock s < size -> di_ok (seal s) d -> 0 <= k <= NDIRECT -> addr d k = 0 ->
  let d' := set_addr k (freeblock s) d in
  step s (bumped s) d d' /\ same_blocks (seal s) (seal (bumped s)) d d' /\
  forall j, 0 <= j < NSLOT -> slot (seal (bumped s)) d' j = if decide (j = k) then freeblock s else slot (seal s) d j.
Proof.
  intros Hg Hf Hd Hk H0 d'. unfold NDIRECT in Hk. pose proof (do_len _ _ Hd) as Hlen.
  pose proof (g_free s Hg) as Hfr. unfold FIRST in Hfr.
  assert (forall j, 0 <= j < NSLOT ->
    slot (seal (bumped s)) d' j = if decide (j = k) then freeblock s else slot (seal s) d j) as Hslot.
  { intros j Hj. unfold slot, NDIRECT, NSLOT in *. unfold d'.
    destruct (j <=? 12) eqn:E; bool_prop; [apply addr_set_addr; (done || lia)|].
    rewrite decide_False by lia. rewrite addr_set_addr by (done || lia). case_decide as E'.
    - subst k. rewrite H0. simpl. destruct (freeblock s =? 0) eqn:Er; [bool_prop; lia|].
      rewrite seal_ne by (unfold BITMAP; lia). simpl. rewrite (g_zero s Hg) by lia. apply rd_zeros. lia.
    - destruct (addr d 12 =? 0) eqn:Ea; [done|]. bool_prop.
      pose proof (addr_range s d 12 Hg Hd ltac:(unfold NDIRECT; lia)) as Hr. unfold FIRST in Hr.
      by rewrite !seal_ne by (unfold BITMAP; lia). }
  assert (slot (seal s) d k = 0) as Hsk.
  { unfold slot, NDIRECT. destruct (k <=? 12) eqn:E; [done|bool_prop; lia]. }
  destruct (grown_step s (bumped s) d d' k) as [H1 H2]; try done.
  - by apply good_bumped.
  - unfold NSLOT. lia.
  - simpl. by rewrite length_insert.
  - by eexists.
Qed.

Lemma alloc_entry_step s d bn x : good s -> freeblock s < size -> di_ok (seal s) d -> 0 <= bn < NINDIRECT ->
  addr d NDIRECT <> 0 -> rd 4 (4 * bn) (img s (addr d NDIRECT)) = 0 ->
  x = wr 4 (4 * bn) (freeblock s) (img s (addr d NDIRECT)) ->
  let s' := set_img (upd (addr d NDIRECT) x (img s)) (isize s) (bumped s) in
  wsect (addr d NDIRECT) x (bumped s) = Done tt s' /\
  step s s' d d /\ same_blocks (seal s) (seal s') d d /\
  forall j, 0 <= j < NSLOT -> slot (seal s') d j = if decide (j = bn + 13) then freeblock s else slot (seal s) d j.
Proof.
  intros Hg Hf Hd Hbn Hind H0 Hx. change NINDIRECT with 128 in Hbn.
  pose proof (g_free s Hg) as Hfr. unfold FIRST, size in Hfr, Hf.
  pose proof (addr_range s d NDIRECT Hg Hd ltac:(done)) as [?|Hr]; [done|]. unfold FIRST in Hr.
  set (ind := addr d NDIRECT) in *. pose proof (g_len s Hg ind) as Hl. unfold BSIZE in Hl.
  destruct (good_wsect (bumped s) ind x) as (s' & Hw & Hg' & E).
  { apply good_bumped; [done|unfold size; lia]. } { simpl. lia. } { subst x. by rewrite zlen_wr by lia. }
  assert (slot (seal s) d (bn + 13) = 0) as Hsk.
  { unfold slot. fold ind. destruct (bn + 13 <=? NDIRECT) eqn:E1; [unfold NDIRECT in E1; bool_prop; lia|].
    destruct (ind =? 0) eqn:Ei; [done|]. rewrite seal_ne by (unfold BITMAP; lia). by replace (bn + 13 - 13) with bn by lia. }
  assert (forall j, 0 <= j < NSLOT ->
    slot (seal s') d j = if decide (j = bn + 13) then freeblock s else slot (seal s) d j) as Hslot.
  { intros j Hj. unfold slot, NDIRECT, NSLOT in *. fold ind.
    destruct (j <=? 12) eqn:E1; bool_prop; [by rewrite decide_False by lia|].
    destruct (ind =? 0) eqn:Ei; [bool_prop; lia|]. rewrite !seal_ne by (unfold BITMAP; lia). rewrite E. simpl.
    rewrite upd_eq. subst x. case_decide as E'.
    - subst j. replace (bn + 13 - 13) with bn by lia. rewrite rd_wr_eq by lia.
      apply Z.mod_small. change (256 ^ Z.of_nat 4) with (2 ^ 32). lia.
    - by rewrite rd_wr_ne by lia. }
  subst s'. split; [done|].
  destruct (grown_step s (set_img (upd ind x (img s)) (isize s) (bumped s)) d d (bn + 13)) as [H1 H2]; try done.
  - unfold NSLOT. lia.
  - intros a Ha. simpl. apply upd_ne. fold ind in Ha. destruct Ha; done.
  - apply Hd.
  - exists (di_addrs d). by destruct d.
Qed.

(** The blocks that file_block allocates. *)
Definition cost (f : Z -> list Z) (d : dinode) (fbn : Z) : Z :=
  (if slot f d (bslot fbn) =? 0 then 1 else 0) + (if (NDIRECT <=? fbn) && (addr d NDIRECT =? 0) then 1 else 0).

Record has_block (fbn : Z) (s s' : mk) (d d' : dinode) : Prop := {
  hb_step : step s s' d d';
  hb_same : same_blocks (seal s) (seal s') d d';
  hb_slot : slot (seal s') d' (bslot fbn) <> 0;
  hb_free : freeblock s' = freeblock s + cost (seal s) d fbn;
  hb_rest j : 0 <= j < NSLOT -> j <> bslot fbn -> j <> NDIRECT \/ fbn < NDIRECT ->
    slot (seal s') d' j = slot (seal s) d j }.

Lemma same_refl f d : same_blocks f f d d.
Proof. done. Qed.

Lemma same_trans f1 f2 f3 d1 d2 d3 : same_blocks f1 f2 d1 d2 -> same_blocks f2 f3 d2 d3 -> same_blocks f1 f3 d1 d3.
Proof. intros H1 H2 bn Hbn. rewrite H2 by done. by apply H1. Qed.

Lemma file_block_direct s d fbn : good s -> di_ok (seal s) d -> 0 <= fbn < NDIRECT ->
  freeblock s + cost (seal s) d fbn <= size ->
  exists s' d', file_block fbn d s = Done (slot (seal s') d' (bslot fbn), d') s' /\ has_block fbn s s' d d'.
Proof.
  intros Hg Hd Hb Hroom. pose proof (xint_addr s d fbn Hg Hd ltac:(lia)) as Hx.
  assert (bslot fbn = fbn) as Ebs by (unfold bslot; by destruct (Z.ltb_spec fbn NDIRECT); [|lia]).
  assert (forall f e, slot f e fbn = addr e fbn) as Hs.
  { intros. unfold slot. by destruct (Z.leb_spec fbn NDIRECT); [|lia]. }
  unfold file_block. destruct (Z.ltb_spec fbn NDIRECT) as [_|]; [|lia]. unfold need_addr, bind, ret. rewrite Hx.
  unfold cost in Hroom. rewrite Ebs, Hs in Hroom. destruct (Z.leb_spec NDIRECT fbn) as [|_]; [lia|]. simpl in Hroom.
  destruct (addr d fbn =? 0) eqn:E; bool_prop.
  - destruct (alloc_addr_step s d fbn) as (H1 & H2 & H3); try done; try lia. pose proof (g_free s Hg) as Hf.
    unfold next_block. fold (bumped s). rewrite (xint_free s Hg).
    unfold NDIRECT in *.
    assert (addr (set_addr fbn (freeblock s) d) fbn = freeblock s) as Ea.
    { rewrite addr_set_addr by (try lia; apply Hd). by rewrite decide_True. }
    exists (bumped s), (set_addr fbn (freeblock s) d). rewrite Ebs, Hs, Ea, (xint_free s Hg).
    split; [done|]. split; try done.
    + rewrite Ebs, Hs, Ea. unfold FIRST in Hf. lia.
    + unfold cost. rewrite Ebs, Hs, E. destruct (Z.leb_spec NDIRECT fbn); [unfold NDIRECT in *; lia|]. done.
    + intros j Hj Hne _. rewrite H3 by done. rewrite decide_False; [done|congruence].
  - exists s, d. rewrite Ebs, Hs, Hx. split; [done|]. split; try done.
    + by apply step_refl.
    + by rewrite Ebs, Hs.
    + unfold cost. rewrite Ebs, Hs. destruct (Z.eqb_spec (addr d fbn) 0); [done|].
      destruct (Z.leb_spec NDIRECT fbn); [lia|]. simpl. lia.
Qed.

(** The first half of the other case: a file with an indirect block. *)
Lemma indirect_block s d : good s -> di_ok (seal s) d ->
  freeblock s + (if addr d NDIRECT =? 0 then 1 else 0) <= size ->
  exists s' d', need_addr NDIRECT d s = Done d' s' /\
    step s s' d d' /\ same_blocks (seal s) (seal s') d d' /\ addr d' NDIRECT <> 0 /\
    freeblock s' = freeblock s + (if addr d NDIRECT =? 0 then 1 else 0) /\
    forall j, 0 <= j < NSLOT -> j <> NDIRECT -> slot (seal s') d' j = slot (seal s) d j.
Proof.
  intros Hg Hd Hroom. unfold need_addr. rewrite (xint_addr s d NDIRECT Hg Hd) by done. destruct (addr d NDIRECT =? 0) eqn:E; bool_prop.
  - destruct (alloc_addr_step s d NDIRECT) as (H1 & H2 & H3); try done; try lia.
    exists (bumped s), (set_addr NDIRECT (freeblock s) d). unfold bind, next_block, ret. fold (bumped s).
    rewrite (xint_free s Hg). repeat (split; [done|]). split; [|split; [done|]].
    + rewrite addr_set_addr by (try done; apply Hd). rewrite decide_True by done.
      pose proof (g_free s Hg). unfold FIRST in *. lia.
    + intros j Hj Hne. rewrite H3 by done. by rewrite decide_False.
  - exists s, d. split; [done|]. split; [by apply step_refl|]. repeat (split; [done|]). split; [lia|done].
Qed.

Lemma file_block_indirect s d fbn : good s -> di_ok (seal s) d -> NDIRECT <= fbn < MAXFILE ->
  freeblock s + cost (seal s) d fbn <= size ->
  exists s' d', file_block fbn d s = Done (slot (seal s') d' (bslot fbn), d') s' /\ has_block fbn s s' d d'.
Proof.
  intros Hg Hd Hb Hroom. unfold file_block, cost in *. destruct (Z.ltb_spec fbn NDIRECT); [lia|].
  assert (bslot fbn = fbn - NDIRECT + 13) as Ebs
    by (unfold bslot; destruct (Z.ltb_spec fbn NDIRECT); unfold NDIRECT; lia).
  assert (0 <= bslot fbn < NSLOT /\ bslot fbn <> NDIRECT) as [Hbr Hbn] by (apply bslot_range; unfold NDIRECT in *; lia).
  destruct (Z.leb_spec NDIRECT fbn) as [_|]; [|lia]. cbn [andb] in Hroom.
  destruct (indirect_block s d Hg Hd) as (s1 & d1 & Hrun & Hst & Hsm & Hind & Hfr & Hrest).
  { case_match; case_match; lia. }
  pose proof (st_good _ _ _ _ Hst) as Hg1. pose proof (st_ok _ _ _ _ Hst) as Hd1. pose proof (g_free s1 Hg1) as Hf1.
  destruct (addr_range s1 d1 NDIRECT Hg1 Hd1) as [?|Hir]; [done|done|]. unfold FIRST in *.
  unfold bind at 1. rewrite Hrun. rewrite (xint_addr s1 d1 NDIRECT Hg1 Hd1) by done.
  unfold bind at 1. rewrite rsect_ok by (done || lia).
  set (ind := addr d1 NDIRECT) in *. set (k := fbn - NDIRECT) in *.
  assert (slot (seal s1) d1 (bslot fbn) = rd 4 (4 * k) (img s1 ind)) as Hsl.
  { unfold slot. fold ind. rewrite Ebs. destruct (Z.leb_spec (k + 13) NDIRECT); [unfold NDIRECT in *; lia|].
    destruct (Z.eqb_spec ind 0); [done|]. rewrite seal_ne by (unfold BITMAP; lia). by replace (k + 13 - 13) with k by lia. }
  rewrite <- (Hrest (bslot fbn) Hbr Hbn), Hsl in Hroom.
  assert (cost (seal s) d fbn = (if rd 4 (4 * k) (img s1 ind) =? 0 then 1 else 0) + (if addr d NDIRECT =? 0 then 1 else 0)) as Hc.
  { unfold cost. rewrite <- (Hrest (bslot fbn) Hbr Hbn), Hsl. by destruct (Z.leb_spec NDIRECT fbn); [|lia]. }
  destruct (rd 4 (4 * k) (img s1 ind) =? 0) eqn:E; bool_prop.
  - destruct (alloc_entry_step s1 d1 k _ Hg1 ltac:(lia) Hd1 ltac:(change NINDIRECT with 128; change MAXFILE with 140 in Hb; unfold k, NDIRECT in *; lia) Hind E eq_refl) as (Hw & H1 & H2 & H3).
    fold ind in Hw, H1, H2, H3. unfold bind at 1, next_block. fold (bumped s1). rewrite (xint_free s1 Hg1).
    unfold bind at 1. rewrite Hw. unfold ret. pose proof (g_len s1 Hg1 ind) as Hl. unfold BSIZE in Hl.
    rewrite rd_wr_eq by (change MAXFILE with 140 in Hb; unfold k, NDIRECT in *; lia).
    rewrite Z.mod_small by (change (256 ^ Z.of_nat 4) with (2 ^ 32); unfold size in *; lia).
    rewrite (xint_free s1 Hg1). eexists _, d1. rewrite H3 by done. rewrite decide_True by done. split; [done|]. split.
    + by eapply step_trans.
    + by eapply same_trans.
    + rewrite H3 by done. rewrite decide_True by done. lia.
    + simpl. rewrite Hfr, Hc. lia.
    + intros j Hj Hne Hor. rewrite H3, decide_False by (done || congruence). apply Hrest; [done|]. destruct Hor; [done|lia].
  - exists s1, d1. unfold ret. rewrite Hsl. assert (xint (rd 4 (4 * k) (img s1 ind)) = rd 4 (4 * k) (img s1 ind)) as ->.
    { rewrite <- Hsl in *. apply xint_id. pose proof (slot_block s1 d1 _ Hg1 Hd1 Hbr E). unfold FIRST, size in *. lia. }
    split; [done|]. split; try done.
    + by rewrite Hsl.
    + rewrite Hfr, Hc. lia.
    + intros j Hj Hne Hor. apply Hrest; [done|]. destruct Hor; [done|lia].
Qed.

Lemma file_block_ok s d fbn : good s -> di_ok (seal s) d -> 0 <= fbn < MAXFILE ->
  freeblock s + cost (seal s) d fbn <= size ->
  exists s' d', file_block fbn d s = Done (slot (seal s') d' (bslot fbn), d') s' /\ has_block fbn s s' d d'.
Proof.
  intros Hg Hd Hb Hroom. destruct (decide (fbn < NDIRECT)).
  - apply file_block_direct; (done || lia).
  - apply file_block_indirect; (done || lia).
Qed.

(** ** Appending *)

Lemma upd_comm {A} `{EqDecision A} {B} (i j : A) (x y : B) f : i <> j -> upd i x (upd j y f) = upd j y (upd i x f).
Proof. intros. apply functional_extensionality. intros k. unfold upd. repeat case_decide; congruence. Qed.

Lemma store_step s d bn x : good s -> di_ok (seal s) d -> 0 <= bn < MAXFILE ->
  let a := slot (seal s) d (bslot bn) in
  a <> 0 -> zlen x = BSIZE ->
  exists s', wsect a x s = Done tt s' /\ step s s' d d /\ freeblock s' = freeblock s /\
    (forall j, slot (seal s') d j = slot (seal s) d j) /\
    forall bn', 0 <= bn' < MAXFILE ->
      fblock (seal s') d bn' = if decide (bn' = bn) then x else fblock (seal s) d bn'.
Proof.
  intros Hg Hd Hbn a Ha Hx. destruct (bslot_range bn Hbn) as [Hr Hne].
  pose proof (slot_block s d _ Hg Hd Hr Ha) as Hab. fold a in Hab. unfold FIRST in Hab.
  destruct (good_wsect s a x) as (s' & Hw & Hg' & E); [done|lia|done|].
  assert (seal s' = upd a x (seal s)) as Hseal.
  { unfold seal. rewrite E. simpl. apply upd_comm. unfold BITMAP. lia. }
  destruct (store_block_ok (mkFs (seal s) [] (fun _ => mkInode 0 0 false false d) 0) 0 bn x []
    (seal_wf s Hg) Hd Hbn Ha Hx) as [Hev Hfb]. cbn [fb set_flog set_fb] in *.
  change (slot (seal s) (di _ 0) (bslot bn)) with a in Hfb. rewrite <- Hseal in Hfb.
  exists s'. split; [done|].
  assert (forall j, slot (seal s') d j = slot (seal s) d j) as Hs.
  { intros j. apply slot_ext. intros Hnz. rewrite Hseal. apply upd_ne. intros E'.
    apply Hne. apply (do_inj _ _ Hd); done. }
  assert (freeblock s' = freeblock s) as Hfr by (by rewrite E).
  split; [|done]. split; try done.
  - lia.
  - rewrite Hseal. apply (ev_ok _ _ _ Hev).
  - intros j Hj. rewrite Hs. by left.
  - intros b Hb Hj. rewrite E. simpl. apply upd_ne. intros ->. by apply (Hj (bslot bn)).
  - intros b Hb. rewrite E. simpl. apply upd_ne. unfold BITMAP in Hb. lia.
  - by rewrite E.
  - exists (di_addrs d). by destruct d.
Qed.

(** Exactly the blocks below [off] are there. *)
Record tight (f : Z -> list Z) (d : dinode) (off : Z) : Prop := {
  ti_blocks bn : 0 <= bn < MAXFILE -> slot f d (bslot bn) <> 0 <-> bn * 512 < off;
  ti_ind : addr d NDIRECT <> 0 <-> NDIRECT * 512 < off }.

(** The number of blocks of a file of [n] bytes, with its indirect block. *)
Definition blks (n : Z) : Z := (n + 511) / 512 + (if 12 * 512 <? n then 1 else 0).

Lemma blks_mono m n : m <= n -> blks m <= blks n.
Proof. unfold blks. intros. destruct (Z.ltb_spec (12 * 512) m), (Z.ltb_spec (12 * 512) n); zlia. Qed.

Lemma tight_cost f d off n : tight f d off -> 0 <= off -> 0 < n -> off + n <= (off / 512 + 1) * 512 ->
  off / 512 < MAXFILE -> cost f d (off / 512) = blks (off + n) - blks off.
Proof.
  intros [H1 H2] Ho Hn Hle Hmax. assert (0 <= off / 512 < MAXFILE) as Hr by (split; [zlia|done]).
  specialize (H1 _ Hr). unfold cost, blks, NDIRECT in *.
  destruct (Z.eqb_spec (slot f d (bslot (off / 512))) 0), (Z.leb_spec 12 (off / 512)),
    (Z.eqb_spec (addr d 12) 0), (Z.ltb_spec (12 * 512) (off + n)), (Z.ltb_spec (12 * 512) off); simpl; try zlia.
Qed.

Lemma has_block_tight s s' d d' off n : has_block (off / 512) s s' d d' -> tight (seal s) d off ->
  0 <= off -> 0 < n -> off + n <= (off / 512 + 1) * 512 -> off / 512 < MAXFILE -> tight (seal s') d' (off + n).
Proof.
  intros [_ _ H1 _ H2] [T1 T2] Ho Hn Hle Hmax. assert (0 <= off / 512 < MAXFILE) as Hr by (split; [zlia|done]).
  destruct (bslot_range _ Hr) as [Hr1 Hr2]. split.
  - intros bn Hbn. destruct (bslot_range bn Hbn) as [Hb1 Hb2]. destruct (decide (bn = off / 512)) as [->|Hne].
    + split; [intros _; zlia|done].
    + rewrite H2, T1; [zlia|done|done| |by left]. unfold bslot, NDIRECT in *.
      destruct (Z.ltb_spec bn 12), (Z.ltb_spec (off / 512) 12); lia.
  - rewrite <- slot_indirect with (f := seal s'). destruct (decide (off / 512 < NDIRECT)) as [Hlt|Hge].
    + rewrite H2, slot_indirect, T2 by (try done; by right). unfold NDIRECT in *. zlia.
    + rewrite slot_indirect. split; [intros _; unfold NDIRECT in *; zlia|]. intros _ E. apply H1.
      unfold slot, bslot, NDIRECT in *. rewrite E. destruct (Z.ltb_spec (off / 512) 12); [lia|].
      by destruct (Z.leb_spec (off / 512 + 1) 12); [lia|].
Qed.

Record appended (p : list Z) (off : Z) (s s' : mk) (d d' : dinode) : Prop := {
  ap_step : step s s' d d';
  ap_tight : tight (seal s') d' (off + zlen p);
  ap_free : freeblock s' = freeblock s + blks (off + zlen p) - blks off;
  ap_bytes q : 0 <= q < MAXBYTES -> fbyte (seal s') d' q =
    if decide (off <= q < off + zlen p) then nth (Z.to_nat (q - off)) p 0 else fbyte (seal s) d q }.

(** One turn of the loop. *)
Lemma append_block s d p off : good s -> di_ok (seal s) d -> tight (seal s) d off -> 0 <= off ->
  0 < zlen p -> off + zlen p <= (off / 512 + 1) * 512 -> off / 512 < MAXFILE ->
  freeblock s + blks (off + zlen p) - blks off <= size ->
  exists s1 s' d', file_block (off / 512) d s = Done (slot (seal s1) d' (bslot (off / 512)), d') s1 /\
    slot (seal s1) d' (bslot (off / 512)) < size /\ good s1 /\
    (let x := slot (seal s1) d' (bslot (off / 512)) in
     wsect x (splice (off - off / 512 * 512) p (img s1 x)) s1 = Done tt s') /\
    appended p off s s' d d'.
Proof.
  intros Hg Hd Ht Ho Hp Hle Hmax Hroom. assert (0 <= off / 512 < MAXFILE) as Hr by (split; [zlia|done]).
  pose proof (tight_cost _ _ _ _ Ht Ho Hp Hle Hmax) as Hc.
  destruct (file_block_ok s d (off / 512) Hg Hd Hr ltac:(lia)) as (s1 & d' & Hrun & Hb).
  pose proof (has_block_tight _ _ _ _ _ _ Hb Ht Ho Hp Hle Hmax) as Ht1. destruct Hb as [Hst Hsm Hx Hfr _].
  pose proof (st_good _ _ _ _ Hst) as Hg1. pose proof (st_ok _ _ _ _ Hst) as Hd1.
  set (x := slot (seal s1) d' (bslot (off / 512))) in *.
  pose proof (slot_block s1 d' _ Hg1 Hd1 (proj1 (bslot_range _ Hr)) Hx) as Hxr. fold x in Hxr.
  pose proof (g_free s1 Hg1) as Hf1. unfold FIRST, size in *.
  pose proof (g_len s1 Hg1 x) as Hl.
  destruct (store_step s1 d' (off / 512) (splice (off - off / 512 * 512) p (img s1 x)) Hg1 Hd1 Hr Hx)
    as (s' & Hw & Hst2 & Hfr2 & Hsl & Hfb).
  { unfold BSIZE in *. rewrite zlen_splice; zlia. }
  exists s1, s', d'. split; [done|]. split; [lia|]. split; [done|]. split; [done|]. split.
  - by eapply step_trans.
  - destruct Ht1 as [T1 T2]. split; [|done]. intros bn Hbn. rewrite Hsl. by apply T1.
  - lia.
  - intros q Hq. rewrite (fbyte_splice (seal s1) (seal s') d' d' (off / 512) (off - off / 512 * 512) p);
      [|by apply seal_wf|done|zlia|unfold BSIZE; zlia| |done].
    + replace (off / 512 * BSIZE + (off - off / 512 * 512)) with off by (unfold BSIZE; lia).
      case_decide; [done|]. by apply fbyte_same.
    + intros bn Hbn. rewrite Hfb by done. case_decide as E; [|done]. subst bn. f_equal.
      unfold fblock. fold x. destruct (Z.eqb_spec x 0); [done|]. by rewrite seal_ne by (unfold BITMAP; lia).
Qed.

Lemma slice_0 n (p : list Z) : slice 0 n p = take (Z.to_nat n) p.
Proof. done. Qed.

Lemma iappend_from_ok fuel p off d s : good s -> di_ok (seal s) d -> tight (seal s) d off -> 0 <= off ->
  off + zlen p <= MAXBYTES -> zlen p <= Z.of_nat fuel -> freeblock s + blks (off + zlen p) - blks off <= size ->
  exists s' d', iappend_from fuel p off d s = Done (off + zlen p, d') s' /\ appended p off s s' d d'.
Proof.
  revert p off d s. induction fuel as [|fuel IH]; intros p off d s Hg Hd Ht Ho Hm Hfu Hroom; cbn [iappend_from];
    destruct (Z.ltb_spec 0 (zlen p)) as [Hp|Hp]; try lia.
  1,3: pose proof (zlen_nonneg p); exists s, d; replace (off + zlen p) with off in * by lia; split; [done|];
    split; [by apply step_refl|by replace (off + zlen p) with off by lia|replace (off + zlen p) with off by lia; lia|];
    intros q Hq; by rewrite decide_False by lia.
  assert (off / 512 < MAXFILE) as Hmax by (unfold MAXBYTES, BSIZE in Hm; zlia).
  destruct (Z.ltb_spec (off / 512) MAXFILE) as [_|]; [|lia]. cbn [negb].
  set (n1 := Z.min (zlen p) ((off / 512 + 1) * 512 - off)).
  assert (0 < n1 <= zlen p /\ off + n1 <= (off / 512 + 1) * 512) as [Hn1 Hn2] by (unfold n1; zlia).
  set (p1 := slice 0 n1 p). set (p2 := drop (Z.to_nat n1) p).
  assert (zlen p1 = n1) as Hl1 by (apply zlen_slice; lia).
  assert (zlen p2 = zlen p - n1) as Hl2 by (unfold p2, zlen in *; rewrite length_drop; lia).
  assert (p = p1 ++ p2) as Hpp by (unfold p1, p2; by rewrite slice_0, take_drop).
  pose proof (blks_mono (off + n1) (off + zlen p) ltac:(lia)) as Hbm.
  destruct (append_block s d p1 off) as (s1 & s2 & d1 & H1 & H2 & H3 & H4 & H5); rewrite ?Hl1; try done; try lia.
  unfold bind at 1. rewrite H1. unfold bind at 1. rewrite rsect_ok by done. unfold bind at 1. cbn beta zeta in H4. rewrite H4.
  destruct H5 as [S1 T1 F1 B1]. rewrite Hl1 in T1, F1, B1.
  destruct (IH p2 (off + n1) d1 s2) as (s' & d' & Hrun & [S2 T2 F2 B2]).
  { apply S1. } { apply S1. } { done. } { lia. } { lia. } { lia. }
  { rewrite Hl2, F1. replace (off + n1 + (zlen p - n1)) with (off + zlen p) by lia. lia. }
  rewrite Hl2 in *. replace (off + n1 + (zlen p - n1)) with (off + zlen p) in * by lia.
  exists s', d'. split; [done|]. split; [by eapply step_trans|done|lia|].
  intros q Hq. rewrite B2, B1 by done. repeat case_decide; try lia; try done.
  - rewrite Hpp, app_nth2; [|unfold zlen in *; lia]. f_equal. unfold zlen in *. lia.
  - rewrite Hpp, app_nth1; [done|unfold zlen in *; lia].
Qed.
