(* ===== verification/MkfsFiles.v ===== *)
(** * mkfs.c: the files of the image

    What the image holds while mkfs builds it: a list of files, inode [k + 1] the [k]-th
    one, each with its contents, on blocks of its own. *)

From S2P Require Import Prelude Bytes FsFormat Fs Inode InodeData Dir Mkfs.

(** ** One file *)

(** The inode [d] is a file of type [t] with contents [c]. *)
Record holds (s : mk) (d : dinode) (t : Z) (c : list Z) : Prop := {
  ho_fields : di_type d = t /\ di_major d = 0 /\ di_minor d = 0 /\ di_nlink d = 1 /\ di_size d = zlen c;
  ho_max : zlen c <= MAXBYTES;
  ho_type : 0 < t < 2 ^ 15;
  ho_ok : di_ok (seal s) d;
  ho_tight : tight (seal s) d (zlen c);
  ho_bytes q : 0 <= q < MAXBYTES -> fbyte (seal s) d q = nth (Z.to_nat q) c 0 }.

(** A file none of whose blocks changed. *)
Lemma holds_same s s' d t c : good s -> good s' -> freeblock s <= freeblock s' -> holds s d t c ->
  (forall j, 0 <= j < NSLOT -> slot (seal s) d j <> 0 -> img s' (slot (seal s) d j) = img s (slot (seal s) d j)) ->
  holds s' d t c /\ forall j, slot (seal s') d j = slot (seal s) d j.
Proof.
  intros Hg Hg' Hfr [H1 H2 H3 H4 [T1 T2] H6] Himg.
  destruct (same_file (seal s) (seal s') d H4) as (Hs & Hok & Hsm).
  - by rewrite !seal_sb.
  - intros a Ha Hu (k & Hk & <-). rewrite (seal_first s Hg), (seal_sb s Hg) in Ha. unfold FIRST in Ha. simpl in Ha.
    assert (slot (seal s) d k <> 0) as Hnz by lia. pose proof (slot_block s d k Hg H4 Hk Hnz) as Hr.
    rewrite !seal_ne by (unfold BITMAP; lia). split; [by apply Himg|].
    rewrite (seal_used s' Hg') by (change BPB with 4096; lia). apply Z.ltb_lt. lia.
  - split; [|done]. split; try done.
    + split; [|done]. intros bn Hbn. rewrite Hs. by apply T1.
    + intros q Hq. rewrite (fbyte_same (seal s) (seal s') d d) by done. by apply H6.
Qed.

Lemma holds_wf s d t c : good s -> holds s d t c -> dinode_wf d.
Proof.
  intros Hg [(H1 & H2 & H3 & H4 & H5) Hm Ht Hok _ _]. assert (MAXBYTES = 71680) as HM by done.
  pose proof (zlen_nonneg c). split; rewrite ?H1, ?H2, ?H3, ?H4, ?H5; unfold short, uint; try lia.
  split; [apply Hok|]. by apply (di_ok_uint (seal s)); [apply seal_wf|].
Qed.

(** ** All files *)

(** The inode of file [k]: the one on the disk, or the copy mkfs works on. *)
Definition node (s : mk) (o : option (nat * dinode)) (k : nat) : dinode :=
  match o with
  | Some (k', d) => if decide (k = k') then d else disk_inode (seal s) (1 + Z.of_nat k)
  | None => disk_inode (seal s) (1 + Z.of_nat k)
  end.

Fixpoint total (L : list (Z * list Z)) : Z :=
  match L with [] => 0 | (_, c) :: L => blks (zlen c) + total L end.

Record files (s : mk) (L : list (Z * list Z)) (o : option (nat * dinode)) : Prop := {
  fl_good : good s;
  fl_next : freeinode s = 1 + Z.of_nat (length L);
  fl_few : Z.of_nat (length L) < ninodes;
  fl_file k t c : L !! k = Some (t, c) -> holds s (node s o k) t c;
  fl_disj j k : j <> k -> (j < length L)%nat -> (k < length L)%nat -> disj (seal s) (node s o j) (node s o k);
  fl_count : freeblock s = FIRST + total L }.

Lemma disj_sym f d e : disj f d e -> disj f e d.
Proof. intros H k k' Hk Hk' Hnz E. apply (H k' k); congruence. Qed.

Lemma disj_same f f' d e : (forall j, slot f' d j = slot f d j) -> (forall j, slot f' e j = slot f e j) ->
  disj f d e -> disj f' d e.
Proof. intros H1 H2 H k k' Hk Hk'. rewrite H1, H2. by apply H. Qed.

Lemma total_app L L' : total (L ++ L') = total L + total L'.
Proof. induction L as [|[t c] L IH]; simpl; lia. Qed.

Lemma total_insert L k t c c' : L !! k = Some (t, c) ->
  total (<[k := (t, c')]> L) = total L + blks (zlen c') - blks (zlen c).
Proof.
  revert k. induction L as [|[t' x] L IH]; intros [|k]; simpl; try done.
  - intros [= -> ->]. lia.
  - intros H. rewrite IH by done. lia.
Qed.

Lemma files_open s L k : files s L None -> files s L (Some (k, disk_inode (seal s) (1 + Z.of_nat k))).
Proof.
  assert (forall j, node s (Some (k, disk_inode (seal s) (1 + Z.of_nat k))) j = node s None j) as E.
  { intros j. simpl. by case_decide; subst. }
  intros [H1 H2 H3 H4 H5 H6]. split; try done.
  - intros j. rewrite E. apply H4.
  - intros i j. rewrite !E. apply H5.
Qed.

Lemma few_block n : 0 < n <= ninodes -> 2 <= IBLOCK n < BITMAP.
Proof. unfold IBLOCK, ninodes, BITMAP. change IPB with 8. intros. zlia. Qed.

(** The inode is written back. *)
Lemma winode_run s n d : good s -> 0 < n <= ninodes -> dinode_wf d ->
  exists s', winode n d s = Done tt s' /\ good s' /\ freeblock s' = freeblock s /\ freeinode s' = freeinode s /\
    (forall m, disk_inode (seal s') m = if decide (m = n) then d else disk_inode (seal s) m) /\
    forall a, FIRST <= a -> img s' a = img s a.
Proof.
  intros Hg Hn Hd. pose proof (few_block n Hn) as Hb. pose proof (g_free s Hg) as Hf.
  unfold winode, bind. change (i2b n) with (IBLOCK n). unfold BITMAP, FIRST, size in *.
  rewrite rsect_ok by (done || (unfold size; lia)).
  destruct (good_wsect s (IBLOCK n) (put_dinode n d (img s (IBLOCK n)))) as (s' & Hw & Hg' & E).
  { done. } { lia. } { apply zlen_put_dinode; [apply Hg|apply Hd]. }
  exists s'. split; [done|]. split; [done|]. subst s'. split; [done|]. split; [done|]. split.
  - assert (seal (set_img (upd (IBLOCK n) (put_dinode n d (img s (IBLOCK n))) (img s)) (isize s) s) =
      upd (IBLOCK n) (put_dinode n d (seal s (IBLOCK n))) (seal s)) as ->.
    { rewrite seal_ne by (unfold BITMAP; lia). unfold seal. simpl. apply upd_comm. unfold BITMAP. lia. }
    intros m. apply disk_inode_put; [by apply seal_wf|done].
  - intros a Ha. simpl. apply upd_ne. lia.
Qed.

Lemma winode_files s L k d : files s L (Some (k, d)) -> (k < length L)%nat ->
  exists s', winode (1 + Z.of_nat k) d s = Done tt s' /\ files s' L None /\ disk_inode (seal s') (1 + Z.of_nat k) = d.
Proof.
  intros [H1 H2 H3 H4 H5 H6] Hk. destruct (lookup_lt_is_Some_2 L k Hk) as [[t c] Hkl].
  pose proof (H4 k t c Hkl) as Hd. simpl in Hd. rewrite decide_True in Hd by done.
  destruct (winode_run s (1 + Z.of_nat k) d) as (s' & Hw & Hg' & Hfr & Hfi & Hdk & Himg);
    [done|lia|by apply (holds_wf s _ t c)|].
  assert (forall j, node s' None j = node s (Some (k, d)) j) as Hnode.
  { intros j. simpl. rewrite Hdk. repeat case_decide; (done || lia). }
  assert (forall j t c, L !! j = Some (t, c) -> holds s' (node s' None j) t c /\
    forall i, slot (seal s') (node s' None j) i = slot (seal s) (node s (Some (k, d)) j) i) as Hh.
  { intros j t' c' Hj. rewrite Hnode. apply holds_same; [done|done|lia|by apply H4|].
    intros i Hi Hnz. apply Himg. apply (slot_block s _ i H1 (ho_ok _ _ _ _ (H4 j t' c' Hj)) Hi Hnz). }
  exists s'. split; [done|]. split; [|rewrite Hdk; by rewrite decide_True].
  split; try done.
  - congruence.
  - intros j t' c' Hj. by apply Hh.
  - intros i j Hne Hi Hj. destruct (lookup_lt_is_Some_2 L i Hi) as [[t1 c1] E1].
    destruct (lookup_lt_is_Some_2 L j Hj) as [[t2 c2] E2]. destruct (Hh i _ _ E1) as [_ S1].
    destruct (Hh j _ _ E2) as [_ S2]. intros x y Hx Hy. rewrite S1, S2. by apply H5.
  - lia.
Qed.

(** A new inode. *)
Lemma empty_holds s t : 0 < t < 2 ^ 15 -> holds s (empty_dinode t) t [].
Proof.
  intros Ht. split; try done.
  - split; [done|..]; intros; by rewrite empty_slots in *.
  - split.
    + intros bn Hbn. rewrite empty_slots. split; [done|]. change (zlen []) with 0. lia.
    + rewrite <- slot_indirect with (f := seal s), empty_slots. split; [done|]. unfold NDIRECT. change (zlen []) with 0. lia.
  - intros q Hq. unfold fbyte, fblock. rewrite empty_slots. cbn [Z.eqb].
    assert (nth (Z.to_nat q) [] 0 = 0) as -> by (by destruct (Z.to_nat q)).
    rewrite nth_lookup. unfold zeros. destruct (_ !! _) as [x|] eqn:E; [|done].
    by apply lookup_replicate in E as [-> _].
Qed.

Definition next_inode (s : mk) : mk := mkMk (img s) (isize s) (freeblock s) (usedblocks s) (freeinode s + 1).

Lemma ialloc_files s L t : files s L None -> Z.of_nat (length L) + 1 < ninodes -> 0 < t < 2 ^ 15 ->
  exists s', ialloc t s = Done (1 + Z.of_nat (length L)) s' /\ files s' (L ++ [(t, [])]) None.
Proof.
  intros [H1 H2 H3 H4 H5 H6] Hlen Ht. unfold ialloc, bind, gets, modify. fold (next_inode s).
  assert (s16 (xshort t) = t) as ->.
  { rewrite xshort_id by lia. rewrite <- (Z.mod_small t (2 ^ 16)) at 1 by lia. apply s16_mod. lia. }
  change (mkDinode t 0 0 (s16 (xshort 1)) (xint 0) (replicate 13 0)) with (empty_dinode t).
  set (o := Some (length L, empty_dinode t)).
  assert (forall j, (j < length L)%nat -> node (next_inode s) o j = node s None j) as Hnode.
  { intros j Hj. simpl. rewrite decide_False by lia. done. }
  assert (node (next_inode s) o (length L) = empty_dinode t) as Hnew by (simpl; by rewrite decide_True).
  assert (forall j k, (j < length L)%nat -> k = length L ->
    disj (seal (next_inode s)) (node (next_inode s) o k) (node (next_inode s) o j)) as Hdj.
  { intros j k Hj ->. rewrite Hnew. intros x y _ _. by rewrite empty_slots. }
  assert (files (next_inode s) (L ++ [(t, [])]) o) as Hf.
  { split; rewrite ?length_app; simpl length; try done.
    - destruct H1 as [G1 G2 G3 G4 G5 G6]. by split.
    - simpl. lia.
    - lia.
    - intros k t' c' Hk. apply lookup_snoc_Some in Hk as [[Hk Hl]|[-> [= <- <-]]].
      + rewrite Hnode by done. destruct (H4 k t' c' Hl). by split.
      + rewrite Hnew. by apply empty_holds.
    - intros j k Hne Hj Hk. destruct (decide (j = length L)); [apply Hdj; (done || lia)|].
      destruct (decide (k = length L)); [apply disj_sym, Hdj; (done || lia)|].
      rewrite !Hnode by lia. apply (H5 j k); (done || lia).
    - rewrite total_app. simpl. change (blks (zlen [])) with 0. lia. }
  destruct (winode_files _ _ _ _ Hf) as (s' & Hw & Hf' & _); [rewrite length_app; simpl; lia|].
  rewrite H2. rewrite Hw. by exists s'.
Qed.

(** ** Appending *)

(** The other files while one grows. *)
Lemma step_holds s s' d d' e t c : good s -> step s s' d d' -> di_ok (seal s) d -> holds s e t c -> disj (seal s) d e ->
  holds s' e t c /\ (forall j, slot (seal s') e j = slot (seal s) e j) /\ disj (seal s') d' e.
Proof.
  intros Hg Hst Hd He Hdj. pose proof (ho_ok _ _ _ _ He) as Hok.
  destruct (holds_same s s' e t c) as [Hh Hs]; [done|apply Hst|apply Hst|done|..].
  { intros j Hj Hnz. apply (st_keep _ _ _ _ Hst); [by apply slot_block|].
    intros i Hi E. apply (Hdj i j); congruence. }
  split; [done|]. split; [done|]. intros i j Hi Hj Hnz. rewrite Hs.
  destruct (st_own _ _ _ _ Hst i Hi Hnz) as [E|E].
  - rewrite E in *. by apply Hdj.
  - intros E'. destruct (decide (slot (seal s) e j = 0)); [congruence|].
    pose proof (slot_block s e j Hg Hok Hj ltac:(done)). lia.
Qed.

(** The file that grew. *)
Lemma appended_holds p s s' d d' t c : appended p (zlen c) s s' d d' -> holds s d t c -> zlen c + zlen p <= MAXBYTES ->
  holds s' (set_size (zlen c + zlen p) d') t (c ++ p).
Proof.
  intros [Hst Ht Hf Hb] [(E1 & E2 & E3 & E4 & E5) H2 H3 H4 _ H6] Hm. destruct (st_fields _ _ _ _ Hst) as [l Hl].
  split; rewrite ?zlen_app; try done.
  - subst d'. simpl. by rewrite E1, E2, E3, E4.
  - apply (di_ok_addrs _ d'); [done|apply Hst].
  - destruct Ht as [T1 T2]. split; [|done]. intros bn Hbn. rewrite (slot_addrs _ _ d') by done. by apply T1.
  - intros q Hq. rewrite (fbyte_addrs _ _ d') by done. rewrite Hb by done. pose proof (zlen_nonneg c) as Hc0.
    case_decide as E.
    + rewrite app_nth2 by (unfold zlen in *; lia). f_equal. unfold zlen. lia.
    + rewrite H6 by done. destruct (decide (q < zlen c)) as [Hlt|Hge].
      * rewrite app_nth1; [done|unfold zlen in *; lia].
      * rewrite !nth_overflow; [done|rewrite length_app; unfold zlen in *; lia|unfold zlen in *; lia].
Qed.

Lemma iappend_files s L k t c p : files s L None -> L !! k = Some (t, c) -> zlen c + zlen p <= MAXBYTES ->
  FIRST + total (<[k := (t, c ++ p)]> L) <= size ->
  exists s', iappend (1 + Z.of_nat k) p s = Done tt s' /\ files s' (<[k := (t, c ++ p)]> L) None.
Proof.
  intros [H1 H2 H3 H4 H5 H6] Hk Hm Hroom. pose proof (lookup_lt_Some _ _ _ Hk) as Hlt.
  pose proof (H4 k t c Hk) as Hd. simpl in Hd. set (d := disk_inode (seal s) (1 + Z.of_nat k)) in *.
  pose proof (total_insert L k t c (c ++ p) Hk) as Htot. rewrite zlen_app in Htot.
  destruct (iappend_from_ok (length p) p (zlen c) d s) as (s1 & d1 & Hrun & Ha);
    [done|apply Hd|apply Hd|apply zlen_nonneg|done|unfold zlen; lia|lia|].
  assert (MAXBYTES = 71680) as HM by done. pose proof (zlen_nonneg c). pose proof (zlen_nonneg p).
  pose proof (few_block (1 + Z.of_nat k) ltac:(lia)) as Hb.
  unfold iappend, rinode, bind. change (i2b (1 + Z.of_nat k)) with (IBLOCK (1 + Z.of_nat k)).
  unfold BITMAP in Hb. rewrite rsect_ok by (done || (unfold size; lia)). unfold ret.
  assert (dinode_of (1 + Z.of_nat k) (img s (IBLOCK (1 + Z.of_nat k))) = d) as ->.
  { unfold d, disk_inode. by rewrite seal_ne by (unfold BITMAP; lia). }
  assert (di_size d = zlen c) as -> by apply Hd. rewrite xint_id by lia. rewrite Hrun. rewrite xint_id by lia.
  set (d2 := set_size (zlen c + zlen p) d1). set (o := Some (k, d2)).
  pose proof (appended_holds p s s1 d d1 t c Ha Hd Hm) as Hd2. fold d2 in Hd2. destruct Ha as [Hst _ Hfr _].
  assert (forall j, (j < length L)%nat -> j <> k -> node s1 o j = node s None j) as Hnode.
  { intros j Hjl Hj. simpl. rewrite decide_False by done. unfold disk_inode.
    pose proof (few_block (1 + Z.of_nat j) ltac:(lia)) as Hbj. unfold BITMAP in Hbj.
    rewrite !seal_ne by (unfold BITMAP; lia). by rewrite (st_inodes _ _ _ _ Hst) by (unfold BITMAP; lia). }
  assert (node s1 o k = d2) as Hnew by (simpl; by rewrite decide_True).
  assert (forall j t c, L !! j = Some (t, c) -> j <> k -> holds s1 (node s1 o j) t c /\
    (forall i, slot (seal s1) (node s1 o j) i = slot (seal s) (node s None j) i) /\
    disj (seal s1) d2 (node s1 o j)) as Hoth.
  { intros j t' c' Hj Hne. pose proof (lookup_lt_Some _ _ _ Hj). rewrite Hnode by done.
    destruct (step_holds s s1 d d1 (node s None j) t' c') as (A & B & C); [done|done|apply Hd|by apply H4|by apply (H5 k j)|].
    split; [done|]. split; [done|]. intros x y. rewrite (slot_addrs _ d2 d1) by done. apply C. }
  assert (files s1 (<[k := (t, c ++ p)]> L) o) as Hf1.
  { split; rewrite ?length_insert; try done.
    - apply Hst.
    - by rewrite (st_next _ _ _ _ Hst).
    - intros j t' c' Hj. apply list_lookup_insert_Some in Hj as [(<- & [= <- <-] & _)|[Hne Hj]].
      + by rewrite Hnew.
      + by apply Hoth.
    - intros i j Hne Hi Hj. destruct (lookup_lt_is_Some_2 L i Hi) as [[t1 c1] E1].
      destruct (lookup_lt_is_Some_2 L j Hj) as [[t2 c2] E2]. destruct (decide (i = k)) as [->|Hik].
      + rewrite Hnew. by apply (Hoth j t2 c2).
      + destruct (decide (j = k)) as [->|Hjk]; [rewrite Hnew; apply disj_sym; by apply (Hoth i t1 c1)|].
        destruct (Hoth i t1 c1 E1 Hik) as (_ & S1 & _). destruct (Hoth j t2 c2 E2 Hjk) as (_ & S2 & _).
        intros x y Hx Hy. rewrite S1, S2. by apply H5.
    - lia. }
  destruct (winode_files _ _ _ _ Hf1) as (s' & Hw & Hf' & _); [by rewrite length_insert|].
  rewrite Hw. by exists s'.
Qed.

Lemma total_insert_mono L k t c c' : L !! k = Some (t, c) -> zlen c <= zlen c' -> total L <= total (<[k := (t, c')]> L).
Proof. intros Hk Hc. rewrite (total_insert L k t c c' Hk). pose proof (blks_mono _ _ Hc). lia. Qed.

Lemma copy_file_files fuel s L k t c l : files s L None -> L !! k = Some (t, c) -> zlen c + zlen l <= MAXBYTES ->
  zlen l <= Z.of_nat fuel -> FIRST + total (<[k := (t, c ++ l)]> L) <= size ->
  exists s', copy_file fuel (1 + Z.of_nat k) l s = Done tt s' /\ files s' (<[k := (t, c ++ l)]> L) None.
Proof.
  revert s L c l. induction fuel as [|fuel IH]; intros s L c l Hf Hk Hm Hfu Hroom; cbn [copy_file];
    destruct (Z.ltb_spec 0 (zlen l)) as [Hp|Hp]; try lia.
  1,3: assert (l = []) as -> by (destruct l; [done|unfold zlen in Hp; simpl in Hp; lia]);
    rewrite app_nil_r, list_insert_id in * by done; by exists s.
  assert (l = take 512 l ++ drop 512 l) as Hl by (by rewrite take_drop).
  assert (zlen l = zlen (take 512 l) + zlen (drop 512 l)) as Hz by (by rewrite <- zlen_app, take_drop).
  assert (0 < zlen (take 512 l)) as Ht by (unfold zlen in *; rewrite length_take; lia).
  pose proof (zlen_nonneg (drop 512 l)). pose proof (lookup_lt_Some _ _ _ Hk) as Hlt.
  assert (<[k := (t, c ++ l)]> L = <[k := (t, (c ++ take 512 l) ++ drop 512 l)]> (<[k := (t, c ++ take 512 l)]> L)) as E.
  { by rewrite list_insert_insert_eq, <- app_assoc, <- Hl. }
  destruct (iappend_files s L k t c (take 512 l)) as (s1 & Hw & Hf1); [done|done|lia|..].
  { etrans; [|exact Hroom]. apply Z.add_le_mono_l. rewrite E.
    apply (total_insert_mono _ _ _ (c ++ take 512 l)); [by rewrite list_lookup_insert_eq|rewrite !zlen_app; lia]. }
  unfold bind. rewrite Hw. rewrite E in Hroom |- *.
  apply IH; [done|by rewrite list_lookup_insert_eq|rewrite zlen_app; lia|lia|done].
Qed.

(** ** The names of the root directory *)

(** Names and inode numbers of the files, from number [i] on. *)
Fixpoint named (i : Z) (inputs : list (list Z * list Z)) : list (list Z * Z) :=
  match inputs with
  | [] => []
  | (arg, _) :: inputs => (skip_underscore arg, i) :: named (i + 1) inputs
  end.

Definition root_names (inputs : list (list Z * list Z)) : list (list Z * Z) :=
  ([DOT], ROOTINO) :: ([DOT; DOT], ROOTINO) :: named 2 inputs.

Definition dir_bytes (names : list (list Z * Z)) : list Z := concat (map (fun x => entry x.2 x.1) names).

Definition as_files (inputs : list (list Z * list Z)) : list (Z * list Z) := map (fun x => (T_FILE, x.2)) inputs.

(** What the image holds at the end. *)
Definition contents (inputs : list (list Z * list Z)) : list (Z * list Z) :=
  (T_DIR, dir_bytes (root_names inputs)) :: as_files inputs.

Lemma zlen_entry i n : zlen (entry i n) = 16.
Proof. unfold entry, dirent_bytes. cbn [de_inum de_name]. rewrite zlen_app, zlen_le_bytes, zlen_strncpy. done. Qed.

Lemma zlen_dir_bytes names : zlen (dir_bytes names) = 16 * zlen names.
Proof.
  induction names as [|x names IH]; [done|].
  change (dir_bytes (x :: names)) with (entry x.2 x.1 ++ dir_bytes names). rewrite zlen_app, zlen_entry, IH.
  unfold zlen. simpl length. lia.
Qed.

Section add_files.
Context (host : list Z -> option (list Z)).

(** A file that mkfs can open, with a name that is allowed. *)
Definition input_ok (x : list Z * list Z) : Prop :=
  existsb (Z.eqb slash) x.1 = false /\ host x.1 = Some x.2 /\ zlen x.2 <= MAXBYTES.

Lemma total_nonneg L : 0 <= total L.
Proof.
  induction L as [|[t c] L IH]; simpl; [done|]. pose proof (blks_mono 0 (zlen c) (zlen_nonneg c)).
  change (blks 0) with 0 in *. lia.
Qed.

Lemma add_files_ok inputs : forall s rc F, files s ((T_DIR, rc) :: F) None -> Forall input_ok inputs ->
  zlen rc = 16 * (2 + zlen F) -> 1 + zlen F + zlen inputs < ninodes ->
  let L := (T_DIR, rc ++ dir_bytes (named (2 + zlen F) inputs)) :: F ++ as_files inputs in
  FIRST + total L <= size ->
  exists s', add_files host ROOTINO (map fst inputs) s = Done tt s' /\ files s' L None.
Proof.
  induction inputs as [|[a c] inputs IH]; intros s rc F Hf Hin Hrc Hn L Hroom; cbn [add_files map fst].
  { exists s. split; [done|]. unfold L. simpl. by rewrite !app_nil_r. }
  apply Forall_cons in Hin as [(Hs & Hh & Hc) Hin]. simpl in Hs, Hh, Hc. rewrite Hs, Hh. unfold ninodes in Hn.
  pose proof (zlen_nonneg inputs) as Hni.
  assert (zlen ((a, c) :: inputs) = 1 + zlen inputs) as Hni' by (unfold zlen; simpl; lia). rewrite Hni' in Hn.
  set (e := entry (2 + zlen F) (skip_underscore a)).
  set (L1 := (T_DIR, rc ++ e) :: F ++ [(T_FILE, [])]). set (L2 := (T_DIR, rc ++ e) :: (F ++ [(T_FILE, c)])).
  assert (zlen (F ++ [(T_FILE, c)]) = zlen F + 1) as HF by (rewrite zlen_app; done).
  assert (L = (T_DIR, (rc ++ e) ++ dir_bytes (named (2 + zlen (F ++ [(T_FILE, c)])) inputs)) ::
    (F ++ [(T_FILE, c)]) ++ as_files inputs) as HL.
  { unfold L. cbn [named].
    change (dir_bytes (_ :: ?l)) with (e ++ dir_bytes l).
    rewrite HF, Z.add_assoc, <- !app_assoc. done. }
  assert (total L2 <= total L) as T2.
  { rewrite HL. unfold L2. simpl. rewrite !total_app. pose proof (total_nonneg (as_files inputs)).
    pose proof (blks_mono (zlen (rc ++ e)) (zlen ((rc ++ e) ++ dir_bytes (named (2 + zlen (F ++ [(T_FILE, c)])) inputs)))) as Hm.
    rewrite (zlen_app (rc ++ e)) in *. pose proof (zlen_nonneg (dir_bytes (named (2 + zlen (F ++ [(T_FILE, c)])) inputs))).
    specialize (Hm ltac:(lia)). simpl. lia. }
  assert (total L1 <= total L2) as T1.
  { unfold L1, L2. simpl. rewrite !total_app. simpl. pose proof (blks_mono 0 (zlen c) (zlen_nonneg c)).
    change (blks (zlen [])) with 0. change (blks 0) with 0 in *. lia. }
  destruct (ialloc_files s ((T_DIR, rc) :: F) T_FILE) as (s1 & Hi & Hf1);
    [done|simpl; unfold ninodes, zlen in *; lia|done|].
  assert (1 + Z.of_nat (length ((T_DIR, rc) :: F)) = 2 + zlen F) as En by (unfold zlen; simpl; lia).
  unfold bind at 1. rewrite Hi, En. fold e. assert (MAXBYTES = 71680) as HM by done.
  destruct (iappend_files s1 (((T_DIR, rc) :: F) ++ [(T_FILE, [])]) 0 T_DIR rc e) as (s2 & Ha & Hf2);
    [done|done|unfold e; rewrite zlen_entry; lia|change (FIRST + total L1 <= size); lia|].
  unfold bind at 1. change ROOTINO with (1 + Z.of_nat 0) at 1. rewrite Ha. change (<[0%nat := _]> _) with L1 in Hf2.
  assert (L1 !! (S (length F)) = Some (T_FILE, [])) as Hlast by (simpl; by rewrite list_lookup_middle).
  assert (<[S (length F) := (T_FILE, [] ++ c)]> L1 = L2) as HL2.
  { unfold L1, L2. simpl. f_equal. rewrite insert_app_r_alt by lia. by rewrite Nat.sub_diag. }
  destruct (copy_file_files (length c) s2 L1 (S (length F)) T_FILE [] c) as (s3 & Hcp & Hf3);
    [done|done|done|unfold zlen; lia|rewrite HL2; lia|]. rewrite HL2 in Hf3.
  unfold bind at 1. replace (2 + zlen F) with (1 + Z.of_nat (S (length F))) by (unfold zlen in *; lia). rewrite Hcp.
  rewrite HL. apply IH; [done|done| |unfold ninodes; lia|by rewrite <- HL]. rewrite zlen_app, HF. unfold e. rewrite zlen_entry. lia.
Qed.
End add_files.
