(* ===== verification/MkfsBoot.v ===== *)
(** * mkfs.c and the kernel: the image is one the kernel can use

    The theorems on mkfs as a whole: the image is a well-formed file system that holds the
    files of the command line, and a kernel that starts with it opens each of them by
    name and reads its bytes. *)

From Stdlib Require Import FunctionalExtensionality.
From S2P Require Import Prelude Bytes FsFormat Log Fs Inode InodeData Dir Mkfs MkfsFiles.

(** ** main *)

Lemma zero_from_run n i s : img s = (fun _ => zeros) -> 0 <= i ->
  zero_from n i s = Done tt (set_img (fun _ => zeros) (if (n =? 0)%nat then isize s else Z.max (isize s) (i + Z.of_nat n)) s).
Proof.
  revert i s. induction n as [|n IH]; intros i s Hi H0.
  - simpl. destruct s. simpl in *. by subst.
  - cbn [zero_from]. unfold bind, wsect, modify. rewrite IH; [|simpl; rewrite Hi|lia].
    + unfold set_img. cbn [img isize freeblock usedblocks freeinode Nat.eqb]. f_equal. f_equal.
      destruct n; cbn [Nat.eqb]; lia.
    + apply functional_extensionality. intros j. unfold upd. by case_decide.
Qed.

(** The state before the first inode. *)
Definition fresh : mk := mkMk (upd 1 (splice 0 (sb_bytes SB) (replicate 512 0)) (fun _ => zeros)) size FIRST FIRST 1.

Lemma fresh_files : files fresh [] None.
Proof.
  split; try done.
  - split; try done.
    + intros b. simpl. unfold upd. by case_decide.
    + intros b Hb. simpl in Hb. unfold fresh, FIRST in *. simpl. by rewrite upd_ne by lia.
  - intros j k _ Hj. simpl in Hj. lia.
Qed.

Section main.
Context (host : list Z -> option (list Z)) (inputs : list (list Z * list Z)).
Hypothesis Hin : Forall (input_ok host) inputs.
Hypothesis Hfew : zlen inputs + 1 < ninodes.
Hypothesis Hroom : FIRST + total (contents inputs) <= size.

(** The bytes of the root directory. *)
Definition dir_len : Z := 16 * (2 + zlen inputs).

Lemma zlen_named i l : zlen (named i l) = zlen l.
Proof. revert i. induction l as [|[a c] l IH]; intros i; [done|]. specialize (IH (i + 1)). unfold zlen in *. simpl. lia. Qed.

Lemma zlen_root : zlen (dir_bytes (root_names inputs)) = dir_len.
Proof using Type.
  rewrite zlen_dir_bytes. unfold dir_len, root_names. pose proof (zlen_named 2 inputs) as H. unfold zlen in *. simpl. lia.
Qed.

(** Up to the correction of the size of the root directory. *)
Definition finish : M mk unit :=
  let! din := rinode ROOTINO in
  let off := xint (di_size din) in
  winode ROOTINO (set_size (xint ((off / BSIZE + 1) * BSIZE)) din) ;;
  let! used := gets usedblocks in
  balloc used.

Lemma mkfs_start args : mkfs host args mk0 =
  (let! rootino := ialloc T_DIR in
   if negb (rootino =? ROOTINO) then panic "assert"
   else
     iappend rootino (entry rootino [DOT]) ;;
     iappend rootino (entry rootino [DOT; DOT]) ;;
     add_files host rootino args ;;
     let! din := rinode rootino in
     let off := xint (di_size din) in
     winode rootino (set_size (xint ((off / BSIZE + 1) * BSIZE)) din) ;;
     let! used := gets usedblocks in
     balloc used) fresh.
Proof.
  unfold mkfs. unfold bind at 1, modify at 1.
  change (negb (nblocks + (ninodes / IPB + 3 + (size / (512 * 8) + 1)) + nlog =? size)) with false. cbn iota.
  change (nblocks + (ninodes / IPB + 3 + (size / (512 * 8) + 1)) + nlog) with 1024.
  change (ninodes / IPB + 3 + (size / (512 * 8) + 1)) with 29.
  change (mkSb (xint size) (xint nblocks) (xint ninodes) (xint nlog)) with SB.
  unfold bind at 1. rewrite zero_from_run by done. unfold bind at 1, wsect at 1, modify at 1. reflexivity.
Qed.

Lemma root_made : exists s, files s (contents inputs) None /\ mkfs host (map fst inputs) mk0 = finish s.
Proof using Hin Hfew Hroom.
  rewrite mkfs_start. pose proof (zlen_nonneg inputs). pose proof zlen_root as Hrl. unfold ninodes, size, FIRST in *.
  destruct (ialloc_files fresh [] T_DIR fresh_files) as (s1 & Hi & Hf1); [done|done|].
  unfold bind at 1. rewrite Hi. change (negb (1 + Z.of_nat (length []) =? ROOTINO)) with false. cbn iota.
  change (1 + Z.of_nat (length [])) with ROOTINO. simpl app in Hf1.
  destruct (iappend_files s1 [(T_DIR, [])] 0 T_DIR [] (entry ROOTINO [DOT]) Hf1) as (s2 & Ha & Hf2); [done|done|done|].
  unfold bind at 1. change ROOTINO with (1 + Z.of_nat 0) at 1. rewrite Ha. simpl insert in Hf2.
  destruct (iappend_files s2 _ 0 T_DIR (entry ROOTINO [DOT]) (entry ROOTINO [DOT; DOT]) Hf2) as (s3 & Hb & Hf3); [done|done|done|].
  unfold bind at 1. change ROOTINO with (1 + Z.of_nat 0) at 1. rewrite Hb. simpl insert in Hf3.
  destruct (add_files_ok host inputs s3 (entry ROOTINO [DOT] ++ entry ROOTINO [DOT; DOT]) [] Hf3 Hin) as (s4 & Hc & Hf4); [done|unfold ninodes; change (zlen []) with 0; lia|done|].
  unfold bind at 1. rewrite Hc. exists s4. split; [exact Hf4|done].
Qed.

(** ** The image *)

(** The inode of file [k]. *)
Definition inode_of (f : Z -> list Z) (k : nat) : dinode := disk_inode f (1 + Z.of_nat k).

(** The root directory has its entries, then zeroes up to the end of a block; each file
    its bytes; no two share a block; the bitmap is right. *)
Record image (f : Z -> list Z) : Prop := {
  im_wf : fs_wf f;
  im_sb : sbof f = mkSb size nblocks ninodes nlog;
  im_used b : 0 <= b < size -> used f b = (b <? FIRST + total (contents inputs));
  im_inode k t c : contents inputs !! k = Some (t, c) ->
    di_type (inode_of f k) = t /\ di_nlink (inode_of f k) = 1 /\ di_ok f (inode_of f k) /\
    tight f (inode_of f k) (zlen c) /\
    di_size (inode_of f k) = (if decide (k = 0%nat) then (zlen c / BSIZE + 1) * BSIZE else zlen c) /\
    forall q, 0 <= q < MAXBYTES -> fbyte f (inode_of f k) q = nth (Z.to_nat q) c 0;
  im_disj j k : j <> k -> (j < length (contents inputs))%nat -> (k < length (contents inputs))%nat ->
    disj f (inode_of f j) (inode_of f k) }.

Lemma mkfs_finish_ok s : files s (contents inputs) None ->
  exists s', finish s = Done tt s' /\ isize s' = size /\ image (img s').
Proof using Hfew.
  intros [H1 H2 H3 H4 H5 H6]. pose proof (H4 0%nat T_DIR _ eq_refl) as Hd. pose proof (zlen_nonneg inputs) as Hn0.
  change (node s None 0) with (disk_inode (seal s) 1) in Hd. set (d := disk_inode (seal s) 1) in *.
  pose proof Hd as [(D1 & D2 & D3 & D4 & D5) _ _ _ _ _]. rewrite zlen_root in D5. unfold dir_len, ninodes in *.
  unfold finish, rinode, bind at 1, bind at 1. change (i2b ROOTINO) with 2.
  rewrite rsect_ok by done. unfold ret at 1.
  change (dinode_of ROOTINO (img s 2)) with d. rewrite D5. set (n := 16 * (2 + zlen inputs)) in *. rewrite (xint_id n) by lia.
  assert (0 <= (n / BSIZE + 1) * BSIZE < 2 ^ 32) as Hr by (unfold BSIZE; zlia). rewrite xint_id by done.
  set (d' := set_size ((n / BSIZE + 1) * BSIZE) d).
  destruct (winode_run s ROOTINO d') as (s2 & Hw & Hg2 & Hfr & _ & Hdk & Himg); [done|unfold ROOTINO, ninodes; lia|..].
  { destruct (holds_wf s d _ _ H1 Hd) as [W1 W2 W3 W4 W5 W6]. by split. }
  unfold bind at 1. rewrite Hw. unfold bind, gets. rewrite (g_used s2 Hg2). unfold balloc.
  pose proof (g_free s2 Hg2) as Hf2. unfold FIRST, size in Hf2.
  destruct (Z.ltb_spec (freeblock s2) (512 * 8)); [|lia]. cbn [negb]. change (ninodes / IPB + 3) with BITMAP.
  unfold wsect, modify. rewrite (g_size s2 Hg2). eexists. split; [done|]. split; [done|].
  cbn [img set_img]. fold (seal s2).
  assert (forall k, inode_of (seal s2) k = if decide (k = 0%nat) then d' else node s None k) as Hino.
  { intros k. unfold inode_of. rewrite Hdk. unfold ROOTINO. repeat case_decide; try lia; done. }
  assert (forall k t c, contents inputs !! k = Some (t, c) -> holds s2 (node s None k) t c /\
    forall j, slot (seal s2) (node s None k) j = slot (seal s) (node s None k) j) as Hh.
  { intros k t c Hk. apply holds_same; [done|done|lia|by apply H4|]. intros j Hj Hnz. apply Himg.
    by apply (slot_block s _ j H1 (ho_ok _ _ _ _ (H4 k t c Hk))). }
  assert (forall k, di_addrs (inode_of (seal s2) k) = di_addrs (node s None k)) as Had.
  { intros k. rewrite Hino. by case_decide; [subst|]. }
  split.
  - by apply seal_wf.
  - by rewrite seal_sb.
  - intros b Hb. unfold size in Hb. rewrite seal_used by (done || (change BPB with 4096; lia)). by rewrite Hfr, H6.
  - intros k t c Hk. destruct (Hh k t c Hk) as [[(E1 & E2 & E3 & E4 & E5) _ _ Hok [T1 T2] Hb] _].
    assert (di_type (inode_of (seal s2) k) = t /\ di_nlink (inode_of (seal s2) k) = 1) as [-> ->]
      by (rewrite Hino; by case_decide; [subst|]).
    split; [done|]. split; [done|]. split; [by apply (di_ok_addrs _ (node s None k))|]. split; [|split].
    + split.
      * intros bn Hbn. rewrite (slot_addrs _ _ (node s None k)) by done. by apply T1.
      * unfold addr in *. by rewrite Had.
    + rewrite Hino. case_decide; [|done]. subst k. injection Hk as <- <-. by rewrite zlen_root.
    + intros q Hq. rewrite (fbyte_addrs _ _ (node s None k)) by done. by apply Hb.
  - intros j k Hne Hj Hk. destruct (lookup_lt_is_Some_2 _ j Hj) as [[t1 c1] E1].
    destruct (lookup_lt_is_Some_2 _ k Hk) as [[t2 c2] E2].
    intros x y Hx Hy. rewrite !(slot_addrs _ (inode_of _ _) (node s None _)) by done.
    rewrite (proj2 (Hh j _ _ E1)), (proj2 (Hh k _ _ E2)). by apply H5.
Qed.
End main.

(** ** Names *)

Definition lookup_name (names : list (list Z * Z)) (name : list Z) : option Z :=
  match List.find (fun x => namecmp name x.1 =? 0) names with Some x => Some x.2 | None => None end.

Lemma find_seq {A} (P : A -> bool) (g : nat -> bool) (l : list A) i :
  (forall j x, l !! j = Some x -> g (i + j)%nat = P x) ->
  match List.find g (seq i (length l)) with
  | Some k => exists x, (i <= k)%nat /\ l !! (k - i)%nat = Some x /\ List.find P l = Some x
  | None => List.find P l = None
  end.
Proof.
  revert i. induction l as [|x l IH]; intros i Hg; [done|]. cbn [length seq List.find].
  pose proof (Hg 0%nat x eq_refl) as H0. rewrite Nat.add_0_r in H0. rewrite H0. destruct (P x).
  - exists x. by rewrite Nat.sub_diag.
  - specialize (IH (S i)). destruct (List.find g (seq (S i) (length l))) as [k|].
    + destruct IH as (y & Hk & Hy & Hf); [intros j y Hj; rewrite <- (Hg (S j) y Hj); f_equal; lia|].
      exists y. split; [lia|]. split; [|done]. by replace (k - i)%nat with (S (k - S i)) by lia.
    + apply IH. intros j y Hj. rewrite <- (Hg (S j) y Hj). f_equal. lia.
Qed.

Lemma map_nth_seq (e : list Z) n : length e = n -> map (fun i => nth i e 0) (seq 0 n) = e.
Proof.
  intros <-. apply list_eq. intros i. rewrite list_lookup_fmap. destruct (decide (i < length e)%nat) as [Hi|Hi].
  - rewrite lookup_seq_lt by done. simpl. rewrite nth_lookup. by destruct (lookup_lt_is_Some_2 e i Hi) as [x ->].
  - rewrite lookup_seq_ge by lia. symmetry. apply lookup_ge_None. lia.
Qed.

Lemma nth_dir_bytes names k x i : names !! k = Some x -> (i < 16)%nat ->
  nth (16 * k + i) (dir_bytes names) 0 = nth i (entry x.2 x.1) 0.
Proof.
  intros Hk Hi. revert k Hk. induction names as [|y names IH]; intros [|k] Hk; [done|done|..];
    change (dir_bytes (y :: names)) with (entry y.2 y.1 ++ dir_bytes names);
    pose proof (zlen_entry y.2 y.1) as Hl; unfold zlen in Hl.
  - injection Hk as ->. rewrite app_nth1; [done|lia].
  - rewrite app_nth2 by lia. rewrite <- (IH k Hk). f_equal. lia.
Qed.

Lemma dirent_entry i n : 0 <= i < 2 ^ 16 -> dirent_of (entry i n) = mkDirent i (strncpy (Z.to_nat DIRSIZ) n).
Proof.
  intros Hi. unfold entry. rewrite xshort_id by done. apply dirent_of_bytes; [done|].
  cbn [de_name]. by rewrite zlen_strncpy.
Qed.

Lemma named_range i l : Forall (fun x => i <= x.2 < i + zlen l) (named i l).
Proof.
  revert i. induction l as [|[a c] l IH]; intros i; [constructor|]. simpl.
  assert (zlen ((a, c) :: l) = 1 + zlen l) as -> by (unfold zlen; simpl; lia). pose proof (zlen_nonneg l).
  constructor; [simpl; lia|]. eapply Forall_impl; [apply IH|]. intros x Hx. simpl in *. lia.
Qed.

Section names.
Context (inputs : list (list Z * list Z)) (f : Z -> list Z).
Hypothesis Him : image inputs f.
Hypothesis Hfew : zlen inputs + 1 < ninodes.

Lemma zlen_names : zlen (root_names inputs) = 2 + zlen inputs.
Proof using Type. pose proof (zlen_root inputs) as H. rewrite zlen_dir_bytes in H. unfold dir_len in H. lia. Qed.

Lemma root_inums k x : root_names inputs !! k = Some x -> 0 < x.2 < 2 ^ 16.
Proof using Hfew.
  revert k x. apply (Forall_lookup (fun x => 0 < x.2 < 2 ^ 16)). unfold ninodes in *.
  repeat (constructor; [simpl; unfold ROOTINO; lia|]). eapply Forall_impl; [apply named_range|].
  intros x Hx. simpl in *. lia.
Qed.

Lemma root_byte q : 0 <= q < MAXBYTES -> fbyte f (inode_of f 0) q = nth (Z.to_nat q) (dir_bytes (root_names inputs)) 0.
Proof using Him. destruct (im_inode _ _ Him 0%nat _ _ eq_refl) as (_ & _ & _ & _ & _ & H). apply H. Qed.

Lemma root_entry k x : root_names inputs !! k = Some x ->
  dent f (inode_of f 0) k = mkDirent x.2 (strncpy (Z.to_nat DIRSIZ) x.1).
Proof using Him Hfew.
  intros Hk. pose proof (lookup_lt_Some _ _ _ Hk) as Hlt. pose proof zlen_names as Hn. unfold dent.
  replace (fbytes f (inode_of f 0) (16 * Z.of_nat k) 16) with (entry x.2 x.1).
  { apply dirent_entry. pose proof (root_inums k x Hk). lia. }
  unfold fbytes. rewrite <- (map_nth_seq (entry x.2 x.1) 16) by (pose proof (zlen_entry x.2 x.1); unfold zlen in *; lia).
  apply map_ext_in. intros i Hi%in_seq. assert (MAXBYTES = 71680) as HM by done. unfold ninodes in *.
  rewrite root_byte by (unfold zlen in *; lia).
  rewrite <- (nth_dir_bytes (root_names inputs) k x) by (done || lia). f_equal. lia.
Qed.

Lemma root_rest k name : zlen (root_names inputs) <= Z.of_nat k < 4480 -> matches name (dent f (inode_of f 0) k) = false.
Proof using Him.
  intros Hk. unfold matches, dent, dirent_of. cbn [de_inum]. assert (MAXBYTES = 71680) as HM by done.
  assert (fbytes f (inode_of f 0) (16 * Z.of_nat k) 16 = replicate 16 0) as ->; [|done].
  unfold fbytes. change (replicate 16 0) with (map (fun _ : nat => 0) (seq 0 (Z.to_nat 16))). apply map_ext_in.
  intros i Hi%in_seq. rewrite root_byte by lia. apply nth_overflow. pose proof (zlen_dir_bytes (root_names inputs)).
  unfold zlen in *. lia.
Qed.

Definition root_size : Z := (dir_len inputs / BSIZE + 1) * BSIZE.

(** The kernel's lookup in the root directory finds the first entry of the name. *)
Lemma image_names name : dir_inum f (inode_of f 0) name = lookup_name (root_names inputs) name.
Proof using Him Hfew.
  destruct (im_inode _ _ Him 0%nat _ _ eq_refl) as (_ & _ & _ & _ & Hsz & _).
  rewrite decide_True, zlen_root in Hsz by done. pose proof zlen_names as Hn. pose proof (zlen_nonneg inputs).
  unfold dir_inum, find_entry, lookup_name. rewrite Hsz. set (names := root_names inputs) in *.
  assert (forall j x, names !! j = Some x -> matches name (dent f (inode_of f 0) (0 + j)) = (namecmp name x.1 =? 0)) as Hm.
  { intros j x Hj. simpl. rewrite (root_entry j x Hj). unfold matches. cbn [de_inum de_name]. unfold namecmp.
    rewrite strncmp_strncpy. pose proof (root_inums j x Hj). by destruct (Z.eqb_spec x.2 0); [lia|]. }
  assert (Z.of_nat (length names) <= root_size / 16 < 4480) as Hlen
    by (unfold root_size, dir_len, BSIZE, ninodes, zlen in *; zlia).
  change ((dir_len inputs / BSIZE + 1) * BSIZE) with root_size.
  replace (Z.to_nat (root_size / 16)) with (length names + (Z.to_nat (root_size / 16) - length names))%nat by lia.
  rewrite seq_app, find_app.
  pose proof (find_seq (fun x => namecmp name x.1 =? 0) (fun k => matches name (dent f (inode_of f 0) k)) names 0 Hm) as Hfs.
  destruct (List.find _ (seq 0 (length names))) as [k|].
  - destruct Hfs as (x & _ & Hx & ->). rewrite Nat.sub_0_r in Hx. by rewrite (root_entry k x Hx).
  - rewrite Hfs. destruct (List.find _ (seq _ _)) as [k|] eqn:E; [|done]. apply find_some in E as [E1%in_seq E2].
    rewrite root_rest in E2; [done|]. fold names. unfold zlen. lia.
Qed.
End names.

(** ** The kernel opens a file *)

Lemma iget_scan_free n c l e : (forall j, In j l -> iref (c j) = 0) -> iget_scan n c l (Some e) = (None, Some e).
Proof.
  induction l as [|j l IH]; intros H; [done|]. simpl. rewrite (H j) by (by left). simpl. apply IH. intros i Hi. apply H. by right.
Qed.

(** The next slot, when the ones in use hold other inodes. *)
Lemma iget_next s n k : (k < NINODE)%nat -> (forall j, (j < k)%nat -> 0 < iref (icache s j) /\ inum (icache s j) <> n) ->
  (forall j, (k <= j)%nat -> iref (icache s j) = 0) ->
  iget n s = Done k (set_inode k (mkInode n 1 false false (idi (icache s k))) s).
Proof.
  intros Hk Hused Hfree. unfold iget.
  assert (forall m a, (a + m = k)%nat -> iget_scan n (icache s) (seq a (NINODE - a)) None = (None, Some k)) as H.
  { induction m as [|m IH]; intros a Ha.
    - assert (a = k) as -> by lia. replace (NINODE - k)%nat with (S (NINODE - S k)) by lia. cbn [seq iget_scan].
      rewrite (Hfree k) by lia. cbn [Z.ltb Z.compare andb Z.eqb]. apply iget_scan_free. intros j Hj%in_seq. apply Hfree. lia.
    - replace (NINODE - a)%nat with (S (NINODE - S a)) by lia. cbn [seq iget_scan].
      destruct (Hused a) as [H1 H2]; [lia|]. destruct (Z.ltb_spec 0 (iref (icache s a))); [|lia].
      destruct (Z.eqb_spec (inum (icache s a)) n); [done|]. cbn [andb].
      destruct (Z.eqb_spec (iref (icache s a)) 0); [lia|]. apply IH. lia. }
  specialize (H k 0%nat eq_refl). rewrite Nat.sub_0_r in H. by rewrite H.
Qed.

Lemma ilock_load s i n r d0 : icache s i = mkInode n r false false d0 -> 0 < r -> di_type (disk_inode (fb s) n) <> 0 ->
  ilock i s = Done tt (set_inode i (mkInode n r true true (disk_inode (fb s) n)) s).
Proof.
  intros Hi Hr Ht. unfold ilock, bind, gets, change, modify, bread, gets, ret. rewrite Hi. cbn [iref ibusy ivalid inum].
  destruct (Z.ltb_spec r 1); [lia|]. fold (disk_inode (fb s) n).
  cbn [fb set_inode set_icache icache]. rewrite !upd_eq. fold (disk_inode (fb s) n).
  destruct (Z.eqb_spec (di_type (disk_inode (fb s) n)) 0); [done|].
  unfold set_inode, set_icache. cbn [fb flog icache cwd]. by rewrite !upd_upd, Hi.
Qed.

Lemma iunlockput_run s i n d : icache s i = mkInode n 1 true true d -> di_nlink d <> 0 ->
  iunlockput i s = Done tt (set_inode i (mkInode n 0 false true d) s).
Proof.
  intros Hi Hn. unfold iunlockput, bind at 1.
  assert (iunlock i s = Done tt (set_inode i (mkInode n 1 false true d) s)) as ->.
  { unfold iunlock, bind, gets, change, modify. rewrite Hi. cbn [ibusy iref negb orb].
    change (1 <? 1) with false. cbv beta iota. by rewrite Hi. }
  apply Z.eqb_neq in Hn. unfold iput, bind, gets, change, modify, ret, set_inode, set_icache. cbn [fb flog icache cwd].
  rewrite !upd_eq. cbn [iref ivalid idi]. rewrite Hn. cbn [Z.eqb Pos.eqb andb]. cbv beta iota. cbn [fb flog icache cwd].
  rewrite !upd_eq. by rewrite upd_upd.
Qed.

Lemma strncmp_take n p q : strncmp n (take n p) q = strncmp n p q.
Proof.
  revert p q. induction n as [|n IH]; intros p q; [done|]. destruct p as [|a p]; [done|]. simpl. by rewrite IH.
Qed.

Lemma take_elem_plain l : existsb (Z.eqb slash) l = false -> take_elem l = (l, []).
Proof.
  induction l as [|c l IH]; [done|]. cbn [existsb take_elem]. intros [H1 H2]%orb_false_iff. rewrite Z.eqb_sym, H1.
  by rewrite IH.
Qed.

Lemma skipelem_root name : name <> [] -> existsb (Z.eqb slash) name = false ->
  skipelem (slash :: name) = Some ([], take (Z.to_nat DIRSIZ) name).
Proof.
  intros Hne Hs. unfold skipelem. change (skip_slashes (slash :: name)) with (skip_slashes name).
  assert (skip_slashes name = name) as ->.
  { destruct name as [|c name]; [done|]. cbn [existsb] in Hs. cbn [skip_slashes]. apply orb_false_iff in Hs as [H1 _]. by rewrite Z.eqb_sym, H1. }
  destruct name as [|c name]; [done|]. by rewrite take_elem_plain by done.
Qed.

(** Open a file by its path and read its first [n] bytes. *)
Definition open_read (devread : Z -> option (nat -> Z -> M fs (Z * list Z))) (path : list Z) (n : Z) : M fs (option (list Z)) :=
  let! r := namei devread path in
  match r with
  | None => ret None
  | Some ip =>
      ilock ip ;;
      let! '(m, l) := readi devread ip 0 n in
      ret (Some l)
  end.

(** The file system of a kernel that has just started: the inode cache is zeroed. *)
Definition booted (f : Z -> list Z) : fs :=
  mkFs f [] (fun _ => mkInode 0 0 false false (mkDinode 0 0 0 0 0 (replicate 13 0))) 0.

Lemma plain_skip arg : existsb (Z.eqb slash) arg = false -> existsb (Z.eqb slash) (skip_underscore arg) = false.
Proof.
  unfold skip_underscore. case_match; [|done]. destruct arg as [|b arg]; [done|]. cbn [existsb tl].
  by intros [_ ?]%orb_false_iff.
Qed.

Section boot.
Context (inputs : list (list Z * list Z)) (f : Z -> list Z).
Hypothesis Him : image inputs f.
Hypothesis Hfew : zlen inputs + 1 < ninodes.
Hypothesis Hpart : dir_len inputs mod BSIZE <> 0.

(** The root directory in slot 0, locked. *)
Definition root_locked : fs := set_inode 0 (mkInode ROOTINO 1 true true (inode_of f 0)) (booted f).

Lemma root_dir_ok : dir_ok root_locked 0.
Proof using Him Hfew Hpart.
  destruct (im_inode _ _ Him 0%nat _ _ eq_refl) as (Ht & Hl & Hok & [Htb _] & Hsz & _).
  rewrite decide_True, zlen_root in Hsz by done. rewrite zlen_root in Htb. pose proof (zlen_nonneg inputs).
  assert (di root_locked 0 = inode_of f 0) as Ed by reflexivity.
  assert (0 < dir_len inputs < 4000) as Hdl by (unfold dir_len, ninodes in *; lia).
  assert (MAXBYTES = 71680) as HM by done.
  pose proof (dinode_of_wf 1 (f (IBLOCK 1)) (fw_len f (im_wf _ _ Him) _)) as [W1 W2 W3 W4 _ _].
  split; rewrite ?Ed.
  - split; rewrite ?Ed.
    + apply Him.
    + done.
    + by rewrite Ht.
    + rewrite Hsz. unfold BSIZE in *. zlia.
    + change (0 <= ROOTINO < sb_ninodes (sbof f)). by rewrite (im_sb _ _ Him).
    + done.
  - done.
  - rewrite Hsz. unfold BSIZE. zlia.
  - intros p Hp. rewrite Ed. unfold root_locked. cbn [fb set_inode set_icache booted]. apply Htb; unfold BSIZE in *; [|zlia].
    rewrite Hsz in Hp. change MAXFILE with 140. zlia.
Qed.

Context (devread : Z -> option (nat -> Z -> M fs (Z * list Z))).
Context (k : nat) (arg c : list Z).
Hypothesis Hk : inputs !! k = Some (arg, c).
Hypothesis Hne : skip_underscore arg <> [].
Hypothesis Hplain : existsb (Z.eqb slash) (skip_underscore arg) = false.
Hypothesis Hname : lookup_name (root_names inputs) (skip_underscore arg) = Some (2 + Z.of_nat k).

Definition slot1 : inode := mkInode (2 + Z.of_nat k) 1 false false (mkDinode 0 0 0 0 0 (replicate 13 0)).

(** The state after namei: the directory is released, the file in slot 1. *)
Definition found_file : fs := set_inode 0 (mkInode ROOTINO 0 false true (inode_of f 0)) (set_inode 1 slot1 root_locked).

Lemma lookup_name_take names name : lookup_name names (take (Z.to_nat DIRSIZ) name) = lookup_name names name.
Proof using Type.
  unfold lookup_name. rewrite (find_ext _ (fun x => namecmp name x.1 =? 0)); [done|].
  intros x _. unfold namecmp. by rewrite strncmp_take.
Qed.

Lemma root_lookup : exists off, dirlookup devread 0 (take (Z.to_nat DIRSIZ) (skip_underscore arg)) root_locked =
  Done (Some (1%nat, off)) (set_inode 1 slot1 root_locked).
Proof using Him Hfew Hpart Hk Hname.
  rewrite (dirlookup_run devread 0 root_locked root_dir_ok).
  pose proof (image_names inputs f Him Hfew (take (Z.to_nat DIRSIZ) (skip_underscore arg))) as Hn.
  rewrite lookup_name_take, Hname in Hn. unfold dir_inum in Hn.
  change (fb root_locked) with f. change (di root_locked 0) with (inode_of f 0).
  destruct (find_entry f (inode_of f 0) _) as [j|]; [|done].
  apply (inj Some) in Hn. rewrite Hn. unfold bind.
  rewrite (iget_next root_locked (2 + Z.of_nat k) 1).
  - unfold ret. by eexists.
  - unfold NINODE. lia.
  - intros j' Hj. assert (j' = 0%nat) as -> by lia. change (0 < 1 /\ ROOTINO <> 2 + Z.of_nat k). unfold ROOTINO. lia.
  - intros j' Hj. unfold root_locked. cbn [icache set_inode set_icache]. by rewrite upd_ne by lia.
Qed.

Lemma namei_run : namei devread (slash :: skip_underscore arg) (booted f) = Done (Some 1%nat) found_file.
Proof using Him Hfew Hpart Hk Hname Hne Hplain.
  destruct (im_inode _ _ Him 0%nat _ _ eq_refl) as (Ht & Hl & _).
  unfold namei, namex, bind at 1, bind at 1. change (hd 0 (slash :: skip_underscore arg) =? slash) with true. cbn iota.
  rewrite (iget_next (booted f) ROOTINO 0); [|unfold NINODE; lia|lia|done].
  cbn [length namex_from]. rewrite (skipelem_root _ Hne Hplain). unfold bind at 1.
  rewrite (ilock_load _ 0 ROOTINO 1 (mkDinode 0 0 0 0 0 (replicate 13 0))); [|reflexivity|lia|].
  2:{ change (di_type (inode_of f 0) <> 0). by rewrite Ht. }
  match goal with |- context [set_inode 0 ?x (set_inode 0 ?y (booted f))] =>
    change (set_inode 0 x (set_inode 0 y (booted f))) with (set_inode 0 (mkInode ROOTINO 1 true true (inode_of f 0)) (set_inode 0 y (booted f)));
    assert (set_inode 0 (mkInode ROOTINO 1 true true (inode_of f 0)) (set_inode 0 y (booted f)) = root_locked) as ->
  end.
  { unfold root_locked, set_inode, set_icache. simpl. f_equal. apply upd_upd. }
  unfold bind at 1, gets at 1. change (di root_locked 0) with (inode_of f 0). rewrite Ht.
  change (negb (T_DIR =? T_DIR)) with false. cbn [andb].
  destruct root_lookup as [off Hlk]. unfold bind at 1. rewrite Hlk. unfold bind at 1.
  rewrite (iunlockput_run _ 0 ROOTINO (inode_of f 0)); [|reflexivity|by rewrite Hl].
  fold found_file. by destruct (skip_underscore arg).
Qed.

Lemma open_read_run n : zlen c <= MAXBYTES -> 0 <= n < 2 ^ 31 ->
  returns (open_read devread (slash :: skip_underscore arg) n) (booted f) (fun r _ => r = Some (take (Z.to_nat n) c)).
Proof using Him Hfew Hpart Hk Hname Hne Hplain.
  intros Hc Hn. assert (contents inputs !! S k = Some (T_FILE, c)) as Hck.
  { simpl. unfold as_files. rewrite list_lookup_fmap, Hk. done. }
  destruct (im_inode _ _ Him (S k) _ _ Hck) as (Ht & _ & _ & [Htb _] & Hsz & Hby).
  rewrite decide_False in Hsz by done. assert (MAXBYTES = 71680) as HM by done.
  assert (disk_inode f (2 + Z.of_nat k) = inode_of f (S k)) as Ed by (unfold inode_of; f_equal; lia).
  unfold open_read, returns, wp, bind at 1. rewrite namei_run. unfold bind at 1.
  rewrite (ilock_load found_file 1 (2 + Z.of_nat k) 1 (mkDinode 0 0 0 0 0 (replicate 13 0))); [|done|lia|].
  2:{ change (di_type (disk_inode f (2 + Z.of_nat k)) <> 0). by rewrite Ed, Ht. }
  change (fb found_file) with f. rewrite Ed. set (s := set_inode 1 _ found_file).
  assert (di s 1 = inode_of f (S k)) as Hdi by done. assert (fb s = f) as Hfb by done.
  unfold bind. pose proof (zlen_nonneg c). set (m := Z.min n (zlen c)).
  assert (readi devread 1 0 n s = Done (m, fbytes f (inode_of f (S k)) 0 m) s) as ->.
  { rewrite readi_pure; rewrite ?Hdi, ?Hfb, ?Hsz, ?Ht, ?Z.sub_0_r; try done; try lia; [apply Him|].
    intros p Hp. rewrite Hdi, Hfb. apply Htb; unfold BSIZE; [change MAXFILE with 140|]; zlia. }
  unfold ret. f_equal. unfold fbytes. apply list_eq. intros i. rewrite list_lookup_fmap.
  destruct (decide (i < Z.to_nat m)%nat) as [Hi|Hi].
  - rewrite lookup_seq_lt by done. simpl. rewrite Hby by lia. rewrite lookup_take, decide_True by lia. rewrite Z.add_0_l, Nat2Z.id, nth_lookup.
    by destruct (lookup_lt_is_Some_2 c i) as [x ->]; [unfold zlen in *; lia|].
  - rewrite lookup_seq_ge by lia. symmetry. apply lookup_ge_None. rewrite length_take. unfold zlen in *. lia.
Qed.
End boot.

(** ** Theorems *)


(** One file, "_cat", of three bytes. *)
Definition sample_arg : list Z := [UNDERSCORE; 99; 97; 116].
Definition sample_host (name : list Z) : option (list Z) := if decide (name = sample_arg) then Some [1; 2; 3] else None.
Definition sample_inputs : list (list Z * list Z) := [(sample_arg, [1; 2; 3])].

Lemma sample_inputs_ok : Forall (input_ok sample_host) sample_inputs.
Proof. by repeat constructor. Qed.

Lemma sample_fits : FIRST + total (contents sample_inputs) <= size.
Proof. change (FIRST + total (contents sample_inputs)) with 31. unfold size. lia. Qed.


(** mkfs does not look at the number of data blocks: files that need more of them than
    there are get blocks of the log. *)
Lemma mkfs_fills_log (inputs : list (list Z * list Z)) (f : Z -> list Z) :
  image inputs f -> nblocks < total (contents inputs) -> used f (size - nlog) = true.
Proof.
  intros Him Hn. rewrite (im_used _ _ Him) by done. apply Z.ltb_lt. unfold FIRST.
  change (size - nlog) with 994. change nblocks with 965 in Hn. lia.
Qed.

(** When the entries of the root directory fill its blocks, its size is made one block
    too large, and the last block has no address. *)
Lemma mkfs_root_hole (inputs : list (list Z * list Z)) (f : Z -> list Z) :
  image inputs f -> zlen inputs + 1 < ninodes -> dir_len inputs mod BSIZE = 0 ->
  slot f (inode_of f 0) (bslot (dir_len inputs / BSIZE)) = 0 /\
  dir_len inputs / BSIZE * BSIZE < di_size (inode_of f 0).
Proof.
  intros Him Hfew Hm. destruct (im_inode _ _ Him 0%nat _ _ eq_refl) as (_ & _ & _ & [Htb _] & Hsz & _).
  rewrite decide_True, zlen_root in Hsz by done. rewrite zlen_root in Htb. pose proof (zlen_nonneg inputs).
  split; [|rewrite Hsz; unfold BSIZE; lia]. unfold dir_len, BSIZE, ninodes in *.
  destruct (decide (slot f (inode_of f 0) (bslot (16 * (2 + zlen inputs) / 512)) = 0)) as [|Hnz]; [done|].
  apply Htb in Hnz; [|change MAXFILE with 140]; zlia.
Qed.


