(* ===== verification/Kernel.v ===== *)
(** * The state of the kernel as a whole

    Memory and page tables (Kstate.v), the file system (Fs.v), the process table,
    the open-file table and the pipes, as the code of proc.c, file.c, syscall.c,
    sysfile.c, exec.c and trap.c sees them on one CPU.

    The process table is kept as the words of [ptable.proc], so that an index past
    the end of an array in struct proc reaches the word that follows, as in C.  A
    pointer into one of the kernel's tables is the index of the slot plus one; 0 is
    the null pointer. *)

From S2P Require Import Pipe Fs.
From S2P Require Import Prelude Mmu Memory Kstate Kalloc PageTable Uvm.

(** ** Files *)

Inductive ftype := FD_NONE | FD_PIPE | FD_INODE.
#[export] Instance ftype_eq_dec : EqDecision ftype.
Proof. solve_decision. Defined.

(** struct file; [fpipe] is the page of the pipe, [fip] the slot of the inode. *)
Record file := mkFile {
  ftyp : ftype;
  fref : Z;
  readable : bool;
  writable : bool;
  fpipe : Z;
  fip : nat;
  foff : Z }.

Definition NFILE : nat := 100.
Definition NOFILE : nat := 16.
Definition NPROC : nat := 64.

(** ** The state *)

Record kern := mkKern {
  km : kst;
  kf : Fs.fs;
  tab : Z -> Z;            (* ptable.proc, by words *)
  nextpid : Z;
  initproc : Z;
  proc : Z;                (* the running process, or 0 *)
  files : nat -> file;     (* ftable *)
  pipes : Z -> Pipe.pipe;  (* by the page they are in *)
  ticks : Z }.

Definition set_km (m : kst) (k : kern) : kern :=
  mkKern m (kf k) (tab k) (nextpid k) (initproc k) (proc k) (files k) (pipes k) (ticks k).
Definition set_kf (f : Fs.fs) (k : kern) : kern :=
  mkKern (km k) f (tab k) (nextpid k) (initproc k) (proc k) (files k) (pipes k) (ticks k).
Definition set_tab (t : Z -> Z) (k : kern) : kern :=
  mkKern (km k) (kf k) t (nextpid k) (initproc k) (proc k) (files k) (pipes k) (ticks k).
Definition set_nextpid (n : Z) (k : kern) : kern :=
  mkKern (km k) (kf k) (tab k) n (initproc k) (proc k) (files k) (pipes k) (ticks k).
Definition set_initproc (p : Z) (k : kern) : kern :=
  mkKern (km k) (kf k) (tab k) (nextpid k) p (proc k) (files k) (pipes k) (ticks k).
Definition set_proc (p : Z) (k : kern) : kern :=
  mkKern (km k) (kf k) (tab k) (nextpid k) (initproc k) p (files k) (pipes k) (ticks k).
Definition set_files (f : nat -> file) (k : kern) : kern :=
  mkKern (km k) (kf k) (tab k) (nextpid k) (initproc k) (proc k) f (pipes k) (ticks k).
Definition set_pipes (p : Z -> Pipe.pipe) (k : kern) : kern :=
  mkKern (km k) (kf k) (tab k) (nextpid k) (initproc k) (proc k) (files k) p (ticks k).
Definition set_ticks (n : Z) (k : kern) : kern :=
  mkKern (km k) (kf k) (tab k) (nextpid k) (initproc k) (proc k) (files k) (pipes k) n.

(** ** struct proc: 35 words *)

Definition PROC_WORDS : Z := 35.
Definition o_sz : Z := 0.
Definition o_pgdir : Z := 1.
Definition o_kstack : Z := 2.
Definition o_state : Z := 3.
Definition o_pid : Z := 4.
Definition o_parent : Z := 5.
Definition o_tf : Z := 6.
Definition o_context : Z := 7.
Definition o_chan : Z := 8.
Definition o_killed : Z := 9.
Definition o_ofile (fd : Z) : Z := 10 + fd.
Definition o_cwd : Z := 26.
Definition o_name : Z := 27.
Definition o_handlers (sig : Z) : Z := 31 + sig.
Definition o_restorer : Z := 33.
Definition o_shared : Z := 34.

(** enum procstate *)
Definition UNUSED : Z := 0.
Definition EMBRYO : Z := 1.
Definition SLEEPING : Z := 2.
Definition RUNNABLE : Z := 3.
Definition RUNNING : Z := 4.
Definition ZOMBIE : Z := 5.

Definition word (p o : Z) : Z := PROC_WORDS * (p - 1) + o.
Definition fld (k : kern) (p o : Z) : Z := tab k (word p o).
Definition set_fld (p o v : Z) (k : kern) : kern := set_tab (upd (word p o) v (tab k)) k.

Definition getf (p o : Z) : M kern Z := gets (fun k => fld k p o).
Definition setf (p o v : Z) : M kern unit := modify (set_fld p o v).

(** ** Running the code of the components *)

Definition on_km {A} (c : M kst A) : M kern A := fun k =>
  match c (km k) with
  | Done a m => Done a (set_km m k)
  | Stop w m => Stop w (set_km m k)
  end.

(** The file system looks up relative paths from [proc->cwd]. *)
Definition on_fs {A} (c : M Fs.fs A) : M kern A := fun k =>
  let f := kf k in
  let cwd := Z.to_nat (fld k (proc k) o_cwd - 1) in
  match c (Fs.mkFs (Fs.fb f) (Fs.flog f) (Fs.icache f) cwd) with
  | Done a f => Done a (set_kf f k)
  | Stop w f => Stop w (set_kf f k)
  end.

(** Transactions (Log.v): an operation that ends leaves nothing to log. *)
Definition begin_op : M kern unit := ret tt.
Definition end_op : M kern unit := on_fs (modify (Fs.set_flog [])).

(** ** Memory *)

Section memory.
Context `{Layout}.

(** The kernel runs on the page table of the process: user addresses go through it. *)
Definition translate (k : kern) (va : Z) (write : bool) : option Z :=
  if KERNBASE <=? va then Some va else mmu (mem (km k)) (p2v (cr3 (km k))) va write.

Definition load_byte (va : Z) : M kern Z := fun k =>
  match translate k va false with
  | Some a => Done (load8 (mem (km k)) a) k
  | None => Stop (Faulted va) k
  end.

Definition store_byte (va v : Z) : M kern unit := fun k =>
  match translate k va true with
  | Some a => Done tt (set_km (set_mem (store8 (mem (km k)) a v) (km k)) k)
  | None => Stop (Faulted va) k
  end.

Definition load_word (va : Z) : M kern Z :=
  let! b0 := load_byte va in
  let! b1 := load_byte (u32 (va + 1)) in
  let! b2 := load_byte (u32 (va + 2)) in
  let! b3 := load_byte (u32 (va + 3)) in
  ret (b0 + b1 * 2 ^ 8 + b2 * 2 ^ 16 + b3 * 2 ^ 24).

(** [store_byte] keeps the low byte. *)
Definition store_word (va v : Z) : M kern unit :=
  store_byte va v ;;
  store_byte (u32 (va + 1)) (v / 2 ^ 8) ;;
  store_byte (u32 (va + 2)) (v / 2 ^ 16) ;;
  store_byte (u32 (va + 3)) (v / 2 ^ 24).

Fixpoint load_bytes (va : Z) (n : nat) : M kern (list Z) :=
  match n with
  | O => ret []
  | S n =>
      let! b := load_byte va in
      let! l := load_bytes (u32 (va + 1)) n in
      ret (b :: l)
  end.

Fixpoint store_bytes (va : Z) (l : list Z) : M kern unit :=
  match l with
  | [] => ret tt
  | b :: l => store_byte va b ;; store_bytes (u32 (va + 1)) l
  end.

(** ** The trap frame *)

Definition tf_edx : Z := 20.
Definition tf_ecx : Z := 24.
Definition tf_eax : Z := 28.
Definition tf_es : Z := 40.
Definition tf_ds : Z := 44.
Definition tf_trapno : Z := 48.
Definition tf_err : Z := 52.
Definition tf_eip : Z := 56.
Definition tf_cs : Z := 60.
Definition tf_eflags : Z := 64.
Definition tf_esp : Z := 68.
Definition tf_ss : Z := 72.
Definition TF_SIZE : Z := 76.

(** A register saved in [proc->tf]. *)
Definition get_tf (o : Z) : M kern Z :=
  let! p := gets proc in
  let! tf := getf p o_tf in
  on_km (load (tf + o)).
Definition set_tf (o v : Z) : M kern unit :=
  let! p := gets proc in
  let! tf := getf p o_tf in
  on_km (store (tf + o) v).
Definition with_mem (m : gmap Z Z) (k : kern) : kern := set_km (set_mem m (km k)) k.

(** The trap frame of the running process, and a register in it. *)
Definition tfp (k : kern) : Z := fld k (proc k) o_tf.
Definition reg (k : kern) (o : Z) : Z := load32 (mem (km k)) (tfp k + o).

Lemma get_tf_run k o : get_tf o k = Done (reg k o) k.
Proof. by destruct k. Qed.
Lemma set_tf_run k o v : set_tf o v k = Done tt (with_mem (store32 (mem (km k)) (tfp k + o) v) k).
Proof. done. Qed.

End memory.

(** ** Lemmas *)

Lemma word_inj p o q o' : 0 <= o < PROC_WORDS -> 0 <= o' < PROC_WORDS ->
  word p o = word q o' -> p = q /\ o = o'.
Proof. unfold word, PROC_WORDS. lia. Qed.

Lemma fld_set_eq k p o v : fld (set_fld p o v k) p o = v.
Proof. unfold fld, set_fld. simpl. apply upd_eq. Qed.

Lemma fld_set_ne k p o v q o' : 0 <= o < PROC_WORDS -> 0 <= o' < PROC_WORDS ->
  (q <> p \/ o' <> o) -> fld (set_fld p o v k) q o' = fld k q o'.
Proof.
  intros Ho Ho' Hne. unfold fld, set_fld. simpl. apply upd_ne. intros E.
  apply word_inj in E; [|done..]. destruct E. by destruct Hne.
Qed.

Lemma wp_getf p o k (Q : Z -> kern -> Prop) E : Q (fld k p o) k -> wp (getf p o) k Q E.
Proof. done. Qed.
Lemma wp_setf p o v k (Q : unit -> kern -> Prop) E : Q tt (set_fld p o v k) -> wp (setf p o v) k Q E.
Proof. done. Qed.

Lemma wp_on_km {A} (c : M kst A) k (Q : A -> kern -> Prop) E :
  wp c (km k) (fun a m => Q a (set_km m k)) (fun w m => E w (set_km m k)) -> wp (on_km c) k Q E.
Proof. unfold wp, on_km. by destruct (c (km k)). Qed.

Ltac pstep :=
  first [ step | lazymatch goal with
    | |- wp (getf _ _) _ _ _ => apply wp_getf
    | |- wp (setf _ _ _) _ _ _ => apply wp_setf
    | |- wp (on_km _) _ _ _ => apply wp_on_km
    end ].
Ltac psteps := repeat (pstep; cbn beta).

(** The same, without the code of the memory. *)
Ltac tstep :=
  first [ step | lazymatch goal with
    | |- wp (getf _ _) _ _ _ => apply wp_getf
    | |- wp (setf _ _ _) _ _ _ => apply wp_setf
    end ].
Ltac tsteps := repeat (tstep; cbn beta).
