(* ===== verification/Sched.v ===== *)
(** * proc.c, scheduling: states of processes, sleep and wakeup, kill

    Each routine runs with ptable.lock held from its first change of a state to the
    switch or the release.  A process that gives up the CPU in sched stops with
    [Blocked].  Smp.v runs these routines on several CPUs. *)

From S2P Require Import Pipe Fs.
From S2P Require Import Prelude Mmu Memory Kstate Kalloc PageTable Uvm Kernel.

(** The pointers to the slots of ptable.proc. *)
Definition slots : list Z := map (fun i => Z.of_nat i + 1) (seq 0 NPROC).

Section sched.
Context `{Layout}.

(** ** Giving up the CPU *)

(** A CPU has called pushcli once for each lock it holds; with the lock held
    interrupts are off. *)
Definition sched {A} (chan : Z) : M kern A :=
  let! ls := gets (fun k => held (km k)) in
  let! p := gets proc in
  let! st := getf p o_state in
  if negb (bool_decide (L_ptable ∈ ls)) then panic "sched ptable.lock"
  else if negb (length ls =? 1)%nat then panic "sched locks"
  else if st =? RUNNING then panic "sched running"
  else halt (Blocked chan).

Definition yield {A} : M kern A :=
  on_km (acquire L_ptable) ;;
  let! p := gets proc in
  setf p o_state RUNNABLE ;;
  sched 0.

Definition sleep {A} (chan : Z) (lk : lock) : M kern A :=
  let! p := gets proc in
  if p =? 0 then panic "sleep"
  else
    (if decide (lk = L_ptable) then ret tt
     else on_km (acquire L_ptable) ;; on_km (release lk)) ;;
    setf p o_chan chan ;;
    setf p o_state SLEEPING ;;
    sched chan.

(** ** Waking up *)

Fixpoint wakeup_from (chan : Z) (l : list Z) : M kern unit :=
  match l with
  | [] => ret tt
  | p :: l =>
      let! st := getf p o_state in
      let! c := getf p o_chan in
      (if (st =? SLEEPING) && (c =? chan) then setf p o_state RUNNABLE else ret tt) ;;
      wakeup_from chan l
  end.

Definition wakeup1 (chan : Z) : M kern unit := wakeup_from chan slots.

Definition wakeup (chan : Z) : M kern unit :=
  on_km (acquire L_ptable) ;;
  wakeup1 chan ;;
  on_km (release L_ptable).

Fixpoint kill_from (pid : Z) (l : list Z) : M kern Z :=
  match l with
  | [] => on_km (release L_ptable) ;; ret (-1)
  | p :: l =>
      let! q := getf p o_pid in
      if q =? pid then
        setf p o_killed 1 ;;
        let! st := getf p o_state in
        (if st =? SLEEPING then setf p o_state RUNNABLE else ret tt) ;;
        on_km (release L_ptable) ;;
        ret 0
      else kill_from pid l
  end.

Definition kill (pid : Z) : M kern Z :=
  on_km (acquire L_ptable) ;;
  kill_from pid slots.

(** ** The scheduler *)

(** The body of its loop up to swtch; whether it switched. *)
Definition scheduler_body (p : Z) : M kern bool :=
  let! st := getf p o_state in
  if negb (st =? RUNNABLE) then ret false
  else
    modify (set_proc p) ;;
    let! d := getf p o_pgdir in
    on_km (switchuvm d) ;;
    setf p o_state RUNNING ;;
    ret true.

(** One pass over the table, up to the first process it can run. *)
Fixpoint scheduler_from (l : list Z) : M kern Z :=
  match l with
  | [] => on_km (release L_ptable) ;; ret 0
  | p :: l =>
      let! r := scheduler_body p in
      if r then ret p else scheduler_from l
  end.

Definition scheduler : M kern Z :=
  on_km (acquire L_ptable) ;;
  scheduler_from slots.

(** Back in the scheduler when the process gives up the CPU; [l] are the slots after it. *)
Definition scheduler_resume (kpgdir : Z) (l : list Z) : M kern Z :=
  on_km (switchkvm kpgdir) ;;
  modify (set_proc 0) ;;
  scheduler_from l.

(** ** What they do to the table *)

Definition state (k : kern) (p : Z) : Z := fld k p o_state.

Lemma state_set_state k p q v : state (set_fld p o_state v k) q = if decide (q = p) then v else state k q.
Proof.
  unfold state. case_decide as E; [subst; apply fld_set_eq|]. apply fld_set_ne; [done|done|by left].
Qed.

Lemma wakeup_from_run chan l k : NoDup l ->
  exists k', wakeup_from chan l k = Done tt k' /\ km k' = km k /\ proc k' = proc k /\ initproc k' = initproc k /\
    (forall p o, 0 <= o < PROC_WORDS -> o <> o_state -> fld k' p o = fld k p o) /\
    (forall p, state k' p = if decide (p ∈ l /\ state k p = SLEEPING /\ fld k p o_chan = chan)
                            then RUNNABLE else state k p).
Proof.
  revert k. induction l as [|q l IH]; intros k Hnd.
  { exists k. split; [done|]. repeat (split; [done|]). intros p. rewrite decide_False; [done|].
    intros [Hp _]. by apply elem_of_nil in Hp. }
  apply NoDup_cons in Hnd as [Hq Hnd]. cbn [wakeup_from]. unfold bind, getf, gets. fold (state k q).
  destruct ((state k q =? SLEEPING) && (fld k q o_chan =? chan)) eqn:E.
  - bool_prop. destruct (IH (set_fld q o_state RUNNABLE k) Hnd) as (k' & He & Hm & Hp & Hi & Hf & Hs).
    exists k'. split; [exact He|]. do 3 (split; [done|]). split.
    + intros p o Ho Hne. rewrite Hf by done. apply fld_set_ne; [done|done|by right].
    + intros p. rewrite Hs, state_set_state. rewrite fld_set_ne by (done || by right).
      destruct (decide (p = q)) as [->|Hne].
      * rewrite decide_False by (intros (_ & ? & _); done).
        rewrite decide_True; [done|]. split; [apply elem_of_cons; by left|done].
      * destruct (decide (p ∈ l /\ state k p = SLEEPING /\ fld k p o_chan = chan)) as [D|D].
        -- rewrite decide_True; [done|]. rewrite elem_of_cons. tauto.
        -- rewrite decide_False; [done|]. rewrite elem_of_cons. tauto.
  - destruct (IH k Hnd) as (k' & He & Hm & Hp & Hi & Hf & Hs). exists k'. split; [exact He|].
    repeat (split; [done|]). intros p. rewrite Hs.
    destruct (decide (p ∈ l /\ state k p = SLEEPING /\ fld k p o_chan = chan)) as [D|D].
    + rewrite decide_True; [done|]. rewrite elem_of_cons. tauto.
    + rewrite decide_False; [done|]. rewrite elem_of_cons. intros [[-> |Hin] [D1 D2]]; [|tauto].
      rewrite D1, D2, !Z.eqb_refl in E. done.
Qed.

Lemma slots_nodup : NoDup slots.
Proof.
  unfold slots. apply NoDup_fmap_2; [|apply NoDup_seq]. intros i j E. lia.
Qed.

Lemma elem_slots p : p ∈ slots <-> 1 <= p <= 64.
Proof.
  unfold slots. rewrite list_elem_of_fmap. split.
  - intros (i & -> & Hi%elem_of_seq). unfold NPROC in Hi. lia.
  - intros Hp. exists (Z.to_nat (p - 1)). split; [lia|]. apply elem_of_seq. unfold NPROC. lia.
Qed.
End sched.
