(* ===== verification/File.v ===== *)
(** * file.c: open files, and the calls of pipe.c that reach them

    An open file is a slot of ftable with a reference count.  fileread and filewrite
    go to the pipe or to the inode; the bytes are those of the caller's buffer.
    Theorems: filewrite writes in pieces but leaves the file as one write would; the
    pieces are larger than a transaction may be. *)

From S2P Require Import Pipe Bytes FsFormat Fs Inode InodeData.
From S2P Require Import Prelude Mmu Memory Kstate Kalloc PageTable Uvm Boot Kernel Sched.

Definition set_file (f : nat) (x : file) (k : kern) : kern := set_files (upd f x (files k)) k.
Definition set_fref (n : Z) (x : file) : file :=
  mkFile (ftyp x) n (readable x) (writable x) (fpipe x) (fip x) (foff x).
Definition set_foff (n : Z) (x : file) : file :=
  mkFile (ftyp x) (fref x) (readable x) (writable x) (fpipe x) (fip x) n.
Definition set_ftyp (t : ftype) (x : file) : file :=
  mkFile t (fref x) (readable x) (writable x) (fpipe x) (fip x) (foff x).

(** ** The table *)

Definition filealloc : M kern (option nat) := fun k =>
  match List.find (fun f => fref (files k f) =? 0) (seq 0 NFILE) with
  | Some f => Done (Some f) (set_file f (set_fref 1 (files k f)) k)
  | None => Done None k
  end.

Definition filedup (f : nat) : M kern nat :=
  let! x := gets (fun k => files k f) in
  if fref x <? 1 then panic "filedup"
  else modify (set_file f (set_fref (fref x + 1) x)) ;; ret f.

Section file.
Context `{Layout}.
Context (devread : Z -> option (nat -> Z -> M fs (Z * list Z))).
Context (devwrite : Z -> option (nat -> list Z -> M fs Z)).

(** ** Pipes *)

(** The addresses of p->nread and p->nwrite, the channels of a pipe. *)
Definition nread_chan (p : Z) : Z := p + 564.
Definition nwrite_chan (p : Z) : Z := p + 568.

Definition get_pipe (p : Z) : M kern pipe := gets (fun k => pipes k p).
Definition put_pipe (p : Z) (x : pipe) : M kern unit := modify (fun k => set_pipes (upd p x (pipes k)) k).

Definition do_pipeclose (p : Z) (wr : bool) : M kern unit :=
  let! x := get_pipe p in
  let '(x, c, gone) := pipeclose x wr in
  put_pipe p x ;;
  wakeup (match c with Nread => nread_chan p | Nwrite => nwrite_chan p end) ;;
  if gone then on_km (kfree p) else ret tt.

Definition fileclose (f : nat) : M kern unit :=
  let! x := gets (fun k => files k f) in
  if fref x <? 1 then panic "fileclose"
  else
    modify (set_file f (set_fref (fref x - 1) x)) ;;
    if 0 <? fref x - 1 then ret tt
    else
      modify (set_file f (set_ftyp FD_NONE (set_fref 0 x))) ;;
      match ftyp x with
      | FD_PIPE => do_pipeclose (fpipe x) (writable x)
      | FD_INODE => begin_op ;; on_fs (iput (fip x)) ;; end_op
      | FD_NONE => ret tt
      end.

(** pipealloc: the two ends, or nothing. *)
Definition pipealloc : M kern (option (nat * nat)) :=
  let! f0 := filealloc in
  let! f1 := (match f0 with Some _ => filealloc | None => ret None end) in
  let! p := (match f1 with Some _ => on_km kalloc | None => ret 0 end) in
  match f0, f1, p =? 0 with
  | Some f0, Some f1, false =>
      put_pipe p (pipe_init ∅) ;;
      modify (fun k => set_file f0 (mkFile FD_PIPE (fref (files k f0)) true false p
                                      (fip (files k f0)) (foff (files k f0))) k) ;;
      modify (fun k => set_file f1 (mkFile FD_PIPE (fref (files k f1)) false true p
                                      (fip (files k f1)) (foff (files k f1))) k) ;;
      ret (Some (f0, f1))
  | _, _, _ =>
      (match f0 with Some f => fileclose f | None => ret tt end) ;;
      (match f1 with Some f => fileclose f | None => ret tt end) ;;
      ret None
  end.

(** piperead and pipewrite up to their return or sleep. *)
Definition do_piperead (p addr n : Z) : M kern Z :=
  let! x := get_pipe p in
  let! q := gets proc in
  let! killed := getf q o_killed in
  match piperead_from x (negb (killed =? 0)) (Z.to_nat n) with
  | RFail => ret (-1)
  | RSleep => on_km (acquire (L_pipe p)) ;; sleep (nread_chan p) (L_pipe p)
  | RDone x l =>
      put_pipe p x ;;
      store_bytes addr l ;;
      wakeup (nwrite_chan p) ;;
      ret (zlen l)
  end.

Definition do_pipewrite (p addr n : Z) : M kern Z :=
  let! x := get_pipe p in
  let! q := gets proc in
  let! killed := getf q o_killed in
  let! l := load_bytes addr (Z.to_nat n) in
  let '(x, _, r) := pipewrite_from x (negb (killed =? 0)) l in
  put_pipe p x ;;
  match r with
  | WFail => ret (-1)
  | WSleep _ =>
      wakeup (nread_chan p) ;; on_km (acquire (L_pipe p)) ;; sleep (nwrite_chan p) (L_pipe p)
  | WDone => wakeup (nread_chan p) ;; ret n
  end.

(** ** Files *)

Definition filestat (f : nat) : M kern (option stat) :=
  let! x := gets (fun k => files k f) in
  match ftyp x with
  | FD_INODE =>
      on_fs (ilock (fip x)) ;;
      let! st := on_fs (stati (fip x)) in
      on_fs (iunlock (fip x)) ;;
      ret (Some st)
  | _ => ret None
  end.

(** [f->off += r] *)
Definition advance (f : nat) (r : Z) : M kern unit :=
  modify (fun k => set_file f (set_foff (u32 (foff (files k f) + r)) (files k f)) k).

Definition fileread (f : nat) (addr n : Z) : M kern Z :=
  let! x := gets (fun k => files k f) in
  if negb (readable x) then ret (-1)
  else match ftyp x with
       | FD_PIPE => do_piperead (fpipe x) addr n
       | FD_INODE =>
           on_fs (ilock (fip x)) ;;
           let! '(r, l) := on_fs (readi devread (fip x) (foff x) (u32 n)) in
           store_bytes addr l ;;
           (if 0 <? s32 r then advance f r else ret tt) ;;
           on_fs (iunlock (fip x)) ;;
           ret (s32 r)
       | FD_NONE => panic "fileread"
       end.

Definition max_write : Z := (30 - 1 - 1 - 2) / 2 * 512.

(** The loop of filewrite from byte [i] on; [l] is the rest of the buffer.  What it
    returns is what [i] is when the loop ends. *)
Fixpoint filewrite_from (fuel : nat) (f : nat) (l : list Z) (i n : Z) : M kern Z :=
  if i <? n then
    match fuel with
    | O => halt Diverged
    | S fuel =>
        let n1 := Z.min (n - i) max_write in
        let! x := gets (fun k => files k f) in
        begin_op ;;
        on_fs (ilock (fip x)) ;;
        let! r := on_fs (writei devwrite (fip x) (slice 0 n1 l) (foff x) n1) in
        (if 0 <? r then advance f r else ret tt) ;;
        on_fs (iunlock (fip x)) ;;
        end_op ;;
        if r <? 0 then ret i
        else if negb (r =? n1) then panic "short filewrite"
        else filewrite_from fuel f (drop (Z.to_nat r) l) (i + r) n
    end
  else ret i.

Definition filewrite (f : nat) (addr n : Z) : M kern Z :=
  let! x := gets (fun k => files k f) in
  if negb (writable x) then ret (-1)
  else match ftyp x with
       | FD_PIPE => do_pipewrite (fpipe x) addr n
       | FD_INODE =>
           let! l := load_bytes addr (Z.to_nat n) in
           let! i := filewrite_from (Z.to_nat n) f l 0 n in
           ret (if i =? n then n else -1)
       | FD_NONE => panic "filewrite"
       end.
End file.

(** ** Writing in pieces *)

Definition at_cwd (c : nat) (f : fs) : fs := mkFs (fb f) (flog f) (icache f) c.

Lemma wp_on_fs {A} (c : M fs A) k (Q : A -> kern -> Prop) E :
  wp c (at_cwd (Z.to_nat (fld k (proc k) o_cwd - 1)) (kf k))
    (fun a f => Q a (set_kf f k)) (fun w f => E w (set_kf f k)) -> wp (on_fs c) k Q E.
Proof. unfold wp, on_fs, at_cwd. by destruct (c _). Qed.

(** An unlocked inode in the cache. *)
Definition idle_inode (f : fs) (i : nat) : Prop :=
  1 <= iref (icache f i) /\ ibusy (icache f i) = false /\ ivalid (icache f i) = true.

(** Two states of the file system with the same blocks, and the same inodes up to the
    busy flag of [i]. *)
Record same_files (i : nat) (f f' : fs) : Prop := {
  sf_fb : fb f' = fb f;
  sf_oth j : j <> i -> icache f' j = icache f j;
  sf_self : exists b, icache f' i = set_iflags b (ivalid (icache f i)) (icache f i) }.

Lemma same_files_ok i f f' : same_files i f f' -> file_ok f i -> file_ok f' i.
Proof.
  intros [H1 H2 [b H3]] [A1 A2 A3 A4 A5 A6].
  assert (di f' i = di f i) as E by (unfold di; by rewrite H3).
  split; rewrite ?E, ?H1; try done. by rewrite H3.
Qed.

Lemma ilock_idle f i : idle_inode f i ->
  ilock i f = Done tt (set_inode i (set_iflags true true (icache f i)) f).
Proof.
  intros (H1 & H2 & H3). unfold ilock, bind, gets, change, modify, ret.
  destruct (iref (icache f i) <? 1) eqn:E; bool_prop; [lia|]. rewrite H2, H3. simpl. done.
Qed.

Lemma iunlock_busy f i : 1 <= iref (icache f i) -> ibusy (icache f i) = true ->
  iunlock i f = Done tt (set_inode i (set_iflags false (ivalid (icache f i)) (icache f i)) f).
Proof.
  intros H1 H2. unfold iunlock, bind, gets, change, modify. rewrite H2.
  destruct (iref (icache f i) <? 1) eqn:E; bool_prop; [lia|]. done.
Qed.

(** What a write of [l] at [off] makes of a file. *)
Record stored_file (i : nat) (l : list Z) (off : Z) (f f' : fs) : Prop := {
  so_ok : file_ok f' i;
  so_idle : idle_inode f' i;
  so_size : di_size (di f' i) = Z.max (di_size (di f i)) (off + zlen l);
  so_bytes p : 0 <= p < MAXBYTES -> fbyte (fb f') (di f' i) p =
    if decide (off <= p < off + zlen l) then nth (Z.to_nat (p - off)) l 0 else fbyte (fb f) (di f i) p;
  so_others : undisturbed (fb f) (fb f') (di f i) (di f' i);
  so_slots j : j <> i -> icache f' j = icache f j }.

Lemma stored_nil i off f f' : file_ok f i -> idle_inode f i -> fb f' = fb f -> icache f' = icache f ->
  off <= di_size (di f i) -> stored_file i [] off f f'.
Proof.
  intros Hok Hid Hfb Hic Hoff. assert (di f' i = di f i) as E by (unfold di; by rewrite Hic).
  split; rewrite ?E, ?Hfb; try done.
  - destruct Hok. split; rewrite ?E, ?Hfb, ?Hic; done.
  - unfold idle_inode. by rewrite Hic.
  - unfold zlen. simpl. lia.
  - intros p Hp. rewrite decide_False; [done|]. unfold zlen. simpl. lia.
  - intros j _. by rewrite Hic.
Qed.

Lemma stored_app i l1 l2 off f1 f2 f3 : 0 <= off -> stored_file i l1 off f1 f2 ->
  stored_file i l2 (off + zlen l1) f2 f3 -> stored_file i (l1 ++ l2) off f1 f3.
Proof.
  intros Ho [A1 A2 A3 A4 A5 A6] [B1 B2 B3 B4 B5 B6]. pose proof (zlen_nonneg l1). pose proof (zlen_nonneg l2).
  split; try done; rewrite ?zlen_app.
  - lia.
  - intros p Hp. rewrite B4, A4 by done. rewrite !nth_lookup.
    destruct (decide (off + zlen l1 <= p < off + zlen l1 + zlen l2)) as [D|D].
    + rewrite decide_True by lia. unfold zlen in *. rewrite lookup_app_r by lia.
      do 2 f_equal. lia.
    + destruct (decide (off <= p < off + zlen l1)) as [D'|D'].
      * rewrite decide_True by lia. unfold zlen in *. by rewrite lookup_app_l by lia.
      * by rewrite decide_False by lia.
  - intros e He Hd. destruct (A5 e He Hd) as (H1 & H2 & H3). destruct (B5 e H1 H2) as (H4 & H5 & H6).
    split; [done|]. split; [done|]. intros bn Hbn. rewrite H6 by done. by apply H3.
  - intros j Hj. rewrite B6 by done. by apply A6.
Qed.

(** The state of the file system up to the current directory and the log. *)
Definition same_fs (f f' : fs) : Prop := fb f' = fb f /\ icache f' = icache f.

Lemma same_fs_di f f' i : same_fs f f' -> di f' i = di f i.
Proof. intros [_ H]. unfold di. by rewrite H. Qed.

Lemma same_fs_ok f f' i : same_fs f f' -> file_ok f i -> file_ok f' i.
Proof.
  intros H []. pose proof (same_fs_di f f' i H) as E. destruct H as [H1 H2].
  split; rewrite ?E, ?H1, ?H2; done.
Qed.

Section filewrite.
Context `{Layout}.
Context (devwrite : Z -> option (nat -> list Z -> M fs Z)).

(** One piece: lock, write, move the offset, unlock, end the transaction. *)
Lemma wp_piece f x l k (K : Z -> M kern Z) (Q : Z -> kern -> Prop) (E : stop -> kern -> Prop) :
  x = files k f -> idle_inode (kf k) (fip x) -> file_ok (kf k) (fip x) ->
  0 <= foff x <= di_size (di (kf k) (fip x)) -> 0 < zlen l -> foff x + zlen l <= MAXBYTES ->
  (forall f', stored_file (fip x) l (foff x) (kf k) f' ->
     wp (K (zlen l)) (set_kf f' (set_file f (set_foff (foff x + zlen l) x) k)) Q E) ->
  (forall k', disk_full (fb (kf k')) -> E (Panicked "balloc: out of blocks") k') ->
  wp (on_fs (ilock (fip x)) ;;
      let! r := on_fs (writei devwrite (fip x) l (foff x) (zlen l)) in
      (if 0 <? r then advance f r else ret tt) ;;
      on_fs (iunlock (fip x)) ;; end_op ;; K r) k Q E.
Proof.
  intros Hx Hid Hok Ho Hl Hm HK HE. set (i := fip x) in *. set (f0 := kf k) in *.
  step. apply wp_on_fs. fold f0. set (c := Z.to_nat _). eapply wp_run; [by apply ilock_idle|].
  set (f1 := set_inode i _ (at_cwd c f0)).
  assert (di f1 i = di f0 i) as Ed by (unfold di, f1; simpl; by rewrite upd_eq).
  assert (iref (icache f1 i) = iref (icache f0 i) /\ ibusy (icache f1 i) = true /\ ivalid (icache f1 i) = true)
    as (F1 & F2 & F3) by (unfold f1; simpl; by rewrite upd_eq).
  assert (fb f1 = fb f0 /\ cwd f1 = c /\ inum (icache f1 i) = inum (icache f0 i)) as (Efb & Ecw & Ein)
    by (unfold f1; simpl; by rewrite upd_eq).
  assert (forall j, j <> i -> icache f1 j = icache f0 j) as Foth
    by (intros j Hj; unfold f1; simpl; by apply upd_ne).
  assert (file_ok f1 i) as Hok1 by (destruct Hok; split; rewrite ?Ed, ?Efb, ?Ein; done).
  clearbody f1. step. apply wp_on_fs. cbn [kf set_kf].
  replace (at_cwd _ f1) with f1 by (destruct f1; simpl in *; subst; done).
  eapply wp_mono; [apply (writei_ok devwrite i l (foff x) (zlen l) f1); try done| |].
  { by rewrite Ed. } 2:{ intros w f' (-> & Hf). apply HE. done. }
  intros r f2 (-> & Hw). pose proof (wf_flags _ _ _ _ _ _ Hw) as (G1 & G2 & G3).
  pose proof (wf_cwd _ _ _ _ _ _ Hw) as Gc. rewrite Ecw in Gc.
  step. destruct (0 <? zlen l) eqn:E0; bool_prop; [|lia]. unfold advance. step. cbn [files set_kf].
  rewrite <- Hx, u32_small by (unfold MAXBYTES in Hm; change (MAXFILE * BSIZE) with 71680 in Hm; lia).
  step. apply wp_on_fs. cbn [kf set_kf set_file set_files].
  replace (at_cwd _ f2) with f2 by (destruct f2; simpl in *; subst; done).
  eapply wp_run; [apply iunlock_busy; [rewrite G1, F1; apply Hid|congruence]|].
  unfold end_op. step. apply wp_on_fs. step. set (f3 := set_flog [] _).
  assert (stored_file i l (foff x) f0 f3) as Hst.
  { assert (fb f3 = fb f2) as Ef3 by done.
    assert (icache f3 i = set_iflags false (ivalid (icache f2 i)) (icache f2 i)) as Ei3
      by (unfold f3; simpl; by rewrite upd_eq).
    assert (di f3 i = di f2 i) as Ed3 by (unfold di; by rewrite Ei3).
    assert (forall j, j <> i -> icache f3 j = icache f2 j) as Eo3
      by (intros j Hj; unfold f3; simpl; by apply upd_ne). clearbody f3.
    destruct Hw as [W1 W2 W3 W4 W5 W6 W7 W8 W9 W10 W11 W12 W13]. rewrite Ed, Efb in *.
    split; rewrite ?Ed3, ?Ef3; try done.
    - destruct W1. split; rewrite ?Ed3, ?Ef3, ?Ei3; done.
    - unfold idle_inode. rewrite Ei3. simpl. rewrite G1, G3, F1, F3. split; [apply Hid|done].
    - intros j Hj. rewrite Eo3, W6 by done. by apply Foth. }
  apply HK in Hst. exact Hst.
Qed.

Lemma no_piece f k : set_kf (kf k) (set_file f (set_foff (foff (files k f)) (files k f)) k) = k.
Proof.
  assert (set_foff (foff (files k f)) (files k f) = files k f) as -> by (by destruct (files k f)).
  unfold set_kf, set_file, set_files. simpl. rewrite upd_id. by destruct k.
Qed.

Lemma filewrite_from_ok fuel f l i n k :
  let x := files k f in
  idle_inode (kf k) (fip x) -> file_ok (kf k) (fip x) ->
  0 <= foff x <= di_size (di (kf k) (fip x)) ->
  0 <= i <= n -> zlen l = n - i -> n - i <= Z.of_nat fuel -> foff x + (n - i) <= MAXBYTES ->
  wp (filewrite_from devwrite fuel f l i n) k
    (fun r k' => r = n /\ exists f', stored_file (fip x) l (foff x) (kf k) f' /\
       k' = set_kf f' (set_file f (set_foff (foff x + (n - i)) x) k))
    (fun w k' => w = Panicked "balloc: out of blocks" /\ disk_full (fb (kf k'))).
Proof.
  revert l i k. induction fuel as [|fuel IH]; intros l i k x Hid Hok Ho Hi Hl Hfu Hm.
  all: cbn [filewrite_from]; destruct (i <? n) eqn:E; bool_prop.
  { lia. }
  1,3: apply wp_ret; split; [lia|]; exists (kf k); split;
    [destruct l; [apply stored_nil; (done || lia)|unfold zlen in Hl; simpl in Hl; lia]|];
    replace (foff x + (n - i)) with (foff x) by lia; unfold x; by rewrite no_piece.
  set (n1 := Z.min (n - i) max_write). assert (max_write = 6656) as Hmw by done.
  unfold begin_op. do 4 (step; cbn beta). fold x.
  assert (slice 0 n1 l = take (Z.to_nat n1) l) as -> by (unfold slice; by rewrite drop_0).
  set (l1 := take (Z.to_nat n1) l).
  assert (zlen l1 = n1) as Hl1 by (unfold l1, zlen in *; rewrite length_take; lia).
  rewrite <- Hl1.
  apply (wp_piece f x l1 k (fun r => if r <? 0 then ret i else if negb (r =? zlen l1)
    then panic "short filewrite" else filewrite_from devwrite fuel f (drop (Z.to_nat r) l) (i + r) n));
    [done|done|done|done|lia|lia| |done].
  intros f' Hst. destruct (zlen l1 <? 0) eqn:E1; bool_prop; [lia|]. rewrite Z.eqb_refl. cbn [negb].
  set (k1 := set_kf f' _).
  assert (files k1 f = set_foff (foff x + zlen l1) x) as Ef by (unfold k1; simpl; by rewrite upd_eq).
  set (l2 := drop (Z.to_nat (zlen l1)) l).
  assert (zlen l2 = n - (i + zlen l1)) as Hl2 by (unfold l2, zlen in *; rewrite length_drop; lia).
  assert (l = l1 ++ l2) as Hcat by (unfold l1, l2; rewrite Hl1; by rewrite take_drop).
  eapply wp_mono; [apply (IH l2 (i + zlen l1) k1); rewrite ?Ef; cbn [fip foff set_foff kf set_kf k1];
    [apply Hst|apply Hst|rewrite (so_size _ _ _ _ _ Hst); lia|lia|lia|lia|lia]| |done].
  intros r k' (-> & f2 & Hst2 & ->). rewrite Ef in *. split; [done|]. exists f2. split.
  - rewrite Hcat. eapply stored_app; [lia|exact Hst|exact Hst2].
  - unfold k1, set_kf, set_file, set_files. simpl. rewrite upd_upd. f_equal. f_equal.
    unfold set_foff. simpl. f_equal. lia.
Qed.
End filewrite.

(** ** What a write logs *)

Definition logs {A} (c : M fs A) : Prop := forall s, flog s ⊆ flog (final (c s)).

Lemma logs_bind {A B} (c : M fs A) (k : A -> M fs B) : logs c -> (forall a, logs (k a)) -> logs (bind c k).
Proof.
  intros Hc Hk s. unfold bind. specialize (Hc s). destruct (c s) as [a s'|w s']; [|done]. simpl in Hc.
  etransitivity; [exact Hc|]. apply Hk.
Qed.

Lemma logs_gets {A} (f : fs -> A) : logs (gets f).
Proof. intros s x Hx. exact Hx. Qed.
Lemma logs_ret {A} (a : A) : logs (ret a).
Proof. intros s x Hx. exact Hx. Qed.
Lemma logs_halt {A} w : logs (@halt fs A w).
Proof. intros s x Hx. exact Hx. Qed.
Lemma logs_change_di i g : logs (change_di i g).
Proof. intros s x Hx. exact Hx. Qed.
Lemma logs_log_write b d : logs (log_write b d).
Proof. intros s x Hx. simpl. case_decide; [done|]. apply elem_of_app. by left. Qed.

#[local] Hint Resolve logs_gets logs_ret logs_halt logs_change_di logs_log_write logs_bind : xv6.

Lemma logs_balloc : logs balloc.
Proof.
  unfold balloc, readsb, bread. apply logs_bind; [auto with xv6|]. intros sb.
  generalize 0 as b. generalize (S (Z.to_nat (sb_size sb / BPB + 1))) as n.
  induction n as [|n IH]; intros b; cbn [balloc_from]; [apply logs_halt|].
  case_match; [|apply logs_halt]. unfold bread, bzero, bread. apply logs_bind; [auto with xv6|].
  intros d. case_match; [auto 6 with xv6|apply IH].
Qed.
#[local] Hint Resolve logs_balloc : xv6.

Lemma logs_bmap i bn : logs (bmap i bn).
Proof.
  unfold bmap, bread. apply logs_bind; [auto with xv6|]. intros ip.
  repeat first [case_match | apply logs_halt | apply logs_ret | apply logs_log_write
    | apply logs_gets | apply logs_balloc | apply logs_change_di | apply logs_bind; intros].
Qed.

Lemma wp_logs {A} (c : M fs A) s (Q : A -> fs -> Prop) E : logs c -> wp c s Q E ->
  wp c s (fun a s' => Q a s' /\ flog s ⊆ flog s') E.
Proof. intros Hl. specialize (Hl s). unfold wp. by destruct (c s). Qed.

Lemma log_write_logs b d s : b ∈ flog (final (log_write b d s)).
Proof. simpl. case_decide; [done|]. apply elem_of_app. right. by apply elem_of_cons; left. Qed.

Lemma wp_conj {S A} (c : M S A) s (Q Q' : A -> S -> Prop) (E E' : stop -> S -> Prop) :
  wp c s Q E -> wp c s Q' E' -> wp c s (fun a s' => Q a s' /\ Q' a s') (fun w s' => E w s' /\ E' w s').
Proof. unfold wp. by destruct (c s). Qed.

Lemma logs_writei_from fuel i src tot n off : logs (writei_from fuel i src tot n off).
Proof.
  revert tot off. induction fuel as [|fuel IH]; intros tot off; cbn [writei_from]; case_match;
    try apply logs_ret; try apply logs_halt.
  apply logs_bind; [apply logs_bmap|]. intros a. apply logs_bind; [apply logs_gets|]. intros d.
  apply logs_bind; [apply logs_log_write|]. intros _. apply IH.
Qed.

(** Every block the loop of writei writes to is logged. *)
Lemma writei_from_logs fuel i src tot n off s : fs_wf (fb s) -> di_ok (fb s) (di s i) ->
  0 <= tot <= n -> n <= zlen src -> n - tot <= Z.of_nat fuel -> 0 <= off -> off + (n - tot) <= MAXBYTES ->
  wp (writei_from fuel i src tot n off) s
    (fun _ s' => forall p, off <= p < off + (n - tot) -> slot (fb s') (di s' i) (bslot (p / BSIZE)) ∈ flog s')
    (fun _ _ => True).
Proof.
  revert tot off s. induction fuel as [|fuel IH]; intros tot off s Hf Hd Ht Hsrc Hfu Ho Hn; simpl.
  { destruct (tot <? n) eqn:E; bool_prop; [lia|]. step. intros p Hp. lia. }
  destruct (tot <? n) eqn:E; bool_prop; [|step; intros p Hp; lia].
  assert (0 <= off mod BSIZE < BSIZE) as Hmod by (apply Z.mod_pos_bound; done).
  assert (0 <= off / BSIZE < MAXFILE) as Hbn by (unfold MAXBYTES, BSIZE in *; zlia).
  step. eapply wp_mono; [by apply bmap_ok| |done].
  intros a s1 (Hg & Ha & Hsl). fstep. fstep. cbn beta. set (m := Z.min (n - tot) (BSIZE - off mod BSIZE)).
  set (x := splice _ _ _).
  assert (zlen (slice tot m src) = m) as Hzs by (apply zlen_slice; lia).
  assert (zlen x = BSIZE) as Hx
    by (unfold x; rewrite zlen_splice; rewrite ?Hzs, ?(fw_len _ (gr_wf _ _ _ Hg)); lia).
  pose proof (gr_wf _ _ _ Hg) as Hf1. pose proof (gr_ok _ _ _ Hg) as Hd1. subst a.
  step. set (a := slot _ _ _) in *. pose proof (log_write_logs a x s1) as Hin.
  eapply wp_run; [done|]. cbn beta. simpl in Hin. set (l := if decide _ then _ else _) in *.
  destruct (store_block_ok s1 i (off / BSIZE) x l Hf1 Hd1 Hbn Ha Hx) as [Hev _].
  set (s2 := set_flog l _) in *. assert (a ∈ flog s2) as Hin2 by exact Hin.
  destruct (bslot_range _ Hbn) as [Hr _].
  assert (slot (fb s2) (di s2 i) (bslot (off / BSIZE)) = a) as Hk2 by (by apply (ev_keep _ _ _ Hev)).
  clearbody s2. eapply wp_mono; [apply wp_conj;
    [apply (IH (tot + m) (off + m) s2); try apply Hev; lia|
     apply wp_logs; [apply logs_writei_from|];
     apply (writei_from_ok fuel i src (tot + m) n (off + m) s2); try apply Hev; lia]| |done].
  intros r s3 [Hrest [(_ & Hev3 & _ & _) Hsub]] p Hp.
  destruct (decide (p / BSIZE = off / BSIZE)) as [->|Hne].
  - rewrite (ev_keep _ _ _ Hev3); [|done|]; rewrite Hk2; [by apply Hsub|done].
  - apply Hrest. unfold BSIZE in *. zlia.
Qed.

(** Distinct blocks of a file in a list. *)
Lemma blocks_distinct s i b0 n : di_ok (fb s) (di s i) -> 0 <= b0 -> b0 + Z.of_nat n <= MAXFILE ->
  (forall k, (k < n)%nat -> slot (fb s) (di s i) (bslot (b0 + Z.of_nat k)) <> 0 /\
     slot (fb s) (di s i) (bslot (b0 + Z.of_nat k)) ∈ flog s) ->
  (n <= length (flog s))%nat.
Proof.
  intros Hd Hb Hn Hk.
  set (l := map (fun k => slot (fb s) (di s i) (bslot (b0 + Z.of_nat k))) (seq 0 n)).
  assert (NoDup l) as Hnd.
  { apply NoDup_fmap_2_strong; [|apply NoDup_seq]. intros j k Hj%elem_of_seq Hk'%elem_of_seq E.
    destruct (bslot_range (b0 + Z.of_nat j)) as [R1 _]; [lia|].
    destruct (bslot_range (b0 + Z.of_nat k)) as [R2 _]; [lia|].
    assert (bslot (b0 + Z.of_nat j) = bslot (b0 + Z.of_nat k)) as E'
      by (apply (do_inj _ _ Hd); [done|done|apply Hk; lia|done]).
    unfold bslot, NDIRECT in E'. repeat case_match; bool_prop; lia. }
  assert (length l <= length (flog s))%nat as Hle.
  { apply submseteq_length, NoDup_submseteq; [done|]. intros x (k & -> & Hk'%elem_of_seq)%list_elem_of_fmap.
    apply Hk. lia. }
  unfold l in Hle. by rewrite length_map, length_seq in Hle.
Qed.

Lemma length_load_bytes `{Layout} va n k l k' : load_bytes va n k = Done l k' -> length l = n /\ k' = k.
Proof.
  revert va l k'. induction n as [|n IH]; intros va l k'; [by intros [= <- <-]|].
  cbn [load_bytes]. unfold bind, ret, load_byte. destruct (translate k va false); [|done].
  destruct (load_bytes (u32 (va + 1)) n k) as [l1 k1|] eqn:E; [|done].
  destruct (IH _ _ _ E) as [<- ->]. by intros [= <- <-].
Qed.

(** ** Theorems *)


(** A kernel with one open file, on the small file system. *)
Definition sample_kern : kern :=
  mkKern (mkKst ∅ 0 false ∅ 0 [] []) 
    (mkFs sample_blocks [] (fun _ => mkInode 1 1 false true (empty_dinode T_FILE)) 0)
    (fun _ => 0) 1 1 1 (fun _ => mkFile FD_INODE 1 true true 0 0 0) (fun _ => pipe_init ∅) 0.

Lemma sample_kern_ok : file_ok (kf sample_kern) 0.
Proof.
  destruct (sample_file_ok T_FILE (or_introl eq_refl)) as [H1 H2 H3 H4 H5 H6]. by split.
Qed.


(** The pieces of filewrite do not fit the log: one piece of the size it takes
    ((LOGSIZE-1-1-2)/2 blocks) that starts at a block boundary puts at least 13 blocks into
    its transaction, while begin_op lets operations in on the promise of at most MAXOPBLOCKS,
    which is 10, each. *)
Theorem filewrite_piece_too_big (devwrite : Z -> option (nat -> list Z -> M fs Z))
    (i : nat) (src : list Z) (off : Z) (s : fs) :
  file_ok s i -> 0 <= off <= di_size (di s i) -> off mod BSIZE = 0 -> off + max_write <= MAXBYTES ->
  max_write <= zlen src ->
  wp (writei devwrite i src off max_write) s
    (fun _ s' => (13 <= length (flog s'))%nat)
    (fun w _ => w = Panicked "balloc: out of blocks").
Proof.
  intros [Hf Hd Ht Hsz Hin (F1 & F2 & F3 & F4)] Ho Hal Hon Hsrc. assert (max_write = 6656) as Hmw by done.
  assert (MAXBYTES = 71680) as HMB by done.
  unfold writei. steps. fold (di s i).
  destruct (di_type (di s i) =? T_DEV) eqn:E; bool_prop; [done|]. rewrite u32_small by lia.
  destruct ((di_size (di s i) <? off) || (off + max_write <? off)) eqn:E1.
  { apply orb_true_iff in E1 as [E1|E1]; bool_prop; lia. }
  change (MAXFILE * BSIZE) with MAXBYTES. destruct (MAXBYTES <? off + max_write) eqn:E2; bool_prop; [lia|].
  step. eapply wp_mono; [apply wp_conj;
    [apply (writei_from_logs _ i src 0 max_write off s); try done; lia|
     apply (writei_from_ok _ i src 0 max_write off s); try done; lia]| |by intros w s' [_ [-> _]]].
  intros r s1 [Hlog (-> & Hev & _ & Hnz)]. rewrite Z.sub_0_r in *.
  assert (13 <= length (flog s1))%nat as H13.
  { apply (blocks_distinct s1 i (off / BSIZE) 13); [apply Hev|unfold BSIZE; zlia| |].
    - change MAXFILE with 140. unfold BSIZE in *. zlia.
    - intros k Hk. replace (off / BSIZE + Z.of_nat k) with ((off + 512 * Z.of_nat k) / BSIZE)
        by (unfold BSIZE; zlia). split; [apply Hnz; lia|apply Hlog; lia]. }
  steps. fold (di s1 i).
  destruct ((0 <? max_write) && (di_size (di s1 i) <? off + max_write)); [|by steps].
  unfold change_di, change, iupdate, bread, log_write. steps. simpl.
  case_decide; [done|]. rewrite length_app. lia.
Qed.

Lemma filewrite_piece_too_big_witness :
  wp (writei (fun _ => None) 0 (replicate (Z.to_nat max_write) 1) 0 max_write) (sample_fs T_FILE)
    (fun _ s' => (13 <= length (flog s'))%nat)
    (fun w _ => w = Panicked "balloc: out of blocks").
Proof.
  apply (filewrite_piece_too_big (fun _ => None) 0 (replicate (Z.to_nat max_write) 1) 0 (sample_fs T_FILE)).
  - apply sample_file_ok. by left.
  - unfold di. simpl. lia.
  - reflexivity.
  - change (0 + 6656 <= 71680). lia.
  - unfold zlen. rewrite length_replicate. change max_write with 6656. lia.
Defined.
