(* ===== verification/Proc.v ===== *)
(** * proc.c: creating, ending and reaping processes; signals

    The routines of proc.c on the whole kernel state.  [forkret] and [trapret] are the
    addresses of two entry points; [initcode] is the program of the first process. *)

From S2P Require Import Pipe Bytes FsFormat Fs Inode InodeData Dir.
From S2P Require Import Prelude Mmu Memory Kstate Kalloc PageTable Uvm Cow Boot Kernel Sched File.

(** signal.h *)
Definition SIGKILL : Z := 0.
Definition SIGFPE : Z := 1.
Definition SIGSEGV : Z := 14.

(** A pointer read from ofile[].  What following one does that is not into ftable is not
    defined; the model stops there, with the pointer. *)
Definition file_ptr (f : Z) : M kern nat :=
  if (1 <=? f) && (f <=? Z.of_nat NFILE) then ret (Z.to_nat (f - 1)) else halt (Faulted f).

Definition inode_ptr (i : Z) : M kern nat :=
  if (1 <=? i) && (i <=? Z.of_nat NINODE) then ret (Z.to_nat (i - 1)) else halt (Faulted i).
Definition ptr_of (i : option nat) : Z := match i with Some i => Z.of_nat i + 1 | None => 0 end.

(** ** Names *)

Definition bytes_of_word (w : Z) : list Z := le_bytes 4 w.

Definition get_name (p : Z) : M kern (list Z) :=
  gets (fun k => flat_map (fun i => bytes_of_word (fld k p (o_name + Z.of_nat i))) (seq 0 4)).

Definition put_name (p : Z) (l : list Z) : M kern unit :=
  setf p o_name (rd 4 0 l) ;;
  setf p (o_name + 1) (rd 4 4 l) ;;
  setf p (o_name + 2) (rd 4 8 l) ;;
  setf p (o_name + 3) (rd 4 12 l).

(** safestrcpy: [n] bytes at [old], the string [t]. *)
Fixpoint copy_name (n : nat) (t old : list Z) : list Z :=
  match n with
  | O => old
  | S O => 0 :: tl old
  | S n =>
      if hd 0 t =? 0 then 0 :: 0 :: tl (tl old)
      else hd 0 t :: copy_name n (tl t) (tl old)
  end.

Definition safestrcpy_name (p : Z) (t : list Z) : M kern unit :=
  let! old := get_name p in
  put_name p (copy_name 16 t old).

Section proc.
Context `{Layout}.
Context (forkret trapret : Z).
Context (devread : Z -> option (nat -> Z -> M fs (Z * list Z))).
Context (devwrite : Z -> option (nat -> list Z -> M fs Z)).

(** ** New processes *)

Definition KSTACKSIZE : Z := 4096.
Definition CONTEXT_SIZE : Z := 20.
Definition ctx_eip : Z := 16.

Fixpoint find_state (st : Z) (l : list Z) : M kern Z :=
  match l with
  | [] => ret 0
  | p :: l =>
      let! s := getf p o_state in
      if s =? st then ret p else find_state st l
  end.

(** allocproc under the lock. *)
Definition alloc_slot : M kern Z :=
  on_km (acquire L_ptable) ;;
  let! p := find_state UNUSED slots in
  (if p =? 0 then ret tt
   else
     setf p o_state EMBRYO ;;
     let! n := gets nextpid in
     setf p o_pid n ;;
     modify (set_nextpid (n + 1))) ;;
  on_km (release L_ptable) ;;
  ret p.

Definition allocproc : M kern Z :=
  let! p := alloc_slot in
  if p =? 0 then ret 0
  else
    let! stack := on_km kalloc in
    setf p o_kstack stack ;;
    if stack =? 0 then setf p o_state UNUSED ;; ret 0
    else
      let sp := stack + KSTACKSIZE - TF_SIZE in
      setf p o_tf sp ;;
      let sp := sp - 4 in
      on_km (store sp trapret) ;;
      let sp := sp - CONTEXT_SIZE in
      setf p o_context sp ;;
      on_km (on_mem (fun m => memset m sp 0 CONTEXT_SIZE)) ;;
      on_km (store (sp + ctx_eip) forkret) ;;
      setf p (o_handlers SIGKILL) (u32 (-1)) ;;
      setf p (o_handlers SIGFPE) (u32 (-1)) ;;
      setf p (o_handlers SIGSEGV) (u32 (-1)) ;;
      setf p o_restorer (u32 (-1)) ;;
      setf p o_shared 0 ;;
      ret p.

(** The segment registers are 16 bits wide; the padding above them is zeroed before. *)
Definition userinit (initcode : list Z) : M kern unit :=
  let! p := allocproc in
  modify (set_initproc p) ;;
  let! d := on_km setupkvm in
  (if p =? 0 then halt (Faulted 4) else setf p o_pgdir d) ;;
  if d =? 0 then panic "userinit: out of memory?"
  else
    on_km (inituvm d initcode) ;;
    setf p o_sz PGSIZE ;;
    let! tf := getf p o_tf in
    on_km (on_mem (fun m => memset m tf 0 TF_SIZE)) ;;
    let ds := Z.lor (Z.shiftl SEG_UDATA 3) DPL_USER in
    on_km (store (tf + tf_cs) (Z.lor (Z.shiftl SEG_UCODE 3) DPL_USER)) ;;
    on_km (store (tf + tf_ds) ds) ;;
    on_km (store (tf + tf_es) ds) ;;
    on_km (store (tf + tf_ss) ds) ;;
    on_km (store (tf + tf_eflags) FL_IF) ;;
    on_km (store (tf + tf_esp) PGSIZE) ;;
    on_km (store (tf + tf_eip) 0) ;;
    safestrcpy_name p [105; 110; 105; 116; 99; 111; 100; 101] ;;
    let! cwd := on_fs (namei devread [47]) in
    setf p o_cwd (ptr_of cwd) ;;
    setf p o_state RUNNABLE.

Definition growproc (n : Z) : M kern Z :=
  let! p := gets proc in
  let! sz := getf p o_sz in
  let! d := getf p o_pgdir in
  let! sz' :=
    (if 0 <? n then on_km (allocuvm d sz (u32 (sz + n)))
     else if n <? 0 then on_km (deallocuvm d sz (u32 (sz + n)))
     else ret sz) in
  if negb (n =? 0) && (sz' =? 0) then ret (-1)
  else
    setf p o_sz sz' ;;
    on_km (switchuvm d) ;;
    ret 0.

(** ** fork *)

Fixpoint dup_files (p np : Z) (l : list nat) : M kern unit :=
  match l with
  | [] => ret tt
  | fd :: l =>
      let! f := getf p (o_ofile (Z.of_nat fd)) in
      (if f =? 0 then ret tt
       else
         let! i := file_ptr f in
         let! i := filedup i in
         setf np (o_ofile (Z.of_nat fd)) (Z.of_nat i + 1)) ;;
      dup_files p np l
  end.

(** The last step of a new process, under the lock. *)
Definition make_runnable (np : Z) : M kern unit :=
  on_km (acquire L_ptable) ;;
  setf np o_state RUNNABLE ;;
  on_km (release L_ptable).

(** What fork does once the child [np] has its memory. *)
Definition copy_proc (np : Z) : M kern Z :=
  let! p := gets proc in
  let! sz := getf p o_sz in
  setf np o_sz sz ;;
  setf np o_parent p ;;
  let! ntf := getf np o_tf in
  let! tf := getf p o_tf in
  on_km (on_mem (fun m => memmove m ntf tf TF_SIZE)) ;;
  on_km (store (ntf + tf_eax) 0) ;;
  dup_files p np (seq 0 NOFILE) ;;
  let! cwd := getf p o_cwd in
  let! i := inode_ptr cwd in
  let! i := on_fs (idup i) in
  setf np o_cwd (Z.of_nat i + 1) ;;
  let! name := get_name p in
  safestrcpy_name np name ;;
  let! pid := getf np o_pid in
  make_runnable np ;;
  ret pid.

(** fork and cowfork are the same up to the copy of the memory and the last lines. *)
Definition fork_with (copy : Z -> Z -> M kst Z) (cow : bool) : M kern Z :=
  let! np := allocproc in
  if np =? 0 then ret (-1)
  else
    let! p := gets proc in
    let! pgdir := getf p o_pgdir in
    let! sz := getf p o_sz in
    let! d := on_km (copy pgdir sz) in
    setf np o_pgdir d ;;
    if d =? 0 then
      let! stack := getf np o_kstack in
      on_km (kfree stack) ;;
      setf np o_kstack 0 ;;
      setf np o_state UNUSED ;;
      ret (-1)
    else
      let! pid := copy_proc np in
      (if cow then setf p o_shared 1 ;; setf np o_shared 1 else ret tt) ;;
      ret pid.

Definition fork : M kern Z := fork_with copyuvm false.
Definition cowfork : M kern Z := fork_with copyuvm_cow true.

(** ** exit and wait *)

Fixpoint close_files (p : Z) (l : list nat) : M kern unit :=
  match l with
  | [] => ret tt
  | fd :: l =>
      let! f := getf p (o_ofile (Z.of_nat fd)) in
      (if f =? 0 then ret tt
       else
         let! i := file_ptr f in
         fileclose i ;;
         setf p (o_ofile (Z.of_nat fd)) 0) ;;
      close_files p l
  end.

(** Pass abandoned children to init. *)
Fixpoint reparent (p : Z) (l : list Z) : M kern unit :=
  match l with
  | [] => ret tt
  | q :: l =>
      let! par := getf q o_parent in
      (if par =? p then
         let! init := gets initproc in
         setf q o_parent init ;;
         let! st := getf q o_state in
         if st =? ZOMBIE then wakeup1 init else ret tt
       else ret tt) ;;
      reparent p l
  end.

(** exit under the lock. *)
Definition exit_table {A} : M kern A :=
  on_km (acquire L_ptable) ;;
  let! p := gets proc in
  let! par := getf p o_parent in
  wakeup1 par ;;
  reparent p slots ;;
  setf p o_state ZOMBIE ;;
  sched 0.

Definition exit {A} : M kern A :=
  let! p := gets proc in
  let! init := gets initproc in
  if p =? init then panic "init exiting"
  else
    close_files p (seq 0 NOFILE) ;;
    begin_op ;;
    let! cwd := getf p o_cwd in
    let! i := inode_ptr cwd in
    on_fs (iput i) ;;
    end_op ;;
    setf p o_cwd 0 ;;
    exit_table.

(** Freeing a zombie. *)
Definition reap (q : Z) : M kern Z :=
  let! pid := getf q o_pid in
  let! stack := getf q o_kstack in
  on_km (kfree stack) ;;
  setf q o_kstack 0 ;;
  let! sh := getf q o_shared in
  let! d := getf q o_pgdir in
  (if sh =? 0 then on_km (freevm d) else on_km (free_cow_vm d)) ;;
  setf q o_state UNUSED ;;
  setf q o_pid 0 ;;
  setf q o_parent 0 ;;
  let! w := getf q o_name in
  setf q o_name (w - w mod 256) ;;
  setf q o_killed 0 ;;
  on_km (release L_ptable) ;;
  ret pid.

Fixpoint wait_from (l : list Z) (havekids : bool) : M kern Z :=
  let! p := gets proc in
  match l with
  | [] =>
      let! killed := getf p o_killed in
      if negb havekids || negb (killed =? 0) then on_km (release L_ptable) ;; ret (-1)
      else sleep p L_ptable
  | q :: l =>
      let! par := getf q o_parent in
      if negb (par =? p) then wait_from l havekids
      else
        let! st := getf q o_state in
        if st =? ZOMBIE then reap q else wait_from l true
  end.

(** One round of the loop; a process that sleeps starts over when it is woken. *)
Definition wait : M kern Z :=
  on_km (acquire L_ptable) ;;
  wait_from slots false.

(** ** Signals *)

(** Storing a word at proc->tf->esp - off. *)
Definition push_at (off v : Z) : M kern unit :=
  let! esp := get_tf tf_esp in
  store_word (u32 (esp - off)) v.

Definition signal_deliver (signum si_addr si_type : Z) : M kern unit :=
  let! p := gets proc in
  let! old_eip := get_tf tf_eip in
  push_at 4 old_eip ;;
  let! eax := get_tf tf_eax in
  push_at 8 eax ;;
  let! ecx := get_tf tf_ecx in
  push_at 12 ecx ;;
  let! edx := get_tf tf_edx in
  push_at 16 edx ;;
  push_at 20 si_type ;;
  push_at 24 si_addr ;;
  push_at 28 signum ;;
  let! restorer := getf p o_restorer in
  push_at 32 restorer ;;
  let! esp := get_tf tf_esp in
  set_tf tf_esp (u32 (esp - 32)) ;;
  let! h := getf p (o_handlers signum) in
  set_tf tf_eip h.

Definition signal_register_handler (signum handler : Z) : M kern Z :=
  let! p := gets proc in
  if p =? 0 then ret (u32 (-1))
  else
    let! previous := getf p (o_handlers signum) in
    setf p (o_handlers signum) handler ;;
    ret previous.
End proc.
