(* ===== verification/Syscall.v ===== *)
(** * syscall.c: the arguments of system calls

    The arguments are on the user's stack; every pointer is checked against the size
    of the process before the kernel follows it.  A routine that fails returns [None]
    where the code returns -1. *)

From S2P Require Import Pipe Fs.
From S2P Require Import Prelude Mmu Memory Kstate Kalloc PageTable Uvm Kernel.

Section syscall.
Context `{Layout}.

Definition fetchint (a : Z) : M kern (option Z) :=
  let! p := gets proc in
  let! sz := getf p o_sz in
  if (sz <=? a) || (sz <? u32 (a + 4)) then ret None
  else
    let! v := load_word a in
    ret (Some (s32 v)).

Fixpoint find_nul (fuel : nat) (s : Z) (len : Z) : M kern (option Z) :=
  match fuel with
  | O => ret None
  | S f =>
      let! b := load_byte s in
      if b =? 0 then ret (Some len) else find_nul f (s + 1) (len + 1)
  end.

(** The length of the string at [a], if it ends before [proc->sz]. *)
Definition fetchstr (a : Z) : M kern (option Z) :=
  let! p := gets proc in
  let! sz := getf p o_sz in
  if sz <=? a then ret None else find_nul (Z.to_nat (sz - a)) a 0.

Definition argint (n : Z) : M kern (option Z) :=
  let! esp := get_tf tf_esp in
  fetchint (u32 (esp + 4 + 4 * n)).

(** [size] is an int that is added to an unsigned address. *)
Definition argptr (n size : Z) : M kern (option Z) :=
  let! i := argint n in
  match i with
  | None => ret None
  | Some i =>
      let! p := gets proc in
      let! sz := getf p o_sz in
      if (sz <=? u32 i) || (sz <? u32 (u32 i + size)) then ret None else ret (Some (u32 i))
  end.

(** The address and the length of the string. *)
Definition argstr (n : Z) : M kern (option (Z * Z)) :=
  let! a := argint n in
  match a with
  | None => ret None
  | Some a =>
      let! l := fetchstr (u32 a) in
      ret (match l with Some l => Some (u32 a, l) | None => None end)
  end.

(** The bytes of a string argument, where the caller reads them. *)
Definition argpath (n : Z) : M kern (option (list Z)) :=
  let! s := argstr n in
  match s with
  | None => ret None
  | Some (a, l) => let! path := load_bytes a (Z.to_nat l) in ret (Some path)
  end.
End syscall.

(** ** The kernel stays inside the process *)

Section bounds.
Context `{Layout}.
Context (k : kern).
Let sz : Z := fld k (proc k) o_sz.
Context (Hsz : 0 <= sz <= KERNBASE).

Lemma load_byte_same a b k' : load_byte a k = Done b k' -> k' = k.
Proof. unfold load_byte. case_match; [|done]. by intros [= _ ->]. Qed.

Lemma load_word_same a v k' : load_word a k = Done v k' -> k' = k.
Proof.
  unfold load_word, bind, load_byte. destruct (translate k a false); [|done].
  do 3 match goal with |- context [translate k ?a false] => destruct (translate k a false); [|done] end.
  by intros [= _ ->].
Qed.

Lemma fetchint_some a v k' : 0 <= a < 2 ^ 32 -> fetchint a k = Done (Some v) k' ->
  k' = k /\ a + 4 <= sz /\ exists w, load_word a k = Done w k /\ v = s32 w.
Proof.
  intros Ha. unfold fetchint. rewrite (bind_run (gets proc) _ k (proc k) k) by done.
  rewrite (bind_run (getf _ _) _ k sz k) by done. unfold KERNBASE in Hsz.
  destruct (Z.leb_spec sz a); [done|]. unfold u32. rewrite Z.mod_small by lia.
  destruct (Z.ltb_spec sz (a + 4)); [done|]. cbn [orb]. unfold bind.
  destruct (load_word a k) as [w k1|] eqn:E; [|done]. intros [= <- ->].
  pose proof (load_word_same _ _ _ E) as ->. by eauto.
Qed.

Lemma argint_some n v k' : argint n k = Done (Some v) k' ->
  k' = k /\ exists a w, 0 <= a /\ a + 4 <= sz /\ load_word a k = Done w k /\ v = s32 w.
Proof.
  unfold argint. rewrite (bind_run _ _ _ _ _ (get_tf_run k tf_esp)). intros E.
  assert (0 <= u32 (reg k tf_esp + 4 + 4 * n) < 2 ^ 32) as Hr by apply u32_range.
  destruct (fetchint_some _ _ _ Hr E) as (-> & Hb & w & Hw & ->). split; [done|]. exists (u32 (reg k tf_esp + 4 + 4 * n)), w.
  by split; [lia|].
Qed.

Lemma argptr_some n size p k' : 0 <= size < 2 ^ 31 -> argptr n size k = Done (Some p) k' ->
  k' = k /\ 0 <= p /\ p + size <= sz.
Proof.
  intros Hs. unfold argptr, bind at 1. destruct (argint n k) as [[i|] k1|] eqn:E; [|done..].
  destruct (argint_some _ _ _ E) as [-> _]. rewrite (bind_run (gets proc) _ k (proc k) k) by done.
  rewrite (bind_run (getf _ _) _ k sz k) by done. unfold KERNBASE in Hsz.
  assert (0 <= u32 i < 2 ^ 32) as Hi by apply u32_range.
  destruct (Z.leb_spec sz (u32 i)); [done|].
  set (j := u32 i) in *. clearbody j.
  assert (u32 (j + size) = j + size) as -> by (apply Z.mod_small; lia).
  destruct (Z.ltb_spec sz (j + size)) as [|Hb]; [done|]. intros [= <- ->]. split; [done|lia].
Qed.

Lemma find_nul_some f : forall s len l k', find_nul f s len k = Done (Some l) k' ->
  k' = k /\ len <= l < len + Z.of_nat f /\ load_byte (s + (l - len)) k = Done 0 k /\
  forall i, 0 <= i < l - len -> exists b, b <> 0 /\ load_byte (s + i) k = Done b k.
Proof.
  induction f as [|f IH]; intros s len l k' E; [done|]. cbn [find_nul] in E. unfold bind in E.
  destruct (load_byte s k) as [b k1|] eqn:Eb; [|done]. pose proof (load_byte_same _ _ _ Eb) as ->.
  destruct (Z.eqb_spec b 0) as [Hb|Hb]; [subst b|].
  - injection E as <- ->. split; [done|]. split; [lia|]. rewrite Z.sub_diag, Z.add_0_r. split; [done|]. lia.
  - destruct (IH _ _ _ _ E) as (-> & Hl & H0 & Hi). split; [done|]. split; [lia|]. split.
    + by replace (s + (l - len)) with (s + 1 + (l - (len + 1))) by lia.
    + intros i Hi'. destruct (decide (i = 0)) as [->|Hne]; [exists b; by rewrite Z.add_0_r|].
      replace (s + i) with (s + 1 + (i - 1)) by lia. apply Hi. lia.
Qed.

Lemma argstr_some n a l k' : argstr n k = Done (Some (a, l)) k' ->
  k' = k /\ 0 <= a /\ 0 <= l /\ a + l < sz /\ load_byte (a + l) k = Done 0 k /\
  forall i, 0 <= i < l -> exists b, b <> 0 /\ load_byte (a + i) k = Done b k.
Proof.
  unfold argstr, bind at 1. destruct (argint n k) as [[i|] k1|] eqn:E; [|done..].
  destruct (argint_some _ _ _ E) as [-> _]. unfold bind.
  destruct (fetchstr (u32 i) k) as [[l'|] k1|] eqn:Es; [|done..]. intros [= <- <- ->].
  unfold fetchstr in Es. rewrite (bind_run (gets proc) _ k (proc k) k) in Es by done.
  rewrite (bind_run (getf _ _) _ k sz k) in Es by done. destruct (Z.leb_spec sz (u32 i)); [done|].
  assert (0 <= u32 i < 2 ^ 32) as Hi by apply u32_range.
  destruct (find_nul_some _ _ _ _ _ Es) as (-> & Hl & Hn & Hb). rewrite Z.sub_0_r in *.
  split; [done|]. split; [lia|]. split; [lia|]. split; [lia|]. split; [done|]. exact Hb.
Qed.
End bounds.


(** With a negative size argptr accepts any nonzero pointer into the process, however
    close to its end. *)
Lemma argptr_negative_size `{Layout} k n i : argint n k = Done (Some i) k ->
  1 <= u32 i < fld k (proc k) o_sz -> argptr n (-1) k = Done (Some (u32 i)) k.
Proof.
  intros E Hi. unfold argptr. rewrite (bind_run _ _ _ _ _ E).
  rewrite (bind_run (gets proc) _ k (proc k) k) by done.
  rewrite (bind_run (getf _ _) _ k (fld k (proc k) o_sz) k) by done.
  pose proof (u32_range i) as Hr. set (j := u32 i) in *. clearbody j.
  assert (u32 (j + -1) = j - 1) as -> by (apply Z.mod_small; lia).
  destruct (Z.leb_spec (fld k (proc k) o_sz) j); [lia|].
  by destruct (Z.ltb_spec (fld k (proc k) o_sz) (j - 1)); [lia|].
Qed.
