(* ===== verification/Sysproc.v ===== *)
(** * sysproc.c: the system calls on processes and memory *)

From S2P Require Import Pipe Bytes FsFormat Fs Inode InodeData Dir.
From S2P Require Import Prelude Mmu Memory Kstate Kalloc PageTable Uvm Cow Boot Kernel Sched File Proc Syscall.

Section sysproc.
Context `{Layout}.
Context (forkret trapret : Z).
(** The I/O port instruction. *)
Context (outw : Z -> Z -> M kern unit).

Definition sys_fork : M kern Z := fork forkret trapret.
Definition sys_cowfork : M kern Z := cowfork forkret trapret.
Definition sys_exit : M kern Z := exit.
Definition sys_wait : M kern Z := wait.

Definition sys_kill : M kern Z :=
  let! pid := argint 0 in
  match pid with
  | None => ret (-1)
  | Some pid => kill pid
  end.

Definition sys_getpid : M kern Z :=
  let! p := gets proc in
  getf p o_pid.

Definition sys_sbrk : M kern Z :=
  let! n := argint 0 in
  match n with
  | None => ret (-1)
  | Some n =>
      let! p := gets proc in
      let! a := getf p o_sz in
      let! r := growproc n in
      if r <? 0 then ret (-1) else ret a
  end.

(** [&ticks], a kernel address no pipe, inode or process has. *)
Definition ticks_chan : Z := -1.

(** One round of the loop of sys_sleep; the comparison is of unsigned numbers.  A
    process that is woken runs it again. *)
Definition sleep_round (ticks0 n : Z) : M kern Z :=
  let! t := gets ticks in
  if u32 (t - ticks0) <? u32 n then
    let! p := gets proc in
    let! killed := getf p o_killed in
    if negb (killed =? 0) then on_km (release L_tickslock) ;; ret (-1)
    else sleep ticks_chan L_tickslock
  else on_km (release L_tickslock) ;; ret 0.

Definition sys_sleep : M kern Z :=
  let! n := argint 0 in
  match n with
  | None => ret (-1)
  | Some n =>
      on_km (acquire L_tickslock) ;;
      let! ticks0 := gets ticks in
      sleep_round ticks0 n
  end.

Definition sys_uptime : M kern Z :=
  on_km (acquire L_tickslock) ;;
  let! xticks := gets ticks in
  on_km (release L_tickslock) ;;
  ret xticks.

(** One write to the port for each character of Shutdown. *)
Fixpoint halt_from (n : nat) : M kern unit :=
  match n with
  | O => ret tt
  | S n => outw 0xB004 0x2000 ;; halt_from n
  end.
Definition sys_halt : M kern Z := halt_from 8 ;; ret 0.

Definition sys_mprotect : M kern Z :=
  let! a := argint 0 in
  match a with
  | None => ret (-1)
  | Some a =>
      let! len := argint 1 in
      match len with
      | None => ret (-1)
      | Some len =>
          let! prot := argint 2 in
          match prot with
          | None => ret (-1)
          | Some prot =>
              let! p := gets proc in
              let! d := getf p o_pgdir in
              on_km (mprotect d (u32 a) len prot)
          end
      end
  end.

Definition sys_signal_register : M kern Z :=
  let! signum := argint 0 in
  match signum with
  | None => ret (-1)
  | Some signum =>
      let! handler := argint 1 in
      match handler with
      | None => ret (-1)
      | Some handler => signal_register_handler signum (u32 handler)
      end
  end.

Definition sys_signal_restorer : M kern Z :=
  let! a := argint 0 in
  match a with
  | None => ret (-1)
  | Some a =>
      let! p := gets proc in
      setf p o_restorer (u32 a) ;;
      ret 0
  end.
End sysproc.
