(* ===== verification/Sysfile.v ===== *)
(** * sysfile.c: the system calls on files

    The part of each call between begin_op and end_op that touches only the file
    system is a definition on its state ([link_op], [unlink_op], [create], ...); the
    system calls add the arguments, the descriptors and the open-file table.  All
    inodes are on one device, so the test that a link stays on its device is not
    there. *)

From S2P Require Import Pipe Bytes FsFormat Fs Inode InodeData Dir.
From S2P Require Import Prelude Mmu Memory Kstate Kalloc PageTable Uvm Boot Kernel Sched File Proc Syscall.

(** fcntl.h *)
Definition O_RDONLY : Z := 0.
Definition O_WRONLY : Z := 1.
Definition O_RDWR : Z := 2.
Definition O_CREATE : Z := 0x200.

Definition dot : list Z := [46].
Definition dotdot : list Z := [46; 46].

Section fsops.
Context (devread : Z -> option (nat -> Z -> M fs (Z * list Z))).
Context (devwrite : Z -> option (nat -> list Z -> M fs Z)).

(** [ip->nlink += d], a short. *)
Definition add_nlink (i : nat) (d : Z) : M fs unit :=
  change_di i (fun di => set_nlink (s16 (di_nlink di + d)) di).

(** ** link *)

Definition link_bad (ip : nat) : M fs Z :=
  ilock ip ;;
  add_nlink ip (-1) ;;
  iupdate ip ;;
  iunlockput ip ;;
  ret (-1).

Definition link_op (old new : list Z) : M fs Z :=
  let! ip := namei devread old in
  match ip with
  | None => ret (-1)
  | Some ip =>
      ilock ip ;;
      let! d := gets (fun s => di s ip) in
      if di_type d =? T_DIR then iunlockput ip ;; ret (-1)
      else
        add_nlink ip 1 ;;
        iupdate ip ;;
        iunlock ip ;;
        let! '(dp, name) := nameiparent devread new in
        match dp with
        | None => link_bad ip
        | Some dp =>
            ilock dp ;;
            let! n := gets (fun s => inum (icache s ip)) in
            let! r := dirlink devread devwrite dp name n in
            if r <? 0 then iunlockput dp ;; link_bad ip
            else
              iunlockput dp ;;
              iput ip ;;
              ret 0
        end
  end.

(** ** unlink *)

Fixpoint isdirempty_from (fuel : nat) (dp : nat) (off : Z) : M fs bool :=
  let! size := gets (fun s => di_size (di s dp)) in
  if off <? size then
    match fuel with
    | O => halt Diverged
    | S fuel =>
        let! '(r, l) := readi devread dp off dirent_sz in
        if negb (r =? dirent_sz) then panic "isdirempty: readi"
        else if negb (de_inum (dirent_of l) =? 0) then ret false
        else isdirempty_from fuel dp (off + dirent_sz)
    end
  else ret true.

Definition isdirempty (dp : nat) : M fs bool :=
  let! size := gets (fun s => di_size (di s dp)) in
  isdirempty_from (Z.to_nat size) dp (2 * dirent_sz).

(** Clearing the entry and dropping the link, with both inodes locked. *)
Definition unlink_entry (dp ip : nat) (off : Z) : M fs Z :=
  let! w := writei devwrite dp (replicate 16 0) off dirent_sz in
  if negb (w =? dirent_sz) then panic "unlink: writei"
  else
    let! d := gets (fun s => di s ip) in
    (if di_type d =? T_DIR then add_nlink dp (-1) ;; iupdate dp else ret tt) ;;
    iunlockput dp ;;
    add_nlink ip (-1) ;;
    iupdate ip ;;
    iunlockput ip ;;
    ret 0.

Definition unlink_op (path : list Z) : M fs Z :=
  let! '(dp, name) := nameiparent devread path in
  match dp with
  | None => ret (-1)
  | Some dp =>
      ilock dp ;;
      if (namecmp name dot =? 0) || (namecmp name dotdot =? 0) then iunlockput dp ;; ret (-1)
      else
        let! e := dirlookup devread dp name in
        match e with
        | None => iunlockput dp ;; ret (-1)
        | Some (ip, off) =>
            ilock ip ;;
            let! d := gets (fun s => di s ip) in
            if di_nlink d <? 1 then panic "unlink: nlink < 1"
            else
              let! empty := (if di_type d =? T_DIR then isdirempty ip else ret true) in
              if negb empty then iunlockput ip ;; iunlockput dp ;; ret (-1)
              else unlink_entry dp ip off
        end
  end.

(** ** create *)

(** The new inode of [create], locked, and its entries. *)
Definition create_in (dp : nat) (name : list Z) (type major minor : Z) : M fs (option nat) :=
  let! ip := ialloc type in
  ilock ip ;;
  change_di ip (fun d => mkDinode (di_type d) major minor 1 (di_size d) (di_addrs d)) ;;
  iupdate ip ;;
  (if type =? T_DIR then
     add_nlink dp 1 ;;
     iupdate dp ;;
     let! i := gets (fun s => inum (icache s ip)) in
     let! r := dirlink devread devwrite ip dot i in
     if r <? 0 then panic "create dots"
     else
       let! j := gets (fun s => inum (icache s dp)) in
       let! r := dirlink devread devwrite ip dotdot j in
       if r <? 0 then panic "create dots" else ret tt
   else ret tt) ;;
  let! i := gets (fun s => inum (icache s ip)) in
  let! r := dirlink devread devwrite dp name i in
  if r <? 0 then panic "create: dirlink"
  else
    iunlockput dp ;;
    ret (Some ip).

Definition create (path : list Z) (type major minor : Z) : M fs (option nat) :=
  let! '(dp, name) := nameiparent devread path in
  match dp with
  | None => ret None
  | Some dp =>
      ilock dp ;;
      let! e := dirlookup devread dp name in
      match e with
      | Some (ip, _) =>
          iunlockput dp ;;
          ilock ip ;;
          let! d := gets (fun s => di s ip) in
          if (type =? T_FILE) && (di_type d =? T_FILE) then ret (Some ip)
          else iunlockput ip ;; ret None
      | None => create_in dp name type major minor
      end
  end.

(** ** open and chdir, up to the file table *)

Definition open_op (path : list Z) (omode : Z) : M fs (option nat) :=
  if negb (Z.land omode O_CREATE =? 0) then create path T_FILE 0 0
  else
    let! ip := namei devread path in
    match ip with
    | None => ret None
    | Some ip =>
        ilock ip ;;
        let! d := gets (fun s => di s ip) in
        if (di_type d =? T_DIR) && negb (omode =? O_RDONLY) then iunlockput ip ;; ret None
        else ret (Some ip)
    end.

Definition chdir_op (path : list Z) : M fs (option nat) :=
  let! ip := namei devread path in
  match ip with
  | None => ret None
  | Some ip =>
      ilock ip ;;
      let! d := gets (fun s => di s ip) in
      if negb (di_type d =? T_DIR) then iunlockput ip ;; ret None
      else iunlock ip ;; ret (Some ip)
  end.
End fsops.

Section sysfile.
Context `{Layout}.
Context (devread : Z -> option (nat -> Z -> M fs (Z * list Z))).
Context (devwrite : Z -> option (nat -> list Z -> M fs Z)).

(** ** Descriptors *)

(** The descriptor and the pointer to the file. *)
Definition argfd (n : Z) : M kern (option (Z * Z)) :=
  let! fd := argint n in
  match fd with
  | None => ret None
  | Some fd =>
      if (fd <? 0) || (Z.of_nat NOFILE <=? fd) then ret None
      else
        let! p := gets proc in
        let! f := getf p (o_ofile fd) in
        if f =? 0 then ret None else ret (Some (fd, f))
  end.

Fixpoint fdalloc_from (l : list nat) (f : Z) : M kern Z :=
  match l with
  | [] => ret (-1)
  | fd :: l =>
      let! p := gets proc in
      let! g := getf p (o_ofile (Z.of_nat fd)) in
      if g =? 0 then
        setf p (o_ofile (Z.of_nat fd)) f ;;
        ret (Z.of_nat fd)
      else fdalloc_from l f
  end.
Definition fdalloc (f : Z) : M kern Z := fdalloc_from (seq 0 NOFILE) f.

Definition sys_dup : M kern Z :=
  let! a := argfd 0 in
  match a with
  | None => ret (-1)
  | Some (_, f) =>
      let! fd := fdalloc f in
      if fd <? 0 then ret (-1)
      else
        let! i := file_ptr f in
        filedup i ;;
        ret fd
  end.

(** The arguments of read and write: the file, the buffer and its length. *)
Definition argbuf : M kern (option (Z * Z * Z)) :=
  let! a := argfd 0 in
  match a with
  | None => ret None
  | Some (_, f) =>
      let! n := argint 2 in
      match n with
      | None => ret None
      | Some n =>
          let! p := argptr 1 n in
          ret (match p with None => None | Some p => Some (f, p, n) end)
      end
  end.

Definition sys_read : M kern Z :=
  let! a := argbuf in
  match a with
  | None => ret (-1)
  | Some (f, p, n) => let! i := file_ptr f in fileread devread i p n
  end.

Definition sys_write : M kern Z :=
  let! a := argbuf in
  match a with
  | None => ret (-1)
  | Some (f, p, n) => let! i := file_ptr f in filewrite devwrite i p n
  end.

Definition sys_close : M kern Z :=
  let! a := argfd 0 in
  match a with
  | None => ret (-1)
  | Some (fd, f) =>
      let! p := gets proc in
      setf p (o_ofile fd) 0 ;;
      let! i := file_ptr f in
      fileclose i ;;
      ret 0
  end.

Definition STAT_SIZE : Z := 20.

Definition store_short (a v : Z) : M kern unit :=
  store_byte a (v mod 256) ;;
  store_byte (u32 (a + 1)) (v / 256 mod 256).

Definition sys_fstat : M kern Z :=
  let! a := argfd 0 in
  match a with
  | None => ret (-1)
  | Some (_, f) =>
      let! st := argptr 1 STAT_SIZE in
      match st with
      | None => ret (-1)
      | Some st =>
          let! i := file_ptr f in
          let! r := filestat i in
          match r with
          | None => ret (-1)
          | Some x =>
              store_word (u32 (st + 4)) (st_dev x) ;;
              store_word (u32 (st + 8)) (st_ino x) ;;
              store_short st (st_type x) ;;
              store_short (u32 (st + 12)) (st_nlink x) ;;
              store_word (u32 (st + 16)) (st_size x) ;;
              ret 0
          end
      end
  end.

(** ** Names *)

Definition sys_link : M kern Z :=
  let! old := argpath 0 in
  match old with
  | None => ret (-1)
  | Some old =>
      let! new := argpath 1 in
      match new with
      | None => ret (-1)
      | Some new =>
          begin_op ;;
          let! r := on_fs (link_op devread devwrite old new) in
          end_op ;;
          ret r
      end
  end.

Definition sys_unlink : M kern Z :=
  let! path := argpath 0 in
  match path with
  | None => ret (-1)
  | Some path =>
      begin_op ;;
      let! r := on_fs (unlink_op devread devwrite path) in
      end_op ;;
      ret r
  end.

Definition sys_open : M kern Z :=
  let! path := argpath 0 in
  match path with
  | None => ret (-1)
  | Some path =>
      let! omode := argint 1 in
      match omode with
      | None => ret (-1)
      | Some omode =>
          begin_op ;;
          let! ip := on_fs (open_op devread devwrite path omode) in
          match ip with
          | None => end_op ;; ret (-1)
          | Some ip =>
              let! f := filealloc in
              let! fd := (match f with Some f => fdalloc (Z.of_nat f + 1) | None => ret (-1) end) in
              match f, fd <? 0 with
              | Some f, false =>
                  on_fs (iunlock ip) ;;
                  end_op ;;
                  modify (fun k =>
                    let x := files k f in
                    let wronly := negb (Z.land omode O_WRONLY =? 0) in
                    set_file f (mkFile FD_INODE (fref x) (negb wronly)
                                  (wronly || negb (Z.land omode O_RDWR =? 0)) (fpipe x) ip 0) k) ;;
                  ret fd
              | _, _ =>
                  (match f with Some f => fileclose f | None => ret tt end) ;;
                  on_fs (iunlockput ip) ;;
                  end_op ;;
                  ret (-1)
              end
          end
      end
  end.

(** The rest of mkdir and mknod. *)
Definition create_and_put (path : list Z) (type major minor : Z) : M kern Z :=
  let! ip := on_fs (create devread devwrite path type major minor) in
  match ip with
  | None => end_op ;; ret (-1)
  | Some ip =>
      on_fs (iunlockput ip) ;;
      end_op ;;
      ret 0
  end.

Definition sys_mkdir : M kern Z :=
  begin_op ;;
  let! path := argpath 0 in
  match path with
  | None => end_op ;; ret (-1)
  | Some path => create_and_put path T_DIR 0 0
  end.

Definition sys_mknod : M kern Z :=
  begin_op ;;
  let! path := argpath 0 in
  match path with
  | None => end_op ;; ret (-1)
  | Some path =>
      let! major := argint 1 in
      match major with
      | None => end_op ;; ret (-1)
      | Some major =>
          let! minor := argint 2 in
          match minor with
          | None => end_op ;; ret (-1)
          | Some minor => create_and_put path T_DEV (s16 major) (s16 minor)
          end
      end
  end.

Definition sys_chdir : M kern Z :=
  begin_op ;;
  let! path := argpath 0 in
  match path with
  | None => end_op ;; ret (-1)
  | Some path =>
      let! ip := on_fs (chdir_op devread path) in
      match ip with
      | None => end_op ;; ret (-1)
      | Some ip =>
          let! p := gets proc in
          let! cwd := getf p o_cwd in
          let! old := inode_ptr cwd in
          on_fs (iput old) ;;
          end_op ;;
          setf p o_cwd (Z.of_nat ip + 1) ;;
          ret 0
      end
  end.

Definition sys_pipe : M kern Z :=
  let! fd := argptr 0 8 in
  match fd with
  | None => ret (-1)
  | Some fd =>
      let! r := pipealloc in
      match r with
      | None => ret (-1)
      | Some (rf, wf) =>
          let! p := gets proc in
          let! fd0 := fdalloc (Z.of_nat rf + 1) in
          let! fd1 := (if fd0 <? 0 then ret (-1) else fdalloc (Z.of_nat wf + 1)) in
          if fd1 <? 0 then
            (if 0 <=? fd0 then setf p (o_ofile fd0) 0 else ret tt) ;;
            fileclose rf ;;
            fileclose wf ;;
            ret (-1)
          else
            store_word fd fd0 ;;
            store_word (u32 (fd + 4)) fd1 ;;
            ret 0
      end
  end.
End sysfile.
