(* ===== verification/Exec.v ===== *)
(** * exec.c, loaduvm of vm.c, and sys_exec

    exec builds a new address space from an ELF file and the arguments, and only
    then replaces the old one. *)

From S2P Require Import Pipe Bytes FsFormat Fs Inode InodeData Dir.
From S2P Require Import Prelude Mmu Memory Kstate Kalloc PageTable Uvm Cow Boot Kernel Sched File Proc Syscall.

(** elf.h *)
Definition ELF_MAGIC : Z := 0x464C457F.
Definition ELF_PROG_LOAD : Z := 1.
Definition ELFHDR_SZ : Z := 52.
Definition PROGHDR_SZ : Z := 32.

Record elfhdr := mkElf { elf_magic : Z; elf_entry : Z; elf_phoff : Z; elf_phnum : Z }.
Definition elf_of (l : list Z) : elfhdr := mkElf (rd 4 0 l) (rd 4 24 l) (rd 4 28 l) (rd 2 44 l).

Record proghdr := mkPh {
  ph_type : Z; ph_off : Z; ph_vaddr : Z; ph_filesz : Z; ph_memsz : Z }.
Definition ph_of (l : list Z) : proghdr := mkPh (rd 4 0 l) (rd 4 4 l) (rd 4 8 l) (rd 4 16 l) (rd 4 20 l).

Definition MAXARG : Z := 32.

(** The part of the path after its last slash. *)
Fixpoint last_elem (s last : list Z) : list Z :=
  match s with
  | [] => last
  | c :: s => last_elem s (if c =? slash then s else last)
  end.

Section exec.
Context `{Layout}.
Context (devread : Z -> option (nat -> Z -> M fs (Z * list Z))).

(** ** loaduvm *)

Fixpoint loaduvm_loop (fuel : nat) (pgdir a : Z) (ip : nat) (i offset sz : Z) : M kern Z :=
  match fuel with
  | O => halt Diverged
  | S f =>
      if i <? sz then
        let! p := on_km (walkpgdir pgdir (u32 (a + i)) false) in
        if p =? 0 then panic "loaduvm: address should exist"
        else
          let! e := on_km (load p) in
          let pa := PTE_ADDR e in
          let n := if sz - i <? PGSIZE then sz - i else PGSIZE in
          let! '(r, bs) := on_fs (readi devread ip (u32 (offset + i)) n) in
          on_km (on_mem (fun m => write_bytes m (p2v pa) bs)) ;;
          if negb (r =? n) then ret (-1)
          else loaduvm_loop f pgdir a ip (u32 (i + PGSIZE)) offset sz
      else ret 0
  end.

Definition loaduvm (pgdir a : Z) (ip : nat) (offset sz : Z) : M kern Z :=
  if negb (a mod PGSIZE =? 0) then panic "loaduvm: addr must be page aligned"
  else loaduvm_loop (Z.to_nat (sz / PGSIZE + 2)) pgdir a ip 0 offset sz.

(** ** The program *)

(** The loop over the program headers: the size so far, or [None] for [goto bad]. *)
Fixpoint load_segments (n : nat) (pgdir : Z) (ip : nat) (off sz : Z) : M kern (option Z) :=
  match n with
  | O => ret (Some sz)
  | S n =>
      let! '(r, l) := on_fs (readi devread ip off PROGHDR_SZ) in
      if negb (r =? PROGHDR_SZ) then ret None
      else
        let ph := ph_of l in
        if negb (ph_type ph =? ELF_PROG_LOAD) then load_segments n pgdir ip (u32 (off + PROGHDR_SZ)) sz
        else if ph_memsz ph <? ph_filesz ph then ret None
        else
          let! sz := on_km (allocuvm pgdir sz (u32 (ph_vaddr ph + ph_memsz ph))) in
          if sz =? 0 then ret None
          else
            let! r := loaduvm pgdir (ph_vaddr ph) ip (ph_off ph) (ph_filesz ph) in
            if r <? 0 then ret None
            else load_segments n pgdir ip (u32 (off + PROGHDR_SZ)) sz
  end.

(** ** The arguments *)

(** strlen of a string of the calling process, which ends below [proc->sz]. *)
Fixpoint user_strlen (fuel : nat) (s : Z) (n : Z) : M kern Z :=
  match fuel with
  | O => halt Diverged
  | S f =>
      let! b := load_byte s in
      if b =? 0 then ret n else user_strlen f (u32 (s + 1)) (n + 1)
  end.

(** Pushing the strings: the stack pointer and the addresses, or [None]. *)
Fixpoint push_args (pgdir sp argc : Z) (argv ustack : list Z) : M kern (option (Z * list Z)) :=
  match argv with
  | [] => ret (Some (sp, ustack))
  | a :: argv =>
      if MAXARG <=? argc then ret None
      else
        let! p := gets proc in
        let! psz := getf p o_sz in
        let! len := user_strlen (S (Z.to_nat psz)) a 0 in
        let sp := Z.land (u32 (sp - (len + 1))) (u32 (Z.lnot 3)) in
        let! bs := load_bytes a (Z.to_nat (len + 1)) in
        let! r := on_km (copyout pgdir sp bs) in
        if r <? 0 then ret None else push_args pgdir sp (argc + 1) argv (ustack ++ [sp])
  end.

(** The stack of the new program: the stack pointer, or [None]. *)
Definition push_stack (pgdir sz : Z) (argv : list Z) : M kern (option Z) :=
  let! r := push_args pgdir sz 0 argv [] in
  match r with
  | None => ret None
  | Some (sp, args) =>
      let argc := zlen args in
      let ustack := [0xffffffff; argc; u32 (sp - (argc + 1) * 4)] ++ args ++ [0] in
      let sp := u32 (sp - (3 + argc + 1) * 4) in
      let! r := on_km (copyout pgdir sp (flat_map (le_bytes 4) ustack)) in
      if r <? 0 then ret None else ret (Some sp)
  end.

(** ** exec *)

(** The label [bad], before and after the inode is put. *)
Definition bad (pgdir : Z) (ip : option nat) : M kern Z :=
  (if pgdir =? 0 then ret tt else on_km (free_cow_vm pgdir)) ;;
  (match ip with
   | Some ip => on_fs (iunlockput ip) ;; end_op
   | None => ret tt
   end) ;;
  ret (-1).

(** Two pages, the first inaccessible, and the arguments; then the old address
    space is replaced. *)
Definition exec_image (path argv : list Z) (elf : elfhdr) (pgdir sz : Z) : M kern Z :=
  let sz := PGROUNDUP sz in
  let! sz := on_km (allocuvm pgdir sz (u32 (sz + 2 * PGSIZE))) in
  if sz =? 0 then bad pgdir None
  else
    on_km (clearpteu pgdir (u32 (sz - 2 * PGSIZE))) ;;
    let! sp := push_stack pgdir sz argv in
    match sp with
    | None => bad pgdir None
    | Some sp =>
        let! p := gets proc in
        safestrcpy_name p (last_elem path path) ;;
        let! oldpgdir := getf p o_pgdir in
        setf p o_pgdir pgdir ;;
        setf p o_sz sz ;;
        set_tf tf_eip (elf_entry elf) ;;
        set_tf tf_esp sp ;;
        on_km (switchuvm pgdir) ;;
        on_km (free_cow_vm oldpgdir) ;;
        ret 0
    end.

(** [elf0] is what the variable [elf] held: readi may fail and leave it, since its
    result is compared as an unsigned number. *)
Definition exec (elf0 : list Z) (path argv : list Z) : M kern Z :=
  begin_op ;;
  let! ip := on_fs (namei devread path) in
  match ip with
  | None => end_op ;; ret (-1)
  | Some ip =>
      on_fs (ilock ip) ;;
      let! '(r, l) := on_fs (readi devread ip 0 ELFHDR_SZ) in
      if u32 r <? ELFHDR_SZ then bad 0 (Some ip)
      else
        let elf := elf_of (if r <? 0 then elf0 else l) in
        if negb (elf_magic elf =? ELF_MAGIC) then bad 0 (Some ip)
        else
          let! pgdir := on_km setupkvm in
          if pgdir =? 0 then bad 0 (Some ip)
          else
            let! sz := load_segments (Z.to_nat (elf_phnum elf)) pgdir ip (elf_phoff elf) 0 in
            match sz with
            | None => bad pgdir (Some ip)
            | Some sz =>
                on_fs (iunlockput ip) ;;
                end_op ;;
                exec_image path argv elf pgdir sz
            end
  end.

(** ** sys_exec *)

(** argv, read up to its null pointer; [None] for a bad one or too many. *)
Fixpoint fetch_argv (n : nat) (uargv i : Z) : M kern (option (list Z)) :=
  match n with
  | O => ret None
  | S n =>
      let! uarg := fetchint (u32 (uargv + 4 * i)) in
      match uarg with
      | None => ret None
      | Some uarg =>
          if uarg =? 0 then ret (Some [])
          else
            let! len := fetchstr (u32 uarg) in
            match len with
            | None => ret None
            | Some _ =>
                let! l := fetch_argv n uargv (i + 1) in
                ret (match l with Some l => Some (u32 uarg :: l) | None => None end)
            end
      end
  end.

Definition sys_exec (elf0 : list Z) : M kern Z :=
  let! path := argpath 0 in
  match path with
  | None => ret (-1)
  | Some path =>
      let! uargv := argint 1 in
      match uargv with
      | None => ret (-1)
      | Some uargv =>
          let! argv := fetch_argv (Z.to_nat MAXARG) (u32 uargv) 0 in
          match argv with
          | None => ret (-1)
          | Some argv => exec elf0 path argv
          end
      end
  end.
End exec.
