(* ===== verification/Trap.v ===== *)
(** * syscall, the interrupt descriptor table and trap

    [trap] on the frame at [tf], on CPU [cpu_id], with [cr2] the address of the last
    page fault.  The handlers of the devices and the acknowledgement of an interrupt
    work on state that is not part of [kern] and are arguments. *)

From S2P Require Import Pipe Bytes FsFormat Fs Inode InodeData Dir.
From S2P Require Import Prelude Mmu Traps Memory Kstate Kalloc PageTable Uvm Cow Boot Kernel Sched File.
From S2P Require Import Proc Syscall Sysproc Sysfile Exec.

(** ** tvinit *)

Definition tvinit (vectors : Z -> Z) : Z -> gatedesc :=
  upd T_SYSCALL (SETGATE true (Z.shiftl SEG_KCODE 3) (vectors T_SYSCALL) DPL_USER)
    (fun i => SETGATE false (Z.shiftl SEG_KCODE 3) (vectors i) 0).

Section trap.
Context `{Layout}.
Context (forkret trapret : Z).
Context (devread : Z -> option (nat -> Z -> M fs (Z * list Z))).
Context (devwrite : Z -> option (nat -> list Z -> M fs Z)).
Context (outw : Z -> Z -> M kern unit).
Context (elf0 : list Z).

(** ** syscall *)

Definition syscalls (num : Z) : option (M kern Z) :=
  match num with
  | 1 => Some (sys_fork forkret trapret)
  | 2 => Some sys_exit
  | 3 => Some sys_wait
  | 4 => Some sys_pipe
  | 5 => Some (sys_read devread)
  | 6 => Some sys_kill
  | 7 => Some (sys_exec devread elf0)
  | 8 => Some sys_fstat
  | 9 => Some (sys_chdir devread)
  | 10 => Some sys_dup
  | 11 => Some sys_getpid
  | 12 => Some sys_sbrk
  | 13 => Some sys_sleep
  | 14 => Some sys_uptime
  | 15 => Some (sys_open devread devwrite)
  | 16 => Some (sys_write devwrite)
  | 17 => Some (sys_mknod devread devwrite)
  | 18 => Some (sys_unlink devread devwrite)
  | 19 => Some (sys_link devread devwrite)
  | 20 => Some (sys_mkdir devread devwrite)
  | 21 => Some sys_close
  | 22 => Some (sys_halt outw)
  | 23 => Some sys_signal_register
  | 24 => Some sys_signal_restorer
  | 25 => Some sys_mprotect
  | 26 => Some (sys_cowfork forkret trapret)
  | _ => None
  end.

(** The name of the process is printed by its address. *)
Definition syscall : M kern unit :=
  let! eax := get_tf tf_eax in
  let num := s32 eax in
  match syscalls num with
  | Some f =>
      let! r := f in
      set_tf tf_eax (u32 r)
  | None =>
      let! q := gets Kernel.proc in
      let! pid := getf q o_pid in
      on_km (cprintf "%d %s: unknown sys call %d\n" [pid; word q o_name; num]) ;;
      set_tf tf_eax (u32 (-1))
  end.

(** ** trap *)

Context (lapiceoi ideintr kbdintr uartintr : M kern unit).
Context (cpu_id cr2 : Z).

Definition tf_reg (tf o : Z) : M kern Z := on_km (load (tf + o)).

(** Exit if the process was killed and was in user space. *)
Definition exit_if_killed (tf : Z) : M kern unit :=
  let! q := gets Kernel.proc in
  let! k := getf q o_killed in
  let! c := tf_reg tf tf_cs in
  if negb (q =? 0) && negb (k =? 0) && (Z.land c 3 =? DPL_USER) then exit else ret tt.

(** The cases T_PGFLT and, when it falls through, T_DIVIDE. *)
Definition page_fault (tf : Z) : M kern unit :=
  let! q := gets Kernel.proc in
  let! sh := getf q o_shared in
  let! h := getf q (o_handlers SIGSEGV) in
  if q =? 0 then halt (Faulted (4 * o_shared))
  else if sh =? 1 then
    let! d := getf q o_pgdir in
    on_km (handle_cow_fault (Some d) cr2)
  else if negb (h =? u32 (-1)) then
    let! err := tf_reg tf tf_err in
    let t :=
      if (err =? 4) || (err =? 6) || (err =? 5) then PROT_NONE
      else if err =? 7 then PROT_READ
      else PROT_WRITE in
    signal_deliver SIGSEGV cr2 t
  else ret tt.

Definition timer_tick : M kern unit :=
  (if cpu_id =? 0 then
     on_km (acquire L_tickslock) ;;
     modify (fun k => set_ticks (u32 (ticks k + 1)) k) ;;
     wakeup ticks_chan ;;
     on_km (release L_tickslock)
   else ret tt) ;;
  lapiceoi.

Definition unexpected (tf trapno : Z) : M kern unit :=
  let! q := gets Kernel.proc in
  let! c := tf_reg tf tf_cs in
  let! eip := tf_reg tf tf_eip in
  if (q =? 0) || (Z.land c 3 =? 0) then
    on_km (cprintf "unexpected trap %d from cpu %d eip %x (cr2=0x%x)\n" [trapno; cpu_id; eip; cr2]) ;;
    panic "trap"
  else
    let! pid := getf q o_pid in
    let! err := tf_reg tf tf_err in
    on_km (cprintf "pid %d %s: trap %d err %d on cpu %d eip 0x%x addr 0x%x--kill proc\n"
             [pid; word q o_name; trapno; err; cpu_id; eip; cr2]) ;;
    setf q o_killed 1.

(** The switch on the number of the trap. *)
Definition trap_switch (tf trapno : Z) : M kern unit :=
  if trapno =? T_IRQ0 + IRQ_TIMER then timer_tick
  else if trapno =? T_IRQ0 + IRQ_IDE then ideintr ;; lapiceoi
  else if trapno =? T_IRQ0 + IRQ_IDE + 1 then ret tt
  else if trapno =? T_IRQ0 + IRQ_KBD then kbdintr ;; lapiceoi
  else if trapno =? T_IRQ0 + IRQ_COM1 then uartintr ;; lapiceoi
  else if (trapno =? T_IRQ0 + 7) || (trapno =? T_IRQ0 + IRQ_SPURIOUS) then
    let! c := tf_reg tf tf_cs in
    let! eip := tf_reg tf tf_eip in
    on_km (cprintf "cpu%d: spurious interrupt at %x:%x\n" [cpu_id; Z.land c 0xffff; eip]) ;;
    lapiceoi
  else if trapno =? T_DIVIDE then
    let! q := gets Kernel.proc in
    let! h := getf q (o_handlers SIGFPE) in
    if q =? 0 then halt (Faulted (4 * o_handlers SIGFPE))
    else if negb (h =? u32 (-1)) then signal_deliver SIGFPE 5 1 else page_fault tf
  else if trapno =? T_PGFLT then page_fault tf
  else unexpected tf trapno.

(** What a process does when it is back from yield is [exit_if_killed] again. *)
Definition trap (tf : Z) : M kern unit :=
  let! trapno := tf_reg tf tf_trapno in
  let! q := gets Kernel.proc in
  if trapno =? T_SYSCALL then
    let! k := getf q o_killed in
    (if negb (k =? 0) then exit else ret tt) ;;
    setf q o_tf tf ;;
    syscall ;;
    let! k := getf q o_killed in
    if negb (k =? 0) then exit else ret tt
  else
    trap_switch tf trapno ;;
    exit_if_killed tf ;;
    let! st := getf q o_state in
    (if negb (q =? 0) && (st =? RUNNING) && (trapno =? T_IRQ0 + IRQ_TIMER) then yield else ret tt) ;;
    exit_if_killed tf.
End trap.
