(* ===== verification/Smp.v ===== *)
(** * Processes on several CPUs

    The routines of proc.c that change the state of a process do so with ptable.lock
    held, up to the release or the switch to the scheduler, so those of different CPUs
    do not overlap (Spinlock.v).  [sstep] runs them in any order on any number of CPUs.

    Theorems: a process is RUNNING exactly when it runs, on one CPU only; and a
    process that sleeps in wait has no child that has exited. *)

From S2P Require Import Pipe Bytes FsFormat Fs Inode InodeData Dir.
From S2P Require Import Prelude Mmu Memory Kstate Kalloc PageTable Uvm Cow Boot Kernel Sched File Proc.

(** ** Steps *)

(** The shared state, and the process that runs on each CPU (0 for its scheduler). *)
Record smp := mkSmp { sh : kern; running : nat -> Z }.

Definition on_cpu (c : nat) (s : smp) : kern := set_proc (running s c) (sh s).
Definition unlocked (k : kern) : kern := set_km (set_held [] (km k)) k.

Section smp.
Context `{Layout}.

(** What a process calls to give up the CPU: exit checks that it is not init; no
    channel but that of wait is the address of a process. *)
Inductive gives_up (k : kern) : M kern unit -> Prop :=
  | G_yield : gives_up k yield
  | G_sleep chan lk : chan ∉ slots -> gives_up k (sleep chan lk)
  | G_exit : proc k <> initproc k -> gives_up k exit_table.

(** What it calls without giving up the CPU; the last three are parts of fork, on
    the slot that allocproc gave it. *)
Inductive keeps_cpu (k : kern) : M kern unit -> Prop :=
  | K_wakeup chan : keeps_cpu k (wakeup chan)
  | K_kill pid : keeps_cpu k (kill pid ;; ret tt)
  | K_alloc : keeps_cpu k (alloc_slot ;; ret tt)
  | K_parent np : state k np = EMBRYO -> proc k ∈ slots -> keeps_cpu k (setf np o_parent (proc k))
  | K_discard np : state k np = EMBRYO -> keeps_cpu k (setf np o_state UNUSED)
  | K_runnable np : state k np = EMBRYO -> keeps_cpu k (make_runnable np).

Inductive sstep : smp -> smp -> Prop :=
  | S_schedule c s p k : running s c = 0 -> scheduler (on_cpu c s) = Done p k ->
      sstep s (mkSmp (unlocked k) (upd c p (running s)))
  | S_give_up c s op chan k : running s c <> 0 -> gives_up (on_cpu c s) op ->
      op (on_cpu c s) = Stop (Blocked chan) k ->
      sstep s (mkSmp (unlocked k) (upd c 0 (running s)))
  | S_wait_sleep c s chan k : running s c <> 0 -> wait (on_cpu c s) = Stop (Blocked chan) k ->
      sstep s (mkSmp (unlocked k) (upd c 0 (running s)))
  | S_wait c s r k : running s c <> 0 -> wait (on_cpu c s) = Done r k ->
      sstep s (mkSmp k (running s))
  | S_call c s op k : keeps_cpu (on_cpu c s) op -> op (on_cpu c s) = Done tt k ->
      sstep s (mkSmp k (running s)).

Inductive reachable (s0 : smp) : smp -> Prop :=
  | R_start : reachable s0 s0
  | R_step s s' : reachable s0 s -> sstep s s' -> reachable s0 s'.

(** After userinit: the first process can run, the other slots are unused. *)
Definition started (s : smp) : Prop :=
  (forall c, running s c = 0) /\
  initproc (sh s) ∈ slots /\ fld (sh s) (initproc (sh s)) o_parent = 0 /\
  state (sh s) (initproc (sh s)) = RUNNABLE /\
  forall p, p ∈ slots -> p <> initproc (sh s) ->
    state (sh s) p = UNUSED /\ fld (sh s) p o_parent = 0.

(** ** The invariant *)

Definition in_wait (k : kern) (p : Z) : Prop := state k p = SLEEPING /\ fld k p o_chan = p.

(** A process that sleeps in wait has no child to reap; init lives; no cycles of
    length one. *)
Record family (k : kern) : Prop := {
  fam_wait : forall p q, p ∈ slots -> q ∈ slots -> in_wait k p -> fld k q o_parent = p ->
    state k q <> ZOMBIE;
  fam_self : forall p, p ∈ slots -> fld k p o_parent <> p;
  fam_init : initproc k ∈ slots /\ fld k (initproc k) o_parent ∉ slots /\
    state k (initproc k) ∉ [UNUSED; EMBRYO; ZOMBIE] }.

Record one_cpu (s : smp) : Prop := {
  oc_running : forall c, running s c <> 0 ->
    running s c ∈ slots /\ state (sh s) (running s c) = RUNNING;
  oc_inj : forall c c', running s c <> 0 -> running s c = running s c' -> c = c';
  oc_all : forall p, p ∈ slots -> state (sh s) p = RUNNING -> exists c, running s c = p }.

(** ** Changes of the table *)

Definition same_proc (k k' : kern) (p : Z) : Prop :=
  state k' p = state k p /\ fld k' p o_chan = fld k p o_chan /\ fld k' p o_parent = fld k p o_parent.

(** Only the process [p] changes. *)
Definition only (p : Z) (k k' : kern) : Prop :=
  initproc k' = initproc k /\ forall q, q <> p -> same_proc k k' q.

(** Some sleeping processes become runnable. *)
Definition woken (k k' : kern) : Prop :=
  initproc k' = initproc k /\
  forall p, (state k' p = state k p \/ (state k p = SLEEPING /\ state k' p = RUNNABLE)) /\
    fld k' p o_chan = fld k p o_chan /\ fld k' p o_parent = fld k p o_parent.

Lemma woken_sleeping k k' p : woken k k' -> state k' p = SLEEPING -> state k p = SLEEPING.
Proof. intros [_ Hw] E. destruct (Hw p) as [[?|[? ?]] _]; congruence. Qed.
Lemma woken_zombie k k' p : woken k k' -> state k' p = ZOMBIE <-> state k p = ZOMBIE.
Proof.
  intros [_ Hw]. destruct (Hw p) as [[->|[E E']] _]; [done|]. rewrite E, E'. done.
Qed.
Lemma woken_running k k' p : woken k k' -> state k' p = RUNNING <-> state k p = RUNNING.
Proof.
  intros [_ Hw]. destruct (Hw p) as [[->|[E E']] _]; [done|]. rewrite E, E'. done.
Qed.
Lemma woken_refl k : woken k k.
Proof. split; [done|]. intros p. repeat split. by left. Qed.
Lemma woken_trans k1 k2 k3 : woken k1 k2 -> woken k2 k3 -> woken k1 k3.
Proof.
  intros [I1 W1] [I2 W2]. split; [congruence|]. intros p.
  destruct (W1 p) as (S1 & C1 & P1), (W2 p) as (S2 & C2 & P2).
  split; [|split; congruence].
  destruct S1 as [E1|[E1 E1']], S2 as [E2|[E2 E2']]; [left|right|right|right]; split_and?; congruence.
Qed.

Lemma family_woken k k' : family k -> woken k k' -> family k'.
Proof.
  intros F W. destruct (W) as [Hi Hw]. split.
  - intros p q Hp Hq [Hs Hc] Hpar. rewrite (woken_zombie _ _ _ W).
    destruct (Hw p) as (_ & Cp & _), (Hw q) as (_ & _ & Pq).
    apply (fam_wait _ F p q Hp Hq); [|congruence]. split; [by eapply woken_sleeping|congruence].
  - intros p Hp. destruct (Hw p) as (_ & _ & ->). by apply (fam_self _ F).
  - rewrite Hi. destruct (fam_init _ F) as (H1 & H2 & H3). destruct (Hw (initproc k)) as (S & _ & ->).
    split; [done|]. split; [done|]. destruct S as [->|[_ ->]]; [done|]. set_solver.
Qed.

Lemma one_cpu_woken s k' : one_cpu s -> woken (sh s) k' -> one_cpu (mkSmp k' (running s)).
Proof.
  intros [O1 O2 O3] W. split; simpl.
  - intros c Hc. destruct (O1 c Hc) as [? ?]. split; [done|]. by apply (woken_running _ _ _ W).
  - exact O2.
  - intros p Hp Hs. apply O3; [done|]. by apply (woken_running _ _ _ W).
Qed.

(** A change of one process that does not end in ZOMBIE. *)
Lemma family_only p k k' : family k -> only p k k' ->
  state k' p <> ZOMBIE ->
  (in_wait k' p -> forall q, q ∈ slots -> fld k q o_parent = p -> state k q <> ZOMBIE) ->
  (p ∈ slots -> fld k' p o_parent <> p) ->
  (p = initproc k -> fld k' p o_parent ∉ slots /\ state k' p ∉ [UNUSED; EMBRYO; ZOMBIE]) ->
  family k'.
Proof.
  intros F [Hi Ho] Hz Hw Hs Hin. split.
  - intros a b Ha Hb Hwa Hpar. destruct (decide (b = p)) as [->|Hb']; [done|].
    destruct (Ho b Hb') as (-> & _ & Pb). rewrite Pb in Hpar.
    destruct (decide (a = p)) as [->|Ha']; [by apply Hw|].
    apply (fam_wait _ F a b Ha Hb); [|done]. destruct (Ho a Ha') as (Sa & Ca & _).
    destruct Hwa as [? ?]. split; congruence.
  - intros a Ha. destruct (decide (a = p)) as [->|Ha']; [by apply Hs|].
    destruct (Ho a Ha') as (_ & _ & ->). by apply (fam_self _ F).
  - rewrite Hi. destruct (fam_init _ F) as (H1 & H2 & H3). split; [done|].
    destruct (decide (initproc k = p)) as [E|Ha']; [rewrite E; by apply Hin|].
    destruct (Ho _ Ha') as (-> & _ & ->). done.
Qed.

(** A change of one process that stays off the CPUs. *)
Lemma one_cpu_only p s k' : one_cpu s -> only p (sh s) k' ->
  state (sh s) p <> RUNNING -> state k' p <> RUNNING -> one_cpu (mkSmp k' (running s)).
Proof.
  intros [O1 O2 O3] [_ Ho] Hs Hs'. split; simpl; [|exact O2|].
  - intros c Hc. destruct (O1 c Hc) as [? E]. split; [done|].
    destruct (decide (running s c = p)) as [Ep|Hne]; [by rewrite Ep in E|]. by rewrite (proj1 (Ho _ Hne)).
  - intros q Hq E. apply O3; [done|]. destruct (decide (q = p)) as [->|Hne]; [done|].
    by rewrite <- (proj1 (Ho _ Hne)).
Qed.

(** A process leaves its CPU. *)
Lemma one_cpu_leave c s k' : one_cpu s -> running s c <> 0 ->
  (forall q, q <> running s c -> state k' q = RUNNING <-> state (sh s) q = RUNNING) ->
  state k' (running s c) <> RUNNING ->
  one_cpu (mkSmp k' (upd c 0 (running s))).
Proof.
  intros [O1 O2 O3] Hc Ho Hs. split; simpl.
  - intros c'. destruct (decide (c' = c)) as [->|Hne]; [by rewrite upd_eq|].
    rewrite upd_ne by done. intros Hc'. destruct (O1 c' Hc') as [? ?]. split; [done|].
    apply Ho; [|done]. intros E. apply Hne. by apply O2.
  - intros c1 c2. destruct (decide (c1 = c)) as [->|Hne]; [by rewrite upd_eq|].
    rewrite upd_ne by done. intros Hc1. destruct (decide (c2 = c)) as [->|Hne2].
    + rewrite upd_eq. intros E. by destruct Hc1.
    + rewrite upd_ne by done. by apply O2.
  - intros q Hq E. destruct (decide (q = running s c)) as [->|Hne]; [done|].
    destruct (O3 q Hq) as [c' Hc']; [by apply Ho|]. exists c'. rewrite upd_ne; [done|].
    intros ->. by apply Hne.
Qed.

(** A process starts on a CPU. *)
Lemma one_cpu_enter c s p k' : one_cpu s -> running s c = 0 -> p ∈ slots -> only p (sh s) k' ->
  state (sh s) p <> RUNNING -> state k' p = RUNNING ->
  one_cpu (mkSmp k' (upd c p (running s))).
Proof.
  intros [O1 O2 O3] Hc Hp [_ Ho] Hs Hs'. assert (forall c', running s c' <> p) as Hfree.
  { intros c' E. assert (running s c' <> 0) as Hc0 by (rewrite E; apply elem_slots in Hp; lia).
    destruct (O1 c' Hc0) as [_ E']. rewrite E in E'. done. }
  split; simpl.
  - intros c'. destruct (decide (c' = c)) as [->|Hne]; [by rewrite upd_eq|].
    rewrite upd_ne by done. intros Hc'. destruct (O1 c' Hc') as [? ?]. split; [done|].
    by rewrite (proj1 (Ho _ (Hfree c'))).
  - intros c1 c2. destruct (decide (c1 = c)) as [->|H1], (decide (c2 = c)) as [->|H2];
      rewrite ?upd_eq, ?upd_ne by done; [done| | |apply O2].
    + intros _ E. by destruct (Hfree c2).
    + intros _ E. by destruct (Hfree c1).
  - intros q Hq E. destruct (decide (q = p)) as [->|Hne]; [exists c; apply upd_eq|].
    destruct (O3 q Hq) as [c' Hc']; [by rewrite <- (proj1 (Ho _ Hne))|]. exists c'. rewrite upd_ne; [done|].
    intros ->. rewrite Hc in Hc'. apply elem_slots in Hq. lia.
Qed.

(** ** What the routines do *)

Lemma only_tab p k k' : tab k' = tab k -> initproc k' = initproc k -> only p k k'.
Proof. intros Ht Hi. split; [done|]. intros q _. unfold same_proc, state, fld. by rewrite Ht. Qed.
Lemma only_set p o v k : 0 <= o < PROC_WORDS -> only p k (set_fld p o v k).
Proof.
  intros Ho. split; [done|]. intros q Hq. unfold same_proc, state.
  by rewrite !fld_set_ne by (done || by left).
Qed.
Lemma only_trans p k1 k2 k3 : only p k1 k2 -> only p k2 k3 -> only p k1 k3.
Proof.
  intros [I1 O1] [I2 O2]. split; [congruence|]. intros q Hq.
  destruct (O1 q Hq) as (? & ? & ?), (O2 q Hq) as (? & ? & ?). repeat split; congruence.
Qed.
Lemma woken_tab k k' : tab k' = tab k -> initproc k' = initproc k -> woken k k'.
Proof. intros Ht Hi. split; [done|]. intros p. unfold state, fld. rewrite Ht. repeat split. by left. Qed.

Lemma wp_on_km_any {A} (c : M kst A) k (Q : A -> kern -> Prop) E :
  (forall a m, Q a (set_km m k)) -> (forall w m, E w (set_km m k)) -> wp (on_km c) k Q E.
Proof. intros HQ HE. unfold wp, on_km. by destruct (c (km k)). Qed.

Definition quiet (w : stop) : Prop := match w with Blocked _ => False | _ => True end.

(** Code that does not give up the CPU. *)
Definition stays {S A} (c : M S A) : Prop := forall s, wp c s (fun _ _ => True) (fun w _ => quiet w).

Lemma wp_on_km_stays {A} (c : M kst A) k (Q : A -> kern -> Prop) (E : stop -> kern -> Prop) : stays c ->
  (forall a m, Q a (set_km m k)) -> (forall w m, quiet w -> E w (set_km m k)) -> wp (on_km c) k Q E.
Proof.
  intros Hc HQ HE. specialize (Hc (km k)). unfold wp, on_km in *. destruct (c (km k)); [done|by apply HE].
Qed.

Lemma stays_acquire l : stays (acquire l).
Proof. intros s. unfold wp, acquire. by case_decide. Qed.
Lemma stays_release l : stays (release l).
Proof. intros s. unfold wp, release. by case_decide. Qed.

Lemma wp_done_inv {S A} (c : M S A) s a s' (Q : A -> S -> Prop) E : c s = Done a s' -> wp c s Q E -> Q a s'.
Proof. unfold wp. by intros ->. Qed.
Lemma wp_stop_inv {S A} (c : M S A) s w s' (Q : A -> S -> Prop) E : c s = Stop w s' -> wp c s Q E -> E w s'.
Proof. unfold wp. by intros ->. Qed.

Lemma wakeup1_run chan k : exists k', wakeup1 chan k = Done tt k' /\ woken k k' /\
  km k' = km k /\ proc k' = proc k /\
  forall p, p ∈ slots -> fld k p o_chan = chan -> state k' p <> SLEEPING.
Proof.
  destruct (wakeup_from_run chan slots k slots_nodup) as (k' & He & Hm & Hp & Hi & Hf & Hs).
  exists k'. split; [exact He|]. split.
  - split; [done|]. intros p. rewrite Hs, !Hf by done. repeat split. case_decide as D; [right; tauto|by left].
  - split; [done|]. split; [done|]. intros p Hin Hc. rewrite Hs. case_decide as D; [done|].
    intros E. by apply D.
Qed.

Lemma wakeup_spec chan k : wp (wakeup chan) k (fun _ k' => woken k k') (fun _ _ => True).
Proof.
  unfold wakeup. apply wp_bind, wp_on_km_any; [|done]. intros _ m. apply wp_bind.
  destruct (wakeup1_run chan (set_km m k)) as (k' & He & Hw & _).
  eapply wp_run; [exact He|]. cbn beta. apply wp_on_km_any; [|done]. intros _ m'.
  eapply woken_trans; [|by apply woken_tab]. eapply woken_trans; [|exact Hw]. by apply woken_tab.
Qed.

Lemma kill_spec pid k : wp (kill pid) k (fun _ k' => woken k k') (fun _ _ => True).
Proof.
  unfold kill. apply wp_bind, wp_on_km_any; [|done]. intros _ m.
  assert (woken k (set_km m k)) as W by by apply woken_tab. revert W. generalize (set_km m k). clear m.
  induction slots as [|p l IH]; intros k1 W; cbn [kill_from]; tsteps.
  - apply wp_on_km_any; [|done]. intros _ m. step. eapply woken_trans; [exact W|]. by apply woken_tab.
  - case_match; [|by apply IH]. tsteps. fold (state (set_fld p o_killed 1 k1) p).
    assert (woken k (set_fld p o_killed 1 k1)) as W1.
    { eapply woken_trans; [exact W|]. split; [done|]. intros q. unfold state.
      rewrite !fld_set_ne by (done || by right). repeat split. by left. }
    clear W. set (k2 := set_fld p o_killed 1 k1) in *. clearbody k2.
    assert (forall k3, woken k k3 -> wp (on_km (release L_ptable) ;; ret 0) k3 (fun _ k' => woken k k')
      (fun _ _ => True)) as Hend.
    { intros k3 W. tsteps. apply wp_on_km_any; [|done]. intros _ m. step.
      eapply woken_trans; [exact W|]. by apply woken_tab. }
    case_match; tsteps; apply wp_bind_inv, Hend; [|done]. bool_prop.
    eapply woken_trans; [exact W1|]. split; [done|]. intros q. rewrite state_set_state.
    rewrite !fld_set_ne by (done || by right). repeat split. case_decide as D; [right|by left].
    subst q. done.
Qed.

(** The loop of allocproc. *)
Lemma find_state_spec st l k : wp (find_state st l) k
  (fun p k' => k' = k /\ ((p = 0 /\ forall q, q ∈ l -> state k q <> st) \/ (p ∈ l /\ state k p = st)))
  (fun _ _ => False).
Proof.
  induction l as [|q l IH]; cbn [find_state]; tsteps.
  { split; [done|]. left. split; [done|]. by intros q Hq%elem_of_nil. }
  fold (state k q). case_match; bool_prop.
  - step. split; [done|]. right. split; [set_solver|done].
  - eapply wp_mono; [exact IH| |done]. intros p k' (-> & Hp). split; [done|].
    destruct Hp as [[-> Hl]|[Hin Hs]]; [left|right; set_solver]. split; [done|].
    intros q' [->|Hq]%elem_of_cons; [done|by apply Hl].
Qed.

Lemma alloc_slot_spec k : wp alloc_slot k
  (fun p k' => (p = 0 /\ woken k k') \/
    (p ∈ slots /\ only p k k' /\ state k p = UNUSED /\ state k' p = EMBRYO /\
     fld k' p o_parent = fld k p o_parent)) (fun _ _ => True).
Proof.
  unfold alloc_slot. apply wp_bind, wp_on_km_any; [|done]. intros _ m. cbn beta. apply wp_bind.
  eapply wp_mono; [apply find_state_spec| |done]. cbn beta. intros p k' (-> & Hp). apply wp_bind.
  case_match; bool_prop.
  - subst p. step. apply wp_bind, wp_on_km_any; [|done]. intros _ m'. step. left. split; [done|].
    by apply woken_tab.
  - destruct Hp as [[? _]|[Hin Hs]]; [done|]. tsteps. apply wp_on_km_any; [|done]. intros _ m'. step. right.
    split; [done|]. split.
    { eapply only_trans; [apply (only_set p o_state EMBRYO); done|].
      eapply only_trans; [apply (only_set p o_pid (nextpid k)); done|]. by apply only_tab. }
    split; [done|]. split.
    + transitivity (fld (set_fld p o_pid (nextpid k) (set_fld p o_state EMBRYO k)) p o_state); [done|].
      rewrite fld_set_ne by (done || by right). apply fld_set_eq.
    + transitivity (fld (set_fld p o_pid (nextpid k) (set_fld p o_state EMBRYO k)) p o_parent); [done|].
      by rewrite !fld_set_ne by (done || by right).
Qed.

Lemma scheduler_spec k : wp scheduler k
  (fun p k' => (p = 0 /\ woken k k') \/
    (p ∈ slots /\ only p k k' /\ state k p = RUNNABLE /\ state k' p = RUNNING /\
     fld k' p o_parent = fld k p o_parent)) (fun _ _ => True).
Proof.
  unfold scheduler. apply wp_bind, wp_on_km_any; [|done]. intros _ m.
  assert (tab (set_km m k) = tab k) as Ht by done. assert (initproc (set_km m k) = initproc k) as Hi by done.
  revert Ht Hi. generalize (set_km m k). clear m. assert (slots ⊆ slots) as Hsub by done. revert Hsub.
  generalize slots at 1 3. intros l. induction l as [|p l IH]; intros Hsub k1 Ht Hi; cbn [scheduler_from].
  { apply wp_bind, wp_on_km_any; [|done]. intros _ m. step. left. split; [done|]. by apply woken_tab. }
  apply wp_bind. unfold scheduler_body. tsteps. case_match; bool_prop; tsteps.
  { apply IH; [set_solver|done..]. }
  apply wp_on_km_any; [|done]. intros _ m. tsteps. right.
  assert (only p k k1) as H1 by by apply only_tab.
  assert (state k p = RUNNABLE) as Hs by (unfold state, fld; rewrite <- Ht; done).
  split; [set_solver|]. split; [|split; [done|]].
  - eapply only_trans; [exact H1|]. eapply only_trans; [|by apply only_set]. by apply only_tab.
  - unfold state. rewrite fld_set_eq. split; [done|]. rewrite fld_set_ne by (done || by right).
    unfold fld. by rewrite <- Ht.
Qed.

(** ** Freeing memory does not give up the CPU *)

Lemma stays_bind {S A B} (c : M S A) (f : A -> M S B) : stays c -> (forall a, stays (f a)) -> stays (bind c f).
Proof.
  intros Hc Hf s. apply wp_bind. eapply wp_mono; [apply Hc| |done]. intros a s' _. apply Hf.
Qed.
Lemma stays_ret {S A} (a : A) : stays (S := S) (ret a).
Proof. done. Qed.
Lemma stays_gets {S A} (f : S -> A) : stays (gets f).
Proof. done. Qed.
Lemma stays_modify {S} (f : S -> S) : stays (modify f).
Proof. done. Qed.
Lemma stays_panic {S A} msg : stays (S := S) (A := A) (panic msg).
Proof. done. Qed.
Lemma stays_diverged {S A} : stays (S := S) (A := A) (halt Diverged).
Proof. done. Qed.

Create HintDb stays.
#[local] Hint Resolve stays_ret stays_gets stays_modify stays_panic stays_diverged stays_acquire
  stays_release : stays.
Ltac stay :=
  repeat first [ progress cbn zeta | solve [auto with stays] | apply stays_bind; [|intros ?] | case_match ].

Lemma stays_kfree v : stays (kfree v).
Proof. unfold kfree, when, on_mem, store. stay. Qed.
#[local] Hint Resolve stays_kfree : stays.
Lemma stays_dealloc_pte p e : stays (dealloc_pte p e).
Proof. unfold dealloc_pte, load, store, set_refcount. stay. Qed.
Lemma stays_walk pgdir va : stays (walkpgdir pgdir va false).
Proof. unfold walkpgdir, load. cbn [negb]. stay. Qed.
#[local] Hint Resolve stays_dealloc_pte stays_walk : stays.
Lemma stays_dealloc_loop f pgdir a oldsz : stays (deallocuvm_loop f pgdir a oldsz).
Proof. revert a. induction f as [|f IH]; intros a; cbn [deallocuvm_loop]; unfold load; stay. Qed.
#[local] Hint Resolve stays_dealloc_loop : stays.
Lemma stays_deallocuvm pgdir a b : stays (deallocuvm pgdir a b).
Proof. unfold deallocuvm. stay. Qed.
#[local] Hint Resolve stays_deallocuvm : stays.
Lemma stays_freevm_loop n pgdir i : stays (freevm_loop n pgdir i).
Proof. revert i. induction n as [|n IH]; intros i; cbn [freevm_loop]; unfold load; stay. Qed.
Lemma stays_free_cow_loop n pgdir i : stays (free_cow_loop n pgdir i).
Proof. revert i. induction n as [|n IH]; intros i; cbn [free_cow_loop]; unfold load; stay. Qed.
#[local] Hint Resolve stays_freevm_loop stays_free_cow_loop : stays.
Lemma stays_freevm d : stays (freevm d).
Proof. unfold freevm. stay. Qed.
Lemma stays_free_cow_vm d : stays (free_cow_vm d).
Proof. unfold free_cow_vm. stay. Qed.

(** ** Giving up the CPU *)

Lemma sched_spec {A} chan k :
  wp (sched (A := A) chan) k (fun _ _ => False) (fun w k' => quiet w \/ k' = k).
Proof. unfold sched. tsteps. repeat (case_match; [by left|]). by right. Qed.

(** A process sets its own fields and calls sched. *)
Definition gave_up (st : Z) (k k' : kern) : Prop :=
  only (proc k) k k' /\ state k' (proc k) = st /\ fld k' (proc k) o_parent = fld k (proc k) o_parent.

Lemma yield_spec k :
  wp (yield (A := unit)) k (fun _ _ => False) (fun w k' => quiet w \/ gave_up RUNNABLE k k').
Proof.
  unfold yield. apply wp_bind, wp_on_km_stays; [apply stays_acquire| |by left]. intros _ m. tsteps.
  eapply wp_mono; [apply sched_spec|done|]. intros w k' [?| ->]; [by left|right].
  unfold gave_up, state. rewrite fld_set_eq, fld_set_ne by (done || by right).
  split; [|done]. eapply only_trans; [|by apply only_set]. by apply only_tab.
Qed.

Lemma sleep_spec {A} chan lk k :
  wp (sleep (A := A) chan lk) k (fun _ _ => False)
    (fun w k' => quiet w \/ (gave_up SLEEPING k k' /\ fld k' (proc k) o_chan = chan)).
Proof.
  assert (forall k1, tab k1 = tab k -> initproc k1 = initproc k -> proc k1 = proc k ->
    wp (setf (proc k) o_chan chan ;; setf (proc k) o_state SLEEPING ;; sched (A := A) chan) k1
      (fun _ _ => False)
      (fun w k' => quiet w \/ (gave_up SLEEPING k k' /\ fld k' (proc k) o_chan = chan))) as Hend.
  { intros k1 Ht Hi Hp. tsteps. eapply wp_mono; [apply sched_spec|done|]. intros w k' [?| ->]; [by left|right].
    unfold gave_up, state. rewrite !fld_set_eq, !fld_set_ne, fld_set_eq by (done || by right).
    split; [|done]. split; [|split; [done|unfold fld; by rewrite Ht]].
    eapply only_trans; [|by apply only_set]. eapply only_trans; [|by apply only_set]. by apply only_tab. }
  unfold sleep. tstep. tstep. cbn beta. case_match; [tstep; by left|]. tstep. case_match.
  - tstep. by apply Hend.
  - apply wp_bind, wp_on_km_stays; [apply stays_acquire| |by left]. intros _ m.
    apply wp_on_km_stays; [apply stays_release| |by left]. intros _ m'. by apply Hend.
Qed.

(** ** wait *)

Lemma reap_spec q k :
  wp (reap q) k (fun _ k' => only q k k' /\ state k' q = UNUSED /\ fld k' q o_parent = 0)
    (fun w _ => quiet w).
Proof.
  unfold reap. tsteps. apply wp_on_km_stays; [apply stays_kfree| |done]. intros _ m. tsteps.
  set (k1 := set_fld q o_kstack 0 (set_km m k)).
  assert (only q k k1) as H1.
  { eapply only_trans; [|by apply only_set]. by apply only_tab. }
  clearbody k1. clear m.
  match goal with |- wp ?c k1 ?Q ?E => cut (forall m', Q tt (set_km m' k1)) end.
  { intros HQ. case_match; apply wp_on_km_stays;
      [apply stays_freevm|by intros []|done|apply stays_free_cow_vm|by intros []|done]. }
  intros m'. cbn beta. tsteps. apply wp_on_km_stays; [apply stays_release| |done]. intros _ m2. tstep.
  set (k2 := set_km m' k1).
  assert (only q k k2) as H2 by (eapply only_trans; [exact H1|by apply only_tab]).
  clearbody k2. clear H1.
  match goal with |- only q k (set_km m2 ?x) /\ _ => change (only q k x /\ state x q = UNUSED /\ fld x q o_parent = 0) end.
  unfold state. split.
  { do 5 (eapply only_trans; [|by apply only_set]). exact H2. }
  rewrite !(fld_set_ne _ q o_killed), !(fld_set_ne _ q o_name) by (done || by right).
  rewrite fld_set_eq, !fld_set_ne, fld_set_eq by (done || by right). done.
Qed.

(** wait returns: it freed a child that had exited, or nothing happened. *)
Definition waited (k k' : kern) : Prop :=
  woken k k' \/ exists q, q ∈ slots /\ fld k q o_parent = proc k /\
    state k q = ZOMBIE /\ only q k k' /\ state k' q = UNUSED /\ fld k' q o_parent = 0.

(** wait sleeps: no child among [l] has exited. *)
Definition wait_slept (l : list Z) (k : kern) (w : stop) (k' : kern) : Prop :=
  quiet w \/ (gave_up SLEEPING k k' /\ fld k' (proc k) o_chan = proc k /\
    forall q, q ∈ l -> fld k q o_parent = proc k -> state k q <> ZOMBIE).

Lemma wait_slept_cons q l k w k' : wait_slept l k w k' ->
  (fld k q o_parent = proc k -> state k q <> ZOMBIE) -> wait_slept (q :: l) k w k'.
Proof.
  intros [?|(G1 & G2 & G3)] Hq; [by left|right]. split; [done|]. split; [done|].
  intros r [->|Hr]%elem_of_cons; [done|by apply G3].
Qed.

Lemma wait_from_spec k0 l k : (forall q, q ∈ l -> q ∈ slots) -> tab k = tab k0 ->
  initproc k = initproc k0 -> proc k = proc k0 -> forall b,
  wp (wait_from l b) k (fun _ => waited k0) (wait_slept l k0).
Proof.
  intros Hl Ht Hi Hp. induction l as [|q l IH]; intros b; cbn [wait_from]; tsteps.
  - case_match.
    + apply wp_bind, wp_on_km_stays; [apply stays_release| |by left]. intros _ m. tstep. left.
      by apply woken_tab.
    + eapply wp_mono; [apply sleep_spec|done|]. intros w k' [?|[[G1 [G2 G3]] G4]]; [by left|right].
      rewrite Hp in *. split; [|split; [done|by intros ? ?%elem_of_nil]].
      split; [eapply only_trans; [by apply only_tab|exact G1]|]. split; [done|].
      rewrite G3. unfold fld. by rewrite Ht.
  - assert (forall p o, fld k p o = fld k0 p o) as Hf by (intros; unfold fld; by rewrite Ht).
    assert (forall b, wp (wait_from l b) k (fun _ => waited k0) (wait_slept l k0)) as IH'.
    { apply IH. set_solver. }
    rewrite Hf, Hp. case_match; bool_prop.
    { eapply wp_mono; [apply IH'|done|]. intros w k' Hw. by apply wait_slept_cons. }
    tsteps. rewrite Hf. fold (state k0 q). case_match; bool_prop.
    + eapply wp_mono; [apply reap_spec| |by left]. intros _ k' (R1 & R2 & R3). right. exists q.
      split; [apply Hl; set_solver|]. do 2 (split; [done|]). split; [|done].
      eapply only_trans; [by apply only_tab|exact R1].
    + eapply wp_mono; [apply IH'|done|]. intros w k' Hw. by apply wait_slept_cons.
Qed.

Lemma wait_spec k : wp wait k (fun _ => waited k) (wait_slept slots k).
Proof.
  unfold wait. apply wp_bind, wp_on_km_stays; [apply stays_acquire| |by left]. intros _ m.
  by apply wait_from_spec.
Qed.

(** ** exit *)

Lemma reparent_step p q k : family k -> p ∈ slots -> p <> initproc k -> fld k q o_parent = p ->
  forall k', woken (set_fld q o_parent (initproc k) k) k' ->
  (state k q = ZOMBIE -> forall r, r ∈ slots -> fld k r o_chan = initproc k -> state k' r <> SLEEPING) ->
  family k'.
Proof.
  intros F Hp Hpi Hq k' [Wi Wp] Hz. destruct (fam_init _ F) as (I1 & I2 & I3).
  assert (q <> initproc k) as Hqi by (intros ->; by rewrite Hq in I2).
  assert (forall r, fld k' r o_chan = fld k r o_chan /\
    fld k' r o_parent = (if decide (r = q) then initproc k else fld k r o_parent) /\
    (state k' r = state k r \/ (state k r = SLEEPING /\ state k' r = RUNNABLE))) as Hk'.
  { intros r. destruct (Wp r) as (S & C & P). unfold state in S.
    rewrite !(fld_set_ne _ _ _ _ r) in S, C by (done || by right). split; [done|]. split; [|done].
    rewrite P. case_decide as D; [subst; apply fld_set_eq|by rewrite fld_set_ne by (done || by left)]. }
  clear Wp. assert (RUNNABLE <> SLEEPING /\ RUNNABLE <> ZOMBIE) as [Hrs Hrz] by done. split.
  - intros a b Ha Hb [Sa Ca] Pb. destruct (Hk' a) as (Ca' & _ & Sa'), (Hk' b) as (_ & Pb' & Sb').
    assert (state k a = SLEEPING) as Ea by (destruct Sa' as [|[? ?]]; congruence).
    assert (state k' b = ZOMBIE -> state k b = ZOMBIE) as Eb by (destruct Sb' as [|[? ?]]; congruence).
    rewrite Pb' in Pb. intros Zb. case_decide as D.
    + subst b a. apply (Hz (Eb Zb) _ I1); congruence.
    + apply (fam_wait _ F a b Ha Hb); [|done|by apply Eb]. split; congruence.
  - intros a Ha. destruct (Hk' a) as (_ & -> & _). case_decide as D; [congruence|by apply (fam_self _ F)].
  - rewrite Wi. cbn. destruct (Hk' (initproc k)) as (_ & -> & S). rewrite decide_False by congruence.
    split; [done|]. split; [done|]. destruct S as [->|[_ ->]]; [done|set_solver].
Qed.

(** The children of [p] that have exited can be reaped by init. *)
Lemma reparent_spec p l k : p ∈ slots -> p <> initproc k -> family k ->
  exists k', reparent p l k = Done tt k' /\ family k' /\ km k' = km k /\ proc k' = proc k /\
    initproc k' = initproc k /\ fld k' p o_parent = fld k p o_parent /\
    forall q, fld k' q o_chan = fld k q o_chan /\
      (state k' q = state k q \/ (state k q = SLEEPING /\ state k' q = RUNNABLE)).
Proof.
  intros Hp. revert k. induction l as [|q l IH]; intros k Hpi F; cbn [reparent].
  { exists k. do 6 (split; [done|]). auto. }
  unfold bind at 1, getf at 1, gets. unfold bind at 1.
  destruct (fld k q o_parent =? p) eqn:E; bool_prop; [|by apply IH].
  unfold bind at 1, gets. unfold bind at 1. unfold setf at 1, modify. unfold bind at 1, getf, gets.
  set (k1 := set_fld q o_parent (initproc k) k).
  assert (fld k1 q o_state = state k q) as Es by (unfold k1; by rewrite fld_set_ne by (done || by right)).
  assert (exists k2, (if fld k1 q o_state =? ZOMBIE then wakeup1 (initproc k) else ret tt) k1 = Done tt k2 /\
    woken k1 k2 /\ km k2 = km k1 /\ proc k2 = proc k1 /\
    (state k q = ZOMBIE -> forall r, r ∈ slots -> fld k r o_chan = initproc k -> state k2 r <> SLEEPING))
    as (k2 & He & W & Hm & Hpr & Hz).
  { rewrite Es. destruct (state k q =? ZOMBIE) eqn:Z; bool_prop.
    - destruct (wakeup1_run (initproc k) k1) as (k2 & He & W & Hm & Hpr & Hz). exists k2.
      repeat (split; [done|]). intros _ r Hr Hc. apply Hz; [done|]. unfold k1.
      by rewrite fld_set_ne by (done || by right).
    - exists k1. split; [done|]. split; [apply woken_refl|]. do 2 (split; [done|]). congruence. }
  rewrite He. pose proof (reparent_step p q k F Hp Hpi E k2 W Hz) as F2. destruct W as [Wi W].
  destruct (IH k2) as (k' & R1 & R2 & R3 & R4 & R5 & R6 & R7); [by rewrite Wi|done|].
  exists k'. split; [exact R1|]. split; [done|]. split; [by rewrite R3, Hm|].
  split; [by rewrite R4, Hpr|]. split; [by rewrite R5, Wi|]. split.
  - rewrite R6. destruct (W p) as (_ & _ & ->). unfold k1. apply fld_set_ne; [done|done|]. left. intros ->.
    by apply (fam_self _ F q).
  - intros r. destruct (R7 r) as [-> S2], (W r) as (S1 & -> & _). unfold k1, state in S1.
    rewrite !(fld_set_ne _ _ _ _ r) in S1 by (done || by right).
    split; [unfold k1; by rewrite fld_set_ne by (done || by right)|]. unfold state in *.
    destruct S1 as [S1|[S1 S1']], S2 as [S2|[S2 S2']]; [left|right|right|right]; split_and?; congruence.
Qed.

Lemma exit_spec k : proc k ∈ slots -> proc k <> initproc k -> family k ->
  wp (exit_table (A := unit)) k (fun _ _ => False)
    (fun w k' => quiet w \/ (family k' /\ state k' (proc k) = ZOMBIE /\
      forall q, q <> proc k -> state k' q = RUNNING <-> state k q = RUNNING)).
Proof.
  intros Hp Hpi F. unfold exit_table. apply wp_bind, wp_on_km_stays; [apply stays_acquire| |by left].
  intros _ m. tsteps. change (fld (set_km m k) (proc k) o_parent) with (fld k (proc k) o_parent).
  change (proc (set_km m k)) with (proc k). set (par := fld k (proc k) o_parent).
  destruct (wakeup1_run par (set_km m k)) as (k1 & He & W & _ & _ & Hz). eapply wp_run; [exact He|]. cbn beta.
  assert (woken k k1) as W1 by (eapply woken_trans; [|exact W]; by apply woken_tab). clear He W.
  destruct (reparent_spec (proc k) slots k1) as (k2 & He & F2 & _ & _ & Hi2 & Hpar & H2).
  { done. } { by rewrite (proj1 W1). } { by eapply family_woken. }
  tstep. eapply wp_run; [exact He|]. cbn beta. tsteps.
  eapply wp_mono; [apply sched_spec|done|]. intros w k' [?| ->]; [by left|right]. clear w.
  assert (forall q, state k2 q = RUNNING <-> state k q = RUNNING) as Hrun.
  { intros q. rewrite <- (woken_running k k1 q W1). destruct (H2 q) as [_ [->|[E E']]]; [done|].
    rewrite E, E'. done. }
  split; [|split; [apply fld_set_eq|intros q Hq; rewrite state_set_state, decide_False by done; apply Hrun]].
  assert (fld k2 (proc k) o_parent = par) as Ep.
  { rewrite Hpar. by destruct (proj2 W1 (proc k)) as (_ & _ & ->). }
  split.
  - intros a b Ha Hb [Sa Ca]. rewrite state_set_state in Sa. rewrite fld_set_ne in Ca by (done || by right).
    case_decide as Da; [done|]. rewrite fld_set_ne by (done || by right). rewrite state_set_state.
    case_decide as Db; [subst b; rewrite Ep|].
    + intros Ea _. destruct (H2 a) as [Ca2 Sa2]. apply (Hz a Ha).
      { destruct (proj2 W1 a) as (_ & Ca1 & _). change (fld k a o_chan = par). congruence. }
      destruct Sa2 as [|[_ E]]; [congruence|]. by rewrite E in Sa.
    + by apply (fam_wait _ F2 a b).
  - intros a Ha. rewrite fld_set_ne by (done || by right). by apply (fam_self _ F2).
  - change (initproc (set_fld (proc k) o_state ZOMBIE k2)) with (initproc k2).
    destruct (fam_init _ F2) as (I1 & I2 & I3). rewrite state_set_state.
    rewrite fld_set_ne by (done || by right). rewrite decide_False; [done|].
    rewrite Hi2, (proj1 W1). by intros E.
Qed.

(** ** The invariant holds of every reachable state *)

Definition inv (s : smp) : Prop := one_cpu s /\ family (sh s).

Lemma inv_on_cpu c s : inv s -> inv (mkSmp (on_cpu c s) (running s)).
Proof.
  intros [O F]. assert (woken (sh s) (on_cpu c s)) as W by by apply woken_tab.
  split; [by apply one_cpu_woken|by eapply family_woken].
Qed.

Lemma inv_woken s k' : inv s -> woken (sh s) k' -> inv (mkSmp k' (running s)).
Proof. intros [O F] W. split; [by apply one_cpu_woken|by eapply family_woken]. Qed.

Lemma sstep_schedule c s p k : inv s -> running s c = 0 -> scheduler (on_cpu c s) = Done p k ->
  inv (mkSmp (unlocked k) (upd c p (running s))).
Proof.
  intros [O F]%(inv_on_cpu c) Hc He. cbn [sh] in F.
  destruct (wp_done_inv _ _ _ _ _ _ He (scheduler_spec _)) as [[-> W]|(Hp & Ho & Hr & Hr' & Hpar)].
  - assert (woken (on_cpu c s) (unlocked k)) as W'.
    { eapply woken_trans; [exact W|]. by apply woken_tab. }
    rewrite <- Hc, upd_id. by apply (inv_woken (mkSmp (on_cpu c s) (running s))).
  - assert (only p (on_cpu c s) (unlocked k)) as Ho'.
    { eapply only_trans; [exact Ho|]. by apply only_tab. }
    change (state (unlocked k) p = RUNNING) in Hr'. split.
    + apply (one_cpu_enter c (mkSmp (on_cpu c s) (running s))); cbn [sh running]; try done. by rewrite Hr.
    + apply (family_only p _ _ F Ho'); rewrite ?Hr'; try done.
      * intros [E _]. by rewrite Hr' in E.
      * intros _. change (fld k p o_parent <> p). rewrite Hpar. by apply (fam_self _ F).
      * intros ->. change (fld k (initproc (on_cpu c s)) o_parent ∉ slots /\ RUNNING ∉ [UNUSED; EMBRYO; ZOMBIE]).
        rewrite Hpar. split; [apply (fam_init _ F)|set_solver].
Qed.

(** A process that sets its own state and leaves its CPU. *)
Lemma inv_gave_up c s st k : inv s -> running s c <> 0 -> gave_up st (on_cpu c s) k ->
  st ∉ [UNUSED; EMBRYO; RUNNING; ZOMBIE] ->
  (in_wait k (running s c) -> forall q, q ∈ slots -> fld (sh s) q o_parent = running s c ->
     state (sh s) q <> ZOMBIE) ->
  inv (mkSmp (unlocked k) (upd c 0 (running s))).
Proof.
  intros [O F]%(inv_on_cpu c) Hc (Ho & Hs & Hpar) Hst Hw. cbn [sh running] in *.
  change (proc (on_cpu c s)) with (running s c) in *.
  assert (only (running s c) (on_cpu c s) (unlocked k)) as Ho'.
  { eapply only_trans; [exact Ho|]. by apply only_tab. }
  change (state (unlocked k) (running s c) = st) in Hs.
  destruct (oc_running _ O c Hc) as [Hin Hrun]. cbn [sh running] in *. split.
  - apply (one_cpu_leave c (mkSmp (on_cpu c s) (running s))); cbn [sh running]; [done|done| |].
    + intros q Hq. by rewrite (proj1 (proj2 Ho' q Hq)).
    + rewrite Hs. set_solver.
  - apply (family_only _ _ _ F Ho').
    + rewrite Hs. set_solver.
    + exact Hw.
    + intros _. change (fld k (running s c) o_parent <> running s c). rewrite Hpar. by apply (fam_self _ F).
    + intros E. rewrite Hs. change (fld k (running s c) o_parent ∉ slots /\ st ∉ [UNUSED; EMBRYO; ZOMBIE]).
      rewrite Hpar. split; [rewrite E; apply (fam_init _ F)|set_solver].
Qed.

Lemma sstep_give_up c s op chan k : inv s -> running s c <> 0 -> gives_up (on_cpu c s) op ->
  op (on_cpu c s) = Stop (Blocked chan) k -> inv (mkSmp (unlocked k) (upd c 0 (running s))).
Proof.
  intros I Hc Hop He. destruct Hop as [|ch lk Hch|Hni].
  - destruct (wp_stop_inv _ _ _ _ _ _ He (yield_spec _)) as [[]|G].
    apply (inv_gave_up c s RUNNABLE); [done|done|done|set_solver|]. intros [E _].
    destruct G as (_ & G & _). change (state k (running s c) = RUNNABLE) in G. by rewrite G in E.
  - destruct (wp_stop_inv _ _ _ _ _ _ He (sleep_spec _ _ _)) as [[]|[G Gc]].
    apply (inv_gave_up c s SLEEPING); [done|done|done|set_solver|]. intros [_ E].
    change (fld k (running s c) o_chan = ch) in Gc. rewrite Gc in E.
    destruct Hch. rewrite E. apply (oc_running _ (proj1 I) c Hc).
  - destruct (inv_on_cpu c s I) as [O F]. destruct (oc_running _ O c Hc) as [Hin _]. cbn [sh running] in *.
    destruct (wp_stop_inv _ _ _ _ _ _ He (exit_spec (on_cpu c s) Hin Hni F)) as [[]|(F' & Hz & Hr)].
    change (proc (on_cpu c s)) with (running s c) in *.
    split.
    + apply (one_cpu_leave c (mkSmp (on_cpu c s) (running s))); cbn [sh running]; [done|done|exact Hr|].
      change (state k (running s c) <> RUNNING). by rewrite Hz.
    + apply (family_woken _ _ F'). by apply woken_tab.
Qed.

Lemma sstep_wait c s r k : inv s -> running s c <> 0 -> wait (on_cpu c s) = Done r k ->
  inv (mkSmp k (running s)).
Proof.
  intros I%(inv_on_cpu c) Hc He.
  destruct (wp_done_inv _ _ _ _ _ _ He (wait_spec _)) as [W|(q & Hq & Hpar & Hz & Ho & Hu & Hp')].
  { by apply (inv_woken _ _ I W). }
  destruct I as [O F]. cbn [sh running] in *. split.
  - apply (one_cpu_only q _ _ O Ho); cbn [sh]; [by rewrite Hz|by rewrite Hu].
  - apply (family_only q _ _ F Ho); rewrite ?Hu; try done.
    + intros [E _]. by rewrite Hu in E.
    + intros Hq'. rewrite Hp'. apply elem_slots in Hq'. lia.
    + intros ->. destruct (fam_init _ F) as (_ & _ & I3). rewrite Hz in I3. set_solver.
Qed.

(** A new process stays off the CPUs. *)
Lemma inv_embryo s np k : inv s -> only np (sh s) k -> state (sh s) np = EMBRYO \/ state (sh s) np = UNUSED ->
  state k np ∈ [UNUSED; EMBRYO; RUNNABLE] -> (np ∈ slots -> fld k np o_parent <> np) ->
  inv (mkSmp k (running s)).
Proof.
  intros [O F] Ho Hs Hk Hp.
  assert (state k np <> ZOMBIE /\ state k np <> RUNNING /\ state k np <> SLEEPING) as (Z1 & Z2 & Z3).
  { rewrite !elem_of_cons, elem_of_nil in Hk. by destruct Hk as [->|[->|[->|[]]]]. }
  split.
  - apply (one_cpu_only np _ _ O Ho); [|done]. destruct Hs as [->| ->]; done.
  - apply (family_only np _ _ F Ho Z1).
    + by intros [? _].
    + done.
    + intros ->. destruct (fam_init _ F) as (_ & _ & I3). destruct Hs as [E|E]; rewrite E in I3; set_solver.
Qed.

Lemma sstep_call c s op k : inv s -> keeps_cpu (on_cpu c s) op -> op (on_cpu c s) = Done tt k ->
  inv (mkSmp k (running s)).
Proof.
  intros I%(inv_on_cpu c) Hop He.
  destruct Hop as [ch|pid| |np Hs Hin|np Hs|np Hs].
  - apply (inv_woken _ _ I). exact (wp_done_inv _ _ _ _ _ _ He (wakeup_spec _ _)).
  - apply (inv_woken _ _ I). apply (wp_done_inv _ _ _ _ (fun _ => woken (on_cpu c s)) (fun _ _ => True) He).
    apply wp_bind. eapply wp_mono; [apply kill_spec| |done]. intros ? k' W. exact W.
  - assert (exists p, alloc_slot (on_cpu c s) = Done p k) as [p He'].
    { unfold bind in He. destruct (alloc_slot (on_cpu c s)) as [p k'|]; [|done]. injection He as ->. by exists p. }
    destruct (wp_done_inv _ _ _ _ _ _ He' (alloc_slot_spec _)) as [[_ W]|(Hp & Ho & Hu & Hk & Hpar)].
    { by apply (inv_woken _ _ I). }
    apply (inv_embryo _ p _ I); [done|by right|rewrite Hk; set_solver|]. intros Hp'. rewrite Hpar.
    by apply (fam_self _ (proj2 I)).
  - injection He as <-. apply (inv_embryo _ np _ I); [by apply only_set|by left| |].
    + unfold state. rewrite fld_set_ne by (done || by right). cbn [sh] in *. fold (state (on_cpu c s) np).
      rewrite Hs. set_solver.
    + intros Hnp. rewrite fld_set_eq. intros E. destruct I as [O _].
      assert (running s c <> 0) as Hc.
      { change (proc (on_cpu c s)) with (running s c) in Hin. apply elem_slots in Hin. lia. }
      destruct (oc_running _ O c Hc) as [_ Hr]. cbn [sh running] in Hr.
      change (running s c = np) in E. rewrite E, Hs in Hr. done.
  - injection He as <-. apply (inv_embryo _ np _ I); [by apply only_set|by left| |].
    + unfold state. rewrite fld_set_eq. set_solver.
    + intros Hnp. rewrite fld_set_ne by (done || by right). by apply (fam_self _ (proj2 I)).
  - assert (only np (on_cpu c s) k /\ state k np = RUNNABLE /\
      fld k np o_parent = fld (on_cpu c s) np o_parent) as (Ho & Hk & Hpar).
    { eapply (wp_done_inv _ _ _ _ (fun _ k => only np (on_cpu c s) k /\ state k np = RUNNABLE /\
        fld k np o_parent = fld (on_cpu c s) np o_parent) (fun _ _ => True) He). unfold make_runnable.
      apply wp_bind, wp_on_km_any; [|done]. intros _ m. tsteps. apply wp_on_km_any; [|done]. intros _ m'.
      split; [|split].
      - eapply only_trans; [|by apply only_tab]. eapply only_trans; [|by apply (only_set np o_state RUNNABLE)].
        by apply only_tab.
      - exact (fld_set_eq (set_km m (on_cpu c s)) np o_state RUNNABLE).
      - change (fld (set_fld np o_state RUNNABLE (set_km m (on_cpu c s))) np o_parent =
          fld (on_cpu c s) np o_parent). by rewrite fld_set_ne by (done || by right). }
    apply (inv_embryo _ np _ I); [done|by left|rewrite Hk; set_solver|]. intros Hnp. rewrite Hpar.
    by apply (fam_self _ (proj2 I)).
Qed.

Lemma sstep_inv s s' : sstep s s' -> inv s -> inv s'.
Proof.
  intros [c s1 p k Hc He|c s1 op ch k Hc Hop He|c s1 ch k Hc He|c s1 r k Hc He|c s1 op k Hop He] I.
  - by apply sstep_schedule.
  - by apply (sstep_give_up c s1 op ch).
  - destruct (wp_stop_inv _ _ _ _ _ _ He (wait_spec _)) as [[]|(G & Gc & Hz)].
    apply (inv_gave_up c s1 SLEEPING); [done|done|done|set_solver|]. intros _ q Hq Hp. by apply Hz.
  - by apply (sstep_wait c s1 r).
  - by apply (sstep_call c s1 op).
Qed.

Lemma started_inv s : started s -> inv s.
Proof.
  intros (Hr & Hin & Hp & Hs & Ho). split.
  - split.
    + intros c Hc. by rewrite Hr in Hc.
    + intros c c' Hc. by rewrite Hr in Hc.
    + intros p Hpin E. destruct (decide (p = initproc (sh s))) as [->|Hne]; [by rewrite Hs in E|].
      destruct (Ho p Hpin Hne) as [E' _]. by rewrite E' in E.
  - assert (forall p, p ∈ slots -> fld (sh s) p o_parent = 0) as Hpar.
    { intros p Hpin. destruct (decide (p = initproc (sh s))) as [->|Hne]; [done|]. by apply Ho. }
    split.
    + intros p q Hpin Hq _ E. rewrite Hpar in E by done. apply elem_slots in Hpin. lia.
    + intros p Hpin. rewrite Hpar by done. apply elem_slots in Hpin. lia.
    + split; [done|]. rewrite Hp, Hs. split; [rewrite elem_slots; lia|set_solver].
Qed.

Lemma smp_reachable_inv s0 s : started s0 -> reachable s0 s -> inv s.
Proof. intros H0 Hr. induction Hr as [|s s' _ IH Hs]; [by apply started_inv|by eapply sstep_inv]. Qed.
End smp.

(** ** Theorems *)



(** ** Witnesses *)

(** Only the first process, able to run. *)
Definition start_tab : Z -> Z := upd (word 1 o_state) RUNNABLE (upd (word 1 o_pgdir) 0x80400000 (fun _ => 0)).
Definition start : smp := mkSmp (set_tab start_tab sample_kern) (fun _ => 0).

Lemma start_started : started start.
Proof.
  split; [done|]. split; [apply elem_slots; cbn; lia|]. split; [done|]. split; [done|].
  intros p Hp%elem_slots Hne. change (initproc (sh start)) with 1 in Hne. split; unfold state, fld.
  - change (tab (sh start)) with start_tab. unfold start_tab, upd, word, PROC_WORDS, o_state, o_pgdir.
    by rewrite !decide_False by lia.
  - change (tab (sh start)) with start_tab. unfold start_tab, upd, word, PROC_WORDS, o_state, o_pgdir, o_parent.
    by rewrite !decide_False by lia.
Qed.

Definition final_state {A} (r : outcome kern A) : kern := match r with Done _ k | Stop _ k => k end.

Definition value_of {A} (r : outcome kern A) : option A := match r with Done a _ => Some a | Stop _ _ => None end.
Definition chan_of {A} (r : outcome kern A) : option Z := match r with Stop (Blocked c) _ => Some c | _ => None end.
Lemma value_of_done {A} (r : outcome kern A) a : value_of r = Some a -> r = Done a (final_state r).
Proof. destruct r; [|done]. by intros [= ->]. Qed.
Lemma chan_of_blocked {A} (r : outcome kern A) c : chan_of r = Some c -> r = Stop (Blocked c) (final_state r).
Proof. destruct r as [|[] ]; try done. by intros [= ->]. Qed.

(** CPU 0 schedules it. *)
Definition scheduled : smp := mkSmp (unlocked (final_state (scheduler (on_cpu 0 start)))) (upd 0%nat 1 (running start)).
Lemma start_scheduled : sstep start scheduled.
Proof. apply S_schedule; [done|]. apply value_of_done. reflexivity. Qed.

(** It makes a child and waits. *)
Definition forked : smp :=
  mkSmp (final_state ((alloc_slot ;; ret tt) (on_cpu 0 scheduled))) (running scheduled).
Definition adopted : smp :=
  mkSmp (set_fld 2 o_parent (proc (on_cpu 0 forked)) (on_cpu 0 forked)) (running forked).
Definition waiting : smp := mkSmp (unlocked (final_state (wait (on_cpu 0 adopted)))) (upd 0%nat 0 (running scheduled)).

Lemma start_forked : reachable start forked.
Proof.
  apply (R_step _ scheduled); [apply (R_step _ start); [apply R_start|apply start_scheduled]|].
  refine (S_call 0 scheduled _ _ (K_alloc _) _). apply value_of_done. reflexivity.
Qed.

Lemma start_waiting : reachable start waiting.
Proof.
  apply (R_step _ adopted); [apply (R_step _ forked); [apply start_forked|]|].
  - apply (S_call 0 forked (setf 2 o_parent (proc (on_cpu 0 forked)))); [|done].
    apply K_parent; [reflexivity|]. change (proc (on_cpu 0 forked)) with 1. apply elem_slots. lia.
  - apply (S_wait_sleep 0 adopted 1); [done|]. apply chan_of_blocked. reflexivity.
Qed.


