(* ===== verification/Signal.v ===== *)
(** * Signals: delivery and return

    signal_deliver (proc.c) builds a frame on the user's stack; the handler returns to
    the restorer of ulib.c, which takes the frame down.  Theorem: the process goes on
    with the registers it had, and the handler sees the arguments it was sent. *)

From S2P Require Import Pipe Bytes FsFormat Fs Inode InodeData Dir.
From S2P Require Import Prelude Mmu Memory Kstate Kalloc PageTable Uvm Cow Boot Kernel Sched File Proc Syscall.

Record regs := mkRegs { r_eax : Z; r_ecx : Z; r_edx : Z; r_eip : Z; r_esp : Z }.

Section signal.
Context `{Layout}.

(** The instructions at the label restorer, entered with [esp] after the handler's
    ret has popped its address. *)
Definition restorer (esp : Z) : M kern regs :=
  let esp := u32 (esp + 12) in
  let! edx := load_word esp in
  let esp := u32 (esp + 4) in
  let! ecx := load_word esp in
  let esp := u32 (esp + 4) in
  let! eax := load_word esp in
  let esp := u32 (esp + 4) in
  let! eip := load_word esp in
  ret (mkRegs eax ecx edx eip (u32 (esp + 4))).

(** ** Words in a page of the user *)

(** The user's bytes from [va] to [va + n] are those from [A], in one page the
    process may write; the tables that map it are not in it. *)
Record user_range (k : kern) (va n A : Z) : Prop := {
  ur_va : 0 <= va /\ va + n <= KERNBASE;
  ur_page : va / PGSIZE = (va + n - 1) / PGSIZE;
  ur_map : mmu (mem (km k)) (p2v (cr3 (km k))) va true = Some A;
  ur_pde : p2v (cr3 (km k)) + 4 * PDX va + 4 <= A \/ A + n <= p2v (cr3 (km k)) + 4 * PDX va;
  ur_pte : pte_addr (mem (km k)) (p2v (cr3 (km k))) va + 4 <= A \/
           A + n <= pte_addr (mem (km k)) (p2v (cr3 (km k))) va }.

Lemma translate_range k va n A i w : user_range k va n A -> 0 <= i < n ->
  translate k (va + i) w = Some (A + i).
Proof.
  intros [Hv Hp Hm _ _] Hi. unfold translate, KERNBASE in *. destruct (Z.leb_spec 0x80000000 (va + i)); [lia|].
  unfold mmu in *. rewrite (pte_same_page _ _ (va + i) va) by (unfold PGSIZE in *; zlia).
  set (e := pte _ _ va) in *.
  destruct (present e); [|done]. destruct (negb (Z.land e PTE_W =? 0)); [|done]. simpl in *.
  rewrite orb_true_r. simpl. injection Hm as <-. f_equal. unfold PGSIZE in *. zlia.
Qed.

(** The addresses of the two entries that map [va]. *)
Definition pde_slot (k : kern) (va : Z) : Z := p2v (cr3 (km k)) + 4 * PDX va.
Definition pte_slot (k : kern) (va : Z) : Z := pte_addr (mem (km k)) (p2v (cr3 (km k))) va.

Lemma user_range_agree k va n A m : user_range k va n A ->
  agree (mem (km k)) m (pde_slot k va) 4 -> agree (mem (km k)) m (pte_slot k va) 4 ->
  user_range (with_mem m k) va n A /\ pte_slot (with_mem m k) va = pte_slot k va.
Proof.
  intros [Hv Hp Hm Hd Ht] Ad At. unfold pde_slot, pte_slot in *. simpl in *.
  assert (pde m (p2v (cr3 (km k))) (PDX va) = pde (mem (km k)) (p2v (cr3 (km k))) (PDX va)) as Ed.
  { apply load32_ext. intros i Hi. apply Ad. lia. }
  assert (pte_addr m (p2v (cr3 (km k))) va = pte_addr (mem (km k)) (p2v (cr3 (km k))) va) as Et.
  { unfold pte_addr, pgtab. by rewrite Ed. }
  assert (pte m (p2v (cr3 (km k))) va = pte (mem (km k)) (p2v (cr3 (km k))) va) as Ee.
  { unfold pte. rewrite Ed, Et. case_match; [|done]. apply load32_ext. intros i Hi. apply At. lia. }
  split; [|done]. split; simpl; [done|done| |done|by rewrite Et]. unfold mmu in *. by rewrite Ee.
Qed.

Lemma user_range_store k va n A m : user_range k va n A ->
  (forall a, a < A \/ A + n <= a -> load8 m a = load8 (mem (km k)) a) ->
  user_range (with_mem m k) va n A /\ pte_slot (with_mem m k) va = pte_slot k va.
Proof.
  intros Hr Hag. apply user_range_agree; [done|..]; intros a Ha; apply Hag; destruct Hr; unfold pde_slot, pte_slot in *; lia.
Qed.

Lemma store_byte_at k va n A i v : user_range k va n A -> 0 <= i < n ->
  store_byte (va + i) v k = Done tt (with_mem (store8 (mem (km k)) (A + i) v) k).
Proof. intros Hr Hi. unfold store_byte. by rewrite (translate_range _ _ _ _ _ _ Hr Hi). Qed.

Lemma load_byte_at k va n A i : user_range k va n A -> 0 <= i < n ->
  load_byte (va + i) k = Done (load8 (mem (km k)) (A + i)) k.
Proof. intros Hr Hi. unfold load_byte. by rewrite (translate_range _ _ _ _ _ _ Hr Hi). Qed.

Lemma u32_range_add k va n A i : user_range k va n A -> 0 <= i < n -> u32 (va + i) = va + i.
Proof. intros [Hv _ _ _ _] Hi. unfold KERNBASE in *. apply Z.mod_small. lia. Qed.

#[local] Transparent load32 store32.
Lemma user_range_byte k va n A i v : user_range k va n A -> 0 <= i < n ->
  user_range (with_mem (store8 (mem (km k)) (A + i) v) k) va n A.
Proof. intros Hr Hi. apply user_range_store; [done|]. intros a Ha. apply load8_store8_ne. lia. Qed.

Lemma store_word_at k va n A i v : user_range k va n A -> 0 <= i -> i + 4 <= n ->
  store_word (va + i) v k = Done tt (with_mem (store32 (mem (km k)) (A + i) v) k).
Proof.
  intros Hr Hi Hn. unfold store_word. rewrite <- !Z.add_assoc, !(u32_range_add k va n A) by (done || lia).
  unfold bind at 1. rewrite (store_byte_at k va n A) by (done || lia).
  set (k1 := with_mem _ k). assert (user_range k1 va n A) as Hr1 by (apply user_range_byte; [done|lia]).
  unfold bind at 1. rewrite (store_byte_at k1 va n A) by (done || lia).
  set (k2 := with_mem _ k1). assert (user_range k2 va n A) as Hr2 by (apply user_range_byte; [done|lia]).
  unfold bind at 1. rewrite (store_byte_at k2 va n A) by (done || lia).
  set (k3 := with_mem _ k2). assert (user_range k3 va n A) as Hr3 by (apply user_range_byte; [done|lia]).
  rewrite (store_byte_at k3 va n A) by (done || lia). unfold k3, k2, k1, store32. by rewrite !Z.add_assoc.
Qed.

Lemma load_word_at k va n A i : user_range k va n A -> 0 <= i -> i + 4 <= n ->
  load_word (va + i) k = Done (load32 (mem (km k)) (A + i)) k.
Proof.
  intros Hr Hi Hn. unfold load_word. rewrite <- !Z.add_assoc, !(u32_range_add k va n A) by (done || lia).
  do 4 (unfold bind at 1; rewrite (load_byte_at k va n A) by (done || lia)).
  unfold load32. by rewrite !Z.add_assoc.
Qed.

#[local] Opaque load32 store32.

(** ** Delivery *)

Definition apart (a n b l : Z) : Prop := a + n <= b \/ b + l <= a.

(** Room for the frame below the user's stack pointer; the trap frame is neither
    there nor among the entries that map it. *)
Definition frame_room (k : kern) (A : Z) : Prop :=
  let sp := reg k tf_esp - 32 in
  0 <= sp /\ user_range k sp 32 A /\ apart (tfp k) TF_SIZE A 32 /\
  apart (tfp k) TF_SIZE (pde_slot k sp) 4 /\ apart (tfp k) TF_SIZE (pte_slot k sp) 4.

Lemma reg_store k A i v o : frame_room k A -> 0 <= i <= 28 -> 0 <= o <= 72 ->
  reg (with_mem (store32 (mem (km k)) (A + i) v) k) o = reg k o.
Proof.
  intros (_ & _ & Ht & _) Hi Ho. unfold apart, TF_SIZE in Ht. apply load32_store32_ne.
  change (tfp (with_mem (store32 (mem (km k)) (A + i) v) k)) with (tfp k). lia.
Qed.

Lemma push_at_run k A off v : frame_room k A -> 4 <= off <= 32 ->
  let k' := with_mem (store32 (mem (km k)) (A + (32 - off)) v) k in
  push_at off v k = Done tt k' /\ frame_room k' A.
Proof.
  intros Hf Ho k'. pose proof Hf as (He & Hr & Ht & Hd & He'). split.
  - unfold push_at, bind. rewrite get_tf_run.
    replace (reg k tf_esp - off) with (reg k tf_esp - 32 + (32 - off)) by lia.
    rewrite (u32_range_add k _ 32 A) by (done || lia). apply (store_word_at k _ 32); [done|lia..].
  - unfold frame_room, k'. rewrite (reg_store k A (32 - off) v tf_esp) by (done || unfold tf_esp; lia).
    destruct (user_range_store k _ _ _ (store32 (mem (km k)) (A + (32 - off)) v) Hr) as [Hr' Hs].
    { intros a Ha. apply load8_store32_ne. lia. }
    split; [done|]. split; [done|]. split; [done|]. split; [done|]. rewrite Hs. exact He'.
Qed.

(** The words of the frame, from the lowest. *)
Definition frame_words (k : kern) (signum si_addr si_type : Z) : list Z :=
  [fld k (proc k) o_restorer; signum; si_addr; si_type; reg k tf_edx; reg k tf_ecx; reg k tf_eax; reg k tf_eip].

(** The frame, stored from its highest word down. *)
Definition push_words (m : gmap Z Z) (A : Z) (n : nat) (l : list Z) : gmap Z Z :=
  fold_right (fun iw m => store32 m (A + 4 * Z.of_nat (fst iw)) (snd iw)) m (zip (seq n (length l)) l).

Lemma push_words_lookup m A l : forall n i w, l !! i = Some w ->
  load32 (push_words m A n l) (A + 4 * Z.of_nat (n + i)) = u32 w.
Proof.
  induction l as [|x l IH]; intros n i w Hi; [done|]. unfold push_words. cbn [length seq zip fold_right fst snd].
  destruct i as [|i].
  - injection Hi as ->. rewrite Nat.add_0_r. apply load32_store32_eq.
  - rewrite load32_store32_ne by lia. replace (n + S i)%nat with (S n + i)%nat by lia. by apply IH.
Qed.

Lemma getf_with_mem p o m k : getf p o (with_mem m k) = Done (fld k p o) (with_mem m k).
Proof. done. Qed.

(** [m] is the memory while the frame is built. *)
Definition building (k : kern) (A : Z) (m : gmap Z Z) : Prop :=
  frame_room (with_mem m k) A /\ forall o, 0 <= o <= 72 -> reg (with_mem m k) o = reg k o.

Lemma push_building k A m off v : building k A m -> 4 <= off <= 32 ->
  let m' := store32 m (A + (32 - off)) v in
  push_at off v (with_mem m k) = Done tt (with_mem m' k) /\ building k A m'.
Proof.
  intros [Hf Hr] Ho m'. destruct (push_at_run (with_mem m k) A off v Hf Ho) as [E F].
  split; [exact E|]. split; [exact F|]. intros o Ho'. rewrite <- Hr by done.
  exact (reg_store (with_mem m k) A (32 - off) v o Hf ltac:(lia) Ho').
Qed.

(** The state signal_deliver leaves. *)
Definition delivered (k : kern) (A signum si_addr si_type : Z) : kern :=
  with_mem (store32 (store32 (push_words (mem (km k)) A 0 (frame_words k signum si_addr si_type))
                       (tfp k + tf_esp) (u32 (reg k tf_esp - 32)))
              (tfp k + tf_eip) (fld k (proc k) (o_handlers signum))) k.

Lemma signal_deliver_run k A signum si_addr si_type : frame_room k A ->
  signal_deliver signum si_addr si_type k = Done tt (delivered k A signum si_addr si_type) /\
  building k A (push_words (mem (km k)) A 0 (frame_words k signum si_addr si_type)).
Proof.
  intros Hf. assert (k = with_mem (mem (km k)) k) as Ek by by destruct k as [[] ? ? ? ? ? ? ? ?].
  assert (building k A (mem (km k))) as B0 by (split; rewrite <- Ek; done).
  destruct (push_building k A _ 4 (reg k tf_eip) B0 ltac:(lia)) as [E1 B1].
  destruct (push_building k A _ 8 (reg k tf_eax) B1 ltac:(lia)) as [E2 B2].
  destruct (push_building k A _ 12 (reg k tf_ecx) B2 ltac:(lia)) as [E3 B3].
  destruct (push_building k A _ 16 (reg k tf_edx) B3 ltac:(lia)) as [E4 B4].
  destruct (push_building k A _ 20 si_type B4 ltac:(lia)) as [E5 B5].
  destruct (push_building k A _ 24 si_addr B5 ltac:(lia)) as [E6 B6].
  destruct (push_building k A _ 28 signum B6 ltac:(lia)) as [E7 B7].
  destruct (push_building k A _ 32 (fld k (proc k) o_restorer) B7 ltac:(lia)) as [E8 B8].
  rewrite <- Ek in E1. unfold signal_deliver.
  rewrite (bind_run (gets proc) _ k (proc k) k) by done. rewrite (bind_run _ _ _ _ _ (get_tf_run _ _)).
  rewrite (bind_run _ _ _ _ _ E1), (bind_run _ _ _ _ _ (get_tf_run _ _)), (proj2 B1) by done.
  rewrite (bind_run _ _ _ _ _ E2), (bind_run _ _ _ _ _ (get_tf_run _ _)), (proj2 B2) by done.
  rewrite (bind_run _ _ _ _ _ E3), (bind_run _ _ _ _ _ (get_tf_run _ _)), (proj2 B3) by done.
  rewrite (bind_run _ _ _ _ _ E4), (bind_run _ _ _ _ _ E5), (bind_run _ _ _ _ _ E6), (bind_run _ _ _ _ _ E7).
  rewrite (bind_run _ _ _ _ _ (getf_with_mem _ _ _ _)), (bind_run _ _ _ _ _ E8).
  rewrite (bind_run _ _ _ _ _ (get_tf_run _ _)), (proj2 B8) by done.
  rewrite (bind_run _ _ _ _ _ (set_tf_run _ _ _)).
  match type of B8 with building k A ?m =>
    assert (m = push_words (mem (km k)) A 0 (frame_words k signum si_addr si_type)) as Hm end.
  { unfold push_words, frame_words. cbn [length seq zip fold_right fst snd].
    repeat (f_equal; [|lia]). done. }
  rewrite Hm in *. clear - B8. split; [|exact B8]. unfold delivered. generalize (push_words (mem (km k)) A 0
    (frame_words k signum si_addr si_type)). intros m. reflexivity.
Qed.

(** ** The frame *)

Lemma delivered_range k A signum si_addr si_type : frame_room k A ->
  user_range (delivered k A signum si_addr si_type) (reg k tf_esp - 32) 32 A.
Proof.
  intros Hf. destruct (signal_deliver_run k A signum si_addr si_type Hf) as [_ [(He & Hr & Ht & Hd & Hp) Hreg]].
  unfold delivered. set (m := push_words _ _ _ _) in *. rewrite Hreg in * by done.
  refine (proj1 (user_range_agree (with_mem m k) _ _ _ _ Hr _ _)); intros a Ha;
    change (tfp (with_mem m k)) with (tfp k) in *; change (mem (km (with_mem m k))) with m;
    rewrite !load8_store32_ne; try done; unfold apart, TF_SIZE, tf_eip, tf_esp in *; lia.
Qed.

Lemma delivered_word k A signum si_addr si_type i w : frame_room k A ->
  frame_words k signum si_addr si_type !! i = Some w ->
  load32 (mem (km (delivered k A signum si_addr si_type))) (A + 4 * Z.of_nat i) = u32 w.
Proof.
  intros (_ & _ & Ht & _) Hi. pose proof (lookup_lt_Some _ _ _ Hi) as Hlt. simpl in Hlt.
  unfold delivered. simpl. unfold apart, TF_SIZE, tf_eip, tf_esp in *.
  rewrite !load32_store32_ne by lia. exact (push_words_lookup _ A _ 0 i w Hi).
Qed.

Ltac pop_word k sp A Hr i :=
  rewrite (u32_range_add k sp 32 A) by (done || lia);
  rewrite (bind_run _ _ _ _ _ (load_word_at k sp 32 A i Hr ltac:(lia) ltac:(lia)));
  replace (sp + i + 4) with (sp + (i + 4)) by lia; change (i + 4) with ltac:(let v := eval compute in (i + 4) in exact v).

Lemma restorer_run k sp A : user_range k sp 32 A ->
  let w i := load32 (mem (km k)) (A + i) in
  restorer (sp + 4) k = Done (mkRegs (w 24) (w 20) (w 16) (w 28) (u32 (sp + 32))) k.
Proof.
  intros Hr w. unfold restorer. cbv zeta. replace (sp + 4 + 12) with (sp + 16) by lia.
  pop_word k sp A Hr 16. pop_word k sp A Hr 20. pop_word k sp A Hr 24. pop_word k sp A Hr 28. reflexivity.
Qed.
End signal.

(** C30. A signal and the return from its handler leave the process as it was.  The
    handler starts with the return address of the restorer and its three arguments on
    the stack; whatever it does to the rest of the memory and to the registers, if it
    leaves the four saved words and the mapping of the stack alone, the restorer brings
    back eax, ecx, edx, the stack pointer and the instruction pointer. *)
Theorem signal_roundtrip `{Layout} k A signum si_addr si_type : frame_room k A ->
  let sp := reg k tf_esp - 32 in
  exists k', signal_deliver signum si_addr si_type k = Done tt k' /\
    reg k' tf_eip = u32 (fld k (proc k) (o_handlers signum)) /\ reg k' tf_esp = sp /\
    load_word sp k' = Done (u32 (fld k (proc k) o_restorer)) k' /\
    load_word (sp + 4) k' = Done (u32 signum) k' /\
    load_word (sp + 8) k' = Done (u32 si_addr) k' /\ load_word (sp + 12) k' = Done (u32 si_type) k' /\
    forall k2, user_range k2 sp 32 A -> agree (mem (km k')) (mem (km k2)) (A + 16) 16 ->
      restorer (sp + 4) k2 =
        Done (mkRegs (reg k tf_eax) (reg k tf_ecx) (reg k tf_edx) (reg k tf_eip) (reg k tf_esp)) k2.
Proof.
  intros Hf sp. exists (delivered k A signum si_addr si_type).
  split; [by apply signal_deliver_run|]. pose proof (delivered_range k A signum si_addr si_type Hf) as Hr.
  pose proof (fun i w => delivered_word k A signum si_addr si_type i w Hf) as Hw.
  assert (0 <= reg k tf_esp < 2 ^ 32) as Hesp by apply load32_range. destruct (Hf) as [Hsp _].
  set (k' := delivered k A signum si_addr si_type) in *.
  assert (forall i w, frame_words k signum si_addr si_type !! i = Some w ->
    load_word (sp + 4 * Z.of_nat i) k' = Done (u32 w) k') as Hl.
  { intros i w Hi. rewrite <- (Hw i w Hi). pose proof (lookup_lt_Some _ _ _ Hi) as Hlt. simpl in Hlt.
    apply (load_word_at k' sp 32 A _ Hr); lia. }
  split; [|split].
  - unfold reg. change (tfp k') with (tfp k). apply load32_store32_eq.
  - unfold reg. change (tfp k') with (tfp k). unfold k', delivered, tf_esp, tf_eip. simpl.
    rewrite load32_store32_ne, load32_store32_eq by lia. unfold sp, tf_esp in *.
    unfold u32. by rewrite (Z.mod_small (reg k 68 - 32)), Z.mod_small by lia.
  - pose proof (Hl 0%nat _ eq_refl) as H0. rewrite Z.mul_0_r, Z.add_0_r in H0. split; [exact H0|].
    split; [exact (Hl 1%nat _ eq_refl)|]. split; [exact (Hl 2%nat _ eq_refl)|]. split; [exact (Hl 3%nat _ eq_refl)|].
    intros k2 Hr2 Ha. rewrite (restorer_run k2 sp A Hr2).
    assert (forall i w, frame_words k signum si_addr si_type !! i = Some w -> (4 <= i)%nat ->
      u32 w = w -> load32 (mem (km k2)) (A + 4 * Z.of_nat i) = w) as Hw2.
    { intros i w Hi H4 Hu. rewrite <- Hu, <- (Hw i w Hi). pose proof (lookup_lt_Some _ _ _ Hi) as Hlt. simpl in Hlt.
      apply load32_ext. intros b Hb. apply Ha. lia. }
    assert (forall o, u32 (reg k o) = reg k o) as Hu by (intros o; apply Z.mod_small, load32_range).
    rewrite <- (Hw2 4%nat _ eq_refl ltac:(lia) (Hu _)), <- (Hw2 5%nat _ eq_refl ltac:(lia) (Hu _)),
      <- (Hw2 6%nat _ eq_refl ltac:(lia) (Hu _)), <- (Hw2 7%nat _ eq_refl ltac:(lia) (Hu _)).
    replace (sp + 32) with (reg k tf_esp) by (unfold sp; lia). unfold u32 at 1. by rewrite Z.mod_small by done.
Qed.

(** A process whose stack is the page at 0x1000, with some values in its registers. *)
Definition sample_mem : gmap Z Z :=
  store32 (store32 (store32 (store32 (store32 (store32 (store32 ∅
    0x80400000 0x401007) 0x80401004 0x402007)
    (0x80403f00 + tf_esp) 0x1f00) (0x80403f00 + tf_eip) 0x77) (0x80403f00 + tf_eax) 11)
    (0x80403f00 + tf_ecx) 12) (0x80403f00 + tf_edx) 13.
Definition sample_proc : kern :=
  set_km (mkKst sample_mem 0 false ∅ 0x400000 [] [])
    (set_tab (upd (word 1 o_tf) 0x80403f00 (upd (word 1 o_restorer) 0x60
       (upd (word 1 (o_handlers SIGFPE)) 0x40 (fun _ => 0)))) sample_kern).

Lemma sample_room : frame_room sample_proc 0x80402ee0.
Proof.
  split; [vm_compute; discriminate|]. split; [|split; [|split]].
  - split.
    + split; vm_compute; discriminate.
    + vm_compute. reflexivity.
    + vm_compute. reflexivity.
    + left. vm_compute. discriminate.
    + left. vm_compute. discriminate.
  - right. vm_compute. discriminate.
  - right. vm_compute. discriminate.
  - right. vm_compute. discriminate.
Qed.

Lemma signal_roundtrip_witness : exists k', signal_deliver SIGFPE 5 1 sample_proc = Done tt k' /\
  reg k' tf_eip = 0x40.
Proof.
  destruct (signal_roundtrip sample_proc 0x80402ee0 SIGFPE 5 1 sample_room) as (k' & E & Heip & _).
  exists k'. split; [exact E|]. rewrite Heip. reflexivity.
Defined.

(** The same process in a system call, with a pointer and a length as its arguments. *)
Definition sample_call : kern :=
  set_km (mkKst (store32 (store32 sample_mem 0x80402f04 0x1ff0) 0x80402f08 16) 0 false ∅ 0x400000 [] [])
    (set_tab (upd (word 1 o_sz) 0x2000 (upd (word 1 o_tf) 0x80403f00 (fun _ => 0))) sample_kern).

