(* ===== verification/ProcTheorems.v ===== *)
(** * New processes, signal handlers and page faults

    What allocproc does to the process table and to the new kernel stack; handlers[]
    has two entries but is indexed with signal numbers up to 14 and beyond, so
    allocproc also overwrites a field of the next slot, and a process can overwrite any
    field of any slot.  A page fault that no handler takes is ignored. *)

From S2P Require Import Pipe Bytes FsFormat Fs Inode InodeData Dir.
From S2P Require Import Prelude Mmu Traps Memory Kstate Kalloc PageTable Uvm Cow Boot Kernel Sched File.
From S2P Require Import Proc Syscall Sysproc Sysfile Exec Trap Smp Signal.

(** ** allocproc *)

(** The words of struct proc that allocproc writes; the last is outside it. *)
Definition alloc_words : list Z :=
  [o_state; o_pid; o_kstack; o_tf; o_context; o_handlers SIGKILL; o_handlers SIGFPE;
   o_restorer; o_shared; o_handlers SIGSEGV].

(** The kernel stack of a new process: room for the trap frame, the address of
    trapret, and a context that starts at forkret. *)
Definition kstack_ready (m : gmap Z Z) (ks tf ctx forkret trapret : Z) : Prop :=
  tf = ks + KSTACKSIZE - TF_SIZE /\ ctx = tf - 4 - CONTEXT_SIZE /\
  load32 m (tf - 4) = u32 trapret /\ load32 m (ctx + ctx_eip) = u32 forkret /\
  forall i, 0 <= i < 16 -> load8 m (ctx + i) = 0.

Section alloc.
Context `{Layout}.
Context (forkret trapret : Z).

Lemma word_next p : word p (o_handlers SIGSEGV) = word (p + 1) (o_ofile 0).
Proof. unfold word, o_handlers, o_ofile, SIGSEGV, PROC_WORDS. lia. Qed.

Lemma stack_ready m ks : let tf := ks + KSTACKSIZE - TF_SIZE in let ctx := tf - 4 - CONTEXT_SIZE in
  kstack_ready (store32 (memset (store32 m (tf - 4) trapret) ctx 0 CONTEXT_SIZE) (ctx + ctx_eip) forkret)
    ks tf ctx forkret trapret.
Proof.
  intros tf ctx. split; [done|]. split; [done|]. unfold ctx, ctx_eip, CONTEXT_SIZE. split; [|split].
  - rewrite load32_store32_ne by lia. rewrite <- (load32_store32_eq m (tf - 4) trapret).
    apply load32_ext. intros i Hi. rewrite load8_memset by lia.
    destruct (Z.leb_spec (tf - 4 - 20) (tf - 4 + i)), (Z.ltb_spec (tf - 4 + i) (tf - 4 - 20 + 20)); simpl; [lia|done..].
  - apply load32_store32_eq.
  - intros i Hi. rewrite load8_store32_ne by lia. rewrite load8_memset by lia.
    destruct (Z.leb_spec (tf - 4 - 20) (tf - 4 - 20 + i)), (Z.ltb_spec (tf - 4 - 20 + i) (tf - 4 - 20 + 20));
      simpl; [done|lia..].
Qed.

(** The part of allocproc after the allocation of the stack. *)
Lemma tab_set_fld_ne p o v k w : w <> word p o -> tab (set_fld p o v k) w = tab k w.
Proof. intros Hw. unfold set_fld. simpl. by apply upd_ne. Qed.

Definition allocated (k k' : kern) (p : Z) : Prop :=
  p ∈ slots /\ state k p = UNUSED /\ state k' p = EMBRYO /\
  fld k' p o_pid = nextpid k /\ nextpid k' = nextpid k + 1 /\
  (let ks := fld k' p o_kstack in ks <> 0 /\
   kstack_ready (mem (km k')) ks (fld k' p o_tf) (fld k' p o_context) forkret trapret) /\
  fld k' p (o_handlers SIGKILL) = u32 (-1) /\ fld k' p (o_handlers SIGFPE) = u32 (-1) /\
  fld k' p o_restorer = u32 (-1) /\ fld k' p o_shared = 0 /\
  fld k' (p + 1) (o_ofile 0) = u32 (-1) /\
  forall w, (forall o, o ∈ alloc_words -> w <> word p o) -> tab k' w = tab k w.

Definition no_process (k k' : kern) (p : Z) : Prop :=
  p = 0 /\ (forall q, state k' q = state k q) /\
  ((forall q, q ∈ slots -> state k q <> UNUSED) \/ freelist (km k) = 0).

Ltac offs := unfold word, o_handlers, o_ofile, PROC_WORDS, o_state, o_pid, o_kstack, o_tf, o_context, o_restorer,
  o_shared, SIGKILL, SIGFPE, SIGSEGV in *.
Ltac tabs := unfold state, fld, set_fld; cbn [tab set_tab set_km set_nextpid nextpid];
  repeat first [ rewrite upd_eq | rewrite upd_ne by (offs; lia) ].

Lemma kalloc_unlocked s : held s = [] -> wp kalloc s (fun r s' => held s' = [] /\ r = freelist s) (fun _ _ => False).
Proof.
  intros Hl. unfold kalloc, when. step. step. cbn beta. destruct (use_lock s) eqn:Hu; apply wp_bind.
  - apply wp_acquire; [by rewrite Hl; apply not_elem_of_nil|]. step. step. cbn beta. rewrite Hl.
    case_match; ksteps; simpl; rewrite ?Hu; apply wp_release; try (simpl; set_solver); step; simpl; done.
  - step. step. step. cbn beta. case_match; ksteps; simpl; rewrite ?Hu; ksteps; done.
Qed.

Lemma alloc_slot_run k : held (km k) = [] ->
  wp alloc_slot k
    (fun p k' => held (km k') = [] /\ ((p = 0 /\ tab k' = tab k /\ forall q, q ∈ slots -> state k q <> UNUSED) \/
      (p ∈ slots /\ state k p = UNUSED /\ nextpid k' = nextpid k + 1 /\ freelist (km k') = freelist (km k) /\
       tab k' = upd (word p o_pid) (nextpid k) (upd (word p o_state) EMBRYO (tab k))))) (fun _ _ => False).
Proof.
  intros Hl. unfold alloc_slot. apply wp_bind, wp_on_km, wp_acquire; [rewrite Hl; apply not_elem_of_nil|].
  apply wp_bind. eapply wp_mono; [apply find_state_spec| |done]. cbn beta. intros p k' (-> & Hp). apply wp_bind.
  rewrite Hl. destruct (Z.eqb_spec p 0) as [Hp0|Hp0].
  - subst p. step. apply wp_bind, wp_on_km, wp_release; [set_solver|]. step. split; [done|]. left.
    split; [done|]. split; [done|]. destruct Hp as [[_ Hn]|[Hin _]]; [exact Hn|apply elem_slots in Hin; lia].
  - destruct Hp as [[? _]|[Hin Hs]]; [done|]. tsteps. apply wp_on_km, wp_release; [set_solver|]. step. split; [done|].
    by right.
Qed.

(** The words allocproc writes once it has the stack. *)
Definition new_words (p ks tf ctx : Z) (t : Z -> Z) : Z -> Z :=
  upd (word p o_shared) 0 (upd (word p o_restorer) (u32 (-1)) (upd (word p (o_handlers SIGSEGV)) (u32 (-1))
  (upd (word p (o_handlers SIGFPE)) (u32 (-1)) (upd (word p (o_handlers SIGKILL)) (u32 (-1))
  (upd (word p o_context) ctx (upd (word p o_tf) tf (upd (word p o_kstack) ks t))))))).

Lemma allocated_intro k k' p ks m : p ∈ slots -> state k p = UNUSED -> ks <> 0 ->
  nextpid k' = nextpid k + 1 ->
  let tf := ks + KSTACKSIZE - TF_SIZE in let ctx := tf - 4 - CONTEXT_SIZE in
  tab k' = new_words p ks tf ctx (upd (word p o_pid) (nextpid k) (upd (word p o_state) EMBRYO (tab k))) ->
  mem (km k') = store32 (memset (store32 m (tf - 4) trapret) ctx 0 CONTEXT_SIZE) (ctx + ctx_eip) forkret ->
  allocated k k' p.
Proof.
  intros Hin Hu Hks Hn tf ctx Ht Hm. unfold allocated, state, fld. rewrite <- word_next, Ht, Hm. unfold new_words.
  split; [done|]. split; [done|].
  repeat (rewrite upd_eq || rewrite upd_ne by (offs; lia)).
  do 3 (split; [done|]). split; [split; [done|apply stack_ready]|]. do 5 (split; [done|]).
  intros w Hw. rewrite !upd_ne by (apply Hw; unfold alloc_words; set_solver). done.
Qed.

Lemma allocproc_wp k : held (km k) = [] ->
  wp (allocproc forkret trapret) k
    (fun p k' => no_process k k' p \/ allocated k k' p) (fun _ _ => False).
Proof.
  intros Hl0. unfold allocproc. apply wp_bind. eapply wp_mono; [by apply alloc_slot_run| |done].
  intros p k1 [Hl Hp]. cbn beta. destruct (Z.eqb_spec p 0) as [Hp0|Hp0].
  { step. left. split; [done|]. destruct Hp as [(_ & Ht & Hno)|[Hin _]]; [|apply elem_slots in Hin; lia].
    split; [|by left]. intros q. unfold state, fld. by rewrite Ht. }
  destruct Hp as [[? _]|(Hin & Hu & Hn & Hfl & Ht)]; [done|]. apply wp_bind, wp_on_km.
  eapply wp_mono; [by apply kalloc_unlocked| |done]. intros ks m [_ Hks]. tsteps.
  destruct (Z.eqb_spec ks 0) as [Hk|Hk].
  { tsteps. left. split; [done|]. split; [|right; congruence]. intros q. unfold state, fld, set_fld. cbn [tab set_tab set_km]. rewrite Ht.
    destruct (decide (q = p)) as [->|Hne]; [by rewrite upd_eq|]. by rewrite !upd_ne by (offs; lia). }
  psteps. right. match goal with |- allocated k ?x p => set (k' := x) end.
  set (tf := ks + KSTACKSIZE - TF_SIZE) in *. set (ctx := tf - 4 - CONTEXT_SIZE) in *.
  assert (tab k' = new_words p ks tf ctx (tab k1)) as Ht' by reflexivity.
  assert (nextpid k' = nextpid k1) as Hn' by reflexivity.
  assert (mem (km k') = store32 (memset (store32 (mem m) (tf - 4) trapret) ctx 0 CONTEXT_SIZE)
    (ctx + ctx_eip) forkret) as Hm by reflexivity.
  clearbody k'. rewrite Ht in Ht'.
  apply (allocated_intro k k' p ks (mem m)); [done|done|done|by rewrite Hn', Hn|exact Ht'|exact Hm].
Qed.
End alloc.



(** ** A process that uses the overwritten descriptor *)

(** A process whose first descriptor was overwritten follows a wild pointer when it
    exits. *)
Lemma exit_faults `{Layout} k : proc k <> initproc k -> fld k (proc k) (o_ofile 0) = u32 (-1) ->
  wp (exit (A := unit)) k (fun _ _ => False) (fun w _ => w = Faulted (u32 (-1))).
Proof.
  intros Hp Hf. unfold exit. tsteps. rewrite (proj2 (Z.eqb_neq _ _)) by done.
  cbn [seq NOFILE close_files]. tsteps. change (Z.of_nat 0) with 0. rewrite Hf. cbn [Z.eqb]. tsteps. reflexivity.
Qed.

(** ** Registering a handler *)

(** A process can overwrite any field of any slot of the process table. *)
Lemma signal_register_any_field k q o v : proc k <> 0 ->
  signal_register_handler (PROC_WORDS * (q - proc k) + o - o_handlers 0) v k =
    Done (fld k q o) (set_fld q o v k).
Proof.
  intros Hp. unfold signal_register_handler. rewrite (bind_run (gets proc) _ k (proc k) k) by done.
  rewrite (proj2 (Z.eqb_neq _ _)) by done.
  assert (forall x, word (proc k) (o_handlers (PROC_WORDS * (q - proc k) + o - o_handlers 0)) = x -> x = word q o) as Hw.
  { intros x <-. unfold word, o_handlers. lia. }
  unfold bind, getf, setf, gets, modify, fld, set_fld, ret. by rewrite (Hw _ eq_refl).
Qed.

(** ** Page faults *)

(** With no handler and no shared pages a page fault changes nothing: the process runs
    the same instruction again. *)
Lemma page_fault_ignored `{Layout} forkret trapret devread devwrite outw elf0 eoi ide kbd uart cpu cr2 tf k :
  load32 (mem (km k)) (tf + tf_trapno) = T_PGFLT -> proc k <> 0 ->
  fld k (proc k) o_shared <> 1 -> fld k (proc k) (o_handlers SIGSEGV) = u32 (-1) ->
  fld k (proc k) o_killed = 0 ->
  trap forkret trapret devread devwrite outw elf0 eoi ide kbd uart cpu cr2 tf k = Done tt k.
Proof.
  intros Hno Hp Hs Hh Hk. assert (forall o, tf_reg tf o k = Done (load32 (mem (km k)) (tf + o)) k) as Hreg by by destruct k.
  unfold trap. rewrite (bind_run _ _ _ _ _ (Hreg _)), Hno. rewrite (bind_run (gets proc) _ k (proc k) k) by done.
  change (T_PGFLT =? T_SYSCALL) with false. cbn [andb].
  assert (exit_if_killed tf k = Done tt k) as He.
  { unfold exit_if_killed. rewrite (bind_run (gets proc) _ k (proc k) k) by done.
    rewrite (bind_run (getf _ _) _ k 0 k) by (unfold getf, gets; by rewrite Hk).
    rewrite (bind_run _ _ _ _ _ (Hreg _)). by rewrite andb_false_r. }
  rewrite (bind_run _ _ k tt k).
  - rewrite (bind_run _ _ _ _ _ He). rewrite (bind_run (getf _ _) _ k (state k (proc k)) k) by done.
    rewrite andb_false_r. by rewrite (bind_run (ret tt) _ k tt k).
  - change (page_fault cr2 tf k = Done tt k). unfold page_fault.
    rewrite (bind_run (gets proc) _ k (proc k) k) by done.
    rewrite (bind_run (getf _ _) _ k (fld k (proc k) o_shared) k) by done.
    rewrite (bind_run (getf _ _) _ k (u32 (-1)) k) by (unfold getf, gets; by rewrite Hh).
    rewrite !(proj2 (Z.eqb_neq _ _)) by done. reflexivity.
Qed.
