(* ===== verification/FdRefs.v ===== *)
(** * The reference counts of open files

    The count of a file in ftable is the number of descriptors, of all processes, that
    point to it.  [fd_inv] says so, up to the references [d] that a system call holds
    while it runs; every system call that makes or drops descriptors is shown to keep
    it, so that a file is released exactly when its last descriptor goes. *)

From S2P Require Import Pipe Bytes FsFormat Fs Inode InodeData Dir.
From S2P Require Import Prelude Mmu Memory Kstate Kalloc PageTable Uvm Cow Boot Kernel Sched File.
From S2P Require Import Proc Syscall Sysfile Smp.

(** ** Counting descriptors *)

Definition ofile_word (p : Z) (fd : nat) : Z := word p (o_ofile (Z.of_nat fd)).
Definition proc_words (p : Z) : list Z := map (ofile_word p) (seq 0 NOFILE).
Definition ofile_words : list Z := concat (map proc_words slots).

Definition points (t : Z -> Z) (f : nat) (w : Z) : Z := if t w =? Z.of_nat f + 1 then 1 else 0.
Fixpoint count (t : Z -> Z) (f : nat) (l : list Z) : Z :=
  match l with
  | [] => 0
  | w :: l => points t f w + count t f l
  end.

(** [d f] references to [f] are held by the running code. *)
Record fd_inv (d : nat -> Z) (k : kern) : Prop := {
  fi_count : forall f, (f < NFILE)%nat -> fref (files k f) = count (tab k) f ofile_words + d f;
  fi_valid : forall w, w ∈ ofile_words -> 0 <= tab k w <= Z.of_nat NFILE }.

Definition none : nat -> Z := fun _ => 0.
Definition plus (i : nat) (n : Z) (d : nat -> Z) : nat -> Z := fun f => d f + (if decide (f = i) then n else 0).

Lemma elem_ofile_words p fd : p ∈ slots -> (fd < NOFILE)%nat -> ofile_word p fd ∈ ofile_words.
Proof.
  intros Hp Hf. unfold ofile_words. apply list_elem_of_In, in_concat. exists (proc_words p). split.
  - by apply in_map, list_elem_of_In.
  - apply in_map, in_seq. unfold NOFILE in *. lia.
Qed.

Lemma ofile_words_inv w : w ∈ ofile_words -> exists p fd, p ∈ slots /\ (fd < NOFILE)%nat /\ w = ofile_word p fd.
Proof.
  intros Hw. apply list_elem_of_In, in_concat in Hw as (l & Hl & Hw).
  apply in_map_iff in Hl as (p & <- & Hp). apply in_map_iff in Hw as (fd & <- & Hfd).
  exists p, fd. split; [by apply list_elem_of_In|]. apply in_seq in Hfd. unfold NOFILE in *. split; [lia|done].
Qed.

Lemma ofile_word_inj p fd q fd' : (fd < NOFILE)%nat -> (fd' < NOFILE)%nat ->
  ofile_word p fd = ofile_word q fd' -> p = q /\ fd = fd'.
Proof. unfold ofile_word, word, o_ofile, PROC_WORDS, NOFILE. lia. Qed.

Lemma NoDup_proc_words p : NoDup (proc_words p).
Proof.
  unfold proc_words. apply NoDup_fmap_2_strong; [|apply NoDup_seq].
  intros i j Hi%elem_of_seq Hj%elem_of_seq E. apply ofile_word_inj in E; unfold NOFILE in *; [tauto|lia..].
Qed.

Lemma NoDup_ofile_words : NoDup ofile_words.
Proof.
  unfold ofile_words. pose proof slots_nodup as Hn. induction slots as [|p l IH]; [by apply NoDup_nil|].
  apply NoDup_cons in Hn as [Hp Hn]. cbn [map concat]. apply NoDup_app. split; [apply NoDup_proc_words|]. split; [|by apply IH].
  intros w Hw Hw'. apply list_elem_of_In, in_map_iff in Hw as (fd & <- & Hfd).
  apply list_elem_of_In, in_concat in Hw' as (x & Hx & Hw'). apply in_map_iff in Hx as (q & <- & Hq).
  apply in_map_iff in Hw' as (fd' & E & Hfd'). apply in_seq in Hfd, Hfd'.
  apply ofile_word_inj in E as [-> _]; [|unfold NOFILE in *; lia..]. apply Hp. by apply list_elem_of_In.
Qed.

Lemma count_ext t t' f l : (forall w, w ∈ l -> t' w = t w) -> count t' f l = count t f l.
Proof.
  induction l as [|w l IH]; intros Ht; [done|]. cbn [count]. unfold points. rewrite Ht by set_solver.
  rewrite IH; [done|]. set_solver.
Qed.

Lemma count_upd t f w v l : NoDup l -> w ∈ l ->
  count (upd w v t) f l = count t f l - points t f w + (if v =? Z.of_nat f + 1 then 1 else 0).
Proof.
  induction l as [|x l IH]; intros Hn Hw; [by apply elem_of_nil in Hw|].
  apply NoDup_cons in Hn as [Hx Hn]. cbn [count]. destruct (decide (x = w)) as [->|Hne].
  - rewrite (count_ext t (upd w v t)) by (intros y Hy; apply upd_ne; intros ->; done).
    unfold points at 1. rewrite upd_eq. lia.
  - apply elem_of_cons in Hw as [->|Hw]; [done|]. rewrite IH by done. unfold points at 1.
    rewrite upd_ne by done. fold (points t f x). lia.
Qed.

(** ** Code that leaves descriptors and counts alone *)

Definition fsame (k k' : kern) : Prop :=
  proc k' = proc k /\ (forall f, fref (files k' f) = fref (files k f)) /\
  forall w, w ∈ ofile_words -> tab k' w = tab k w.

Lemma fsame_refl k : fsame k k.
Proof. done. Qed.
Lemma fsame_trans k1 k2 k3 : fsame k1 k2 -> fsame k2 k3 -> fsame k1 k3.
Proof.
  intros (P1 & F1 & T1) (P2 & F2 & T2). split; [congruence|]. split; [intros f; congruence|].
  intros w Hw. rewrite T2, T1; done.
Qed.

Lemma fd_inv_fsame d k k' : fd_inv d k -> fsame k k' -> fd_inv d k'.
Proof.
  intros [Hc Hv] (_ & Hf & Ht). split.
  - intros f Hlt. rewrite Hf, Hc by done. by rewrite (count_ext (tab k) (tab k') f ofile_words Ht).
  - intros w Hw. rewrite Ht by done. by apply Hv.
Qed.

Lemma fd_inv_ext d d' k : fd_inv d k -> (forall f, d' f = d f) -> fd_inv d' k.
Proof. intros [Hc Hv] Hd. split; [intros f Hf; rewrite Hd; by apply Hc|done]. Qed.

(** [c] returns with [Q] and the counts changed from [d] to [d' a]. *)
Definition keeps {A} (c : M kern A) : Prop := forall k, wp c k (fun _ k' => fsame k k') (fun _ _ => True).

Lemma keeps_bind {A B} (c : M kern A) (f : A -> M kern B) : keeps c -> (forall a, keeps (f a)) -> keeps (bind c f).
Proof.
  intros Hc Hf k. apply wp_bind. eapply wp_mono; [apply Hc| |done]. intros a k1 H1.
  eapply wp_mono; [apply Hf| |done]. intros b k2 H2. exact (fsame_trans _ _ _ H1 H2).
Qed.
Lemma keeps_ret {A} (a : A) : keeps (ret a).
Proof. done. Qed.
Lemma keeps_gets {A} (f : kern -> A) : keeps (gets f).
Proof. done. Qed.
Lemma keeps_getf p o : keeps (getf p o).
Proof. done. Qed.
Lemma keeps_halt {A} w : keeps (A := A) (halt w).
Proof. done. Qed.
Lemma keeps_panic {A} msg : keeps (A := A) (panic msg).
Proof. done. Qed.
Lemma keeps_on_km {A} (c : M kst A) : keeps (on_km c).
Proof. intros k. apply wp_on_km_any; done. Qed.
Lemma keeps_on_fs {A} (c : M fs A) : keeps (on_fs c).
Proof. intros k. unfold wp, on_fs. cbv zeta. destruct (c _); done. Qed.
Lemma keeps_load_byte `{Layout} a : keeps (load_byte a).
Proof. intros k. unfold wp, load_byte. by destruct (translate k a false). Qed.
Lemma keeps_store_byte `{Layout} a v : keeps (store_byte a v).
Proof. intros k. unfold wp, store_byte. by destruct (translate k a true). Qed.
Lemma keeps_put_pipe p x : keeps (put_pipe p x).
Proof. done. Qed.

Create HintDb keeps.
#[export] Hint Resolve keeps_ret keeps_gets keeps_getf keeps_halt keeps_panic keeps_on_km keeps_on_fs
  keeps_load_byte keeps_store_byte keeps_put_pipe : keeps.
Ltac keep :=
  repeat first [ progress cbn zeta | solve [auto with keeps] | apply keeps_bind; [|intros ?] | case_match ].

Lemma wp_and {A} (c : M kern A) k (Q Q' : A -> kern -> Prop) E E' : wp c k Q E -> wp c k Q' E' ->
  wp c k (fun a k' => Q a k' /\ Q' a k') (fun w k' => E w k' /\ E' w k').
Proof. unfold wp. by destruct (c k). Qed.

Section ops.
Context `{Layout}.

(** A word of struct proc that is not a descriptor. *)
Lemma keeps_setf p o v : 0 <= o < PROC_WORDS -> o < o_ofile 0 \/ o_cwd <= o -> keeps (setf p o v).
Proof.
  intros Ho Hno k. apply wp_setf. split; [done|]. split; [done|]. intros w Hw. unfold set_fld. simpl. apply upd_ne.
  apply ofile_words_inv in Hw as (q & fd & _ & Hfd & ->).
  unfold ofile_word, word, o_ofile, o_cwd, PROC_WORDS, NOFILE in *. lia.
Qed.
Lemma keeps_state p v : keeps (setf p o_state v).
Proof. apply keeps_setf; [done|by left]. Qed.
#[local] Hint Resolve keeps_state : keeps.

Lemma keeps_wakeup_from chan l : keeps (wakeup_from chan l).
Proof. induction l as [|p l IH]; cbn [wakeup_from]; keep. Qed.
#[local] Hint Resolve keeps_wakeup_from : keeps.
Lemma keeps_wakeup chan : keeps (wakeup chan).
Proof. unfold wakeup, wakeup1. keep. Qed.

Lemma keeps_load_word a : keeps (load_word a).
Proof. unfold load_word. keep. Qed.
Lemma keeps_store_word a v : keeps (store_word a v).
Proof. unfold store_word. keep. Qed.
#[local] Hint Resolve keeps_load_word keeps_store_word : keeps.
Lemma keeps_load_bytes n : forall a, keeps (load_bytes a n).
Proof. induction n as [|n IH]; intros a; cbn [load_bytes]; keep. Qed.
Lemma keeps_find_nul f : forall s len, keeps (find_nul f s len).
Proof. induction f as [|f IH]; intros s len; cbn [find_nul]; keep. Qed.
#[local] Hint Resolve keeps_load_bytes keeps_find_nul : keeps.
Lemma keeps_get_tf o : keeps (get_tf o).
Proof. unfold get_tf. keep. Qed.
#[local] Hint Resolve keeps_get_tf : keeps.
Lemma keeps_argint n : keeps (argint n).
Proof. unfold argint, fetchint. keep. Qed.
#[local] Hint Resolve keeps_argint : keeps.
Lemma keeps_argptr n size : keeps (argptr n size).
Proof. unfold argptr. keep. Qed.
Lemma keeps_argpath n : keeps (argpath n).
Proof. unfold argpath, argstr, fetchstr. keep. Qed.
Lemma keeps_end_op : keeps end_op.
Proof. unfold end_op. keep. Qed.

(** ** Descriptors and files *)

(** The counts, and who runs. *)
Definition FI (d : nat -> Z) (p : Z) (k : kern) : Prop := fd_inv d k /\ proc k = p.

Lemma wp_keeps {A} (c : M kern A) d p k (Q : A -> kern -> Prop) : keeps c -> FI d p k ->
  (forall a k', FI d p k' -> Q a k') -> wp c k Q (fun _ _ => True).
Proof.
  intros Hc [Hi Hp] HQ. eapply wp_mono; [apply Hc| |done]. intros a k' Hs. apply HQ.
  split; [by eapply fd_inv_fsame|]. rewrite <- Hp. apply Hs.
Qed.

Lemma FI_ext d d' p k : FI d p k -> (forall f, d' f = d f) -> FI d' p k.
Proof. intros [Hi Hp] Hd. split; [by eapply fd_inv_ext|done]. Qed.

Lemma fd_inv_set d k p fd v : p ∈ slots -> (fd < NOFILE)%nat -> 0 <= v <= Z.of_nat NFILE -> fd_inv d k ->
  fd_inv (fun f => d f + points (tab k) f (ofile_word p fd) - (if v =? Z.of_nat f + 1 then 1 else 0))
    (set_fld p (o_ofile (Z.of_nat fd)) v k).
Proof.
  intros Hp Hfd Hv [Hc Hval]. pose proof (elem_ofile_words p fd Hp Hfd) as Hw. split.
  - intros f Hf. unfold set_fld. cbn [files set_tab tab]. fold (ofile_word p fd).
    rewrite count_upd by (done || apply NoDup_ofile_words). rewrite Hc by done. lia.
  - intros w Hin. unfold set_fld. cbn [set_tab tab]. fold (ofile_word p fd).
    destruct (decide (w = ofile_word p fd)) as [->|Hne]; [by rewrite upd_eq|]. rewrite upd_ne by done. by apply Hval.
Qed.

Lemma ptr_eq (i f : nat) : (Z.of_nat i + 1 =? Z.of_nat f + 1) = (if decide (f = i) then true else false).
Proof. case_decide; [subst; apply Z.eqb_refl|]. apply Z.eqb_neq. lia. Qed.

(** Filling a free descriptor takes over one reference; clearing one gives it back. *)
Lemma FI_fill d p q k fd i : FI d p k -> q ∈ slots -> (fd < NOFILE)%nat -> (i < NFILE)%nat ->
  fld k q (o_ofile (Z.of_nat fd)) = 0 ->
  FI (plus i (-1) d) p (set_fld q (o_ofile (Z.of_nat fd)) (Z.of_nat i + 1) k).
Proof.
  intros [Hi Hp] Hq Hfd Hlt H0. split; [|done].
  eapply fd_inv_ext; [apply (fd_inv_set d); [done|done|unfold NFILE in *; lia|done]|].
  intros f. unfold points, plus, ofile_word. unfold fld in H0. rewrite H0, ptr_eq.
  rewrite (proj2 (Z.eqb_neq 0 _)) by lia. case_decide; lia.
Qed.

Lemma FI_clear d p q k fd i : FI d p k -> q ∈ slots -> (fd < NOFILE)%nat ->
  fld k q (o_ofile (Z.of_nat fd)) = Z.of_nat i + 1 ->
  FI (plus i 1 d) p (set_fld q (o_ofile (Z.of_nat fd)) 0 k).
Proof.
  intros [Hi Hp] Hq Hfd Hold. split; [|done].
  eapply fd_inv_ext; [apply (fd_inv_set d); [done|done|unfold NFILE; lia|done]|].
  intros f. unfold points, plus, ofile_word. unfold fld in Hold. rewrite Hold, ptr_eq.
  rewrite (proj2 (Z.eqb_neq 0 _)) by lia. case_decide; lia.
Qed.

Lemma FI_set_file d p k i x n : FI d p k -> fref x = fref (files k i) + n ->
  FI (plus i n d) p (set_file i x k).
Proof.
  intros [[Hc Hv] Hp] Hx. split; [|done]. split; [|done]. intros f Hf. unfold set_file. cbn [files set_files tab].
  unfold plus. case_decide as D.
  - subst f. rewrite upd_eq, Hx, Hc by done. lia.
  - rewrite upd_ne by done. rewrite Hc by done. lia.
Qed.

Lemma filedup_fi d p k i : FI d p k ->
  wp (filedup i) k (fun r k' => r = i /\ FI (plus i 1 d) p k' /\ tab k' = tab k) (fun _ _ => True).
Proof.
  intros Hi. unfold filedup. tsteps. case_match; [done|]. tsteps. split; [done|]. split; [|done].
  by apply FI_set_file.
Qed.

Lemma filealloc_fi d p k : FI d p k ->
  wp filealloc k (fun r k' => tab k' = tab k /\
    match r with Some i => (i < NFILE)%nat /\ FI (plus i 1 d) p k' | None => FI d p k' end) (fun _ _ => True).
Proof.
  intros Hi. unfold wp, filealloc. destruct (List.find _ _) as [i|] eqn:E; [|done].
  apply List.find_some in E as [Hin H0]. bool_prop. apply in_seq in Hin. split; [done|]. split; [lia|].
  apply FI_set_file; [done|]. rewrite H0. done.
Qed.

Lemma keeps_pipeclose x wr : keeps (do_pipeclose x wr).
Proof. unfold do_pipeclose, get_pipe. pose proof keeps_wakeup. keep. Qed.

Lemma fileclose_fi d p k i : FI d p k ->
  wp (fileclose i) k (fun _ k' => FI (plus i (-1) d) p k') (fun _ _ => True).
Proof.
  intros Hi. unfold fileclose. tsteps. case_match; [done|]. tsteps.
  assert (FI (plus i (-1) d) p (set_file i (set_fref (fref (files k i) - 1) (files k i)) k)) as HA.
  { apply FI_set_file; [done|]. simpl. lia. }
  case_match; bool_prop; [done|]. tsteps. set (k1 := set_file i _ _).
  assert (FI (plus i (-1) d) p k1) as HB.
  { eapply FI_ext; [apply (FI_set_file _ _ _ i (set_ftyp FD_NONE (set_fref 0 (files k i))) 0 HA)|].
    - simpl. rewrite upd_eq. simpl. lia.
    - intros f. unfold plus. case_decide; lia. }
  clearbody k1. destruct (ftyp (files k i)).
  - by step.
  - eapply wp_keeps; [apply keeps_pipeclose|exact HB|done].
  - eapply wp_keeps; [|exact HB|done]. pose proof keeps_end_op. unfold begin_op. keep.
Qed.

Lemma fileclose_words k i :
  wp (fileclose i) k (fun _ k' => forall w, w ∈ ofile_words -> tab k' w = tab k w) (fun _ _ => True).
Proof.
  unfold fileclose. tsteps. case_match; [done|]. tsteps. case_match; [done|]. tsteps.
  match goal with |- wp ?c ?k1 _ _ => assert (keeps c) as Hc; [|assert (tab k1 = tab k) as Ht by done] end.
  { pose proof keeps_pipeclose. pose proof keeps_end_op. unfold begin_op. keep. }
  eapply wp_mono; [apply Hc| |done]. intros ? k' (_ & _ & Hw) w Hin. rewrite Hw by done. by rewrite <- Ht.
Qed.

(** ** The system calls *)

Lemma argfd_fi d p k n : FI d p k ->
  wp (argfd n) k (fun r k' => FI d p k' /\
    match r with
    | Some (fd, f) => exists j, fd = Z.of_nat j /\ (j < NOFILE)%nat /\ f <> 0 /\ fld k' p (o_ofile fd) = f
    | None => True
    end) (fun _ _ => True).
Proof.
  intros Hi. unfold argfd. apply wp_bind. eapply wp_keeps; [apply keeps_argint|exact Hi|]. intros [fd|] k' Hk; [|by step].
  destruct ((fd <? 0) || (Z.of_nat NOFILE <=? fd)) eqn:E; bool_prop; [by step|]. tsteps. case_match; bool_prop; tsteps; [done|].
  split; [done|]. exists (Z.to_nat fd). destruct Hk as [_ <-]. unfold NOFILE in *. split; [lia|]. split; [lia|]. done.
Qed.

(** A descriptor of a slot leads into ftable. *)
Lemma file_ptr_fi d p q k fd (Q : nat -> kern -> Prop) : FI d p k -> q ∈ slots -> (fd < NOFILE)%nat ->
  fld k q (o_ofile (Z.of_nat fd)) <> 0 ->
  (forall i, (i < NFILE)%nat -> fld k q (o_ofile (Z.of_nat fd)) = Z.of_nat i + 1 -> Q i k) ->
  wp (file_ptr (fld k q (o_ofile (Z.of_nat fd)))) k Q (fun _ _ => True).
Proof.
  intros [[_ Hv] _] Hq Hfd H0 HQ. pose proof (Hv _ (elem_ofile_words q fd Hq Hfd)) as Hr.
  change (tab k (ofile_word q fd)) with (fld k q (o_ofile (Z.of_nat fd))) in Hr.
  set (f := fld k q (o_ofile (Z.of_nat fd))) in *. clearbody f. unfold file_ptr.
  destruct ((1 <=? f) && (f <=? Z.of_nat NFILE)) eqn:E; [|by step].
  step. apply HQ; unfold NFILE in *; lia.
Qed.

Lemma fdalloc_fi d p k i : FI d p k -> p ∈ slots -> (i < NFILE)%nat ->
  wp (fdalloc (Z.of_nat i + 1)) k (fun r k' => (r = -1 /\ k' = k) \/
    exists j, r = Z.of_nat j /\ (j < NOFILE)%nat /\ FI (plus i (-1) d) p k' /\
      fld k' p (o_ofile (Z.of_nat j)) = Z.of_nat i + 1) (fun _ _ => True).
Proof.
  intros Hi Hp Hlt. unfold fdalloc. assert (forall fd, fd ∈ seq 0 NOFILE -> (fd < NOFILE)%nat) as Hl.
  { intros fd Hfd%elem_of_seq. lia. }
  induction (seq 0 NOFILE) as [|fd l IH]; cbn [fdalloc_from]; tsteps; [by left|].
  destruct Hi as [Hi Hpr]. rewrite Hpr. case_match; bool_prop.
  - tsteps. right. exists fd. split; [done|]. split; [apply Hl; set_solver|]. split; [|by rewrite fld_set_eq].
    apply FI_fill; [done|done|apply Hl; set_solver|done|done].
  - apply IH. set_solver.
Qed.

Lemma sys_dup_fi k : FI none (proc k) k -> proc k ∈ slots -> wp sys_dup k (fun _ => FI none (proc k)) (fun _ _ => True).
Proof.
  intros Hi Hp. unfold sys_dup. apply wp_bind. eapply wp_mono; [by apply argfd_fi| |done].
  intros [[fd f]|] k1 [H1 Hf]; [|by step]. destruct Hf as (j & -> & Hj & Hf0 & <-).
  destruct (Z.eq_dec (fld k1 (proc k) (o_ofile (Z.of_nat j))) 0) as [|Hne]; [done|].
  assert (exists i, (i < NFILE)%nat /\ fld k1 (proc k) (o_ofile (Z.of_nat j)) = Z.of_nat i + 1) as (i & Hlt & E).
  { pose proof (fi_valid _ _ (proj1 H1) _ (elem_ofile_words (proc k) j Hp Hj)) as Hr.
    change (tab k1 (ofile_word (proc k) j)) with (fld k1 (proc k) (o_ofile (Z.of_nat j))) in Hr.
    exists (Z.to_nat (fld k1 (proc k) (o_ofile (Z.of_nat j)) - 1)). unfold NFILE in *. split; lia. }
  rewrite E. apply wp_bind. eapply wp_mono; [by apply fdalloc_fi| |done].
  intros r k2 [[-> ->]|(j2 & -> & Hj2 & H2 & E2)]; [exact H1|].
  rewrite (proj2 (Z.ltb_ge _ _)) by lia. apply wp_bind. rewrite <- E2.
  eapply file_ptr_fi; [exact H2|done|done|rewrite E2; lia|]. intros i' _ E'. rewrite E2 in E'.
  assert (i' = i) as -> by lia. tstep. eapply wp_mono; [by apply filedup_fi| |done].
  intros ? k3 (-> & H3 & _). step. eapply FI_ext; [exact H3|]. intros f. unfold plus, none. case_decide; lia.
Qed.

Lemma sys_close_fi k : FI none (proc k) k -> proc k ∈ slots -> wp sys_close k (fun _ => FI none (proc k)) (fun _ _ => True).
Proof.
  intros Hi Hp. unfold sys_close. apply wp_bind. eapply wp_mono; [by apply argfd_fi| |done].
  intros [[fd f]|] k1 [H1 Hf]; [|by step]. destruct Hf as (j & -> & Hj & Hf0 & Hf). tsteps.
  rewrite (proj2 H1). unfold file_ptr. destruct ((1 <=? f) && (f <=? Z.of_nat NFILE)) eqn:E; [|by step].
  bool_prop. tstep. apply wp_bind. assert (f = Z.of_nat (Z.to_nat (f - 1)) + 1) as Ef by lia.
  pose proof (FI_clear _ _ (proc k) k1 j (Z.to_nat (f - 1)) H1 Hp Hj ltac:(congruence)) as HC.
  eapply wp_mono; [exact (fileclose_fi _ _ _ _ HC)| |done]. intros ? k2 HD. step.
  eapply FI_ext; [exact HD|]. intros g. unfold plus, none. case_decide; lia.
Qed.

(** Filling in a file that is allocated keeps its count. *)
Lemma FI_fill_file d p k i x : FI d p k -> fref x = fref (files k i) -> FI d p (set_file i x k).
Proof.
  intros Hi Hx. eapply FI_ext; [apply (FI_set_file d p k i x 0 Hi)|]; [lia|].
  intros f. unfold plus. case_decide; lia.
Qed.

Lemma sys_open_fi devread devwrite k : FI none (proc k) k -> proc k ∈ slots ->
  wp (sys_open devread devwrite) k (fun _ => FI none (proc k)) (fun _ _ => True).
Proof.
  intros Hi Hp. unfold sys_open. apply wp_bind. eapply wp_keeps; [apply keeps_argpath|exact Hi|].
  intros [path|] k1 H1; [|by step]. apply wp_bind. eapply wp_keeps; [apply keeps_argint|exact H1|].
  intros [omode|] k2 H2; [|by step]. unfold begin_op. tstep. tstep. apply wp_bind.
  eapply wp_keeps; [apply keeps_on_fs|exact H2|]. intros [ip|] k3 H3.
  2: { apply wp_bind. eapply wp_keeps; [apply keeps_end_op|exact H3|]. intros ? k4 H4. by step. }
  apply wp_bind. eapply wp_mono; [by apply filealloc_fi| |done]. intros [f|] k4 [_ H4].
  - destruct H4 as [Hf H4]. apply wp_bind. eapply wp_mono; [by apply fdalloc_fi| |done].
    intros r k5 [[-> ->]|(j & -> & Hj & H5 & _)].
    + change (-1 <? 0) with true. apply wp_bind. eapply wp_mono; [eapply fileclose_fi; cbn beta in *; eassumption| |done]. intros ? k6 H6.
      apply wp_bind. eapply wp_keeps; [apply keeps_on_fs|exact H6|]. intros ? k7 H7.
      apply wp_bind. eapply wp_keeps; [apply keeps_end_op|exact H7|]. intros ? k8 H8. step.
      eapply FI_ext; [exact H8|]. intros g. unfold plus, none. case_decide; lia.
    + rewrite (proj2 (Z.ltb_ge _ _)) by lia. apply wp_bind. eapply wp_keeps; [apply keeps_on_fs|exact H5|]. intros ? k6 H6.
      apply wp_bind. eapply wp_keeps; [apply keeps_end_op|exact H6|]. intros ? k7 H7. tsteps.
      apply FI_fill_file; [|done]. eapply FI_ext; [exact H7|]. intros g. unfold plus, none. case_decide; lia.
  - tsteps. change (-1 <? 0) with true. tsteps. eapply wp_keeps; [apply keeps_on_fs|exact H4|]. intros ? k7 H7.
    apply wp_bind. eapply wp_keeps; [apply keeps_end_op|exact H7|]. intros ? k8 H8. by step.
Qed.

Lemma pipealloc_fi d p k : FI d p k ->
  wp pipealloc k (fun r k' => match r with
    | Some (f0, f1) => (f0 < NFILE)%nat /\ (f1 < NFILE)%nat /\ FI (plus f0 1 (plus f1 1 d)) p k'
    | None => FI d p k'
    end) (fun _ _ => True).
Proof.
  intros Hi. unfold pipealloc. apply wp_bind. eapply wp_mono; [by apply filealloc_fi| |done]. intros [f0|] k1 [_ H1].
  2: { tsteps. done. }
  destruct H1 as [Hf0 H1]. apply wp_bind. eapply wp_mono; [by apply filealloc_fi| |done]. intros [f1|] k2 [_ H2].
  2: { tsteps. eapply wp_mono; [eapply fileclose_fi; cbn beta in *; eassumption| |done]. intros ? k3 H3. tsteps.
       eapply FI_ext; [exact H3|]. intros g. unfold plus. case_decide; lia. }
  destruct H2 as [Hf1 H2]. apply wp_bind. eapply wp_keeps; [apply keeps_on_km|exact H2|]. intros pg k3 H3.
  destruct (pg =? 0).
  - apply wp_bind. eapply wp_mono; [eapply fileclose_fi; cbn beta in *; eassumption| |done]. intros ? k4 H4.
    apply wp_bind. eapply wp_mono; [eapply fileclose_fi; cbn beta in *; eassumption| |done]. intros ? k5 H5. step.
    eapply FI_ext; [exact H5|]. intros g. unfold plus. repeat case_decide; lia.
  - apply wp_bind. eapply wp_keeps; [apply keeps_put_pipe|exact H3|]. intros ? k4 H4. tsteps.
    split; [done|]. split; [done|]. eapply FI_ext.
    + apply FI_fill_file; [apply FI_fill_file; [exact H4|done]|]. unfold set_file. cbn [files set_files fref]. done.
    + intros g. unfold plus. lia.
Qed.

Lemma sys_pipe_fi k : FI none (proc k) k -> proc k ∈ slots -> wp sys_pipe k (fun _ => FI none (proc k)) (fun _ _ => True).
Proof.
  intros Hi Hp. unfold sys_pipe. apply wp_bind. eapply wp_keeps; [apply keeps_argptr|exact Hi|].
  intros [fd|] k1 H1; [|by step]. apply wp_bind. eapply wp_mono; [by apply pipealloc_fi| |done].
  intros [[rf wf]|] k2 H2; [|by step]. destruct H2 as (Hrf & Hwf & H2). tsteps. rewrite (proj2 H2).
  assert (forall d k3, FI (plus rf 1 (plus wf 1 none)) (proc k) k3 -> d = -1 ->
    wp (fileclose rf ;; fileclose wf ;; ret d) k3 (fun _ => FI none (proc k)) (fun _ _ => True)) as Hfail.
  { intros d k3 H3 _. apply wp_bind. eapply wp_mono; [eapply fileclose_fi; cbn beta in *; eassumption| |done]. intros ? k4 H4.
    apply wp_bind. eapply wp_mono; [eapply fileclose_fi; cbn beta in *; eassumption| |done]. intros ? k5 H5. step.
    eapply FI_ext; [exact H5|]. intros g. unfold plus, none. repeat case_decide; lia. }
  eapply wp_mono; [by apply fdalloc_fi| |done]. intros r k3 [[-> ->]|(j & -> & Hj & H3 & E3)].
  { change (-1 <? 0) with true. tsteps. change (-1 <? 0) with true. change (0 <=? -1) with false.
    cbv iota. tsteps. apply wp_bind_inv. by apply (Hfail (-1) k2). }
  rewrite (proj2 (Z.ltb_ge _ _)) by lia. apply wp_bind. eapply wp_mono; [by apply fdalloc_fi| |done].
  intros r k4 [[-> ->]|(j2 & -> & Hj2 & H4 & E4)].
  - change (-1 <? 0) with true. cbv iota. rewrite (proj2 (Z.leb_le _ _)) by lia. tsteps.
    apply wp_bind_inv, (Hfail (-1)); [|done]. eapply FI_ext; [exact (FI_clear _ _ _ _ _ _ H3 Hp Hj E3)|].
    intros g. unfold plus, none. repeat case_decide; lia.
  - rewrite (proj2 (Z.ltb_ge _ _)) by lia. apply wp_bind. eapply wp_keeps; [apply keeps_store_word|exact H4|]. intros ? k5 H5.
    apply wp_bind. eapply wp_keeps; [apply keeps_store_word|exact H5|]. intros ? k6 H6. step.
    eapply FI_ext; [exact H6|]. intros g. unfold plus, none. repeat case_decide; lia.
Qed.

(** fork: the child's descriptors, all free, become copies of the parent's. *)
Lemma dup_files_fi p q np k l : p ∈ slots -> np ∈ slots -> np <> p -> NoDup l -> (forall fd, fd ∈ l -> (fd < NOFILE)%nat) ->
  FI none q k -> (forall fd, fd ∈ l -> fld k np (o_ofile (Z.of_nat fd)) = 0) ->
  wp (dup_files p np l) k (fun _ => FI none q) (fun _ _ => True).
Proof.
  intros Hp Hnp Hne Hnd Hl. revert k. induction l as [|fd l IH]; intros k Hi Hz; cbn [dup_files]; tsteps; [done|].
  apply NoDup_cons in Hnd as [Hfd Hnd]. assert (fd < NOFILE)%nat as Hlt by (apply Hl; set_solver).
  destruct (Z.eqb_spec (fld k p (o_ofile (Z.of_nat fd))) 0) as [H0|H0].
  { step. apply IH; [done|set_solver|done|set_solver]. }
  apply wp_bind. eapply file_ptr_fi; [exact Hi|done|done|done|]. intros i Hi' E.
  apply wp_bind. eapply wp_mono; [by apply filedup_fi| |done]. intros ? k1 (-> & H1 & Ht). tsteps.
  assert (forall r o, fld k1 r o = fld k r o) as Hf by (intros; unfold fld; by rewrite Ht).
  apply IH; [done|set_solver| |].
  - eapply FI_ext; [apply (FI_fill _ q np k1 fd i H1)|]; [done|done|done|rewrite Hf; apply Hz; set_solver|].
    intros g. unfold plus, none. case_decide; lia.
  - intros fd' Hfd'. unfold fld, set_fld. cbn [tab set_tab]. rewrite upd_ne.
    + fold (fld k1 np (o_ofile (Z.of_nat fd'))). rewrite Hf. apply Hz. set_solver.
    + intros E'. apply (ofile_word_inj np fd' np fd) in E' as [_ ->]; [done|apply Hl; set_solver|done].
Qed.

(** exit: every descriptor of the process is closed. *)
Lemma close_files_fi p q k l : p ∈ slots -> (forall fd, fd ∈ l -> (fd < NOFILE)%nat) -> FI none q k ->
  wp (close_files p l) k (fun _ => FI none q) (fun _ _ => True).
Proof.
  intros Hp Hl. revert k. induction l as [|fd l IH]; intros k Hi; cbn [close_files]; tsteps; [done|].
  assert (fd < NOFILE)%nat as Hlt by (apply Hl; set_solver).
  destruct (Z.eqb_spec (fld k p (o_ofile (Z.of_nat fd))) 0) as [H0|H0].
  { step. apply IH; [set_solver|done]. }
  apply wp_bind. eapply file_ptr_fi; [exact Hi|done|done|done|]. intros i Hi' E. apply wp_bind.
  eapply wp_mono; [exact (wp_and _ _ _ _ _ _ (fileclose_fi _ _ _ i Hi) (fileclose_words k i))| |done].
  intros ? k1 [H1 Hw]. tsteps.
  apply IH; [intros fd' Hfd'; apply Hl, elem_of_cons; by right|].
  assert (fld k1 p (o_ofile (Z.of_nat fd)) = Z.of_nat i + 1) as E1.
  { rewrite <- E. apply (Hw (ofile_word p fd)). by apply elem_ofile_words. }
  eapply FI_ext; [exact (FI_clear _ _ p k1 fd i H1 Hp Hlt E1)|]. intros g. unfold plus, none. case_decide; lia.
Qed.
End ops.

(** What makes and drops descriptors: the system calls, and the loops of fork - on a
    slot without descriptors - and of exit. *)
Inductive fd_op `{Layout} (k : kern) : M kern unit -> Prop :=
  | F_dup : fd_op k (sys_dup ;; ret tt)
  | F_close : fd_op k (sys_close ;; ret tt)
  | F_open devread devwrite : fd_op k (sys_open devread devwrite ;; ret tt)
  | F_pipe : fd_op k (sys_pipe ;; ret tt)
  | F_fork np : np ∈ slots -> np <> proc k ->
      (forall fd, (fd < NOFILE)%nat -> fld k np (o_ofile (Z.of_nat fd)) = 0) ->
      fd_op k (dup_files (proc k) np (seq 0 NOFILE))
  | F_exit : fd_op k (close_files (proc k) (seq 0 NOFILE)).


(** ** Witness: a process with one open file forks *)

Definition one_file : kern :=
  set_files (fun f => mkFile (if decide (f = 0%nat) then FD_INODE else FD_NONE) (if decide (f = 0%nat) then 1 else 0)
                        true true 0 0 0)
    (set_tab (upd (ofile_word 1 0) 1 (fun _ => 0)) sample_kern).

Lemma count_zero f l : count (fun _ => 0) f l = 0.
Proof.
  induction l as [|w l IH]; [done|]. cbn [count]. rewrite IH. unfold points.
  by rewrite (proj2 (Z.eqb_neq 0 _)) by lia.
Qed.

Lemma one_file_inv : fd_inv none one_file.
Proof.
  assert (ofile_word 1 0 ∈ ofile_words) as Hw by (apply elem_ofile_words; [apply elem_slots; lia|unfold NOFILE; lia]).
  split.
  - intros f Hf. change (tab one_file) with (upd (ofile_word 1 0) 1 (fun _ => 0)).
    change (fref (files one_file f)) with (if decide (f = 0%nat) then 1 else 0).
    rewrite (count_upd _ f _ 1 _ NoDup_ofile_words Hw), count_zero. unfold points, none.
    rewrite (proj2 (Z.eqb_neq 0 _)) by lia. destruct (Z.eqb_spec 1 (Z.of_nat f + 1)); case_decide; lia.
  - intros w _. change (tab one_file) with (upd (ofile_word 1 0) 1 (fun _ => 0)).
    unfold upd. case_decide; unfold NFILE; lia.
Qed.

