(* ===== verification/Fork.v ===== *)
(** * fork

    fork (proc.c) as a whole, with a free slot and enough memory: the child has a copy
    of the parent's memory, trap frame, descriptors and directory, and returns 0. *)

From S2P Require Import Pipe Bytes FsFormat Fs Inode InodeData Dir.
From S2P Require Import Prelude Mmu Memory Kstate Kalloc PageTable Uvm Cow Boot Kernel Sched File.
From S2P Require Import Proc Syscall Sysproc Sysfile Exec Trap Smp Signal ProcTheorems FdRefs.
From S2P Require Import VmTheorems.

(** ** Copying the descriptors *)

(** What does not change when descriptors and counts do. *)
Definition rest_of (k : kern) : kst * fs * Z * Z * Z * (Z -> Pipe.pipe) * Z :=
  (km k, kf k, nextpid k, initproc k, proc k, pipes k, ticks k).

Lemma rest_of_eq k k' : rest_of k' = rest_of k -> km k' = km k /\ kf k' = kf k /\ nextpid k' = nextpid k /\ proc k' = proc k.
Proof. unfold rest_of. intros E. by simplify_eq. Qed.

(** [np] got the descriptors [l] of [p]. *)
Record dupped (p np : Z) (l : list nat) (k k' : kern) : Prop := {
  du_rest : rest_of k' = rest_of k;
  du_tab w : w ∉ map (ofile_word np) l -> tab k' w = tab k w;
  du_fd fd : fd ∈ l ->
    (fld k p (o_ofile (Z.of_nat fd)) = 0 -> fld k np (o_ofile (Z.of_nat fd)) = 0) ->
    fld k' np (o_ofile (Z.of_nat fd)) = fld k p (o_ofile (Z.of_nat fd));
  du_ref f : fref (files k' f) = fref (files k f) + count (tab k) f (map (ofile_word p) l) }.

(** The descriptors of [p] are pointers to open files, or null. *)
Definition fds_ok (p : Z) (l : list nat) (k : kern) : Prop :=
  forall fd, fd ∈ l -> let v := fld k p (o_ofile (Z.of_nat fd)) in
    0 <= v <= Z.of_nat NFILE /\ (v <> 0 -> 1 <= fref (files k (Z.to_nat (v - 1)))).

Lemma elem_map_word p l w : w ∈ map (ofile_word p) l -> exists fd, fd ∈ l /\ w = ofile_word p fd.
Proof.
  intros Hw. apply list_elem_of_In, in_map_iff in Hw as (fd & <- & Hfd). exists fd.
  split; [by apply list_elem_of_In|done].
Qed.

Lemma not_in_words q p fd l : (fd < NOFILE)%nat -> (forall x, x ∈ l -> (x < NOFILE)%nat) -> q <> p \/ fd ∉ l ->
  ofile_word q fd ∉ map (ofile_word p) l.
Proof.
  intros Hfd Hl Hne Hin. apply elem_map_word in Hin as (x & Hx & E).
  apply ofile_word_inj in E as [-> ->]; [|done|by apply Hl]. by destruct Hne.
Qed.

Lemma dup_files_ok p np l : np <> p -> NoDup l -> (forall fd, fd ∈ l -> (fd < NOFILE)%nat) -> forall k,
  fds_ok p l k -> wp (dup_files p np l) k (fun _ k' => dupped p np l k k') (fun _ _ => False).
Proof.
  intros Hne. induction l as [|fd l IH]; intros Hnd Hl k Hok; cbn [dup_files]; tsteps.
  { split; [done|done| |]; [by intros fd Hfd%elem_of_nil|]. intros f. cbn [map count]. lia. }
  apply NoDup_cons in Hnd as [Hfd Hnd]. assert (fd < NOFILE)%nat as Hlt by (apply Hl, elem_of_cons; by left).
  assert (forall x, x ∈ l -> (x < NOFILE)%nat) as Hl' by (intros x Hx; apply Hl, elem_of_cons; by right).
  destruct (Hok fd) as [Hv Hr]; [apply elem_of_cons; by left|].
  set (v := fld k p (o_ofile (Z.of_nat fd))) in *.
  destruct (Z.eqb_spec v 0) as [H0|H0].
  { step. eapply wp_mono; [apply (IH Hnd Hl')| |done].
    - intros x Hx. apply Hok, elem_of_cons. by right.
    - intros ? k' [D1 D2 D3 D4]. split; [done| | |].
      + intros w Hw. apply D2. intros Hin. apply Hw. cbn [map]. apply elem_of_cons. by right.
      + intros x [->|Hx]%elem_of_cons Hz; [|by apply D3]. fold v. rewrite H0, <- (Hz H0). apply D2.
        apply (not_in_words np np fd l Hlt Hl'). by right.
      + intros f. rewrite D4. cbn [map count]. unfold points.
        change (tab k (ofile_word p fd)) with v. rewrite H0, (proj2 (Z.eqb_neq 0 _)) by lia. lia. }
  specialize (Hr H0). unfold file_ptr. unfold NFILE in *.
  rewrite (proj2 (Z.leb_le 1 v)), (proj2 (Z.leb_le v _)) by lia. cbn [andb].
  set (i := Z.to_nat (v - 1)) in *. assert (v = Z.of_nat i + 1) as Ev by (unfold i; lia). clearbody i.
  tsteps. unfold filedup. tsteps. rewrite (proj2 (Z.ltb_ge _ _)) by lia. tsteps. rewrite <- Ev.
  set (k1 := set_fld np _ v _).
  assert (forall w, w <> ofile_word np fd -> tab k1 w = tab k w) as Ht by (intros w Hw; by apply upd_ne).
  assert (tab k1 (ofile_word np fd) = v) as Htn by apply upd_eq.
  assert (forall f, fref (files k1 f) = fref (files k f) + (if decide (f = i) then 1 else 0)) as Hf.
  { intros f. change (files k1) with (upd i (set_fref (fref (files k i) + 1) (files k i)) (files k)).
    unfold upd. case_decide; [subst; simpl|]; lia. }
  assert (forall x, (x < NOFILE)%nat -> tab k1 (ofile_word p x) = tab k (ofile_word p x)) as Htp.
  { intros x Hx. apply Ht. intros E. apply ofile_word_inj in E as [E _]; [congruence|done|done]. }
  assert (rest_of k1 = rest_of k) as Hrest by done. clearbody k1.
  eapply wp_mono; [apply (IH Hnd Hl' k1)| |done].
  - intros x Hx. destruct (Hok x) as [Hvx Hrx]; [apply elem_of_cons; by right|].
    change (fld k1 p (o_ofile (Z.of_nat x))) with (tab k1 (ofile_word p x)). rewrite Htp by by apply Hl'.
    split; [done|]. intros Hx0. specialize (Hrx Hx0). rewrite Hf.
    change (tab k (ofile_word p x)) with (fld k p (o_ofile (Z.of_nat x))). case_decide; lia.
  - intros ? k' [D1 D2 D3 D4]. split; [congruence| | |].
    + intros w Hw. cbn [map] in Hw. apply not_elem_of_cons in Hw as [Hw1 Hw2]. rewrite D2 by done. by apply Ht.
    + intros x [->|Hx]%elem_of_cons Hz.
      * fold v. transitivity (tab k1 (ofile_word np fd)); [|done]. apply D2.
        apply (not_in_words np np fd l Hlt Hl'). by right.
      * rewrite D3; [apply (Htp x); by apply Hl'|done|]. intros Hx0.
        rewrite <- Hz; [|by rewrite <- Hx0; symmetry; apply (Htp x), Hl'].
        apply Ht. intros E. apply ofile_word_inj in E as [_ ->]; [done|by apply Hl'|done].
    + intros f. rewrite D4, Hf. cbn [map count]. rewrite (count_ext (tab k) (tab k1)).
      * unfold points. change (tab k (ofile_word p fd)) with v. rewrite Ev, ptr_eq. case_decide; lia.
      * intros w Hw. apply elem_map_word in Hw as (x & Hx & ->). apply Htp. by apply Hl'.
Qed.

(** ** A new process, with a page for its stack *)

Ltac word_neq := unfold NOFILE, word, PROC_WORDS, o_sz, o_pgdir, o_kstack, o_state, o_pid, o_parent, o_tf, o_context, o_chan,
  o_killed, o_ofile, o_cwd, o_name, o_handlers, o_restorer, o_shared, SIGKILL, SIGFPE, SIGSEGV in *; lia.
Ltac words := unfold state, fld, set_fld; cbn [tab set_tab set_km set_kf set_nextpid nextpid];
  repeat first [ rewrite upd_eq | rewrite upd_ne by word_neq ]; try done.

Section fork.
Context `{Layout}.
Context (forkret trapret : Z).

Definition fill_stack (ks : Z) (m : gmap Z Z) : gmap Z Z :=
  let tf := ks + KSTACKSIZE - TF_SIZE in let ctx := tf - 4 - CONTEXT_SIZE in
  store32 (memset (store32 m (tf - 4) trapret) ctx 0 CONTEXT_SIZE) (ctx + ctx_eip) forkret.

Lemma fill_stack_frame ks m a : a < ks \/ ks + PGSIZE <= a -> load8 (fill_stack ks m) a = load8 m a.
Proof.
  intros Ha. unfold fill_stack, KSTACKSIZE, TF_SIZE, CONTEXT_SIZE, ctx_eip, PGSIZE in *.
  rewrite load8_store32_ne by lia. rewrite load8_memset by lia.
  destruct (Z.leb_spec (ks + 4096 - 76 - 4 - 20) a), (Z.ltb_spec a (ks + 4096 - 76 - 4 - 20 + 20)); simpl;
    try lia; by rewrite load8_store32_ne by lia.
Qed.

(** The state after allocproc took the slot [np] and the page [ks]. *)
Definition new_proc (np ks : Z) (k : kern) : kern :=
  let tf := ks + KSTACKSIZE - TF_SIZE in
  let s := km k in
  set_km (set_mem (fill_stack ks (mem s)) (set_freelist (load32 (mem s) ks) s))
    (set_nextpid (nextpid k + 1)
      (set_tab (new_words np ks tf (tf - 4 - CONTEXT_SIZE)
                  (upd (word np o_pid) (nextpid k) (upd (word np o_state) EMBRYO (tab k)))) k)).

Lemma find_state_total st l k : exists p, find_state st l k = Done p k.
Proof.
  induction l as [|q l [p IH]]; [by exists 0|]. cbn [find_state]. rewrite (bind_run (getf q o_state) _ k (state k q) k) by done.
  case_match; [by exists q|by exists p].
Qed.

Lemma alloc_slot_done k : held (km k) = [] -> (exists q, q ∈ slots /\ state k q = UNUSED) ->
  exists np, np ∈ slots /\ state k np = UNUSED /\
    alloc_slot k = Done np (set_nextpid (nextpid k + 1) (set_fld np o_pid (nextpid k) (set_fld np o_state EMBRYO k))).
Proof.
  intros Hl (q & Hq & Hu). destruct (find_state_total UNUSED slots (set_km (set_held [L_ptable] (km k)) k)) as [np E].
  pose proof (find_state_spec UNUSED slots (set_km (set_held [L_ptable] (km k)) k)) as Hs.
  unfold wp in Hs. rewrite E in Hs. destruct Hs as [_ [[_ Hno]|[Hin Hnp]]]; [by destruct (Hno q Hq)|].
  exists np. split; [done|]. split; [done|]. unfold alloc_slot.
  rewrite (bind_run _ _ k tt (set_km (set_held [L_ptable] (km k)) k)).
  2: { unfold on_km, acquire. rewrite Hl. done. }
  rewrite (bind_run _ _ _ _ _ E). rewrite (proj2 (Z.eqb_neq _ _)) by (apply elem_slots in Hin; lia).
  unfold bind, gets, setf, modify, on_km, release, ret. simpl.
  f_equal. destruct k as [[] ? ? ? ? ? ? ? ?]. simpl in *. by subst.
Qed.

Lemma allocproc_done k ks l : held (km k) = [] -> kinv (km k) (ks :: l) ->
  (exists q, q ∈ slots /\ state k q = UNUSED) ->
  exists np, np ∈ slots /\ state k np = UNUSED /\ allocproc forkret trapret k = Done np (new_proc np ks k).
Proof.
  intros Hl Hk Hu. destruct (alloc_slot_done k Hl Hu) as (np & Hin & Hs & E). exists np. split; [done|]. split; [done|].
  assert (ks <> 0) as Hks.
  { pose proof (kinv_pages _ _ Hk) as Hpg. apply Forall_cons in Hpg as [Hp _]. apply kpage_range in Hp. lia. }
  unfold allocproc. rewrite (bind_run _ _ _ _ _ E). rewrite (proj2 (Z.eqb_neq _ _)) by (apply elem_slots in Hin; lia).
  set (k1 := set_nextpid _ _). assert (kinv (km k1) (ks :: l)) as Hk1 by done.
  rewrite (bind_run (on_km kalloc) _ k1 ks (set_km (set_freelist (load32 (mem (km k1)) ks) (km k1)) k1)).
  2: { unfold on_km. by rewrite (kalloc_run (km k1) (ks :: l) Hk1). }
  cbv zeta. unfold bind at 1, setf at 1, modify at 1. rewrite (proj2 (Z.eqb_neq _ _)) by done. reflexivity.
Qed.

(** ** The child's own words, trap frame and descriptors *)

(** The trap frame at [ntf] is the one at [tf], with 0 in eax. *)
Definition tf_copied (m : gmap Z Z) (tf : Z) (m' : gmap Z Z) (ntf : Z) : Prop :=
  forall i, 0 <= i < TF_SIZE ->
    load8 m' (ntf + i) = if (tf_eax <=? i) && (i <? tf_eax + 4) then 0 else load8 m (tf + i).

(** Everything copy_proc does: words of other slots and memory outside the page [ks] stay. *)
Record child_copied (p np ks : Z) (k k' : kern) : Prop := {
  ch_km : km k' = set_mem (mem (km k')) (km k);
  ch_frame a : a < ks \/ ks + PGSIZE <= a -> load8 (mem (km k')) a = load8 (mem (km k)) a;
  ch_page a : ks <= a < ks + PGSIZE - TF_SIZE -> load8 (mem (km k')) a = load8 (mem (km k)) a;
  ch_tf : tf_copied (mem (km k)) (fld k p o_tf) (mem (km k')) (fld k np o_tf);
  ch_other w : (forall o, 0 <= o < PROC_WORDS -> w <> word np o) -> tab k' w = tab k w;
  ch_state : state k' np = RUNNABLE;
  ch_sz : fld k' np o_sz = fld k p o_sz;
  ch_parent : fld k' np o_parent = p;
  ch_cwd : fld k' np o_cwd = fld k p o_cwd;
  ch_keep o : o ∈ [o_pgdir; o_kstack; o_pid; o_tf; o_context] -> fld k' np o = fld k np o;
  ch_fd fd : (fd < NOFILE)%nat ->
    (fld k p (o_ofile (Z.of_nat fd)) = 0 -> fld k np (o_ofile (Z.of_nat fd)) = 0) ->
    fld k' np (o_ofile (Z.of_nat fd)) = fld k p (o_ofile (Z.of_nat fd));
  ch_ref f : fref (files k' f) = fref (files k f) + count (tab k) f (map (ofile_word p) (seq 0 NOFILE));
  ch_iref : let i := Z.to_nat (fld k p o_cwd - 1) in
    icache (kf k') = upd i (set_ref (iref (icache (kf k) i) + 1) (icache (kf k) i)) (icache (kf k)) }.

Lemma make_runnable_run np k : held (km k) = [] -> make_runnable np k = Done tt (set_fld np o_state RUNNABLE k).
Proof.
  intros Hl. unfold make_runnable.
  rewrite (bind_run _ _ k tt (set_km (set_held [L_ptable] (km k)) k)).
  2: { unfold on_km, acquire. rewrite Hl. done. }
  unfold bind, setf, modify, on_km, release, ret. simpl.
  f_equal. destruct k as [[] ? ? ? ? ? ? ? ?]. simpl in *. by subst.
Qed.

Lemma dupped_fld p np k k' q o : dupped p np (seq 0 NOFILE) k k' -> 0 <= o < PROC_WORDS ->
  q <> np \/ o < 10 \/ 26 <= o -> fld k' q o = fld k q o.
Proof.
  intros D Ho Hne. apply (du_tab _ _ _ _ _ D). intros Hin. apply elem_map_word in Hin as (x & Hx & E).
  apply elem_of_seq in Hx. unfold ofile_word in E. apply word_inj in E as [-> ->]; unfold o_ofile, NOFILE, PROC_WORDS in *; lia.
Qed.

(** The child after its size, parent and trap frame are set. *)
Definition child_head (np ks : Z) (k : kern) : kern :=
  let p := proc k in let ntf := ks + KSTACKSIZE - TF_SIZE in
  set_km (set_mem (store32 (memmove (mem (km k)) ntf (fld k p o_tf) TF_SIZE) (ntf + tf_eax) 0) (km k))
    (set_fld np o_parent p (set_fld np o_sz (fld k p o_sz) k)).

(** The child after the rest: its directory, its name, its state. *)
Definition child_tail (np : Z) (k : kern) : kern :=
  let p := proc k in let cwd := fld k p o_cwd in let i := Z.to_nat (cwd - 1) in
  let f := kf k in let ip := icache f i in
  let name b := flat_map (fun j => bytes_of_word (fld b p (o_name + Z.of_nat j))) (seq 0 4) in
  let old b := flat_map (fun j => bytes_of_word (fld b np (o_name + Z.of_nat j))) (seq 0 4) in
  let k1 := set_fld np o_cwd cwd
              (set_kf (mkFs (fb f) (flog f) (upd i (set_ref (iref ip + 1) ip) (icache f)) i) k) in
  let l := copy_name 16 (name k1) (old k1) in
  set_fld np o_state RUNNABLE
    (set_fld np (o_name + 3) (rd 4 12 l) (set_fld np (o_name + 2) (rd 4 8 l)
      (set_fld np (o_name + 1) (rd 4 4 l) (set_fld np o_name (rd 4 0 l) k1)))).

Lemma idup_run i k : on_fs (idup i) k =
  Done i (set_kf (mkFs (fb (kf k)) (flog (kf k)) (upd i (set_ref (iref (icache (kf k) i) + 1) (icache (kf k) i)) (icache (kf k)))
                    (Z.to_nat (fld k (proc k) o_cwd - 1))) k).
Proof. reflexivity. Qed.

Lemma copy_proc_wp k np ks : let p := proc k in
  np <> p -> held (km k) = [] -> fld k np o_tf = ks + KSTACKSIZE - TF_SIZE ->
  fds_ok p (seq 0 NOFILE) k -> 1 <= fld k p o_cwd <= Z.of_nat NINODE ->
  returns (copy_proc np) k (fun pid k' => pid = fld k np o_pid /\
    exists k1, dupped p np (seq 0 NOFILE) (child_head np ks k) k1 /\ k' = child_tail np k1).
Proof.
  intros p Hne Hl Htf Hfds Hcwd. unfold copy_proc.
  tsteps. fold p. tsteps.
  assert (forall q, fld (set_fld np o_parent p (set_fld np o_sz (fld k p o_sz) k)) q o_tf = fld k q o_tf) as E
    by (intros q; words).
  rewrite !E, Htf. apply wp_on_km. unfold on_mem. tsteps. apply wp_on_km. unfold store. tsteps.
  match goal with |- wp ?c _ ?Q ?R => change (wp c (child_head np ks k) Q R) end.
  set (k0 := child_head np ks k).
  assert (forall q o, q <> np \/ o <> o_sz -> q <> np \/ o <> o_parent -> 0 <= o < PROC_WORDS -> fld k0 q o = fld k q o) as Hk0.
  { intros q o H1 H2 Ho. unfold k0, child_head. words. }
  eapply wp_mono; [apply (dup_files_ok p np (seq 0 NOFILE) Hne (NoDup_seq _ _))| |done].
  { intros fd Hfd%elem_of_seq. unfold NOFILE in *. lia. }
  { intros fd Hfd. rewrite Hk0 by (unfold o_ofile, PROC_WORDS; apply elem_of_seq in Hfd; unfold NOFILE in *; naive_solver lia).
    by apply Hfds. }
  intros ? k1 Hd. cbn beta in *.
  destruct (rest_of_eq _ _ (du_rest _ _ _ _ _ Hd)) as (Hkm & Hkf & _ & Hp). change (proc k0) with p in Hp.
  assert (held (km k1) = []) as Hl1 by by rewrite Hkm.
  assert (fld k1 p o_cwd = fld k p o_cwd) as Ec.
  { rewrite (dupped_fld p np k0 k1) by (done || word_neq). apply Hk0; [left; congruence|left; congruence|done]. }
  assert (fld k1 np o_pid = fld k np o_pid) as Ep.
  { rewrite (dupped_fld p np k0 k1) by (done || word_neq). apply Hk0; [by right|by right|done]. }
  tsteps. unfold inode_ptr. rewrite Ec, (proj2 (Z.leb_le 1 _)), (proj2 (Z.leb_le _ (Z.of_nat NINODE))) by lia.
  cbn [andb]. tsteps. rewrite <- Ec. unfold wp at 1. rewrite idup_run, Hp. cbv iota beta.
  assert (Z.of_nat (Z.to_nat (fld k1 p o_cwd - 1)) + 1 = fld k1 p o_cwd) as -> by lia.
  unfold get_name, safestrcpy_name, put_name. tsteps. unfold get_name. tsteps.
  unfold wp at 1. rewrite make_runnable_run by done. cbv iota beta. tsteps.
  split.
  - rewrite <- Ep. words.
  - exists k1. split; [done|]. unfold child_tail. rewrite Hp. reflexivity.
Qed.

(** The words the two definitions leave alone. *)
Lemma head_tab np ks k w : w <> word np o_sz -> w <> word np o_parent -> tab (child_head np ks k) w = tab k w.
Proof. intros. unfold child_head. unfold set_fld. cbn [tab set_tab set_km]. by rewrite !upd_ne. Qed.

Lemma tail_tab np k w : w <> word np o_cwd -> w <> word np o_state ->
  (forall i, 0 <= i < 4 -> w <> word np (o_name + i)) -> tab (child_tail np k) w = tab k w.
Proof.
  intros H1 H2 H3. unfold child_tail, set_fld. cbn [tab set_tab set_kf].
  rewrite !upd_ne; [done|done|..|done].
  - rewrite <- (Z.add_0_r o_name). apply H3. lia.
  - apply H3. lia.
  - apply H3. lia.
  - apply H3. lia.
Qed.

Lemma head_mem np ks k : let m := mem (km k) in let m' := mem (km (child_head np ks k)) in
  (forall a, a < ks + KSTACKSIZE - TF_SIZE \/ ks + PGSIZE <= a -> load8 m' a = load8 m a) /\
  tf_copied m (fld k (proc k) o_tf) m' (ks + KSTACKSIZE - TF_SIZE).
Proof.
  intros m m'. unfold m', child_head. cbn [km set_km mem set_mem]. fold m.
  unfold tf_copied, KSTACKSIZE, TF_SIZE, tf_eax, PGSIZE. split.
  - intros a Ha. rewrite load8_store32_ne, load8_memmove by lia.
    destruct (Z.leb_spec (ks + 4096 - 76) a), (Z.ltb_spec a (ks + 4096 - 76 + 76)); simpl; done || lia.
  - intros i Hi. set (t := ks + 4096 - 76). rewrite load8_store32, load8_memmove by lia.
    rewrite (proj2 (Z.leb_le t (t + i))), (proj2 (Z.ltb_lt (t + i) (t + 76))) by lia. cbn [andb].
    replace (t + i - t) with i by lia.
    destruct (Z.leb_spec 28 i), (Z.ltb_spec i (28 + 4)), (Z.leb_spec (t + 28) (t + i)), (Z.ltb_spec (t + i) (t + 28 + 4));
      simpl; done || lia.
Qed.

(** The fields of the child that copy_proc writes. *)
Definition written (o : Z) : Prop :=
  o = o_sz \/ o = o_parent \/ o = o_cwd \/ o = o_state \/ 10 <= o < 26 \/ 27 <= o < 31.

Lemma copied_tab p np ks k k1 : dupped p np (seq 0 NOFILE) (child_head np ks k) k1 ->
  forall w, (forall o, 0 <= o < PROC_WORDS -> written o -> w <> word np o) -> tab (child_tail np k1) w = tab k w.
Proof.
  intros Hd w Hw. unfold written in Hw.
  assert (forall o, o = o_sz \/ o = o_parent \/ o = o_cwd \/ o = o_state \/ 10 <= o < 26 \/ 27 <= o < 31 -> w <> word np o) as Hw'
    by (intros o Ho; apply Hw; [word_neq|done]).
  rewrite tail_tab.
  - rewrite (du_tab _ _ _ _ _ Hd).
    + apply head_tab; apply Hw'; word_neq.
    + intros Hin. apply elem_map_word in Hin as (x & Hx & ->). apply elem_of_seq in Hx.
      apply (Hw' (o_ofile (Z.of_nat x))); [word_neq|done].
  - apply Hw'. word_neq.
  - apply Hw'. word_neq.
  - intros i Hi. apply Hw'. word_neq.
Qed.

Lemma copy_proc_ok k np ks : let p := proc k in
  np <> p -> held (km k) = [] -> fld k np o_tf = ks + KSTACKSIZE - TF_SIZE ->
  fds_ok p (seq 0 NOFILE) k -> 1 <= fld k p o_cwd <= Z.of_nat NINODE ->
  returns (copy_proc np) k (fun pid k' => pid = fld k np o_pid /\ child_copied p np ks k k').
Proof.
  intros p Hne Hl Htf Hfds Hcwd. eapply wp_mono; [by apply (copy_proc_wp k np ks)| |done].
  intros pid k' (-> & k1 & Hd & ->). split; [done|]. fold p in Hd.
  destruct (rest_of_eq _ _ (du_rest _ _ _ _ _ Hd)) as (Hkm & Hkf & _ & Hp).
  change (proc (child_head np ks k)) with p in Hp.
  assert (mem (km (child_tail np k1)) = mem (km (child_head np ks k))) as Em by by rewrite <- Hkm.
  destruct (head_mem np ks k) as [Hm1 Hm2].
  pose proof (copied_tab p np ks k k1 Hd) as Hw.
  assert (forall fd, (fd < NOFILE)%nat -> fld (child_head np ks k) p (o_ofile (Z.of_nat fd)) = fld k p (o_ofile (Z.of_nat fd)) /\
    fld (child_head np ks k) np (o_ofile (Z.of_nat fd)) = fld k np (o_ofile (Z.of_nat fd))) as Hh
    by (intros fd Hfd; split; apply head_tab; word_neq).
  split.
  - rewrite Em. change (km (child_tail np k1)) with (km k1). by rewrite Hkm.
  - intros a Ha. rewrite Em. apply Hm1. unfold KSTACKSIZE, TF_SIZE, PGSIZE in *. lia.
  - intros a Ha. rewrite Em. apply Hm1. unfold KSTACKSIZE, TF_SIZE, PGSIZE in *. lia.
  - by rewrite Em, Htf.
  - intros w Hne'. apply Hw. intros o Ho _. by apply Hne'.
  - unfold child_tail. words.
  - unfold fld. rewrite tail_tab by (intros; word_neq). fold (fld k1 np o_sz).
    rewrite (dupped_fld p np _ k1 np o_sz Hd) by (done || word_neq). unfold child_head. words.
  - unfold fld. rewrite tail_tab by (intros; word_neq). fold (fld k1 np o_parent).
    rewrite (dupped_fld p np _ k1 np o_parent Hd) by (done || word_neq). unfold child_head. words.
  - unfold child_tail. rewrite Hp. words. fold (fld k1 p o_cwd) (fld k p o_cwd).
    rewrite (dupped_fld p np _ k1 p o_cwd Hd) by (done || word_neq). apply head_tab; word_neq.
  - intros o Ho. apply Hw. intros o' Ho' Hin E. unfold written in Hin.
    repeat (apply elem_of_cons in Ho as [->|Ho]); word_neq || by apply elem_of_nil in Ho.
  - intros fd Hfd Hz. destruct (Hh fd Hfd) as [E1 E2]. rewrite <- E1. unfold fld at 1.
    rewrite tail_tab by (intros; word_neq). apply (du_fd _ _ _ _ _ Hd); [apply elem_of_seq; lia|by rewrite E1, E2].
  - intros f. change (files (child_tail np k1)) with (files k1). rewrite (du_ref _ _ _ _ _ Hd). f_equal.
    apply count_ext. intros w Hin. apply elem_map_word in Hin as (x & Hx & ->). apply elem_of_seq in Hx. apply (Hh x). lia.
  - unfold child_tail. rewrite Hp. cbn [kf set_fld set_tab set_kf icache]. rewrite Hkf.
    rewrite (dupped_fld p np _ k1 p o_cwd Hd) by (done || word_neq).
    assert (fld (child_head np ks k) p o_cwd = fld k p o_cwd) as -> by (apply head_tab; word_neq). done.
Qed.

(** ** The memory of parent and child *)

Lemma outside_agree m m' ks q : (forall a, a < ks \/ ks + PGSIZE <= a -> load8 m' a = load8 m a) ->
  kpage ks -> kpage q -> q <> ks -> agree m m' q PGSIZE.
Proof.
  intros Hout (Hk & _) (Hq & _) Hne a Ha. apply Hout. unfold PGSIZE in *.
  pose proof (Z.div_mod ks 4096 ltac:(done)). pose proof (Z.div_mod q 4096 ltac:(done)). lia.
Qed.

(** copyuvm between writes to the stack of the child. *)
Lemma fork_memory s s1 s' s2 pgdir sz ks l d free' :
  kinv s (ks :: l) -> uvm_wf (mem s) pgdir sz (ks :: l) ->
  (forall a, a < ks \/ ks + PGSIZE <= a -> load8 (mem s1) a = load8 (mem s) a) ->
  kinv s' free' -> uvm_wf (mem s') d sz free' -> copied s1 pgdir sz d s' -> untouched s1 l s' ->
  (forall q, q ∈ free' -> q ∈ l) -> (forall q, owned (mem s') d q -> q ∈ l) ->
  (forall va, 0 <= va < sz -> upage (mem s') d va ∈ l) ->
  s2 = set_mem (mem s2) s' -> (forall a, a < ks \/ ks + PGSIZE <= a -> load8 (mem s2) a = load8 (mem s') a) ->
  untouched s (ks :: l) s2 /\ kinv s2 free' /\ uvm_wf (mem s2) d sz free' /\ uvm_wf (mem s2) pgdir sz free' /\
  copied s pgdir sz d s2.
Proof.
  intros Hk Hwf Hs1 Hk' Hd [C1 C2 C3 C4] Hu Hsub Hown Hup Hs2 Hout.
  pose proof (kinv_nodup _ _ Hk) as Hnd. apply NoDup_cons in Hnd as [Hks _].
  pose proof (kinv_pages _ _ Hk) as Hpg. apply Forall_cons in Hpg as [Hpk Hpl].
  assert (untouched s (ks :: l) s1) as H1.
  { intros q Hq Hf. apply not_elem_of_cons in Hf as [Hf _]. by apply (outside_agree _ _ ks). }
  assert (forall q, kpage q -> q <> ks -> agree (mem s') (mem s2) q PGSIZE) as H2
    by (intros; by apply (outside_agree _ _ ks)).
  assert (untouched s (ks :: l) s2) as H3.
  { intros q Hq Hf. pose proof Hf as [Hf1 Hf2]%not_elem_of_cons. eapply agree_trans; [by apply H1|].
    eapply agree_trans; [by apply Hu|by apply H2]. }
  assert (uvm_wf (mem s') d sz (ks :: free')) as Hd'.
  { apply uvm_wf_cons; [done| |].
    - intros Ho. by apply Hks, Hown.
    - intros va Hva E. apply Hks. rewrite <- E. by apply Hup. }
  assert (forall q, kpage q -> q ∉ ks :: free' -> agree (mem s') (mem s2) q PGSIZE) as H4.
  { intros q Hq [Hf _]%not_elem_of_cons. by apply H2. }
  assert (forall q, q ∈ free' -> q ∈ ks :: free') as Hc by (intros q ?; apply elem_of_cons; by right).
  assert (forall q, q ∈ free' -> q ∈ ks :: l) as Hc' by (intros q ?; apply elem_of_cons; right; auto).
  split; [done|]. split.
  { rewrite Hs2. apply kinv_frame; [done|]. intros q Hq. apply H2.
    - eapply Forall_forall; [exact Hpl|auto].
    - intros ->. auto. }
  split; [by apply (uvm_wf_frame s' s2 d sz (ks :: free'))|].
  split; [by apply (uvm_wf_frame s s2 pgdir sz (ks :: l))|].
  assert (forall va, pte (mem s2) d va = pte (mem s') d va) as Pd by (intros; by apply (pte_frame s' s2 d sz (ks :: free'))).
  assert (forall va, pte (mem s1) pgdir va = pte (mem s) pgdir va) as P1 by (intros; by apply (pte_frame s s1 pgdir sz (ks :: l))).
  split.
  - intros va Hva. rewrite (ubyte_frame s' s2 d sz (ks :: free')), C1 by done. by apply (ubyte_frame s s1 pgdir sz (ks :: l)).
  - intros va Hva. by rewrite Pd, C2, P1.
  - intros va Hva. by apply (ubyte_frame s s2 pgdir sz (ks :: l)).
  - intros va va' Hva Hva' E. unfold upage at 1 in E. rewrite Pd in E. fold (upage (mem s') d va) in E.
    assert (upage (mem s2) pgdir va' = upage (mem s) pgdir va') as E2
      by (unfold upage; by rewrite (pte_frame s s2 pgdir sz (ks :: l))).
    destruct (uw_in _ _ _ _ Hwf va' Hva') as (_ & _ & _ & Hn). apply Hn. rewrite <- E2, <- E.
    apply elem_of_cons. right. by apply Hup.
Qed.

(** ** fork *)

(** The running process can fork: a slot and memory are free, and its own words are in
    order.  The slot before it is in use: allocproc writes into the slot after the one
    it takes. *)
Record can_fork (k : kern) (ks : Z) (l : list Z) : Prop := {
  cf_held : held (km k) = [];
  cf_free : kinv (km k) (ks :: l);
  cf_uvm : uvm_wf (mem (km k)) (fld k (proc k) o_pgdir) (fld k (proc k) o_sz) (ks :: l);
  cf_room : KVM_PAGES + 2 * Z.of_nat (new_pages 0 (fld k (proc k) o_sz)) <= Z.of_nat (length l);
  cf_slot : exists q, q ∈ slots /\ state k q = UNUSED;
  cf_proc : state k (proc k) <> UNUSED;
  cf_prev : state k (proc k - 1) <> UNUSED \/ proc k = 1;
  cf_tf : exists t, kpage t /\ t ∉ ks :: l /\ t <= fld k (proc k) o_tf /\ fld k (proc k) o_tf + TF_SIZE <= t + PGSIZE;
  cf_fds : fds_ok (proc k) (seq 0 NOFILE) k;
  cf_unused q fd : q ∈ slots -> state k q = UNUSED -> (fd < NOFILE)%nat ->
    fld k (proc k) (o_ofile (Z.of_nat fd)) = 0 -> fld k q (o_ofile (Z.of_nat fd)) = 0;
  cf_cwd : 1 <= fld k (proc k) o_cwd <= Z.of_nat NINODE }.

(** The process in the slot [np] is a copy of the running one. *)
Record forked (k k' : kern) (np : Z) : Prop := {
  fk_slot : np ∈ slots /\ state k np = UNUSED /\ state k' np = RUNNABLE;
  fk_pid : fld k' np o_pid = nextpid k;
  fk_parent : fld k' np o_parent = proc k;
  fk_sz : fld k' np o_sz = fld k (proc k) o_sz;
  fk_mem : exists free', kinv (km k') free' /\
    uvm_wf (mem (km k')) (fld k' np o_pgdir) (fld k' np o_sz) free' /\
    uvm_wf (mem (km k')) (fld k (proc k) o_pgdir) (fld k (proc k) o_sz) free' /\
    copied (km k) (fld k (proc k) o_pgdir) (fld k (proc k) o_sz) (fld k' np o_pgdir) (km k');
  fk_tf : tf_copied (mem (km k)) (fld k (proc k) o_tf) (mem (km k')) (fld k' np o_tf);
  fk_stack : kstack_ready (mem (km k')) (fld k' np o_kstack) (fld k' np o_tf) (fld k' np o_context) forkret trapret;
  fk_fds fd : (fd < NOFILE)%nat -> fld k' np (o_ofile (Z.of_nat fd)) = fld k (proc k) (o_ofile (Z.of_nat fd));
  fk_refs f : fref (files k' f) = fref (files k f) + count (tab k) f (map (ofile_word (proc k)) (seq 0 NOFILE));
  fk_cwd : fld k' np o_cwd = fld k (proc k) o_cwd;
  fk_iref : let i := Z.to_nat (fld k (proc k) o_cwd - 1) in
    icache (kf k') = upd i (set_ref (iref (icache (kf k) i) + 1) (icache (kf k) i)) (icache (kf k));
  fk_self o : 0 <= o < PROC_WORDS -> fld k' (proc k) o = fld k (proc k) o;
  fk_other q o : q <> np -> q <> np + 1 \/ o <> o_ofile 0 -> 0 <= o < PROC_WORDS -> fld k' q o = fld k q o }.

Lemma new_proc_fld np ks k q o : q <> np -> q <> np + 1 \/ o <> o_ofile 0 -> 0 <= o < PROC_WORDS ->
  fld (new_proc np ks k) q o = fld k q o.
Proof. intros Hq Hq1 Ho. unfold new_proc, new_words. words. Qed.

Lemma new_proc_ofile np ks k fd : (fd < NOFILE)%nat ->
  fld (new_proc np ks k) np (o_ofile (Z.of_nat fd)) = fld k np (o_ofile (Z.of_nat fd)).
Proof. intros Hfd. unfold new_proc, new_words. words. Qed.

Lemma new_proc_mem np ks k l : kinv (km k) (ks :: l) ->
  kinv (km (new_proc np ks k)) l /\
  (forall a, a < ks \/ ks + PGSIZE <= a -> load8 (mem (km (new_proc np ks k))) a = load8 (mem (km k)) a).
Proof.
  intros Hk. pose proof (kinv_nodup _ _ Hk) as Hnd. apply NoDup_cons in Hnd as [Hks _].
  pose proof (kinv_pages _ _ Hk) as Hpg. apply Forall_cons in Hpg as [Hpk Hpl].
  assert (forall a, a < ks \/ ks + PGSIZE <= a -> load8 (mem (km (new_proc np ks k))) a = load8 (mem (km k)) a) as Hout
    by (intros a Ha; by apply fill_stack_frame).
  split; [|done]. apply (kinv_frame (set_freelist (load32 (mem (km k)) ks) (km k))); [by apply kinv_kalloc|].
  intros q Hq. apply (outside_agree _ _ ks); [exact Hout|done| |].
  - by eapply Forall_forall.
  - intros ->. done.
Qed.

(** The stack allocproc prepared is still there after the copy. *)
Lemma stack_kept np ks k s' k2 l : kinv (km k) (ks :: l) -> untouched (km (new_proc np ks k)) l s' ->
  mem (km k2) = mem s' -> forall k' p, child_copied p np ks k2 k' ->
  kstack_ready (mem (km k')) ks (ks + KSTACKSIZE - TF_SIZE) (ks + KSTACKSIZE - TF_SIZE - 4 - CONTEXT_SIZE) forkret trapret.
Proof.
  intros Hk Hu Hm k' p Hc. pose proof (kinv_nodup _ _ Hk) as Hnd. apply NoDup_cons in Hnd as [Hks _].
  pose proof (kinv_pages _ _ Hk) as Hpg. apply Forall_cons in Hpg as [Hpk _].
  destruct (stack_ready forkret trapret (mem (km k)) ks) as (_ & _ & R1 & R2 & R3).
  assert (forall a, ks <= a < ks + PGSIZE - TF_SIZE -> load8 (mem (km k')) a = load8 (mem (km (new_proc np ks k))) a) as Ha.
  { intros a Ha. rewrite (ch_page _ _ _ _ _ Hc) by done. rewrite Hm. apply (Hu ks Hpk Hks). unfold TF_SIZE in Ha. lia. }
  unfold KSTACKSIZE, TF_SIZE, CONTEXT_SIZE, ctx_eip, PGSIZE in *. split; [done|]. split; [done|]. split; [|split].
  - rewrite <- R1. apply load32_ext. intros i Hi. apply Ha. lia.
  - rewrite <- R2. apply load32_ext. intros i Hi. apply Ha. lia.
  - intros i Hi. rewrite <- (R3 i Hi). apply Ha. lia.
Qed.

(** The state after copyuvm returned [d]. *)
Definition with_dir (np ks d : Z) (s' : kst) (k : kern) : kern :=
  set_fld np o_pgdir d (set_km s' (new_proc np ks k)).

Lemma with_dir_fld np ks d s' k q o : q <> np -> q <> np + 1 \/ o <> o_ofile 0 -> 0 <= o < PROC_WORDS ->
  fld (with_dir np ks d s' k) q o = fld k q o.
Proof. intros Hq Hq1 Ho. rewrite <- (new_proc_fld np ks k q o) by done. unfold with_dir. words. Qed.

Lemma with_dir_own np ks d s' k : let k2 := with_dir np ks d s' k in let tf := ks + KSTACKSIZE - TF_SIZE in
  fld k2 np o_pgdir = d /\ fld k2 np o_pid = nextpid k /\ fld k2 np o_kstack = ks /\ fld k2 np o_tf = tf /\
  fld k2 np o_context = tf - 4 - CONTEXT_SIZE /\
  forall fd, (fd < NOFILE)%nat -> fld k2 np (o_ofile (Z.of_nat fd)) = fld k np (o_ofile (Z.of_nat fd)).
Proof.
  intros k2 tf. unfold k2, with_dir, new_proc, new_words. repeat split; [words..|]. intros fd Hfd. words.
Qed.

Lemma forked_intro k ks l np d s' free' k' : can_fork k ks l ->
  np ∈ slots -> state k np = UNUSED -> np <> proc k -> proc k <> np + 1 ->
  kinv s' free' -> uvm_wf (mem s') d (fld k (proc k) o_sz) free' ->
  copied (km (new_proc np ks k)) (fld k (proc k) o_pgdir) (fld k (proc k) o_sz) d s' ->
  untouched (km (new_proc np ks k)) l s' ->
  (forall q, q ∈ free' -> q ∈ l) -> (forall q, owned (mem s') d q -> q ∈ l) ->
  (forall va, 0 <= va < fld k (proc k) o_sz -> upage (mem s') d va ∈ l) ->
  child_copied (proc k) np ks (with_dir np ks d s' k) k' -> forked k k' np.
Proof.
  intros Hcf Hnp Hu Hne Hne1 Hk' Hd Hc Hun Hsub Hown Hup Hch.
  set (k2 := with_dir np ks d s' k) in *. pose proof (with_dir_fld np ks d s' k) as Hk2. fold k2 in Hk2.
  destruct (with_dir_own np ks d s' k) as (O1 & O2 & O3 & O4 & O5 & O6). fold k2 in O1, O2, O3, O4, O5, O6.
  assert (forall o, 0 <= o < PROC_WORDS -> fld k2 (proc k) o = fld k (proc k) o) as Hself
    by (intros o Ho; apply Hk2; [done|by left|done]).
  assert (forall fd, (fd < NOFILE)%nat -> fld k2 (proc k) (o_ofile (Z.of_nat fd)) = fld k (proc k) (o_ofile (Z.of_nat fd))) as Hfd
    by (intros fd ?; apply Hself; word_neq).
  destruct (new_proc_mem np ks k l (cf_free _ _ _ Hcf)) as [_ Hout].
  destruct (fork_memory (km k) (km (new_proc np ks k)) s' (km k') (fld k (proc k) o_pgdir) (fld k (proc k) o_sz) ks l d free')
    as (Huo & M1 & M2 & M3 & M4); try done; [apply Hcf|apply Hcf|apply Hch|apply Hch|].
  assert (forall o, o ∈ [o_pgdir; o_kstack; o_pid; o_tf; o_context] -> fld k' np o = fld k2 np o) as Hkeep by apply Hch.
  assert (forall q o, q <> np -> 0 <= o < PROC_WORDS -> fld k' q o = fld k2 q o) as Hoth.
  { intros q o Hq Ho. apply (ch_other _ _ _ _ _ Hch). intros o' Ho' E. apply word_inj in E as [? _]; done. }
  assert (fld k' np o_sz = fld k (proc k) o_sz) as Hsz by (rewrite (ch_sz _ _ _ _ _ Hch); by apply Hself).
  split.
  - split; [done|]. split; [done|]. apply Hch.
  - rewrite Hkeep by set_solver. done.
  - apply Hch.
  - done.
  - exists free'. rewrite Hsz, Hkeep, O1 by set_solver. done.
  - rewrite Hkeep, O4 by set_solver. intros i Hi. pose proof (ch_tf _ _ _ _ _ Hch i Hi) as Ht.
    rewrite Hself, O4 in Ht by done. rewrite Ht. destruct (_ && _); [done|].
    destruct (cf_tf _ _ _ Hcf) as (t & Ht1 & Ht2 & Ht3 & Ht4). change (mem (km k2)) with (mem s').
    apply not_elem_of_cons in Ht2 as [Hk0 Hl0]. rewrite (Hun t Ht1 Hl0) by (unfold TF_SIZE in *; lia).
    apply (outside_agree _ _ ks t Hout); [|done|done|unfold TF_SIZE in *; lia].
    pose proof (kinv_pages _ _ (cf_free _ _ _ Hcf)) as Hpg. by apply Forall_cons in Hpg as [Hpg _].
  - rewrite !Hkeep, O3, O4, O5 by set_solver.
    by apply (stack_kept np ks k s' k2 l (cf_free _ _ _ Hcf) Hun eq_refl k' (proc k)).
  - intros fd Hlt. rewrite (ch_fd _ _ _ _ _ Hch fd Hlt); [by apply Hfd|].
    rewrite Hfd, O6 by done. by apply (cf_unused _ _ _ Hcf).
  - intros f. rewrite (ch_ref _ _ _ _ _ Hch). change (files k2) with (files k). f_equal.
    apply count_ext. intros w Hw. apply elem_map_word in Hw as (x & Hx & ->). apply elem_of_seq in Hx. apply Hfd. lia.
  - rewrite (ch_cwd _ _ _ _ _ Hch). by apply Hself.
  - pose proof (ch_iref _ _ _ _ _ Hch) as Hi. rewrite Hself in Hi by done. exact Hi.
  - intros o Ho. rewrite Hoth by done. by apply Hself.
  - intros q o Hq Hq1 Ho. rewrite Hoth by done. by apply Hk2.
Qed.

Lemma fork_run k ks l : can_fork k ks l ->
  returns (fork forkret trapret) k (fun pid k' => pid = nextpid k /\ exists np, forked k k' np).
Proof.
  intros Hcf. pose proof Hcf as [Hl Hk Hwf Hroom Hslot Hp Hprev _ Hfds _ Hcwd].
  destruct (allocproc_done k ks l Hl Hk Hslot) as (np & Hnp & Hu & E).
  assert (np <> proc k) as Hne by congruence.
  assert (proc k <> np + 1) as Hne1.
  { intros E1. destruct Hprev as [Hv|Hv]; [apply Hv; rewrite E1; by replace (np + 1 - 1) with np by lia|].
    apply elem_slots in Hnp. lia. }
  assert (forall o, 0 <= o < PROC_WORDS -> fld (new_proc np ks k) (proc k) o = fld k (proc k) o) as Hself
    by (intros o Ho; apply new_proc_fld; [done|by left|done]).
  unfold fork, fork_with. apply wp_bind. eapply wp_run; [exact E|]. cbv beta.
  rewrite (proj2 (Z.eqb_neq np 0)) by (apply elem_slots in Hnp; lia). tsteps.
  change (proc (new_proc np ks k)) with (proc k). tsteps.
  rewrite !Hself by done. set (k1 := new_proc np ks k) in *.
  destruct (new_proc_mem np ks k l Hk) as [Hk1 Hout]. fold k1 in Hk1, Hout.
  apply wp_on_km. eapply wp_mono; [apply (copyuvm_run _ _ (km k1) l Hk1)| |done]; [|exact Hroom|].
  { pose proof (kinv_pages _ _ Hk) as Hpg. apply Forall_cons in Hpg as [Hpg _].
    apply (uvm_wf_frame (km k) (km k1) _ _ (ks :: l)); [|intros; apply elem_of_cons; by right|done].
    intros q Hq [Hf _]%not_elem_of_cons. by apply (outside_agree _ _ ks). }
  intros d s' (free' & Hd & Hk' & Hd' & _ & Hc & Hun' & Hr & Hsub & Hown & Hup). cbv beta. tsteps.
  assert (d <> 0) as Hd0.
  { pose proof (kinv_pages _ _ Hk1) as Hpg. eapply Forall_forall in Hpg; [|exact Hd]. apply kpage_range in Hpg. lia. }
  rewrite (proj2 (Z.eqb_neq d 0)) by done. change (set_fld np o_pgdir d (set_km s' k1)) with (with_dir np ks d s' k).
  set (k2 := with_dir np ks d s' k). pose proof (with_dir_fld np ks d s' k) as Hk2. fold k2 in Hk2.
  destruct (with_dir_own np ks d s' k) as (_ & O2 & _ & O4 & _). fold k2 in O2, O4.
  apply wp_bind. eapply wp_mono; [apply (copy_proc_ok k2 np ks)| |done]; change (proc k2) with (proc k).
  - done.
  - apply (f_equal (fun r => r.1.2)) in Hr. rewrite <- Hl. exact Hr.
  - done.
  - intros fd Hfd. apply elem_of_seq in Hfd. rewrite Hk2; [|done|by left|word_neq].
    apply Hfds, elem_of_seq. lia.
  - by rewrite Hk2 by (done || by left).
  - intros pid k' [-> Hch]. tsteps. split; [done|]. exists np. by apply (forked_intro k ks l np d s' free').
Qed.
End fork.


(** ** A process that can fork *)

(** The process in slot 1 has the page table [d], a trap frame in the page [t] and one
    open file. *)
Definition fork_tab (d t : Z) : Z -> Z :=
  upd (word 1 o_state) RUNNING (upd (word 1 o_pgdir) d (upd (word 1 o_sz) (2 * PGSIZE)
    (upd (word 1 o_tf) (t + KSTACKSIZE - TF_SIZE) (upd (word 1 o_cwd) 1 (upd (ofile_word 1 0) 1 (fun _ => 0)))))).
Definition fork_kern (d t : Z) (s : kst) : kern := set_km s (set_tab (fork_tab d t) one_file).

Lemma fork_tab_ofile d t q fd : (fd < NOFILE)%nat ->
  fork_tab d t (ofile_word q fd) = if decide (q = 1 /\ fd = 0%nat) then 1 else 0.
Proof.
  intros Hfd. unfold fork_tab, ofile_word. case_decide as Hc.
  - destruct Hc as [-> ->]. words.
  - destruct (decide (q = 1)) as [->|].
    + assert (fd <> 0%nat) by naive_solver. words.
    + words.
Qed.

Lemma can_fork_first d s t ks l : first_state d s (t :: ks :: l) ->
  can_fork (fork_kern d t (set_freelist (load32 (mem s) t) s)) ks l.
Proof.
  intros (_ & Hk & Hwf & Hh & _ & Hlen). pose proof (kinv_nodup _ _ Hk) as Hnd. apply NoDup_cons in Hnd as [Ht _].
  pose proof (kinv_pages _ _ Hk) as Hpg. apply Forall_cons in Hpg as [Hpt _].
  set (k := fork_kern d t _).
  assert (fld k 1 o_sz = 2 * PGSIZE) as Hsz by (unfold k, fork_kern, fork_tab; words).
  assert (fld k 1 o_pgdir = d) as Hd by (unfold k, fork_kern, fork_tab; words).
  assert (fld k 1 o_tf = t + KSTACKSIZE - TF_SIZE) as Htf by (unfold k, fork_kern, fork_tab; words).
  assert (forall q fd, (fd < NOFILE)%nat -> fld k q (o_ofile (Z.of_nat fd)) = if decide (q = 1 /\ fd = 0%nat) then 1 else 0)
    as Hof by (intros; by apply fork_tab_ofile).
  split; change (proc k) with 1; rewrite ?Hsz, ?Hd, ?Htf.
  - done.
  - by apply kinv_kalloc.
  - apply (uvm_wf_frame s s d _ (t :: ks :: l)); [intros; apply agree_refl|intros; apply elem_of_cons; by right|done].
  - change (new_pages 0 (2 * PGSIZE)) with 2%nat. unfold KVM_PAGES. cbn [length] in Hlen. lia.
  - exists 2. split; [apply elem_slots; cbn; lia|]. unfold k, fork_kern, fork_tab. words.
  - unfold k, fork_kern, fork_tab. words.
  - by right.
  - exists t. split; [done|]. split; [done|]. unfold KSTACKSIZE, TF_SIZE, PGSIZE. lia.
  - intros fd Hfd. apply elem_of_seq in Hfd. rewrite Hof by lia. case_decide; (split; [unfold NFILE; lia|]); [|done].
    intros _. done.
  - intros q fd Hq Hu Hfd. rewrite !Hof by done. intros H1.
    destruct (decide (1 = 1 /\ fd = 0%nat)) as [|Hn]; [done|]. apply decide_False. intros [_ ->]. by apply Hn.
  - unfold k, fork_kern, fork_tab. words.
Qed.

