(* ===== verification/ExecMem.v ===== *)
(** * The memory of a program being loaded

    exec builds a new address space in pages that were free when it started, while the
    old one is still in use.  [building] says what holds of the new one at any time:
    which bytes and flags it has, and that everything else is as it was.  Each routine
    exec uses keeps it: setupkvm, allocuvm, clearpteu, copyout and stores to user pages.
    free_cow_vm gives the old one back. *)

From S2P Require Import Bytes.
From S2P Require Import Prelude Mmu Memory Kstate Kalloc PageTable Uvm UvmFree Cow.

(** ** Bytes *)

(** [img] with the bytes [bs] from [a] on. *)
Definition put_img (a : Z) (bs : list Z) (img : Z -> Z) (va : Z) : Z :=
  if (a <=? va) && (va <? a + zlen bs) then u8 (bs !!! Z.to_nat (va - a)) else img va.

Lemma put_img_in a bs img va : a <= va < a + zlen bs ->
  put_img a bs img va = u8 (bs !!! Z.to_nat (va - a)).
Proof. intros Hva. unfold put_img. by rewrite (proj2 (Z.leb_le _ _)), (proj2 (Z.ltb_lt _ _)) by lia. Qed.

Lemma put_img_out a bs img va : va < a \/ a + zlen bs <= va -> put_img a bs img va = img va.
Proof.
  intros Hva. unfold put_img. destruct (Z.leb_spec a va), (Z.ltb_spec va (a + zlen bs)); simpl; done || lia.
Qed.

Lemma put_img_app a bs cs img va :
  put_img (a + zlen bs) cs (put_img a bs img) va = put_img a (bs ++ cs) img va.
Proof.
  pose proof (zlen_nonneg bs). pose proof (zlen_nonneg cs). pose proof (zlen_app bs cs) as Ha.
  destruct (decide (a <= va < a + zlen bs)).
  { rewrite put_img_out, !put_img_in by lia. f_equal. rewrite lookup_total_app_l; [done|unfold zlen in *; lia]. }
  destruct (decide (a + zlen bs <= va < a + zlen bs + zlen cs)).
  { rewrite !put_img_in by lia. f_equal. rewrite lookup_total_app_r by (unfold zlen in *; lia). f_equal. unfold zlen. lia. }
  by rewrite !put_img_out by lia.
Qed.

Lemma load8_write_bytes m a bs b : load8 (write_bytes m a bs) b = put_img a bs (load8 m) b.
Proof.
  revert m a. induction bs as [|x bs IH]; intros m a; cbn [write_bytes].
  { symmetry. apply put_img_out. unfold zlen. simpl. lia. }
  rewrite IH. change (x :: bs) with ([x] ++ bs). rewrite <- put_img_app. change (zlen [x]) with 1.
  destruct (decide (a + 1 <= b < a + 1 + zlen bs)); [by rewrite !(put_img_in (a + 1))|].
  rewrite !(put_img_out (a + 1)) by lia. destruct (decide (a = b)) as [<-|Hne].
  - rewrite load8_store8_eq, put_img_in by (unfold zlen; simpl; lia). by rewrite Z.sub_diag.
  - rewrite load8_store8_ne by done. symmetry. apply put_img_out. unfold zlen. simpl. lia.
Qed.

Section exec_mem.
Context `{Layout}.

(** ** An address space under construction *)

(** [d] was made of pages free in [s0], where they were [l0]: it has the bytes [img] and
    the flags [fl] up to the end of its last page, and no other page has changed. *)
Record building (s0 : kst) (l0 : list Z) (s : kst) (d sz : Z) (free : list Z) (img fl : Z -> Z) : Prop := {
  bu_inv : kinv s free;
  bu_wf : uvm_wf (mem s) d sz free;
  bu_un : untouched s0 l0 s;
  bu_free q : q ∈ free -> q ∈ l0;
  bu_own q : owned (mem s) d q -> q ∈ l0;
  bu_page va : 0 <= va < PGROUNDUP sz -> upage (mem s) d va ∈ l0;
  bu_rest : rest s = rest s0;
  bu_img va : 0 <= va < PGROUNDUP sz -> ubyte (mem s) d va = img va;
  bu_fl va : 0 <= va < PGROUNDUP sz -> PTE_FLAGS (pte (mem s) d va) = fl va }.

Definition UWP : Z := Z.lor (Z.lor PTE_W PTE_U) PTE_P.

Lemma building_ext s0 l0 s d sz free img fl img' fl' : building s0 l0 s d sz free img fl ->
  (forall va, 0 <= va < PGROUNDUP sz -> img va = img' va /\ fl va = fl' va) ->
  building s0 l0 s d sz free img' fl'.
Proof.
  intros [] He. split; try done; intros va Hva; destruct (He va Hva) as [E1 E2]; rewrite <- ?E1, <- ?E2; auto.
Qed.

Lemma building_start s0 p l : kinv s0 (p :: l) -> KVM_PAGES <= Z.of_nat (length (p :: l)) ->
  returns setupkvm s0 (fun r s => r = p /\ exists free,
    Z.of_nat (length (p :: l)) <= Z.of_nat (length free) + KVM_PAGES /\
    building s0 (p :: l) s p 0 free (fun _ => 0) (fun _ => UWP)).
Proof.
  intros Hk Hlen. eapply returns_mono; [by apply (setupkvm_ok s0 p l)|].
  intros r s (-> & free & H1 & H2 & H3 & H4 & H5 & H6 & H7 & H8). split; [done|]. exists free. split; [done|].
  change (PGROUNDUP 0) with 0. split; try done; try (change (PGROUNDUP 0) with 0; lia).
  - by apply kernel_uvm_wf.
  - intros q Hq. apply elem_of_cons. right. by eapply suffix_elem.
Qed.

Lemma building_alloc s0 l0 s d sz free img newsz :
  building s0 l0 s d sz free img (fun _ => UWP) -> sz <= newsz < KERNBASE ->
  (2 * new_pages sz newsz <= length free)%nat -> (forall va, PGROUNDUP sz <= va -> img va = 0) ->
  returns (allocuvm d sz newsz) s (fun r s' => r = newsz /\ exists free',
    (length free <= length free' + 2 * new_pages sz newsz)%nat /\
    building s0 l0 s' d newsz free' img (fun _ => UWP)).
Proof.
  intros [B1 B2 B3 B4 B5 B6 B7 B8 B9] Hsz Hlen Himg. pose proof (uw_size _ _ _ _ B2) as Hs.
  eapply returns_mono; [by apply (allocuvm_run d sz newsz s free)|].
  intros r s' (-> & free' & Hk & Hwf & Hl & Hg). split; [done|]. exists free'. split; [done|].
  pose proof (new_pages_eq sz newsz ltac:(lia) ltac:(lia)) as Hnp.
  destruct (PGROUNDUP_user sz Hs) as (U1 & U2 & U3 & U4).
  destruct (PGROUNDUP_user newsz ltac:(lia)) as (V1 & V2 & V3 & V4).
  set (n := Z.of_nat (new_pages sz newsz)) in *.
  assert (forall va : Z, 0 <= Z.lor PTE_W PTE_U < 4096) as Hfl by (intros _; vm_compute; intuition congruence).
  destruct (untouched_step _ _ _ _ _ _ _ B3 B4 B5 (gr_step _ _ _ _ _ _ _ _ _ Hg)) as (T1 & T2 & T3).
  assert (KERNBASE = 2147483648) as HKB by done.
  split; try done.
  - intros va Hva. destruct (decide (va < PGROUNDUP sz)).
    + unfold upage. rewrite (gr_old _ _ _ _ _ _ _ _ _ Hg) by lia. apply B6. lia.
    + destruct (gr_new _ _ _ _ _ _ _ _ _ Hg va) as (q & He & Hq & Hf & _); [lia|].
      rewrite (upage_entry _ _ _ q _ Hq (Hfl 0) He). by apply B4.
  - rewrite <- B7. apply Hg.
  - intros va Hva. destruct (grown_ubyte (fun _ => Z.lor PTE_W PTE_U) (fun _ => 0) s d sz free n s' free' va Hfl B2) as [G1 G2]; [lia|lia|done|].
    destruct (decide (va < PGROUNDUP sz)); [rewrite G1 by lia; apply B8; lia|].
    rewrite G2, Himg by lia. done.
  - intros va Hva. destruct (decide (va < PGROUNDUP sz)).
    + rewrite (gr_old _ _ _ _ _ _ _ _ _ Hg) by lia. apply B9. lia.
    + destruct (gr_new _ _ _ _ _ _ _ _ _ Hg va) as (q & He & Hq & _); [lia|].
      rewrite He. by apply entry_flags.
Qed.

(** Only the page [q] changes, from [m] to [m']. *)
Definition one_page (m m' : gmap Z Z) (q : Z) : Prop :=
  forall a, a < q \/ q + PGSIZE <= a -> load8 m' a = load8 m a.

Lemma one_page_agree m m' q q' : one_page m m' q -> kpage q -> kpage q' -> q' <> q -> agree m m' q' PGSIZE.
Proof. intros Ho Hq Hq' Hne a Ha. apply Ho. pose proof (kpage_sep q' q Hq' Hq Hne). lia. Qed.

(** A store to the page that backs [va]. *)
Lemma one_page_uvm s d sz free va m' : kinv s free -> uvm_wf (mem s) d sz free -> 0 <= va < PGROUNDUP sz ->
  let q := upage (mem s) d va in one_page (mem s) m' q ->
  kinv (set_mem m' s) free /\ uvm_wf m' d sz free /\ (forall va, pte m' d va = pte (mem s) d va) /\
  (forall q, owned m' d q <-> owned (mem s) d q) /\
  (forall va', 0 <= va' < PGROUNDUP sz -> va' / PGSIZE <> va / PGSIZE -> ubyte m' d va' = ubyte (mem s) d va').
Proof.
  intros Hk Hwf Hva q Ho. pose proof (uw_size _ _ _ _ Hwf) as Hs.
  destruct (PGROUNDUP_user sz Hs) as (U1 & U2 & U3 & U4).
  destruct (uw_in_page _ _ _ _ va Hwf Hva) as (_ & Hq & Hno & Hf). fold q in Hq, Hno, Hf.
  pose proof (uw_as _ _ _ _ Hwf) as Has. pose proof Hwf as [_ _ W3 W4 W5 W6].
  assert (forall o, owned (mem s) d o -> agree (mem s) m' o PGSIZE) as Hag.
  { intros o Hoo. destruct (owned_kpage _ _ _ _ Has Hoo). apply (one_page_agree _ _ q); try done. by intros ->. }
  assert (agree (mem s) m' d PGSIZE) as Hd by (apply Hag; by left).
  assert (forall va, pte m' d va = pte (mem s) d va) as Hp by (intros; by apply pte_agree).
  assert (forall o, owned m' d o <-> owned (mem s) d o) as Hoo by (intros; symmetry; by apply owned_agree).
  split; [|split; [|split; [done|split; [done|]]]].
  - apply kinv_frame; [done|]. intros o Hin. pose proof (kinv_pages _ _ Hk) as Hpg.
    apply (one_page_agree _ _ q); try done; [by eapply Forall_forall in Hpg|by intros ->].
  - split; [by eapply as_wf_agree|done|..]; unfold upage in *; intros; rewrite ?Hp in *; auto.
    destruct (W4 va0) as (? & ? & ? & ?); [done|]. rewrite Hoo. done.
  - intros va' Hva' Hne. unfold ubyte. unfold upage at 1. rewrite Hp. fold (upage (mem s) d va').
    destruct (uw_in_page _ _ _ _ va' Hwf Hva') as (_ & Hq' & _).
    apply (one_page_agree _ _ q _ Ho Hq Hq'); [|mmlia]. intros He. apply Hne.
    assert (forall v, 0 <= v < PGROUNDUP sz -> upage (mem s) d (v - v mod PGSIZE) = upage (mem s) d v) as Hb
      by (intros v Hv; unfold upage; by rewrite (pte_same_page _ _ (v - v mod PGSIZE) v) by mmlia).
    assert ((va' - va' mod PGSIZE) / PGSIZE = (va - va mod PGSIZE) / PGSIZE); [|mmlia].
    apply W6; [mmlia..|]. rewrite !Hb by done. exact He.
Qed.

(** Bytes stored to one user page, through its kernel address. *)
Lemma building_write s0 l0 s d sz free img fl va bs :
  building s0 l0 s d sz free img fl -> 0 <= va -> va mod PGSIZE + zlen bs <= PGSIZE -> va < PGROUNDUP sz ->
  building s0 l0 (set_mem (write_bytes (mem s) (upage (mem s) d va + va mod PGSIZE) bs) s) d sz free
    (put_img va bs img) fl.
Proof.
  intros [B1 B2 B3 B4 B5 B6 B7 B8 B9] Hva Hlen Hhi. pose proof (zlen_nonneg bs) as Hz.
  set (q := upage (mem s) d va). set (m' := write_bytes _ _ _).
  pose proof (uw_size _ _ _ _ B2) as Hs. destruct (PGROUNDUP_user sz Hs) as (U1 & U2 & U3 & U4).
  destruct (uw_in_page _ _ _ _ va B2 ltac:(lia)) as (_ & Hq & _). fold q in Hq.
  assert (one_page (mem s) m' q) as Ho.
  { intros a Ha. unfold m'. rewrite load8_write_bytes. apply put_img_out. mmlia. }
  destruct (one_page_uvm s d sz free va m' B1 B2) as (K & W & P & O & E); [lia|done|].
  assert (q ∈ l0) as Hq0 by (apply B6; lia).
  split; try done.
  - intros q' Hq' Hf. eapply agree_trans; [by apply B3|]. simpl. apply (one_page_agree _ _ q); try done. by intros ->.
  - intros q' Hq'. apply B5. by apply O.
  - intros va' Hva'. unfold upage. simpl. rewrite P. by apply B6.
  - intros va' Hva'. simpl. destruct (decide (va' / PGSIZE = va / PGSIZE)) as [He|Hne].
    + unfold ubyte, upage. rewrite P. rewrite (pte_same_page _ _ va' va) by mmlia. fold (upage (mem s) d va). fold q.
      unfold m'. rewrite load8_write_bytes. unfold put_img.
      assert (ubyte (mem s) d va' = load8 (mem s) (q + va' mod PGSIZE)) as Hb.
      { unfold ubyte, upage. by rewrite (pte_same_page _ _ va' va) by mmlia. }
      rewrite <- (B8 va' Hva'), Hb.
      assert (va' - va = va' mod PGSIZE - va mod PGSIZE) as Hd by mmlia.
      replace (q + va' mod PGSIZE - (q + va mod PGSIZE)) with (va' - va) by lia.
      destruct (Z.leb_spec (q + va mod PGSIZE) (q + va' mod PGSIZE)),
        (Z.ltb_spec (q + va' mod PGSIZE) (q + va mod PGSIZE + zlen bs)),
        (Z.leb_spec va va'), (Z.ltb_spec va' (va + zlen bs)); simpl; done || lia.
    + rewrite E by done. rewrite B8 by done. symmetry. apply put_img_out.
      mmlia.
  - intros va' Hva'. simpl. rewrite P. by apply B9.
Qed.

(** ** The guard page *)

Definition no_user (e : Z) : Z := Z.land e (u32 (Z.lnot PTE_U)).

Lemma no_user_facts e : 0 <= e < 2 ^ 32 ->
  0 <= no_user e < 2 ^ 32 /\ PTE_ADDR (no_user e) = PTE_ADDR e /\ present (no_user e) = present e /\
  (PTE_FLAGS e = UWP -> PTE_FLAGS (no_user e) = Z.lor PTE_W PTE_P).
Proof.
  intros He. assert (0 <= no_user e < 2 ^ 32) as Hr by (apply land_u32; [lia|vm_compute; done]).
  split; [done|]. split; [|split].
  - rewrite !PTE_ADDR_eq by done. enough (no_user e / 4096 = e / 4096) by zlia.
    change 4096 with (2 ^ 12). rewrite <- !Z.shiftr_div_pow2 by lia. unfold no_user.
    rewrite Z.shiftr_land. change (Z.shiftr (u32 (Z.lnot PTE_U)) 12) with (Z.ones 20).
    rewrite Z.land_ones, Z.shiftr_div_pow2 by lia. apply Z.mod_small. zlia.
  - rewrite !present_bit0. unfold no_user. rewrite Z.land_spec.
    change (Z.testbit (u32 (Z.lnot PTE_U)) 0) with true. apply andb_true_r.
  - unfold PTE_FLAGS. rewrite !u32_small by done. intros Hf. unfold no_user.
    rewrite <- Z.land_assoc, (Z.land_comm (u32 _)), Z.land_assoc, Hf. done.
Qed.

Definition guarded (a va : Z) : Z := if va / PGSIZE =? a / PGSIZE then Z.lor PTE_W PTE_P else UWP.

Lemma building_clearpteu s0 l0 s d sz free img a :
  building s0 l0 s d sz free img (fun _ => UWP) -> a mod PGSIZE = 0 -> 0 <= a < sz ->
  returns (clearpteu d a) s (fun _ s' => building s0 l0 s' d sz free img (guarded a)).
Proof.
  intros [B1 B2 B3 B4 B5 B6 B7 B8 B9] Ha Har. pose proof (uw_size _ _ _ _ B2) as Hs.
  destruct (PGROUNDUP_user sz Hs) as (U1 & U2 & U3 & U4).
  destruct (walk_present (mem s) d sz free a s eq_refl B2 Har) as (Hw & Hnz & Hld).
  destruct (uw_in _ _ _ _ B2 a Har) as (Hp & _).
  unfold clearpteu. apply wp_bind. eapply returns_run; [exact Hw|].
  rewrite (proj2 (Z.eqb_neq _ 0) Hnz). ksteps. rewrite Hld. fold (no_user (pte (mem s) d a)).
  set (e := pte (mem s) d a). destruct (no_user_facts e (pte_range _ _ _)) as (N1 & N2 & N3 & N4).
  assert (present (pde (mem s) d (PDX a)) = true) as Hpd.
  { unfold pte in Hp. destruct (present (pde _ _ _)); [done|by rewrite present_0 in Hp]. }
  assert (forall va, a <= va < a + PGSIZE -> pte (mem s) d va = e) as Hpg
    by (intros va Hva; apply pte_same_page; mmlia).
  pose proof (store_entry s d free a (no_user e) (uw_as _ _ _ _ B2) Hpd Ha ltac:(mmlia) N1) as Hrw.
  set (s' := set_mem _ s) in *.
  destruct (rewritten_uvm (fun _ => no_user e) s d sz free a (a + PGSIZE) s' B1 B2) as (K & W & Hub); [mmlia|mmlia| |exact Hrw|].
  { intros va Hva. cbv zeta. rewrite Hpg by lia. split; [done|congruence]. }
  pose proof Hrw as [_ RD RF RV _].
  assert (forall va, 0 <= va < 2 ^ 32 -> upage (mem s') d va = upage (mem s) d va) as Hu.
  { intros va Hva. unfold upage. rewrite RV by done. destruct (Z.leb_spec a va), (Z.ltb_spec va (a + PGSIZE)); simpl; try done.
    by rewrite N2, Hpg. }
  assert (forall q, owned (mem s') d q <-> owned (mem s) d q) as Ho by (intros; by apply owned_pde).
  split; try done.
  - intros q Hq Hf. eapply agree_trans; [by apply B3|]. apply RF; [done|]. intros Hx. by apply Hf, B5.
  - intros q Hq. by apply B5, Ho.
  - intros va Hva. rewrite Hu by mmlia. by apply B6.
  - intros va Hva. unfold ubyte. rewrite Hu by mmlia. rewrite <- B8 by done.
    destruct (uw_in_page _ _ _ _ va B2 Hva) as (_ & P2 & P3 & _). apply (RF _ P2 P3). mmlia.
  - intros va Hva. rewrite RV by mmlia. unfold guarded. rewrite in_page by done.
    destruct (Z.leb_spec a va), (Z.ltb_spec va (a + PGSIZE)); simpl; try by apply B9.
    apply N4. unfold e. apply B9. lia.
Qed.

(** ** copyout *)

Lemma flags_bits e : 0 <= e < 2 ^ 32 -> PTE_FLAGS e = UWP -> Z.land e PTE_P <> 0 /\ Z.land e PTE_U <> 0.
Proof.
  intros He Hf. pose proof (user_may_flags e He Hf) as Hu. unfold user_may, present in Hu.
  apply andb_true_iff in Hu as [Hu _]. apply andb_true_iff in Hu as [H1 H2].
  apply negb_true_iff, Z.eqb_neq in H1, H2. done.
Qed.

(** copyout to user pages that user code may write, within one page. *)
Lemma building_copyout s0 l0 s d sz free img fl va bs :
  building s0 l0 s d sz free img fl -> 0 <= va -> bs <> [] -> va + zlen bs <= sz ->
  va mod PGSIZE + zlen bs <= PGSIZE -> fl va = UWP ->
  (forall v, v / PGSIZE = va / PGSIZE -> fl v = fl va) ->
  returns (copyout d va bs) s (fun r s' => r = 0 /\ building s0 l0 s' d sz free (put_img va bs img) fl).
Proof.
  intros Hb Hva Hne Hhi Hpage Hfl Hsame. pose proof Hb as [B1 B2 B3 B4 B5 B6 B7 B8 B9].
  pose proof (uw_size _ _ _ _ B2) as Hs. destruct (PGROUNDUP_user sz Hs) as (U1 & U2 & U3 & U4).
  assert (0 < zlen bs) as Hz by (destruct bs; [done|unfold zlen; simpl; lia]).
  set (va0 := va - va mod PGSIZE). assert (PGROUNDDOWN va = va0) as Hdn by (apply PGROUNDDOWN_eq; mmlia).
  destruct (walk_present (mem s) d sz free va0 s eq_refl B2) as (Hw & Hnz & Hld); [unfold va0; mmlia|].
  assert (PTE_FLAGS (pte (mem s) d va0) = UWP) as Hf0.
  { rewrite B9 by (unfold va0; mmlia). rewrite Hsame; [done|unfold va0; mmlia]. }
  destruct (flags_bits _ (pte_range _ _ _) Hf0) as [F1 F2].
  assert (KERNBASE <= pte_addr (mem s) d va0) as HpK.
  { destruct (uw_in _ _ _ _ B2 va0) as (Hp & _); [unfold va0; mmlia|].
    destruct (wf_tab _ _ _ (uw_as _ _ _ _ B2) (PDX va0)) as [Hk _]; [apply PDX_range| |].
    - unfold pte in Hp. destruct (present (pde _ _ _)); [done|by rewrite present_0 in Hp].
    - pose proof (kpage_range _ Hk). pose proof (PTX_range va0). unfold pte_addr. lia. }
  unfold copyout. destruct bs as [|b bs']; [done|]. set (bs := b :: bs') in *.
  replace (length bs + 1)%nat with (S (S (length bs'))) by (unfold bs; simpl; lia).
  cbn [copyout_loop]. unfold bs at 1. fold bs. rewrite Hdn. unfold uva2ka.
  apply wp_bind, wp_bind. eapply returns_run; [exact Hw|]. apply wp_bind, wp_deref; [done|]. rewrite Hld.
  rewrite (proj2 (Z.eqb_neq _ _) F1), (proj2 (Z.eqb_neq _ _) F2). ksteps. fold (upage (mem s) d va0).
  assert (upage (mem s) d va0 = upage (mem s) d va) as Hup
    by (unfold upage; by rewrite (pte_same_page _ _ va0 va) by (unfold va0; mmlia)).
  destruct (uw_in _ _ _ _ B2 va) as (_ & Hq & _); [lia|]. pose proof (kpage_range _ Hq).
  rewrite Hup, (proj2 (Z.eqb_neq _ 0)) by lia. ksteps.
  replace (va - va0) with (va mod PGSIZE) by (unfold va0; lia).
  rewrite Z.min_r by (unfold zlen in *; lia). rewrite Nat2Z.id, firstn_all, skipn_all. cbn [copyout_loop]. ksteps.
  split; [done|]. apply building_write; [done|lia|done|lia].
Qed.

(** ** free_cow_vm *)

Definition unshared_tabs (s : kst) (pgdir : Z) : Prop :=
  forall q, owned (mem s) pgdir q -> refcount s (v2p q / PGSIZE) < 2.

Lemma unshared_tab s pgdir i : unshared_tabs s pgdir -> 0 <= i < NPDENTRIES ->
  present (pde (mem s) pgdir i) = true -> refcount s (PTE_ADDR (pde (mem s) pgdir i) / PGSIZE) < 2.
Proof.
  intros Hun Hi Hp. rewrite <- (v2p_p2v (PTE_ADDR _)).
  - apply Hun. right. exists i. by rewrite Hp.
  - rewrite PTE_ADDR_eq by apply load32_range. pose proof (load32_range (mem s) (pgdir + 4 * i)). unfold pde. zlia.
Qed.

(** Over tables nobody shares, the loop is the one of freevm. *)
Lemma free_cow_loop_eq n pgdir i s free :
  i + Z.of_nat n = NPDENTRIES -> 0 <= i -> kinv s free -> tables_wf (mem s) pgdir i free ->
  unshared_tabs s pgdir -> free_cow_loop n pgdir i s = freevm_loop n pgdir i s.
Proof.
  revert i s free. induction n as [|n IH]; intros i s free Hn Hi Hk Htw Hun; [done|].
  cbn [free_cow_loop freevm_loop]. rewrite !(bind_run (load _) _ s (pde (mem s) pgdir i) s) by done.
  fold (present (pde (mem s) pgdir i)). destruct (present (pde (mem s) pgdir i)) eqn:Hp.
  - destruct (tw_tab _ _ _ _ Htw i) as (Hq & Hqd & Hqf); [lia|done|].
    destruct (tables_wf_step s pgdir i free Hi Htw Hp) as (Hag & Htw1); [lia|].
    pose proof (unshared_tab s pgdir i Hun ltac:(lia) Hp) as Hr.
    fold (pgtab (mem s) pgdir i). set (q := pgtab _ _ _) in *.
    pose proof (kfree_run s q Hq (kinv_lock _ _ Hk)) as Hkf.
    pose proof (kinv_kfree s q free Hk Hq Hqf) as Hk1.
    rewrite (bind_run (kfree q) _ _ _ _ Hkf).
    erewrite bind_run; [|rewrite (bind_run (gets _) _ s (refcount s (PTE_ADDR (pde (mem s) pgdir i) / PGSIZE)) s) by done;
      rewrite (proj2 (Z.ltb_lt _ 2) Hr); exact Hkf].
    apply (IH _ _ (q :: free)); [lia|lia|done|done|].
    intros o Ho. apply Hun. cbn [mem set_freelist set_mem] in Ho. by apply (owned_agree (mem s)) in Ho.
  - rewrite !(bind_run (ret tt) _ s tt s) by done. apply (IH _ _ free); try done; try lia.
    destruct Htw as [T1 T2 T3]. split; [done|intros; apply T2; lia || done|].
    intros j k Hj1 Hk1. apply T3; lia.
Qed.

(** As freevm, but for the directory: free_cow_vm gives back the pages of user memory
    and the tables, and keeps the page of the directory. *)
Lemma free_cow_vm_run pgdir sz s free :
  kinv s free -> L_pte_lookup ∉ held s -> uvm_wf (mem s) pgdir sz free ->
  (forall va, 0 <= va < pages sz * PGSIZE -> unshared s pgdir va) -> unshared_tabs s pgdir ->
  returns (free_cow_vm pgdir) s (fun _ s' => exists free',
    kinv s' free' /\ pgdir ∉ free' /\
    (forall q, q ∈ free' <-> q ∈ free \/ (owned (mem s) pgdir q /\ q <> pgdir) \/
       exists p, 0 <= p < pages sz /\ q = upage (mem s) pgdir (p * PGSIZE)) /\
    (forall q, kpage q -> q ∉ free' -> q <> pgdir -> agree (mem s) (mem s') q PGSIZE) /\ rest s' = rest s).
Proof.
  intros Hk Hl Hwf Hun Ht. pose proof (uw_size _ _ _ _ Hwf) as Hs.
  pose proof (wf_dir _ _ _ (uw_as _ _ _ _ Hwf)) as Hd. pose proof (kpage_range _ Hd).
  unfold free_cow_vm. rewrite (proj2 (Z.eqb_neq pgdir 0)) by lia. apply wp_bind.
  eapply wp_mono; [apply (deallocuvm_run pgdir sz KERNBASE 0 s free); try done; mmlia|..|done].
  intros r s1 (_ & free1 & [I W P F A O R]). change (pages 0) with 0 in *.
  assert (L_pte_lookup ∉ held s1) as Hl1.
  { apply (f_equal (fun r => r.1.2)) in R. unfold rest in R. simpl in R. by rewrite R. }
  apply wp_bind, wp_acquire; [done|]. set (s2 := set_held _ s1).
  assert (kinv s2 free1) as I2.
  { destruct I as [I1 I2 I3 I4]. split; [done..|]. unfold unlocked in *. simpl. intros Hx.
    apply not_elem_of_cons. split; [done|auto]. }
  assert (unshared_tabs s2 pgdir) as Ht2.
  { intros q Hq. apply O in Hq. specialize (Ht q Hq). unfold rest in R. unfold refcount in *.
    injection R as _ R _ _ _. simpl. by rewrite R. }
  pose proof (as_wf_tables _ _ _ W) as Htw. apply wp_bind. unfold wp.
  rewrite (free_cow_loop_eq _ pgdir 0 s2 free1) by done. fold (wp (freevm_loop (Z.to_nat NPDENTRIES) pgdir 0) s2).
  eapply wp_mono; [apply (freevm_loop_ok _ pgdir 0 s2 free1); done|..|done].
  intros _ s3 (free2 & Hk2 & Hd2 & Hf2 & Ha2 & Hr2).
  assert (held s3 = L_pte_lookup :: held s1) as Hh by (apply (f_equal (fun r => r.1.2)) in Hr2; exact Hr2).
  apply wp_release; [rewrite Hh; apply elem_of_cons; by left|]. rewrite Hh, release_top by done.
  exists free2. split; [|split; [done|split; [|split]]].
  - destruct Hk2 as [K1 K2 K3 K4]. split; [done..|]. unfold unlocked in *. simpl. rewrite Hh in K4. intros Hx.
    specialize (K4 Hx). by apply not_elem_of_cons in K4 as [_ K4].
  - intros q. rewrite Hf2, F, <- O. unfold owned. split.
    + intros [[?|?]|(j & Hj & Hpj & ->)]; [by left|by right; right|]. right. left.
      change (mem s2) with (mem s1) in *. split; [right; exists j; by rewrite Hpj|].
      apply (tw_tab _ _ _ _ Htw j Hj Hpj).
    + intros [?|[[[->|(j & Hj & Hpj & ->)] ?]|?]]; [by left; left|done| |by left; right].
      right. exists j. apply Is_true_true in Hpj. done.
  - intros q Hq Hnf Hne. simpl. assert (q ∉ free1) by (intros Hx; apply Hnf, Hf2; by left).
    apply agree_trans with (mem s1); [apply A; [done| |done]|by apply Ha2].
    rewrite <- O. intros [->|(j & Hj & Hpj & ->)]; [done|].
    apply Hnf, Hf2. right. exists j. apply Is_true_true in Hpj. done.
  - rewrite <- R. unfold rest in *. cbn in *. rewrite Hh in Hr2. injection Hr2 as E1 E2 E3 E4. by rewrite E1, E2, E3, E4.
Qed.

(** ** Changes elsewhere *)

(** The page [q] is not part of the address space. *)
Definition apart (m : gmap Z Z) (d sz q : Z) : Prop :=
  ~ owned m d q /\ forall va, 0 <= va < PGROUNDUP sz -> upage m d va <> q.

Lemma uvm_changed m m' d sz free free' (C : Z -> Prop) : uvm_wf m d sz free ->
  (forall q, C q -> apart m d sz q) -> (forall q, kpage q -> ~ C q -> agree m m' q PGSIZE) ->
  (forall q, q ∈ free' -> apart m d sz q) ->
  uvm_wf m' d sz free' /\ (forall va, pte m' d va = pte m d va) /\ (forall q, owned m' d q <-> owned m d q) /\
  (forall va, 0 <= va < PGROUNDUP sz -> ubyte m' d va = ubyte m d va).
Proof.
  intros Hwf HC Hag Hfree. pose proof Hwf as [Ha Hs Hk Hi Ho Hj]. destruct (PGROUNDUP_user sz Hs) as (U1 & U2 & U3 & U4).
  assert (forall q, owned m d q -> agree m m' q PGSIZE) as Hown.
  { intros q Hq. destruct (owned_kpage _ _ _ _ Ha Hq). apply Hag; [done|]. intros Hx. by destruct (HC q Hx). }
  assert (agree m m' d PGSIZE) as Hd by (apply Hown; by left).
  assert (forall va, pte m' d va = pte m d va) as Hp by (intros; by apply pte_agree).
  assert (forall q, owned m' d q <-> owned m d q) as Hoo by (intros; symmetry; by apply owned_agree).
  split; [|split; [done|split; [done|]]].
  - pose proof (as_wf_agree _ _ _ _ Hd Ha) as [W1 W2 W3 W4].
    split; [|done|..]; unfold upage in *; intros; rewrite ?Hp in *; auto.
    + split; [done| | |done].
      * intros Hx. destruct (Hfree _ Hx) as [Hn _]. apply Hn. by left.
      * intros i Hir Hpi. destruct (W3 i Hir Hpi) as (? & ? & ?). split; [done|]. split; [done|]. intros Hx.
        destruct (Hfree _ Hx) as [Hn _]. apply Hn, Hoo. right. by exists i.
    + destruct (Hi va) as (? & ? & ? & ?); [done|]. rewrite Hoo. split; [done|]. split; [done|]. split; [done|].
      intros Hx. destruct (Hfree _ Hx) as [_ Hn]. by apply (Hn va); [lia|].
  - intros va Hva. unfold ubyte. unfold upage at 1. rewrite Hp. fold (upage m d va).
    destruct (uw_in_page _ _ _ _ va Hwf Hva) as (_ & Hq & _). apply (Hag _ Hq); [|mmlia].
    intros Hx. destruct (HC _ Hx) as [_ Hn]. by apply (Hn va).
Qed.

(** ** Whole pages *)

Lemma PGROUNDUP_twice sz : 0 <= sz < KERNBASE -> PGROUNDUP (PGROUNDUP sz) = PGROUNDUP sz.
Proof.
  intros Hs. destruct (PGROUNDUP_user sz Hs) as (U1 & U2 & U3 & U4). rewrite PGROUNDUP_eq by mmlia.
  remember (PGROUNDUP sz) as U. mmlia.
Qed.

Lemma uvm_wf_round m d sz free : uvm_wf m d sz free -> PGROUNDUP sz < KERNBASE -> uvm_wf m d (PGROUNDUP sz) free.
Proof.
  intros Hwf Hr. pose proof Hwf as [W1 Hs W3 W4 W5 W6]. destruct (PGROUNDUP_user sz Hs) as (U1 & U2 & U3 & U4).
  split; [done|lia|done|..].
  - intros va Hva. by apply (uw_in_page _ _ _ _ va Hwf).
  - intros va Hva. apply W5. by rewrite PGROUNDUP_twice in Hva.
  - intros va va' Hva Hva' He.
    assert (forall v, 0 <= v < PGROUNDUP sz -> upage m d (v - v mod PGSIZE) = upage m d v) as Hb
      by (intros v Hv; unfold upage; by rewrite (pte_same_page _ _ (v - v mod PGSIZE) v) by mmlia).
    assert ((va - va mod PGSIZE) / PGSIZE = (va' - va' mod PGSIZE) / PGSIZE); [|mmlia].
    apply W6; [mmlia..|]. by rewrite !Hb.
Qed.

Lemma building_round s0 l0 s d sz free img fl : building s0 l0 s d sz free img fl -> PGROUNDUP sz < KERNBASE ->
  building s0 l0 s d (PGROUNDUP sz) free img fl.
Proof.
  intros [B1 B2 B3 B4 B5 B6 B7 B8 B9] Hr. pose proof (uw_size _ _ _ _ B2) as Hs.
  split; try done; rewrite ?PGROUNDUP_twice by done; try done. by apply uvm_wf_round.
Qed.
End exec_mem.
