(* ===== verification/Userinit.v ===== *)
(** * The first process

    userinit (proc.c) and inituvm (vm.c): the first process has initcode in one page of
    memory, a trap frame that starts it at address 0 in user mode, and the root directory. *)

From S2P Require Import Pipe Bytes FsFormat Fs Inode InodeData Dir MkfsBoot.
From S2P Require Import Prelude Mmu Memory Kstate Kalloc PageTable Uvm Cow Boot Kernel Sched File.
From S2P Require Import Proc ProcTheorems FdRefs Fork ExecMem.

Section userinit.
Context `{Layout}.

(** ** inituvm *)

(** Writing a page that was taken from the free list and is not part of the structure. *)
Lemma pt_step_page s d free s1 free1 q m : pt_step s d free s1 free1 -> kpage q -> q ∈ free -> q ∉ free1 ->
  ~ owned (mem s1) d q -> one_page (mem s1) m q ->
  pt_step s d free (set_mem m s1) free1 /\ forall va, pte m d va = pte (mem s1) d va.
Proof.
  intros [I W S F O R L] Hq Hqf Hqf1 Hno Hm.
  assert (forall q', kpage q' -> q' <> q -> agree (mem s1) m q' PGSIZE) as Hag by (intros q' Hq' Hne; by eapply one_page_agree).
  assert (forall q', owned (mem s1) d q' -> agree (mem s1) m q' PGSIZE) as Hown.
  { intros q' Ho. destruct (owned_kpage _ _ _ _ W Ho). apply Hag; [done|]. by intros ->. }
  assert (agree (mem s1) m d PGSIZE) as Hd by (apply Hown; by left).
  split; [split|].
  - apply kinv_frame; [done|]. intros p Hp. apply Hag; [|by intros ->]. pose proof (kinv_pages _ _ I) as Hpg. by eapply Forall_forall in Hpg.
  - by eapply as_wf_agree.
  - done.
  - intros q' Hq' Ho Hf. apply agree_trans with (mem s1); [by apply F|]. apply Hag; [done|]. by intros ->.
  - intros q' Ho. apply O. by apply (owned_agree (mem s1) m).
  - done.
  - apply (low_trans _ (mem s1)); [done|]. intros a Ha. apply Hm. left. destruct Hq as (_ & ? & _). lia.
  - intros va. by apply pte_agree.
Qed.

Lemma inituvm_ok s d q l init : kinv s (q :: l) -> uvm_wf (mem s) d 0 (q :: l) -> l <> [] -> zlen init < PGSIZE ->
  returns (inituvm d init) s (fun _ s' => exists free', (length l <= length free' + 1)%nat /\
    grown (fun _ => Z.lor PTE_W PTE_U) (put_img 0 init (fun _ => 0)) s d (q :: l) 0 1 s' free').
Proof.
  intros Hk Hwf Hl Hlen. unfold inituvm. fold (zlen init). rewrite (proj2 (Z.leb_gt _ _)) by done.
  pose proof (kinv_pages _ _ Hk) as Hpg. apply Forall_cons in Hpg as [Hq _]. pose proof (kpage_range q Hq).
  apply wp_bind. eapply wp_run; [apply (kalloc_run s _ Hk)|]. cbv beta. rewrite (proj2 (Z.eqb_neq q 0)) by lia.
  apply (alloc_map_page s d q l 0 _ _ (fun _ => 0)); try done.
  - apply Hwf.
  - intros va Hva. apply (uw_out _ _ _ _ Hwf). change (PGROUNDUP 0) with 0. mmlia.
  - intros q' Hq' Hne. by apply memset_page.
  - destruct Hq as (_ & Hqe & _). by apply low_memset.
  - intros o Ho. rewrite load8_memset by mmlia. by rewrite (proj2 (Z.leb_le _ _)), (proj2 (Z.ltb_lt _ _)) by lia.
  - intros s1 free1 Hst Hlen1 _ Hqf Hqo Hb Hv. apply wp_on_mem. exists free1. split; [done|].
    set (m := write_bytes (mem s1) q init).
    assert (one_page (mem s1) m q) as Hm.
    { intros a Ha. unfold m. rewrite load8_write_bytes. apply put_img_out. lia. }
    destruct (pt_step_page s d (q :: l) s1 free1 q m Hst Hq) as [Hst' Hpte]; [apply elem_of_cons; by left|done|done|done|].
    eapply (grown_cons _ _ s (set_mem m s1) _ d _ free1 free1 0 0 q); try done; try mmlia.
    + by apply elem_of_cons; left.
    + intros Ho. apply Hqo. apply (owned_agree (mem s1) m); [|done]. pose proof (ps_wf _ _ _ _ _ Hst) as W.
      apply (one_page_agree _ _ q); [done|done|apply W|]. intros ->. apply Hqo. by left.
    + intros o Ho. cbn [mem set_mem]. unfold m. rewrite load8_write_bytes, Z.add_0_l.
      destruct (decide (o < zlen init)).
      * rewrite !put_img_in by lia. do 2 f_equal. f_equal. lia.
      * rewrite !put_img_out by lia. by apply Hb.
    + intros va Hva. cbn [mem set_mem]. rewrite Hpte. by apply Hv.
    + apply grown_0; [apply Hst'|apply Hst'].
Qed.

(** The same, for an address space under construction. *)
Lemma building_init s0 l0 s d free init : building s0 l0 s d 0 free (fun _ => 0) (fun _ => UWP) -> (2 <= length free)%nat -> zlen init < PGSIZE ->
  returns (inituvm d init) s (fun _ s' => exists free', low_same (mem s) (mem s') /\
    building s0 l0 s' d PGSIZE free' (put_img 0 init (fun _ => 0)) (fun _ => UWP)).
Proof.
  intros [B1 B2 B3 B4 B5 B6 B7 B8 B9] Hlen Hinit. destruct free as [|q [|q2 l]]; [simpl in Hlen; lia..|].
  eapply returns_mono; [by apply (inituvm_ok s d q (q2 :: l))|]. intros [] s' (free' & _ & Hg). exists free'.
  assert (forall va : Z, 0 <= Z.lor PTE_W PTE_U < 4096) as Hfl by (intros _; vm_compute; intuition congruence).
  pose proof (gr_step _ _ _ _ _ _ _ _ _ Hg) as Hst. split; [apply Hst|].
  destruct (untouched_step _ _ _ _ _ _ _ B3 B4 B5 Hst) as (T1 & T2 & T3).
  assert (PGROUNDUP PGSIZE = PGSIZE /\ PGROUNDUP 0 = 0) as [E1 E2] by done.
  assert (forall va, 0 <= va < PGSIZE -> exists q', pte (mem s') d va = Z.lor (Z.lor (v2p q') (Z.lor PTE_W PTE_U)) PTE_P /\
    kpage q' /\ q' ∈ q :: q2 :: l /\ load8 (mem s') (q' + va mod PGSIZE) = put_img 0 init (fun _ => 0) va) as Hnew.
  { intros va Hva. destruct (gr_new _ _ _ _ _ _ _ _ _ Hg va ltac:(lia)) as (q' & ? & ? & ? & _ & _ & ?). by exists q'. }
  split; rewrite ?E1; try done.
  - apply Hst.
  - apply (grown_uvm_wf (fun _ => Z.lor PTE_W PTE_U) (put_img 0 init (fun _ => 0)) s d 0 PGSIZE (q :: q2 :: l) 1 s' free'); done.
  - intros va Hva. destruct (Hnew va Hva) as (q' & He & Hq & Hf & _). rewrite (upage_entry _ _ _ q' _ Hq (Hfl 0) He). by apply B4.
  - rewrite <- B7. apply Hst.
  - intros va Hva. destruct (Hnew va Hva) as (q' & He & Hq & _ & Hb). unfold ubyte. by rewrite (upage_entry _ _ _ q' _ Hq (Hfl 0) He).
  - intros va Hva. destruct (Hnew va Hva) as (q' & He & Hq & _). rewrite He. by apply entry_flags.
Qed.

(** Writes to a page that belongs to neither do not change the address space. *)
Lemma building_page s0 l0 s d sz free img fl ks m : building s0 l0 s d sz free img fl -> kpage ks -> ks ∉ l0 -> one_page (mem s) m ks ->
  kinv (set_mem m s) free /\ uvm_wf m d sz free /\
  forall va, 0 <= va < sz -> ubyte m d va = img va /\ PTE_FLAGS (pte m d va) = fl va.
Proof.
  intros [B1 B2 B3 B4 B5 B6 B7 B8 B9] Hks Hl Hm. pose proof (uw_size _ _ _ _ B2) as Hsz. destruct (PGROUNDUP_user sz Hsz) as (_ & U2 & _).
  assert (ks ∉ free) as Hf by (intros Hf; by apply Hl, B4).
  assert (uvm_wf (mem s) d sz (ks :: free)) as Hw.
  { apply uvm_wf_cons; [done|intros Ho; by apply Hl, B5|]. intros va Hva E. apply Hl. rewrite <- E. apply B6. lia. }
  assert (forall q, kpage q -> q ∉ ks :: free -> agree (mem s) (mem (set_mem m s)) q PGSIZE) as Hag.
  { intros q Hq [Hne _]%not_elem_of_cons. by apply (one_page_agree _ _ ks). }
  split; [|split].
  - apply kinv_frame; [done|]. intros q Hq. apply (one_page_agree _ _ ks); [done|done| |by intros ->].
    pose proof (kinv_pages _ _ B1) as Hpg. by eapply Forall_forall in Hpg.
  - apply (uvm_wf_frame s (set_mem m s) d sz (ks :: free)); [done| |done]. intros q Hq. apply elem_of_cons. by right.
  - intros va Hva. split.
    + rewrite (ubyte_frame s (set_mem m s) d sz (ks :: free)) by done. apply B8. lia.
    + rewrite (pte_frame s (set_mem m s) d sz (ks :: free)) by done. apply B9. lia.
Qed.

(** ** userinit *)

Context (forkret trapret : Z).
Context (devread : Z -> option (nat -> Z -> M fs (Z * list Z))).

(** The stores into the trap frame: user segments, interrupts on, the stack at the end of
    the page, the first instruction at 0. *)
Definition first_frame (tf : Z) (m : gmap Z Z) : gmap Z Z :=
  let ds := Z.lor (Z.shiftl SEG_UDATA 3) DPL_USER in
  store32 (store32 (store32 (store32 (store32 (store32 (store32 (memset m tf 0 TF_SIZE)
    (tf + tf_cs) (Z.lor (Z.shiftl SEG_UCODE 3) DPL_USER)) (tf + tf_ds) ds) (tf + tf_es) ds) (tf + tf_ss) ds)
    (tf + tf_eflags) FL_IF) (tf + tf_esp) PGSIZE) (tf + tf_eip) 0.

Record frame_ok (m : gmap Z Z) (tf : Z) : Prop := {
  ff_cs : load32 m (tf + tf_cs) = Z.lor (Z.shiftl SEG_UCODE 3) DPL_USER;
  ff_ds : load32 m (tf + tf_ds) = Z.lor (Z.shiftl SEG_UDATA 3) DPL_USER;
  ff_es : load32 m (tf + tf_es) = Z.lor (Z.shiftl SEG_UDATA 3) DPL_USER;
  ff_ss : load32 m (tf + tf_ss) = Z.lor (Z.shiftl SEG_UDATA 3) DPL_USER;
  ff_eflags : load32 m (tf + tf_eflags) = FL_IF;
  ff_esp : load32 m (tf + tf_esp) = PGSIZE;
  ff_eip : load32 m (tf + tf_eip) = 0 }.

Ltac tfo := unfold tf_cs, tf_ds, tf_es, tf_ss, tf_eflags, tf_esp, tf_eip, TF_SIZE in *.

Lemma first_frame_ok tf m : frame_ok (first_frame tf m) tf.
Proof.
  unfold first_frame. split; repeat (rewrite load32_store32_ne by (tfo; lia)); by rewrite load32_store32_eq.
Qed.

Lemma first_frame_out tf m a : a < tf \/ tf + TF_SIZE <= a -> load8 (first_frame tf m) a = load8 m a.
Proof.
  intros Ha. unfold first_frame. rewrite !load8_store32_ne by (tfo; lia). rewrite load8_memset by (tfo; lia).
  destruct (Z.leb_spec tf a), (Z.ltb_spec a (tf + TF_SIZE)); cbn [andb]; done || lia.
Qed.

(** The root directory in the first slot of an empty cache. *)
Definition root_slot (f : fs) : inode := mkInode ROOTINO 1 false false (idi (icache f 0%nat)).

Lemma namei_root k : (forall j, iref (icache (kf k) j) = 0) ->
  exists c, on_fs (namei devread [47]) k = Done (Some 0%nat) (set_kf (mkFs (fb (kf k)) (flog (kf k)) (upd 0%nat (root_slot (kf k)) (icache (kf k))) c) k).
Proof.
  intros Hr. unfold on_fs, namei, namex, bind. change (hd 0 [47] =? slash) with true. cbv iota.
  rewrite (iget_next _ ROOTINO 0); [|unfold NINODE; lia|intros; lia|intros j _; apply Hr]. by eexists.
Qed.

(** The first process [p] in [k'], made in [k]: its kernel stack is [ks], its page directory [d]. *)
Record first_proc (initcode : list Z) (k k' : kern) (p : Z) (free' : list Z) : Prop := {
  fp_slot : p ∈ slots /\ state k p = UNUSED;
  fp_state : state k' p = RUNNABLE;
  fp_others q : q <> p -> state k' q = state k q;
  fp_pid : fld k' p o_pid = nextpid k /\ nextpid k' = nextpid k + 1;
  fp_init : initproc k' = p;
  fp_stack : kstack_ready (mem (km k')) (fld k' p o_kstack) (fld k' p o_tf) (fld k' p o_context) forkret trapret;
  fp_page : kpage (fld k' p o_kstack);
  fp_frame : frame_ok (mem (km k')) (fld k' p o_tf);
  fp_size : fld k' p o_sz = PGSIZE;
  fp_mem : uvm_wf (mem (km k')) (fld k' p o_pgdir) PGSIZE free';
  fp_code va : 0 <= va < PGSIZE -> ubyte (mem (km k')) (fld k' p o_pgdir) va = put_img 0 initcode (fun _ => 0) va /\
    PTE_FLAGS (pte (mem (km k')) (fld k' p o_pgdir) va) = UWP;
  fp_cwd : fld k' p o_cwd = 1 /\ icache (kf k') = upd 0%nat (root_slot (kf k)) (icache (kf k));
  fp_inv : kinv (km k') free' }.

(** What userinit does not touch: pages in use, memory below the end of the kernel, locks. *)
Record user_frame (k k' : kern) (free free' : list Z) : Prop := {
  uf_un : untouched (km k) free (km k');
  uf_free q : q ∈ free' -> q ∈ free;
  uf_low : low_same (mem (km k)) (mem (km k'));
  uf_rest : rest (km k') = rest (km k);
  uf_proc : proc k' = proc k }.

Ltac uwords := unfold state, fld, set_fld; cbn [tab set_tab set_km set_kf set_nextpid nextpid set_initproc];
  repeat first [ rewrite upd_eq | rewrite upd_ne by word_neq ]; try done.

Lemma kstack_ready_ext m m' ks tf ctx : kstack_ready m ks tf ctx forkret trapret ->
  (forall a, tf - 4 - CONTEXT_SIZE <= a < tf -> load8 m' a = load8 m a) -> kstack_ready m' ks tf ctx forkret trapret.
Proof.
  intros (E1 & E2 & E3 & E4 & E5) Hm. unfold CONTEXT_SIZE, ctx_eip in *. split; [done|]. split; [done|]. split; [|split].
  - rewrite <- E3. apply load32_ext. intros i Hi. apply Hm. lia.
  - rewrite <- E4. apply load32_ext. intros i Hi. apply Hm. unfold ctx_eip in *. lia.
  - intros i Hi. rewrite <- (E5 i Hi). apply Hm. lia.
Qed.

(** The state before the last steps, and after them. *)
Definition with_space (p ks d : Z) (m3 m4 : kst) (k : kern) : kern :=
  set_fld p o_sz PGSIZE (set_km m4 (set_fld p o_pgdir d (set_km m3 (set_initproc p (new_proc forkret trapret p ks k))))).
Definition user_done (p ks : Z) (n0 n1 n2 n3 : Z) (c : nat) (k4 : kern) : kern :=
  let k5 := set_fld p (o_name + 3) n3 (set_fld p (o_name + 2) n2 (set_fld p (o_name + 1) n1 (set_fld p o_name n0
    (set_km (set_mem (first_frame (ks + KSTACKSIZE - TF_SIZE) (mem (km k4))) (km k4)) k4)))) in
  set_fld p o_state RUNNABLE (set_fld p o_cwd 1
    (set_kf (mkFs (fb (kf k5)) (flog (kf k5)) (upd 0%nat (root_slot (kf k5)) (icache (kf k5))) c) k5)).

Lemma first_proc_intro initcode k ks d l p m3 m4 free4 n0 n1 n2 n3 c : let k2 := new_proc forkret trapret p ks k in
  kinv (km k) (ks :: d :: l) -> p ∈ slots -> state k p = UNUSED ->
  building (km k2) (d :: l) m4 d PGSIZE free4 (put_img 0 initcode (fun _ => 0)) (fun _ => UWP) ->
  low_same (mem (km k2)) (mem m4) ->
  let k' := user_done p ks n0 n1 n2 n3 c (with_space p ks d m3 m4 k) in
  first_proc initcode k k' p free4 /\ user_frame k k' (ks :: d :: l) free4.
Proof.
  intros k2 Hk Hin Hst B4 L4 k'. destruct (new_proc_mem forkret trapret p ks k (d :: l) Hk) as [Hk2 Hm2]. fold k2 in Hk2, Hm2.
  pose proof (kinv_pages _ _ Hk) as Hpg. apply Forall_cons in Hpg as [Hks Hpg].
  pose proof (kinv_nodup _ _ Hk) as Hnd. apply NoDup_cons in Hnd as [Hksl _].
  set (tf := ks + KSTACKSIZE - TF_SIZE).
  assert (km k' = set_mem (first_frame tf (mem m4)) m4) as Ekm by done.
  assert (one_page (mem m4) (first_frame tf (mem m4)) ks) as Hone.
  { intros a Ha. apply first_frame_out. unfold tf, KSTACKSIZE, TF_SIZE, PGSIZE in *. lia. }
  destruct (building_page _ _ _ _ _ _ _ _ ks _ B4 Hks Hksl Hone) as (P1 & P2 & P3).
  assert (fld k' p o_kstack = ks /\ fld k' p o_tf = tf /\ fld k' p o_context = tf - 4 - CONTEXT_SIZE /\ fld k' p o_pgdir = d) as (F1 & F2 & F3 & F4).
  { unfold k', user_done, with_space, new_proc, new_words. split; [uwords|]. split; [uwords|]. split; uwords. }
  split.
  - split; rewrite ?Ekm, ?F1, ?F2, ?F3, ?F4; cbn [mem set_mem]; try done.
    + unfold k', user_done. uwords.
    + intros q Hq. unfold k', user_done, with_space, new_proc, new_words. uwords.
    + split; [|done]. unfold k', user_done, with_space, new_proc, new_words. uwords.
    + apply (kstack_ready_ext (mem (km k2))); [apply stack_ready|]. intros a Ha.
      rewrite first_frame_out by (left; lia). apply (bu_un _ _ _ _ _ _ _ _ B4 ks Hks Hksl). unfold tf, KSTACKSIZE, TF_SIZE, CONTEXT_SIZE, PGSIZE in *. lia.
    + apply first_frame_ok.
    + unfold k', user_done, with_space. uwords.
    + split; [|done]. unfold k', user_done. uwords.
  - split; rewrite ?Ekm; cbn [mem set_mem]; try done.
    + intros q Hq [Hne Hf]%not_elem_of_cons. rewrite ?Ekm. cbn [mem set_mem]. eapply agree_trans; [by apply (outside_agree _ _ ks q Hm2)|].
      eapply agree_trans; [by apply (bu_un _ _ _ _ _ _ _ _ B4)|]. by apply (one_page_agree _ _ ks).
    + intros q Hq. apply elem_of_cons. right. by apply (bu_free _ _ _ _ _ _ _ _ B4).
    + apply (low_trans _ (mem (km k2))); [|apply (low_trans _ (mem m4)); [done|]].
      * intros a Ha. apply Hm2. left. destruct Hks as (_ & ? & _). lia.
      * intros a Ha. apply Hone. left. destruct Hks as (_ & ? & _). lia.
    + exact (bu_rest _ _ _ _ _ _ _ _ B4).
Qed.

Lemma wp_frame_store a v m s k (Q : unit -> kern -> Prop) E :
  Q tt (set_km (set_mem (store32 m a v) s) k) -> wp (on_km (store a v)) (set_km (set_mem m s) k) Q E.
Proof. done. Qed.

Lemma userinit_ok initcode k free : held (km k) = [] -> kinv (km k) free -> KVM_PAGES + 4 <= Z.of_nat (length free) ->
  (exists q, q ∈ slots /\ state k q = UNUSED) -> zlen initcode < PGSIZE -> (forall j, iref (icache (kf k) j) = 0) ->
  returns (userinit forkret trapret devread initcode) k (fun _ k' => exists p free',
    first_proc initcode k k' p free' /\ user_frame k k' free free').
Proof.
  intros Hh Hk Hlen Hu Hic Hir. destruct free as [|ks l]; [simpl in Hlen; unfold KVM_PAGES in *; lia|].
  destruct (allocproc_done forkret trapret k ks l Hh Hk Hu) as (p & Hin & Hst & E). unfold userinit.
  apply wp_bind. eapply wp_run; [exact E|]. cbv beta. apply wp_bind. step. set (k2 := set_initproc p (new_proc forkret trapret p ks k)).
  destruct (new_proc_mem forkret trapret p ks k l Hk) as [Hk2 Hm2]. change (km (new_proc _ _ p ks k)) with (km k2) in Hk2, Hm2.
  simpl length in Hlen. destruct l as [|d l]; [simpl in Hlen; unfold KVM_PAGES in *; lia|].
  apply wp_bind, wp_on_km. eapply wp_mono; [eapply (returns_and _ _ _ _ (fun _ _ => False)); [apply (building_start (km k2) d l Hk2); simpl length in *; lia|apply (setupkvm_low (km k2) d l Hk2); simpl length in *; lia]| |done].
  intros r m3 ((-> & free3 & Hl3 & B3) & (_ & _ & _ & _ & _ & _ & _ & _ & _ & _ & L3)).
  assert (p <> 0) as Hp0 by (apply elem_slots in Hin; lia). apply wp_bind. rewrite (proj2 (Z.eqb_neq p 0) Hp0). tstep. cbn beta.
  pose proof (kinv_pages _ _ Hk2) as Hpg2. apply Forall_cons in Hpg2 as [Hd _]. rewrite (proj2 (Z.eqb_neq d 0)) by (apply kpage_range in Hd; lia).
  apply wp_bind, wp_on_km. eapply wp_mono; [apply (building_init (km k2) (d :: l) _ d free3); [exact B3|simpl length in *; unfold KVM_PAGES in *; lia|exact Hic]| |done].
  intros [] m4 (free4 & L4 & B4). unfold safestrcpy_name, get_name, put_name. apply wp_bind. tstep. cbn beta. apply wp_bind. tstep. cbn beta.
  set (k4 := set_fld p o_sz PGSIZE _).
  assert (fld k4 p o_tf = ks + KSTACKSIZE - TF_SIZE) as Etf by (unfold k4, k2, new_proc, new_words; uwords). rewrite Etf.
  set (tf := ks + KSTACKSIZE - TF_SIZE) in *. apply wp_bind, wp_on_km, wp_on_mem.
  do 7 (apply wp_bind, wp_frame_store). tsteps. set (k5 := set_fld p (o_name + 3) _ _).
  destruct (namei_root k5 Hir) as [c Ec]. eapply wp_run; [exact Ec|]. cbv beta. tsteps. change (ptr_of (Some 0%nat)) with 1.
  exists p, free4. unfold k5, k4, k2, tf.
  epose proof (first_proc_intro initcode k ks d l p m3 m4 free4 ?[n0] ?[n1] ?[n2] ?[n3] c Hk Hin Hst B4 ltac:(by eapply low_trans)) as Hfp.
  unfold user_done, with_space, first_frame in Hfp. cbv zeta in Hfp.
  cbn [km mem kf fb flog icache set_km set_fld set_tab set_initproc].
  exact Hfp.
Qed.

(** What the first process is made from is not in memory, and what it consists of is above
    the kernel. *)
Lemma first_proc_from initcode k0 k k' p free' : tab k = tab k0 -> nextpid k = nextpid k0 -> kf k = kf k0 ->
  first_proc initcode k k' p free' -> first_proc initcode k0 k' p free'.
Proof.
  intros E1 E2 E3 [F1 F2 F3 F4 F5 F6 F7 F8 F9 F10 F11 F12 F13]. unfold state, fld in *. rewrite E1 in *. rewrite E2 in *. rewrite E3 in *. by split.
Qed.

Lemma first_proc_low initcode k k1 k2 p free' : (forall a, end_ <= a -> load8 (mem (km k2)) a = load8 (mem (km k1)) a) ->
  freelist (km k2) = freelist (km k1) -> use_lock (km k2) = use_lock (km k1) -> held (km k2) = held (km k1) ->
  tab k2 = tab k1 -> nextpid k2 = nextpid k1 -> initproc k2 = initproc k1 -> kf k2 = kf k1 ->
  first_proc initcode k k1 p free' -> first_proc initcode k k2 p free'.
Proof.
  intros Hm L1 L2 L3 E1 E2 E3 E4 [F1 F2 F3 F4 F5 F6 F7 F8 F9 F10 F11 F12 F13].
  assert (forall q, kpage q -> agree (mem (km k1)) (mem (km k2)) q PGSIZE) as Hag.
  { intros q (_ & Hq & _) a Ha. apply Hm. lia. }
  unfold state, fld in *. rewrite <- E1 in *. rewrite <- E2 in *. rewrite <- E3 in *. rewrite <- E4 in *.
  pose proof (proj1 F6) as Htf. pose proof F7 as (_ & Hlo & _).
  split; try done.
  - apply (kstack_ready_ext (mem (km k1))); [done|]. intros a Ha. apply Hm. unfold fld, KSTACKSIZE, TF_SIZE, CONTEXT_SIZE in *. lia.
  - destruct F8. unfold KSTACKSIZE, TF_SIZE in *. split; (rewrite (load32_ext (mem (km k2)) (mem (km k1))); [assumption|]; intros i Hi; apply Hm; unfold fld; tfo; lia).
  - by apply (uvm_wf_frame (km k1) (km k2) _ PGSIZE free'); [intros q Hq _; apply Hag| |].
  - intros va Hva. rewrite (ubyte_frame (km k1) (km k2) _ PGSIZE free'), (pte_frame (km k1) (km k2) _ PGSIZE free') by (try done; intros q Hq _; by apply Hag).
    by apply F11.
  - destruct F13 as [K1 K2 K3 K4]. split; [|done|done|unfold unlocked in *; by rewrite L2, L3]. rewrite L1. eapply flist_agree; [exact K1|].
    intros q Hq. apply Hag. by eapply Forall_forall in K3.
Qed.

(** ** The first process runs *)

(** forkret, where a process that was never switched to starts; [first] is its static
    variable, [initlog] what it calls once. *)
Definition forkret_code (initlog : M kern unit) (first : bool) : M kern bool :=
  on_km (release L_ptable) ;;
  (if first then initlog else ret tt) ;;
  ret false.

(** The scheduler switches to the only process it can run. *)
Lemma scheduler_picks l p k : p ∈ l -> state k p = RUNNABLE -> (forall q, q ∈ l -> q <> p -> state k q <> RUNNABLE) -> fld k p o_pgdir <> 0 ->
  scheduler_from l k = Done p (set_fld p o_state RUNNING (set_km (set_cr3 (v2p (fld k p o_pgdir)) (km k)) (set_proc p k))).
Proof.
  intros Hp Hst Ho Hd. induction l as [|q l IH]; [by apply not_elem_of_nil in Hp|]. cbn [scheduler_from].
  destruct (decide (q = p)) as [->|Hne].
  - assert (scheduler_body p k = Done true (set_fld p o_state RUNNING (set_km (set_cr3 (v2p (fld k p o_pgdir)) (km k)) (set_proc p k)))) as E.
    { unfold scheduler_body. rewrite (bind_run _ _ k (state k p) k), Hst by done. change (negb (RUNNABLE =? RUNNABLE)) with false. cbv iota.
      rewrite (bind_run _ _ k tt (set_proc p k)) by done. rewrite (bind_run _ _ _ (fld k p o_pgdir) (set_proc p k)) by done.
      rewrite (bind_run _ _ _ tt (set_km (set_cr3 (v2p (fld k p o_pgdir)) (km k)) (set_proc p k))); [done|].
      unfold on_km, switchuvm. by rewrite (proj2 (Z.eqb_neq _ 0) Hd). }
    by rewrite (bind_run _ _ _ _ _ E).
  - assert (scheduler_body q k = Done false k) as E.
    { unfold scheduler_body. rewrite (bind_run _ _ k (state k q) k) by done.
      by rewrite (proj2 (Z.eqb_neq _ _) (Ho q (list_elem_of_here _ _) Hne)). }
    rewrite (bind_run _ _ _ _ _ E). apply IH; [by apply elem_of_cons in Hp as [->|Hp]|].
    intros r Hr. apply Ho. apply elem_of_cons. by right.
Qed.

(** [initlog] is only known to keep the process. *)
Definition keeps (initlog : M kern unit) : Prop :=
  forall k, returns initlog k (fun _ k' => km k' = km k /\ tab k' = tab k /\ proc k' = proc k).

(** The scheduler switches to [p], and forkret leaves it without a lock, on its own page table,
    with the trap frame that userinit made. *)
Definition runs_first (p : Z) (free : list Z) (k : kern) : Prop := forall initlog, keeps initlog ->
  returns (let! q := scheduler in forkret_code initlog true ;; ret q) k (fun q k' => q = p /\
    proc k' = p /\ state k' p = RUNNING /\ held (km k') = [] /\ cr3 (km k') = v2p (fld k' p o_pgdir) /\
    uvm_wf (mem (km k')) (fld k' p o_pgdir) PGSIZE free /\ frame_ok (mem (km k')) (fld k' p o_tf)).

(** From what userinit leaves, with no other process, the first process runs. *)
Lemma first_process_runs initcode k0 k p free : first_proc initcode k0 k p free ->
  (forall q, q ∈ slots -> state k0 q = UNUSED) -> held (km k) = [] -> runs_first p free k.
Proof.
  intros Hfp H0 Hh initlog Hlog. pose proof (fp_slot _ _ _ _ _ Hfp) as [Hin _]. pose proof (fp_mem _ _ _ _ _ Hfp) as Hw.
  assert (fld k p o_pgdir <> 0) as Hd.
  { pose proof (wf_dir _ _ _ (uw_as _ _ _ _ Hw)) as Hd. apply kpage_range in Hd. lia. }
  unfold scheduler. apply wp_bind, wp_bind, wp_on_km, wp_acquire; [rewrite Hh; apply not_elem_of_nil|]. rewrite Hh.
  set (k1 := set_km _ k).
  eapply wp_run; [apply (scheduler_picks slots p k1); [done|apply (fp_state _ _ _ _ _ Hfp)| |done]|].
  { intros q Hq Hne. change (state k1 q) with (state k q). rewrite (fp_others _ _ _ _ _ Hfp q Hne), (H0 q Hq). done. }
  cbv beta. set (k2 := set_fld _ _ _ _). unfold forkret_code. apply wp_bind, wp_bind, wp_on_km, wp_release; [by left|].
  apply wp_bind. eapply wp_mono; [apply Hlog| |done]. intros [] k3 (E1 & E2 & E3). cbv beta. tsteps. split; [done|].
  unfold state, fld. rewrite E1, E2, E3. split; [done|].
  change (tab (set_km _ k2)) with (tab k2). split; [by unfold k2, set_fld; cbn [tab set_tab]; rewrite upd_eq|].
  assert (forall o, o <> o_state -> 0 <= o < PROC_WORDS -> tab k2 (word p o) = fld k p o) as Ht.
  { intros o Ho Hr. unfold k2, set_fld. cbn [tab set_tab]. rewrite upd_ne; [done|]. word_neq. }
  rewrite !Ht by word_neq.
  split; [|split; [done|split; [exact Hw|exact (fp_frame _ _ _ _ _ Hfp)]]].
  change (drop_lock L_ptable [L_ptable] = []). by vm_compute.
Qed.
End userinit.
