(* ===== verification/ExecLoad.v ===== *)
(** * Loading a program and its arguments

    The loops of exec over the program headers and over the arguments, on an address
    space under construction (ExecMem.v): what ends up in memory is the image the
    headers describe, and on the stack the arguments as main takes them. *)

From S2P Require Import Pipe Bytes FsFormat Fs Inode InodeData Dir.
From S2P Require Import Prelude Mmu Memory Kstate Kalloc PageTable Uvm UvmFree Cow Boot Kernel Sched File Proc Syscall.
From S2P Require Import Exec ExecMem.

(** ** Files that reads do not change *)

Definition fdata (f : fs) (ip : nat) (off n : Z) : list Z := fbytes (fb f) (di f ip) off n.

(** A file without holes: readi allocates nothing. *)
Record solid (f : fs) (ip : nat) : Prop := {
  so_wf : fs_wf (fb f);
  so_type : di_type (di f ip) <> T_DEV;
  so_size : 0 <= di_size (di f ip) <= MAXBYTES;
  so_filled : filled f ip 0 (di_size (di f ip)) }.

Lemma zlen_fdata f ip off n : 0 <= n -> zlen (fdata f ip off n) = n.
Proof. intros Hn. unfold fdata, fbytes, zlen. rewrite length_map, length_seq. lia. Qed.

Lemma fdata_split f ip off m n : 0 <= m -> 0 <= n -> fdata f ip off (m + n) = fdata f ip off m ++ fdata f ip (off + m) n.
Proof. apply fbytes_split. Qed.

(** The state of the kernel while the file is locked. *)
Definition fs_cwd (k : kern) : nat := Z.to_nat (fld k (proc k) o_cwd - 1).

Lemma on_fs_run {A} (c : M fs A) k a f : cwd (kf k) = fs_cwd k -> c (kf k) = Done a f ->
  on_fs c k = Done a (set_kf f k).
Proof. intros Hc He. unfold on_fs. fold (fs_cwd k). rewrite <- Hc. destruct (kf k). simpl in *. by rewrite He. Qed.

Lemma new_pages_add a b c : 0 <= a <= b -> b <= c -> c < KERNBASE ->
  (new_pages a b + new_pages b c = new_pages a c)%nat.
Proof.
  intros Ha Hb Hc. pose proof (new_pages_eq a b ltac:(lia) ltac:(lia)). pose proof (new_pages_eq b c ltac:(lia) ltac:(lia)).
  pose proof (new_pages_eq a c ltac:(lia) ltac:(lia)). unfold PGSIZE in *. lia.
Qed.

Section load.
Context `{Layout}.
Context (devread : Z -> option (nat -> Z -> M fs (Z * list Z))).
Context (f : fs) (ip : nat) (Hsolid : solid f ip).
Let size : Z := di_size (di f ip).

Definition locked (k : kern) : Prop := kf k = f /\ cwd f = fs_cwd k.

Lemma locked_km k s : locked k -> locked (set_km s k).
Proof. done. Qed.

Lemma read_run k off n : locked k -> 0 <= off -> 0 <= n -> off + n <= size ->
  on_fs (readi devread ip off n) k = Done (n, fdata f ip off n) k.
Proof.
  intros [Hk Hc] Ho Hn Hs. destruct Hsolid as [S1 S2 S3 S4]. fold size in S3, S4.
  assert (MAXBYTES = 71680) as HM by done.
  rewrite (on_fs_run _ k (n, fdata f ip off n) f); [by destruct k; simpl in *; subst|congruence|].
  rewrite Hk. rewrite (readi_pure devread ip off n f); fold size; try done; try lia.
  - by rewrite Z.min_l by lia.
  - rewrite Z.min_l by lia. intros p Hp. apply S4. lia.
Qed.

(** ** loaduvm *)

Lemma loaduvm_loop_ok fuel s0 l0 d sz free fl a off n : forall k i img,
  building s0 l0 (km k) d sz free img fl -> locked k ->
  a mod PGSIZE = 0 -> 0 <= a -> i mod PGSIZE = 0 -> 0 <= i -> i < n + PGSIZE -> 0 <= n -> a + n <= sz ->
  0 <= off -> off + n <= size -> (n + PGSIZE - i) / PGSIZE < Z.of_nat fuel ->
  returns (loaduvm_loop devread fuel d a ip i off n) k (fun r k' => r = 0 /\ k' = set_km (km k') k /\
    building s0 l0 (km k') d sz free (put_img (a + i) (fdata f ip (off + i) (n - i)) img) fl).
Proof.
  induction fuel as [|fuel IH]; intros k i img Hb Hlk Ha Ha0 Hi Hi0 Hin Hn Hsz Ho Hos Hf; [mmlia|].
  pose proof Hb as [B1 B2 _ _ _ _ _ _ _]. pose proof (uw_size _ _ _ _ B2) as Hs.
  destruct (PGROUNDUP_user sz Hs) as (U1 & U2 & U3 & U4). assert (MAXBYTES = 71680) as HM by done.
  pose proof (so_size _ _ Hsolid) as Hsi. fold size in Hsi. cbn [loaduvm_loop].
  destruct (Z.ltb_spec i n) as [Hlt|Hge].
  2: { steps. split; [done|]. split; [by destruct k|]. eapply building_ext; [exact Hb|]. intros va _. split; [|done].
       symmetry. apply put_img_out. replace (fdata f ip (off + i) (n - i)) with (@nil Z); [unfold zlen; simpl; lia|].
       unfold fdata, fbytes. by replace (Z.to_nat (n - i)) with 0%nat by lia. }
  rewrite u32_small by mmlia.
  destruct (walk_present (mem (km k)) d sz free (a + i) (km k) eq_refl B2) as (Hw & Hnz & Hld); [lia|].
  apply wp_bind, wp_on_km. eapply wp_run; [exact Hw|]. cbv beta. rewrite (proj2 (Z.eqb_neq _ 0) Hnz).
  apply wp_bind, wp_on_km, wp_load. cbn [km set_km]. rewrite Hld. fold (upage (mem (km k)) d (a + i)).
  assert (set_km (km k) (set_km (km k) k) = k) as -> by by destruct k.
  rewrite (u32_small (off + i)) by (mmlia).
  set (m := if n - i <? PGSIZE then n - i else PGSIZE).
  assert (0 < m <= PGSIZE /\ i + m <= n /\ (m = n - i \/ m = PGSIZE)) as Hm
    by (unfold m; destruct (Z.ltb_spec (n - i) PGSIZE); mmlia). clearbody m.
  apply wp_bind. eapply wp_run; [apply (read_run k (off + i) m Hlk); lia|]. cbv beta iota.
  apply wp_bind, wp_on_km, wp_on_mem. rewrite Z.eqb_refl. cbn [negb].
  set (bs := fdata f ip (off + i) m). assert (zlen bs = m) as Hbs by (apply zlen_fdata; lia).
  assert (building s0 l0 (set_mem (write_bytes (mem (km k)) (upage (mem (km k)) d (a + i)) bs) (km k)) d sz free
            (put_img (a + i) bs img) fl) as Hb1.
  { pose proof (building_write s0 l0 (km k) d sz free img fl (a + i) bs Hb) as Hx.
    replace ((a + i) mod PGSIZE) with 0 in Hx by mmlia. rewrite Z.add_0_r in Hx. apply Hx; lia. }
  rewrite u32_small by mmlia. set (k1 := set_km _ k).
  eapply wp_mono; [apply (IH k1 (i + PGSIZE) (put_img (a + i) bs img)); try done; mmlia| |done].
  intros r k' (-> & Hk' & Hb'). split; [done|]. split; [rewrite Hk'; by destruct k|].
  eapply building_ext; [exact Hb'|]. intros va _. split; [|done].
  destruct Hm as (Hm1 & Hm2 & [->| ->]).
  - fold bs. rewrite put_img_out; [done|]. unfold fdata, fbytes.
    replace (Z.to_nat (n - (i + PGSIZE))) with 0%nat by lia. unfold zlen. simpl. lia.
  - replace (n - i) with (PGSIZE + (n - (i + PGSIZE))) by lia. rewrite fdata_split by mmlia. fold bs.
    rewrite <- put_img_app. rewrite Hbs. by rewrite !Z.add_assoc.
Qed.

Lemma loaduvm_ok s0 l0 d sz free fl a off n k img :
  building s0 l0 (km k) d sz free img fl -> locked k -> a mod PGSIZE = 0 -> 0 <= a -> 0 <= n -> a + n <= sz ->
  0 <= off -> off + n <= size ->
  returns (loaduvm devread d a ip off n) k (fun r k' => r = 0 /\ k' = set_km (km k') k /\
    building s0 l0 (km k') d sz free (put_img a (fdata f ip off n) img) fl).
Proof.
  intros Hb Hlk Ha Ha0 Hn Hsz Ho Hos. unfold loaduvm. rewrite Ha. cbn [Z.eqb negb].
  eapply returns_mono; [apply (loaduvm_loop_ok _ s0 l0 d sz free fl a off n k 0 img); try done; mmlia|].
  by rewrite !Z.add_0_r, Z.sub_0_r.
Qed.

(** ** The program headers *)

(** The headers in the file from [off] on. *)
Fixpoint headers (n : nat) (off : Z) : list proghdr :=
  match n with
  | O => []
  | S n => ph_of (fdata f ip off PROGHDR_SZ) :: headers n (off + PROGHDR_SZ)
  end.

(** The size and the bytes of the program they describe. *)
Fixpoint program (phs : list proghdr) (sz : Z) (img : Z -> Z) : Z * (Z -> Z) :=
  match phs with
  | [] => (sz, img)
  | ph :: phs =>
      if ph_type ph =? ELF_PROG_LOAD then
        program phs (Z.max sz (ph_vaddr ph + ph_memsz ph))
          (put_img (ph_vaddr ph) (fdata f ip (ph_off ph) (ph_filesz ph)) img)
      else program phs sz img
  end.

(** A segment exec accepts: in the file, page aligned, below the kernel, not empty. *)
Definition seg_ok (ph : proghdr) : Prop :=
  ph_type ph = ELF_PROG_LOAD ->
  ph_filesz ph <= ph_memsz ph /\ ph_vaddr ph mod PGSIZE = 0 /\ 0 < ph_vaddr ph + ph_memsz ph < KERNBASE /\
  ph_off ph + ph_filesz ph <= size.

Lemma ph_of_range l : zlen l = PROGHDR_SZ -> 0 <= ph_vaddr (ph_of l) /\ 0 <= ph_memsz (ph_of l) /\
  0 <= ph_off (ph_of l) /\ 0 <= ph_filesz (ph_of l).
Proof.
  intros Hl. unfold PROGHDR_SZ in Hl. cbn [ph_of ph_vaddr ph_memsz ph_off ph_filesz].
  repeat split; apply rd_range; rewrite ?Hl; lia.
Qed.

Lemma program_size phs sz img : sz <= (program phs sz img).1.
Proof. revert sz img. induction phs as [|ph phs IH]; intros sz img; cbn [program]; [done|]. case_match; [|apply IH]. etrans; [|apply IH]. lia. Qed.

Lemma program_below phs sz img : Forall seg_ok phs -> sz < KERNBASE -> (program phs sz img).1 < KERNBASE.
Proof.
  revert sz img. induction phs as [|x xs IHx]; intros sz img Hseg Hm; cbn [program]; [done|].
  apply Forall_cons in Hseg as [Hx Hseg]. destruct (Z.eqb_spec (ph_type x) ELF_PROG_LOAD) as [E|E]; [|by apply IHx].
  apply IHx; [done|]. destruct (Hx E) as (_ & _ & ? & _). lia.
Qed.

Lemma building_grow s0 l0 d sz free img s newsz :
  building s0 l0 s d sz free img (fun _ => UWP) -> 0 <= newsz < KERNBASE ->
  (2 * new_pages sz (Z.max sz newsz) <= length free)%nat -> (forall va, PGROUNDUP sz <= va -> img va = 0) ->
  returns (allocuvm d sz newsz) s (fun r s' => r = Z.max sz newsz /\ exists free',
    (length free <= length free' + 2 * new_pages sz (Z.max sz newsz))%nat /\
    building s0 l0 s' d (Z.max sz newsz) free' img (fun _ => UWP)).
Proof.
  intros Hb Hn Hl Himg. destruct (decide (sz <= newsz)).
  - rewrite Z.max_r in * by lia. apply building_alloc; [done|lia|done|done].
  - rewrite Z.max_l in * by lia. unfold allocuvm. rewrite (proj2 (Z.leb_gt _ _)), (proj2 (Z.ltb_lt _ _)) by lia.
    steps. split; [done|]. exists free. split; [lia|done].
Qed.

Lemma load_segments_ok n s0 l0 d : forall k off sz free img,
  building s0 l0 (km k) d sz free img (fun _ => UWP) -> locked k -> 0 <= off -> off + PROGHDR_SZ * Z.of_nat n <= size ->
  Forall seg_ok (headers n off) -> (forall va, sz <= va -> img va = 0) ->
  (2 * new_pages sz (program (headers n off) sz img).1 <= length free)%nat ->
  returns (load_segments devread n d ip off sz) k (fun r k' =>
    let '(top, img') := program (headers n off) sz img in
    r = Some top /\ k' = set_km (km k') k /\ (forall va, top <= va -> img' va = 0) /\ sz <= top < KERNBASE /\
    exists free', (length free <= length free' + 2 * new_pages sz top)%nat /\
      building s0 l0 (km k') d top free' img' (fun _ => UWP)).
Proof.
  induction n as [|n IH]; intros k off sz free img Hb Hlk Ho Hoff Hseg Himg Hroom; cbn [headers program load_segments] in *.
  { steps. split; [done|]. split; [by destruct k|]. split; [done|]. pose proof (uw_size _ _ _ _ (bu_wf _ _ _ _ _ _ _ _ Hb)).
    split; [lia|]. exists free. split; [lia|done]. }
  pose proof (so_size _ _ Hsolid) as Hsi. fold size in Hsi. assert (MAXBYTES = 71680) as HM by done.
  pose proof (uw_size _ _ _ _ (bu_wf _ _ _ _ _ _ _ _ Hb)) as Hs.
  apply Forall_cons in Hseg as [Hsg Hseg]. set (l := fdata f ip off PROGHDR_SZ) in *.
  assert (zlen l = PROGHDR_SZ) as Hl by (by apply zlen_fdata). unfold PROGHDR_SZ in Hoff, Hl.
  destruct (ph_of_range l Hl) as (P1 & P2 & P3 & P4). set (ph := ph_of l) in *.
  apply wp_bind. eapply wp_run; [apply (read_run k off PROGHDR_SZ Hlk); unfold PROGHDR_SZ; lia|].
  cbv beta iota. rewrite Z.eqb_refl. cbn [negb]. fold l ph.
  rewrite (u32_small (off + PROGHDR_SZ)) by (unfold PROGHDR_SZ; lia).
  destruct (Z.eqb_spec (ph_type ph) ELF_PROG_LOAD) as [Ht|Ht]; cbn [negb].
  2: { apply IH; try done; unfold PROGHDR_SZ; lia. }
  destruct (Hsg Ht) as (G1 & G2 & G3 & G4). rewrite (proj2 (Z.ltb_ge _ _)) by lia.
  rewrite u32_small by mmlia. set (end_ := ph_vaddr ph + ph_memsz ph) in *. set (mx := Z.max sz end_) in *.
  set (img1 := put_img (ph_vaddr ph) (fdata f ip (ph_off ph) (ph_filesz ph)) img) in *.
  pose proof (program_size (headers n (off + PROGHDR_SZ)) mx img1) as Htop.
  assert (forall va, mx <= va -> img1 va = 0) as Himg1.
  { intros va Hva. unfold img1. rewrite put_img_out; [apply Himg; lia|]. rewrite zlen_fdata by lia. lia. }
  assert ((program (headers n (off + PROGHDR_SZ)) mx img1).1 < KERNBASE) as Htop2.
  { apply program_below; [done|lia]. }
  set (top := program _ mx img1) in *.
  pose proof (new_pages_add sz mx top.1 ltac:(lia) ltac:(lia) Htop2) as Hnp.
  apply wp_bind, wp_on_km. eapply wp_mono; [apply (building_grow s0 l0 d sz free img); fold mx; try done; try lia| |done].
  { intros va Hva. apply Himg. destruct (PGROUNDUP_user sz Hs) as (_ & ? & _). lia. }
  fold mx. intros r s' (-> & free1 & Hl1 & Hb1). cbv beta. rewrite (proj2 (Z.eqb_neq mx 0)) by lia.
  apply wp_bind. set (k1 := set_km s' k).
  eapply wp_mono; [apply (loaduvm_ok s0 l0 d mx free1 (fun _ => UWP) (ph_vaddr ph) (ph_off ph) (ph_filesz ph) k1 img);
    try done; lia| |done].
  intros r k2 (-> & Hk2 & Hb2). cbn [Z.ltb Z.compare].
  eapply wp_mono; [apply (IH k2 (off + PROGHDR_SZ) mx free1 img1)| |done]; try done.
  - rewrite Hk2. done.
  - unfold PROGHDR_SZ. lia.
  - unfold PROGHDR_SZ. lia.
  - fold top. lia.
  - fold top. destruct top as [t i]. simpl in *. intros r k3 (-> & Hk3 & Hi & Ht3 & free3 & Hl3 & Hb3).
    split; [done|]. split; [rewrite Hk3, Hk2; by destruct k|]. split; [done|]. split; [lia|].
    exists free3. split; [lia|done].
Qed.

(** ** A segment in the kernel

    exec does not test whether [vaddr + memsz] wraps around.  When it does, allocuvm sees a
    small size and succeeds, and loaduvm finds the pages of the kernel at [vaddr], which
    every page table maps: it copies the file there. *)
Lemma loaduvm_kernel k d sz free a off n : locked k -> uvm_wf (mem (km k)) d sz free ->
  data_ <= a -> a mod PGSIZE = 0 -> a + PGSIZE <= KERNBASE + PHYSTOP -> 0 < n <= PGSIZE -> 0 <= off -> off + n <= size ->
  loaduvm devread d a ip off n k =
    Done 0 (set_km (set_mem (write_bytes (mem (km k)) a (fdata f ip off n)) (km k)) k).
Proof.
  intros Hlk Hwf Ha Hal Hhi Hn Ho Hos. pose proof data_above as Hda. unfold KERNLINK, EXTMEM in Hda. assert (KERNBASE = 2147483648 /\ PHYSTOP = 234881024) as [HK HP] by done.
  pose proof (so_size _ _ Hsolid) as Hsi. fold size in Hsi. assert (MAXBYTES = 71680) as HM by done.
  assert (pte (mem (km k)) d a = kernel_view a) as Hv by (apply (uw_kern _ _ _ _ Hwf); unfold PGSIZE in *; lia).
  destruct (kernel_view_ram a) as (V1 & V2); [unfold PGSIZE in *; lia|]. rewrite <- Hv in V1, V2.
  assert (present (pde (mem (km k)) d (PDX a)) = true) as Hpd.
  { unfold pte in V1. destruct (present (pde _ _ _)); [done|by rewrite present_0 in V1]. }
  assert (pte_addr (mem (km k)) d a <> 0) as Hnz.
  { destruct (wf_tab _ _ _ (uw_as _ _ _ _ Hwf) (PDX a)) as [Hkp _]; [apply PDX_range|by rewrite Hpd|].
    pose proof (kpage_range _ Hkp). pose proof (PTX_range a). unfold pte_addr. lia. }
  apply returns_eq. unfold loaduvm. rewrite Hal. cbn [Z.eqb negb].
  replace (Z.to_nat (n / PGSIZE + 2)) with (S (S (Z.to_nat (n / PGSIZE)))) by mmlia. cbn [loaduvm_loop].
  rewrite (proj2 (Z.ltb_lt 0 n)), Z.add_0_r, u32_small by (unfold PGSIZE in *; lia).
  apply wp_bind, wp_on_km. eapply wp_run; [apply walkpgdir_run|]. cbv beta. rewrite Hpd, (proj2 (Z.eqb_neq _ 0) Hnz).
  apply wp_bind, wp_on_km, wp_load. cbn [km set_km].
  replace (load32 (mem (km k)) (pte_addr (mem (km k)) d a)) with (pte (mem (km k)) d a) by (unfold pte; by rewrite Hpd).
  assert (set_km (km k) (set_km (km k) k) = k) as -> by by destruct k.
  rewrite Z.sub_0_r, Z.add_0_r, (u32_small off) by lia.
  replace (if n <? PGSIZE then n else PGSIZE) with n by (destruct (Z.ltb_spec n PGSIZE); lia).
  apply wp_bind. eapply wp_run; [apply (read_run k off n Hlk); lia|]. cbv beta iota.
  apply wp_bind, wp_on_km, wp_on_mem. rewrite Z.eqb_refl. cbn [negb]. change (u32 (0 + PGSIZE)) with PGSIZE.
  rewrite (proj2 (Z.ltb_ge _ n)) by lia. step. split; [done|].
  replace (p2v (PTE_ADDR (pte (mem (km k)) d a))) with a; [done|].
  rewrite V2, Hal, Z.sub_0_r. unfold p2v. rewrite u32_small by (unfold PGSIZE in *; lia). lia.
Qed.

(** A program header of that kind, in an otherwise empty program: the loader accepts it
    and the bytes of the file are in the memory of the kernel. *)
Lemma load_segments_kernel s0 l0 k d free off m : locked k ->
  building s0 l0 (km k) d 0 free (fun _ => 0) (fun _ => UWP) -> 0 <= off -> off + PROGHDR_SZ <= size ->
  let ph := ph_of (fdata f ip off PROGHDR_SZ) in let a := ph_vaddr ph in let n := ph_filesz ph in
  ph_type ph = ELF_PROG_LOAD -> ph_memsz ph = 2 ^ 32 - a + m -> 0 < m < KERNBASE -> (2 * new_pages 0 m <= length free)%nat ->
  data_ <= a -> a mod PGSIZE = 0 -> a + PGSIZE <= KERNBASE + PHYSTOP -> 0 < n <= PGSIZE -> ph_off ph + n <= size ->
  returns (load_segments devread 1 d ip off 0) k (fun r k' => r = Some m /\
    forall i, 0 <= i < n -> load8 (mem (km k')) (a + i) = u8 (fdata f ip (ph_off ph) n !!! Z.to_nat i)).
Proof.
  intros Hlk Hb Ho Hos ph a n Ht Hms Hm Hroom Ha Hal Hhi Hn Hon. assert (KERNBASE = 2147483648 /\ PHYSTOP = 234881024) as [HK HP] by done.
  pose proof data_above as Hda. unfold KERNLINK, EXTMEM in Hda.
  assert (zlen (fdata f ip off PROGHDR_SZ) = PROGHDR_SZ) as Hl by (by apply zlen_fdata).
  destruct (ph_of_range _ Hl) as (_ & _ & P3 & _). fold ph in P3. unfold PROGHDR_SZ in Hos.
  cbn [load_segments]. apply wp_bind. eapply wp_run; [apply (read_run k off PROGHDR_SZ Hlk); unfold PROGHDR_SZ; lia|].
  cbv beta iota. rewrite Z.eqb_refl. cbn [negb]. fold ph. rewrite Ht, Z.eqb_refl. cbn [negb].
  fold n a. rewrite (proj2 (Z.ltb_ge _ n)) by (unfold PGSIZE in *; lia).
  replace (u32 (a + ph_memsz ph)) with m.
  2: { rewrite Hms. unfold u32. replace (a + (2 ^ 32 - a + m)) with (m + 1 * 2 ^ 32) by lia. rewrite Z.mod_add by lia. symmetry. apply Z.mod_small. lia. }
  apply wp_bind, wp_on_km. eapply wp_mono; [apply (building_alloc s0 l0 (km k) d 0 free _ m Hb); try done; lia| |done].
  intros r s1 (-> & free1 & _ & Hb1). cbv beta. rewrite (proj2 (Z.eqb_neq m 0)) by lia. set (k1 := set_km s1 k).
  apply wp_bind. eapply wp_run; [apply (loaduvm_kernel k1 d m free1 a (ph_off ph) n); try done; apply Hb1|]. cbv beta.
  cbn [Z.ltb Z.compare]. step. split; [done|]. intros i Hi. cbn [km set_km mem set_mem]. rewrite load8_write_bytes, put_img_in.
  - do 3 f_equal. lia.
  - unfold n in *. rewrite zlen_fdata by lia. lia.
Qed.
End load.
