(* ===== verification/ExecArgs.v ===== *)
(** * The arguments of a new program

    exec copies the argument strings from the old address space, which the kernel still
    runs on, to the top of the new one, and below them the array argv, argc and a return
    address: the stack main finds. *)

From S2P Require Import Pipe Bytes FsFormat Fs Inode InodeData Dir.
From S2P Require Import Prelude Mmu Memory Kstate Kalloc PageTable Uvm UvmFree Cow Boot Kernel Sched File Proc Syscall.
From S2P Require Import Exec ExecMem.

(** ** Strings and words in an image *)

Definition img_string (img : Z -> Z) (p : Z) (l : list Z) : Prop :=
  (forall i b, l !! i = Some b -> img (p + Z.of_nat i) = b) /\ img (p + zlen l) = 0.

Definition img_word (img : Z -> Z) (p : Z) : Z :=
  img p + img (p + 1) * 2 ^ 8 + img (p + 2) * 2 ^ 16 + img (p + 3) * 2 ^ 24.

Lemma img_string_ext img img' p l : img_string img p l ->
  (forall va, p <= va < p + zlen l + 1 -> img' va = img va) -> img_string img' p l.
Proof.
  intros [H1 H2] He. split.
  - intros i b Hi. rewrite He; [by apply H1|]. apply lookup_lt_Some in Hi. unfold zlen. lia.
  - rewrite He; [done|]. pose proof (zlen_nonneg l). lia.
Qed.

Lemma img_string_put img p l : Forall (fun b => 0 <= b < 256) l -> img_string (put_img p (l ++ [0]) img) p l.
Proof.
  intros Hl. pose proof (zlen_app l [0]) as Ha. change (zlen [0]) with 1 in Ha. pose proof (zlen_nonneg l). split.
  - intros i b Hi. pose proof (lookup_lt_Some _ _ _ Hi). rewrite put_img_in by (unfold zlen in *; lia).
    replace (Z.to_nat (p + Z.of_nat i - p)) with i by lia.
    rewrite lookup_total_app_l by done. rewrite (list_lookup_total_correct _ _ _ Hi). apply Z.mod_small.
    by apply (Forall_lookup_1 _ _ _ _ Hl Hi).
  - rewrite put_img_in by lia. replace (Z.to_nat (p + zlen l - p)) with (length l) by (unfold zlen; lia).
    rewrite lookup_total_app_r by lia. by rewrite Nat.sub_diag.
Qed.

Lemma le_bytes_4 v : le_bytes 4 v = [v mod 256; v / 256 mod 256; v / 256 / 256 mod 256; v / 256 / 256 / 256 mod 256].
Proof. reflexivity. Qed.

Lemma u8_mod v : u8 (v mod 256) = v mod 256.
Proof. unfold u8. apply Z.mod_mod. done. Qed.

Lemma img_word_put ws : forall img p j w, ws !! j = Some w -> 0 <= w < 2 ^ 32 ->
  img_word (put_img p (flat_map (le_bytes 4) ws) img) (p + 4 * Z.of_nat j) = w.
Proof.
  induction ws as [|x ws IH]; intros img p j w Hj Hw; [done|]. cbn [flat_map].
  assert (forall va, put_img p (le_bytes 4 x ++ flat_map (le_bytes 4) ws) img va =
    put_img (p + 4) (flat_map (le_bytes 4) ws) (put_img p (le_bytes 4 x) img) va) as He
    by (intros va; by rewrite <- put_img_app, zlen_le_bytes).
  unfold img_word. rewrite !He. destruct j as [|j].
  - injection Hj as ->. rewrite Z.mul_0_r, Z.add_0_r. rewrite !(put_img_out (p + 4)) by lia.
    rewrite !put_img_in by (rewrite zlen_le_bytes; lia). rewrite le_bytes_4.
    replace (p - p) with 0 by lia. replace (p + 1 - p) with 1 by lia. replace (p + 2 - p) with 2 by lia.
    replace (p + 3 - p) with 3 by lia.
    change (Z.to_nat 0) with 0%nat. change (Z.to_nat 1) with 1%nat. change (Z.to_nat 2) with 2%nat. change (Z.to_nat 3) with 3%nat.
    cbn [lookup_total list_lookup_total]. rewrite !u8_mod. change (2 ^ 8) with 256. change (2 ^ 16) with 65536.
    change (2 ^ 24) with 16777216. change (2 ^ 32) with 4294967296 in Hw. zlia.
  - specialize (IH (put_img p (le_bytes 4 x) img) (p + 4) j w Hj Hw).
    replace (p + 4 * Z.of_nat (S j)) with (p + 4 + 4 * Z.of_nat j) by lia. exact IH.
Qed.

Lemma zlen_words ws : zlen (flat_map (le_bytes 4) ws) = 4 * zlen ws.
Proof.
  induction ws as [|w ws IH]; [done|]. cbn [flat_map]. rewrite zlen_app, zlen_le_bytes, IH. unfold zlen. simpl length. lia.
Qed.

(** ** The layout of the stack *)

(** Where the string goes below [sp], and where the last one of [args] goes. *)
Definition arg_sp (sp : Z) (arg : list Z) : Z := let a := sp - (zlen arg + 1) in a - a mod 4.
Definition args_sp (sp : Z) (args : list (list Z)) : Z := fold_left arg_sp args sp.

(** What main finds at [sp]: a return address, argc, argv; [argv] ends with a null pointer,
    and the strings lie below [hi]. *)
Definition main_stack (img : Z -> Z) (sp hi : Z) (args : list (list Z)) : Prop :=
  let argv := sp + 12 in
  img_word img sp = 0xffffffff /\ img_word img (sp + 4) = zlen args /\ img_word img (sp + 8) = argv /\
  img_word img (argv + 4 * zlen args) = 0 /\
  forall i arg, args !! i = Some arg -> let p := img_word img (argv + 4 * Z.of_nat i) in
    sp <= p /\ p + zlen arg < hi /\ img_string img p arg.

Lemma main_stack_ext img img' sp hi args : main_stack img sp hi args -> sp + 4 * (4 + zlen args) <= hi ->
  (forall va, sp <= va < hi -> img' va = img va) -> main_stack img' sp hi args.
Proof.
  intros (H1 & H2 & H3 & H4 & H5) Hhi He. pose proof (zlen_nonneg args) as Hz.
  assert (forall va, sp <= va -> va + 4 <= hi -> img_word img' va = img_word img va) as Hw
    by (intros va ? ?; unfold img_word; by rewrite !He by lia).
  split; [|split; [|split; [|split]]]; [rewrite Hw by lia; done..|].
  intros i arg Hi. pose proof (lookup_lt_Some _ _ _ Hi). rewrite Hw by (unfold zlen in *; lia).
  destruct (H5 i arg Hi) as (P1 & P2 & P3). split; [done|]. split; [done|].
  eapply img_string_ext; [exact P3|]. intros va Hva. apply He. lia.
Qed.

Lemma arg_sp_le sp arg : arg_sp sp arg + zlen arg + 1 <= sp /\ arg_sp sp arg mod 4 = 0.
Proof. unfold arg_sp. zlia. Qed.

Lemma args_sp_le args : forall sp, args_sp sp args <= sp.
Proof.
  induction args as [|a args IH]; intros sp; [done|]. cbn [args_sp fold_left]. etrans; [apply IH|].
  destruct (arg_sp_le sp a). pose proof (zlen_nonneg a). lia.
Qed.

Section args.
Context `{Layout}.
Context (s0 : kst) (l0 : list Z) (old osz : Z).
Context (Hold : uvm_wf (mem s0) old osz l0) (Hcr3 : cr3 s0 = v2p old).

(** An argument: a string of the old address space. *)
Definition old_string (a : Z) (arg : list Z) : Prop :=
  0 <= a /\ a + zlen arg < osz /\ Forall (fun b => b <> 0) arg /\ img_string (ubyte (mem s0) old) a arg.

(** The old address space while the new one is built. *)
Definition on_old (k : kern) : Prop :=
  untouched s0 l0 (km k) /\ cr3 (km k) = cr3 s0 /\ fld k (proc k) o_sz = osz.

Lemma load_old k va : on_old k -> 0 <= va < osz -> load_byte va k = Done (ubyte (mem s0) old va) k.
Proof.
  intros (Hu & Hc & _) Hva. pose proof (uw_size _ _ _ _ Hold) as Hs.
  unfold load_byte, translate. rewrite (proj2 (Z.leb_gt _ _)) by lia. unfold mmu.
  pose proof (kpage_range _ (wf_dir _ _ _ (uw_as _ _ _ _ Hold))) as Hd.
  rewrite Hc, Hcr3, p2v_v2p by mmlia.
  rewrite (pte_frame s0 (km k) old osz l0 va Hu Hold). destruct (uw_in _ _ _ _ Hold va Hva) as (-> & _).
  cbn [negb orb andb]. rewrite <- (ubyte_frame s0 (km k) old osz l0 va Hu Hold Hva).
  unfold ubyte, upage. by rewrite (pte_frame s0 (km k) old osz l0 va Hu Hold).
Qed.

Lemma user_strlen_ok k a arg : on_old k -> old_string a arg -> forall j fuel, (j <= length arg)%nat ->
  (length arg - j < fuel)%nat -> user_strlen fuel (a + Z.of_nat j) (Z.of_nat j) k = Done (zlen arg) k.
Proof.
  intros Hk (Ha & Hn & Hnz & H1 & H2) j fuel. revert j. pose proof (uw_size _ _ _ _ Hold) as Hs.
  induction fuel as [|fuel IH]; intros j Hj Hf; [lia|]. cbn [user_strlen].
  rewrite (bind_run _ _ _ _ _ (load_old k (a + Z.of_nat j) Hk ltac:(unfold zlen in *; lia))).
  destruct (decide (j = length arg)) as [->|Hne].
  - unfold zlen in H2. by rewrite H2.
  - destruct (lookup_lt_is_Some_2 arg j) as [b Hb]; [lia|]. rewrite (H1 j b Hb).
    rewrite (proj2 (Z.eqb_neq b 0)) by exact (Forall_lookup_1 _ _ _ _ Hnz Hb).
    rewrite u32_small by (unfold zlen, KERNBASE in *; lia).
    replace (a + Z.of_nat j + 1) with (a + Z.of_nat (S j)) by lia. replace (Z.of_nat j + 1) with (Z.of_nat (S j)) by lia.
    apply IH; lia.
Qed.

Lemma load_bytes_old k a n : on_old k -> 0 <= a -> a + Z.of_nat n <= osz ->
  load_bytes a n k = Done (map (fun i => ubyte (mem s0) old (a + Z.of_nat i)) (seq 0 n)) k.
Proof.
  intros Hk. revert a. pose proof (uw_size _ _ _ _ Hold) as Hs.
  induction n as [|n IH]; intros a Ha Hn; [done|]. cbn [load_bytes].
  rewrite (bind_run _ _ _ _ _ (load_old k a Hk ltac:(lia))). rewrite u32_small by (unfold KERNBASE in *; lia).
  rewrite (bind_run _ _ _ _ _ (IH (a + 1) ltac:(lia) ltac:(lia))). unfold ret. cbn [seq map].
  rewrite Z.add_0_r. do 2 f_equal. rewrite <- seq_shift, map_map. apply map_ext. intros i. f_equal. lia.
Qed.

Lemma load_string k a arg : on_old k -> old_string a arg ->
  load_bytes a (Z.to_nat (zlen arg + 1)) k = Done (arg ++ [0]) k /\ Forall (fun b => 0 <= b < 256) arg.
Proof.
  intros Hk (Ha & Hn & Hnz & H1 & H2). pose proof (zlen_nonneg arg). split.
  - rewrite load_bytes_old by (done || lia). f_equal. apply list_eq. intros i.
    rewrite list_lookup_fmap. replace (Z.to_nat (zlen arg + 1)) with (length arg + 1)%nat by (unfold zlen; lia).
    destruct (decide (i < length arg)%nat) as [Hi|Hi].
    + rewrite lookup_seq_lt, lookup_app_l by lia. destruct (lookup_lt_is_Some_2 arg i Hi) as [b Hb].
      rewrite Hb. simpl. f_equal. by apply H1.
    + destruct (decide (i = length arg)) as [->|Hne].
      * rewrite lookup_seq_lt by lia. rewrite lookup_app_r, Nat.sub_diag by lia. simpl. f_equal. exact H2.
      * rewrite lookup_seq_ge by lia. rewrite lookup_ge_None_2 by (rewrite length_app; simpl; lia). done.
  - apply Forall_lookup. intros i b Hb. rewrite <- (H1 i b Hb). apply load8_range.
Qed.

(** ** Pushing *)

Context (d sz : Z) (free : list Z) (Hsz : sz mod PGSIZE = 0) (Hsz2 : 2 * PGSIZE <= sz).
Let fl : Z -> Z := guarded (sz - 2 * PGSIZE).

Definition placed (img : Z -> Z) (sp p : Z) (arg : list Z) : Prop :=
  sp <= p /\ p + zlen arg + 1 <= sz /\ img_string img p arg.

Lemma placed_ext img img' sp sp' ptrs args : Forall2 (placed img sp) ptrs args -> sp' <= sp ->
  (forall va, sp <= va < sz -> img' va = img va) -> Forall2 (placed img' sp') ptrs args.
Proof.
  intros HF Hsp He. eapply Forall2_impl; [exact HF|]. intros p arg (H1 & H2 & H3). split; [lia|]. split; [done|].
  eapply img_string_ext; [exact H3|]. intros va Hva. apply He. lia.
Qed.

Lemma building_on_old k img : building s0 l0 (km k) d sz free img fl -> fld k (proc k) o_sz = osz -> on_old k.
Proof.
  intros Hb Hf. split; [apply Hb|]. split; [|done]. pose proof (bu_rest _ _ _ _ _ _ _ _ Hb) as R. unfold rest in R. congruence.
Qed.

Lemma stack_copyout s img va bs : building s0 l0 s d sz free img fl -> bs <> [] ->
  sz - PGSIZE <= va -> va + zlen bs <= sz ->
  returns (copyout d va bs) s (fun r s' => r = 0 /\ building s0 l0 s' d sz free (put_img va bs img) fl).
Proof.
  intros Hb Hne Hlo Hhi. pose proof (uw_size _ _ _ _ (bu_wf _ _ _ _ _ _ _ _ Hb)).
  assert (0 < zlen bs) by (destruct bs; [done|unfold zlen; simpl; lia]).
  assert (forall v, v / PGSIZE = va / PGSIZE -> fl v = UWP) as Hfl.
  { intros v Hv. unfold fl, guarded. rewrite (proj2 (Z.eqb_neq _ _)); [done|]. mmlia. }
  apply building_copyout; try done; try mmlia; [by apply Hfl|]. intros v Hv. by rewrite !Hfl.
Qed.

Lemma push_args_ok args : forall k argv sp ustack img before,
  building s0 l0 (km k) d sz free img fl -> fld k (proc k) o_sz = osz -> Forall2 old_string argv args ->
  zlen ustack + zlen args <= MAXARG -> sz - PGSIZE <= args_sp sp args -> sp <= sz ->
  Forall2 (placed img sp) ustack before ->
  returns (push_args d sp (zlen ustack) argv ustack) k (fun r k' => exists ptrs img',
    r = Some (args_sp sp args, ptrs) /\ k' = set_km (km k') k /\ building s0 l0 (km k') d sz free img' fl /\
    Forall2 (placed img' (args_sp sp args)) ptrs (before ++ args) /\
    (forall va, va < args_sp sp args \/ sz <= va -> img' va = img va)).
Proof.
  induction args as [|arg args IH]; intros k argv sp ustack img before Hb Hf Hargs Hmax Hlo Hsp Hpl.
  { inversion Hargs; subst argv. cbn [push_args]. steps. exists ustack, img. rewrite app_nil_r.
    do 2 (split; [by destruct k|]). split; [done|]. split; [done|]. done. }
  inversion Hargs as [|a ? argv' ? Ha Hargs' E1 E2]; subst argv. cbn [push_args].
  pose proof (uw_size _ _ _ _ (bu_wf _ _ _ _ _ _ _ _ Hb)) as Hs. pose proof (uw_size _ _ _ _ Hold) as Hos.
  assert (zlen (arg :: args) = zlen args + 1) as Hz by (unfold zlen; simpl length; lia). rewrite Hz in Hmax.
  pose proof (zlen_nonneg args). pose proof (zlen_nonneg arg).
  cbn [args_sp fold_left] in Hlo |- *. fold (args_sp (arg_sp sp arg) args) in Hlo |- *.
  destruct (arg_sp_le sp arg) as [A1 A2]. pose proof (args_sp_le args (arg_sp sp arg)) as A3.
  rewrite (proj2 (Z.leb_gt MAXARG _)) by lia.
  pose proof (building_on_old k img Hb Hf) as Ho. destruct (load_string k a arg Ho Ha) as [Hld Hby].
  tsteps. rewrite Hf. eapply wp_run.
  { pose proof (user_strlen_ok k a arg Ho Ha 0 (S (Z.to_nat osz))) as Hlen. rewrite Z.add_0_r in Hlen. apply Hlen; [lia|].
    destruct Ha as (? & ? & _). unfold zlen in *. lia. }
  cbv beta.
  assert (Z.land (u32 (sp - (zlen arg + 1))) (u32 (Z.lnot 3)) = arg_sp sp arg) as ->.
  { rewrite u32_small by mmlia. change (u32 (Z.lnot 3)) with (2 ^ 32 - 2 ^ 2). rewrite land_himask by mmlia. done. }
  apply wp_bind. eapply wp_run; [exact Hld|]. cbv beta.
  pose proof (zlen_app arg [0]) as Hz1. change (zlen [0]) with 1 in Hz1.
  apply wp_bind, wp_on_km. eapply wp_mono; [apply (stack_copyout (km k) img (arg_sp sp arg) (arg ++ [0]) Hb)| |done];
    [by destruct arg|lia|lia|].
  intros r s1 [-> Hb1]. cbn [Z.ltb Z.compare]. set (img1 := put_img _ _ img) in *.
  assert (forall va, va < arg_sp sp arg \/ sp <= va -> img1 va = img va) as Hi1.
  { intros va Hva. apply put_img_out. lia. }
  replace (zlen ustack + 1) with (zlen (ustack ++ [arg_sp sp arg])) by (by rewrite zlen_app).
  eapply wp_mono; [apply (IH (set_km s1 k) argv' (arg_sp sp arg) (ustack ++ [arg_sp sp arg]) img1 (before ++ [arg]))| |done];
    try done; try lia.
  - rewrite zlen_app. change (zlen [arg_sp sp arg]) with 1. lia.
  - apply Forall2_app.
    + eapply placed_ext; [exact Hpl|lia|]. intros va Hva. apply Hi1. lia.
    + apply Forall2_cons. split; [|done]. split; [lia|]. split; [lia|]. by apply img_string_put.
  - intros r k' (ptrs & img' & -> & Hk' & Hb' & HF & Hout). exists ptrs, img'. split; [done|].
    split; [rewrite Hk'; by destruct k|]. split; [done|]. rewrite <- app_assoc in HF. split; [done|].
    intros va Hva. rewrite Hout by lia. apply Hi1. lia.
Qed.

(** The words above the strings, once they are copied to [sp]. *)
Lemma main_stack_put img sp top ptrs args : 0 <= sp -> sp + 4 * (4 + zlen args) = top -> top <= sz < KERNBASE ->
  Forall2 (placed img top) ptrs args ->
  main_stack (put_img sp (flat_map (le_bytes 4) ([0xffffffff; zlen ptrs; sp + 12] ++ ptrs ++ [0])) img) sp sz args.
Proof.
  intros Hsp Htop Hhi HF. set (ws := [_; _; _] ++ _). set (img' := put_img _ _ _).
  pose proof (Forall2_length _ _ _ HF) as Hlen. pose proof (zlen_nonneg args).
  assert (zlen ptrs = zlen args) as Hz by (unfold zlen; lia).
  assert (zlen ws = 4 + zlen args) as Hws by (unfold ws; rewrite !zlen_app, Hz; unfold zlen; simpl; lia).
  assert (forall j w, ws !! j = Some w -> 0 <= w < 2 ^ 32 -> img_word img' (sp + 4 * Z.of_nat j) = w) as Hw
    by (intros; by apply img_word_put).
  assert (forall va, top <= va -> img' va = img va) as Hout.
  { intros va Hva. apply put_img_out. rewrite zlen_words. lia. }
  assert (zlen args < 2 ^ 31) by (unfold KERNBASE in *; lia). unfold KERNBASE in *.
  split; [|split; [|split; [|split]]].
  - rewrite <- (Hw 0%nat 0xffffffff) by done. f_equal; lia.
  - rewrite <- Hz. rewrite <- (Hw 1%nat (zlen ptrs)) by (done || lia). f_equal; lia.
  - rewrite <- (Hw 2%nat (sp + 12)) by (done || lia). f_equal; lia.
  - rewrite <- (Hw (3 + length ptrs)%nat 0); [f_equal; unfold zlen in *; lia| |done].
    unfold ws. rewrite lookup_app_r by (simpl; lia). rewrite lookup_app_r by (simpl; lia).
    replace (3 + length ptrs - length [0xffffffff; zlen ptrs; sp + 12]%Z - length ptrs)%nat with 0%nat by (simpl; lia). done.
  - intros i arg Hi. destruct (Forall2_lookup_r _ _ _ _ _ HF Hi) as (p & Hp & P1 & P2 & P3).
    pose proof (zlen_nonneg arg).
    replace (sp + 12 + 4 * Z.of_nat i) with (sp + 4 * Z.of_nat (3 + i)) by lia. rewrite (Hw (3 + i)%nat p); [| |lia].
    + split; [lia|]. split; [lia|]. eapply img_string_ext; [exact P3|]. intros va Hva. apply Hout. lia.
    + unfold ws. rewrite lookup_app_r by (simpl; lia).
      replace (3 + i - length [0xffffffff; zlen ptrs; sp + 12]%Z)%nat with i by (simpl; lia).
      rewrite lookup_app_l; [done|]. by eapply lookup_lt_Some.
Qed.

(** The stack pointer of the new program. *)
Definition main_sp (args : list (list Z)) : Z := args_sp sz args - 4 * (4 + zlen args).

Lemma push_stack_ok args k argv img :
  building s0 l0 (km k) d sz free img fl -> fld k (proc k) o_sz = osz -> Forall2 old_string argv args ->
  zlen args <= MAXARG -> sz - PGSIZE <= main_sp args ->
  returns (push_stack d sz argv) k (fun r k' => exists img',
    r = Some (main_sp args) /\ k' = set_km (km k') k /\ building s0 l0 (km k') d sz free img' fl /\
    main_stack img' (main_sp args) sz args /\ (forall va, va < sz - PGSIZE -> img' va = img va)).
Proof.
  intros Hb Hf Hargs Hmax Hlo. pose proof (uw_size _ _ _ _ (bu_wf _ _ _ _ _ _ _ _ Hb)) as Hs.
  pose proof (zlen_nonneg args). unfold main_sp in *. unfold push_stack. apply wp_bind. change 0 with (zlen (@nil Z)) at 1.
  eapply wp_mono; [apply (push_args_ok args k argv sz [] img []); try done; change (zlen []) with 0; lia| |done].
  intros r k1 (ptrs & img1 & -> & Hk1 & Hb1 & HF & Hout). cbn [app] in HF. cbv iota.
  pose proof (args_sp_le args sz). set (top := args_sp sz args) in *.
  assert (zlen ptrs = zlen args) as Hz by (pose proof (Forall2_length _ _ _ HF); unfold zlen; lia).
  rewrite !u32_small by mmlia. replace (top - (3 + zlen ptrs + 1) * 4) with (top - 4 * (4 + zlen args)) by lia.
  replace (top - (zlen ptrs + 1) * 4) with (top - 4 * (4 + zlen args) + 12) by lia.
  set (sp := top - 4 * (4 + zlen args)) in *. set (ws := [_; _; _] ++ _).
  assert (zlen (flat_map (le_bytes 4) ws) = 4 * (4 + zlen args)) as Hw
    by (rewrite zlen_words; unfold ws; rewrite !zlen_app, Hz; unfold zlen; simpl length; lia).
  apply wp_bind, wp_on_km. eapply wp_mono; [apply (stack_copyout (km k1) img1 sp _ Hb1); [done|lia|lia]| |done].
  intros r s2 [-> Hb2]. cbn [Z.ltb Z.compare]. steps. exists (put_img sp (flat_map (le_bytes 4) ws) img1).
  split; [done|]. split; [rewrite Hk1; by destruct k|]. split; [done|]. split.
  - apply (main_stack_put img1 sp top ptrs args); try done; mmlia.
  - intros va Hva. rewrite put_img_out by lia. apply Hout. lia.
Qed.
End args.
