(* ===== verification/ExecSpec.v ===== *)
(** * exec

    exec (exec.c) as a whole, on a well-formed program with enough memory: the process
    runs the program of the file, with its arguments on a fresh stack, and the memory it
    had goes back to the allocator but for one page. *)

From S2P Require Import Pipe Bytes FsFormat Fs Inode InodeData Dir.
From S2P Require Import Prelude Mmu Memory Kstate Kalloc PageTable Uvm UvmFree Cow Boot Kernel Sched File Proc Syscall.
From S2P Require Import Exec VmTheorems FdRefs Fork ExecMem ExecLoad ExecArgs.

(** ** The old address space goes *)

Section replace.
Context `{Layout}.

(** What is left after the new page table [d] is loaded and the old one is freed; [m1] is
    the memory after the registers were set, in the page [t]. *)
Record replaced (s0 : kst) (l0 : list Z) (old osz d sz : Z) (img fl : Z -> Z) (t : Z) (m1 : gmap Z Z) (s' : kst)
    (free' : list Z) : Prop := {
  re_inv : kinv s' free';
  re_wf : uvm_wf (mem s') d sz free';
  re_img va : 0 <= va < PGROUNDUP sz -> ubyte (mem s') d va = img va;
  re_fl va : 0 <= va < PGROUNDUP sz -> PTE_FLAGS (pte (mem s') d va) = fl va;
  re_old : old ∉ free' /\ apart (mem s') d sz old;
  re_tabs q : owned (mem s0) old q -> q <> old -> q ∈ free';
  re_user va : 0 <= va < osz -> upage (mem s0) old va ∈ free';
  re_tf : agree m1 (mem s') t PGSIZE;
  re_frame q : kpage q -> q ∉ l0 -> apart (mem s0) old osz q -> q <> t -> agree (mem s0) (mem s') q PGSIZE }.

Lemma upage_base m d va : 0 <= va < 2 ^ 32 -> upage m d (va / PGSIZE * PGSIZE) = upage m d va.
Proof. intros Hva. unfold upage. by rewrite (pte_same_page _ _ (va / PGSIZE * PGSIZE) va) by mmlia. Qed.

(** What is not part of the old address space in [s0], where its pages count. *)
Definition freed (s0 : kst) (old osz : Z) (free : list Z) (q : Z) : Prop :=
  q ∈ free \/ (owned (mem s0) old q /\ q <> old) \/
  exists p, 0 <= p < pages osz /\ q = upage (mem s0) old (p * PGSIZE).

Context (s0 : kst) (l0 : list Z) (old osz : Z) (Hold : uvm_wf (mem s0) old osz l0).
Context (s : kst) (d sz : Z) (free : list Z) (img fl : Z -> Z) (Hb : building s0 l0 s d sz free img fl).
Context (t : Z) (Htk : kpage t) (Htl : t ∉ l0) (Hta : apart (mem s0) old osz t).
Context (m1 : gmap Z Z) (Hm1 : one_page (mem s) m1 t).

Lemma free_apart m dir size l q : uvm_wf m dir size l -> q ∈ l -> apart m dir size q.
Proof.
  intros Hwf Hq. split.
  - intros Hx. by destruct (owned_kpage _ _ _ _ (uw_as _ _ _ _ Hwf) Hx).
  - intros va Hva <-. by destruct (uw_in_page _ _ _ _ va Hwf Hva) as (_ & _ & _ & ?).
Qed.

Lemma other_agree q : kpage q -> q <> t -> agree (mem s) m1 q PGSIZE.
Proof. intros Hq Hne. by apply (one_page_agree _ _ t). Qed.

Lemma old_space : kinv (set_mem m1 s) free /\ uvm_wf m1 old osz free /\
  (forall va, pte m1 old va = pte (mem s0) old va) /\ (forall q, owned m1 old q <-> owned (mem s0) old q).
Proof.
  pose proof Hb as [B1 B2 B3 B4 _ _ _ _ _].
  assert (uvm_wf (mem s) old osz free) as Ho1 by (by apply (uvm_wf_frame s0 s old osz l0)).
  assert (forall va, pte (mem s) old va = pte (mem s0) old va) as Hp1 by (intros; by apply (pte_frame s0 s old osz l0)).
  assert (forall q, owned (mem s) old q <-> owned (mem s0) old q) as Hown1.
  { intros q. symmetry. apply owned_agree. apply B3; [apply Hold|apply (wf_dir_free _ _ _ (uw_as _ _ _ _ Hold))]. }
  destruct (uvm_changed (mem s) m1 old osz free free (fun q => q = t) Ho1) as (Ho2 & Hp2 & Hown2 & _).
  - intros q ->. destruct Hta as [A1 A2]. split; [by rewrite Hown1|]. unfold upage. setoid_rewrite Hp1. exact A2.
  - intros. by apply other_agree.
  - intros q Hq. by apply (free_apart _ _ _ free).
  - split; [|split; [done|split]].
    + apply kinv_frame; [done|]. intros q Hq. apply other_agree.
      * pose proof (kinv_pages _ _ B1) as Hpg. by eapply Forall_forall in Hpg.
      * intros ->. by apply Htl, B4.
    + intros va. by rewrite Hp2.
    + intros q. by rewrite Hown2.
Qed.

Lemma new_space : uvm_wf m1 d sz free /\ (forall va, pte m1 d va = pte (mem s) d va) /\
  (forall va, 0 <= va < PGROUNDUP sz -> ubyte m1 d va = img va) /\
  (forall q, q ∉ l0 \/ q ∈ free -> apart m1 d sz q).
Proof.
  pose proof Hb as [_ B2 _ _ B5 B6 _ B8 _].
  assert (forall q, q ∉ l0 \/ q ∈ free -> apart (mem s) d sz q) as Hap.
  { intros q [Hq|Hq]; [|by apply (free_apart _ _ _ free)]. split.
    - intros Ho. by apply Hq, B5.
    - intros va Hva <-. by apply Hq, B6. }
  destruct (uvm_changed (mem s) m1 d sz free free (fun q => q = t) B2) as (Hd2 & Hpd2 & Hownd2 & Hub2).
  - intros q ->. apply Hap. by left.
  - intros. by apply other_agree.
  - intros q Hq. apply Hap. by right.
  - split; [done|]. split; [done|]. split; [intros va Hva; by rewrite Hub2, B8|].
    intros q Hq. destruct (Hap q Hq) as [A1 A2]. split; [by rewrite Hownd2|]. unfold upage. setoid_rewrite Hpd2. exact A2.
Qed.

Lemma free_old c : held s0 = [] ->
  (forall va, 0 <= va < pages osz * PGSIZE -> unshared s0 old va) -> unshared_tabs s0 old ->
  returns (free_cow_vm old) (set_cr3 c (set_mem m1 s)) (fun _ s' => exists free',
    kinv s' free' /\ old ∉ free' /\ (forall q, q ∈ free' <-> freed s0 old osz free q) /\
    (forall q, kpage q -> q ∉ free' -> q <> old -> agree m1 (mem s') q PGSIZE) /\
    cr3 s' = c /\ held s' = [] /\ pte_array s' = pte_array s0).
Proof.
  intros Hheld Hun Htab. destruct old_space as (K & W & P & O). pose proof (bu_rest _ _ _ _ _ _ _ _ Hb) as R.
  unfold rest in R. injection R as R1 R2 R3 R4 R5. set (s1 := set_cr3 c (set_mem m1 s)).
  eapply wp_mono; [apply (free_cow_vm_run old osz s1 free)| |done].
  - by apply (kinv_same (set_mem m1 s)).
  - simpl. rewrite R4, Hheld. apply not_elem_of_nil.
  - done.
  - intros va Hva. unfold unshared, refcount. simpl. rewrite R2, P. by apply Hun.
  - intros q Hq. unfold refcount. simpl. rewrite R2. by apply Htab, O.
  - intros _ s' (free' & K' & N & F & A & E). unfold rest in E. simpl in E. injection E as E1 E2 E3 E4 E5. exists free'.
    split; [done|]. split; [done|]. split; [|split; [done|split; [done|split; congruence]]].
    intros q. rewrite F. change (mem s1) with m1. rewrite O. unfold freed, upage. setoid_rewrite P. done.
Qed.

Lemma freed_old q : freed s0 old osz free q -> q ∈ free \/ (q ∉ l0 /\ ~ apart (mem s0) old osz q).
Proof.
  pose proof (uw_size _ _ _ _ Hold) as Hos. destruct (pages_eq osz Hos) as (U1 & U2 & U3 & U4).
  intros [Hq|[[Hq _]|(p & Hp & ->)]]; [by left|right..].
  - split; [by destruct (owned_kpage _ _ _ _ (uw_as _ _ _ _ Hold) Hq)|]. by intros [? _].
  - assert (0 <= p * PGSIZE < osz) as Hr by (unfold PGSIZE in *; lia).
    destruct (uw_in _ _ _ _ Hold (p * PGSIZE) Hr) as (_ & _ & _ & Hf). split; [done|].
    intros [_ Hn]. by apply (Hn (p * PGSIZE)); [lia|].
Qed.

Lemma replaced_intro s' free' : kinv s' free' -> old ∉ free' -> (forall q, q ∈ free' <-> freed s0 old osz free q) ->
  (forall q, kpage q -> q ∉ free' -> q <> old -> agree m1 (mem s') q PGSIZE) ->
  replaced s0 l0 old osz d sz img fl t m1 s' free'.
Proof.
  intros K N F A. destruct new_space as (Hd & P & U & Hap). pose proof Hb as [_ _ B3 B4 _ _ _ _ B9].
  pose proof (wf_dir_free _ _ _ (uw_as _ _ _ _ Hold)) as Hol.
  assert (forall q, q ∈ free' -> apart m1 d sz q) as Hap2.
  { intros q Hq. apply Hap. apply F, freed_old in Hq as [?|[? _]]; [by right|by left]. }
  destruct (uvm_changed m1 (mem s') d sz free free' (fun q => q ∈ free' \/ q = old) Hd) as (Hd3 & Hp3 & Ho3 & Hub3).
  { intros q [Hq| ->]; [by apply Hap2|]. apply Hap. by left. } { intros q Hq Hn. apply A; naive_solver. } { done. }
  assert (forall q, kpage q -> q ∉ l0 -> apart (mem s0) old osz q -> agree m1 (mem s') q PGSIZE) as Hrest.
  { intros q Hq Hl Ha. apply A; [done| |].
    - intros Hx. apply F, freed_old in Hx as [Hx|[_ Hx]]; [by apply Hl, B4|done].
    - intros ->. destruct Ha as [T1 _]. apply T1. by left. }
  pose proof (uw_size _ _ _ _ Hold) as Hos. destruct (pages_eq osz Hos) as (V1 & V2 & V3 & V4).
  split; try done.
  - intros va Hva. rewrite Hub3 by done. by apply U.
  - intros va Hva. rewrite Hp3, P. by apply B9.
  - split; [done|]. destruct (Hap old (or_introl Hol)) as [A1 A2]. split; [by rewrite Ho3|].
    unfold upage. setoid_rewrite Hp3. exact A2.
  - intros q Hq Hne. apply F. right. by left.
  - intros va Hva. apply F. right. right. exists (va / PGSIZE). split; [unfold PGSIZE in *; zlia|]. by rewrite upage_base by mmlia.
  - by apply Hrest.
  - intros q Hq Hl Ha Hne. eapply agree_trans; [by apply B3|]. eapply agree_trans; [by apply other_agree|]. by apply Hrest.
Qed.
End replace.

(** ** The new image of the process *)

(** The process [p] after exec: its name, its page table and its size. *)
Definition renamed (p : Z) (path : list Z) (k : kern) : kern :=
  let l := copy_name 16 (last_elem path path) (flat_map (fun j => bytes_of_word (fld k p (o_name + Z.of_nat j))) (seq 0 4)) in
  set_fld p (o_name + 3) (rd 4 12 l) (set_fld p (o_name + 2) (rd 4 8 l)
    (set_fld p (o_name + 1) (rd 4 4 l) (set_fld p o_name (rd 4 0 l) k))).

Definition committed (p : Z) (path : list Z) (d sz : Z) (k : kern) : kern :=
  set_fld p o_sz sz (set_fld p o_pgdir d (renamed p path k)).

Lemma renamed_run p path k : safestrcpy_name p (last_elem path path) k = Done tt (renamed p path k).
Proof. reflexivity. Qed.

Lemma committed_fld p path d sz k q o : 0 <= o < PROC_WORDS -> q <> p \/ (o <> o_sz /\ o <> o_pgdir /\ ~ 27 <= o < 31) ->
  fld (committed p path d sz k) q o = fld k q o.
Proof. intros Ho Hne. unfold committed, renamed. words. Qed.

Section image.
Context `{Layout}.

(** The registers: only eip and esp of the trap frame change. *)
Definition set_regs (m : gmap Z Z) (tf eip esp : Z) : gmap Z Z :=
  store32 (store32 m (tf + tf_eip) eip) (tf + tf_esp) esp.

Lemma set_regs_one_page m tf eip esp t : t <= tf -> tf + TF_SIZE <= t + PGSIZE -> one_page m (set_regs m tf eip esp) t.
Proof.
  intros H1 H2 a Ha. unfold set_regs, tf_eip, tf_esp, TF_SIZE in *. by rewrite !load8_store32_ne by lia.
Qed.

Lemma set_regs_read m tf eip esp : load32 (set_regs m tf eip esp) (tf + tf_eip) = u32 eip /\
  load32 (set_regs m tf eip esp) (tf + tf_esp) = u32 esp /\
  forall a, a < tf + tf_eip \/ tf + tf_eip + 4 <= a -> a < tf + tf_esp \/ tf + tf_esp + 4 <= a ->
    load8 (set_regs m tf eip esp) a = load8 m a.
Proof.
  unfold set_regs, tf_eip, tf_esp. split; [|split].
  - rewrite load32_store32_ne by lia. apply load32_store32_eq.
  - apply load32_store32_eq.
  - intros a H1 H2. by rewrite !load8_store32_ne by lia.
Qed.

(** Committing: from the finished address space to the return of exec. *)
Lemma commit_run path (elf : elfhdr) d sz sp s0 l0 free img fl k t : let p := proc k in
  building s0 l0 (km k) d sz free img fl -> held s0 = [] -> uvm_wf (mem s0) (fld k p o_pgdir) (fld k p o_sz) l0 ->
  (forall va, 0 <= va < pages (fld k p o_sz) * PGSIZE -> unshared s0 (fld k p o_pgdir) va) ->
  unshared_tabs s0 (fld k p o_pgdir) ->
  kpage t -> t ∉ l0 -> apart (mem s0) (fld k p o_pgdir) (fld k p o_sz) t ->
  t <= tfp k -> tfp k + TF_SIZE <= t + PGSIZE ->
  returns (let! p := gets proc in
      safestrcpy_name p (last_elem path path) ;;
      let! oldpgdir := getf p o_pgdir in
      setf p o_pgdir d ;;
      setf p o_sz sz ;;
      set_tf tf_eip (elf_entry elf) ;;
      set_tf tf_esp sp ;;
      on_km (switchuvm d) ;;
      on_km (free_cow_vm oldpgdir) ;;
      ret 0) k (fun r k' => r = 0 /\ k' = set_km (km k') (committed p path d sz k) /\
    cr3 (km k') = v2p d /\ held (km k') = [] /\ exists free',
    replaced s0 l0 (fld k p o_pgdir) (fld k p o_sz) d sz img fl t
      (set_regs (mem (km k)) (tfp k) (elf_entry elf) sp) (km k') free').
Proof.
  intros p Hb Hheld Hold Hun Htab Htk Htl Hta Ht1 Ht2.
  apply wp_bind. step. fold p. apply wp_bind. eapply wp_run; [apply renamed_run|]. cbv beta.
  apply wp_bind, wp_getf, wp_bind, wp_setf, wp_bind, wp_setf.
  assert (fld (renamed p path k) p o_pgdir = fld k p o_pgdir) as -> by (unfold renamed; words).
  fold (committed p path d sz k). set (k1 := committed p path d sz k).
  assert (tfp k1 = tfp k) as Htf by (apply committed_fld; [done|right; word_neq]).
  assert (km k1 = km k) as Hkm by done.
  apply wp_bind. eapply wp_run; [apply set_tf_run|]. cbv beta. apply wp_bind. eapply wp_run; [apply set_tf_run|]. cbv beta.
  change (tfp (with_mem _ k1)) with (tfp k1). rewrite !Htf, Hkm. unfold with_mem. cbn [km set_km mem set_mem].
  fold (set_regs (mem (km k)) (tfp k) (elf_entry elf) sp). set (m1 := set_regs _ _ _ _).
  assert (d <> 0) as Hd.
  { pose proof (kpage_range _ (wf_dir _ _ _ (uw_as _ _ _ _ (bu_wf _ _ _ _ _ _ _ _ Hb)))). lia. }
  apply wp_bind, wp_on_km. unfold switchuvm. rewrite (proj2 (Z.eqb_neq d 0)) by done. step. cbn [km set_km].
  apply wp_bind, wp_on_km. cbn [km set_km].
  change (set_mem m1 (set_mem _ (km k))) with (set_mem m1 (km k)).
  eapply wp_mono; [apply (free_old s0 l0 (fld k p o_pgdir) (fld k p o_sz) Hold (km k) d sz free img fl Hb t Htk Htl Hta m1)| |done].
  - by apply set_regs_one_page.
  - done.
  - done.
  - done.
  - intros _ s' (free' & K & N & F & A & E1 & E2 & E3). step. split; [done|]. split; [done|]. split; [done|]. split; [done|].
    exists free'. apply (replaced_intro s0 l0 _ _ Hold (km k) d sz free img fl Hb t); try done. by apply set_regs_one_page.
Qed.

(** The size of the process, and what has to hold of the arguments. *)
Definition exec_sz (top : Z) : Z := PGROUNDUP top + 2 * PGSIZE.

Record args_ok (k : kern) (top : Z) (argv : list Z) (args : list (list Z)) : Prop := {
  ao_old : Forall2 (old_string (km k) (fld k (proc k) o_pgdir) (fld k (proc k) o_sz)) argv args;
  ao_max : zlen args <= MAXARG;
  ao_fit : exec_sz top - PGSIZE <= main_sp (exec_sz top) args }.

(** The running process, whose memory exec replaces. *)
Record runs (k : kern) (l : list Z) (t : Z) : Prop := {
  rn_held : held (km k) = [];
  rn_free : kinv (km k) l;
  rn_uvm : uvm_wf (mem (km k)) (fld k (proc k) o_pgdir) (fld k (proc k) o_sz) l;
  rn_cr3 : cr3 (km k) = v2p (fld k (proc k) o_pgdir);
  rn_pages va : 0 <= va < pages (fld k (proc k) o_sz) * PGSIZE -> unshared (km k) (fld k (proc k) o_pgdir) va;
  rn_tabs : unshared_tabs (km k) (fld k (proc k) o_pgdir);
  rn_tf : kpage t /\ t ∉ l /\ apart (mem (km k)) (fld k (proc k) o_pgdir) (fld k (proc k) o_sz) t /\
    t <= tfp k /\ tfp k + TF_SIZE <= t + PGSIZE }.

Definition image_done (k0 : kern) (l : list Z) (t : Z) (path : list Z) (elf : elfhdr) (args : list (list Z))
    (d top : Z) (img : Z -> Z) (k k' : kern) : Prop :=
  let p := proc k0 in let sz := exec_sz top in
  k' = set_km (km k') (committed p path d sz k) /\ cr3 (km k') = v2p d /\ held (km k') = [] /\
  exists free' img' m, untouched (km k0) l (set_mem m (km k0)) /\
    replaced (km k0) l (fld k0 p o_pgdir) (fld k0 p o_sz) d sz img' (guarded (sz - 2 * PGSIZE)) t
      (set_regs m (tfp k0) (elf_entry elf) (main_sp sz args)) (km k') free' /\
    main_stack img' (main_sp sz args) sz args /\ (forall va, va < sz - PGSIZE -> img' va = img va).

Lemma exec_image_ok path argv elf args d top free img k0 l t k :
  runs k0 l t -> args_ok k0 top argv args -> tab k = tab k0 -> proc k = proc k0 ->
  building (km k0) l (km k) d top free img (fun _ => UWP) -> 0 <= top -> exec_sz top < KERNBASE ->
  (2 * new_pages top (exec_sz top) <= length free)%nat -> (forall va, top <= va -> img va = 0) ->
  returns (exec_image path argv elf d top) k (fun r k' => r = 0 /\ image_done k0 l t path elf args d top img k k').
Proof.
  intros [Rh Rf Ru Rc Rp Rt (T1 & T2 & T3 & T4 & T5)] [Aa Am Af] Htab Hproc Hb Htop Hsz Hroom Himg.
  unfold exec_sz in *. destruct (PGROUNDUP_user top (uw_size _ _ _ _ (bu_wf _ _ _ _ _ _ _ _ Hb))) as (U1 & U2 & U3 & U4).
  assert (forall q o, fld k q o = fld k0 q o) as Hfld by (intros; unfold fld; by rewrite Htab).
  assert (tfp k = tfp k0) as Htf by (unfold tfp; by rewrite Hproc, Hfld).
  unfold exec_image. apply building_round in Hb; [|unfold PGSIZE in *; lia]. set (U := PGROUNDUP top) in *.
  assert (PGROUNDUP U = U) as HU by (apply PGROUNDUP_twice; unfold U, PGSIZE in *; lia).
  assert (KERNBASE = 2147483648) as HKB by done. unfold PGSIZE in Hsz |- *. rewrite (u32_small (U + 2 * 4096)) by lia.
  fold PGSIZE. assert (new_pages U (U + 2 * PGSIZE) <= new_pages top (U + 2 * PGSIZE))%nat as Hnp.
  { rewrite <- (new_pages_add top U (U + 2 * PGSIZE)); unfold PGSIZE; lia. }
  apply wp_bind, wp_on_km. eapply wp_mono; [apply (building_alloc (km k0) l (km k) d U free img (U + 2 * PGSIZE) Hb)| |done];
    [unfold PGSIZE; lia|lia|intros va Hva; apply Himg; lia|].
  intros r s1 (-> & free1 & Hl1 & Hb1). cbv beta. rewrite (proj2 (Z.eqb_neq _ 0)) by (unfold PGSIZE; lia).
  set (sz := U + 2 * PGSIZE) in *. assert (sz mod PGSIZE = 0) as Hm by (unfold sz; mmlia).
  assert (2 * PGSIZE <= sz < KERNBASE) as Hs2 by (unfold sz, PGSIZE; lia).
  rewrite u32_small by (unfold PGSIZE in *; lia).
  apply wp_bind, wp_on_km. eapply wp_mono; [apply (building_clearpteu (km k0) l s1 d sz free1 img _ Hb1); mmlia| |done].
  intros ? s2 Hb2. cbn [km set_km] in *. set (k2 := set_km s2 (set_km s1 k)).
  apply wp_bind. eapply wp_mono; [apply (push_stack_ok (km k0) l _ _ Ru Rc d sz free1 Hm (proj1 Hs2) args k2 argv img Hb2)| |done].
  { change (proc k2) with (proc k). rewrite <- Hfld, <- Hproc. done. } { done. } { done. } { done. }
  intros r k3 (img' & -> & Hk3 & Hb3 & Hms & Hi3).
  assert (tab k3 = tab k0 /\ proc k3 = proc k0) as [Htab3 Hproc3] by (rewrite Hk3; done).
  assert (forall q o, fld k3 q o = fld k0 q o) as Hfld3 by (intros; unfold fld; by rewrite Htab3).
  assert (tfp k3 = tfp k0) as Htf3 by (unfold tfp; by rewrite Hproc3, Hfld3).
  eapply wp_mono; [apply (commit_run path elf d sz (main_sp sz args) (km k0) l free1 img' (guarded (sz - 2 * PGSIZE)) k3 t)| |done];
    rewrite ?Hproc3, ?Hfld3, ?Htf3; try done.
  intros r k' (-> & Hk' & Hc' & Hh' & free' & Hre). split; [done|]. unfold image_done, exec_sz. fold U sz.
  split; [rewrite Hk'; rewrite Hk3; done|]. split; [done|]. split; [done|].
  exists free', img', (mem (km k3)). split; [exact (bu_un _ _ _ _ _ _ _ _ Hb3)|]. split; [done|]. split; [done|]. done.
Qed.
End image.

(** ** The file *)

(** The file system as the running process sees it. *)
Definition here (k : kern) (f : fs) : fs := mkFs (fb f) (flog f) (icache f) (fs_cwd k).

Lemma ilock_done i f f' : ilock i f = Done tt f' ->
  cwd f' = cwd f /\ ibusy (icache f' i) = true /\ 1 <= iref (icache f' i).
Proof.
  unfold ilock, bind, gets, change, modify, bread, set_inode, ret, panic, halt.
  destruct (Z.ltb_spec (iref (icache f i)) 1); [done|]. destruct (ibusy (icache f i)); [done|].
  destruct (ivalid (icache f i)).
  - intros [= <-]. cbn. rewrite upd_eq. split; [done|]. split; [done|]. simpl. lia.
  - cbn. rewrite !upd_eq. case_match; [done|]. intros [= <-]. cbn. rewrite !upd_eq. split; [done|]. split; [done|]. simpl. lia.
Qed.

(** A reference to a file that has a name: giving it back changes the cache only. *)
Lemma iunlockput_named i f : ibusy (icache f i) = true -> 1 <= iref (icache f i) -> di_nlink (di f i) <> 0 ->
  exists f', iunlockput i f = Done tt f' /\ fb f' = fb f /\ cwd f' = cwd f /\
    icache f' i = set_ref (iref (icache f i) - 1) (set_iflags false (ivalid (icache f i)) (icache f i)) /\
    forall j, j <> i -> icache f' j = icache f j.
Proof.
  intros Hb Hr Hl. eexists. unfold iunlockput, iunlock, iput, bind, gets, change, modify, set_inode, ret.
  rewrite Hb, (proj2 (Z.ltb_ge _ _)) by lia. cbn [negb orb]. cbn [icache set_icache]. rewrite !upd_eq. cbn [set_iflags iref ivalid idi].
  unfold di in Hl. rewrite (proj2 (Z.eqb_neq _ 0) Hl), andb_false_r. split; [reflexivity|].
  cbn [fb cwd icache set_icache]. rewrite !upd_eq. split; [done|]. split; [done|]. split; [done|].
  intros j Hj. by rewrite !upd_ne.
Qed.

Section exec.
Context `{Layout}.
Context (devread : Z -> option (nat -> Z -> M fs (Z * list Z))).

(** The ELF header of the file, and the program its headers describe: a program exec can
    load when it is not damaged, in the format of the disk. *)
Definition file_elf (f : fs) (ip : nat) : elfhdr := elf_of (fdata f ip 0 ELFHDR_SZ).
Definition file_headers (f : fs) (ip : nat) : list proghdr :=
  headers f ip (Z.to_nat (elf_phnum (file_elf f ip))) (elf_phoff (file_elf f ip)).
Definition file_program (f : fs) (ip : nat) : Z * (Z -> Z) := program f ip (file_headers f ip) 0 (fun _ => 0).

Record executable (f : fs) (ip : nat) : Prop := {
  xf_solid : solid f ip;
  xf_link : di_nlink (di f ip) <> 0;
  xf_magic : elf_magic (file_elf f ip) = ELF_MAGIC;
  xf_hdr : ELFHDR_SZ <= di_size (di f ip);
  xf_phs : elf_phoff (file_elf f ip) + PROGHDR_SZ * elf_phnum (file_elf f ip) <= di_size (di f ip);
  xf_segs : Forall (seg_ok f ip) (file_headers f ip) }.

(** The path leads to the inode [ip]; [f] is the file system once it is locked. *)
Definition finds (k : kern) (path : list Z) (ip : nat) (f : fs) : Prop :=
  exists f1, namei devread path (here k (kf k)) = Done (Some ip) f1 /\ ilock ip (here k f1) = Done tt f.

Lemma finds_run k path ip f : finds k path ip f -> exists f1,
  on_fs (namei devread path) k = Done (Some ip) (set_kf f1 k) /\ on_fs (ilock ip) (set_kf f1 k) = Done tt (set_kf f k) /\
  cwd f = fs_cwd k /\ ibusy (icache f ip) = true /\ 1 <= iref (icache f ip).
Proof.
  intros (f1 & Hnamei & Hilock). exists f1. destruct (ilock_done _ _ _ Hilock) as (L1 & L2 & L3). split; [|split; [|done]].
  - unfold on_fs. fold (fs_cwd k). fold (here k (kf k)). by rewrite Hnamei.
  - unfold on_fs. cbn [kf set_kf]. change (Z.to_nat (fld (set_kf f1 k) (proc (set_kf f1 k)) o_cwd - 1)) with (fs_cwd k).
    fold (here k f1). by rewrite Hilock.
Qed.

Lemma elf_range f ip : 0 <= elf_phoff (file_elf f ip) /\ 0 <= elf_phnum (file_elf f ip) /\
  0 <= elf_entry (file_elf f ip) < 2 ^ 32.
Proof.
  assert (zlen (fdata f ip 0 ELFHDR_SZ) = 52) as Hl by (by apply zlen_fdata).
  unfold file_elf. cbn [elf_of elf_phoff elf_phnum elf_entry].
  pose proof (rd_range 4 28 _ ltac:(lia) ltac:(rewrite Hl; lia)). pose proof (rd_range 2 44 _ ltac:(lia) ltac:(rewrite Hl; lia)).
  pose proof (rd_range 4 24 _ ltac:(lia) ltac:(rewrite Hl; lia)). change (256 ^ Z.of_nat 4) with (2 ^ 32) in *. lia.
Qed.

Definition exec_room (f : fs) (ip : nat) (l : list Z) : Prop :=
  let top := (file_program f ip).1 in exec_sz top < KERNBASE /\
  KVM_PAGES + 2 * Z.of_nat (new_pages 0 (exec_sz top)) <= Z.of_nat (length l).

(** What exec leaves: the image, and the inode given back. *)
Definition exec_done (k : kern) (l : list Z) (t : Z) (path : list Z) (args : list (list Z)) (f : fs) (ip : nat)
    (k' : kern) : Prop :=
  exists d f' k1, image_done k l t path (file_elf f ip) args d (file_program f ip).1 (file_program f ip).2 k1 k' /\
    k1 = set_km (km k1) (set_kf f' k) /\ fb f' = fb f /\ flog f' = [] /\
    icache f' ip = set_ref (iref (icache f ip) - 1) (set_iflags false (ivalid (icache f ip)) (icache f ip)) /\
    (forall j, j <> ip -> icache f' j = icache f j).

(** From the new page table on. *)
Lemma exec_loaded path argv args k l t ip f d free s1 :
  runs k l t -> executable f ip -> exec_room f ip l -> args_ok k (file_program f ip).1 argv args ->
  cwd f = fs_cwd k -> ibusy (icache f ip) = true -> 1 <= iref (icache f ip) ->
  Z.of_nat (length l) <= Z.of_nat (length free) + KVM_PAGES ->
  building (km k) l s1 d 0 free (fun _ => 0) (fun _ => UWP) ->
  returns (let! sz := load_segments devread (Z.to_nat (elf_phnum (file_elf f ip))) d ip (elf_phoff (file_elf f ip)) 0 in
            match sz with
            | None => bad d (Some ip)
            | Some sz =>
                on_fs (iunlockput ip) ;;
                end_op ;;
                exec_image path argv (file_elf f ip) d sz
            end) (set_km s1 (set_kf f k)) (fun r k' => r = 0 /\ exec_done k l t path args f ip k').
Proof.
  intros Hr [X1 X2 X3 X4 X5 X6] [Hsz Hroom] Hargs L1 L2 L3 Hl Hb. destruct (elf_range f ip) as (E1 & E2 & E3).
  pose proof (program_size f ip (file_headers f ip) 0 (fun _ => 0) : 0 <= (file_program f ip).1) as Htop.
  set (top := (file_program f ip).1) in *.
  assert (top <= exec_sz top) as Hte.
  { unfold exec_sz. destruct (PGROUNDUP_user top) as (_ & ? & _); [split; [done|]|unfold PGSIZE; lia].
    exact (program_below f ip (file_headers f ip) 0 (fun _ => 0) X6 eq_refl). }
  pose proof (new_pages_add 0 top (exec_sz top) ltac:(lia) Hte Hsz) as Hnp. set (k2 := set_km s1 (set_kf f k)).
  apply wp_bind. eapply wp_mono; [apply (load_segments_ok devread f ip X1 (Z.to_nat (elf_phnum (file_elf f ip))) (km k) l d k2
    (elf_phoff (file_elf f ip)) 0 free (fun _ => 0) Hb)| |done].
  { done. } { done. } { rewrite Z2Nat.id by done. done. } { exact X6. } { done. }
  { fold (file_headers f ip) (file_program f ip). fold top. unfold KVM_PAGES in *. lia. }
  fold (file_headers f ip) (file_program f ip).
  assert (file_program f ip = (top, (file_program f ip).2)) as -> by (unfold top; by destruct (file_program f ip)).
  set (img := (file_program f ip).2). intros r k3 (-> & Hk3 & Himg & Htk & free3 & Hl3 & Hb3). cbv iota.
  destruct (iunlockput_named ip f L2 L3 X2) as (f4 & Hun & F1 & F2 & F3 & F4).
  assert (kf k3 = f /\ fs_cwd k3 = fs_cwd k /\ tab k3 = tab k /\ proc k3 = proc k) as (Hkf3 & Hcw3 & Ht3 & Hp3)
    by (rewrite Hk3; done).
  apply wp_bind. eapply wp_run; [apply (on_fs_run _ k3 tt f4); [congruence|by rewrite Hkf3]|]. cbv beta.
  unfold end_op. apply wp_bind. eapply wp_run; [apply on_fs_run; [|reflexivity]|].
  { change (fs_cwd (set_kf f4 k3)) with (fs_cwd k3). cbn [kf set_kf]. congruence. }
  cbv beta. set (k4 := set_kf _ (set_kf f4 k3)).
  eapply wp_mono; [apply (exec_image_ok path argv (file_elf f ip) args d top free3 img k l t k4 Hr Hargs)| |done]; try done.
  { unfold KVM_PAGES in *. lia. }
  intros r k' (-> & Hdone). split; [done|]. exists d, (set_flog [] f4), k4. split; [exact Hdone|].
  split; [unfold k4; rewrite Hk3; by destruct k|]. done.
Qed.

Lemma exec_run elf0 path argv args k l t ip f : runs k l t -> finds k path ip f -> executable f ip ->
  exec_room f ip l -> args_ok k (file_program f ip).1 argv args ->
  returns (exec devread elf0 path argv) k (fun r k' => r = 0 /\ exec_done k l t path args f ip k').
Proof.
  intros Hr Hf Hx Hroom Hargs. pose proof Hx as [X1 _ X3 X4 _ _].
  pose proof (rn_free _ _ _ Hr) as Hk. destruct (finds_run _ _ _ _ Hf) as (f1 & Hnamei & Hilock & L1 & L2 & L3).
  unfold exec, begin_op. apply wp_bind. step. apply wp_bind.
  eapply wp_run; [exact Hnamei|]. cbv beta iota. apply wp_bind. eapply wp_run; [exact Hilock|]. cbv beta. set (k1 := set_kf f k). assert (locked f k1) as Hlk by done.
  apply wp_bind. eapply wp_run; [apply (read_run devread f ip X1 k1 0 ELFHDR_SZ Hlk); unfold ELFHDR_SZ in *; lia|]. cbv beta iota.
  change (u32 ELFHDR_SZ <? ELFHDR_SZ) with false. change (ELFHDR_SZ <? 0) with false. cbv iota.
  fold (file_elf f ip). rewrite X3, Z.eqb_refl. cbn [negb]. pose proof Hroom as [_ Hroom2].
  destruct l as [|d l]; [unfold KVM_PAGES in Hroom2; cbn [length] in Hroom2; lia|].
  apply wp_bind, wp_on_km. eapply wp_mono; [apply (building_start (km k1) d l Hk); unfold KVM_PAGES in *; lia| |done].
  intros r s1 (-> & free & Hl & Hb). cbv beta. pose proof (kinv_pages _ _ Hk) as Hpg. apply Forall_cons in Hpg as [Hdk _].
  pose proof (kpage_range _ Hdk) as Hdr. rewrite (proj2 (Z.eqb_neq d 0)) by lia.
  by apply (exec_loaded path argv args k (d :: l) t ip f d free s1).
Qed.

(** ** What exec promises *)

(** [k'] is [k] with the process running the program of the file [ip] of [f]. *)
Record execed (k : kern) (l : list Z) (t : Z) (path : list Z) (args : list (list Z)) (f : fs) (ip : nat) (k' : kern)
    : Prop := {
  xe_sz : fld k' (proc k) o_sz = exec_sz (file_program f ip).1;
  xe_cr3 : cr3 (km k') = v2p (fld k' (proc k) o_pgdir);
  xe_mem : exists free', kinv (km k') free' /\
    uvm_wf (mem (km k')) (fld k' (proc k) o_pgdir) (fld k' (proc k) o_sz) free' /\
    fld k (proc k) o_pgdir ∉ free' /\
    apart (mem (km k')) (fld k' (proc k) o_pgdir) (fld k' (proc k) o_sz) (fld k (proc k) o_pgdir) /\
    (forall q, owned (mem (km k)) (fld k (proc k) o_pgdir) q -> q <> fld k (proc k) o_pgdir -> q ∈ free') /\
    (forall va, 0 <= va < fld k (proc k) o_sz -> upage (mem (km k)) (fld k (proc k) o_pgdir) va ∈ free');
  xe_image va : 0 <= va < PGROUNDUP (file_program f ip).1 ->
    ubyte (mem (km k')) (fld k' (proc k) o_pgdir) va = (file_program f ip).2 va /\
    user_may true (pte (mem (km k')) (fld k' (proc k) o_pgdir) va) = true;
  xe_guard va : let U := PGROUNDUP (file_program f ip).1 in U <= va < U + PGSIZE ->
    user_may false (pte (mem (km k')) (fld k' (proc k) o_pgdir) va) = false;
  xe_stack : let sz := fld k' (proc k) o_sz in
    main_stack (ubyte (mem (km k')) (fld k' (proc k) o_pgdir)) (reg k' tf_esp) sz args /\
    sz - PGSIZE <= reg k' tf_esp < sz /\
    forall va, sz - PGSIZE <= va < sz -> user_may true (pte (mem (km k')) (fld k' (proc k) o_pgdir) va) = true;
  xe_eip : reg k' tf_eip = elf_entry (file_elf f ip);
  xe_tf o : 0 <= o < TF_SIZE -> ~ tf_eip <= o < tf_eip + 4 -> ~ tf_esp <= o < tf_esp + 4 ->
    load8 (mem (km k')) (tfp k + o) = load8 (mem (km k)) (tfp k + o);
  xe_name i : 0 <= i < 4 -> fld k' (proc k) (o_name + i) = rd 4 (4 * i) (copy_name 16 (last_elem path path)
    (flat_map (fun j => bytes_of_word (fld k (proc k) (o_name + Z.of_nat j))) (seq 0 4)));
  xe_words q o : 0 <= o < PROC_WORDS -> q <> proc k \/ (o <> o_sz /\ o <> o_pgdir /\ ~ 27 <= o < 31) ->
    fld k' q o = fld k q o;
  xe_frame q : kpage q -> q ∉ l -> apart (mem (km k)) (fld k (proc k) o_pgdir) (fld k (proc k) o_sz) q -> q <> t ->
    agree (mem (km k)) (mem (km k')) q PGSIZE;
  xe_files : proc k' = proc k /\ files k' = files k /\ pipes k' = pipes k /\ nextpid k' = nextpid k;
  xe_fs : fb (kf k') = fb f /\ flog (kf k') = [] /\
    icache (kf k') ip = set_ref (iref (icache f ip) - 1) (set_iflags false (ivalid (icache f ip)) (icache f ip)) /\
    forall j, j <> ip -> icache (kf k') j = icache f j }.

Lemma guard_flags e : 0 <= e < 2 ^ 32 -> PTE_FLAGS e = Z.lor PTE_W PTE_P -> user_may false e = false.
Proof.
  intros He Hf. rewrite user_may_bits. rewrite PTE_FLAGS_eq in Hf by done.
  assert (forall j, 0 <= j < 12 -> Z.testbit e j = Z.testbit (e mod 2 ^ 12) j) as Hb
    by (intros; by rewrite Z.mod_pow2_bits_low by lia).
  rewrite !Hb by lia. change (2 ^ 12) with 4096. by rewrite Hf.
Qed.

(** Below the guard page and above it user code may read and write, on it it may not. *)
Lemma guarded_access m d a va : PTE_FLAGS (pte m d va) = guarded a va ->
  if va / PGSIZE =? a / PGSIZE then user_may false (pte m d va) = false else user_may true (pte m d va) = true.
Proof.
  unfold guarded. intros Hf. pose proof (pte_range m d va). case_match; [by apply guard_flags|by apply user_may_flags].
Qed.

Lemma committed_own p path d sz k : fld (committed p path d sz k) p o_pgdir = d /\ fld (committed p path d sz k) p o_sz = sz /\
  forall i, 0 <= i < 4 -> fld (committed p path d sz k) p (o_name + i) = rd 4 (4 * i) (copy_name 16 (last_elem path path)
    (flat_map (fun j => bytes_of_word (fld k p (o_name + Z.of_nat j))) (seq 0 4))).
Proof.
  unfold committed, renamed. set (nm := copy_name _ _ _). split; [words|]. split; [words|].
  intros i Hi. assert (i = 0 \/ i = 1 \/ i = 2 \/ i = 3) as [->|[->|[->| ->]]] by lia; words.
Qed.

Lemma exec_done_execed k l t path args f ip k' : runs k l t -> executable f ip -> exec_room f ip l ->
  exec_sz (file_program f ip).1 - PGSIZE <= main_sp (exec_sz (file_program f ip).1) args ->
  exec_done k l t path args f ip k' -> execed k l t path args f ip k'.
Proof.
  intros [Rh Rf Ru Rc Rp Rt (T1 & T2 & T3 & T4 & T5)] Hx [Hsz _] Hfit
    (d & f' & k1 & (Hk' & Hc & _ & free' & img' & m & Hm & [E1 E2 E3 E4 E5 E6 E7 E8 E9] & Hms & Hi) & Hk1 & F1 & F2 & F3 & F4).
  set (top := (file_program f ip).1) in *. set (sz := exec_sz top) in *. set (p := proc k) in *.
  assert (tab k1 = tab k) as Ht1 by (by rewrite Hk1).
  assert (forall q o, fld k1 q o = fld k q o) as Hf1 by (intros; unfold fld; by rewrite Ht1).
  destruct (committed_own p path d sz k1) as (C1 & C2 & C3).
  assert (fld k' p o_pgdir = d) as Hd by (rewrite Hk'; exact C1).
  assert (fld k' p o_sz = sz) as Hs by (rewrite Hk'; exact C2).
  assert (proc k' = p) as Hp by (rewrite Hk', Hk1; done).
  assert (forall q o, 0 <= o < PROC_WORDS -> q <> p \/ (o <> o_sz /\ o <> o_pgdir /\ ~ 27 <= o < 31) -> fld k' q o = fld k q o) as Hw.
  { intros q o Ho Hne. rewrite <- Hf1, Hk'. by apply (committed_fld p path d sz k1). }
  assert (tfp k' = tfp k) as Htf by (unfold tfp; rewrite Hp; apply Hw; [done|right; word_neq]).
  pose proof (conj (program_size f ip (file_headers f ip) 0 (fun _ => 0))
    (program_below f ip (file_headers f ip) 0 (fun _ => 0) (xf_segs _ _ Hx) eq_refl) : 0 <= top < KERNBASE) as Htop.
  destruct (PGROUNDUP_user top Htop) as (U1 & U2 & U3 & U4).
  assert (sz = PGROUNDUP top + 2 * PGSIZE) as Hsz' by done. set (U := PGROUNDUP top) in *.
  destruct (PGROUNDUP_user sz ltac:(unfold PGSIZE in *; lia)) as (_ & V2 & _).
  assert (0 <= zlen args) as Hza by apply zlen_nonneg. pose proof (args_sp_le args sz) as Hle.
  assert (main_sp sz args < sz) as Hsp by (unfold main_sp in *; lia).
  destruct (set_regs_read m (tfp k) (elf_entry (file_elf f ip)) (main_sp sz args)) as (G1 & G2 & G3).
  set (m1 := set_regs _ _ _ _) in *.
  assert (forall o, 0 <= o -> o + 4 <= TF_SIZE -> load32 (mem (km k')) (tfp k + o) = load32 m1 (tfp k + o)) as Hreg.
  { intros o Ho Ho'. apply (agree_load32 m1 _ t PGSIZE); [done|lia|lia]. }
  assert (KERNBASE = 2147483648) as HKB by done.
  assert (reg k' tf_esp = main_sp sz args) as Hesp.
  { unfold reg. rewrite Htf, Hreg, G2 by done. apply u32_small. unfold PGSIZE in *. lia. }
  assert (forall va, 0 <= va < sz -> if va / PGSIZE =? U / PGSIZE then user_may false (pte (mem (km k')) d va) = false
    else user_may true (pte (mem (km k')) d va) = true) as Hmay.
  { intros va Hva. apply guarded_access. rewrite E4 by lia. rewrite Hsz'. by replace (U + 2 * PGSIZE - 2 * PGSIZE) with U by lia. }
  split; fold p top U; rewrite ?Hs, ?Hd.
  - done.
  - done.
  - exists free'. destruct E5 as [E5a E5b]. repeat (split; [done|]). done.
  - intros va Hva. split; [rewrite E3 by (unfold PGSIZE in *; lia); apply Hi; unfold PGSIZE in *; lia|].
    pose proof (Hmay va ltac:(unfold PGSIZE in *; lia)) as Hy. rewrite (proj2 (Z.eqb_neq _ _)) in Hy by mmlia. done.
  - intros va U' Hva. unfold U' in Hva. pose proof (Hmay va ltac:(unfold PGSIZE in *; lia)) as Hy.
    rewrite (proj2 (Z.eqb_eq _ _)) in Hy by mmlia. done.
  - cbv zeta. rewrite Hesp. split; [|split; [lia|]].
    + apply (main_stack_ext img'); [done|unfold main_sp; lia|]. intros va Hva. apply E3. unfold PGSIZE in *. lia.
    + intros va Hva. pose proof (Hmay va ltac:(unfold PGSIZE in *; lia)) as Hy.
      rewrite (proj2 (Z.eqb_neq _ _)) in Hy by mmlia. done.
  - unfold reg. rewrite Htf, Hreg, G1 by done. apply u32_small. by destruct (elf_range f ip) as (_ & _ & ?).
  - intros o Ho H1 H2. rewrite (E8 (tfp k + o)) by (unfold TF_SIZE in *; lia). rewrite G3 by lia.
    apply (Hm t T1 T2). unfold TF_SIZE in *. lia.
  - intros i Hi'. rewrite Hk'. change (fld (set_km (km k') (committed p path d sz k1))) with (fld (committed p path d sz k1)).
    rewrite C3 by done. unfold fld. by rewrite Ht1.
  - exact Hw.
  - done.
  - rewrite Hk', Hk1. done.
  - rewrite Hk', Hk1. done.
Qed.

(** ** Files exec does not take *)

(** The file is too short for a header, or does not begin like an ELF file. *)
Definition not_elf (f : fs) (ip : nat) : Prop :=
  di_size (di f ip) < ELFHDR_SZ \/ elf_magic (file_elf f ip) <> ELF_MAGIC.

(** The first read of exec, whatever the size of the file. *)
Lemma read_header k f ip : solid f ip -> locked f k ->
  on_fs (readi devread ip 0 ELFHDR_SZ) k =
    Done (Z.min ELFHDR_SZ (di_size (di f ip)), fdata f ip 0 (Z.min ELFHDR_SZ (di_size (di f ip)))) k.
Proof.
  intros [S1 S2 S3 S4] [Hk Hc]. assert (MAXBYTES = 71680) as HM by done. unfold ELFHDR_SZ.
  rewrite (on_fs_run _ k (Z.min 52 (di_size (di f ip)), fdata f ip 0 (Z.min 52 (di_size (di f ip)))) f);
    [by destruct k; simpl in *; subst|congruence|]. rewrite Hk.
  rewrite (readi_pure devread ip 0 52 f) by (try done; try lia; intros p Hp; apply S4; lia). by rewrite Z.sub_0_r.
Qed.

(** What is left of the file system when exec gives up a file it has looked at. *)
Definition given_up (k : kern) (f : fs) (ip : nat) (k' : kern) : Prop :=
  k' = set_kf (kf k') k /\ fb (kf k') = fb f /\ flog (kf k') = [] /\
  icache (kf k') ip = set_ref (iref (icache f ip) - 1) (set_iflags false (ivalid (icache f ip)) (icache f ip)) /\
  forall j, j <> ip -> icache (kf k') j = icache f j.

Lemma bad_file k f ip : cwd f = fs_cwd k -> ibusy (icache f ip) = true -> 1 <= iref (icache f ip) ->
  di_nlink (di f ip) <> 0 ->
  returns (bad 0 (Some ip)) (set_kf f k) (fun r k' => r = -1 /\ given_up k f ip k').
Proof.
  intros L1 L2 L3 X2. destruct (iunlockput_named ip f L2 L3 X2) as (f4 & Hun & F1 & F2 & F3 & F4).
  unfold bad. rewrite Z.eqb_refl. apply wp_bind. step. apply wp_bind, wp_bind.
  eapply wp_run; [apply (on_fs_run _ (set_kf f k) tt f4); [done|exact Hun]|]. cbv beta.
  unfold end_op. eapply wp_run; [apply on_fs_run; [|reflexivity]|].
  { change (fs_cwd (set_kf f4 (set_kf f k))) with (fs_cwd k). cbn [kf set_kf]. congruence. }
  cbv beta. step. done.
Qed.

Lemma exec_not_elf elf0 path argv k ip f : finds k path ip f -> solid f ip -> di_nlink (di f ip) <> 0 -> not_elf f ip ->
  returns (exec devread elf0 path argv) k (fun r k' => r = -1 /\ given_up k f ip k').
Proof.
  intros Hf Hs Hl Hn. destruct (finds_run _ _ _ _ Hf) as (f1 & Hnamei & Hilock & L1 & L2 & L3).
  pose proof (so_size _ _ Hs) as Hsi. unfold exec, begin_op. apply wp_bind. step. apply wp_bind.
  eapply wp_run; [exact Hnamei|]. cbv beta iota. apply wp_bind. eapply wp_run; [exact Hilock|]. cbv beta. apply wp_bind. eapply wp_run; [by apply (read_header (set_kf f k) f ip)|]. cbv beta iota.
  assert (ELFHDR_SZ = 52) as HE by done. destruct (decide (di_size (di f ip) < 52)) as [Hlt|Hge].
  { rewrite Z.min_r, u32_small, (proj2 (Z.ltb_lt _ _)) by lia. by apply bad_file. }
  rewrite Z.min_l by lia. change (u32 ELFHDR_SZ <? ELFHDR_SZ) with false. cbv iota.
  change (ELFHDR_SZ <? 0) with false. cbv iota. fold (file_elf f ip).
  destruct Hn as [Hn|Hn]; [lia|]. rewrite (proj2 (Z.eqb_neq _ _) Hn). cbn [negb]. by apply bad_file.
Qed.

Lemma exec_no_file elf0 path argv k f : namei devread path (here k (kf k)) = Done None f ->
  exec devread elf0 path argv k = Done (-1) (set_kf (set_flog [] (here k f)) k).
Proof.
  intros Hn. unfold exec, begin_op. rewrite (bind_run (ret tt) _ k tt k) by done.
  rewrite (bind_run _ _ k None (set_kf f k)); [done|].
  unfold on_fs. fold (fs_cwd k). fold (here k (kf k)). by rewrite Hn.
Qed.
End exec.

(** C12. exec of a well-formed program, with enough memory and arguments that fit a page,
    returns 0 and the process runs the program: its memory is the image the headers of the
    file describe, zero where they say nothing, all of it writable by user code; above it
    are a page user code may not touch and a page of stack on which main finds argc, argv
    and the argument strings.  eip is the entry point, the other registers but esp are as
    they were.  The memory the process had is free again, all but the page of its old page
    directory, which is lost: it is neither free nor used.  No other page, word of the
    process table or open file has changed, and the inode is released. *)
Theorem exec_spec `{Layout} devread elf0 path argv args k l t ip f :
  runs k l t -> finds devread k path ip f -> executable f ip -> exec_room f ip l ->
  args_ok k (file_program f ip).1 argv args ->
  returns (exec devread elf0 path argv) k (fun r k' => r = 0 /\ execed k l t path args f ip k').
Proof.
  intros Hr Hf Hx Hroom Ha. eapply returns_mono; [by apply (exec_run devread elf0 path argv args k l t ip f)|].
  intros r k' [-> Hd]. split; [done|]. by apply exec_done_execed; [..|apply Ha|].
Qed.

(** C34. exec of a file that is too short for an ELF header, or does not begin with one,
    returns -1 and changes nothing of the process: memory, process table and open files
    are as they were, and the inode is released. *)
Theorem exec_rejects `{Layout} devread elf0 path argv k ip f :
  finds devread k path ip f -> solid f ip -> di_nlink (di f ip) <> 0 -> not_elf f ip ->
  returns (exec devread elf0 path argv) k (fun r k' => r = -1 /\ given_up k f ip k').
Proof. apply exec_not_elf. Qed.

(** ** A process that execs *)

(** A file of one block: the ELF header, one program header and four bytes of code. *)
Definition elf_block : list Z :=
  wr 4 0 ELF_MAGIC (wr 4 28 52 (wr 2 44 1 (wr 4 52 ELF_PROG_LOAD (wr 4 56 84 (wr 4 68 4 (wr 4 72 100
    (wr 4 84 0x90909090 zeros))))))).
Definition elf_blocks (b : Z) : list Z := if b =? 10 then elf_block else sample_blocks b.
Definition elf_dinode : dinode := mkDinode T_FILE 0 0 1 88 (10 :: replicate 12 0).
Definition elf_fs : fs := mkFs elf_blocks [] (fun _ => mkInode 1 1 false true elf_dinode) 0.
Definition elf_open : fs :=
  mkFs elf_blocks [] (upd 0%nat (mkInode 1 2 true true elf_dinode) (upd 0%nat (mkInode 1 2 false true elf_dinode) (icache elf_fs))) 0.

Lemma elf_wf : fs_wf elf_blocks.
Proof.
  destruct sample_wf as [W1 W2 W3 W4].
  assert (forall b, b <> 10 -> elf_blocks b = sample_blocks b) as He
    by (intros b Hb; unfold elf_blocks; by rewrite (proj2 (Z.eqb_neq b 10) Hb)).
  split.
  - intros b. unfold elf_blocks. case_match; [reflexivity|apply W1].
  - by rewrite He.
  - unfold first_data in *. by rewrite He.
  - intros b Hb. assert (first_data elf_blocks = 6) as Hfd by reflexivity. rewrite Hfd in Hb.
    assert (b = 0 \/ b = 1 \/ b = 2 \/ b = 3 \/ b = 4 \/ b = 5) as Hc by lia.
    destruct Hc as [->|[->|[->|[->|[->| ->]]]]]; reflexivity.
Qed.

Lemma elf_executable : executable elf_open 0.
Proof.
  split; [split|..]; try reflexivity; try done.
  - apply elf_wf.
  - intros q Hq. change (di_size (di elf_open 0)) with 88 in Hq.
    assert (q / BSIZE = 0) as -> by (unfold BSIZE; zlia). done.
  - change (file_headers elf_open 0) with [mkPh 1 84 0 4 100]. apply Forall_cons. split; [|done]. intros _.
    change (di_size (di elf_open 0)) with 88. simpl. split; [lia|]. split; [done|]. unfold KERNBASE. lia.
Qed.

(** The process runs on the page table [d], has a trap frame in the page [t], and the
    string hi at address 0. *)
Definition exec_state (d t : Z) (s : kst) : kst :=
  set_cr3 (v2p d) (set_mem (write_bytes (mem s) (upage (mem s) d 0) [104; 105; 0]) (set_freelist (load32 (mem s) t) s)).
Definition exec_kern (d t : Z) (s : kst) : kern :=
  set_kf elf_fs (set_km (exec_state d t s) (set_tab (fork_tab d t) one_file)).

Lemma exec_state_ok d t s l : first_state d s (t :: l) -> let s1 := exec_state d t s in
  kinv s1 l /\ uvm_wf (mem s1) d (2 * PGSIZE) l /\ apart (mem s1) d (2 * PGSIZE) t /\
  img_string (ubyte (mem s1) d) 0 [104; 105].
Proof.
  intros (_ & Hk & Hwf & _) s1. pose proof (kinv_kalloc _ _ _ Hk) as Hk0.
  assert (uvm_wf (mem s) d (2 * PGSIZE) l) as Hwf0.
  { apply (uvm_wf_frame s s d _ (t :: l)); [intros; apply agree_refl|intros; apply elem_of_cons; by right|done]. }
  assert (PGROUNDUP (2 * PGSIZE) = 2 * PGSIZE) as HU by done.
  destruct (uw_in _ _ _ _ Hwf 0) as (_ & Hq & _); [unfold PGSIZE; lia|]. set (q := upage (mem s) d 0) in *.
  set (m' := write_bytes (mem s) q [104; 105; 0]).
  assert (one_page (mem s) m' q) as Ho.
  { intros a Ha. unfold m'. rewrite load8_write_bytes. apply put_img_out. unfold zlen, PGSIZE in *. simpl. lia. }
  set (s0 := set_freelist (load32 (mem s) t) s) in *.
  destruct (one_page_uvm s0 d (2 * PGSIZE) l 0 m' Hk0 Hwf0) as (K & W & P & O & _);
    [rewrite HU; unfold PGSIZE; lia|exact Ho|].
  split; [by apply (kinv_same (set_mem m' s0))|]. split; [done|]. split.
  - destruct (free_apart _ _ _ _ t Hwf) as [A1 A2]; [apply elem_of_cons; by left|].
    change (mem s1) with m'. split; [by rewrite O|]. unfold upage. setoid_rewrite P. exact A2.
  - assert (forall va, 0 <= va < 3 -> ubyte m' d va = u8 ([104; 105; 0] !!! Z.to_nat va)) as Hb.
    { intros va Hva. unfold ubyte, upage. rewrite P. rewrite (pte_same_page _ _ va 0) by mmlia.
      change (p2v (PTE_ADDR (pte (mem s0) d 0))) with q. unfold m'. rewrite load8_write_bytes, put_img_in by (unfold zlen; simpl; mmlia).
      do 3 f_equal. mmlia. }
    split; [|exact (Hb 2 ltac:(lia))]. intros i b Hi. destruct i as [|[|i]]; simplify_eq/=.
    + exact (Hb 0 ltac:(lia)).
    + exact (Hb 1 ltac:(lia)).
Qed.

Lemma exec_kern_runs d t s l : first_state d s (t :: l) -> runs (exec_kern d t s) l t.
Proof.
  intros Hf. destruct (exec_state_ok d t s l Hf) as (K & W & A & _). destruct Hf as (_ & Hk & _ & Hh & Hp & _).
  pose proof (kinv_nodup _ _ Hk) as Hnd. apply NoDup_cons in Hnd as [Ht _].
  pose proof (kinv_pages _ _ Hk) as Hpg. apply Forall_cons in Hpg as [Hpt _]. set (k := exec_kern d t s).
  assert (fld k 1 o_sz = 2 * PGSIZE) as Hsz by (unfold k, exec_kern, fork_tab; words).
  assert (fld k 1 o_pgdir = d) as Hd by (unfold k, exec_kern, fork_tab; words).
  assert (tfp k = t + KSTACKSIZE - TF_SIZE) as Htf by (unfold tfp; change (proc k) with 1; unfold k, exec_kern, fork_tab; words).
  assert (forall i, refcount (km k) i < 2) as Hrc.
  { intros i. unfold refcount. cbn. rewrite Hp, lookup_empty. done. }
  split; change (proc k) with 1; rewrite ?Hsz, ?Hd, ?Htf; [exact Hh|exact K|exact W|done|intros va _; apply Hrc|intros q _; apply Hrc|].
  split; [done|]. split; [done|]. split; [done|]. unfold KSTACKSIZE, TF_SIZE, PGSIZE. lia.
Qed.

Lemma exec_kern_args d t s l : first_state d s (t :: l) -> args_ok (exec_kern d t s) 100 [0] [[104; 105]].
Proof.
  intros Hf. destruct (exec_state_ok d t s l Hf) as (_ & _ & _ & A). set (k := exec_kern d t s).
  assert (fld k 1 o_sz = 2 * PGSIZE) as Hsz by (unfold k, exec_kern, fork_tab; words).
  assert (fld k 1 o_pgdir = d) as Hd by (unfold k, exec_kern, fork_tab; words).
  split; change (proc k) with 1; rewrite ?Hsz, ?Hd.
  - apply Forall2_cons. split; [|done]. split; [lia|]. split; [done|]. split; [|exact A].
    apply Forall_cons. split; [lia|]. apply Forall_cons. split; [lia|done].
  - done.
  - by vm_compute.
Qed.

Lemma exec_spec_witness : exists d s t l, first_state d s (t :: l) /\
  returns (exec (fun _ => None) [] [] [0]) (exec_kern d t s) (fun r k' => r = 0 /\
    execed (exec_kern d t s) l t [] [[104; 105]] elf_open 0 k').
Proof.
  destruct first_state_ex as (d & s & free & Hf & _). pose proof Hf as (_ & _ & _ & _ & _ & Hl).
  destruct free as [|t l]; [cbn in Hl; lia|]. exists d, s, t, l. split; [exact Hf|].
  apply (exec_spec (fun _ => None) [] [] [0] [[104; 105]] (exec_kern d t s) l t 0 elf_open).
  - by apply exec_kern_runs.
  - eexists. split; reflexivity.
  - exact elf_executable.
  - split; [done|]. change (new_pages 0 (exec_sz (file_program elf_open 0).1)) with 3%nat. unfold KVM_PAGES. cbn [length] in Hl. lia.
  - by apply exec_kern_args with l.
Defined.

(** A file of zeroes is not a program. *)
Definition zero_fs : fs := mkFs sample_blocks [] (fun _ => mkInode 1 1 false true elf_dinode) 0.
Definition zero_open : fs :=
  mkFs sample_blocks [] (upd 0%nat (mkInode 1 2 true true elf_dinode) (upd 0%nat (mkInode 1 2 false true elf_dinode) (icache zero_fs))) 0.

Lemma exec_rejects_witness :
  returns (exec (fun _ => None) [] [] [0]) (set_kf zero_fs (set_tab (fork_tab 0 0) one_file)) (fun r k' => r = -1 /\
    given_up (set_kf zero_fs (set_tab (fork_tab 0 0) one_file)) zero_open 0 k').
Proof.
  apply (exec_rejects (fun _ => None) [] [] [0] (set_kf zero_fs (set_tab (fork_tab 0 0) one_file)) 0 zero_open).
  - eexists. split; reflexivity.
  - split; [exact sample_wf|done|done|]. intros q Hq. change (di_size (di zero_open 0)) with 88 in Hq.
    assert (q / BSIZE = 0) as -> by (unfold BSIZE; zlia). done.
  - done.
  - right. vm_compute. done.
Defined.
