(* ===== verification/Bootmain.v ===== *)
(** * bootmain.c: the boot loader

    The second half of the boot sector reads the kernel off the disk with the ATA
    registers and puts its segments where its ELF headers say.  The disk is a function from
    sectors to their bytes; how often it is busy is up to it.  Theorem: a kernel image whose
    segments come in increasing order is loaded as its headers describe, bytes of the
    image first and zeros after them, and its entry point is called. *)

From S2P Require Import Prelude Bytes Memory Uvm Exec ExecMem.

Definition SECTSIZE : Z := 512.

(** Physical memory, the registers of the disk as last written, and how often the status
    was looked at. *)
Record bootst := mkBoot { bmem : gmap Z Z; bregs : Z -> Z; looks : nat }.

Definition set_bmem (m : gmap Z Z) (s : bootst) : bootst := mkBoot m (bregs s) (looks s).
Definition set_bregs (r : Z -> Z) (s : bootst) : bootst := mkBoot (bmem s) r (looks s).
Definition set_looks (n : nat) (s : bootst) : bootst := mkBoot (bmem s) (bregs s) n.

Section boot.
(** The sectors of the disk, and what the [n]-th look at the status gives. *)
Context (disk : Z -> list Z) (status : nat -> Z).
(** How many looks a wait may take. *)
Context (patience : nat).

Definition outb (port data : Z) : M bootst unit := modify (fun s => set_bregs (upd port (u8 data) (bregs s)) s).
Definition inb_status : M bootst Z := fun s => Done (u8 (status (looks s))) (set_looks (S (looks s)) s).

(** The sector the registers ask for. *)
Definition lba (r : Z -> Z) : Z :=
  r 0x1F3 + r 0x1F4 * 2 ^ 8 + r 0x1F5 * 2 ^ 16 + Z.land (r 0x1F6) 0xF * 2 ^ 24.

(** [cnt] words of the data port, after the command to read one sector. *)
Definition insl (addr cnt : Z) : M bootst unit := modify (fun s =>
  let r := bregs s in
  let data := if (r 0x1F7 =? 0x20) && (r 0x1F2 =? 1) then disk (lba r) else [] in
  set_bmem (write_bytes (bmem s) addr (take (Z.to_nat (4 * cnt)) data)) s).

Fixpoint waitdisk (fuel : nat) : M bootst unit :=
  match fuel with
  | O => halt Diverged
  | S f => let! st := inb_status in if negb (Z.land st 0xC0 =? 0x40) then waitdisk f else ret tt
  end.

Definition readsect (dst offset : Z) : M bootst unit :=
  waitdisk patience ;;
  outb 0x1F2 1 ;;
  outb 0x1F3 offset ;;
  outb 0x1F4 (Z.shiftr offset 8) ;;
  outb 0x1F5 (Z.shiftr offset 16) ;;
  outb 0x1F6 (Z.lor (Z.shiftr offset 24) 0xE0) ;;
  outb 0x1F7 0x20 ;;
  waitdisk patience ;;
  insl dst (SECTSIZE / 4).

Fixpoint readseg_loop (n : nat) (pa epa offset : Z) : M bootst unit :=
  if pa <? epa then
    match n with
    | O => halt Diverged
    | S n => readsect pa offset ;; readseg_loop n (u32 (pa + SECTSIZE)) epa (u32 (offset + 1))
    end
  else ret tt.

(** One turn for each sector up to [epa]. *)
Definition readseg (pa count offset : Z) : M bootst unit :=
  let epa := u32 (pa + count) in
  let pa := u32 (pa - offset mod SECTSIZE) in
  let offset := offset / SECTSIZE + 1 in
  readseg_loop (Z.to_nat ((epa - pa + 511) / 512)) pa epa offset.

Definition ELF : Z := 0x10000.

(** The body of the loop over the program headers, and the loop. *)
Definition boot_seg (ph : Z) : M bootst unit :=
  let! pa := gets (fun s => load32 (bmem s) (ph + 12)) in
  let! filesz := gets (fun s => load32 (bmem s) (ph + 16)) in
  let! off := gets (fun s => load32 (bmem s) (ph + 4)) in
  readseg pa filesz off ;;
  let! filesz := gets (fun s => load32 (bmem s) (ph + 16)) in
  let! memsz := gets (fun s => load32 (bmem s) (ph + 20)) in
  if filesz <? memsz
  then modify (fun s => set_bmem (stosb (bmem s) (u32 (pa + filesz)) 0 (Z.to_nat (memsz - filesz))) s)
  else ret tt.

Fixpoint boot_segs (n : nat) (ph eph : Z) : M bootst unit :=
  if ph <? eph then
    match n with
    | O => halt Diverged
    | S n => boot_seg ph ;; boot_segs n (u32 (ph + 32)) eph
    end
  else ret tt.

(** The entry point that is called, [None] when bootmain returns. *)
Definition bootmain : M bootst (option Z) :=
  readseg ELF 4096 0 ;;
  let! magic := gets (fun s => load32 (bmem s) ELF) in
  if negb (magic =? ELF_MAGIC) then ret None
  else
    let! phoff := gets (fun s => load32 (bmem s) (ELF + 28)) in
    let! phnum := gets (fun s => load16 (bmem s) (ELF + 44)) in
    let ph := u32 (ELF + phoff) in
    boot_segs (Z.to_nat phnum) ph (u32 (ph + 32 * phnum)) ;;
    let! entry := gets (fun s => load32 (bmem s) (ELF + 24)) in
    ret (Some entry).

(** ** Reading the disk *)

(** A byte of the kernel image, which starts at sector 1. *)
Definition kimg (x : Z) : Z := u8 (nth (Z.to_nat (x mod 512)) (disk (x / 512 + 1)) 0).

Definition disk_ready (st : Z) : Prop := Z.land (u8 st) 0xC0 = 0x40.
Context (Hready : forall k, exists j, (j < patience)%nat /\ disk_ready (status (k + j)%nat)).
Context (Hdisk : forall n, length (disk n) = 512%nat).

Lemma waitdisk_from j n s : disk_ready (status (looks s + j)%nat) -> (j < n)%nat ->
  returns (waitdisk n) s (fun _ s' => bmem s' = bmem s /\ bregs s' = bregs s).
Proof.
  revert j s. induction n as [|n IH]; intros j s Hj Hn; [lia|]. cbn [waitdisk]. apply wp_bind.
  unfold inb_status, wp at 1. cbv beta iota.
  destruct (Z.eqb_spec (Z.land (u8 (status (looks s))) 0xC0) 0x40) as [E|E]; cbn [negb]; [by step|].
  destruct j as [|j]; [by rewrite Nat.add_0_r in Hj|].
  eapply wp_mono; [apply (IH j); [|lia]| |done].
  - cbn [looks set_looks]. by replace (S (looks s) + j)%nat with (looks s + S j)%nat by lia.
  - by intros _ s' [-> ->].
Qed.

Lemma waitdisk_ok s : returns (waitdisk patience) s (fun _ s' => bmem s' = bmem s /\ bregs s' = bregs s).
Proof. destruct (Hready (looks s)) as (j & Hj & Hs). by apply (waitdisk_from j). Qed.

(** The registers hold the number of the sector. *)
Lemma lba_offset offset : 0 <= offset < 2 ^ 28 ->
  u8 offset + u8 (Z.shiftr offset 8) * 2 ^ 8 + u8 (Z.shiftr offset 16) * 2 ^ 16 +
  Z.land (u8 (Z.lor (Z.shiftr offset 24) 0xE0)) 0xF * 2 ^ 24 = offset.
Proof.
  intros Ho. rewrite !Z.shiftr_div_pow2 by lia. unfold u8. rewrite <- (Z.land_ones (Z.lor _ _) 8), <- Z.land_assoc by lia.
  change (Z.land (Z.ones 8) 0xF) with (Z.ones 4). rewrite Z.land_lor_distr_l. change (Z.land 0xE0 (Z.ones 4)) with 0.
  rewrite Z.lor_0_r, Z.land_ones by lia. zlia.
Qed.

Lemma readsect_ok dst offset s : 0 <= offset < 2 ^ 28 ->
  returns (readsect dst offset) s (fun _ s' => bmem s' = write_bytes (bmem s) dst (disk offset)).
Proof.
  intros Ho. unfold readsect. apply wp_bind. eapply wp_mono; [apply waitdisk_ok| |done]. intros _ s1 [M1 _].
  do 6 (apply wp_bind; unfold outb at 1; step). set (s2 := set_bregs _ _).
  assert (bmem s2 = bmem s) as M2 by exact M1.
  assert (bregs s2 0x1F7 = 0x20 /\ bregs s2 0x1F2 = 1 /\ lba (bregs s2) = offset) as (R1 & R2 & R3)
    by (split; [done|]; split; [done|]; exact (lba_offset offset Ho)).
  clearbody s2. apply wp_bind. eapply wp_mono; [apply waitdisk_ok| |done]. intros _ s3 [M3 E3]. unfold insl. step.
  cbn [bmem set_bmem]. rewrite E3, R1, R2, R3, M3, M2. cbn [Z.eqb Pos.eqb andb].
  rewrite take_ge; [done|]. rewrite Hdisk. done.
Qed.

(** ** Segments *)

Definition in_range (lo n a : Z) : bool := (lo <=? a) && (a <? lo + n).

Lemma in_range_true lo n a : lo <= a < lo + n -> in_range lo n a = true.
Proof. intros Ha. unfold in_range. by rewrite (proj2 (Z.leb_le _ _)), (proj2 (Z.ltb_lt _ _)) by lia. Qed.
Lemma in_range_false lo n a : a < lo \/ lo + n <= a -> in_range lo n a = false.
Proof. intros Ha. unfold in_range. destruct (Z.leb_spec lo a), (Z.ltb_spec a (lo + n)); done || lia. Qed.

(** A byte of the disk [x] bytes after the start of sector [offset]. *)
Definition dbyte (offset x : Z) : Z := u8 (nth (Z.to_nat (x mod 512)) (disk (offset + x / 512)) 0).

Lemma readsect_byte m dst offset a :
  load8 (write_bytes m dst (disk offset)) a = if in_range dst 512 a then dbyte offset (a - dst) else load8 m a.
Proof.
  rewrite load8_write_bytes. assert (zlen (disk offset) = 512) as Hl by (unfold zlen; rewrite Hdisk; done).
  destruct (decide (dst <= a < dst + 512)) as [Ha|Ha].
  - rewrite put_img_in, in_range_true by lia. unfold dbyte. rewrite (Z.mod_small (a - dst)), (Z.div_small (a - dst)), Z.add_0_r by lia.
    destruct (lookup_lt_is_Some_2 (disk offset) (Z.to_nat (a - dst))) as [x Hx]; [rewrite Hdisk; lia|].
    by rewrite (list_lookup_total_correct _ _ _ Hx), (nth_lookup_Some _ _ _ _ Hx).
  - rewrite put_img_out, in_range_false by lia. done.
Qed.

Lemma readseg_loop_ok n pa epa offset s : 0 <= pa -> 0 <= offset -> offset + Z.of_nat n < 2 ^ 28 ->
  pa + 512 * Z.of_nat n < 2 ^ 32 -> pa + 512 * (Z.of_nat n - 1) < epa \/ n = 0%nat -> epa <= pa + 512 * Z.of_nat n ->
  returns (readseg_loop n pa epa offset) s (fun _ s' =>
    forall a, load8 (bmem s') a = if in_range pa (512 * Z.of_nat n) a then dbyte offset (a - pa) else load8 (bmem s) a).
Proof.
  revert pa offset s. induction n as [|n IH]; intros pa offset s Hpa Hoff Ho Hp Hlo Hhi; cbn [readseg_loop].
  { rewrite (proj2 (Z.ltb_ge _ _)) by lia. step. intros a. by rewrite in_range_false by lia. }
  rewrite (proj2 (Z.ltb_lt _ _)) by lia. apply wp_bind. eapply wp_mono; [apply readsect_ok; lia| |done].
  intros [] s1 M1. cbv beta in M1. rewrite !u32_small by (unfold SECTSIZE; lia). unfold SECTSIZE.
  eapply wp_mono; [apply IH; lia| |done]. intros [] s2 H2 a. cbv beta in H2. rewrite H2, M1, readsect_byte.
  destruct (decide (pa + 512 <= a < pa + 512 + 512 * Z.of_nat n)).
  - rewrite !in_range_true by lia. unfold dbyte. replace (a - pa) with (a - (pa + 512) + 1 * 512) by lia.
    rewrite Z.mod_add, Z.div_add by lia. do 3 f_equal. lia.
  - rewrite (in_range_false (pa + 512)) by lia. destruct (decide (pa <= a < pa + 512)).
    + by rewrite !in_range_true by lia.
    + by rewrite !in_range_false by lia.
Qed.

(** The sectors of a segment. *)
Definition nsect (off count : Z) : Z := (off mod 512 + count + 511) / 512.

Lemma readseg_ok pa count off s : off mod 512 <= pa -> 0 <= count -> 0 <= off < 2 ^ 32 -> pa + count + 512 < 2 ^ 32 ->
  returns (readseg pa count off) s (fun _ s' =>
    forall a, load8 (bmem s') a =
      if in_range (pa - off mod 512) (512 * nsect off count) a then kimg (off + (a - pa)) else load8 (bmem s) a).
Proof.
  intros Hpa Hc Ho Hb. unfold readseg. assert (0 <= off mod 512 < 512) as Hm by (apply Z.mod_pos_bound; lia).
  rewrite !u32_small by (unfold SECTSIZE; lia). unfold SECTSIZE.
  replace (pa + count - (pa - off mod 512) + 511) with (off mod 512 + count + 511) by lia. fold (nsect off count).
  assert (off mod 512 + count <= 512 * nsect off count < off mod 512 + count + 512) as Hn by (unfold nsect; zlia).
  eapply wp_mono; [apply readseg_loop_ok; zlia| |done]. intros [] s' H a. cbv beta in H. rewrite H. rewrite Z2Nat.id by lia.
  destruct (in_range _ _ a); [|done]. unfold dbyte, kimg.
  replace (a - (pa - off mod 512)) with (off mod 512 + (a - pa)) by lia.
  replace (off + (a - pa)) with (off mod 512 + (a - pa) + off / 512 * 512) by zlia.
  rewrite Z.mod_add, Z.div_add by lia. do 3 f_equal. lia.
Qed.

(** ** The kernel image *)

Record bseg := mkSeg { sg_pa : Z; sg_off : Z; sg_filesz : Z; sg_memsz : Z }.
Definition phoff : Z := word kimg 28.
Definition phnum : Z := half kimg 44.
Definition seg (i : Z) : bseg := let ph := phoff + 32 * i in
  mkSeg (word kimg (ph + 12)) (word kimg (ph + 4)) (word kimg (ph + 16)) (word kimg (ph + 20)).

(** Where the first sector of a segment goes; the bytes it takes. *)
Definition sg_head (s : bseg) : Z := sg_pa s - sg_off s mod 512.
Definition sg_size (s : bseg) : Z := Z.max (sg_filesz s) (sg_memsz s).

(** The headers are in the first page, the segments above the scratch space, and each above
    the one before, by the bytes that rounding to sectors takes. *)
Record image_ok : Prop := {
  io_magic : word kimg 0 = ELF_MAGIC;
  io_headers : phoff + 32 * phnum <= 4096;
  io_fits : forall i, 0 <= i < phnum -> 0x11000 <= sg_head (seg i) /\ sg_pa (seg i) + sg_size (seg i) + 512 < 2 ^ 32;
  io_order : forall i j, 0 <= i < j -> j < phnum -> sg_pa (seg i) + sg_size (seg i) <= sg_head (seg j) }.

Definition loaded (m : gmap Z Z) (s : bseg) : Prop :=
  forall x, 0 <= x < sg_size s -> load8 m (sg_pa s + x) = if x <? sg_filesz s then kimg (sg_off s + x) else 0.

Definition headers_in (s : bootst) : Prop := forall x, 0 <= x < 4096 -> load8 (bmem s) (ELF + x) = kimg x.

Lemma kimg_range x : 0 <= kimg x < 256.
Proof. unfold kimg, u8. apply Z.mod_pos_bound. done. Qed.

Lemma word_range o : 0 <= word kimg o < 2 ^ 32.
Proof.
  unfold word. pose proof (kimg_range o). pose proof (kimg_range (o + 1)).
  pose proof (kimg_range (o + 2)). pose proof (kimg_range (o + 3)). lia.
Qed.

Lemma half_range o : 0 <= half kimg o < 2 ^ 16.
Proof. unfold half. pose proof (kimg_range o). pose proof (kimg_range (o + 1)). lia. Qed.

Lemma header_word s o : headers_in s -> 0 <= o -> o + 4 <= 4096 -> load32 (bmem s) (ELF + o) = word kimg o.
Proof.
  intros Hh Ho Hlt. rewrite load32_word. unfold word. rewrite <- !Z.add_assoc, !Hh by lia. done.
Qed.

Lemma header_half s o : headers_in s -> 0 <= o -> o + 2 <= 4096 -> load16 (bmem s) (ELF + o) = half kimg o.
Proof. intros Hh Ho Hlt. unfold load16, half. rewrite <- !Z.add_assoc, !Hh by lia. done. Qed.

(** One segment: loaded, and nothing below it touched. *)
Lemma boot_seg_ok i s : image_ok -> 0 <= i < phnum -> headers_in s ->
  returns (boot_seg (ELF + (phoff + 32 * i))) s (fun _ s' =>
    loaded (bmem s') (seg i) /\ forall a, a < sg_head (seg i) -> load8 (bmem s') a = load8 (bmem s) a).
Proof.
  intros [_ Hph Hfit _] Hi Hh. specialize (Hfit i Hi) as [Hlo Hhi]. pose proof (word_range 28) as Hp0. fold phoff in Hp0.
  assert (forall s o, headers_in s -> 0 <= o <= 28 ->
    load32 (bmem s) (ELF + (phoff + 32 * i) + o) = word kimg (phoff + 32 * i + o)) as Hw.
  { intros s' o Hs' Ho. rewrite <- Z.add_assoc. apply header_word; [done|lia|lia]. }
  unfold boot_seg. do 3 (apply wp_bind, wp_gets). rewrite !Hw by (done || lia).
  change (word kimg (phoff + 32 * i + 12)) with (sg_pa (seg i)). change (word kimg (phoff + 32 * i + 16)) with (sg_filesz (seg i)).
  change (word kimg (phoff + 32 * i + 4)) with (sg_off (seg i)).
  assert (0 <= sg_filesz (seg i) < 2 ^ 32 /\ 0 <= sg_off (seg i) < 2 ^ 32 /\ 0 <= sg_memsz (seg i) < 2 ^ 32) as (Hf & Ho & Hm)
    by (repeat split; apply word_range).
  unfold sg_head, sg_size in *. set (S := seg i) in *. assert (0 <= sg_off S mod 512 < 512) as Hmod by (apply Z.mod_pos_bound; lia).
  apply wp_bind. eapply wp_mono; [apply readseg_ok; lia| |done]. intros [] s1 H1. cbv beta in H1.
  assert (headers_in s1) as Hh1.
  { intros x Hx. rewrite H1. rewrite in_range_false by (unfold ELF; lia). by apply Hh. }
  do 2 (apply wp_bind, wp_gets). rewrite !Hw by (done || lia).
  change (word kimg (phoff + 32 * i + 16)) with (sg_filesz S). change (word kimg (phoff + 32 * i + 20)) with (sg_memsz S).
  assert (sg_off S mod 512 + sg_filesz S <= 512 * nsect (sg_off S) (sg_filesz S)) as Hn by (unfold nsect; zlia).
  destruct (Z.ltb_spec (sg_filesz S) (sg_memsz S)) as [Hbss|Hbss]; step; cbn [bmem set_bmem]; split.
  - intros x Hx. unfold sg_size in Hx. rewrite u32_small by lia. rewrite load8_stosb, Z2Nat.id by lia.
    destruct (Z.ltb_spec x (sg_filesz S)).
    + rewrite (proj2 (Z.leb_gt _ _)) by lia. cbn [andb]. rewrite H1, in_range_true by lia. f_equal. lia.
    + rewrite (proj2 (Z.leb_le _ _)), (proj2 (Z.ltb_lt _ _)) by lia. done.
  - intros a Ha. rewrite u32_small by lia. rewrite load8_stosb, (proj2 (Z.leb_gt _ _)) by lia. cbn [andb].
    by rewrite H1, in_range_false by lia.
  - intros x Hx. unfold sg_size in Hx. rewrite (proj2 (Z.ltb_lt _ _)) by lia. rewrite H1, in_range_true by lia. f_equal. lia.
  - intros a Ha. by rewrite H1, in_range_false by lia.
Qed.

(** All of them, from the [i]-th on. *)
Lemma boot_segs_ok n i s : image_ok -> 0 <= i -> i + Z.of_nat n = phnum -> headers_in s ->
  returns (boot_segs n (ELF + (phoff + 32 * i)) (ELF + (phoff + 32 * phnum))) s (fun _ s' =>
    (forall j, i <= j < phnum -> loaded (bmem s') (seg j)) /\
    forall a, (forall j, i <= j < phnum -> a < sg_head (seg j)) -> load8 (bmem s') a = load8 (bmem s) a).
Proof.
  intros Hok. revert i s. induction n as [|n IH]; intros i s Hi Hn Hh; cbn [boot_segs].
  { rewrite (proj2 (Z.ltb_ge _ _)) by lia. step. split; [intros j Hj; lia|done]. }
  rewrite (proj2 (Z.ltb_lt _ _)) by lia. apply wp_bind. eapply wp_mono; [apply boot_seg_ok; [done|lia|done]| |done].
  intros [] s1 [L1 F1]. pose proof (io_headers Hok) as Hp. pose proof (word_range 28) as Hp0. fold phoff in Hp0.
  rewrite u32_small by (unfold ELF in *; lia). replace (ELF + (phoff + 32 * i) + 32) with (ELF + (phoff + 32 * (i + 1))) by lia.
  eapply wp_mono; [apply IH; [lia|lia|]| |done].
  - intros x Hx. rewrite F1; [by apply Hh|]. destruct (io_fits Hok i) as [? _]; [lia|]. unfold ELF. lia.
  - intros [] s2 [L2 F2]. split.
    + intros j Hj. destruct (decide (j = i)) as [->|]; [|apply L2; lia]. intros x Hx. rewrite F2; [by apply L1|].
      intros j Hj'. pose proof (io_order Hok i j). lia.
    + intros a Ha. rewrite F2 by (intros j Hj; apply Ha; lia). apply F1, Ha. lia.
Qed.

Lemma read_headers s : returns (readseg ELF 4096 0) s (fun _ s' => headers_in s').
Proof.
  eapply wp_mono; [apply readseg_ok; unfold ELF; (done || lia)| |done]. intros [] s' H x Hx. cbv beta in H. rewrite H.
  change (0 mod 512) with 0. change (nsect 0 4096) with 8. rewrite in_range_true by lia. f_equal. lia.
Qed.

Lemma bootmain_loads_ok s : image_ok ->
  returns bootmain s (fun r s' => r = Some (word kimg 24) /\
    forall j, 0 <= j < phnum -> loaded (bmem s') (seg j)).
Proof.
  intros Hok. unfold bootmain. apply wp_bind. eapply wp_mono; [apply read_headers| |done]. intros [] s1 Hh. cbv beta in Hh.
  pose proof (io_headers Hok) as Hp. pose proof (word_range 28) as Hp0. fold phoff in Hp0. pose proof (half_range 44) as Hq. fold phnum in Hq.
  apply wp_bind, wp_gets. replace ELF with (ELF + 0) at 1 by lia. rewrite header_word, (io_magic Hok) by (done || lia).
  rewrite Z.eqb_refl. cbn [negb]. do 2 (apply wp_bind, wp_gets). rewrite header_word, header_half by (done || lia).
  fold phoff phnum. rewrite !u32_small by (unfold ELF; lia). apply wp_bind.
  pose proof (boot_segs_ok (Z.to_nat phnum) 0 s1 Hok ltac:(lia) ltac:(lia) Hh) as H.
  replace (ELF + (phoff + 32 * 0)) with (ELF + phoff) in H by lia. rewrite Z.add_assoc in H.
  eapply wp_mono; [exact H| |done]. intros [] s2 [L2 F2]. apply wp_bind, wp_gets. step. split; [|done]. f_equal.
  apply header_word; [|lia|lia]. intros x Hx. rewrite F2; [by apply Hh|]. intros j Hj.
  destruct (io_fits Hok j Hj) as [? _]. unfold ELF. lia.
Qed.

Lemma bootmain_rejects_ok s : word kimg 0 <> ELF_MAGIC -> returns bootmain s (fun r _ => r = None).
Proof.
  intros Hne. unfold bootmain. apply wp_bind. eapply wp_mono; [apply read_headers| |done]. intros [] s1 Hh. cbv beta in Hh.
  apply wp_bind, wp_gets. replace ELF with (ELF + 0) by lia. rewrite header_word by (done || lia).
  rewrite (proj2 (Z.eqb_neq _ _) Hne). cbn [negb]. by step.
Qed.
End boot.

(** ** The loader *)

(** C32. The boot loader, with a disk that is ready now and then, loads any kernel whose
    headers are in its first page and whose segments lie above the scratch space in
    increasing order: it returns, calls the entry point of the header, and each segment
    is in memory as its header says - the bytes of the image, then zeros up to the size
    in memory - although whole sectors are read past the end of each. *)
Theorem bootmain_loads disk status patience s :
  (forall k, exists j, (j < patience)%nat /\ disk_ready (status (k + j)%nat)) ->
  (forall n, length (disk n) = 512%nat) ->
  image_ok disk ->
  returns (bootmain disk status patience) s (fun r s' => r = Some (word (kimg disk) 24) /\
    forall j, 0 <= j < phnum disk -> forall x, 0 <= x < sg_size (seg disk j) ->
      load8 (bmem s') (sg_pa (seg disk j) + x) =
        if x <? sg_filesz (seg disk j) then kimg disk (sg_off (seg disk j) + x) else 0).
Proof. intros Hr Hd Hok. by apply bootmain_loads_ok. Qed.

(** A disk that does not hold an ELF file: bootmain returns to bootasm.S. *)
Lemma bootmain_rejects disk status patience s :
  (forall k, exists j, (j < patience)%nat /\ disk_ready (status (k + j)%nat)) ->
  (forall n, length (disk n) = 512%nat) -> word (kimg disk) 0 <> ELF_MAGIC ->
  returns (bootmain disk status patience) s (fun r _ => r = None).
Proof. intros Hr Hd Hne. by apply bootmain_rejects_ok. Qed.

(** A kernel with two segments, the second with zeros after its bytes. *)
Definition kernel_header : list Z :=
  le_bytes 4 ELF_MAGIC ++ replicate 20 0 ++ le_bytes 4 0x10000c ++ le_bytes 4 52 ++ replicate 12 0 ++ le_bytes 2 2 ++ replicate 6 0 ++
  le_bytes 4 1 ++ le_bytes 4 4096 ++ le_bytes 4 0x80100000 ++ le_bytes 4 0x100000 ++ le_bytes 4 1000 ++ le_bytes 4 1000 ++ replicate 8 0 ++
  le_bytes 4 1 ++ le_bytes 4 5100 ++ le_bytes 4 0x80101000 ++ le_bytes 4 0x101000 ++ le_bytes 4 100 ++ le_bytes 4 700 ++ replicate 8 0.
Definition kernel_disk (n : Z) : list Z :=
  if n =? 1 then kernel_header ++ replicate 396 0 else replicate 512 (u8 n).

Lemma kernel_disk_ok : image_ok kernel_disk.
Proof.
  assert (phnum kernel_disk = 2) as Hp by (by vm_compute).
  split; [by vm_compute|rewrite Hp; by vm_compute| |]; rewrite Hp.
  - intros i Hi. assert (i = 0 \/ i = 1) as [-> | ->] by lia; split; by vm_compute.
  - intros i j Hij Hj. assert (i = 0 /\ j = 1) as [-> ->] by lia. by vm_compute.
Qed.

Lemma bootmain_loads_witness : returns (bootmain kernel_disk (fun _ => 0x40) 1) (mkBoot ∅ (fun _ => 0) 0)
  (fun r s' => r = Some 0x10000c /\ load8 (bmem s') 0x100000 = 9 /\ load8 (bmem s') 0x101063 = 11 /\ load8 (bmem s') 0x101064 = 0).
Proof.
  eapply returns_mono.
  - apply (bootmain_loads kernel_disk (fun _ => 0x40) 1).
    + intros k. exists 0%nat. split; [lia|by vm_compute].
    + intros n. unfold kernel_disk. destruct (n =? 1); [by vm_compute|apply length_replicate].
    + exact kernel_disk_ok.
  - intros r s' [-> H]. split; [by vm_compute|]. split; [|split].
    + exact (H 0 ltac:(by vm_compute) 0 ltac:(by vm_compute)).
    + exact (H 1 ltac:(by vm_compute) 99 ltac:(by vm_compute)).
    + exact (H 1 ltac:(by vm_compute) 100 ltac:(by vm_compute)).
Defined.
