(* ===== verification/Main.v ===== *)
(** * main.c: the start of the kernel

    main, mpenter, mpmain and startothers over the state of the whole machine: the kernel of
    Kernel.v, the registers and the local APIC of every processor, the other interrupt
    controllers and what mpinit finds.  All parts work on one memory.  The theorem on
    them is in MainSpec. *)

From S2P Require Import Pipe Bytes FsFormat Fs Inode InodeData Dir.
From S2P Require Import Prelude Mmu Traps Memory Kstate Kalloc PageTable Uvm Boot Kernel Sched.
From S2P Require Import Bio Mp Irq Lapic Seg.
From S2P Require Import Prelude Proc Trap.

(** A processor is named by the number its local APIC gives.  [mkpgdir]: kpgdir; [midtr], [midt]:
    the interrupt table register of each processor and the table; [mlocks]: the locks set up by
    initialisers that do nothing else. *)
Record mach := mkMach {
  mk : kern;
  mkpgdir : Z;
  mmp : mps;
  mirq : irqst;
  mseg : Z -> segst;
  mlap : Z -> lapst;
  midtr : Z -> Z * Z;
  midt : Z -> gatedesc;
  mbuf : bcache;
  mlocks : list lock }.

Definition set_mk (k : kern) (s : mach) : mach :=
  mkMach k (mkpgdir s) (mmp s) (mirq s) (mseg s) (mlap s) (midtr s) (midt s) (mbuf s) (mlocks s).
Definition set_mkpgdir (d : Z) (s : mach) : mach :=
  mkMach (mk s) d (mmp s) (mirq s) (mseg s) (mlap s) (midtr s) (midt s) (mbuf s) (mlocks s).
Definition set_mmp (p : mps) (s : mach) : mach :=
  mkMach (mk s) (mkpgdir s) p (mirq s) (mseg s) (mlap s) (midtr s) (midt s) (mbuf s) (mlocks s).
Definition set_mirq (q : irqst) (s : mach) : mach :=
  mkMach (mk s) (mkpgdir s) (mmp s) q (mseg s) (mlap s) (midtr s) (midt s) (mbuf s) (mlocks s).
Definition set_mseg (n : Z) (g : segst) (s : mach) : mach :=
  mkMach (mk s) (mkpgdir s) (mmp s) (mirq s) (upd n g (mseg s)) (mlap s) (midtr s) (midt s) (mbuf s) (mlocks s).
Definition set_mlap (n : Z) (l : lapst) (s : mach) : mach :=
  mkMach (mk s) (mkpgdir s) (mmp s) (mirq s) (mseg s) (upd n l (mlap s)) (midtr s) (midt s) (mbuf s) (mlocks s).
Definition set_midtr (n : Z) (r : Z * Z) (s : mach) : mach :=
  mkMach (mk s) (mkpgdir s) (mmp s) (mirq s) (mseg s) (mlap s) (upd n r (midtr s)) (midt s) (mbuf s) (mlocks s).
Definition set_midt (t : Z -> gatedesc) (s : mach) : mach :=
  mkMach (mk s) (mkpgdir s) (mmp s) (mirq s) (mseg s) (mlap s) (midtr s) t (mbuf s) (mlocks s).
Definition set_mbuf (b : bcache) (s : mach) : mach :=
  mkMach (mk s) (mkpgdir s) (mmp s) (mirq s) (mseg s) (mlap s) (midtr s) (midt s) b (mlocks s).
Definition set_mlocks (l : list lock) (s : mach) : mach :=
  mkMach (mk s) (mkpgdir s) (mmp s) (mirq s) (mseg s) (mlap s) (midtr s) (midt s) (mbuf s) l.

Definition mmem (s : mach) : gmap Z Z := mem (km (mk s)).

(** ** Running the code of the parts on processor [n] *)

(** What the processor sees: the memory and its own registers. *)
Definition view_kern (n : Z) (s : mach) : kern := set_km (set_cr3 (pdbr (mseg s n)) (km (mk s))) (mk s).
Definition view_seg (n : Z) (s : mach) : segst := set_smem (mmem s) (mseg s n).
Definition view_lap (n : Z) (s : mach) : lapst :=
  let l := mlap s n in
  mkLapst (negb (Mp.lapic (mmp s) =? 0)) (lregs l) (lreads l) (lports l) (mmem s) (now l) (warned l).

Definition after_kern (n : Z) (k : kern) (s : mach) : mach :=
  set_mk k (set_mseg n (set_pdbr (cr3 (km k)) (mseg s n)) s).
Definition after_seg (n : Z) (g : segst) (s : mach) : mach := set_mk (with_mem (smem g) (mk s)) (set_mseg n g s).
Definition after_lap (n : Z) (l : lapst) (s : mach) : mach := set_mk (with_mem (lmem l) (mk s)) (set_mlap n l s).

Definition run_on {S A} (view : mach -> S) (after : S -> mach -> mach) (c : M S A) : M mach A := fun s =>
  match c (view s) with Done a t => Done a (after t s) | Stop w t => Stop w (after t s) end.

Definition on_kern {A} (n : Z) (c : M kern A) : M mach A := run_on (view_kern n) (after_kern n) c.
Definition on_seg {A} (n : Z) (c : M segst A) : M mach A := run_on (view_seg n) (after_seg n) c.
Definition on_lap {A} (n : Z) (c : M lapst A) : M mach A := run_on (view_lap n) (after_lap n) c.
Definition on_irq {A} (c : M irqst A) : M mach A := run_on mirq set_mirq c.

Section main.
Context `{Layout}.
(** Addresses of the build: the arrays cpus and idt, the page directory entrypgdir, the code for
    other processors and its size, mpenter, forkret, trapret, and the call of cpunum in seginit
    and startothers. *)
Context (cpus idt entrypgdir code_start code_size mpenter_ forkret trapret pc : Z).
Context (vectors : Z -> Z).
Context (devread : Z -> option (nat -> Z -> M fs (Z * list Z))).
Context (initcode : list Z).
(** What the disks hold, what the buffers hold at the start, and fuel for mpinit. *)
Context (disk : Z -> Z -> Bio.block) (data0 : nat -> Bio.block) (fuel : nat).

Definition say (n : Z) (fmt : string) (args : list Z) : M mach unit := on_kern n (on_km (cprintf fmt args)).

Definition m_cpunum (n : Z) : M mach Z :=
  let! intr := gets (fun s => iflag (mseg s n)) in
  let! r := on_lap n (cpunum intr) in
  (if r.2 then say n "cpu called from %x with interrupts enabled\n" [pc] else ret tt) ;;
  ret r.1.

Definition m_seginit (n : Z) : M mach unit :=
  let! c := m_cpunum n in
  on_seg n (seginit cpus c).

(** The field [id] of the struct [cpu] points to. *)
Definition cpu_ident (n : Z) : M mach Z :=
  let! c := on_seg n (gs_load 0) in
  gets (fun s => cpu_id (mmp s) ((c - cpus) / CPU_SZ)).

(** Up to the call of scheduler. *)
Definition mpmain (n : Z) : M mach unit :=
  let! i := cpu_ident n in
  say n "cpu%d: starting\n" [i] ;;
  modify (set_midtr n (idtinit idt)) ;;
  on_seg n (let! c := gs_load 0 in sstore (c + c_started) 1).

Definition mpenter (n : Z) : M mach unit :=
  let! d := gets mkpgdir in
  on_kern n (on_km (switchkvm d)) ;;
  m_seginit n ;;
  on_lap n lapicinit ;;
  mpmain n.

(** The wait for [cpus[i].started]: the processor that was sent the start-up message runs
    mpenter meanwhile. *)
Definition wait_started (b i id : Z) : M mach unit :=
  mpenter id ;;
  let! v := on_seg b (sload (cpus + CPU_SZ * i + c_started)) in
  if v =? 0 then halt Diverged else ret tt.

(** Where entryother finds its stack, its entry and its page directory. *)
Definition code : Z := p2v 0x7000.

Fixpoint startothers_from (b : Z) (todo : nat) (i : Z) : M mach unit :=
  match todo with
  | O => ret tt
  | S n =>
      let! c := m_cpunum b in
      (if i =? c then ret tt
       else
         let! stack := on_kern b (on_km kalloc) in
         on_kern b (on_km (store (code - 4) (stack + Proc.KSTACKSIZE))) ;;
         on_kern b (on_km (store (code - 8) mpenter_)) ;;
         on_kern b (on_km (store (code - 12) (v2p entrypgdir))) ;;
         let! id := gets (fun s => cpu_id (mmp s) i) in
         on_lap b (lapicstartap id (v2p code)) ;;
         wait_started b i id) ;;
      startothers_from b n (i + 1)
  end.

Definition startothers (b : Z) : M mach unit :=
  on_kern b (on_km (on_mem (fun m => memmove m code code_start code_size))) ;;
  let! n := gets (fun s => ncpu (mmp s)) in
  startothers_from b (Z.to_nat n) 0.

(** mpinit and the initialisers that only set up a lock. *)
Definition m_mpinit : M mach unit := fun s =>
  match mpinit (mmem s) fuel (mmp s) with Done a p => Done a (set_mmp p s) | Stop w p => Stop w (set_mmp p s) end.
Definition m_initlock (l : lock) : M mach unit := modify (fun s => set_mlocks (l :: mlocks s) s).
Definition pinit : M mach unit := m_initlock L_ptable.
Definition init_pte_lookup_lock : M mach unit := m_initlock L_pte_lookup.
Definition fileinit : M mach unit := m_initlock L_ftable.
Definition iinit : M mach unit := m_initlock L_icache.

(** The devices. *)
Definition devices (n : Z) : M mach unit :=
  let! mp := gets (fun s => ismp (mmp s)) in
  on_irq picinit ;;
  let! id := gets (fun s => ioapicid (mmp s)) in
  let! differs := on_irq (ioapicinit mp id) in
  (if differs : bool then say n "ioapicinit: id isn't equal to ioapicid; not a MP\n" [] else ret tt) ;;
  on_irq (consoleinit mp) ;;
  on_irq (uartinit mp) ;;
  pinit ;;
  init_pte_lookup_lock ;;
  modify (set_midt (tvinit vectors)) ;;
  modify (fun s => set_mbuf (binit disk data0 (havedisk1 (mirq s))) s) ;;
  fileinit ;;
  iinit ;;
  let! nc := gets (fun s => ncpu (mmp s)) in
  on_irq (ideinit mp nc) ;;
  (if negb mp then on_irq timerinit else ret tt).

(** The first part: the memory of the kernel and the boot processor [b]. *)
Definition boot_cpu (b : Z) : M mach unit :=
  on_kern b (on_km (kinit1 end_ (p2v (4 * 1024 * 1024)))) ;;
  let! d := on_kern b (on_km kvmalloc) in
  modify (set_mkpgdir d) ;;
  m_mpinit ;;
  on_lap b lapicinit ;;
  m_seginit b ;;
  let! i := cpu_ident b in
  say b "\ncpu%d: starting xv6\n\n" [i].

(** Up to the call of scheduler in mpmain. *)
Definition main (b : Z) : M mach unit :=
  boot_cpu b ;;
  devices b ;;
  startothers b ;;
  on_kern b (on_km (kinit2 (p2v (4 * 1024 * 1024)) (p2v PHYSTOP))) ;;
  on_kern b (userinit forkret trapret devread initcode) ;;
  mpmain b.
End main.

(** ** entrypgdir *)

(** The page directory the processors start with: two entries for pages of 4 MB. *)
Definition entry_pde (i : Z) : Z :=
  if (i =? 0) || (i =? Z.shiftr KERNBASE PDXSHIFT) then Z.lor (Z.lor (Z.lor 0 PTE_P) PTE_W) PTE_PS else 0.

(** The translation of an address by it. *)
Definition entry_pa (va : Z) : option Z :=
  let e := entry_pde (PDX va) in
  if present e then Some (e / 2 ^ 22 * 2 ^ 22 + va mod 2 ^ 22) else None.

(** The first 4 MB of memory are at 0, where the processor runs when paging is turned on, and
    at KERNBASE, where the kernel is linked; nothing else is mapped. *)
Lemma entry_pa_spec va : 0 <= va < 2 ^ 32 -> entry_pa va =
  if va <? 2 ^ 22 then Some va else if (KERNBASE <=? va) && (va <? KERNBASE + 2 ^ 22) then Some (v2p va) else None.
Proof.
  intros Hva. unfold entry_pa, entry_pde. rewrite PDX_div by done.
  change (Z.shiftr KERNBASE PDXSHIFT) with 512. change KERNBASE with 2147483648 in *.
  destruct (Z.eqb_spec (va / 2 ^ 22) 0) as [H0|H0]; cbn [orb].
  { rewrite (proj2 (Z.ltb_lt _ _)) by zlia. change (present _) with true. cbv iota. f_equal. change (Z.lor _ _ / 2 ^ 22) with 0. zlia. }
  rewrite (proj2 (Z.ltb_ge _ _)) by zlia. destruct (Z.eqb_spec (va / 2 ^ 22) 512) as [H1|H1].
  - rewrite (proj2 (Z.leb_le _ _)), (proj2 (Z.ltb_lt _ _)) by zlia. change (present _) with true. cbv iota. f_equal. change (Z.lor _ _ / 2 ^ 22) with 0.
    unfold v2p, KERNBASE. rewrite u32_small by zlia. zlia.
  - change (present 0) with false. cbv iota.
    destruct (Z.leb_spec 2147483648 va), (Z.ltb_spec va (2147483648 + 2 ^ 22)); cbn [andb]; [zlia|done..].
Qed.
