(* ===== verification/MainSpec.v ===== *)
(** * The start of the kernel

    What main (main.c) leaves when it enters the scheduler: every processor runs on its own
    struct cpu, the page table of the kernel and the interrupt table, all memory is on the
    free list or in use, and the first process can run, with initcode in its memory. *)

From S2P Require Import Pipe Bytes FsFormat Fs Inode InodeData Dir.
From S2P Require Import Prelude Mmu Traps Memory Kstate Kalloc PageTable Uvm Boot Kernel Sched.
From S2P Require Import Bio Mp Irq Lapic Seg.
From S2P Require Import Prelude Proc Trap ProcTheorems Fork ExecMem Userinit Main.

(** ** Rules for the parts *)

Lemma wp_run_on {S A} (view : mach -> S) after (c : M S A) s Q E :
  wp c (view s) (fun a t => Q a (after t s)) (fun w t => E w (after t s)) -> wp (run_on view after c) s Q E.
Proof. unfold wp, run_on. by destruct (c (view s)). Qed.

Lemma returns_run_on {S A} (view : mach -> S) after (c : M S A) s Q :
  returns c (view s) (fun a t => Q a (after t s)) -> returns (run_on view after c) s Q.
Proof. intros Hc. by apply wp_run_on. Qed.

(** ** Frames *)

(** The kernel's state without memory, the free list, the page directory register and what
    was printed; and with the free list. *)
Definition krest (s : mach) :=
  let k := mk s in
  (use_lock (km k), held (km k), pte_array (km k),
   (kf k, tab k, nextpid k, initproc k, proc k, files k, pipes k, ticks k), mkpgdir s).
Definition kpart (s : mach) := (freelist (km (mk s)), krest s).

(** A step that writes only the bytes [T] and the registers of the processors [N]; the
    registers of the local APICs hold in the end what they held. *)
Record frame (T N : Z -> Prop) (s s' : mach) : Prop := {
  fr_mem a : ~ T a -> load8 (mmem s') a = load8 (mmem s) a;
  fr_seg j : ~ N j -> mseg s' j = mseg s j /\ midtr s' j = midtr s j;
  fr_last j r : List.last (lreads (mlap s' j) r) 0 = List.last (lreads (mlap s j) r) 0;
  fr_length j r : (length (lreads (mlap s' j) r) <= length (lreads (mlap s j) r))%nat;
  fr_iflag j : iflag (mseg s' j) = iflag (mseg s j);
  fr_mp : mmp s' = mmp s;
  fr_irq : mirq s' = mirq s;
  fr_idt : midt s' = midt s;
  fr_kern : kpart s' = kpart s }.

Lemma frame_refl T N s : frame T N s s.
Proof. by split. Qed.

Lemma frame_trans T N s1 s2 s3 : frame T N s1 s2 -> frame T N s2 s3 -> frame T N s1 s3.
Proof.
  intros [A1 A2 A3 A4 A5 A6 A7 A8 A9] [B1 B2 B3 B4 B5 B6 B7 B8 B9]. split; [| | | |..|congruence|congruence|congruence|congruence].
  - intros a Ha. by rewrite B1, A1.
  - intros j Hj. destruct (A2 j Hj), (B2 j Hj). split; congruence.
  - intros j r. by rewrite B3, A3.
  - intros j r. specialize (A4 j r). specialize (B4 j r). lia.
  - intros j. by rewrite B5, A5.
Qed.

Lemma frame_mono (T N T' N' : Z -> Prop) s s' : frame T N s s' -> (forall a, T a -> T' a) -> (forall j, N j -> N' j) -> frame T' N' s s'.
Proof. intros [A1 A2 A3 A4 A5 A6 A7 A8 A9] HT HN. split; [| |done..]; naive_solver. Qed.

Definition none (_ : Z) : Prop := False.

(** ** Calls *)

Section parts.
Context `{Layout}.
Context (cpus idt entrypgdir code_start code_size mpenter_ forkret trapret pc : Z).

(** A computation on the kernel's memory state that keeps cr3 and the rest. *)
Lemma on_km_frame {A} n (c : M kst A) s (T : Z -> Prop) (P : A -> kst -> Prop) :
  returns c (km (view_kern n s)) (fun a t => P a t /\ cr3 t = pdbr (mseg s n) /\
    (forall a, ~ T a -> load8 (mem t) a = load8 (mmem s) a)) ->
  returns (on_kern n (on_km c)) s (fun a s' => exists t, P a t /\ mk s' = set_km t (mk s) /\
    (forall a, ~ T a -> load8 (mmem s') a = load8 (mmem s) a) /\
    (forall j, mseg s' j = mseg s j) /\ midtr s' = midtr s /\ mlap s' = mlap s /\ mmp s' = mmp s /\ mirq s' = mirq s /\ midt s' = midt s /\ mkpgdir s' = mkpgdir s).
Proof.
  intros Hc. apply returns_run_on, wp_on_km. eapply wp_mono; [exact Hc| |done].
  intros a t (HP & Hcr & HT). exists t. split; [done|]. split; [done|]. split; [exact HT|]. split; [|done].
  intros j. unfold after_kern, set_mk, set_mseg. cbn [mseg km set_km]. unfold upd. case_decide as E; [|done]. subst j.
  rewrite Hcr. by destruct (mseg s n).
Qed.

(** The same when nothing of the state changes but memory and what was printed. *)
Lemma on_km_step {A} n (c : M kst A) s T (P : A -> Prop) :
  returns c (km (view_kern n s)) (fun a t => P a /\ rest (set_out [] t) = rest (set_out [] (km (view_kern n s))) /\
    freelist t = freelist (km (mk s)) /\ forall a, ~ T a -> load8 (mem t) a = load8 (mmem s) a) ->
  returns (on_kern n (on_km c)) s (fun a s' => P a /\ frame T none s s').
Proof.
  intros Hc. eapply returns_mono; [apply (on_km_frame n c s T (fun a t => P a /\ rest (set_out [] t) = rest (set_out [] (km (view_kern n s))) /\
    freelist t = freelist (km (mk s))))|].
  - eapply returns_mono; [exact Hc|]. intros a t (HP & Hr & Hf & HT). split; [done|]. split; [|done].
    unfold rest in Hr. cbn in Hr. by injection Hr.
  - intros a s' (t & (HP & Hr & Hf) & Hk & HT & Hs & Hi & Hl & Hp & Hq & Hg & Hd). split; [done|].
    unfold rest in Hr. cbn in Hr. injection Hr as R1 R2 _ R4.
    split; [done|intros j _; split; [apply Hs|by rewrite Hi]|by rewrite Hl|by rewrite Hl|intros j; by rewrite Hs|done|done|done|].
    unfold kpart, krest. rewrite Hk, Hd. cbn. congruence.
Qed.

Lemma say_ok n fmt args s : returns (say n fmt args) s (fun _ s' => frame none none s s').
Proof.
  eapply returns_mono; [apply (on_km_step n _ s none (fun _ => True))|by intros _ s' [_ Hs]].
  done.
Qed.

Lemma store_word_ok n a v s : returns (on_kern n (on_km (store a v))) s (fun _ s' => frame (fun b => a <= b < a + 4) none s s').
Proof.
  eapply returns_mono; [apply (on_km_step n _ s (fun b => a <= b < a + 4) (fun _ => True))|by intros _ s' [_ Hs]].
  split; [done|]. split; [done|]. split; [done|]. intros b Hb. cbn. apply load8_store32_ne. lia.
Qed.

(** A step on the local APIC of one processor. *)
Lemma on_lap_frame {A} n (c : M lapst A) l s (P : A -> Prop) :
  returns c (view_lap n s) (fun a t => P a /\ lap_step l (view_lap n s) t) ->
  returns (on_lap n c) s (fun a s' => P a /\ frame none none s s').
Proof.
  intros Hc. apply returns_run_on. eapply returns_mono; [exact Hc|]. intros a t (HP & [R L O Hm La Le]). split; [done|].
  cbn in Hm. split; [|done| | |done..|].
  - intros b _. cbn. by rewrite Hm.
  - intros j r. cbn. unfold upd. case_decide as E; [|done]. subst j. apply (La r).
  - intros j r. cbn. unfold upd. case_decide as E; [|done]. subst j. apply (Le r).
  - unfold kpart. cbn. done.
Qed.

(** The number of the local APIC of [n]. *)
Definition ident (n : Z) (s : mach) : Prop :=
  (length (lreads (mlap s n) ID) <= 1)%nat /\ List.last (lreads (mlap s n) ID) 0 = n * 2 ^ 24.

Lemma ident_frame T N n s s' : frame T N s s' -> ident n s -> ident n s'.
Proof. intros Hf [H1 H2]. split; [|by rewrite (fr_last _ _ _ _ Hf)]. pose proof (fr_length _ _ _ _ Hf n ID). lia. Qed.

Lemma m_cpunum_ok n s : ident n s -> iflag (mseg s n) = false -> (Mp.lapic (mmp s) = 0 -> n = 0) -> 0 <= n < 256 ->
  returns (m_cpunum pc n) s (fun r s' => r = n /\ frame none none s s').
Proof.
  intros [Hl Hn] Hi H0 Hr. unfold m_cpunum. apply wp_bind, wp_gets. rewrite Hi.
  eapply returns_bind; [apply (on_lap_frame n (cpunum false) [] s (fun r => r = (n, false)))|].
  - unfold cpunum. apply wp_bind. step. apply wp_bind, wp_gets. cbn [Lapic.lapic view_lap].
    destruct (Z.eqb_spec (Mp.lapic (mmp s)) 0) as [E|E]; cbn [negb].
    + step. rewrite (H0 E). split; [done|apply lap_refl].
    + apply wp_bind. unfold lapicr, wp at 1. cbv iota beta. step. split; [|apply lap_read]. f_equal.
      assert (hd 0 (lreads (mlap s n) ID) = n * 2 ^ 24) as Eh.
      { destruct (lreads (mlap s n) ID) as [|x [|]]; simpl in *; [lia|lia|lia]. }
      cbn [lreads view_lap]. rewrite Eh, u32_small by lia. rewrite Z.shiftr_div_pow2 by lia. by rewrite Z.div_mul.
  - intros r s' [-> Hf]. cbn [snd fst]. unfold returns. apply wp_bind. step. step. done.
Qed.

(** A step on the registers of one processor. *)
Lemma on_seg_frame {A} n (c : M segst A) s T (P : A -> segst -> Prop) :
  returns c (view_seg n s) (fun a t => P a t /\ iflag t = iflag (mseg s n) /\
    forall a, ~ T a -> load8 (smem t) a = load8 (mmem s) a) ->
  returns (on_seg n c) s (fun a s' => exists t, P a t /\ view_seg n s' = t /\ midtr s' = midtr s /\ frame T (eq n) s s').
Proof.
  intros Hc. apply returns_run_on. eapply returns_mono; [exact Hc|]. intros a t (HP & Hi & HT). exists t. split; [done|]. split; [|split; [done|]].
  - unfold view_seg, mmem, after_seg, set_mk, set_mseg. cbn. rewrite upd_eq. by destruct t.
  - split; [done| |done|done| |done|done|done|done].
    + intros j Hj. cbn. rewrite upd_ne by congruence. done.
    + intros j. cbn. unfold upd. case_decide as E; [by subst j|done].
Qed.

(** ** A processor *)

Definition cpu_at (i : Z) : Z := cpus + CPU_SZ * i.
Definition cpu_bytes (i a : Z) : Prop := cpu_at i <= a < cpu_at i + CPU_SZ.

Lemma ready_same i s s' : (forall a, cpu_bytes i a -> load8 (mmem s') a = load8 (mmem s) a) -> mseg s' i = mseg s i ->
  cpu_ready (cpu_at i) (view_seg i s) -> cpu_ready (cpu_at i) (view_seg i s').
Proof.
  intros Hm E Hr. assert (view_seg i s' = set_smem (mmem s') (view_seg i s)) as -> by (unfold view_seg; by rewrite E).
  apply ready_frame; [done|]. intros b Hb. apply Hm. unfold cpu_bytes. sg.
Qed.

Lemma view_ready T N i s s' : frame T N s s' -> ~ N i -> (forall a, cpu_bytes i a -> ~ T a) ->
  cpu_ready (cpu_at i) (view_seg i s) -> cpu_ready (cpu_at i) (view_seg i s').
Proof.
  intros Hf Hn HT. destruct (fr_seg _ _ _ _ Hf i Hn) as [E _]. apply ready_same; [|done].
  intros a Ha. by apply (fr_mem _ _ _ _ Hf), HT.
Qed.

(** Running on its own struct cpu, with the interrupt table and the kernel's page table [d]. *)
Record cpu_up (d i : Z) (s : mach) : Prop := {
  up_ready : cpu_ready (cpu_at i) (view_seg i s);
  up_started : load32 (mmem s) (cpu_at i + c_started) = 1;
  up_idt : midtr s i = (idt, 2047);
  up_pgdir : pdbr (mseg s i) = v2p d }.

Lemma cpu_up_same d i s s' : (forall a, cpu_bytes i a -> load8 (mmem s') a = load8 (mmem s) a) -> mseg s' i = mseg s i ->
  midtr s' i = midtr s i -> cpu_up d i s -> cpu_up d i s'.
Proof.
  intros Hm E1 E2 [U1 U2 U3 U4]. split; [by eapply ready_same| |by rewrite E2|by rewrite E1].
  rewrite <- U2. apply load32_ext. intros j Hj. apply Hm. unfold cpu_bytes, c_started, CPU_SZ in *. lia.
Qed.

Lemma cpu_up_frame T N d i s s' : frame T N s s' -> ~ N i -> (forall a, cpu_bytes i a -> ~ T a) -> cpu_up d i s -> cpu_up d i s'.
Proof.
  intros Hf Hn HT. destruct (fr_seg _ _ _ _ Hf i Hn) as [E1 E2]. apply cpu_up_same; [|done|done].
  intros a Ha. by apply (fr_mem _ _ _ _ Hf), HT.
Qed.

Hypothesis Hcpus : data_ <= cpus /\ cpus + CPU_SZ * NCPU <= end_.
Hypothesis Hidt : 0 <= idt < 2 ^ 32.

Lemma cpu_at_range i : 0 <= i < NCPU -> KERNLINK <= cpu_at i /\ cpu_at i + CPU_SZ <= end_ /\ cpu_at i + CPU_SZ < 2 ^ 32.
Proof. intros Hi. pose proof end_range as He. pose proof data_above. unfold cpu_at, CPU_SZ, NCPU, KERNBASE, PHYSTOP in *. lia. Qed.

Lemma m_seginit_ok n s : ident n s -> iflag (mseg s n) = false -> (Mp.lapic (mmp s) = 0 -> n = 0) -> 0 <= n < NCPU ->
  returns (m_seginit cpus pc n) s (fun _ s' => cpu_ready (cpu_at n) (view_seg n s') /\ frame (cpu_bytes n) (eq n) s s' /\
    pdbr (mseg s' n) = pdbr (mseg s n)).
Proof.
  intros Hid Hi H0 Hn. destruct (cpu_at_range n Hn) as (R0 & R2 & R3). assert (0 <= cpu_at n) as R1 by (change KERNLINK with 2148532224 in *; lia). unfold m_seginit.
  eapply returns_bind; [apply m_cpunum_ok; try done; unfold NCPU in *; lia|]. intros r s1 [-> Hf1].
  eapply returns_mono; [apply (on_seg_frame n _ s1 (cpu_bytes n) (fun _ t => cpu_ready (cpu_at n) t /\ pdbr t = pdbr (mseg s1 n)))|].
  - eapply returns_mono; [eapply (returns_and _ _ _ _ (fun _ _ => False)); [exact (seginit_spec cpus n (view_seg n s1) R1 R3)|]|].
    + instantiate (1 := fun _ t => iflag t = iflag (mseg s1 n) /\ pdbr t = pdbr (mseg s1 n)). done.
    + intros _ t ((Hr & _ & _ & _ & _ & _ & Hm) & Hii & Hpd). split; [done|]. split; [done|]. intros a Ha. apply Hm.
      unfold cpu_bytes, cpu_at in Ha. lia.
  - intros _ s2 (t & [Hr Hpd] & Hv & _ & Hf2). rewrite Hv. split; [done|].
    destruct (fr_seg _ _ _ _ Hf1 n (fun x => x)) as [E _]. split.
    + eapply frame_trans; [|exact Hf2]. eapply frame_mono; [exact Hf1|done|done].
    + transitivity (pdbr (view_seg n s2)); [done|]. by rewrite Hv, Hpd, E.
Qed.

Lemma lapicinit_on n s : (Mp.lapic (mmp s) <> 0 -> delivers (mlap s n)) ->
  returns (on_lap n lapicinit) s (fun _ s' => frame none none s s').
Proof.
  intros Hd. destruct (Z.eqb_spec (Mp.lapic (mmp s)) 0) as [E|E].
  - eapply returns_mono; [apply (on_lap_frame n _ [] s (fun _ => True))|by intros _ s' [_ Hf]].
    unfold lapicinit. apply wp_bind, wp_gets. cbn [Lapic.lapic view_lap]. rewrite E. split; [done|apply lap_refl].
  - eapply returns_mono; [apply (on_lap_frame n _ (lapic_regs (view_lap n s)) s (fun _ => True))|by intros _ s' [_ Hf]].
    eapply returns_mono; [apply lapicinit_ok|done].
    + cbn [Lapic.lapic view_lap]. by rewrite (proj2 (Z.eqb_neq _ _) E).
    + unfold delivers in *. cbn [lreads view_lap]. by apply Hd.
Qed.

Lemma cpu_ident_ok n s : 0 <= n < NCPU -> cpu_ready (cpu_at n) (view_seg n s) ->
  returns (cpu_ident cpus n) s (fun r s' => r = cpu_id (mmp s) n /\ frame none (eq n) s s' /\ view_seg n s' = view_seg n s /\ midtr s' = midtr s).
Proof.
  intros Hn Hr. destruct (cpu_at_range n Hn) as (R0 & R2 & R3). assert (0 <= cpu_at n) as R1 by (change KERNLINK with 2148532224 in *; lia). unfold cpu_ident.
  eapply returns_bind; [apply (on_seg_frame n (gs_load 0) s none (fun a t => a = cpu_at n /\ t = view_seg n s))|].
  - unfold returns. apply (wp_cpu (cpu_at n)); done.
  - intros c s1 (t & [-> ->] & Hv & Hi & Hf). apply wp_gets. rewrite (fr_mp _ _ _ _ Hf). split; [|done]. f_equal.
    unfold cpu_at. replace (cpus + CPU_SZ * n - cpus) with (n * CPU_SZ) by lia. by rewrite Z.div_mul.
Qed.

Lemma mpmain_ok n d s : 0 <= n < NCPU -> cpu_ready (cpu_at n) (view_seg n s) -> pdbr (mseg s n) = v2p d ->
  returns (mpmain cpus idt n) s (fun _ s' => cpu_up d n s' /\ frame (cpu_bytes n) (eq n) s s').
Proof.
  intros Hn Hr Hd. destruct (cpu_at_range n Hn) as (R0 & R2 & R3). assert (0 <= cpu_at n) as R1 by (change KERNLINK with 2148532224 in *; lia). unfold mpmain.
  eapply returns_bind; [by apply cpu_ident_ok|]. intros i s1 (_ & Hf1 & Hv1 & _).
  eapply returns_bind; [apply say_ok|]. intros [] s2 Hf2. cbv beta in Hf2. apply returns_modify_bind.
  assert (cpu_ready (cpu_at n) (view_seg n s2)) as Hr2.
  { eapply view_ready; [exact Hf2|by intros []|by intros ? _ []|by rewrite Hv1]. }
  destruct (fr_seg _ _ _ _ Hf2 n (fun x => x)) as [E2 _].
  assert (pdbr (mseg s2 n) = v2p d) as Hd2.
  { rewrite E2, <- Hd. change (pdbr (view_seg n s1) = pdbr (view_seg n s)). by rewrite Hv1. }
  set (s3 := set_midtr n (idtinit idt) s2).
  eapply returns_mono; [apply (on_seg_frame n _ s3 (cpu_bytes n) (fun _ t => cpu_ready (cpu_at n) t /\ pdbr t = v2p d /\
    load32 (smem t) (cpu_at n + c_started) = 1))|].
  - apply wp_bind, (wp_cpu (cpu_at n)); [exact Hr2|done|done|]. unfold sstore. apply returns_modify.
    assert (forall b, b < cpu_at n + c_started \/ cpu_at n + c_started + 4 <= b ->
      load8 (store32 (mmem s3) (cpu_at n + c_started) 1) b = load8 (mmem s3) b) as Hm by (intros b Hb; apply load8_store32_ne; lia).
    split; [split; [|split; [exact Hd2|by apply load32_store32_eq]]|split; [done|]].
    + apply (ready_frame _ (view_seg n s3)); [exact Hr2|]. intros b Hb. apply Hm. unfold c_started. sg.
    + intros b Hb. apply Hm. unfold cpu_bytes, c_started, CPU_SZ in *. lia.
  - intros [] s4 (t & (T1 & T2 & T3) & Hv & Hi & Hf4). split.
    + split; [by rewrite Hv| | |].
      * change (mmem s4) with (smem (view_seg n s4)). by rewrite Hv.
      * rewrite Hi. unfold s3. cbn. rewrite upd_eq. unfold idtinit. by rewrite lgdt_desc_ok.
      * change (pdbr (view_seg n s4) = v2p d). by rewrite Hv.
    + eapply frame_trans; [eapply frame_mono; [exact Hf1|by intros ? []|done]|].
      eapply frame_trans; [eapply frame_mono; [exact Hf2|by intros ? []|by intros ? []]|].
      eapply frame_trans; [|exact Hf4]. split; try done. intros j Hj. cbn. by rewrite upd_ne by congruence.
Qed.

Lemma set_cr3_step n d s : returns (on_kern n (on_km (switchkvm d))) s (fun _ s' =>
  frame none (eq n) s s' /\ pdbr (mseg s' n) = v2p d).
Proof.
  unfold returns, wp, on_kern, run_on, on_km, switchkvm, modify. split; [|cbn; by rewrite upd_eq].
  split; try done.
  - intros j Hj. cbn. by rewrite upd_ne by congruence.
  - intros j. cbn. unfold upd. case_decide as E; [by subst|done].
Qed.

(** What a processor needs to come up: its number, interrupts off, and an APIC that delivers. *)
Record can_start (n : Z) (s : mach) : Prop := {
  cs_ident : ident n s;
  cs_iflag : iflag (mseg s n) = false;
  cs_zero : Mp.lapic (mmp s) = 0 -> n = 0;
  cs_delivers : delivers (mlap s n) }.

Lemma can_start_frame T N n s s' : frame T N s s' -> can_start n s -> can_start n s'.
Proof.
  intros Hf [C1 C2 C3 C4]. split; [by eapply ident_frame|by rewrite (fr_iflag _ _ _ _ Hf)|by rewrite (fr_mp _ _ _ _ Hf)|].
  unfold delivers. by rewrite (fr_last _ _ _ _ Hf).
Qed.

Lemma mpenter_ok n s : 0 <= n < NCPU -> can_start n s ->
  returns (mpenter cpus idt pc n) s (fun _ s' => cpu_up (mkpgdir s) n s' /\ frame (cpu_bytes n) (eq n) s s').
Proof.
  intros Hn Hc. unfold mpenter. apply wp_bind, wp_gets. set (d := mkpgdir s).
  eapply returns_bind; [apply set_cr3_step|]. intros [] s1 [Hf1 Hd1].
  pose proof (can_start_frame _ _ _ _ _ Hf1 Hc) as [A1 A2 A3 _].
  eapply returns_bind; [by apply m_seginit_ok|]. intros [] s2 (Hr2 & Hf2 & Hd2).
  assert (frame (cpu_bytes n) (eq n) s s2) as Hf by (eapply frame_trans; [eapply frame_mono; [exact Hf1|by intros ? []|done]|exact Hf2]).
  eapply returns_bind; [apply lapicinit_on; intros _; apply (can_start_frame _ _ _ _ _ Hf Hc)|]. intros [] s3 Hf3. cbv beta in Hf3.
  destruct (fr_seg _ _ _ _ Hf3 n (fun x => x)) as [E3 _].
  eapply returns_mono; [apply (mpmain_ok n d); [done| |]|].
  - eapply view_ready; [exact Hf3|by intros []|by intros ? _ []|done].
  - by rewrite E3, Hd2.
  - intros [] s4 [Hup Hf4]. split; [done|]. eapply frame_trans; [exact Hf|].
    eapply frame_trans; [eapply frame_mono; [exact Hf3|by intros ? []|by intros ? []]|exact Hf4].
Qed.

(** ** The other processors *)

(** The memory of the kernel between kvmalloc and kinit2: the pages are in the first 4 MB. *)
Record early (d : Z) (free : list Z) (s : mach) : Prop := {
  ea_kinv : kinv (km (mk s)) free;
  ea_as : as_wf (mmem s) d free;
  ea_view va : 0 <= va < 2 ^ 32 -> pte (mmem s) d va = kernel_view va;
  ea_four q : q ∈ free \/ owned (mmem s) d q -> q + PGSIZE <= MB4;
  ea_use : use_lock (km (mk s)) = false;
  ea_held : held (km (mk s)) = [] }.

Lemma early_frame T N d free s s' : frame T N s s' -> (forall a, T a -> a < end_) -> early d free s -> early d free s'.
Proof.
  intros Hf HT [[K1 K2 K3 K4] A V F U L]. assert (forall q, kpage q -> agree (mmem s) (mmem s') q PGSIZE) as Hag.
  { intros q (_ & Hq & _) a Ha. apply (fr_mem _ _ _ _ Hf). intros Ht. apply HT in Ht. lia. }
  pose proof (fr_kern _ _ _ _ Hf) as Hk. unfold kpart, krest in Hk. injection Hk as E1 E2 E3 _ _ _ _ _ _ _ _ _ _.
  assert (agree (mmem s) (mmem s') d PGSIZE) as Hd by apply Hag, A.
  split; [| | | |congruence|congruence].
  - split; [|done|done|unfold unlocked in *; by rewrite E2, E3]. rewrite E1. eapply flist_agree; [exact K1|].
    intros p Hp. apply Hag. by eapply Forall_forall in K3.
  - by eapply as_wf_agree.
  - intros va Hva. rewrite (pte_agree (mmem s)); [by apply V|]. intros q Hq. apply Hag. by destruct (owned_kpage _ _ _ _ A Hq).
  - intros q [Hq|Hq]; apply F; [by left|right]. apply (proj2 (owned_agree (mmem s) (mmem s') d q Hd) Hq).
Qed.

Definition set_mfree (r : Z) (s : mach) : mach := set_mk (set_km (set_freelist r (km (mk s))) (mk s)) s.

Lemma kalloc_on n d free s : early d free s -> returns (on_kern n (on_km kalloc)) s (fun _ s' =>
  early d (tail free) s' /\ exists r, frame none none (set_mfree r s) s').
Proof.
  intros He. pose proof (ea_kinv _ _ _ He) as Hk. destruct He as [_ A V F U L].
  assert (kinv (km (view_kern n s)) free) as Hk' by (destruct Hk; by split).
  unfold returns, wp, on_kern, run_on, on_km. rewrite (kalloc_run _ free Hk').
  assert (forall r, frame none none (set_mfree r s) (after_kern n (set_km (set_freelist r (km (view_kern n s))) (view_kern n s)) s)) as Hf.
  { intros r. split; try done.
    - intros j _. split; [|done]. cbn. unfold upd. case_decide as E; [subst j; by destruct (mseg s n)|done].
    - intros j. cbn. unfold upd. case_decide as E; [by subst j|done]. }
  destruct free as [|p l]; cbv iota beta; (split; [|eexists; apply (Hf _)]).
  - by split.
  - split; [|by eapply as_wf_suffix; [exact A|intros q Hq; apply elem_of_cons; by right]|done| |done|done].
    + apply kinv_kalloc in Hk. destruct Hk. by split.
    + intros q [Hq|Hq]; apply F; [left; apply elem_of_cons; by right|by right].
Qed.

(** The reset vector of lapicstartap. *)
Definition reset_bytes (a : Z) : Prop := 0x80000467 <= a < 0x8000046b.

Lemma lapicstartap_on n id s : 0 <= id < 256 ->
  returns (on_lap n (lapicstartap id (v2p (code)))) s (fun _ s' => frame reset_bytes none s s').
Proof.
  intros Hid. apply returns_run_on. eapply returns_mono; [by apply lapicstartap_ok|].
  intros [] t (s1 & [R L O Hm La Le] & E1 & _ & Hmem). cbv beta. split; [|done| | |done..|].
  - intros a Ha. cbn. rewrite Hm. apply Hmem. unfold reset_bytes in Ha. lia.
  - intros j r. cbn. unfold upd. case_decide as E; [|done]. subst j. rewrite La, E1. done.
  - intros j r. cbn. unfold upd. case_decide as E; [|done]. subst j. etransitivity; [apply Le|]. by rewrite E1.
  - unfold kpart, krest. cbn. done.
Qed.

(** The processors below [i] are up, the boot processor [b] is set up, and the others can
    start; [kr], [mp] and [q] do not change while they do. *)
Record ups (b d i : Z) kr mp q (s : mach) : Prop := {
  us_up j : 0 <= j < i -> j <> b -> cpu_up d j s;
  us_boot : cpu_ready (cpu_at b) (view_seg b s);
  us_pgdir : pdbr (mseg s b) = v2p d;
  us_start j : 0 <= j < ncpu mp \/ j = b -> can_start j s;
  us_kern : krest s = kr;
  us_mp : mmp s = mp;
  us_irq : (mirq s, midt s) = q }.

Lemma ups_frame (T N : Z -> Prop) b d i kr mp q s s' : frame T N s s' -> 0 <= i <= NCPU ->
  (forall j, N j -> i <= j /\ j <> b) -> (forall a j, T a -> 0 <= j < i \/ j = b -> ~ cpu_bytes j a) ->
  ups b d i kr mp q s -> ups b d i kr mp q s'.
Proof.
  intros Hf Hi HN HT [U1 U2 U3 U4 U5 U6 U7]. assert (~ N b) as Hb by (intros Hb; by destruct (HN b Hb)).
  split.
  - intros j Hj Hne. eapply cpu_up_frame; [exact Hf| | |by apply U1].
    + intros Hn. destruct (HN j Hn). lia.
    + intros a Ha Ht. apply (HT a j Ht); [lia|done].
  - eapply view_ready; [exact Hf|done| |done]. intros a Ha Ht. by apply (HT a b Ht); [right|].
  - by destruct (fr_seg _ _ _ _ Hf b Hb) as [-> _].
  - intros j Hj. eapply can_start_frame; [exact Hf|by apply U4].
  - pose proof (fr_kern _ _ _ _ Hf) as Hk. unfold kpart in Hk. injection Hk. congruence.
  - by rewrite (fr_mp _ _ _ _ Hf).
  - by rewrite (fr_irq _ _ _ _ Hf), (fr_idt _ _ _ _ Hf).
Qed.

Lemma ups_free b d i kr mp q r s : ups b d i kr mp q s -> ups b d i kr mp q (set_mfree r s).
Proof.
  intros [U1 U2 U3 U4 U5 U6 U7]. split; [|done|done| |done|done|done].
  - intros j Hj Hne. destruct (U1 j Hj Hne). by split.
  - intros j Hj. destruct (U4 j Hj) as [[C1 C1'] C2 C3 C4]. by split.
Qed.

(** A step of the boot processor that leaves its registers as they are. *)
Lemma ups_view b d i kr mp q s s' : frame none (eq b) s s' -> view_seg b s' = view_seg b s ->
  ups b d i kr mp q s -> ups b d i kr mp q s'.
Proof.
  intros Hf Hv [U1 U2 U3 U4 U5 U6 U7]. split.
  - intros j Hj Hne. eapply cpu_up_frame; [exact Hf|congruence|by intros ? _ []|by apply U1].
  - by rewrite Hv.
  - change (pdbr (view_seg b s') = v2p d). by rewrite Hv.
  - intros j Hj. eapply can_start_frame; [exact Hf|by apply U4].
  - pose proof (fr_kern _ _ _ _ Hf) as Hk. unfold kpart in Hk. injection Hk. congruence.
  - by rewrite (fr_mp _ _ _ _ Hf).
  - by rewrite (fr_irq _ _ _ _ Hf), (fr_idt _ _ _ _ Hf).
Qed.

Lemma low_bytes a j : (code - 12 <= a < KERNLINK \/ reset_bytes a) -> 0 <= j < NCPU -> ~ cpu_bytes j a /\ a < end_.
Proof.
  intros Ha Hj. destruct (cpu_at_range j Hj) as (R0 & R1 & _). unfold cpu_bytes, reset_bytes in *.
  change KERNLINK with 2148532224 in *. change code with 2147512320 in *. unfold CPU_SZ in *. lia.
Qed.

(** A step on low memory, by the boot processor. *)
Lemma low_step b d i kr mp q free s s' T : frame T none s s' -> (forall a, T a -> code - 12 <= a < KERNLINK \/ reset_bytes a) ->
  0 <= i <= NCPU -> 0 <= b < NCPU ->
  early d free s /\ ups b d i kr mp q s -> early d free s' /\ ups b d i kr mp q s'.
Proof.
  intros Hf HT Hi Hb [He Hu]. split.
  - eapply early_frame; [exact Hf| |done]. intros a Ha. by apply (low_bytes a b (HT a Ha) Hb).
  - eapply ups_frame; [exact Hf|done|by intros j []| |done]. intros a j Ha [Hj| ->] Hc.
    + by destruct (low_bytes a j (HT a Ha) ltac:(lia)) as [? _].
    + by destruct (low_bytes a b (HT a Ha) Hb) as [? _].
Qed.

Hypothesis Hcode : 0 <= code_size <= 0xf0000.

Lemma wait_started_ok b d i kr mp q free s : early d free s /\ ups b d i kr mp q s -> 0 <= i < ncpu mp -> ncpu mp <= NCPU ->
  i <> b -> mkpgdir s = d ->
  returns (wait_started cpus idt pc b i i) s (fun _ s' => early d free s' /\ ups b d (i + 1) kr mp q s').
Proof.
  intros [He5 Hu5] Hi Hn Hne Ed. assert (0 <= i < NCPU) as Hi' by lia.
  unfold wait_started. eapply returns_bind; [apply mpenter_ok; [done|apply (us_start _ _ _ _ _ _ _ Hu5); by left]|].
  intros [] s6 [Hup Hf6]. rewrite Ed in Hup. assert (early d free s6) as He6.
  { eapply early_frame; [exact Hf6| |done]. intros a Ha. destruct (cpu_at_range i Hi') as (_ & ? & _). unfold cpu_bytes in Ha. lia. }
  assert (ups b d i kr mp q s6) as Hu6.
  { eapply ups_frame; [exact Hf6|lia|intros j <-; split; [lia|done]| |done].
    intros a j Ha Hj. unfold cpu_bytes, cpu_at, CPU_SZ in *. lia. }
  eapply returns_bind; [apply (on_seg_frame b _ s6 none (fun v t => v = 1 /\ t = view_seg b s6))|].
  { unfold sload. apply wp_gets. split; [split; [exact (up_started _ _ _ Hup)|done]|done]. }
  intros v s7 (t & [-> ->] & Hv & _ & Hf7). change (1 =? 0) with false. cbv iota. unfold returns. step. split.
  - eapply early_frame; [exact Hf7|by intros ? []|done].
  - destruct (ups_view _ _ _ _ _ _ _ _ Hf7 Hv Hu6) as [V1 V2 V3 V4 V5 V6 V7]. split; [|done..].
    intros j Hj Hjb. destruct (decide (j = i)) as [->|]; [|apply V1; lia].
    eapply cpu_up_frame; [exact Hf7|congruence|by intros ? _ []|done].
Qed.

Lemma code_low x : code - 12 <= x < code -> forall a, x <= a < x + 4 -> code - 12 <= a < KERNLINK \/ reset_bytes a.
Proof. intros Hx a Ha. left. change KERNLINK with 2148532224. change code with 2147512320 in *. lia. Qed.

(** A store of the boot processor into the words before the code. *)
Lemma store_low b d i kr mp q free x v s : early d free s /\ ups b d i kr mp q s -> 0 <= i <= NCPU -> 0 <= b < NCPU -> code - 12 <= x < code ->
  returns (on_kern b (on_km (store x v))) s (fun _ s' => early d free s' /\ ups b d i kr mp q s').
Proof.
  intros H1 Hi Hb Hx. eapply returns_mono; [apply store_word_ok|]. intros [] s2 Hf2. cbv beta in Hf2.
  by eapply low_step; [exact Hf2|apply code_low| | |].
Qed.
#[local] Opaque code.

Lemma send_start b d i kr mp q free s : early d free s /\ ups b d i kr mp q s -> 0 <= i < ncpu mp -> ncpu mp <= NCPU -> 0 <= b < NCPU ->
  i <> b -> cpu_id mp i = i -> kr.2 = d ->
  returns (let! id := gets (fun s => cpu_id (mmp s) i) in
           on_lap b (lapicstartap id (v2p code)) ;;
           wait_started cpus idt pc b i id) s
    (fun _ s' => early d free s' /\ ups b d (i + 1) kr mp q s').
Proof.
  intros H1 Hi Hn Hb Hne Hid Hkd. assert (0 <= i <= NCPU) as Hi' by lia.
  eapply returns_bind; [apply (returns_gets _ _ (fun r t => r = i /\ t = s)); by rewrite (us_mp _ _ _ _ _ _ _ (proj2 H1))|]. intros id s1 [-> ->].
  eapply returns_bind; [apply lapicstartap_on; unfold NCPU in *; lia|]. intros [] s5 Hf5. cbv beta in Hf5.
  apply (low_step _ _ _ _ _ _ _ _ _ _ Hf5) in H1; [|by intros a Ha; right|done|done].
  apply (wait_started_ok b d i kr mp q free s5 H1); [done|done|done|].
  pose proof (us_kern _ _ _ _ _ _ _ (proj2 H1)) as E. by rewrite <- Hkd, <- E.
Qed.

Lemma start_one b d i kr mp q free s : early d free s /\ ups b d i kr mp q s -> 0 <= i < ncpu mp -> ncpu mp <= NCPU -> 0 <= b < NCPU ->
  i <> b -> cpu_id mp i = i -> kr.2 = d ->
  returns (let! stack := on_kern b (on_km kalloc) in
           on_kern b (on_km (store (code - 4) (stack + Proc.KSTACKSIZE))) ;;
           on_kern b (on_km (store (code - 8) mpenter_)) ;;
           on_kern b (on_km (store (code - 12) (v2p entrypgdir))) ;;
           let! id := gets (fun s => cpu_id (mmp s) i) in
           on_lap b (lapicstartap id (v2p code)) ;;
           wait_started cpus idt pc b i id) s
    (fun _ s' => early d (tail free) s' /\ ups b d (i + 1) kr mp q s').
Proof.
  intros [He Hu] Hi Hn Hb Hne Hid Hkd. assert (0 <= i <= NCPU) as Hi' by lia.
  eapply returns_bind; [apply (kalloc_on b d free s He)|]. intros stack s1 [He1 [r Hf1]].
  assert (early d (tail free) s1 /\ ups b d i kr mp q s1) as H1.
  { split; [done|]. eapply ups_frame; [exact Hf1|done|by intros j []|by intros a j []|by apply ups_free]. }
  eapply returns_bind; [apply (store_low b d i kr mp q (tail free) _ _ _ H1 Hi' Hb); lia|]. clear s1 He1 Hf1 H1. intros [] s1 H1.
  eapply returns_bind; [apply (store_low b d i kr mp q (tail free) _ _ _ H1 Hi' Hb); lia|]. clear s1 H1. intros [] s1 H1.
  eapply returns_bind; [apply (store_low b d i kr mp q (tail free) _ _ _ H1 Hi' Hb); lia|]. clear s1 H1. intros [] s1 H1.
  exact (send_start b d i kr mp q (tail free) s1 H1 Hi Hn Hb Hne Hid Hkd).
Qed.

Lemma startothers_from_ok b d kr mp q todo : 0 <= b < NCPU -> ncpu mp <= NCPU -> (forall i, 0 <= i < ncpu mp -> cpu_id mp i = i) -> kr.2 = d ->
  (Mp.lapic mp = 0 -> b = 0) ->
  forall i free s, early d free s /\ ups b d i kr mp q s -> 0 <= i -> i + Z.of_nat todo = ncpu mp ->
  returns (startothers_from cpus idt entrypgdir mpenter_ pc b todo i) s
    (fun _ s' => exists free', early d free' s' /\ ups b d (ncpu mp) kr mp q s').
Proof.
  intros Hb Hn Hid Hkd Hl0. induction todo as [|todo IH]; intros i free s [He Hu] Hi Htodo; cbn [startothers_from].
  { step. exists free. split; [done|]. by replace (ncpu mp) with i by lia. }
  destruct (us_start _ _ _ _ _ _ _ Hu b ltac:(by right)) as [C1 C2 C3 C4].
  eapply returns_bind; [apply (m_cpunum_ok b); try done; unfold NCPU in *; lia|]. intros c s1 [-> Hf1].
  assert (early d free s1 /\ ups b d i kr mp q s1) as H1.
  { split; [eapply early_frame; [exact Hf1|by intros ? []|done]|]. eapply ups_frame; [exact Hf1|lia|by intros j []|by intros a j []|done]. }
  destruct (Z.eqb_spec i b) as [Eib|Hib].
  - subst i. apply wp_bind. step. apply (IH (b + 1) free); [|lia|lia]. destruct H1 as [He1 [U1 U2 U3 U4 U5 U6 U7]]. split; [done|]. split; [|done..].
    intros j Hj Hne. apply U1; [lia|done].
  - eapply returns_bind; [apply (start_one b d i kr mp q free s1 H1); try done; [lia|apply Hid; lia]|].
    intros [] s2 H2. apply (IH (i + 1) (tail free)); [done|lia|lia].
Qed.

Lemma startothers_ok b d kr mp q free s : early d free s /\ ups b d 0 kr mp q s ->
  0 <= b < NCPU -> 0 <= ncpu mp <= NCPU -> (forall i, 0 <= i < ncpu mp -> cpu_id mp i = i) -> kr.2 = d -> (Mp.lapic mp = 0 -> b = 0) ->
  returns (startothers cpus idt entrypgdir code_start code_size mpenter_ pc b) s
    (fun _ s' => exists free', early d free' s' /\ ups b d (ncpu mp) kr mp q s').
Proof.
  intros H1 Hb Hn Hid Hkd Hl0. unfold startothers.
  eapply returns_bind; [apply (on_km_step b _ s (fun a => code <= a < code + code_size) (fun _ => True))|].
  { split; [done|]. split; [done|]. split; [done|]. intros a Ha. cbn. rewrite load8_memmove by lia.
    destruct (Z.leb_spec code a), (Z.ltb_spec a (code + code_size)); cbn [andb]; done || lia. }
  intros [] s1 [_ Hf1]. apply wp_bind, wp_gets. apply (low_step _ _ _ _ _ _ _ _ _ _ Hf1) in H1; [| |unfold NCPU; lia|done].
  2: { intros a Ha. left. change KERNLINK with 2148532224. change code with 2147512320 in *. lia. }
  rewrite (us_mp _ _ _ _ _ _ _ (proj2 H1)). apply (startothers_from_ok b d kr mp q _ Hb ltac:(lia) Hid Hkd Hl0 0 free); [done|lia|lia].
Qed.

(** ** The devices *)

Context (vectors : Z -> Z) (disk : Z -> Z -> Bio.block) (data0 : nat -> Bio.block).

(** [s'] is [s] with other interrupt controllers and another table of interrupt gates; what was
    printed, the buffer cache and the locks are not part of the frame. *)
Definition dev_frame (s s' : mach) : Prop := frame none none (set_midt (midt s') (set_mirq (mirq s') s)) s'.

Lemma dev_frame_trans s1 s2 s3 : dev_frame s1 s2 -> dev_frame s2 s3 -> dev_frame s1 s3.
Proof.
  intros [A1 A2 A3 A4 A5 A6 A7 A8 A9] [B1 B2 B3 B4 B5 B6 B7 B8 B9].
  apply (frame_trans _ _ _ (set_midt (midt s3) (set_mirq (mirq s3) s2))); [|by split]. by split.
Qed.

Lemma frame_dev s s' : frame none none s s' -> dev_frame s s'.
Proof. intros [A1 A2 A3 A4 A5 A6 A7 A8 A9]. by split. Qed.

Lemma on_irq_ok {A} (c : M irqst A) s (P : A -> irqst -> Prop) : returns c (mirq s) P ->
  returns (on_irq c) s (fun a s' => P a (mirq s') /\ midt s' = midt s /\ dev_frame s s').
Proof. intros Hc. apply returns_run_on. eapply returns_mono; [exact Hc|]. intros a q Hq. split; [exact Hq|]. split; [done|]. by split. Qed.

(** An initialiser that touches neither frame nor controllers, after [s0]. *)
Lemma modify_dev (f : mach -> mach) (k : M mach unit) g q s0 s Q : mirq s = q /\ dev_frame s0 s ->
  (forall s, dev_frame s (f s) /\ mirq (f s) = mirq s /\ midt (f s) = g (midt s)) ->
  (forall s', midt s' = g (midt s) -> mirq s' = q /\ dev_frame s0 s' -> returns k s' Q) -> returns (modify f ;; k) s Q.
Proof.
  intros [Hq Hs] Hf Hk. destruct (Hf s) as (H1 & H2 & H3). apply returns_modify_bind, Hk; [done|]. split; [by rewrite H2|]. by eapply dev_frame_trans.
Qed.

Lemma devices_ok n k r s : ready_at k (ins (mirq s) 0x1f7) r -> (ismp (mmp s) = true -> 0 <= ncpu (mmp s) - 1 < 256) ->
  returns (devices vectors disk data0 n) s (fun _ s' => devices_on (ismp (mmp s)) (ncpu (mmp s)) (mirq s') /\
    midt s' = tvinit vectors /\ dev_frame s s').
Proof.
  intros Hr Hnc. unfold devices. set (mp := ismp (mmp s)). set (nc := ncpu (mmp s)).
  eapply returns_bind; [apply (returns_gets _ _ (fun a t => a = mp /\ t = s)); done|]. intros ? ? [-> ->].
  eapply returns_bind; [apply on_irq_ok, picinit_ins|]. intros [] s1 (I1 & _ & D1).
  eapply returns_bind; [apply (returns_gets _ _ (fun a t => t = s1)); done|]. intros id ? ->.
  eapply returns_bind; [apply on_irq_ok, ioapicinit_ins|]. intros differs s2 (I2 & _ & D2). pose proof (dev_frame_trans _ _ _ D1 D2) as D. clear D1 D2.
  eapply (returns_bind _ _ _ (fun _ s' => mirq s' = mirq s2 /\ dev_frame s s')).
  { destruct differs; [|by unfold returns; step]. eapply returns_mono; [apply say_ok|]. intros [] s3 Hf. cbv beta in Hf.
    split; [apply (fr_irq _ _ _ _ Hf)|]. eapply dev_frame_trans; [exact D|by apply frame_dev]. }
  clear D. intros [] s3 [I3 D]. eapply returns_bind; [apply on_irq_ok, consoleinit_step|]. intros [] s4 ((I4 & K4 & R4) & _ & D4).
  pose proof (dev_frame_trans _ _ _ D D4) as D'. clear D D4. eapply returns_bind; [apply on_irq_ok, uartinit_step|]. intros [] s5 ([I5 M5 R5] & _ & D5).
  pose proof (dev_frame_trans _ _ _ D' D5) as D. clear D' D5.
  assert (mirq s5 = mirq s5 /\ dev_frame s s5) as E by done. unfold pinit, init_pte_lookup_lock, fileinit, iinit, m_initlock.
  do 2 (eapply (modify_dev _ _ (fun x => x)); [exact E|by intros; split|clear E; intros ? _ E]).
  eapply (modify_dev _ _ (fun _ => tvinit vectors)); [exact E|by intros; split|clear E; intros s8 G E]. cbv beta in G.
  do 3 (eapply (modify_dev _ _ (fun x => x)); [exact E|by intros; split|clear E; let G' := fresh in intros ? G' E; rewrite G in G'; clear G; rename G' into G]).
  match goal with |- returns _ ?x _ => set (s11 := x) in * end. destruct E as [E D6]. clear D.
  assert (mmp s11 = mmp s) as Emp by exact (fr_mp _ _ _ _ D6).
  eapply returns_bind; [apply (returns_gets _ _ (fun a t => a = nc /\ t = s11)); by rewrite Emp|]. intros ? ? [-> ->].
  eapply returns_bind; [apply on_irq_ok, (ideinit_step mp nc k r)|].
  - rewrite E, I5, I4, I3, I2, I1. exact Hr.
  - exact Hnc.
  - rewrite E. by apply M5.
  - intros Hmp. rewrite E. apply R5; [done|done|by apply R4].
  - intros [] s12 ((K & I & R) & G12 & D12). rewrite G in G12. pose proof (dev_frame_trans _ _ _ D6 D12) as D. destruct mp eqn:Emp'; cbn [negb].
    + unfold returns. step. split; [|done]. unfold devices_on. by split.
    + eapply returns_mono; [by apply on_irq_ok, (timerinit_step _ false nc)|]. intros [] s13 (H13 & G13 & D13). split; [done|].
      split; [by rewrite G13|]. by eapply dev_frame_trans.
Qed.

(** ** The boot processor *)

Context (fuel : nat).
Hypothesis Hend : PGROUNDUP end_ + KVM_PAGES * PGSIZE <= MB4.

(** The part of the kernel's state that is not about memory. *)
Definition kother (s : mach) := (krest s).1.2.

(** A step of the boot processor in memory from [end_] on. *)
Record msame (s s' : mach) : Prop := {
  sa_low : low_same (mmem s) (mmem s');
  sa_other : kother s' = kother s;
  sa_seg j : mseg s' j = mseg s j;
  sa_idtr : midtr s' = midtr s;
  sa_lap : mlap s' = mlap s;
  sa_mp : mmp s' = mmp s;
  sa_irq : mirq s' = mirq s;
  sa_idt : midt s' = midt s;
  sa_pgdir : mkpgdir s' = mkpgdir s }.

Lemma on_km_same {A} n (c : M kst A) s (P : A -> kst -> Prop) :
  returns c (km (view_kern n s)) (fun a t => P a t /\ cr3 t = pdbr (mseg s n) /\ low_same (mmem s) (mem t)) ->
  returns (on_kern n (on_km c)) s (fun a s' => P a (km (mk s')) /\ msame s s').
Proof.
  intros Hc. eapply returns_mono; [apply (on_km_frame n c s (fun a => end_ <= a) P)|].
  - eapply returns_mono; [exact Hc|]. intros a t (HP & Hcr & Hl). split; [done|]. split; [done|]. intros x Hx. apply Hl. lia.
  - intros a s' (t & HP & Hk & Hm & Hs & Hi & Hl & Hp & Hq & Hg & Hd). split; [by rewrite Hk|].
    split; try done; [intros x Hx; apply Hm; lia|]. unfold kother, krest. by rewrite Hk.
Qed.

Lemma kinv_cr3 r s free : kinv s free -> kinv (set_cr3 r s) free.
Proof. intros [K1 K2 K3 K4]. by split. Qed.

Lemma kinit1_on b s : kinv (km (mk s)) [] -> held (km (mk s)) = [] ->
  returns (on_kern b (on_km (kinit1 end_ (p2v (4 * 1024 * 1024))))) s (fun _ s' =>
    (kinv (km (mk s')) first_pages /\ held (km (mk s')) = [] /\ use_lock (km (mk s')) = false) /\ msame s s').
Proof.
  intros Hk Hh. destruct MB4_up as (Hm & _ & _). rewrite Hm.
  apply (on_km_same b _ s (fun _ t => kinv t first_pages /\ held t = [] /\ use_lock t = false)).
  eapply returns_mono; [apply kinit1_ok; [unfold PGSIZE, KVM_PAGES in *; lia|by apply (kinv_cr3 _ (km (mk s)))]|].
  intros [] t (K & Hd & _ & Hl & Hu & Hc). split; [|done]. split; [done|]. split; [|done]. rewrite Hd. exact Hh.
Qed.

Lemma kvmalloc_on b s : kinv (km (mk s)) first_pages -> held (km (mk s)) = [] -> use_lock (km (mk s)) = false ->
  returns (on_kern b (on_km kvmalloc)) s (fun d s' => exists free, early d free s' /\ low_same (mmem s) (mmem s') /\ kother s' = kother s /\
    pdbr (mseg s' b) = v2p d /\ (forall j, iflag (mseg s' j) = iflag (mseg s j)) /\
    mlap s' = mlap s /\ mmp s' = mmp s /\ mirq s' = mirq s).
Proof.
  intros Hk Hh Hu. apply returns_run_on, wp_on_km. eapply wp_mono; [apply kvmalloc_ok; [done|by apply (kinv_cr3 _ (km (mk s)))]| |done].
  intros d t (free & K & A & V & F & R & L). exists free. unfold rest in R. injection R as R1 R2 R3 R4 R5.
  split; [split; cbn; congruence || done|]. split; [exact L|]. split; [done|]. split; [|split; [|done]].
  - cbn. rewrite upd_eq. exact R3.
  - intros j. cbn. unfold upd. case_decide as E; [by subst j|done].
Qed.

(** What the boot processor finds: the state of memory, the locks, the tables of the
    BIOS, which are below the end of the kernel, and the processors [p] they list. *)
Record at_reset (b : Z) (p : mps) (s : mach) : Prop := {
  ar_kinv : kinv (km (mk s)) [];
  ar_held : held (km (mk s)) = [];
  ar_boot : 0 <= b < NCPU;
  ar_mp0 : mmp s = mps0;
  ar_mp m : low_same (mmem s) m -> mpinit m fuel mps0 = Done tt p;
  ar_some : ismp p = true -> 1 <= ncpu p;
  ar_start j : 0 <= j < ncpu p \/ j = b -> can_start j (set_mmp p s) }.

Lemma boot_cpu_ok b p s : at_reset b p s -> returns (boot_cpu cpus pc fuel b) s (fun _ s' => exists d free,
  early d free s' /\ ups b d 0 (krest s') p (mirq s, midt s') s' /\ (krest s').2 = d /\ kother s' = kother s).
Proof.
  intros [Hk Hh Hb Hp0 Hp _ Hst]. unfold boot_cpu.
  eapply returns_bind; [by apply kinit1_on|]. intros [] s1 ((K1 & H1 & U1) & [L1 O1 S1 _ A1 P1 I1 _ _]).
  eapply returns_bind; [by apply kvmalloc_on|]. intros d s2 (free & He & L2 & O2 & D2 & F2 & A2 & P2 & I2).
  apply returns_modify_bind. set (s3 := set_mkpgdir d s2).
  eapply (returns_bind _ _ _ (fun _ t => t = set_mmp p s3)).
  { unfold returns, wp, m_mpinit. replace (mmp s3) with mps0 by (cbn; congruence). by rewrite (Hp (mmem s3)) by (eapply low_trans; done). }
  intros [] s4 ->. set (s4 := set_mmp p s3).
  assert (forall j, 0 <= j < ncpu p \/ j = b -> can_start j s4) as C4.
  { intros j Hj. destruct (Hst j Hj) as [[C1 C1'] C2 C3 C4]. cbn in *. rewrite <- A1, <- A2 in C1, C1', C4. rewrite <- S1, <- F2 in C2. by split. }
  assert (early d free s4) as He4 by (destruct He; by split).
  destruct (C4 b ltac:(by right)) as [B1 B2 B3 B4].
  eapply returns_bind; [by apply lapicinit_on|]. intros [] s5 F5. cbv beta in F5.
  destruct (can_start_frame _ _ _ _ _ F5 (C4 b ltac:(by right))) as [E1 E2 E3 E4].
  eapply returns_bind; [by apply m_seginit_ok|]. intros [] s6 (R6 & F6 & D6).
  eapply returns_bind; [by apply cpu_ident_ok|]. intros i s7 (_ & F7 & V7 & _).
  eapply returns_mono; [apply say_ok|]. intros [] s8 F8. cbv beta in F8.
  assert (frame (cpu_bytes b) (eq b) s4 s8) as F.
  { eapply frame_trans; [eapply frame_mono; [exact F5|by intros ? []|by intros ? []]|]. eapply frame_trans; [exact F6|].
    eapply frame_trans; [eapply frame_mono; [exact F7|by intros ? []|done]|]. eapply frame_mono; [exact F8|by intros ? []|by intros ? []]. }
  assert (krest s8 = krest s4) as Ek by exact (f_equal snd (fr_kern _ _ _ _ F)).
  exists d, free. split; [|split; [|split]].
  - eapply early_frame; [exact F| |done]. intros a Ha. destruct (cpu_at_range b Hb) as (_ & ? & _). unfold cpu_bytes in Ha. lia.
  - split; [intros; lia| | | |done|by rewrite (fr_mp _ _ _ _ F)|f_equal; rewrite (fr_irq _ _ _ _ F); cbn; congruence].
    + eapply view_ready; [exact F8|by intros []|by intros ? _ []|]. by rewrite V7.
    + destruct (fr_seg _ _ _ _ F8 b (fun x => x)) as [-> _]. transitivity (pdbr (view_seg b s7)); [done|]. rewrite V7.
      transitivity (pdbr (mseg s6 b)); [done|]. rewrite D6. by destruct (fr_seg _ _ _ _ F5 b (fun x => x)) as [-> _].
    + intros j Hj. eapply can_start_frame; [exact F|by apply C4].
  - by rewrite Ek.
  - unfold kother in *. rewrite Ek. change (krest s4).1.2 with (krest s2).1.2. congruence.
Qed.

(** ** The rest of memory and the first process *)

Lemma kinit2_on b d free s : early d free s ->
  returns (on_kern b (on_km (kinit2 (p2v (4 * 1024 * 1024)) (p2v PHYSTOP)))) s (fun _ s' =>
    (exists free', kinv (km (mk s')) free' /\ uvm_wf (mmem s') d 0 free' /\ held (km (mk s')) = [] /\ 56320 <= Z.of_nat (length free')) /\ msame s s').
Proof.
  intros [Hk A V F U L]. destruct MB4_up as (Hm & _ & Hp). rewrite Hm, Hp.
  apply (on_km_same b _ s (fun _ t => exists free', kinv t free' /\ uvm_wf (mem t) d 0 free' /\ held t = [] /\ 56320 <= Z.of_nat (length free'))).
  destruct end_up as [Hae _].
  eapply returns_mono; [apply (kinit2_ok _ d free); [by apply (kinv_cr3 _ (km (mk s)))|done..|unfold PGSIZE, KVM_PAGES in *; lia]|].
  intros [] t (free' & K' & W & C & _ & Hh & _ & _ & Hl & Hlow). split; [|done]. exists free'. split; [done|]. split; [done|]. split; [done|exact Hl].
Qed.

Context (devread : Z -> option (nat -> Z -> M fs (Z * list Z))) (initcode : list Z).

Lemma userinit_on b d free s : kinv (km (mk s)) free -> uvm_wf (mmem s) d 0 free -> held (km (mk s)) = [] -> 56320 <= Z.of_nat (length free) ->
  (exists q, q ∈ slots /\ state (mk s) q = UNUSED) -> zlen initcode < PGSIZE -> (forall j, iref (icache (kf (mk s)) j) = 0) ->
  returns (on_kern b (userinit forkret trapret devread initcode)) s (fun _ s' =>
    (exists q free', first_proc forkret trapret initcode (mk s) (mk s') q free' /\ uvm_wf (mmem s') d 0 free' /\ held (km (mk s')) = []) /\
    low_same (mmem s) (mmem s') /\ (forall j, mseg s' j = mseg s j) /\ midtr s' = midtr s /\ mmp s' = mmp s /\
    mirq s' = mirq s /\ midt s' = midt s /\ mkpgdir s' = mkpgdir s).
Proof.
  intros Hk Hw Hh Hl Hu Hic Hir. apply returns_run_on.
  eapply returns_mono; [apply (userinit_ok forkret trapret devread initcode (view_kern b s) free); try done; [by apply (kinv_cr3 _ (km (mk s)))|unfold KVM_PAGES; lia]|].
  intros [] k' (q & free' & Hfp & [V1 V2 V3 V4 V5]). split; [|split; [exact V3|split; [|done]]].
  - exists q, free'. split; [by eapply first_proc_from; [..|exact Hfp]|].
    split; [by apply (uvm_wf_frame (km (view_kern b s)) (km k') d 0 free free')|]. unfold rest in V4. injection V4 as _ _ _ E _. cbn. by rewrite E.
  - intros j. cbn. unfold upd. case_decide as E; [|done]. subst j. unfold rest in V4. injection V4 as _ _ E _ _. rewrite E. by destruct (mseg s b).
Qed.

(** What main leaves for the scheduler: every processor of the table and the boot processor
    are up, with the kernel's page table, the gates of tvinit and the devices' lines
    enabled, and the first process is the only one. *)
Record kernel_up (b : Z) (p : mps) (s s' : mach) : Prop := {
  bo_up j : 0 <= j < ncpu p \/ j = b -> cpu_up (mkpgdir s') j s';
  bo_idt : midt s' = tvinit vectors;
  bo_dev : devices_on (ismp p) (ncpu p) (mirq s');
  bo_mp : mmp s' = p;
  bo_first : exists q free, first_proc forkret trapret initcode (mk s) (mk s') q free /\
    uvm_wf (mmem s') (mkpgdir s') 0 free /\ runs_first q free (mk s') }.

(** The last part of main, from the state startothers leaves. *)
Lemma main_end b d kr p q free s0 s : early d free s -> ups b d (ncpu p) kr p q s -> 0 <= b < NCPU -> 0 <= ncpu p <= NCPU ->
  kr.2 = d -> kother s = kother s0 -> q.2 = tvinit vectors -> devices_on (ismp p) (ncpu p) q.1 ->
  (forall q, q ∈ slots -> state (mk s0) q = UNUSED) -> zlen initcode < PGSIZE -> (forall j, iref (icache (kf (mk s0)) j) = 0) ->
  returns (on_kern b (on_km (kinit2 (p2v (4 * 1024 * 1024)) (p2v PHYSTOP))) ;;
           on_kern b (userinit forkret trapret devread initcode) ;;
           mpmain cpus idt b) s (fun _ s' => kernel_up b p s0 s').
Proof.
  intros He [U1 U2 U3 _ U5 U6 U7] Hb Hn Hkd Ho Hg Hdev Hu Hic Hir.
  eapply returns_bind; [by apply (kinit2_on b d free)|]. intros [] s1 ((free1 & K1 & W1 & H1 & N1) & [L1 O1 S1 T1 _ P1 I1 G1 D1]).
  pose proof (eq_trans O1 Ho) as O. unfold kother, krest in O. cbn in O. injection O as Q1 Q2 Q3 _ _ _ _ _.
  eapply returns_bind; [apply (userinit_on b d free1); try done|].
  { destruct slots as [|x l] eqn:E; [by apply (f_equal length) in E|]. exists x. split; [by left|].
    unfold state, fld. rewrite Q2. apply (Hu x). by left. }
  { intros j. by rewrite Q1. }
  intros [] s2 ((x & free2 & F2 & W2 & H2) & L2 & S2 & T2 & P2 & I2 & G2 & D2).
  assert (forall j, 0 <= j < NCPU -> forall a, cpu_bytes j a -> load8 (mmem s2) a = load8 (mmem s) a) as Hm.
  { intros j Hj a Ha. destruct (cpu_at_range j Hj) as (_ & ? & _). unfold cpu_bytes in Ha. apply (low_trans _ _ _ L1 L2). lia. }
  assert (forall j, mseg s2 j = mseg s j) as Hs by (intros j; by rewrite S2, S1).
  eapply returns_mono; [apply (mpmain_ok b d); [done|apply (ready_same b s); [by apply Hm|done|done]|by rewrite Hs]|].
  intros [] s3 [Hup F3]. pose proof (f_equal snd (fr_kern _ _ _ _ F3)) as Ek. pose proof (f_equal fst (fr_kern _ _ _ _ F3)) as Ef.
  cbn in Ef. unfold kpart, krest in Ek. cbn in Ek. injection Ek as E1 E2 E3 E4 E5 E6 E7 E8 E9 E10 E11 E12.
  assert (mkpgdir s3 = d) as Ed by (rewrite E12, D2, D1, <- Hkd, <- U5; done).
  destruct (cpu_at_range b Hb) as (_ & Rb & _).
  assert (forall a, end_ <= a -> load8 (mmem s3) a = load8 (mmem s2) a) as Hm3.
  { intros a Ha. apply (fr_mem _ _ _ _ F3). unfold cpu_bytes. lia. }
  split; rewrite ?Ed.
  - intros j Hj. destruct (decide (j = b)) as [->|Hne]; [done|]. eapply cpu_up_frame; [exact F3|congruence| |].
    + intros a Ha Hb'. unfold cpu_bytes, cpu_at, CPU_SZ in *. lia.
    + apply (cpu_up_same d j s); [apply Hm; lia|done|by rewrite T2, T1|]. apply U1; [lia|done].
  - rewrite (fr_idt _ _ _ _ F3), G2, G1, <- Hg, <- U7. done.
  - rewrite (fr_irq _ _ _ _ F3), I2, I1. by rewrite <- U7 in Hdev.
  - by rewrite (fr_mp _ _ _ _ F3), P2, P1.
  - assert (first_proc forkret trapret initcode (mk s0) (mk s3) x free2) as Hfp.
    { apply (first_proc_low forkret trapret initcode (mk s0) (mk s2) (mk s3)); try done. by apply (first_proc_from _ _ _ _ (mk s1)). }
    exists x, free2. split; [done|]. split; [|apply (first_process_runs _ _ _ _ _ _ _ Hfp Hu); congruence].
    apply (uvm_wf_frame (km (mk s2)) (km (mk s3)) d 0 free2); [|done|done].
    intros y (_ & Hy & _) _ a Ha. apply Hm3. lia.
Qed.

Lemma dev_ups b d kr p q free s s' : dev_frame s s' -> early d free s -> ups b d 0 kr p q s ->
  early d free s' /\ ups b d 0 kr p (mirq s', midt s') s'.
Proof.
  intros Hf He [U1 U2 U3 U4 U5 U6 U7]. split.
  - eapply early_frame; [exact Hf|by intros ? []|]. destruct He. by split.
  - eapply ups_frame; [exact Hf|unfold NCPU; lia|by intros ? []|by intros ? ? []|]. split; [intros; lia|done|done| |done|done|done].
    intros j Hj. destruct (U4 j Hj) as [[C1 C1'] C2 C3 C4]. by split.
Qed.

End parts.

(** ** A machine with two processors *)

Definition bios2 : gmap Z Z :=
  put_bytes (p2v 0x40E) [0xC0; 0x9F]
    (put_bytes (p2v 0x9FC00) [95; 77; 80; 95; 0x10; 0xFC; 0x09; 0; 1; 4; 139; 0; 0; 0; 0; 0]
      (put_bytes (p2v 0x9FC10) ([80; 67; 77; 80; 84; 0; 4; 109] ++ replicate 28 0 ++ [0; 0; 0xE0; 0xFE; 0; 0; 0; 0] ++
         [0; 0; 20; 3] ++ replicate 16 0 ++ [0; 1; 20; 1] ++ replicate 16 0) ∅)).

Definition found2 : mps := match mpinit bios2 3 mps0 with Done _ p | Stop _ p => p end.

(** At reset: no process, no inode in use, the disk ready, local APICs with the numbers 0, 1, ... *)
Definition mach2 : mach :=
  mkMach (mkKern (kst0 bios2) (mkFs (fun _ => []) [] (fun _ => mkInode 0 0 false false (empty_dinode T_FILE)) 0)
      (fun _ => 0) 1 0 0 (fun _ => mkFile FD_INODE 0 false false 0 0 0) (fun _ => Pipe.pipe_init ∅) 0)
    0 mps0 (mkIrqst [] (fun port => if port =? 0x1f7 then [0x40] else []) 0 0 (fun _ => 0) false false false false)
    (fun _ => mkSegst ∅ (0, 0) 0 0 false 0)
    (fun n => mkLapst false [] (fun r => if r =? ID then [n * 2 ^ 24] else []) [] ∅ 0 0)
    (fun _ => (0, 0)) (fun _ => SETGATE false 0 0 0) (binit (fun _ _ => []) (fun _ => []) false) [].

(** Addresses of the build (kernel.sym). *)
Definition cpus1 : Z := 0x80113380.

Lemma mach2_reset : at_reset 3 0 found2 mach2.
Proof.
  split; [apply kinv_kst0|done|by vm_compute|done| |by vm_compute|].
  - intros m Hm. transitivity (mpinit bios2 3 mps0); [|by vm_compute].
    apply (mpinit_ext bios2 m end_ Hm 3 mps0 0x9FC00 (p2v 0x9FC10)); by vm_compute.
  - intros j _. split; [split; [simpl; lia|done]|done|by vm_compute|by vm_compute].
Qed.

