(* ===== verification/Switch.v ===== *)
(** * The context switch and the way through a trap

    swtch.S, trapasm.S and the handlers of vectors.S, instruction by instruction on the
    registers of a processor and the memory of the kernel.  The hardware's part of a trap and
    iret are modelled as far as this code depends on them: the stack of the task state, the
    words that are pushed, the gate.  Theorems: a process that swtch left goes on where
    it was; trap finds the registers of the interrupted program in a struct trapframe, and
    the program goes on with what is in the frame at the end; the first process gets to
    user mode at address 0. *)

From S2P Require Import Pipe Bytes FsFormat Fs Inode InodeData Dir MkfsBoot.
From S2P Require Import Prelude Mmu Traps Memory Kstate Kalloc PageTable Uvm Cow Boot Kernel Sched File.
From S2P Require Import Proc Trap ProcTheorems FdRefs Fork ExecMem Userinit Prelude.

(** ** Registers *)

Inductive reg := EAX | ECX | EDX | EBX | EBP | ESI | EDI | EIP | EFLAGS | CS | DS | ES | FS | GS | SS.
#[global] Instance reg_eq : EqDecision reg.
Proof. solve_decision. Defined.

(** The stack pointer, the other registers, and memory. *)
Record cpu := mkCpu { esp : Z; regs : reg -> Z; cmem : gmap Z Z }.

Definition r (x : reg) : M cpu Z := gets (fun s => regs s x).
Definition mov (x : reg) (v : Z) : M cpu unit := modify (fun s => mkCpu (esp s) (upd x v (regs s)) (cmem s)).
Definition mov_esp (v : Z) : M cpu unit := modify (fun s => mkCpu v (regs s) (cmem s)).
Definition load_at (a : Z) : M cpu Z := gets (fun s => load32 (cmem s) a).
Definition store_at (a v : Z) : M cpu unit := modify (fun s => mkCpu (esp s) (regs s) (store32 (cmem s) a v)).

Definition push (v : Z) : M cpu unit :=
  modify (fun s => let a := u32 (esp s - 4) in mkCpu a (regs s) (store32 (cmem s) a v)).
Definition pop : M cpu Z := fun s => Done (load32 (cmem s) (esp s)) (mkCpu (u32 (esp s + 4)) (regs s) (cmem s)).

Definition pushr (x : reg) : M cpu unit := let! v := r x in push v.
Definition popr (x : reg) : M cpu unit := let! v := pop in mov x v.
(** A segment register takes the lower half of the word. *)
Definition pops (x : reg) : M cpu unit := let! v := pop in mov x (u16 v).
Definition ret_ : M cpu unit := popr EIP.
(** movw to %ax. *)
Definition movw_ax (v : Z) : M cpu unit := let! a := r EAX in mov EAX (a / 2 ^ 16 * 2 ^ 16 + u16 v).

(** ** swtch.S *)

(** The arguments are on the stack above the return address. *)
Definition swtch : M cpu unit :=
  let! e := gets esp in
  let! old := load_at (u32 (e + 4)) in
  mov EAX old ;;
  let! new := load_at (u32 (e + 8)) in
  mov EDX new ;;
  pushr EBP ;;
  pushr EBX ;;
  pushr ESI ;;
  pushr EDI ;;
  let! a := r EAX in
  let! e := gets esp in
  store_at a e ;;
  let! d := r EDX in
  mov_esp d ;;
  popr EDI ;;
  popr ESI ;;
  popr EBX ;;
  popr EBP ;;
  ret_.

(** ** trapasm.S *)

Definition pushal : M cpu unit :=
  let! e := gets esp in
  pushr EAX ;; pushr ECX ;; pushr EDX ;; pushr EBX ;; push e ;; pushr EBP ;; pushr ESI ;; pushr EDI.
Definition popal : M cpu unit :=
  popr EDI ;; popr ESI ;; popr EBP ;; let! _ := pop in popr EBX ;; popr EDX ;; popr ECX ;; popr EAX.

(** From [CPL] 3 to another level and back, the stack changes. *)
Definition user_mode (cs : Z) : bool := Z.land cs 3 =? 3.

Definition iret : M cpu unit :=
  popr EIP ;;
  pops CS ;;
  popr EFLAGS ;;
  let! cs := r CS in
  if user_mode cs then
    let! e := pop in
    pops SS ;;
    mov_esp e
  else ret tt.

Definition trapret : M cpu unit :=
  popal ;;
  pops GS ;;
  pops FS ;;
  pops ES ;;
  pops DS ;;
  let! e := gets esp in
  mov_esp (u32 (e + 8)) ;;
  iret.

Section traps.
(** The C function, called with the address of the frame. *)
Context (trap : Z -> M cpu unit).

Definition alltraps : M cpu unit :=
  pushr DS ;;
  pushr ES ;;
  pushr FS ;;
  pushr GS ;;
  pushal ;;
  movw_ax (Z.shiftl SEG_KDATA 3) ;;
  let! a := r EAX in
  mov DS (u16 a) ;;
  mov ES (u16 a) ;;
  movw_ax (Z.shiftl SEG_KCPU 3) ;;
  let! a := r EAX in
  mov FS (u16 a) ;;
  mov GS (u16 a) ;;
  let! tf := gets esp in
  push tf ;;
  trap tf ;;
  let! e := gets esp in
  mov_esp (u32 (e + 4)) ;;
  trapret.

(** ** vectors.S *)

(** Traps for which the processor pushes an error code. *)
Definition has_err (n : Z) : bool := (n =? 8) || ((10 <=? n) && (n <=? 14)) || (n =? 17).

Definition vector (n : Z) : M cpu unit :=
  (if has_err n then ret tt else push 0) ;;
  push n ;;
  alltraps.

(** ** The processor's part of a trap *)

(** Through gate [g], with the kernel stack [esp0] of the task state and error code [err]. *)
Definition hardware (g : gatedesc) (ss0 esp0 : Z) (err : option Z) : M cpu unit :=
  let! e := gets esp in
  let! ss := r SS in
  let! cs := r CS in
  (if user_mode cs then mov SS ss0 ;; mov_esp esp0 ;; push ss ;; push e else ret tt) ;;
  pushr EFLAGS ;;
  pushr CS ;;
  pushr EIP ;;
  match err with Some c => push c | None => ret tt end ;;
  mov CS (gate_cs g) ;;
  mov EIP (gate_offset g) ;;
  if gate_type g =? STS_IG32 then let! f := r EFLAGS in mov EFLAGS (Z.land f (Z.lnot FL_IF)) else ret tt.

(** A trap with number [n] until the program goes on. *)
Definition interrupt (g : gatedesc) (ss0 esp0 : Z) (err : option Z) (n : Z) : M cpu unit :=
  hardware g ss0 esp0 err ;;
  vector n.
End traps.

(** ** Rules *)

Lemma wp_push v e g m (Q : unit -> cpu -> Prop) E : 4 <= e < 2 ^ 32 ->
  Q tt (mkCpu (e - 4) g (store32 m (e - 4) v)) -> wp (push v) (mkCpu e g m) Q E.
Proof. intros He HQ. unfold wp, push, modify. cbn [esp regs cmem]. by rewrite u32_small by lia. Qed.

Lemma wp_pushr x e g m (Q : unit -> cpu -> Prop) E : 4 <= e < 2 ^ 32 ->
  Q tt (mkCpu (e - 4) g (store32 m (e - 4) (g x))) -> wp (pushr x) (mkCpu e g m) Q E.
Proof. intros He HQ. unfold pushr, r. apply wp_bind, wp_gets. by apply wp_push. Qed.

Lemma wp_pop e g m (Q : Z -> cpu -> Prop) E : 0 <= e /\ e + 4 < 2 ^ 32 ->
  Q (load32 m e) (mkCpu (e + 4) g m) -> wp pop (mkCpu e g m) Q E.
Proof. intros He HQ. unfold wp, pop. cbn [esp regs cmem]. by rewrite u32_small by lia. Qed.

Lemma wp_popr x e g m (Q : unit -> cpu -> Prop) E : 0 <= e /\ e + 4 < 2 ^ 32 ->
  Q tt (mkCpu (e + 4) (upd x (load32 m e) g) m) -> wp (popr x) (mkCpu e g m) Q E.
Proof. intros He HQ. unfold popr. apply wp_bind, wp_pop; done. Qed.

Lemma wp_pops x e g m (Q : unit -> cpu -> Prop) E : 0 <= e /\ e + 4 < 2 ^ 32 ->
  Q tt (mkCpu (e + 4) (upd x (u16 (load32 m e)) g) m) -> wp (pops x) (mkCpu e g m) Q E.
Proof. intros He HQ. unfold pops. apply wp_bind, wp_pop; done. Qed.

Lemma wp_mov x v e g m (Q : unit -> cpu -> Prop) E : Q tt (mkCpu e (upd x v g) m) -> wp (mov x v) (mkCpu e g m) Q E.
Proof. done. Qed.
Lemma wp_mov_esp v e g m (Q : unit -> cpu -> Prop) E : Q tt (mkCpu v g m) -> wp (mov_esp v) (mkCpu e g m) Q E.
Proof. done. Qed.
Lemma wp_store_at a v e g m (Q : unit -> cpu -> Prop) E : Q tt (mkCpu e g (store32 m a v)) -> wp (store_at a v) (mkCpu e g m) Q E.
Proof. done. Qed.
Lemma wp_r x e g m (Q : Z -> cpu -> Prop) E : Q (g x) (mkCpu e g m) -> wp (r x) (mkCpu e g m) Q E.
Proof. done. Qed.
Lemma wp_esp e g m (Q : Z -> cpu -> Prop) E : Q e (mkCpu e g m) -> wp (gets esp) (mkCpu e g m) Q E.
Proof. done. Qed.
Lemma wp_load_at a e g m (Q : Z -> cpu -> Prop) E : Q (load32 m a) (mkCpu e g m) -> wp (load_at a) (mkCpu e g m) Q E.
Proof. done. Qed.

(** One instruction, and code up to a test. *)
Ltac instr := lazymatch goal with
  | |- wp (bind _ _) _ _ _ => apply wp_bind
  | |- wp (push _) _ _ _ => apply wp_push; [try lia|cbv beta]
  | |- wp (pushr _) _ _ _ => apply wp_pushr; [try lia|cbv beta]
  | |- wp pop _ _ _ => apply wp_pop; [try lia|cbv beta]
  | |- wp (popr _) _ _ _ => apply wp_popr; [try lia|cbv beta]
  | |- wp (pops _) _ _ _ => apply wp_pops; [try lia|cbv beta]
  | |- wp (mov _ _) _ _ _ => apply wp_mov; cbv beta
  | |- wp (mov_esp _) _ _ _ => apply wp_mov_esp; cbv beta; try rewrite u32_small by lia
  | |- wp (store_at _ _) _ _ _ => apply wp_store_at; cbv beta
  | |- wp (r _) _ _ _ => apply wp_r; cbv beta
  | |- wp (gets esp) _ _ _ => apply wp_esp; cbv beta
  | |- wp (load_at _) _ _ _ => apply wp_load_at; cbv beta
  | |- wp (ret tt) _ _ _ => step
  end.
Ltac code := repeat instr.
Ltac upds := repeat first [rewrite upd_eq | rewrite upd_ne by discriminate].

(** ** Words on a stack *)

Fixpoint words_at (m : gmap Z Z) (a : Z) (l : list Z) : Prop :=
  match l with [] => True | x :: l => load32 m a = x /\ words_at m (a + 4) l end.

Lemma words_at_ext m m' a l : words_at m a l -> agree m m' a (4 * zlen l) -> words_at m' a l.
Proof.
  revert a. induction l as [|x l IH]; intros a Hw Hag; [done|]. destruct Hw as [Hx Hw]. unfold zlen in *. simpl length in Hag.
  split; [|apply IH; [done|]; intros b Hb; apply Hag; lia].
  rewrite <- Hx. apply load32_ext. intros i Hi. apply Hag. lia.
Qed.

Lemma words_push m a v l : words_at m a l -> 0 <= v < 2 ^ 32 -> words_at (store32 m (a - 4) v) (a - 4) (v :: l).
Proof.
  intros Hw Hv. split; [by rewrite load32_store32_eq, u32_small|]. replace (a - 4 + 4) with a by lia.
  eapply words_at_ext; [exact Hw|]. intros b Hb. apply load8_store32_ne. lia.
Qed.

(** ** swtch *)

(** The context that is left at [ctx]. *)
Definition context (g : reg -> Z) (ra : Z) : list Z := [g EDI; g ESI; g EBX; g EBP; ra].

Definition words32 (g : reg -> Z) : Prop := forall x, 0 <= g x < 2 ^ 32.

Lemma swtch_ok e g m old new : words32 g -> 16 <= e -> e + 12 < 2 ^ 32 -> load32 m (e + 4) = old -> load32 m (e + 8) = new ->
  new + 20 < 2 ^ 32 ->
  returns swtch (mkCpu e g m) (fun _ s' => exists m', cmem s' = m' /\ esp s' = new + 20 /\
    words_at m' new (context (regs s') (regs s' EIP)) /\ load32 m' old = e - 16 /\
    (old + 4 <= e - 16 \/ e + 4 <= old -> words_at m' (e - 16) (context g (load32 m e))) /\
    (forall a, a < e - 16 \/ e <= a -> a < old \/ old + 4 <= a -> load8 m' a = load8 m a)).
Proof.
  intros Hg He1 He2 Ho Hn Hn2. pose proof (load32_range m (e + 8)) as Hr. rewrite Hn in Hr. unfold swtch, ret_, returns.
  do 3 (instr; try instr). rewrite (u32_small (e + 4)), Ho by lia. do 2 instr. instr. instr. rewrite (u32_small (e + 8)), Hn by lia.
  do 2 instr. set (g1 := upd EDX new (upd EAX old g)).
  assert (g1 EBP = g EBP /\ g1 EBX = g EBX /\ g1 ESI = g ESI /\ g1 EDI = g EDI /\ g1 EAX = old /\ g1 EDX = new) as (E1 & E2 & E3 & E4 & E5 & E6)
    by (unfold g1; repeat split; upds; done).
  code. rewrite E1, E2, E3, E4, E5, E6.
  assert (words_at m e [load32 m e]) as W by done.
  apply (words_push _ _ (g EBP)) in W; [|apply Hg]. apply (words_push _ _ (g EBX)) in W; [|apply Hg].
  apply (words_push _ _ (g ESI)) in W; [|apply Hg]. apply (words_push _ _ (g EDI)) in W; [|apply Hg].
  set (m4 := store32 (store32 (store32 _ _ _) _ _) _ _) in *.
  assert (forall a, a < e - 16 \/ e <= a -> load8 m4 a = load8 m a) as Hm4 by (intros a Ha; unfold m4; rewrite !load8_store32_ne by lia; done).
  clearbody m4. replace (e - 4 - 4 - 4 - 4) with (e - 16) in * by lia. set (m5 := store32 m4 old (e - 16)).
  exists m5. cbn [cmem esp regs]. split; [done|]. split; [lia|]. split; [|split; [|split]].
  - unfold context. upds. repeat (split; [done|]). done.
  - unfold m5. by rewrite load32_store32_eq, u32_small by lia.
  - intros Hd. eapply words_at_ext; [exact W|]. intros a Ha. unfold m5. apply load8_store32_ne. unfold context, zlen in Ha. simpl in Ha. lia.
  - intros a H1 H2. unfold m5. rewrite load8_store32_ne by lia. by apply Hm4.
Qed.

(** A process that called swtch goes on when another one switches back to it: with its stack
    and its callee-saved registers, at the instruction after the call.  Meanwhile
    its context has to stay as it is. *)
Theorem swtch_roundtrip s : words32 (regs s) -> 16 <= esp s -> esp s + 12 < 2 ^ 32 ->
  (load32 (cmem s) (esp s + 4) + 4 <= esp s - 16 \/ esp s + 4 <= load32 (cmem s) (esp s + 4)) -> load32 (cmem s) (esp s + 8) + 20 < 2 ^ 32 ->
  returns swtch s (fun _ s1 => load32 (cmem s1) (load32 (cmem s) (esp s + 4)) = esp s - 16 /\
    forall t, words32 (regs t) -> 16 <= esp t -> esp t + 12 < 2 ^ 32 -> load32 (cmem t) (esp t + 8) = esp s - 16 ->
    agree (cmem s1) (cmem t) (esp s - 16) 20 -> (esp t <= esp s - 16 \/ esp s + 4 <= esp t - 16) ->
    (load32 (cmem t) (esp t + 4) + 4 <= esp s - 16 \/ esp s + 4 <= load32 (cmem t) (esp t + 4)) ->
    returns swtch t (fun _ s2 => esp s2 = esp s + 4 /\ regs s2 EIP = load32 (cmem s) (esp s) /\
      forall x, x ∈ [EBX; ESI; EDI; EBP] -> regs s2 x = regs s x)).
Proof.
  destruct s as [e g m]. cbn [esp regs cmem]. intros Hg H1 H2 Hd Hn.
  eapply returns_mono; [by apply (swtch_ok e g m _ _ Hg H1 H2 eq_refl eq_refl)|]. intros [] s1 (m1 & <- & _ & _ & Ho & W & _). split; [done|].
  specialize (W Hd). intros t Ht T1 T2 Hnew Hag Hdis Hold. destruct t as [e' g' m']. cbn [esp regs cmem] in *.
  eapply returns_mono; [apply (swtch_ok e' g' m' _ (e - 16) Ht T1 T2 eq_refl Hnew); lia|]. intros [] s2 (m2 & _ & Es & W2 & _ & _ & Hm).
  assert (words_at m2 (e - 16) (context g (load32 m e))) as W'.
  { eapply words_at_ext; [exact W|]. unfold context, zlen. simpl. intros a Ha. rewrite Hm by lia. by apply Hag. }
  destruct W' as (A1 & A2 & A3 & A4 & A5 & _), W2 as (B1 & B2 & B3 & B4 & B5 & _). split; [lia|]. split; [congruence|].
  intros x Hx. set_unfold. destruct Hx as [->|[->|[->|[->|[]]]]]; congruence.
Qed.

(** ** Returning from a trap *)

(** A register as the struct trapframe at [tf] has it, and the stack pointer. *)
Definition frame_reg (m : gmap Z Z) (tf : Z) (x : reg) : Z :=
  match x with
  | EDI => load32 m tf
  | ESI => load32 m (tf + 4)
  | EBP => load32 m (tf + 8)
  | EBX => load32 m (tf + 16)
  | EDX => load32 m (tf + tf_edx)
  | ECX => load32 m (tf + tf_ecx)
  | EAX => load32 m (tf + tf_eax)
  | GS => u16 (load32 m (tf + 32))
  | FS => u16 (load32 m (tf + 36))
  | ES => u16 (load32 m (tf + tf_es))
  | DS => u16 (load32 m (tf + tf_ds))
  | EIP => load32 m (tf + tf_eip)
  | CS => u16 (load32 m (tf + tf_cs))
  | EFLAGS => load32 m (tf + tf_eflags)
  | SS => u16 (load32 m (tf + tf_ss))
  end.

Ltac tfo := unfold tf_edx, tf_ecx, tf_eax, tf_es, tf_ds, tf_trapno, tf_err, tf_eip, tf_cs, tf_eflags, tf_esp, tf_ss, TF_SIZE in *.

Ltac word_at := tfo; first [done | apply (f_equal (load32 _)); lia | apply (f_equal u16), (f_equal (load32 _)); lia].

(** trapret loads the registers from the frame; back to the kernel the stack stays where it is. *)
Lemma trapret_ok tf g m : 0 <= tf -> tf + TF_SIZE < 2 ^ 32 ->
  returns trapret (mkCpu tf g m) (fun _ s' => cmem s' = m /\
    (if user_mode (frame_reg m tf CS) then esp s' = load32 m (tf + tf_esp) /\ forall x, regs s' x = frame_reg m tf x
     else esp s' = tf + tf_esp /\ forall x, regs s' x = if decide (x = SS) then g SS else frame_reg m tf x)).
Proof.
  intros H0 H1. unfold TF_SIZE in *. unfold trapret, popal, iret, returns. code. upds.
  set (cs := u16 (load32 m _)). assert (cs = frame_reg m tf CS) as <- by (unfold cs; cbn [frame_reg]; do 2 f_equal; tfo; lia).
  destruct (user_mode cs).
  - code. cbn [cmem esp regs]. split; [done|]. split; [f_equal; tfo; lia|].
    intros []; upds; cbn [frame_reg]; word_at.
  - step. cbn [cmem esp regs]. split; [done|]. split; [tfo; lia|].
    intros x. destruct (decide (x = SS)) as [->|Hx]; [by upds|].
    destruct x; try done; upds; cbn [frame_reg]; word_at.
Qed.

#[local] Opaque trapret.

(** ** Entering the kernel *)

(** What a trap handler is called with: the frame at [tf] has the registers [g], the number and
    the error code; the stack is below it and the data segments are the kernel's. *)
Record at_trap (g : reg -> Z) (tf n err : Z) (s : cpu) : Prop := {
  tr_regs x : x <> SS -> frame_reg (cmem s) tf x = g x;
  tr_no : load32 (cmem s) (tf + tf_trapno) = n;
  tr_err : load32 (cmem s) (tf + tf_err) = err;
  tr_esp : esp s = tf - 4;
  tr_data : regs s DS = Z.shiftl SEG_KDATA 3 /\ regs s ES = Z.shiftl SEG_KDATA 3;
  tr_cpu : regs s FS = Z.shiftl SEG_KCPU 3 /\ regs s GS = Z.shiftl SEG_KCPU 3 }.

(** Selectors have 16 bits, the other registers 32. *)
Definition selectors (g : reg -> Z) : Prop :=
  forall x, match x with CS | DS | ES | FS | GS | SS => 0 <= g x < 2 ^ 16 | _ => True end.

Lemma words_at_word m a l o x : words_at m a l -> o mod 4 = 0 -> 0 <= o -> l !! Z.to_nat (o / 4) = Some x -> load32 m (a + o) = x.
Proof.
  intros Hw Ho H0. rewrite (Z_div_exact_full_2 o 4) at 2 by lia. rewrite <- (Z2Nat.id (o / 4)) at 2 by zlia.
  generalize (Z.to_nat (o / 4)). intros i. clear Ho H0. revert a i Hw. induction l as [|y l IH]; intros a i Hw Hi; [by rewrite lookup_nil in Hi|].
  destruct Hw as [Hy Hw]. destruct i as [|i]; simpl in Hi.
  - injection Hi as <-. rewrite <- Hy. f_equal. lia.
  - rewrite <- (IH (a + 4) i Hw Hi). f_equal. lia.
Qed.

Lemma u16_small x : 0 <= x < 2 ^ 16 -> u16 x = x.
Proof. apply Z.mod_small. Qed.

Lemma u16_mix a v : u16 (a / 2 ^ 16 * 2 ^ 16 + u16 v) = u16 v.
Proof. unfold u16. zlia. Qed.

(** The frame above, from the words on the stack. *)
Lemma frame_words m tf g sp n err eip cs fl l : selectors g ->
  words_at m tf ([g EDI; g ESI; g EBP; sp; g EBX; g EDX; g ECX; g EAX; g GS; g FS; g ES; g DS] ++ n :: err :: eip :: cs :: fl :: l) ->
  (forall x, x <> SS -> frame_reg m tf x = match x with EIP => eip | CS => u16 cs | EFLAGS => fl | _ => g x end) /\
  load32 m (tf + tf_trapno) = n /\ load32 m (tf + tf_err) = err.
Proof.
  intros Hs W. assert (forall o x, o mod 4 = 0 -> 0 <= o -> _ !! Z.to_nat (o / 4) = Some x -> load32 m (tf + o) = x) as Hw
    by (intros o x; apply (words_at_word m tf _ o x W)).
  split; [|split; by apply Hw].
  intros [] Hx; cbn [frame_reg]; try (by apply Hw).
  - exact (proj1 W).
  - by rewrite (Hw tf_cs cs).
  - rewrite (Hw tf_ds (g DS)) by done. apply u16_small, (Hs DS).
  - rewrite (Hw tf_es (g ES)) by done. apply u16_small, (Hs ES).
  - rewrite (Hw 36 (g FS)) by done. apply u16_small, (Hs FS).
  - rewrite (Hw 32 (g GS)) by done. apply u16_small, (Hs GS).
  - done.
Qed.

Section enter.
Context (trap : Z -> M cpu unit).

(** alltraps, with the words of the vector and of the processor on the stack. *)
Lemma alltraps_ok e g m n err eip cs fl l (Q : unit -> cpu -> Prop) E : words32 g -> selectors g -> 52 <= e -> e < 2 ^ 32 ->
  words_at m e (n :: err :: eip :: cs :: fl :: l) ->
  (forall s, at_trap (fun x => match x with EIP => eip | CS => u16 cs | EFLAGS => fl | _ => g x end) (e - 48) n err s -> regs s SS = g SS ->
     words_at (cmem s) e (n :: err :: eip :: cs :: fl :: l) -> (forall a, a < e - 52 \/ e <= a -> load8 (cmem s) a = load8 m a) ->
     wp (trap (e - 48)) s (fun _ s' => wp (let! e := gets esp in mov_esp (u32 (e + 4)) ;; trapret) s' Q E) E) ->
  wp (alltraps trap) (mkCpu e g m) Q E.
Proof.
  intros Hg Hs H1 H2 W Ht. pose proof W as W0. unfold alltraps, pushal, movw_ax. code. upds.
  apply (words_push _ _ (g DS)) in W; [|apply Hg]. apply (words_push _ _ (g ES)) in W; [|apply Hg].
  apply (words_push _ _ (g FS)) in W; [|apply Hg]. apply (words_push _ _ (g GS)) in W; [|apply Hg].
  apply (words_push _ _ (g EAX)) in W; [|apply Hg]. apply (words_push _ _ (g ECX)) in W; [|apply Hg].
  apply (words_push _ _ (g EDX)) in W; [|apply Hg]. apply (words_push _ _ (g EBX)) in W; [|apply Hg].
  apply (words_push _ _ (e - 4 - 4 - 4 - 4)) in W; [|lia]. apply (words_push _ _ (g EBP)) in W; [|apply Hg].
  apply (words_push _ _ (g ESI)) in W; [|apply Hg]. apply (words_push _ _ (g EDI)) in W; [|apply Hg].
  set (tf := e - 4 - 4 - 4 - 4 - 4 - 4 - 4 - 4 - 4 - 4 - 4 - 4) in *. assert (tf = e - 48) as Etf by (unfold tf; lia).
  apply (words_push _ _ tf) in W; [|lia]. set (m' := store32 (store32 _ tf _) _ _) in *.
  assert (forall a, a < e - 52 \/ e <= a -> load8 m' a = load8 m a) as Hm by (intros a Ha; unfold m'; rewrite !load8_store32_ne by lia; done).
  clearbody m'. destruct W as [_ W].
  replace (tf - 4 + 4) with tf in W by lia. rewrite <- Etf in Ht. clearbody tf.
  pose proof (frame_words m' tf g _ n err eip cs fl l Hs W) as (F1 & F2 & F3).
  apply Ht; [split; cbn [regs cmem esp]; upds; rewrite ?u16_mix; done|by cbn [regs]; upds| |done].
  destruct W as (_ & _ & _ & _ & _ & _ & _ & _ & _ & _ & _ & _ & W). cbn [cmem].
  match type of W with words_at _ ?a _ => replace e with a by lia end. exact W.
Qed.

(** The vector makes the two kinds of traps alike. *)
Lemma vector_ok e g m n err eip cs fl l (Q : unit -> cpu -> Prop) E : words32 g -> selectors g -> match err with Some _ => 56 | None => 60 end <= e -> e < 2 ^ 32 -> 0 <= n < 256 ->
  match err with Some c => has_err n = true /\ 0 <= c < 2 ^ 32 | None => has_err n = false end ->
  words_at m e (match err with Some c => [c] | None => [] end ++ eip :: cs :: fl :: l) ->
  let tf := e - (match err with Some _ => 52 | None => 56 end) in
  (forall s, at_trap (fun x => match x with EIP => eip | CS => u16 cs | EFLAGS => fl | _ => g x end) tf n (default 0 err) s -> regs s SS = g SS ->
     words_at (cmem s) (tf + tf_eip) (eip :: cs :: fl :: l) -> (forall a, a < tf - 4 \/ e <= a -> load8 (cmem s) a = load8 m a) ->
     wp (trap tf) s (fun _ s' => wp (let! e := gets esp in mov_esp (u32 (e + 4)) ;; trapret) s' Q E) E) ->
  wp (vector trap n) (mkCpu e g m) Q E.
Proof.
  intros Hg Hs H1 H2 Hn He W tf Ht. unfold vector. apply wp_bind. destruct err as [c|].
  - destruct He as [-> Hc]. step. instr. instr. cbn [app] in W. apply (words_push _ _ n) in W; [|lia].
    eapply (alltraps_ok (e - 4) g _ n c eip cs fl l); try done; [lia|lia|].
    replace (e - 4 - 48) with tf by (unfold tf; lia). intros s Hat HS Hw Hm. apply Ht; [done|done| |].
    + destruct Hw as (_ & _ & Hw). by replace (tf + tf_eip) with (e - 4 + 4 + 4) by (unfold tf; tfo; lia).
    + intros a Ha. rewrite Hm by (unfold tf in *; lia). apply load8_store32_ne. unfold tf in *. lia.
  - rewrite He. instr. instr. instr. cbn [app] in W. apply (words_push _ _ 0) in W; [|lia]. apply (words_push _ _ n) in W; [|lia].
    eapply (alltraps_ok (e - 4 - 4) g _ n 0 eip cs fl l); try done; [lia|lia|].
    replace (e - 4 - 4 - 48) with tf by (unfold tf; lia). intros s Hat HS Hw Hm. apply Ht; [done|done| |].
    + destruct Hw as (_ & _ & Hw). by replace (tf + tf_eip) with (e - 4 - 4 + 4 + 4) by (unfold tf; tfo; lia).
    + intros a Ha. rewrite Hm by (unfold tf in *; lia). rewrite !load8_store32_ne by (unfold tf in *; lia). done.
Qed.

(** From user mode, through a gate of tvinit. *)
Context (vectors : Z -> Z).

Lemma tvinit_gate n : 0 <= n < 256 -> gate_cs (tvinit vectors n) = Z.shiftl SEG_KCODE 3 /\ 0 <= gate_offset (tvinit vectors n) < 2 ^ 32 /\
  (gate_type (tvinit vectors n) =? STS_IG32) = negb (n =? T_SYSCALL).
Proof.
  intros Hn. unfold tvinit, upd, gate_offset. pose proof (u32_range (vectors T_SYSCALL)). pose proof (u32_range (vectors n)).
  destruct (decide (n = T_SYSCALL)) as [->|Hne]; cbn [off_15_0 off_31_16 gate_cs gate_type SETGATE];
    change 0xffff with (Z.ones 16); rewrite Z.land_ones, Z.shiftr_div_pow2 by lia.
  - split; [done|]. split; [zlia|done].
  - split; [done|]. split; [zlia|]. by rewrite (proj2 (Z.eqb_neq _ _) Hne).
Qed.

(** The return path, from any state the handler leaves. *)
Lemma after_trap tf s2 : esp s2 = tf - 4 -> 4 <= tf -> tf + TF_SIZE < 2 ^ 32 -> user_mode (frame_reg (cmem s2) tf CS) = true ->
  returns (let! e := gets esp in mov_esp (u32 (e + 4)) ;; trapret) s2 (fun _ s' =>
    cmem s' = cmem s2 /\ esp s' = load32 (cmem s2) (tf + tf_esp) /\ forall x, regs s' x = frame_reg (cmem s2) tf x).
Proof.
  intros He H4 Htf Hu. unfold TF_SIZE in Htf. eapply returns_bind; [apply (returns_gets esp s2 (fun a t => a = tf - 4 /\ t = s2)); done|].
  intros e t [-> ->]. apply returns_modify_bind. rewrite u32_small by lia. replace (tf - 4 + 4) with tf by lia.
  eapply returns_mono; [apply trapret_ok; unfold TF_SIZE; lia|]. intros [] s' [E1 E2]. rewrite Hu in E2. by split.
Qed.

Lemma wp_after_trap tf s2 (Q : unit -> cpu -> Prop) E : esp s2 = tf - 4 -> 4 <= tf -> tf + TF_SIZE < 2 ^ 32 -> user_mode (frame_reg (cmem s2) tf CS) = true ->
  (forall s', cmem s' = cmem s2 /\ esp s' = load32 (cmem s2) (tf + tf_esp) /\ (forall x, regs s' x = frame_reg (cmem s2) tf x) -> Q tt s') ->
  wp (let! e := gets esp in mov_esp (u32 (e + 4)) ;; trapret) s2 Q E.
Proof. intros H1 H2 H3 H4 HQ. eapply wp_mono; [by apply (after_trap tf)| |done]. intros [] s' Hs'. by apply HQ. Qed.

(** The processor's part: the words it pushes, and the registers. *)
Lemma hardware_ok gd ss0 esp0 err e g m (Q : unit -> cpu -> Prop) E : words32 g -> 0 <= e < 2 ^ 32 -> user_mode (g CS) = true -> 24 <= esp0 < 2 ^ 32 ->
  match err with Some c => 0 <= c < 2 ^ 32 | None => True end ->
  (forall g' m', (forall x, match x with SS | CS | EIP | EFLAGS => True | _ => g' x = g x end) -> g' SS = ss0 -> g' CS = gate_cs gd -> g' EIP = gate_offset gd -> 0 <= g' EFLAGS < 2 ^ 32 ->
     let e' := esp0 - (match err with Some _ => 24 | None => 20 end) in
     words_at m' e' (match err with Some c => [c] | None => [] end ++ [g EIP; g CS; g EFLAGS; e; g SS]) ->
     (forall a, a < e' \/ esp0 <= a -> load8 m' a = load8 m a) -> Q tt (mkCpu e' g' m')) ->
  wp (hardware gd ss0 esp0 err) (mkCpu e g m) Q E.
Proof.
  intros Hg He Hu H0 Herr HQ. unfold hardware. do 3 (apply wp_bind; instr). rewrite Hu. code. upds.
  assert (words_at m esp0 []) as W by done.
  apply (words_push _ _ (g SS)) in W; [|apply Hg]. apply (words_push _ _ e) in W; [|lia]. apply (words_push _ _ (g EFLAGS)) in W; [|apply Hg].
  apply (words_push _ _ (g CS)) in W; [|apply Hg]. apply (words_push _ _ (g EIP)) in W; [|apply Hg].
  assert (0 <= Z.land (g EFLAGS) (Z.lnot FL_IF) < 2 ^ 32) as Hfl by (apply (land_below 32); [lia|apply Hg]).
  set (m5 := store32 (store32 (store32 _ _ _) _ _) _ _) in *.
  assert (forall a, a < esp0 - 20 \/ esp0 <= a -> load8 m5 a = load8 m a) as Hm by (intros a Ha; unfold m5; rewrite !load8_store32_ne by lia; done).
  clearbody m5. replace (esp0 - 4 - 4 - 4 - 4 - 4) with (esp0 - 20) in * by lia.
  assert (forall e' m', (forall g', (forall x, match x with SS | CS | EIP | EFLAGS => True | _ => g' x = g x end) -> g' SS = ss0 -> g' CS = gate_cs gd ->
      g' EIP = gate_offset gd -> 0 <= g' EFLAGS < 2 ^ 32 -> Q tt (mkCpu e' g' m')) ->
    wp (mov CS (gate_cs gd) ;; mov EIP (gate_offset gd) ;;
        if gate_type gd =? STS_IG32 then let! f := r EFLAGS in mov EFLAGS (Z.land f (Z.lnot FL_IF)) else ret tt) (mkCpu e' (upd SS ss0 g) m') Q E) as Htail.
  { intros e' m' Hq. code. destruct (gate_type gd =? STS_IG32); code; apply Hq; upds; try done; try (intros []; by upds). }
  destruct err as [c|]; cbn [app] in HQ.
  - apply (words_push _ _ c) in W; [|done]. instr. replace (esp0 - 20 - 4) with (esp0 - 24) in * by lia.
    apply Htail. intros g' R1 R2 R3 R4 R5. apply HQ; try done. intros a Ha. rewrite load8_store32_ne by lia. apply Hm. lia.
  - step. apply Htail. intros g' R1 R2 R3 R4 R5. by apply HQ.
Qed.

(** C14. A trap in user mode, through the gate of tvinit, the vector and alltraps.  [esp0] is the
    stack of the task state; [err] is there exactly for the traps with an error code.
    trap is called with a struct trapframe at the top of that stack which has the registers of the
    program, with the number of the trap, on the stack below it and with the kernel's data
    segments.  However it leaves the frame, if it returns and the frame is
    one of user mode, the program goes on with the registers that are in the frame. *)
Theorem trap_spec s esp0 err n (P : cpu -> Prop) : words32 (regs s) -> selectors (regs s) -> 0 <= esp s < 2 ^ 32 -> user_mode (regs s CS) = true ->
  TF_SIZE + 4 <= esp0 < 2 ^ 32 -> 0 <= n < 256 -> match err with Some c => has_err n = true /\ 0 <= c < 2 ^ 32 | None => has_err n = false end ->
  let tf := esp0 - TF_SIZE in
  (forall s1, at_trap (regs s) tf n (default 0 err) s1 -> load32 (cmem s1) (tf + tf_esp) = esp s -> frame_reg (cmem s1) tf SS = regs s SS ->
     (forall a, a < tf - 4 \/ esp0 <= a -> load8 (cmem s1) a = load8 (cmem s) a) ->
     returns (trap tf) s1 (fun _ s2 => esp s2 = esp s1 /\ user_mode (frame_reg (cmem s2) tf CS) = true /\ P s2)) ->
  returns (interrupt trap (tvinit vectors n) (Z.shiftl SEG_KDATA 3) esp0 err n) s (fun _ s' => exists s2, P s2 /\
    cmem s' = cmem s2 /\ esp s' = load32 (cmem s2) (tf + tf_esp) /\ forall x, regs s' x = frame_reg (cmem s2) tf x).
Proof.
  destruct s as [e g m]. cbn [esp regs cmem]. intros Hg Hs He Hu H0 Hn Herr Ht. set (tf := esp0 - TF_SIZE) in *. unfold TF_SIZE in H0.
  destruct (tvinit_gate n Hn) as (G1 & G2 & _). unfold interrupt, returns. apply wp_bind.
  apply hardware_ok; [done|done|done|lia|by destruct err as [c|]; [apply Herr|]|].
  intros g' m' R1 R2 R3 R4 R5 e' W Hm. rewrite G1 in R3. rewrite <- R4 in G2.
  assert (words32 g') as Hg' by (intros x; pose proof (R1 x) as Hx; destruct x; rewrite ?Hx, ?R2, ?R3; done || apply Hg).
  assert (selectors g') as Hs' by (intros x; pose proof (R1 x) as Hx; pose proof (Hs x); destruct x; rewrite ?Hx, ?R2, ?R3; done).
  assert (e' - match err with Some _ => 52 | None => 56 end = tf) as Etf by (unfold e', tf, TF_SIZE; destruct err; lia).
  eapply (vector_ok e' g' m' n err (g EIP) (g CS) (g EFLAGS) [e; g SS]); try done; [unfold e'; destruct err; lia..|].
  rewrite Etf. intros s1 [T1 T2 T3 T4 T5 T6] _ W1 Hm1.
  assert (forall o x, o mod 4 = 0 -> 0 <= o -> _ !! Z.to_nat (o / 4) = Some x -> load32 (cmem s1) (tf + tf_eip + o) = x) as Hw
    by (intros o x; apply (words_at_word _ _ _ o x W1)).
  assert (load32 (cmem s1) (tf + tf_esp) = e) as E1 by (replace (tf + tf_esp) with (tf + tf_eip + 12) by (tfo; lia); by apply Hw).
  assert (frame_reg (cmem s1) tf SS = g SS) as E2.
  { cbn [frame_reg]. replace (tf + tf_ss) with (tf + tf_eip + 16) by (tfo; lia). rewrite (Hw 16 (g SS)) by done. apply u16_small, (Hs SS). }
  eapply wp_mono; [apply Ht; [|exact E1|exact E2|]| |done].
  - split; try done. intros x Hx. rewrite T1 by done. pose proof (R1 x) as Rx. pose proof (Hs x) as Sx. destruct x; try done. by apply u16_small.
  - intros a Ha. rewrite Hm1, Hm; [done|unfold e', tf, TF_SIZE in *; destruct err; lia..].
  - intros [] s2 (S1 & S2 & S3). apply (wp_after_trap tf); [congruence|unfold tf, TF_SIZE; lia..|done|].
    intros s' Hs2. exists s2. by split.
Qed.
End enter.

(** ** The first process *)

Section first.
Context `{Layout}.
Context (forkret_a trapret_a : Z).

Lemma frame_reg_ext m m' tf x : agree m m' tf TF_SIZE -> frame_reg m' tf x = frame_reg m tf x.
Proof.
  intros Hm. assert (forall o, 0 <= o <= 72 -> load32 m' (tf + o) = load32 m (tf + o)) as Hw.
  { intros o Ho. apply load32_ext. intros i Hi. apply Hm. unfold TF_SIZE. lia. }
  pose proof (Hw 0) as H0. rewrite Z.add_0_r in H0. destruct x; cbn [frame_reg]; tfo; rewrite ?Hw by lia; try done. apply H0. lia.
Qed.

(** The scheduler's call swtch(&cpu->scheduler, proc->context) for a process that never ran, on a
    stack and with a pointer outside of the page of the new stack. *)
Record switch_to (m : gmap Z Z) (ks ctx : Z) (s : cpu) : Prop := {
  st_regs : words32 (regs s);
  st_esp : 16 <= esp s /\ esp s + 12 < 2 ^ 32;
  st_new : load32 (cmem s) (esp s + 8) = ctx;
  st_page : agree m (cmem s) ks PGSIZE;
  st_stack : esp s + 12 <= ks \/ ks + PGSIZE <= esp s - 16;
  st_old : load32 (cmem s) (esp s + 4) + 4 <= ks \/ ks + PGSIZE <= load32 (cmem s) (esp s + 4) }.

(** The frame of the first process, in any memory that has its words. *)
Lemma first_frame_regs m m' tf : frame_ok m tf -> agree m m' tf TF_SIZE ->
  user_mode (frame_reg m' tf CS) = true /\ frame_reg m' tf EIP = 0 /\ load32 m' (tf + tf_esp) = PGSIZE /\ frame_reg m' tf EFLAGS = FL_IF /\
  frame_reg m' tf DS = frame_reg m' tf SS.
Proof.
  intros [F1 F2 F3 F4 F5 F6 F7] Hm. rewrite !(frame_reg_ext m m') by done.
  assert (load32 m' (tf + tf_esp) = load32 m (tf + tf_esp)) as -> by (apply load32_ext; intros i Hi; apply Hm; tfo; lia).
  cbn [frame_reg]. rewrite F1, F2, F4, F5, F6, F7. done.
Qed.

(** A function that returns and leaves its caller's frames alone. *)
Definition c_code (c : M cpu unit) (tf : Z) : Prop := forall s, esp s = tf - 4 ->
  returns c s (fun _ s' => esp s' = esp s /\ agree (cmem s) (cmem s') (tf - 4) (TF_SIZE + 4)).

Theorem first_process_enters initcode k0 k p free forkret_c s : first_proc forkret_a trapret_a initcode k0 k p free ->
  let tf := fld k p o_tf in
  switch_to (mem (km k)) (fld k p o_kstack) (fld k p o_context) s -> c_code forkret_c tf ->
  returns swtch s (fun _ s1 => regs s1 EIP = u32 forkret_a /\
    returns (forkret_c ;; ret_) s1 (fun _ s2 => regs s2 EIP = u32 trapret_a /\
      returns trapret s2 (fun _ s' => user_mode (regs s' CS) = true /\ regs s' EIP = 0 /\ esp s' = PGSIZE /\ regs s' EFLAGS = FL_IF /\
        regs s' DS = regs s' SS))).
Proof.
  intros Hfp tf Hs Hc. destruct (fp_stack _ _ _ _ _ _ _ Hfp) as (K1 & K2 & K3 & K4 & _). fold tf in K1, K2, K3, K4.
  pose proof (fp_page _ _ _ _ _ _ _ Hfp) as Hks. pose proof (fp_frame _ _ _ _ _ _ _ Hfp) as Hff. fold tf in Hff.
  set (ks := fld k p o_kstack) in *. set (ctx := fld k p o_context) in *. clearbody tf ks ctx. apply kpage_range in Hks.
  destruct s as [e g m], Hs as [S1 S2 S3 S4 S5 S6]. cbn [esp regs cmem] in *. unfold KSTACKSIZE, TF_SIZE, CONTEXT_SIZE, ctx_eip, PGSIZE in *.
  eapply returns_mono; [apply (swtch_ok e g m _ ctx S1 (proj1 S2) (proj2 S2) eq_refl S3); unfold KERNBASE, PHYSTOP in *; lia|].
  intros [] s1 (m1 & Em & Ee & (_ & _ & _ & _ & W & _) & _ & _ & Hm).
  assert (agree (mem (km k)) m1 ks 4096) as A1 by (intros a Ha; rewrite Hm by lia; by apply S4). split.
  { rewrite <- K4, <- W. replace (ctx + 4 + 4 + 4 + 4) with (ctx + 16) by lia. symmetry. apply load32_ext. intros i Hi. symmetry. apply A1. lia. }
  eapply returns_bind; [apply Hc; lia|]. intros [] [e2 g2 m2] [E2 A2]. cbn [esp cmem] in E2, A2. rewrite Em in A2. unfold TF_SIZE in A2.
  assert (agree (mem (km k)) m2 (tf - 4) 80) as A3 by (intros a Ha; rewrite A2 by done; apply A1; lia).
  unfold returns, ret_. apply wp_popr; [unfold KERNBASE, PHYSTOP in *; lia|]. cbn [regs]. rewrite upd_eq. split.
  { rewrite <- K3. replace e2 with (tf - 4) by lia. symmetry. apply load32_ext. intros i Hi. symmetry. apply A3. lia. }
  replace (e2 + 4) with tf by lia. eapply returns_mono; [apply trapret_ok; unfold TF_SIZE, KERNBASE, PHYSTOP in *; lia|].
  intros [] s' [_ Hs']. destruct (first_frame_regs _ m2 tf Hff) as (U1 & U2 & U3 & U4 & U5); [intros a Ha; apply A3; unfold TF_SIZE in Ha; lia|].
  rewrite U1 in Hs'. destruct Hs' as [V1 V2]. rewrite !V2, V1. done.
Qed.
End first.

(** ** A system call that returns 7 *)

Definition user_regs (x : reg) : Z :=
  match x with CS => 0x23 | DS | ES | SS => 0x2b | FS | GS => 0 | EIP => 100 | EFLAGS => 0x202 | EAX => 11 | _ => 0 end.

Definition trap7 (tf : Z) : M cpu unit := store_at (tf + tf_eax) 7.

Lemma trap_spec_witness : returns (interrupt trap7 (tvinit (fun i => 0x80106000 + i) 64) (Z.shiftl SEG_KDATA 3) 0x8dfff000 None 64) (mkCpu 0x2fe0 user_regs ∅)
  (fun _ s' => regs s' EAX = 7 /\ regs s' EIP = 100 /\ esp s' = 0x2fe0).
Proof.
  eapply returns_mono.
  - apply (trap_spec trap7 (fun i => 0x80106000 + i) (mkCpu 0x2fe0 user_regs ∅) 0x8dfff000 None 64
      (fun s2 => let m := cmem s2 in let tf := 0x8dfff000 - TF_SIZE in
         frame_reg m tf EAX = 7 /\ frame_reg m tf EIP = 100 /\ load32 m (tf + tf_esp) = 0x2fe0)).
    + intros []; by vm_compute.
    + intros []; by vm_compute.
    + by vm_compute.
    + reflexivity.
    + by vm_compute.
    + by vm_compute.
    + reflexivity.
    + intros s1 Hat Hsp _ _. pose proof (tr_regs _ _ _ _ _ Hat EIP) as Hip. pose proof (tr_regs _ _ _ _ _ Hat CS) as Hcs.
      split; [done|]. cbn [cmem frame_reg] in *. tfo. rewrite load32_store32_eq. rewrite !load32_store32_ne by lia.
      rewrite Hip, Hcs, Hsp by done. done.
  - intros [] s' (s2 & (P1 & P2 & P3) & _ & E1 & E2). rewrite !E2. split; [exact P1|]. split; [exact P2|]. rewrite E1. exact P3.
Defined.
