(* ===== verification/Umalloc.v ===== *)
(** * The allocator of user programs

    free, morecore and malloc (umalloc.c), on the memory of a process.  A header is two
    words, the address of the next free block and the size in headers; [BASE] is the
    address of the static header [base]. *)

From Stdlib Require Import Sorting.Sorted.
From S2P Require Import Prelude Mmu Memory.

(** ** The memory of a program *)

Record prog := mkProg {
  um : gmap Z Z;
  freep : Z;
  brk : Z }.

Definition set_um (m : gmap Z Z) (u : prog) : prog := mkProg m (freep u) (brk u).
Definition set_freep (p : Z) (u : prog) : prog := mkProg (um u) p (brk u).

Definition ld (a : Z) : M prog Z := gets (fun u => load32 (um u) a).
Definition st (a v : Z) : M prog unit := modify (fun u => set_um (store32 (um u) a v) u).

(** Header pointers. *)
Definition HDR : Z := 8.
Definition hplus (p n : Z) : Z := u32 (p + HDR * n).
Definition s_ptr (p : Z) : Z := p.
Definition s_size (p : Z) : Z := p + 4.

Section umalloc.
(** [grow sz n]: the kernel has the memory to make a process of [sz] bytes [n] larger. *)
Context (BASE : Z) (grow : Z -> Z -> bool) (fuel : nat).

(** The system call: the size of the process changes, new pages are zero. *)
Definition sbrk (n : Z) : M prog Z := fun u =>
  let sz := brk u in
  if 0 <? n then
    if (KERNBASE <=? sz + n) || negb (grow sz n) then Done (u32 (-1)) u
    else
      let m := memset (um u) (PGROUNDUP sz) 0 (PGROUNDUP (sz + n) - PGROUNDUP sz) in
      Done sz (mkProg m (freep u) (sz + n))
  else if n <? 0 then
    let newsz := u32 (sz + n) in
    if sz <=? newsz then Done sz u
    else if newsz =? 0 then Done (u32 (-1)) u
    else Done sz (mkProg (um u) (freep u) newsz)
  else Done sz u.

(** ** The functions *)

(** The search for the place of [bp] in the list. *)
Fixpoint free_scan (n : nat) (bp p : Z) : M prog Z :=
  match n with
  | O => halt Diverged
  | S n =>
      let! q := ld (s_ptr p) in
      if (p <? bp) && (bp <? q) then ret p
      else if (q <=? p) && ((p <? bp) || (bp <? q)) then ret p
      else free_scan n bp q
  end.

(** [bp] is put before [p->s.ptr], joined with it when they touch. *)
Definition join_next (bp p : Z) : M prog unit :=
  let! size := ld (s_size bp) in
  let! next := ld (s_ptr p) in
  if hplus bp size =? next then
    let! nsize := ld (s_size next) in
    st (s_size bp) (size + nsize) ;;
    let! next := ld (s_ptr p) in
    let! nnext := ld (s_ptr next) in
    st (s_ptr bp) nnext
  else st (s_ptr bp) next.

(** [p] is followed by [bp], or joined with it. *)
Definition join_prev (bp p : Z) : M prog unit :=
  let! psize := ld (s_size p) in
  if hplus p psize =? bp then
    let! size := ld (s_size bp) in
    st (s_size p) (psize + size) ;;
    let! next := ld (s_ptr bp) in
    st (s_ptr p) next
  else st (s_ptr p) bp.

Definition free (ap : Z) : M prog unit :=
  let bp := u32 (ap - HDR) in
  let! fp := gets freep in
  let! p := free_scan fuel bp fp in
  join_next bp p ;;
  join_prev bp p ;;
  modify (set_freep p).

Definition morecore (nu : Z) : M prog Z :=
  let nu := if nu <? 4096 then 4096 else nu in
  let! p := sbrk (s32 (nu * HDR)) in
  if p =? u32 (-1) then ret 0
  else
    st (s_size p) nu ;;
    free (p + HDR) ;;
    gets freep.

(** Taking [nunits] headers from the block [p]. *)
Definition take_block (nunits prevp p size : Z) : M prog Z :=
  let! p :=
    if size =? nunits then
      let! next := ld (s_ptr p) in
      st (s_ptr prevp) next ;;
      ret p
    else
      st (s_size p) (size - nunits) ;;
      let! size := ld (s_size p) in
      let p := hplus p size in
      st (s_size p) nunits ;;
      ret p in
  modify (set_freep prevp) ;;
  ret (u32 (p + HDR)).

Fixpoint malloc_loop (n : nat) (nunits prevp p : Z) : M prog Z :=
  match n with
  | O => halt Diverged
  | S n =>
      let! size := ld (s_size p) in
      if nunits <=? size then take_block nunits prevp p size
      else
        let! fp := gets freep in
        if p =? fp then
          let! p := morecore nunits in
          if p =? 0 then ret 0
          else
            let! next := ld (s_ptr p) in
            malloc_loop n nunits p next
        else
          let! next := ld (s_ptr p) in
          malloc_loop n nunits p next
  end.

Definition malloc (nbytes : Z) : M prog Z :=
  let nunits := u32 (nbytes + HDR - 1) / HDR + 1 in
  let! prevp := gets freep in
  let! prevp :=
    if prevp =? 0 then
      st (s_ptr BASE) BASE ;;
      modify (set_freep BASE) ;;
      st (s_size BASE) 0 ;;
      ret BASE
    else ret prevp in
  let! p := ld (s_ptr prevp) in
  malloc_loop fuel nunits prevp p.
End umalloc.

(** ** The heap as a sequence of blocks *)

(** A block: its size in headers, and whether the program has it. *)
Fixpoint span (bs : list (Z * bool)) : Z :=
  match bs with [] => 0 | (n, _) :: bs => HDR * n + span bs end.

(** The free blocks, and the blocks in use, of a heap that starts at [a]. *)
Fixpoint frees (a : Z) (bs : list (Z * bool)) : list Z :=
  match bs with
  | [] => []
  | (n, used) :: bs => (if used then [] else [a]) ++ frees (a + HDR * n) bs
  end.
Fixpoint live (a : Z) (bs : list (Z * bool)) : list (Z * Z) :=
  match bs with
  | [] => []
  | (n, used) :: bs => (if used then [(a, n)] else []) ++ live (a + HDR * n) bs
  end.

(** Adjacent free blocks joined. *)
Definition join (b : Z * bool) (bs : list (Z * bool)) : list (Z * bool) :=
  match b, bs with
  | (n, false), (n', false) :: bs => (n + n', false) :: bs
  | _, _ => b :: bs
  end.
Fixpoint coalesce (bs : list (Z * bool)) : list (Z * bool) :=
  match bs with [] => [] | b :: bs => join b (coalesce bs) end.

(** The sizes are in the headers. *)
Fixpoint headers (m : gmap Z Z) (a : Z) (bs : list (Z * bool)) : Prop :=
  match bs with
  | [] => True
  | (n, _) :: bs => 1 <= n /\ load32 m (s_size a) = n /\ headers m (a + HDR * n) bs
  end.

(** Each of [l] points to the next, the last to [e]. *)
Fixpoint links (m : gmap Z Z) (l : list Z) (e : Z) : Prop :=
  match l with
  | [] => True
  | a :: l => load32 m (s_ptr a) = hd e l /\ links m l e
  end.

Lemma span_app l1 l2 : span (l1 ++ l2) = span l1 + span l2.
Proof. induction l1 as [|[n u] l1 IH]; simpl; lia. Qed.

Lemma frees_app a l1 l2 : frees a (l1 ++ l2) = frees a l1 ++ frees (a + span l1) l2.
Proof.
  revert a. induction l1 as [|[n u] l1 IH]; intros a; simpl; [by rewrite Z.add_0_r|].
  rewrite IH, app_assoc. do 2 f_equal. lia.
Qed.

Lemma live_app a l1 l2 : live a (l1 ++ l2) = live a l1 ++ live (a + span l1) l2.
Proof.
  revert a. induction l1 as [|[n u] l1 IH]; intros a; simpl; [by rewrite Z.add_0_r|].
  rewrite IH, app_assoc. do 2 f_equal. lia.
Qed.

Lemma headers_app m a l1 l2 : headers m a (l1 ++ l2) <-> headers m a l1 /\ headers m (a + span l1) l2.
Proof.
  revert a. induction l1 as [|[n u] l1 IH]; intros a; simpl; [rewrite Z.add_0_r; tauto|].
  rewrite IH. replace (a + HDR * n + span l1) with (a + (HDR * n + span l1)) by lia. tauto.
Qed.

Lemma links_app m l1 l2 e : links m (l1 ++ l2) e <-> links m l1 (hd e l2) /\ links m l2 e.
Proof. induction l1 as [|a l1 IH]; simpl; [tauto|]. rewrite IH. destruct l1; simpl; tauto. Qed.

Lemma headers_span m a bs : headers m a bs -> 0 <= span bs.
Proof. revert a. induction bs as [|[n u] bs IH]; intros a; simpl; [lia|]. intros (? & _ & H). apply IH in H. unfold HDR. lia. Qed.

Lemma headers_agree m m' a bs : headers m a bs -> agree m m' a (span bs) -> headers m' a bs.
Proof.
  revert a. induction bs as [|[n u] bs IH]; intros a; simpl; [done|]. intros (Hn & Hs & Hh) Hag.
  pose proof (headers_span _ _ _ Hh). unfold HDR, s_size in *. split; [done|]. split.
  - rewrite <- Hs. apply load32_ext. intros i Hi. apply Hag. lia.
  - apply IH; [done|]. intros x Hx. apply Hag. lia.
Qed.

Lemma frees_bounds m a bs x : headers m a bs -> x ∈ frees a bs -> a <= x /\ x + HDR <= a + span bs.
Proof.
  revert a. induction bs as [|[n u] bs IH]; intros a; simpl; [by intros _ Hx%elem_of_nil|].
  intros (Hn & _ & Hh) Hx. pose proof (headers_span _ _ _ Hh). unfold HDR in *.
  apply elem_of_app in Hx as [Hx|Hx].
  - destruct u; [by apply elem_of_nil in Hx|]. apply list_elem_of_singleton in Hx as ->. lia.
  - apply IH in Hx; [lia|done].
Qed.

Lemma live_bounds m a bs x n : headers m a bs -> (x, n) ∈ live a bs ->
  a <= x /\ x + HDR * n <= a + span bs /\ 1 <= n /\ load32 m (s_size x) = n.
Proof.
  revert a. induction bs as [|[n' u] bs IH]; intros a; simpl; [by intros _ Hx%elem_of_nil|].
  intros (Hn & Hs & Hh) Hx. pose proof (headers_span _ _ _ Hh). unfold HDR in *.
  apply elem_of_app in Hx as [Hx|Hx].
  - destruct u; [|by apply elem_of_nil in Hx]. apply list_elem_of_singleton in Hx as [= -> ->]. lia.
  - apply IH in Hx; [|done]. naive_solver lia.
Qed.

Lemma links_agree m m' l e : links m l e -> (forall x, x ∈ l -> load32 m' (s_ptr x) = load32 m (s_ptr x)) -> links m' l e.
Proof.
  induction l as [|a l IH]; simpl; [done|]. intros [H1 H2] Hag. split.
  - rewrite Hag; [done|]. apply elem_of_cons. by left.
  - apply IH; [done|]. intros x Hx. apply Hag, elem_of_cons. by right.
Qed.

(** ** No two adjacent free blocks *)

Fixpoint no_ff (l : list bool) : Prop :=
  match l with
  | x :: (y :: _) as l => (x = true \/ y = true) /\ no_ff l
  | _ => True
  end.
Definition norm (bs : list (Z * bool)) : Prop := no_ff (map snd bs).

Lemma no_ff_mid l1 x l2 : no_ff (l1 ++ x :: l2) <-> no_ff (l1 ++ [x]) /\ no_ff (x :: l2).
Proof.
  induction l1 as [|y l1 IH]; [simpl; tauto|].
  destruct l1 as [|z l1]; [simpl; tauto|]. cbn [app no_ff] in *. tauto.
Qed.

Lemma no_ff_true l : no_ff (true :: l) <-> no_ff l.
Proof. destruct l; simpl; tauto. Qed.

Lemma no_ff_snoc_true l : no_ff (l ++ [true]) <-> no_ff l.
Proof.
  induction l as [|y l IH]; [simpl; tauto|].
  destruct l as [|z l]; [simpl; tauto|]. cbn [app no_ff] in *. tauto.
Qed.

Lemma no_ff_app f1 f2 : no_ff (f1 ++ f2) -> no_ff f1 /\ no_ff f2.
Proof.
  induction f1 as [|x f1 IH]; [done|]. intros Hn. destruct f1 as [|y f1]; cbn [app] in *.
  - split; [done|]. destruct f2; [done|]. apply Hn.
  - destruct Hn as [Hxy Hn]. destruct (IH Hn). split; [by split|done].
Qed.

Lemma norm_app l1 l2 : norm (l1 ++ l2) -> norm l1 /\ norm l2.
Proof. unfold norm. rewrite map_app. apply no_ff_app. Qed.

Lemma norm_coalesce bs : norm bs -> coalesce bs = bs.
Proof.
  induction bs as [|[n u] bs IH]; [done|]. intros Hn. simpl.
  rewrite IH; [|by apply (norm_app [(n, u)])]. destruct u; [done|].
  destruct bs as [|[n' [|]] bs]; [done|done|]. destruct Hn as [[[=]|[=]] _].
Qed.

Lemma coalesce_norm bs : norm (coalesce bs).
Proof.
  induction bs as [|[n u] bs IH]; [done|]. simpl. destruct (coalesce bs) as [|[n' u'] l]; [by destruct u|].
  destruct u, u'; simpl; [by apply no_ff_true|by apply no_ff_true| |done].
  split; [by right|done].
Qed.

Lemma coalesce_app l1 l2 : coalesce (l1 ++ l2) = coalesce (l1 ++ coalesce l2).
Proof.
  induction l1 as [|b l1 IH]; simpl; [|by rewrite IH].
  symmetry. apply norm_coalesce, coalesce_norm.
Qed.

(** Joining with the block behind, and with the block before. *)
Lemma coalesce_next pre n n2 post : norm ((n2, false) :: post) ->
  coalesce (pre ++ (n, false) :: (n2, false) :: post) = coalesce (pre ++ (n + n2, false) :: post).
Proof.
  intros Hn. rewrite coalesce_app, (coalesce_app pre ((n + n2, false) :: post)). do 2 f_equal.
  change (join (n, false) (coalesce ((n2, false) :: post)) = join (n + n2, false) (coalesce post)).
  rewrite (norm_coalesce _ Hn). rewrite (norm_coalesce post) by by apply (norm_app [(n2, false)]).
  destruct post as [|[n' [|]] post]; [done|done|]. destruct Hn as [[[=]|[=]] _].
Qed.

(** Free blocks are in order, with room for a header between their addresses. *)
Definition apart (x y : Z) : Prop := x + HDR <= y.

Lemma frees_apart m a bs : headers m a bs -> StronglySorted apart (frees a bs).
Proof.
  revert a. induction bs as [|[n u] bs IH]; intros a; simpl; [constructor|].
  intros (Hn & _ & Hh). destruct u; [by apply IH|]. simpl. constructor; [by apply IH|].
  apply Forall_forall. intros x Hx. apply (frees_bounds m) in Hx; [|done]. unfold apart, HDR in *. lia.
Qed.

Lemma apart_sorted l : StronglySorted apart l -> StronglySorted Z.lt l.
Proof.
  induction 1 as [|x l Hs IH Hf]; constructor; [done|]. eapply Forall_impl; [exact Hf|].
  intros y Hy. unfold apart, HDR in Hy. lia.
Qed.

Lemma sorted_before (R : Z -> Z -> Prop) (l1 l2 : list Z) x z : StronglySorted R (l1 ++ x :: l2) -> z ∈ l1 -> R z x.
Proof.
  intros Hs Hz. apply list_elem_of_split in Hz as (X & Y & ->). rewrite <- app_assoc in Hs.
  induction X as [|y X IH]; [|apply IH, (StronglySorted_inv Hs)].
  apply StronglySorted_inv in Hs as [_ Hf]. eapply Forall_forall in Hf; [exact Hf|].
  rewrite elem_of_app, elem_of_cons. by right; left.
Qed.

Lemma sorted_next (l1 l2 : list Z) x y : StronglySorted Z.lt (l1 ++ x :: y :: l2) -> x < y.
Proof.
  intros Hs. induction l1 as [|z l1 IH]; simpl in *; [|apply IH, (StronglySorted_inv Hs)].
  apply StronglySorted_inv in Hs as [_ Hf]. by apply Forall_cons in Hf as [? _].
Qed.

(** ** Walking the list *)

Definition stops (bp p q : Z) : bool :=
  ((p <? bp) && (bp <? q)) || ((q <=? p) && ((p <? bp) || (bp <? q))).

Lemma scan_walk n bp u x e l1 : links (um u) (l1 ++ [x]) e ->
  (forall z, z ∈ l1 -> stops bp z (load32 (um u) (s_ptr z)) = false) ->
  stops bp x (load32 (um u) (s_ptr x)) = true -> (length l1 < n)%nat ->
  free_scan n bp (hd x l1) u = Done x u.
Proof.
  revert n. induction l1 as [|z l1 IH]; intros n Hl Hno Hx Hn; (destruct n as [|n]; [simpl in Hn; lia|]);
    cbn [free_scan hd]; unfold bind, ld at 1, gets; cbv beta iota.
  - unfold stops in Hx. destruct (_ && _); [done|]. simpl in Hx. by rewrite Hx.
  - cbn [app links] in Hl. destruct Hl as [Hz Hl]. specialize (Hno z) as Hnz. rewrite Hz in *.
    unfold stops in Hnz. destruct (_ && _); [discriminate Hnz; apply elem_of_cons; by left|]. simpl in Hnz.
    rewrite Hnz by (apply elem_of_cons; by left).
    assert (hd e (l1 ++ [x]) = hd x l1) as -> by by destruct l1.
    apply IH; [done| |done|simpl in Hn; lia]. intros y Hy. apply Hno, elem_of_cons. by right.
Qed.

Definition ring (m : gmap Z Z) (l : list Z) : Prop := links m l (hd 0 l).

Lemma ring_rot m l1 l2 : ring m (l1 ++ l2) -> ring m (l2 ++ l1).
Proof.
  unfold ring. rewrite !links_app. destruct l1 as [|a l1], l2 as [|b l2]; simpl; rewrite ?app_nil_r; tauto.
Qed.

(** From any node of a ring every other is reached, through the ones between. *)
Lemma ring_walk m l fp p : NoDup l -> ring m l -> fp ∈ l -> p ∈ l ->
  exists l1 e, links m (l1 ++ [p]) e /\ hd p l1 = fp /\ (length l1 < length l)%nat /\
    forall z, z ∈ l1 -> z ∈ l /\ z <> p.
Proof.
  intros Hnd Hr Hfp Hp. apply list_elem_of_split in Hfp as (X & Y & ->).
  apply ring_rot in Hr. assert (X ++ fp :: Y ≡ₚ (fp :: Y) ++ X) as HP by apply Permutation_app_comm.
  rewrite HP in Hnd, Hp. pose proof (Permutation_length HP) as Hlen.
  apply list_elem_of_split in Hp as (l1 & l2 & E). rewrite E in Hnd, Hr, Hlen.
  assert (l1 ++ p :: l2 = (l1 ++ [p]) ++ l2) as E2 by by rewrite <- app_assoc.
  unfold ring in Hr. rewrite E2, links_app in Hr. eexists l1, _. split; [apply Hr|].
  rewrite Hlen, length_app. split; [|split; [cbn [length]; lia|]].
  - destruct l1; simpl in E; by injection E.
  - intros z Hz. split.
    + rewrite HP, E. apply elem_of_app. by left.
    + intros ->. apply NoDup_app in Hnd as (_ & Hn & _). apply (Hn p Hz), elem_of_cons. by left.
Qed.

(** The place of [b] is found: only the last node before it stops the search. *)
Lemma stops_spec m l1 p l2 b : StronglySorted Z.lt (l1 ++ p :: l2) -> ring m (l1 ++ p :: l2) ->
  p < b -> (forall z, z ∈ l2 -> b < z) ->
  stops b p (load32 m (s_ptr p)) = true /\
  forall z, z ∈ l1 ++ p :: l2 -> z <> p -> stops b z (load32 m (s_ptr z)) = false.
Proof.
  intros Hs Hr Hp H2. set (h := hd 0 (l1 ++ p :: l2)).
  assert (forall A z B, l1 ++ p :: l2 = A ++ z :: B -> load32 m (s_ptr z) = hd h B) as Hnext.
  { intros A z B E. unfold ring in Hr. fold h in Hr. rewrite E, links_app in Hr. apply Hr. }
  assert (forall z, z ∈ l1 -> z < p) as H1.
  { intros z Hz. by apply (sorted_before _ _ _ _ _ Hs). }
  assert (h <= p) as Hh.
  { unfold h. destruct l1 as [|x l1]; simpl; [lia|]. specialize (H1 x ltac:(apply elem_of_cons; by left)). lia. }
  unfold stops. split.
  - rewrite (Hnext l1 p l2 eq_refl). destruct l2 as [|y l2]; simpl.
    + rewrite (proj2 (Z.leb_le h p)), (proj2 (Z.ltb_lt p b)) by lia. by rewrite orb_true_r.
    + specialize (H2 y ltac:(apply elem_of_cons; by left)).
      by rewrite (proj2 (Z.ltb_lt p b)), (proj2 (Z.ltb_lt b y)) by lia.
  - intros z Hz Hne. rewrite elem_of_app, elem_of_cons in Hz.
    assert (exists y, load32 m (s_ptr z) = y /\ ((z < y <= p) \/ (b < z /\ (y <= p \/ z < y)))) as (y & -> & Hy).
    { destruct Hz as [Hz|[Hz|Hz]]; [|done|]; pose proof Hz as Hz'; apply list_elem_of_split in Hz as (X & Y & E).
      - exists (hd h (Y ++ p :: l2)). split; [apply (Hnext X); by rewrite E, <- app_assoc|]. left.
        destruct Y as [|y Y]; simpl; [specialize (H1 z Hz'); lia|].
        rewrite E, <- app_assoc in Hs. cbn [app] in Hs. apply sorted_next in Hs.
        specialize (H1 y). rewrite E in H1. specialize (H1 ltac:(set_solver)). lia.
      - exists (hd h Y). split; [apply (Hnext (l1 ++ p :: X)); by rewrite E, <- app_assoc|]. right.
        split; [by apply H2|]. destruct Y as [|y Y]; simpl; [by left|]. right.
        rewrite E in Hs. change (p :: X ++ z :: y :: Y) with ((p :: X) ++ z :: y :: Y) in Hs.
        rewrite app_assoc in Hs. by apply sorted_next in Hs. }
    destruct (Z.ltb_spec z b), (Z.ltb_spec b y), (Z.leb_spec y z); simpl; done || lia.
Qed.

(** ** The invariant of the heap *)

Section heap.
Context (BASE H0 : Z).

(** The blocks cover the memory from [H0] to the break; the free ones and [base] are a
    ring in the order of their addresses, and no two of them touch. *)
Record heap (u : prog) (bs : list (Z * bool)) : Prop := {
  h_base : 0 < BASE /\ BASE + HDR <= H0;
  h_brk : brk u = H0 + span bs /\ H0 + span bs < KERNBASE;
  h_hdr : headers (um u) H0 bs;
  h_bsize : load32 (um u) (s_size BASE) = 0;
  h_ring : ring (um u) (BASE :: frees H0 bs);
  h_freep : freep u ∈ BASE :: frees H0 bs;
  h_norm : norm bs }.

Lemma ring_apart m bs : BASE + HDR <= H0 -> headers m H0 bs -> StronglySorted apart (BASE :: frees H0 bs).
Proof.
  intros HB Hh. constructor; [by apply (frees_apart m)|]. apply Forall_forall. intros x Hx.
  apply (frees_bounds m) in Hx; [|done]. unfold apart. lia.
Qed.

Lemma frees_elem a bs x : x ∈ frees a bs -> exists bs1 n bs2, bs = bs1 ++ (n, false) :: bs2 /\ x = a + span bs1.
Proof.
  revert a. induction bs as [|[n u] bs IH]; intros a; simpl; [by intros Hx%elem_of_nil|].
  intros Hx. apply elem_of_app in Hx as [Hx|Hx].
  - destruct u; [by apply elem_of_nil in Hx|]. apply list_elem_of_singleton in Hx as ->.
    exists [], n, bs. split; [done|]. simpl. lia.
  - apply IH in Hx as (bs1 & n' & bs2 & -> & ->). exists ((n, u) :: bs1), n', bs2. split; [done|]. simpl. lia.
Qed.

(** A free block ends where the next block begins. *)
Lemma free_size m a bs x : headers m a bs -> x ∈ frees a bs ->
  1 <= load32 m (s_size x) /\ x + HDR * load32 m (s_size x) <= a + span bs.
Proof.
  intros Hh Hx. apply frees_elem in Hx as (bs1 & n & bs2 & -> & ->).
  apply headers_app in Hh as [_ Hh]. simpl in Hh. destruct Hh as (Hn & Hs & Hh). apply headers_span in Hh.
  rewrite Hs, span_app. simpl. lia.
Qed.

(** What join_next leaves: the block [b] has [n'] headers and points to the next free block. *)
Record joined (m m1 : gmap Z Z) (b n : Z) (post : list (Z * bool)) (n' : Z) (post' : list (Z * bool)) : Prop := {
  jn_ptr : load32 m1 (s_ptr b) = hd BASE (frees (b + HDR * n') post');
  jn_size : load32 m1 (s_size b) = n';
  jn_out a : a < b \/ b + HDR <= a -> load8 m1 a = load8 m a;
  jn_n : 1 <= n';
  jn_span : HDR * n' + span post' = HDR * n + span post;
  jn_hdr : headers m1 (b + HDR * n') post';
  jn_links : links m1 (frees (b + HDR * n') post') BASE;
  jn_norm : norm ((n', false) :: post');
  jn_coalesce pre : coalesce (pre ++ (n, false) :: post) = coalesce (pre ++ (n', false) :: post');
  jn_live : live (b + HDR * n') post' = live (b + HDR * n) post }.

Lemma joined_intro m m1 b n post n' post' : 1 <= n' ->
  (forall a, a < b \/ b + HDR <= a -> load8 m1 a = load8 m a) ->
  load32 m1 (s_ptr b) = hd BASE (frees (b + HDR * n') post') -> load32 m1 (s_size b) = n' ->
  headers m (b + HDR * n') post' -> links m (frees (b + HDR * n') post') BASE ->
  HDR * n' + span post' = HDR * n + span post -> norm ((n', false) :: post') ->
  (forall pre, coalesce (pre ++ (n, false) :: post) = coalesce (pre ++ (n', false) :: post')) ->
  live (b + HDR * n') post' = live (b + HDR * n) post ->
  joined m m1 b n post n' post'.
Proof.
  intros Hn Hout Hp Hs Hh Hl Hspan Hnorm Hc Hlv. split; try done.
  - eapply headers_agree; [done|]. intros a Ha. apply Hout. unfold HDR in *. lia.
  - eapply links_agree; [done|]. intros x Hx. destruct (frees_bounds _ _ _ _ Hh Hx) as [Hx1 _].
    apply load32_ext. intros i Hi. apply Hout. unfold HDR, s_ptr in *. lia.
Qed.

(** The next free block is the next block, or further on. *)
Lemma next_free m a post : headers m a post -> BASE < a ->
  match post with
  | (n2, false) :: post' => hd BASE (frees a post) = a
  | _ => hd BASE (frees a post) <> a
  end.
Proof.
  intros Hh HB. destruct post as [|[n2 [|]] post]; simpl in *; [lia| |done].
  destruct Hh as (Hn & _ & Hh). destruct (frees (a + HDR * n2) post) as [|y F] eqn:EF; simpl; [lia|].
  destruct (frees_bounds _ _ _ y Hh) as [? _]; [rewrite EF; apply elem_of_cons; by left|]. unfold HDR in *. lia.
Qed.

Lemma norm_cons_free n post : norm post -> (forall n2 post', post <> (n2, false) :: post') -> norm ((n, false) :: post).
Proof.
  intros Hn Hp. destruct post as [|[n2 [|]] post]; [done| |by destruct (Hp n2 post)].
  split; [by right|done].
Qed.

Lemma join_next_ok u b p n post : 0 < b -> 0 <= p -> p + HDR <= b -> BASE < b -> 1 <= n ->
  load32 (um u) (s_size b) = n -> headers (um u) (b + HDR * n) post ->
  b + HDR * n + span post < KERNBASE -> norm post ->
  load32 (um u) (s_ptr p) = hd BASE (frees (b + HDR * n) post) -> links (um u) (frees (b + HDR * n) post) BASE ->
  returns (join_next b p) u (fun _ u' => exists m1 n' post', u' = set_um m1 u /\ joined (um u) m1 b n post n' post').
Proof.
  intros Hb Hp0 Hpb HBb Hn Hsz Hh Hend Hnorm Hp Hl. unfold join_next, ld, st, hplus. steps. rewrite Hsz.
  pose proof (headers_span _ _ _ Hh). unfold KERNBASE in Hend. rewrite (u32_small (b + _)) by (unfold HDR in *; lia).
  pose proof (next_free _ _ _ Hh ltac:(unfold HDR in *; lia)) as Hnf. rewrite Hp.
  destruct (Z.eqb_spec (b + HDR * n) (hd BASE (frees (b + HDR * n) post))) as [E|E].
  - destruct post as [|[n2 [|]] post]; [congruence..|]. rewrite Hnf in *. clear E.
    simpl in Hh, Hl, Hend. destruct Hh as (Hn2 & Hs2 & Hh). destruct Hl as [Hl1 Hl2].
    pose proof (headers_span _ _ _ Hh) as Hsp. steps. rewrite Hs2. unfold s_ptr, s_size in *.
    cbn [um set_um]. rewrite (load32_store32_ne _ _ _ p), Hp by (unfold HDR in *; lia).
    rewrite (load32_store32_ne _ _ _ (b + HDR * n)), Hl1 by (unfold HDR in *; lia).
    replace (b + HDR * n + HDR * n2) with (b + HDR * (n + n2)) in * by lia.
    set (m1 := store32 (store32 _ _ _) _ _). exists m1, (n + n2), post. split; [done|].
    apply joined_intro; unfold s_ptr, s_size; [lia| | | |done|done| | | |].
    + intros a Ha. unfold m1. rewrite !load8_store32_ne by (unfold HDR in *; lia). done.
    + unfold m1. rewrite load32_store32_eq. apply u32_small. rewrite <- Hl1. apply load32_range.
    + unfold m1. rewrite load32_store32_ne, load32_store32_eq by lia. apply u32_small. unfold HDR in *. lia.
    + simpl. lia.
    + exact Hnorm.
    + intros pre. by apply coalesce_next.
    + simpl. f_equal. lia.
  - steps. set (m1 := store32 _ _ _). exists m1, n, post. split; [done|].
    apply joined_intro; unfold s_ptr, s_size; [done| | | |done|done|done| |done|done].
    + intros a Ha. unfold m1. rewrite !load8_store32_ne by (unfold HDR, s_ptr in *; lia). done.
    + unfold m1. rewrite load32_store32_eq. apply u32_small. rewrite <- Hp. apply load32_range.
    + unfold m1. rewrite load32_store32_ne by (unfold s_ptr; lia). exact Hsz.
    + apply norm_cons_free; [done|]. intros n2 post' ->. by rewrite Hnf in E.
Qed.

Lemma live_coalesce a bs : live a (coalesce bs) = live a bs.
Proof.
  revert a. induction bs as [|[n u] bs IH]; intros a; [done|]. simpl. rewrite <- IH.
  destruct u; [done|]. destruct (coalesce bs) as [|[n' [|]] l]; [done|done|].
  simpl. f_equal. unfold HDR. lia.
Qed.

Lemma span_coalesce bs : span (coalesce bs) = span bs.
Proof.
  induction bs as [|[n u] bs IH]; [done|]. simpl. rewrite <- IH.
  destruct u; [done|]. destruct (coalesce bs) as [|[n' [|]] l]; [done|done|]. simpl. unfold HDR. lia.
Qed.

(** The last free block before [b]: it ends at [b] when the block before is free. *)
Lemma prev_free m pre l1 p : headers m H0 pre -> BASE + HDR <= H0 -> load32 m (s_size BASE) = 0 ->
  norm pre -> BASE :: frees H0 pre = l1 ++ [p] ->
  (exists pre' n1, pre = pre' ++ [(n1, false)] /\ p = H0 + span pre' /\ load32 m (s_size p) = n1 /\
     BASE :: frees H0 pre' = l1) \/
  (p + HDR * load32 m (s_size p) < H0 + span pre /\ no_ff (map snd pre ++ [false])).
Proof.
  intros Hh HB Hb0 Hnm E. destruct pre as [|[n1 u1] pre _] using rev_ind.
  { right. destruct l1 as [|x l1]; [|by destruct l1]. injection E as <-. rewrite Hb0. simpl. unfold HDR in *. split; [lia|done]. }
  pose proof Hh as Hh'. apply headers_app in Hh' as [Hh1 Hh2]. simpl in Hh2. destruct Hh2 as (Hn1 & Hs1 & _).
  rewrite frees_app in E. simpl in E. destruct u1.
  - right. rewrite app_nil_r in E. rewrite span_app. simpl. split.
    + assert (p ∈ BASE :: frees H0 pre) as Hp by (rewrite E; apply elem_of_app; right; by apply list_elem_of_singleton).
      pose proof (headers_span _ _ _ Hh1). apply elem_of_cons in Hp as [->|Hp]; [rewrite Hb0; unfold HDR in *; lia|].
      destruct (free_size _ _ _ _ Hh1 Hp). unfold HDR in *. lia.
    + rewrite map_app, <- app_assoc. simpl. rewrite no_ff_mid. split; [|split; [by left|done]].
      unfold norm in Hnm. by rewrite map_app in Hnm.
  - left. exists pre, n1. rewrite app_nil_r in E. change (BASE :: frees H0 pre ++ [H0 + span pre]) with ((BASE :: frees H0 pre) ++ [H0 + span pre]) in E.
    apply app_inj_tail in E as [<- <-]. done.
Qed.

Lemma span_units bs : exists k, span bs = HDR * k.
Proof. induction bs as [|[n u] bs [k IH]]; [by exists 0|]. exists (n + k). simpl. lia. Qed.

(** Writing the pointer of a header changes no size. *)
Lemma headers_ptr m a bs k v : headers m a bs -> headers (store32 m (a + HDR * k) v) a bs.
Proof.
  revert a k. induction bs as [|[n u] bs IH]; intros a k; simpl; [done|]. intros (Hn & Hs & Hh).
  split; [done|]. split.
  - rewrite load32_store32_ne; [done|]. unfold s_size, HDR. lia.
  - replace (a + HDR * k) with (a + HDR * n + HDR * (k - n)) by lia. by apply IH.
Qed.

Lemma links_last m m' l1 p e e' : links m (l1 ++ [p]) e ->
  (forall x, x ∈ l1 -> load32 m' (s_ptr x) = load32 m (s_ptr x)) -> load32 m' (s_ptr p) = e' -> links m' (l1 ++ [p]) e'.
Proof. rewrite !links_app. intros [Hl _] Hag Hp. split; [by eapply links_agree|]. simpl. by rewrite Hp. Qed.

(** A heap is put together at one of its free blocks. *)
Lemma heap_at u m2 f pre n' post' : let b := H0 + span pre in
  0 < BASE -> BASE + HDR <= H0 -> brk u = b + HDR * n' + span post' -> brk u < KERNBASE ->
  headers m2 H0 pre -> load32 m2 (s_size BASE) = 0 -> 1 <= n' -> load32 m2 (s_size b) = n' ->
  headers m2 (b + HDR * n') post' -> links m2 (BASE :: frees H0 pre) b ->
  load32 m2 (s_ptr b) = hd BASE (frees (b + HDR * n') post') ->
  links m2 (frees (b + HDR * n') post') BASE -> f ∈ BASE :: frees H0 (pre ++ (n', false) :: post') ->
  norm (pre ++ (n', false) :: post') ->
  heap (set_freep f (set_um m2 u)) (pre ++ (n', false) :: post').
Proof.
  intros b HB0 HB Hbrk Hk Hh Hbs Hn Hs Hh' Hl Hb Hl' Hf Hnm. unfold b in *.
  assert (frees H0 (pre ++ (n', false) :: post') = frees H0 pre ++ (H0 + span pre) :: frees (H0 + span pre + HDR * n') post') as EF
    by (by rewrite frees_app).
  split; cbn [um set_um set_freep brk freep].
  - done.
  - rewrite span_app. simpl. lia.
  - apply headers_app. simpl. by split.
  - done.
  - rewrite EF. unfold ring. cbn [hd]. rewrite app_comm_cons, links_app. cbn [hd]. by split.
  - done.
  - done.
Qed.

Lemma heap_merge u m m1 m2 pre n1 n post n' post' : let p := H0 + span pre in let b := p + HDR * n1 in
  0 < BASE -> BASE + HDR <= H0 -> brk u = b + HDR * n + span post -> brk u < KERNBASE -> 1 <= n1 ->
  headers m1 H0 pre -> load32 m1 (s_size BASE) = 0 -> norm (pre ++ [(n1, false)]) ->
  links m1 (BASE :: frees H0 pre) p -> joined m m1 b n post n' post' ->
  (forall a, a < p \/ p + HDR <= a -> load8 m2 a = load8 m1 a) ->
  load32 m2 (s_size p) = n1 + n' -> load32 m2 (s_ptr p) = load32 m1 (s_ptr b) ->
  heap (set_freep p (set_um m2 u)) (pre ++ (n1 + n', false) :: post').
Proof.
  intros p b HB0 HB Hbrk Hk Hn1 Hh Hbs Hnm Hl [J1 J2 J3 J4 J5 J6 J7 J8 _ _] Hout Hs Hp.
  pose proof (headers_span _ _ _ Hh) as Hsp. pose proof (headers_span _ _ _ J6) as Hsp'.
  assert (forall x, x + HDR <= p -> load32 m2 (s_ptr x) = load32 m1 (s_ptr x) /\ load32 m2 (s_size x) = load32 m1 (s_size x)) as Hm.
  { intros x Hx. unfold s_ptr, s_size, HDR in *. split; apply load32_ext; intros i Hi; apply Hout; lia. }
  assert (b + HDR * n' = p + HDR * (n1 + n')) as E by (unfold b; lia). rewrite E in *.
  apply heap_at; fold p; try done.
  - unfold b in Hbrk. lia.
  - eapply headers_agree; [exact Hh|]. intros a Ha. apply Hout. unfold p. lia.
  - rewrite (proj2 (Hm BASE ltac:(unfold p; lia))). done.
  - lia.
  - eapply headers_agree; [exact J6|]. intros a Ha. apply Hout. unfold HDR in *. lia.
  - eapply links_agree; [exact Hl|]. intros x Hx. apply Hm.
    apply elem_of_cons in Hx as [->|Hx]; [unfold p; lia|]. by destruct (frees_bounds _ _ _ _ Hh Hx).
  - by rewrite Hp, J1.
  - eapply links_agree; [exact J7|]. intros x Hx. destruct (frees_bounds _ _ _ _ J6 Hx).
    apply load32_ext. intros i Hi. apply Hout. unfold s_ptr, HDR in *. lia.
  - rewrite frees_app. simpl. rewrite elem_of_cons, elem_of_app, elem_of_cons. auto.
  - unfold norm in *. rewrite map_app in *. cbn [map snd] in *. rewrite no_ff_mid. split; done.
Qed.

Lemma heap_link u m m1 pre l1 p n post n' post' e : let b := H0 + span pre in
  0 < BASE -> BASE + HDR <= H0 -> brk u = b + HDR * n + span post -> brk u < KERNBASE ->
  headers m1 H0 pre -> load32 m1 (s_size BASE) = 0 -> no_ff (map snd pre ++ [false]) ->
  BASE :: frees H0 pre = l1 ++ [p] -> links m1 (l1 ++ [p]) e -> joined m m1 b n post n' post' ->
  heap (set_freep p (set_um (store32 m1 (s_ptr p) b) u)) (pre ++ (n', false) :: post').
Proof.
  intros b HB0 HB Hbrk Hk Hh Hbs Hnm EF Hl [J1 J2 J3 J4 J5 J6 J7 J8 _ _].
  pose proof (headers_span _ _ _ Hh) as Hsp. pose proof (headers_span _ _ _ J6) as Hsp'. unfold KERNBASE in *.
  assert (StronglySorted apart (l1 ++ [p])) as Hap by (rewrite <- EF; by apply (ring_apart m1)).
  assert (p ∈ BASE :: frees H0 pre) as Hp by (rewrite EF; apply elem_of_app; right; by apply list_elem_of_singleton).
  assert (p = BASE \/ exists k, p = H0 + HDR * k) as Hpk.
  { apply elem_of_cons in Hp as [->|Hp]; [by left|]. apply frees_elem in Hp as (bs1 & k & bs2 & _ & ->).
    destruct (span_units bs1) as [k' ->]. right. by exists k'. }
  assert (0 < p /\ p + HDR <= b) as [Hp0 Hpb].
  { apply elem_of_cons in Hp as [->|Hp]; [unfold b; lia|]. destruct (frees_bounds _ _ _ _ Hh Hp). unfold b, HDR in *. lia. }
  apply heap_at; fold b; try done.
  - lia.
  - unfold s_ptr. destruct Hpk as [->|[k ->]]; [|by apply headers_ptr].
    eapply headers_agree; [exact Hh|]. intros a Ha. apply load8_store32_ne. unfold HDR in *. lia.
  - rewrite load32_store32_ne; [done|]. unfold s_size, s_ptr, HDR in *. destruct Hpk as [->|[k ->]]; [lia|].
    apply elem_of_cons in Hp as [Hp|Hp]; [lia|]. destruct (frees_bounds _ _ _ _ Hh Hp). lia.
  - rewrite load32_store32_ne; [done|]. unfold s_size, s_ptr, HDR in *. lia.
  - eapply headers_agree; [exact J6|]. intros a Ha. apply load8_store32_ne. unfold s_ptr, HDR in *. lia.
  - rewrite EF. eapply links_last; [exact Hl| |].
    + intros x Hx. apply load32_store32_ne. left. by apply (sorted_before _ _ _ _ _ Hap) in Hx; unfold apart, HDR, s_ptr in *; lia.
    + rewrite load32_store32_eq. apply u32_small. unfold HDR in *. lia.
  - rewrite load32_store32_ne; [done|]. unfold s_ptr, HDR in *. lia.
  - eapply links_agree; [exact J7|]. intros x Hx. destruct (frees_bounds _ _ _ _ J6 Hx).
    apply load32_store32_ne. unfold s_ptr, HDR in *. lia.
  - rewrite frees_app, app_comm_cons. apply elem_of_app. by left.
  - unfold norm in *. rewrite map_app in *. cbn [map snd] in *. rewrite no_ff_mid. split; done.
Qed.

Lemma join_prev_ok u m1 pre l1 p n post n' post' : let b := H0 + span pre in
  0 < BASE -> BASE + HDR <= H0 -> brk u = b + HDR * n + span post -> brk u < KERNBASE ->
  headers (um u) H0 pre -> load32 (um u) (s_size BASE) = 0 -> norm pre ->
  BASE :: frees H0 pre = l1 ++ [p] -> links (um u) (l1 ++ [p]) (hd BASE (frees (b + HDR * n) post)) ->
  joined (um u) m1 b n post n' post' ->
  returns (join_prev b p) (set_um m1 u) (fun _ u' => exists m2, u' = set_um m2 u /\
    heap (set_freep p u') (coalesce (pre ++ (n, false) :: post)) /\
    forall a, a < p \/ p + HDR <= a -> a < b \/ b + HDR <= a -> load8 m2 a = load8 (um u) a).
Proof.
  intros b HB0 HB Hbrk Hk Hh Hbs Hnm EF Hl Hj. pose proof Hj as [J1 J2 J3 J4 J5 J6 J7 J8 J9 _].
  rewrite J9. pose proof (headers_span _ _ _ Hh) as Hsp. pose proof (headers_span _ _ _ J6) as Hsp'.
  assert (p ∈ BASE :: frees H0 pre) as Hp by (rewrite EF; apply elem_of_app; right; by apply list_elem_of_singleton).
  assert (forall x, x ∈ BASE :: frees H0 pre -> 0 < x /\ x + HDR <= b) as Hx.
  { intros x Hx. apply elem_of_cons in Hx as [->|Hx]; [unfold b; lia|]. destruct (frees_bounds _ _ _ _ Hh Hx).
    unfold b, HDR in *. lia. }
  assert (forall x, x + HDR <= b -> load32 m1 (s_ptr x) = load32 (um u) (s_ptr x) /\ load32 m1 (s_size x) = load32 (um u) (s_size x)) as Hm1.
  { intros x Hxb. unfold s_ptr, s_size, HDR in *. split; apply load32_ext; intros i Hi; apply J3; lia. }
  assert (headers m1 H0 pre) as Hh1 by (eapply headers_agree; [done|]; intros a Ha; apply J3; unfold b; lia).
  assert (load32 m1 (s_size BASE) = 0) as Hbs1 by (rewrite (proj2 (Hm1 BASE ltac:(unfold b; lia))); done).
  assert (links m1 (l1 ++ [p]) (hd BASE (frees (b + HDR * n) post))) as Hlm.
  { eapply links_agree; [done|]. intros x Hxl. apply Hm1, Hx. by rewrite EF. }
  destruct (Hx p Hp) as [Hp0 Hpb]. unfold KERNBASE in Hk.
  unfold join_prev, ld, st, hplus. steps. cbn [um set_um]. rewrite (proj2 (Hm1 p Hpb)).
  destruct (prev_free (um u) pre l1 p Hh HB Hbs Hnm EF) as [(pre' & n1 & -> & Ep & Hs1 & El1)|[Hlt Hff]].
  - assert (b = p + HDR * n1) as Eb by (unfold b; rewrite span_app; cbn [span]; lia). clearbody b.
    apply headers_app in Hh1 as [Hh1 Hh2]. cbn [headers] in Hh2. destruct Hh2 as (Hn1 & _ & _).
    rewrite Hs1, u32_small by (unfold HDR in *; lia). rewrite (proj2 (Z.eqb_eq _ _)) by done.
    steps. cbn [um set_um]. rewrite J2, (load32_store32_ne m1 _ _ (s_ptr b)) by (unfold s_ptr, s_size, HDR in *; lia).
    set (m2 := store32 (store32 _ _ _) _ _). exists m2. split; [done|].
    assert (forall a, a < p \/ p + HDR <= a -> load8 m2 a = load8 m1 a) as Hout.
    { intros a Ha. unfold m2. rewrite !load8_store32_ne by (unfold s_ptr, s_size, HDR in *; lia). done. }
    split; [|intros a Ha Ha'; rewrite Hout, J3; done].
    rewrite <- app_assoc. cbn [app]. rewrite coalesce_next by done.
    assert (heap (set_freep p (set_um m2 u)) (pre' ++ (n1 + n', false) :: post')) as Hheap.
    { subst p b l1. eapply (heap_merge u (um u) m1); try done.
      - rewrite links_app in Hlm. apply Hlm.
      - unfold m2. rewrite load32_store32_ne, load32_store32_eq by (unfold s_ptr, s_size; lia).
        apply u32_small. unfold HDR in *. lia.
      - unfold m2. rewrite load32_store32_eq. apply u32_small, load32_range. }
    rewrite norm_coalesce by apply Hheap. exact Hheap.
  - pose proof (load32_range (um u) (s_size p)). rewrite u32_small by (unfold b, HDR in *; lia).
    rewrite (proj2 (Z.eqb_neq _ _)) by (unfold b; lia). steps. cbn [um set_um].
    exists (store32 m1 (s_ptr p) b). split; [done|].
    assert (heap (set_freep p (set_um (store32 m1 (s_ptr p) b) u)) (pre ++ (n', false) :: post')) as Hheap
      by (by eapply (heap_link u (um u) m1 pre l1 p n post n' post')).
    rewrite norm_coalesce by apply Hheap. split; [exact Hheap|].
    intros a Ha Ha'. rewrite load8_store32_ne, J3 by (done || (unfold s_ptr, HDR in *; lia)). done.
Qed.

Lemma live_apart m a bs x y k : headers m a bs -> x ∈ frees a bs -> (y, k) ∈ live a bs ->
  x + HDR <= y \/ y + HDR * k <= x.
Proof.
  intros Hh Hx Hy. apply frees_elem in Hx as (bs1 & n & bs2 & -> & ->). apply headers_app in Hh as [Hh1 Hh2].
  simpl in Hh2. destruct Hh2 as (Hn & _ & Hh2). rewrite live_app in Hy. simpl in Hy.
  apply elem_of_app in Hy as [Hy|Hy].
  - right. destruct (live_bounds _ _ _ _ _ Hh1 Hy) as (_ & ? & _). lia.
  - left. destruct (live_bounds _ _ _ _ _ Hh2 Hy) as (? & _). unfold HDR in *. lia.
Qed.

Lemma frees_length a bs : (length (frees a bs) <= length bs)%nat.
Proof.
  revert a. induction bs as [|[n u] bs IH]; intros a; simpl; [lia|]. rewrite length_app.
  specialize (IH (a + HDR * n)). destruct u; simpl; lia.
Qed.

(** What every call leaves alone: the blocks the program has. *)
Definition kept (m m' : gmap Z Z) (bs : list (Z * bool)) : Prop :=
  forall y k, (y, k) ∈ live H0 bs -> agree m m' y (HDR * k).

Lemma sorted_nodup l : StronglySorted apart l -> NoDup l.
Proof.
  induction 1 as [|x l Hs IH Hf]; constructor; [|done]. intros Hx. eapply Forall_forall in Hf; [|exact Hx].
  unfold apart, HDR in Hf. lia.
Qed.

Lemma free_ok fuel u pre n post : heap u (pre ++ (n, true) :: post) ->
  (length (pre ++ (n, true) :: post) < fuel)%nat ->
  returns (free fuel (H0 + span pre + HDR)) u (fun _ u' =>
    heap u' (coalesce (pre ++ (n, false) :: post)) /\ kept (um u) (um u') (pre ++ (n, false) :: post)).
Proof.
  intros [[HB0 HB] [Hbrk Hk] Hh Hbs Hr Hf Hnm] Hfuel. pose proof (ring_apart _ _ HB Hh) as Hap.
  rewrite frees_app in *. rewrite span_app in *. cbn [frees span app] in *.
  pose proof Hh as Hh'. apply headers_app in Hh' as [Hh1 Hh2]. simpl in Hh2. destruct Hh2 as (Hn & Hs & Hh2).
  pose proof (headers_span _ _ _ Hh1). pose proof (headers_span _ _ _ Hh2).
  set (b := H0 + span pre) in *. set (F2 := frees (b + HDR * n) post) in *.
  destruct (exists_last (l := BASE :: frees H0 pre)) as (l1 & p & EF); [done|].
  rewrite app_comm_cons, EF, <- app_assoc in Hr, Hf, Hap. cbn [app] in Hr, Hf, Hap.
  assert (p ∈ BASE :: frees H0 pre) as Hp by (rewrite EF; apply elem_of_app; right; by apply list_elem_of_singleton).
  assert (0 < p /\ p + HDR <= b) as [Hp0 Hpb].
  { apply elem_of_cons in Hp as [->|Hp]; [unfold b; lia|]. destruct (frees_bounds _ _ _ _ Hh1 Hp). unfold b, HDR in *. lia. }
  destruct (stops_spec (um u) l1 p F2 b (apart_sorted _ Hap) Hr) as [Hst Hno]; [unfold HDR in *; lia| |].
  { intros z Hz. destruct (frees_bounds _ _ _ _ Hh2 Hz). unfold HDR in *. lia. }
  destruct (ring_walk (um u) (l1 ++ p :: F2) (freep u) p) as (w & e & W1 & W2 & W3 & W4);
    [by apply sorted_nodup|done|done|apply elem_of_app; right; apply elem_of_cons; by left|].
  unfold free. steps. rewrite (u32_small (b + HDR - HDR)) by (unfold b, KERNBASE, HDR in *; lia).
  replace (b + HDR - HDR) with b by lia.
  eapply wp_run; [rewrite <- W2; apply (scan_walk fuel b u p e w W1)|]; [|exact Hst| |].
  { intros z Hz. destruct (W4 z Hz). by apply Hno. }
  { assert (length (l1 ++ p :: F2) = S (length (frees H0 pre ++ F2))) as E1.
    { change (p :: F2) with ([p] ++ F2). rewrite app_assoc, <- EF. done. }
    rewrite length_app in E1. pose proof (frees_length H0 pre). pose proof (frees_length (b + HDR * n) post) as E2. fold F2 in E2.
    rewrite length_app in Hfuel. cbn [length] in Hfuel. rewrite !length_app in *. lia. }
  assert (ring (um u) ((l1 ++ [p]) ++ F2)) as Hr' by (by rewrite <- app_assoc). unfold ring in Hr'.
  assert (hd 0 ((l1 ++ [p]) ++ F2) = BASE) as Ehd by (by rewrite <- EF).
  rewrite Ehd, links_app in Hr'. destruct Hr' as [R1 R2].
  destruct (norm_app pre ((n, true) :: post) Hnm) as [Hnm1 Hnm2]. apply (norm_app [(n, true)]) in Hnm2 as [_ Hnm2].
  assert (load32 (um u) (s_ptr p) = hd BASE F2) as Enext.
  { apply links_app in R1 as [_ [R1 _]]. exact R1. }
  steps. eapply wp_mono; [apply (join_next_ok u b p n post); try done; unfold b, HDR in *; lia| |done].
  intros ? u1 (m1 & n' & post' & -> & Hj). steps.
  eapply wp_mono; [apply (join_prev_ok u m1 pre l1 p n post n' post'); try done; unfold b in *; lia| |done].
  intros ? u2 (m2 & -> & Hheap & Hout). steps. split; [exact Hheap|]. cbn [um set_um set_freep].
  intros y k Hy. rewrite live_app in Hy. cbn [live app] in Hy. intros x Hx.
  apply elem_of_app in Hy as [Hy|Hy].
  - destruct (live_bounds _ _ _ _ _ Hh1 Hy) as (Hy1 & Hy2 & _). apply Hout; [|unfold b; lia].
    apply elem_of_cons in Hp as [->|Hp]; [lia|]. destruct (live_apart _ _ _ _ _ _ Hh1 Hp Hy); lia.
  - destruct (live_bounds _ _ _ _ _ Hh2 Hy) as (Hy1 & _). apply Hout; unfold HDR in *; lia.
Qed.

(** A heap whose memory changed outside its blocks and headers is still one. *)
Lemma heap_extend u m brk' bs n : heap u bs -> 1 <= n -> brk' = H0 + span bs + HDR * n -> brk' < KERNBASE ->
  (forall a, a < H0 + span bs -> load8 m a = load8 (um u) a) -> load32 m (s_size (H0 + span bs)) = n ->
  heap (mkProg m (freep u) brk') (bs ++ [(n, true)]).
Proof.
  intros [[HB0 HB] [Hbrk Hk] Hh Hbs Hr Hf Hnm] Hn -> Hk' Hag Hs. pose proof (headers_span _ _ _ Hh).
  assert (forall x, x + HDR <= H0 + span bs -> load32 m (s_ptr x) = load32 (um u) (s_ptr x) /\ load32 m (s_size x) = load32 (um u) (s_size x)) as Hm.
  { intros x Hx. unfold s_ptr, s_size, HDR in *. split; apply load32_ext; intros i Hi; apply Hag; lia. }
  assert (frees H0 (bs ++ [(n, true)]) = frees H0 bs) as EF by (rewrite frees_app; simpl; by rewrite app_nil_r).
  split; cbn [um brk freep]; rewrite ?EF; try done.
  - rewrite span_app. cbn [span]. lia.
  - apply headers_app. split; [|by simpl]. eapply headers_agree; [done|]. intros a Ha. apply Hag. lia.
  - rewrite (proj2 (Hm BASE ltac:(lia))). done.
  - eapply links_agree; [exact Hr|]. intros x Hx. apply Hm. apply elem_of_cons in Hx as [->|Hx]; [lia|].
    by destruct (frees_bounds _ _ _ _ Hh Hx).
  - unfold norm. rewrite map_app. by apply no_ff_snoc_true.
Qed.

Lemma memset_above m sz n a : 0 <= sz -> 0 <= n -> sz + n < KERNBASE -> a < sz ->
  load8 (memset m (PGROUNDUP sz) 0 (PGROUNDUP (sz + n) - PGROUNDUP sz)) a = load8 m a.
Proof.
  intros Hsz Hn Hk Ha. unfold KERNBASE in Hk.
  pose proof (PGROUNDUP_eq sz ltac:(unfold PGSIZE; lia)) as E1.
  pose proof (PGROUNDUP_eq (sz + n) ltac:(unfold PGSIZE; lia)) as E2. unfold PGSIZE in *.
  assert (sz <= PGROUNDUP sz <= PGROUNDUP (sz + n)) as Hle by (rewrite E1, E2; zlia).
  rewrite load8_memset by lia. rewrite (proj2 (Z.leb_gt _ _)) by lia. done.
Qed.

(** How much morecore asks for, and when the kernel refuses. *)
Definition core (nu : Z) : Z := if nu <? 4096 then 4096 else nu.
Definition refused (grow : Z -> Z -> bool) (bs : list (Z * bool)) (nu : Z) : Prop :=
  KERNBASE <= H0 + span bs + HDR * core nu \/ grow (H0 + span bs) (HDR * core nu) = false.

Lemma morecore_ok grow fuel u bs nu : heap u bs -> 1 <= nu -> HDR * core nu < 2 ^ 31 -> (S (length bs) < fuel)%nat ->
  returns (morecore grow fuel nu) u (fun r u' =>
    (r = 0 /\ u' = u /\ refused grow bs nu) \/
    (r = freep u' /\ r <> 0 /\ heap u' (coalesce (bs ++ [(core nu, false)])) /\ kept (um u) (um u') bs)).
Proof.
  intros Hheap Hnu Hmax Hfuel. pose proof Hheap as [[HB0 HB] [Hbrk Hk] Hh _ _ _ _]. pose proof (headers_span _ _ _ Hh).
  unfold morecore. fold (core nu). assert (1 <= core nu) as Hc by (unfold core; destruct (Z.ltb_spec nu 4096); lia).
  set (c := core nu) in *.
  assert (s32 (c * HDR) = HDR * c) as ->.
  { unfold s32. rewrite u32_small by (unfold HDR in *; lia). rewrite (proj2 (Z.ltb_lt _ _)) by (unfold HDR in *; lia). lia. }
  apply wp_bind. unfold wp at 1, sbrk. rewrite (proj2 (Z.ltb_lt _ _)) by (unfold HDR in *; lia). rewrite Hbrk.
  destruct (Z.leb_spec KERNBASE (H0 + span bs + HDR * c)) as [Hfull|Hfit]; cbn [orb].
  { steps. left. repeat split. by left. }
  destruct (grow _ _) eqn:Eg; cbn [negb]; [|steps; left; repeat split; by right].
  unfold KERNBASE in Hfit. rewrite (proj2 (Z.eqb_neq _ _)) by (change (u32 (-1)) with 4294967295; unfold HDR in *; lia).
  unfold st, set_um. steps. cbn [um freep brk]. set (u1 := mkProg (store32 _ _ _) _ _).
  assert (forall a, a < H0 + span bs -> load8 (um u1) a = load8 (um u) a) as Hm.
  { intros a Ha. unfold u1. cbn [um]. rewrite load8_store32_ne by (unfold s_size; lia).
    apply memset_above; unfold KERNBASE, HDR in *; lia. }
  assert (heap u1 (bs ++ [(c, true)])) as Hu1.
  { apply (heap_extend u (um u1) _ bs c Hheap Hc); [done|unfold KERNBASE; lia|exact Hm|].
    unfold u1. cbn [um]. rewrite load32_store32_eq. apply u32_small. unfold HDR in *. lia. }
  eapply wp_mono; [apply (free_ok fuel u1 bs c [] Hu1)| |done].
  { rewrite length_app. cbn [length]. lia. }
  intros ? u' [Hu' Hkept]. steps. right. split; [done|]. split.
  - pose proof (h_freep _ _ Hu') as Hf. apply elem_of_cons in Hf as [->|Hf]; [lia|].
    destruct (frees_bounds _ _ _ _ (h_hdr _ _ Hu') Hf). unfold HDR in *. lia.
  - split; [exact Hu'|]. intros y k Hy x Hx. destruct (live_bounds _ _ _ _ _ Hh Hy) as (_ & ? & _).
    rewrite <- Hm by lia. apply (Hkept y k); [|done]. rewrite live_app. apply elem_of_app. by left.
Qed.

(** ** Taking a block *)

Lemma elem_mid (l1 l2 : list Z) x : x ∈ l1 ++ x :: l2.
Proof. apply elem_of_app. right. apply elem_of_cons. by left. Qed.

Lemma nodup_split (l1 l2 k1 k2 : list Z) x : NoDup (l1 ++ x :: l2) -> l1 ++ x :: l2 = k1 ++ x :: k2 -> l1 = k1.
Proof.
  revert k1. induction l1 as [|y l1 IH]; intros k1 Hnd E; destruct k1 as [|z k1]; simpl in *; [done| | |].
  - injection E as -> E. apply NoDup_cons in Hnd as [Hn _]. exfalso. apply Hn. rewrite E. apply elem_mid.
  - injection E as -> E. apply NoDup_cons in Hnd as [Hn _]. exfalso. apply Hn. apply elem_mid.
  - injection E as -> E. apply NoDup_cons in Hnd as [_ Hnd]. f_equal. by eapply IH.
Qed.

Lemma no_ff_set l1 l2 : no_ff (l1 ++ false :: l2) -> no_ff (l1 ++ true :: l2) /\ no_ff (l1 ++ false :: true :: l2).
Proof.
  rewrite (no_ff_mid l1 false l2), (no_ff_mid l1 true l2), (no_ff_mid l1 false (true :: l2)). intros [H1 H2]. assert (no_ff l2) as H3 by (apply (no_ff_app [false] l2), H2).
  assert (no_ff l1) as H4 by (apply (no_ff_app l1 [false]), H1). repeat split; try done.
  - by apply no_ff_snoc_true.
  - by apply no_ff_true.
  - by right.
  - by apply no_ff_true.
Qed.

(** A node with a size, reached through its predecessor, is a free block. *)
Lemma found_block u bs prevp : let p := load32 (um u) (s_ptr prevp) in
  heap u bs -> prevp ∈ BASE :: frees H0 bs -> 1 <= load32 (um u) (s_size p) ->
  exists l1 pre m post, bs = pre ++ (m, false) :: post /\ p = H0 + span pre /\ load32 (um u) (s_size p) = m /\
    BASE :: frees H0 pre = l1 ++ [prevp].
Proof.
  intros p [[HB0 HB] [Hbrk Hk] Hh Hbs Hr Hf Hnm] Hpv Hs. pose proof (ring_apart _ _ HB Hh) as Hap.
  apply list_elem_of_split in Hpv as (A & B & E).
  assert (p = hd BASE B) as Ep.
  { unfold ring in Hr. cbn [hd] in Hr. rewrite E, links_app in Hr. apply Hr. }
  destruct B as [|p' B]; simpl in Ep; [rewrite Ep, Hbs in Hs; lia|]. subst p'.
  assert (p ∈ frees H0 bs) as Hp.
  { assert (p ∈ BASE :: frees H0 bs) as Hp.
    { rewrite E. apply elem_of_app. right. apply elem_of_cons. right. apply elem_of_cons. by left. }
    apply elem_of_cons in Hp as [Hp|Hp]; [rewrite Hp, Hbs in Hs; lia|done]. }
  apply frees_elem in Hp as (pre & m & post & -> & EP). exists A, pre, m, post.
  apply headers_app in Hh as [Hh1 Hh2]. cbn [headers] in Hh2. destruct Hh2 as (Hm & Hsz & _).
  split; [done|]. split; [done|]. split; [by rewrite EP|].
  rewrite frees_app in E, Hap. cbn [frees app] in E, Hap. rewrite <- EP, app_comm_cons in E, Hap.
  apply (nodup_split _ (frees (p + HDR * m) post) _ B p); [by apply sorted_nodup|]. rewrite E, <- app_assoc. done.
Qed.

Definition split_block (m k : Z) : list (Z * bool) := if m =? k then [(k, true)] else [(m - k, false); (k, true)].

Lemma headers_flag m a pre n f f' post : headers m a (pre ++ (n, f) :: post) -> headers m a (pre ++ (n, f') :: post).
Proof. rewrite !headers_app. done. Qed.

Lemma heap_take_all u pre m post l1 prevp v : let p := H0 + span pre in
  heap u (pre ++ (m, false) :: post) -> BASE :: frees H0 pre = l1 ++ [prevp] ->
  v = hd BASE (frees (p + HDR * m) post) -> 0 <= v < 2 ^ 32 ->
  heap (set_freep prevp (set_um (store32 (um u) (s_ptr prevp) v) u)) (pre ++ (m, true) :: post).
Proof.
  intros p [[HB0 HB] [Hbrk Hk] Hh Hbs Hr Hf Hnm] EF Ev Hv.
  pose proof Hh as Hh'. apply headers_app in Hh' as [Hh1 Hh2]. cbn [headers] in Hh2. destruct Hh2 as (Hm & Hs & Hh2). fold p in Hh2, Hs.
  pose proof (headers_span _ _ _ Hh1). pose proof (headers_span _ _ _ Hh2).
  assert (prevp ∈ BASE :: frees H0 pre) as Hpv by (rewrite EF; apply elem_mid).
  assert (prevp = BASE \/ exists k, prevp = H0 + HDR * k) as Hpk.
  { apply elem_of_cons in Hpv as [->|Hp]; [by left|]. apply frees_elem in Hp as (bs1 & k & bs2 & _ & ->).
    destruct (span_units bs1) as [k' ->]. right. by exists k'. }
  assert (0 < prevp /\ prevp + HDR <= p) as [Hp0 Hpb].
  { apply elem_of_cons in Hpv as [->|Hp]; [unfold p; lia|]. destruct (frees_bounds _ _ _ _ Hh1 Hp). unfold p, HDR in *. lia. }
  unfold ring in Hr. cbn [hd] in Hr. rewrite frees_app in Hr. cbn [frees app] in Hr. fold p in Hr.
  rewrite app_comm_cons, links_app in Hr. destruct Hr as [Hr1 Hr2]. cbn [links] in Hr2. destruct Hr2 as [_ Hr2].
  assert (StronglySorted apart (l1 ++ [prevp])) as Hap by (rewrite <- EF; by apply (ring_apart (um u))).
  assert (frees H0 (pre ++ (m, true) :: post) = frees H0 pre ++ frees (p + HDR * m) post) as EF2 by (by rewrite frees_app).
  split; cbn [um set_um set_freep brk freep]; rewrite ?EF2.
  - done.
  - rewrite span_app in *. done.
  - apply (headers_flag _ _ _ _ false). unfold s_ptr. destruct Hpk as [->|[k ->]]; [|by apply headers_ptr].
    eapply headers_agree; [exact Hh|]. intros a Ha. apply load8_store32_ne. unfold HDR in *. lia.
  - rewrite load32_store32_ne; [done|]. unfold s_size, s_ptr, HDR in *. destruct Hpk as [->|[k ->]]; [lia|].
    apply elem_of_cons in Hpv as [Hp|Hp]; [lia|]. destruct (frees_bounds _ _ _ _ Hh1 Hp). lia.
  - unfold ring. cbn [hd]. rewrite app_comm_cons, links_app, EF. rewrite EF in Hr1. split.
    + eapply links_last; [exact Hr1| |].
      * intros x Hx. apply load32_store32_ne. left. apply (sorted_before _ _ _ _ _ Hap) in Hx. unfold apart, HDR, s_ptr in *. lia.
      * rewrite load32_store32_eq, u32_small by done. exact Ev.
    + eapply links_agree; [exact Hr2|]. intros x Hx. destruct (frees_bounds _ _ _ _ Hh2 Hx).
      apply load32_store32_ne. unfold s_ptr, HDR in *. lia.
  - rewrite app_comm_cons. apply elem_of_app. by left.
  - unfold norm in *. rewrite map_app in *. by apply (no_ff_set (map snd pre) (map snd post)).
Qed.

Lemma heap_take_tail u pre m post k prevp m2 : let p := H0 + span pre in
  heap u (pre ++ (m, false) :: post) -> 1 <= k < m -> prevp ∈ BASE :: frees H0 pre ->
  (forall a, a < p + 4 \/ p + HDR * m <= a -> load8 m2 a = load8 (um u) a) ->
  load32 m2 (s_size p) = m - k -> load32 m2 (s_size (p + HDR * (m - k))) = k ->
  heap (set_freep prevp (set_um m2 u)) (pre ++ [(m - k, false); (k, true)] ++ post).
Proof.
  intros p [[HB0 HB] [Hbrk Hk] Hh Hbs Hr Hf Hnm] Hkm Hpv Hout Hs1 Hs2.
  apply headers_app in Hh as [Hh1 Hh2]. cbn [headers] in Hh2. destruct Hh2 as (Hm & Hs & Hh2). fold p in Hh2, Hs.
  pose proof (headers_span _ _ _ Hh1). pose proof (headers_span _ _ _ Hh2).
  assert (p + HDR * (m - k) + HDR * k = p + HDR * m) as Eend by lia.
  assert (frees H0 (pre ++ [(m - k, false); (k, true)] ++ post) = frees H0 (pre ++ (m, false) :: post)) as EF.
  { rewrite !(frees_app _ pre). cbn [frees app]. fold p. by rewrite Eend. }
  split; cbn [um set_um set_freep brk freep]; rewrite ?EF.
  - done.
  - rewrite !(span_app pre) in *. cbn [span app] in *. lia.
  - apply headers_app. cbn [headers app]. fold p. rewrite Eend. repeat split; [|lia|done|lia|done|].
    + eapply headers_agree; [exact Hh1|]. intros a Ha. apply Hout. unfold p. lia.
    + eapply headers_agree; [exact Hh2|]. intros a Ha. apply Hout. lia.
  - rewrite <- Hbs. apply load32_ext. intros i Hi. apply Hout. unfold s_size, p, HDR in *. lia.
  - eapply links_agree; [exact Hr|]. intros x Hx. apply load32_ext. intros i Hi. apply Hout.
    unfold s_ptr. rewrite frees_app in Hx. cbn [frees app] in Hx. fold p in Hx.
    rewrite app_comm_cons, elem_of_app, !elem_of_cons in Hx. destruct Hx as [[->|Hx]|[->|Hx]].
    + unfold p, HDR in *. lia.
    + destruct (frees_bounds _ _ _ _ Hh1 Hx). unfold p, HDR in *. lia.
    + lia.
    + destruct (frees_bounds _ _ _ _ Hh2 Hx). lia.
  - rewrite (frees_app _ pre), app_comm_cons. apply elem_of_app. by left.
  - unfold norm in *. rewrite (map_app _ pre) in *. by apply (no_ff_set (map snd pre) (map snd post)).
Qed.

Lemma take_block_ok u bs k prevp : let p := load32 (um u) (s_ptr prevp) in
  heap u bs -> prevp ∈ BASE :: frees H0 bs -> 1 <= k <= load32 (um u) (s_size p) ->
  returns (take_block k prevp p (load32 (um u) (s_size p))) u (fun r u' =>
    exists pre m post, bs = pre ++ (m, false) :: post /\ k <= m /\
      r = H0 + span pre + HDR * (m - k) + HDR /\ heap u' (pre ++ split_block m k ++ post) /\ kept (um u) (um u') bs).
Proof.
  intros p Hheap Hpv Hk. destruct (found_block u bs prevp Hheap Hpv) as (l1 & pre & m & post & -> & Ep & Hs & EF); [fold p; lia|].
  fold p in Ep, Hs. rewrite Hs in *. pose proof Hheap as [[HB0 HB] [Hbrk Hkb] Hh _ Hr _ _].
  pose proof Hh as Hh'. apply headers_app in Hh' as [Hh1 Hh2]. cbn [headers] in Hh2. destruct Hh2 as (Hm & _ & Hh2).
  pose proof (headers_span _ _ _ Hh1). pose proof (headers_span _ _ _ Hh2). rewrite span_app in *. cbn [span] in *.
  assert (prevp ∈ BASE :: frees H0 pre) as Hpv' by (rewrite EF; apply elem_mid).
  assert (forall y j, (y, j) ∈ live H0 (pre ++ (m, false) :: post) ->
    (y + HDR * j <= p \/ p + HDR * m <= y) /\ (prevp + HDR <= y \/ y + HDR * j <= prevp)) as Hlive.
  { intros y j Hy. split.
    - rewrite live_app in Hy. cbn [live app] in Hy. rewrite Ep. apply elem_of_app in Hy as [Hy|Hy].
      + destruct (live_bounds _ _ _ _ _ Hh1 Hy) as (? & ? & _). lia.
      + destruct (live_bounds _ _ _ _ _ Hh2 Hy) as (? & ? & _). lia.
    - apply elem_of_cons in Hpv as [->|Hx]; [|by apply (live_apart (um u) H0 (pre ++ (m, false) :: post))].
      destruct (live_bounds _ _ _ _ _ Hh Hy). lia. }
  unfold take_block, ld, st, hplus. destruct (Z.eqb_spec m k) as [->|Hne].
  - assert (load32 (um u) (s_ptr p) = hd BASE (frees (p + HDR * k) post)) as Ev.
    { unfold ring in Hr. rewrite frees_app in Hr. cbn [hd frees app] in Hr.
      rewrite app_comm_cons, links_app in Hr. rewrite Ep. apply Hr. }
    steps. exists pre, k, post. rewrite Z.sub_diag, u32_small by (unfold KERNBASE, HDR in *; lia).
    split; [done|]. split; [lia|]. split; [lia|]. unfold split_block. rewrite Z.eqb_refl. split.
    + apply (heap_take_all u pre k post l1 prevp); [done|done|by rewrite <- Ep|apply load32_range].
    + intros y j Hy x Hx. destruct (Hlive y j Hy). cbn [um set_um set_freep]. apply load8_store32_ne. unfold s_ptr, HDR in *. lia.
  - steps. cbn [um set_um]. rewrite load32_store32_eq, (u32_small (m - k)) by (unfold KERNBASE, HDR in *; lia).
    rewrite (u32_small (p + _)) by (unfold KERNBASE, HDR in *; lia). rewrite u32_small by (unfold KERNBASE, HDR in *; lia).
    exists pre, m, post. split; [done|]. split; [lia|]. split; [lia|]. unfold split_block.
    rewrite (proj2 (Z.eqb_neq _ _)) by done. set (m2 := store32 (store32 _ _ _) _ _).
    assert (forall a, a < p + 4 \/ p + HDR * m <= a -> load8 m2 a = load8 (um u) a) as Hout.
    { intros a Ha. unfold m2. rewrite !load8_store32_ne by (unfold s_size, HDR in *; lia). done. }
    split.
    + apply (heap_take_tail u pre m post k prevp m2); [done|lia|done|by rewrite <- Ep|..]; rewrite <- Ep; unfold m2.
      * rewrite load32_store32_ne, load32_store32_eq by (unfold s_size, HDR in *; lia). apply u32_small. unfold KERNBASE, HDR in *. lia.
      * rewrite load32_store32_eq. apply u32_small. unfold KERNBASE, HDR in *. lia.
    + intros y j Hy x Hx. destruct (Hlive y j Hy). apply Hout. lia.
Qed.

(** ** malloc *)

(** [k] headers taken from the end of a free block, the program gets [r]. *)
Definition allocates (bs : list (Z * bool)) (k r : Z) (bs' : list (Z * bool)) : Prop :=
  exists pre m post, bs = pre ++ (m, false) :: post /\ k <= m /\
    r = H0 + span pre + HDR * (m - k) + HDR /\ bs' = pre ++ split_block m k ++ post.

Definition fits (m : gmap Z Z) (k x : Z) : Prop := k <= load32 m (s_size x).

#[local] Instance fits_dec m k x : Decision (fits m k x).
Proof. unfold fits. apply _. Defined.

Lemma take_fits grow fuel n u bs k prevp : let p := load32 (um u) (s_ptr prevp) in
  heap u bs -> prevp ∈ BASE :: frees H0 bs -> 1 <= k -> fits (um u) k p ->
  returns (malloc_loop grow fuel (S n) k prevp p) u (fun r u' => exists bs',
    allocates bs k r bs' /\ heap u' bs' /\ kept (um u) (um u') bs).
Proof.
  intros p Hh Hpv Hk Hf. cbn [malloc_loop]. unfold ld at 1. steps. unfold fits in Hf. rewrite (proj2 (Z.leb_le _ _)) by done.
  eapply wp_mono; [apply (take_block_ok u bs k prevp Hh Hpv)| |done]; [by split|].
  intros r u' (pre & m & post & -> & Hkm & -> & Hu' & Hkept). eexists. split; [by exists pre, m, post|]. by split.
Qed.

(** With a block that is large enough the search ends. *)
Lemma loop_fits grow fuel u bs k s : heap u bs -> 1 <= k -> forall n prevp,
  links (um u) (prevp :: s) (freep u) -> prevp ∈ BASE :: frees H0 bs -> (forall x, x ∈ s -> x ∈ BASE :: frees H0 bs) ->
  freep u ∉ s -> (exists x, x ∈ s ++ [freep u] /\ fits (um u) k x) -> (length s < n)%nat ->
  returns (malloc_loop grow fuel n k prevp (load32 (um u) (s_ptr prevp))) u (fun r u' => exists bs',
    allocates bs k r bs' /\ heap u' bs' /\ kept (um u) (um u') bs).
Proof.
  intros Hh Hk. induction s as [|y s IH]; intros n prevp Hl Hpv Hs Hfs (x & Hx & Hfit) Hn;
    (destruct n as [|n]; [simpl in Hn; lia|]); cbn [links hd] in Hl; destruct Hl as [Hp Hl].
  - simpl in Hx. apply list_elem_of_singleton in Hx as ->. apply take_fits; [done|done|done|by rewrite Hp].
  - destruct (decide (fits (um u) k y)) as [Hy|Hy]; [apply take_fits; [done|done|done|by rewrite Hp]|].
    rewrite Hp. cbn [malloc_loop]. unfold ld. steps. unfold fits in Hy. rewrite (proj2 (Z.leb_gt _ _)) by lia.
    steps. apply not_elem_of_cons in Hfs as [Hfy Hfs]. rewrite (proj2 (Z.eqb_neq _ _)) by done. steps.
    apply (IH n y); [done|apply Hs, elem_of_cons; by left|intros z Hz; apply Hs, elem_of_cons; by right|done| |simpl in Hn; lia].
    exists x. split; [|done]. simpl in Hx. apply elem_of_cons in Hx as [->|Hx]; [done|done].
Qed.

Lemma ring_from m l fp : NoDup l -> ring m l -> fp ∈ l -> exists s,
  links m (fp :: s) fp /\ fp ∉ s /\ (length s < length l)%nat /\ (forall x, x ∈ s -> x ∈ l) /\
  forall x, x ∈ l -> x ∈ s ++ [fp].
Proof.
  intros Hnd Hr Hfp. apply list_elem_of_split in Hfp as (X & Y & ->). apply ring_rot in Hr.
  assert (X ++ fp :: Y ≡ₚ fp :: Y ++ X) as HP by (by rewrite <- Permutation_middle, Permutation_app_comm).
  exists (Y ++ X). split; [exact Hr|]. rewrite HP in Hnd. apply NoDup_cons in Hnd as [Hn _].
  split; [done|]. split; [rewrite (Permutation_length HP); simpl; lia|]. split.
  - intros x Hx. rewrite HP. apply elem_of_cons. by right.
  - intros x Hx. rewrite HP in Hx. apply elem_of_app. apply elem_of_cons in Hx as [->|Hx]; [right; by apply list_elem_of_singleton|by left].
Qed.

(** A free block at the end stays at the end, and does not become smaller. *)
Lemma coalesce_snoc m a bs c : headers m a bs -> norm bs ->
  exists pre n, coalesce (bs ++ [(c, false)]) = pre ++ [(n, false)] /\ c <= n.
Proof.
  intros Hh Hn. destruct bs as [|[n1 u1] bs _] using rev_ind; [by exists [], c|].
  apply headers_app in Hh as [_ (Hn1 & _)]. unfold norm in Hn. rewrite map_app in Hn. cbn [map snd] in Hn.
  rewrite <- app_assoc. cbn [app]. destruct u1.
  - exists (bs ++ [(n1, true)]), c. rewrite <- app_assoc. split; [|done]. apply norm_coalesce.
    unfold norm. rewrite map_app. cbn [map snd app]. rewrite no_ff_mid. split; [done|]. by split; [left|].
  - exists bs, (n1 + c). rewrite coalesce_next by done. split; [|lia]. apply norm_coalesce.
    unfold norm. by rewrite map_app.
Qed.

Lemma coalesce_length bs : (length (coalesce bs) <= length bs)%nat.
Proof.
  induction bs as [|[n u] bs IH]; [done|]. simpl. destruct u; simpl; [lia|].
  destruct (coalesce bs) as [|[n' [|]] l]; simpl in *; lia.
Qed.

(** After morecore the search goes around the ring once more. *)
Lemma loop_grown grow fuel u bs c k n : heap u (coalesce (bs ++ [(c, false)])) -> (exists m, headers m H0 bs) -> norm bs ->
  1 <= k <= c -> (length bs + 2 < n)%nat ->
  returns (malloc_loop grow fuel n k (freep u) (load32 (um u) (s_ptr (freep u)))) u (fun r u' => exists bs',
    allocates (coalesce (bs ++ [(c, false)])) k r bs' /\ heap u' bs' /\ kept (um u) (um u') (coalesce (bs ++ [(c, false)]))).
Proof.
  intros Hh [m Hm] Hn Hk Hlen. set (bs1 := coalesce (bs ++ [(c, false)])) in *.
  pose proof (ring_apart _ _ (proj2 (h_base _ _ Hh)) (h_hdr _ _ Hh)) as Hap.
  destruct (ring_from (um u) (BASE :: frees H0 bs1) (freep u)) as (s & R1 & R2 & R3 & R4 & R5);
    [by apply sorted_nodup|apply Hh|apply Hh|].
  destruct (coalesce_snoc m H0 bs c Hm Hn) as (pre & n1 & E & Hn1). fold bs1 in E.
  apply loop_fits with (s := s); [done|lia|done|apply Hh|done|done| |].
  - exists (H0 + span pre). split.
    + apply R5, elem_of_cons. right. rewrite E, frees_app. apply elem_of_app. right. simpl. by apply list_elem_of_singleton.
    + pose proof (h_hdr _ _ Hh) as Hd. rewrite E in Hd. apply headers_app in Hd as [_ (_ & Hd & _)].
      unfold fits. rewrite Hd. lia.
  - cbn [length] in R3. pose proof (frees_length H0 bs1). pose proof (coalesce_length (bs ++ [(c, false)])) as Hcl.
    fold bs1 in Hcl. rewrite length_app in Hcl. cbn [length] in Hcl. lia.
Qed.

(** The search in general: a block, or more memory from the kernel. *)
Definition found (grow : Z -> Z -> bool) (u : prog) (bs : list (Z * bool)) (k r : Z) (u' : prog) : Prop :=
  (r = 0 /\ u' = u /\ refused grow bs k /\ forall x, x ∈ BASE :: frees H0 bs -> ~ fits (um u) k x) \/
  (exists bs1 bs', (bs1 = bs \/ bs1 = coalesce (bs ++ [(core k, false)])) /\
     allocates bs1 k r bs' /\ heap u' bs' /\ kept (um u) (um u') bs).

Lemma loop_more grow fuel u bs k n prevp : heap u bs -> 1 <= k -> HDR * core k < 2 ^ 31 -> (S (length bs) < fuel)%nat ->
  (length bs + 2 < n)%nat -> (forall x, x ∈ BASE :: frees H0 bs -> ~ fits (um u) k x) ->
  load32 (um u) (s_ptr prevp) = freep u ->
  returns (malloc_loop grow fuel (S n) k prevp (freep u)) u (found grow u bs k).
Proof.
  intros Hh Hk Hmax Hfuel Hn Hno Hp. assert (k <= core k) as Hc by (unfold core; destruct (Z.ltb_spec k 4096); lia).
  cbn [malloc_loop]. unfold ld at 1. steps.
  assert (~ fits (um u) k (freep u)) as Hf by (apply Hno, Hh). unfold fits in Hf. rewrite (proj2 (Z.leb_gt _ _)) by lia.
  steps. rewrite Z.eqb_refl. apply wp_bind. eapply wp_mono; [by apply morecore_ok|cbv beta|done].
  intros r u' [(-> & -> & Hr)|(-> & Hr & Hu' & Hkept)].
  - change (0 =? 0) with true. steps. left. auto.
  - rewrite (proj2 (Z.eqb_neq _ _)) by done. unfold ld. steps. eapply wp_mono;
      [apply (loop_grown grow fuel u' bs (core k) k n Hu'); [by exists (um u); apply Hh|apply Hh|lia|done]| |done].
    intros r u2 (bs' & Ha & Hb & Hc'). right. exists (coalesce (bs ++ [(core k, false)])), bs'.
    split; [by right|]. split; [done|]. split; [done|].
    intros y j Hy. eapply agree_trans; [by apply Hkept|]. apply Hc'. rewrite live_coalesce, live_app. apply elem_of_app. by left.
Qed.

Lemma loop_ok grow fuel u bs k s : heap u bs -> 1 <= k -> HDR * core k < 2 ^ 31 -> (S (length bs) < fuel)%nat ->
  forall n prevp,
  links (um u) (prevp :: s) (freep u) -> prevp ∈ BASE :: frees H0 bs -> (forall x, x ∈ s -> x ∈ BASE :: frees H0 bs) ->
  freep u ∉ s -> (forall x, x ∈ BASE :: frees H0 bs -> x ∈ s ++ [freep u] \/ ~ fits (um u) k x) ->
  (length s + length bs + 3 < n)%nat ->
  returns (malloc_loop grow fuel n k prevp (load32 (um u) (s_ptr prevp))) u (found grow u bs k).
Proof.
  intros Hh Hk Hmax Hfuel. induction s as [|y s IH]; intros n prevp Hl Hpv Hs Hfs Hno Hn;
    (destruct n as [|n]; [simpl in Hn; lia|]); cbn [links hd] in Hl; destruct Hl as [Hp Hl].
  all: destruct (decide (fits (um u) k (load32 (um u) (s_ptr prevp)))) as [Hy|Hy].
  1, 3: eapply returns_mono; [by apply (take_fits grow fuel n u bs k prevp)|];
    intros r u' (bs' & Ha & Hb & Hc); right; exists bs, bs'; by auto.
  - rewrite Hp in *. apply loop_more; try done; [simpl in Hn; lia|].
    intros x Hx. destruct (Hno x Hx) as [Hx'|]; [|done]. by apply list_elem_of_singleton in Hx' as ->.
  - rewrite Hp in *. cbn [malloc_loop]. unfold ld. steps. pose proof Hy as Hy'. unfold fits in Hy'.
    rewrite (proj2 (Z.leb_gt _ _)) by lia. apply not_elem_of_cons in Hfs as [Hfy Hfs].
    steps. rewrite (proj2 (Z.eqb_neq _ _)) by done. steps.
    apply (IH n y); [done|apply Hs, elem_of_cons; by left|intros z Hz; apply Hs, elem_of_cons; by right|done| |simpl in Hn; lia].
    intros x Hx. destruct (Hno x Hx) as [Hx'|]; [|by right]. apply elem_of_cons in Hx' as [->|]; [by right|by left].
Qed.

(** ** The program's view *)

(** The heap, or the state before the first call. *)
Definition ready (u : prog) (bs : list (Z * bool)) : Prop :=
  heap u bs \/
  (freep u = 0 /\ bs = [] /\ 0 < BASE /\ BASE + HDR <= H0 /\ brk u = H0 /\ H0 < KERNBASE).

(** The headers malloc needs for [nbytes], and the largest request for which the size of
    the block in bytes is an int. *)
Definition units (nbytes : Z) : Z := (nbytes + HDR - 1) / HDR + 1.
Definition MAXALLOC : Z := 2 ^ 31 - 16.

Lemma units_bounds nbytes : 0 <= nbytes <= MAXALLOC ->
  u32 (nbytes + HDR - 1) / HDR + 1 = units nbytes /\ 1 <= units nbytes /\ HDR * core (units nbytes) < 2 ^ 31 /\
  nbytes <= HDR * (units nbytes - 1).
Proof.
  intros Hn. unfold units, core, MAXALLOC, HDR in *. rewrite u32_small by lia.
  destruct (Z.ltb_spec ((nbytes + 8 - 1) / 8 + 1) 4096); zlia.
Qed.

(** The state malloc starts the ring with. *)
Definition init_base (u : prog) : prog :=
  mkProg (store32 (store32 (um u) (s_ptr BASE) BASE) (s_size BASE) 0) BASE (brk u).

Lemma heap_init u : 0 < BASE -> BASE + HDR <= H0 -> brk u = H0 -> H0 < KERNBASE -> heap (init_base u) [].
Proof.
  intros HB0 HB Hb Hk. unfold KERNBASE, HDR in *. split; cbn [um init_base freep brk span frees headers].
  - done.
  - unfold KERNBASE. lia.
  - done.
  - rewrite load32_store32_eq. done.
  - unfold ring. cbn [hd links]. split; [|done].
    rewrite load32_store32_ne, load32_store32_eq by (unfold s_ptr, s_size; lia). apply u32_small. lia.
  - apply elem_of_cons. by left.
  - done.
Qed.

Lemma malloc_heap grow fuel u bs nbytes : heap u bs -> 0 <= nbytes <= MAXALLOC -> (2 * length bs + 4 < fuel)%nat ->
  returns (malloc_loop grow fuel fuel (units nbytes) (freep u) (load32 (um u) (s_ptr (freep u)))) u
    (found grow u bs (units nbytes)).
Proof.
  intros Hh Hn Hfuel. destruct (units_bounds nbytes Hn) as (_ & Hk & Hmax & _).
  pose proof (ring_apart _ _ (proj2 (h_base _ _ Hh)) (h_hdr _ _ Hh)) as Hap.
  destruct (ring_from (um u) (BASE :: frees H0 bs) (freep u)) as (s & R1 & R2 & R3 & R4 & R5);
    [by apply sorted_nodup|apply Hh|apply Hh|].
  apply loop_ok with (s := s); try done; [lia|apply Hh|by auto|].
  cbn [length] in R3. pose proof (frees_length H0 bs). lia.
Qed.

Lemma malloc_ok grow fuel u bs nbytes : ready u bs -> 0 <= nbytes <= MAXALLOC -> (2 * length bs + 4 < fuel)%nat ->
  returns (malloc BASE grow fuel nbytes) u (fun r u' => exists u1, heap u1 bs /\ kept (um u) (um u1) bs /\
    found grow u1 bs (units nbytes) r u').
Proof.
  intros Hr Hn Hfuel. unfold malloc, ld. rewrite (proj1 (units_bounds nbytes Hn)).
  destruct Hr as [Hh|(Hf & -> & HB0 & HB & Hbrk & Hk)].
  - assert (freep u <> 0) as Hf.
    { destruct (h_base _ _ Hh). pose proof (h_freep _ _ Hh) as Hf. apply elem_of_cons in Hf as [->|Hf]; [lia|].
      destruct (frees_bounds _ _ _ _ (h_hdr _ _ Hh) Hf). unfold HDR in *. lia. }
    steps. rewrite (proj2 (Z.eqb_neq _ _)) by done. steps.
    eapply returns_mono; [by apply malloc_heap|]. intros r u' Hfd. exists u. split; [done|]. split; [|done].
    intros y j Hy. apply agree_refl.
  - steps. rewrite Hf. change (0 =? 0) with true. unfold st. steps.
    change (set_um _ _) with (init_base u). pose proof (heap_init u HB0 HB Hbrk Hk) as Hh.
    eapply wp_mono; [apply (malloc_heap grow fuel (init_base u) [] nbytes Hh Hn Hfuel)| |done].
    intros r u' Hfd. exists (init_base u). split; [done|]. split; [|done]. by intros y j Hy%elem_of_nil.
Qed.

(** What a program does with the heap: it calls, and stores in blocks it has. *)
Inductive op := Malloc (nbytes : Z) | Free (ap : Z) | Store (a v : Z).

Definition run_op (grow : Z -> Z -> bool) (fuel : nat) (o : op) : M prog Z :=
  match o with
  | Malloc nbytes => malloc BASE grow fuel nbytes
  | Free ap => free fuel ap ;; ret 0
  | Store a v => modify (fun u => set_um (store8 (um u) a v) u) ;; ret 0
  end.

Definition legal (bs : list (Z * bool)) (o : op) : Prop :=
  match o with
  | Malloc nbytes => 0 <= nbytes <= MAXALLOC
  | Free ap => exists n, (ap - HDR, n) ∈ live H0 bs
  | Store a v => exists y n, (y, n) ∈ live H0 bs /\ y + HDR <= a < y + HDR * n
  end.

(** The same on the sequence of blocks.  malloc fails only when no free block is large
    enough and the kernel gives no more; free joins the block with its neighbours. *)
Inductive astep (grow : Z -> Z -> bool) (bs : list (Z * bool)) : op -> Z -> list (Z * bool) -> Prop :=
| A_full nbytes : refused grow bs (units nbytes) -> (forall m, (m, false) ∈ bs -> m < units nbytes) ->
    astep grow bs (Malloc nbytes) 0 bs
| A_malloc nbytes bs1 r bs' : bs1 = bs \/ bs1 = coalesce (bs ++ [(core (units nbytes), false)]) ->
    allocates bs1 (units nbytes) r bs' -> astep grow bs (Malloc nbytes) r bs'
| A_free pre n post : bs = pre ++ (n, true) :: post ->
    astep grow bs (Free (H0 + span pre + HDR)) 0 (coalesce (pre ++ (n, false) :: post))
| A_store a v : astep grow bs (Store a v) 0 bs.

Lemma live_elem a bs y n : (y, n) ∈ live a bs -> exists pre post, bs = pre ++ (n, true) :: post /\ y = a + span pre.
Proof.
  revert a. induction bs as [|[m u] bs IH]; intros a; simpl; [by intros Hx%elem_of_nil|].
  intros Hx. apply elem_of_app in Hx as [Hx|Hx].
  - destruct u; [|by apply elem_of_nil in Hx]. apply list_elem_of_singleton in Hx as [= -> ->].
    exists [], bs. split; [done|]. simpl. lia.
  - apply IH in Hx as (pre & post & -> & ->). exists ((m, u) :: pre), post. split; [done|]. simpl. lia.
Qed.

Lemma heap_store u bs a v y n : heap u bs -> (y, n) ∈ live H0 bs -> y + HDR <= a < y + HDR * n ->
  heap (set_um (store8 (um u) a v) u) bs.
Proof.
  intros [[HB0 HB] [Hbrk Hk] Hh Hbs Hr Hf Hnm] Hy Ha.
  assert (forall x, x + HDR <= a \/ a < x -> load32 (store8 (um u) a v) (s_ptr x) = load32 (um u) (s_ptr x) /\
    load32 (store8 (um u) a v) (s_size x) = load32 (um u) (s_size x)) as Hm.
  { intros x Hx. unfold s_ptr, s_size, HDR in *. split; apply load32_ext; intros i Hi; apply load8_store8_ne; lia. }
  destruct (live_bounds _ _ _ _ _ Hh Hy) as (Hy1 & _).
  split; cbn [um set_um brk freep]; try done.
  - destruct (live_elem _ _ _ _ Hy) as (pre & post & -> & ->). apply headers_app in Hh as [Hh1 Hh2].
    cbn [headers] in Hh2. destruct Hh2 as (Hn & Hs & Hh2). apply headers_app. cbn [headers]. repeat split.
    + eapply headers_agree; [exact Hh1|]. intros x Hx. apply load8_store8_ne. unfold HDR in *. lia.
    + done.
    + rewrite (proj2 (Hm (H0 + span pre) ltac:(lia))). done.
    + eapply headers_agree; [exact Hh2|]. intros x Hx. apply load8_store8_ne. lia.
  - rewrite (proj2 (Hm BASE ltac:(lia))). done.
  - eapply links_agree; [exact Hr|]. intros x Hx. apply Hm. apply elem_of_cons in Hx as [->|Hx]; [lia|].
    destruct (live_apart _ _ _ _ _ _ Hh Hx Hy); lia.
Qed.

(** What a call leaves alone: every byte of the blocks the program has before and after,
    but for the one it stores. *)
Definition untouched_blocks (o : op) (bs bs' : list (Z * bool)) (u u' : prog) : Prop :=
  forall y n x, (y, n) ∈ live H0 bs -> (y, n) ∈ live H0 bs' -> y <= x < y + HDR * n ->
    (forall v, o <> Store x v) -> load8 (um u') x = load8 (um u) x.

Lemma fits_size u bs k m : heap u bs -> (forall x, x ∈ BASE :: frees H0 bs -> ~ fits (um u) k x) -> (m, false) ∈ bs -> m < k.
Proof.
  intros Hh Hno Hm. apply list_elem_of_split in Hm as (pre & post & ->).
  specialize (Hno (H0 + span pre)). pose proof (h_hdr _ _ Hh) as Hd. apply headers_app in Hd as [_ (_ & Hd & _)].
  unfold fits in Hno. rewrite Hd in Hno. assert (~ k <= m); [|lia]. apply Hno, elem_of_cons. right.
  rewrite frees_app. apply elem_of_app. right. apply elem_of_cons. by left.
Qed.

Lemma malloc_step grow fuel u bs nbytes : ready u bs -> 0 <= nbytes <= MAXALLOC -> (2 * length bs + 4 < fuel)%nat ->
  returns (malloc BASE grow fuel nbytes) u (fun r u' => exists bs', astep grow bs (Malloc nbytes) r bs' /\
    ready u' bs' /\ kept (um u) (um u') bs).
Proof.
  intros Hr Hn Hfuel. eapply returns_mono; [by apply malloc_ok|].
  intros r u' (u1 & Hu1 & Hk1 & [(-> & -> & Href & Hno)|(bs1 & bs' & Hbs1 & Ha & Hu' & Hk2)]).
  - exists bs. split; [apply A_full; [done|intros m; by apply (fits_size u1 bs)]|]. split; [by left|done].
  - exists bs'. split; [by eapply A_malloc|]. split; [by left|].
    intros y j Hy. eapply agree_trans; [by apply Hk1|by apply Hk2].
Qed.

Lemma op_ok grow fuel u bs o : ready u bs -> legal bs o -> (2 * length bs + 4 < fuel)%nat ->
  returns (run_op grow fuel o) u (fun r u' => exists bs', astep grow bs o r bs' /\ ready u' bs' /\ untouched_blocks o bs bs' u u').
Proof.
  intros Hr Hl Hfuel. destruct o as [nbytes|ap|a v]; cbn [run_op legal] in *.
  - eapply returns_mono; [by apply malloc_step|]. intros r u' (bs' & H1 & H2 & H3). exists bs'. split; [done|]. split; [done|].
    intros y n x Hy _ Hx _. by apply (H3 y n Hy).
  - destruct Hl as [n Hl]. destruct Hr as [Hh|(_ & -> & _)]; [|by apply elem_of_nil in Hl].
    apply live_elem in Hl as (pre & post & -> & E). assert (ap = H0 + span pre + HDR) as -> by lia.
    steps. eapply wp_mono; [apply (free_ok fuel u pre n post Hh); lia| |done].
    intros ? u' [Hu' Hk]. steps. eexists. split; [by eapply A_free|]. split; [by left|].
    intros y j x _ Hy Hx _. rewrite live_coalesce in Hy. by apply (Hk y j Hy).
  - destruct Hl as (y & n & Hy & Ha). destruct Hr as [Hh|(_ & -> & _)]; [|by apply elem_of_nil in Hy].
    steps. exists bs. split; [constructor|]. split; [left; by apply (heap_store u bs a v y n)|].
    intros y' n' x _ _ _ Hne. cbn [um set_um]. apply load8_store8_ne. intros ->. by apply (Hne v).
Qed.

(** The block malloc returns: large enough, and apart from all others. *)
Definition own_block (nbytes r : Z) (bs bs' : list (Z * bool)) : Prop :=
  let k := units nbytes in
  (r - HDR, k) ∈ live H0 bs' /\ nbytes <= HDR * (k - 1) /\
  forall y j, (y, j) ∈ live H0 bs -> (y, j) ∈ live H0 bs' /\ (y + HDR * j <= r - HDR \/ r - HDR + HDR * k <= y).

Lemma allocates_own grow bs nbytes r bs' m : 0 <= nbytes <= MAXALLOC -> headers m H0 bs' ->
  astep grow bs (Malloc nbytes) r bs' -> r <> 0 -> own_block nbytes r bs bs'.
Proof.
  intros Hn Hh Ha Hr. destruct (units_bounds nbytes Hn) as (_ & Hk & _ & Hlen).
  inversion Ha as [|? bs1 ? ? Hbs1 (pre & c & post & -> & Hkc & -> & ->)| |]; subst; [done|].
  set (k := units nbytes) in *. clear Ha.
  assert (live H0 bs = live H0 pre ++ live (H0 + span pre + HDR * c) post) as E1.
  { transitivity (live H0 (pre ++ (c, false) :: post)); [|by rewrite live_app].
    destruct Hbs1 as [->| ->]; [done|]. rewrite live_coalesce, live_app. cbn [live app]. by rewrite app_nil_r. }
  assert (live H0 (pre ++ split_block c k ++ post) =
    live H0 pre ++ (H0 + span pre + HDR * (c - k), k) :: live (H0 + span pre + HDR * c) post) as E2.
  { rewrite live_app. unfold split_block. destruct (Z.eqb_spec c k) as [->|]; cbn [live app].
    - replace (H0 + span pre + HDR * (k - k)) with (H0 + span pre) by lia. done.
    - replace (H0 + span pre + HDR * (c - k) + HDR * k) with (H0 + span pre + HDR * c) by lia. done. }
  assert (span (split_block c k) = HDR * c) as E3.
  { unfold split_block. destruct (Z.eqb_spec c k) as [->|]; cbn [span]; lia. }
  apply headers_app in Hh as [Hh1 Hh2]. apply headers_app in Hh2 as [_ Hh2]. rewrite E3 in Hh2.
  replace (H0 + span pre + HDR * (c - k) + HDR - HDR) with (H0 + span pre + HDR * (c - k)) by lia.
  unfold own_block. rewrite E1, E2. fold k. 
  replace (H0 + span pre + HDR * (c - k) + HDR - HDR) with (H0 + span pre + HDR * (c - k)) by lia.
  split; [apply elem_of_app; right; apply elem_of_cons; by left|]. split; [done|]. intros y j Hy.
  apply elem_of_app in Hy as [Hy|Hy].
  - split; [apply elem_of_app; by left|]. destruct (live_bounds _ _ _ _ _ Hh1 Hy) as (_ & ? & _). unfold HDR in *. lia.
  - split; [apply elem_of_app; right; apply elem_of_cons; by right|].
    destruct (live_bounds _ _ _ _ _ Hh2 Hy) as (? & _). unfold HDR in *. lia.
Qed.

Lemma malloc_fresh grow fuel u bs nbytes : ready u bs -> 0 <= nbytes <= MAXALLOC -> (2 * length bs + 4 < fuel)%nat ->
  returns (run_op grow fuel (Malloc nbytes)) u (fun r u' => exists bs', astep grow bs (Malloc nbytes) r bs' /\ ready u' bs' /\
    untouched_blocks (Malloc nbytes) bs bs' u u' /\ (r <> 0 -> own_block nbytes r bs bs')).
Proof.
  intros Hr Hn Hfuel. eapply returns_mono; [by apply (op_ok grow fuel u bs (Malloc nbytes))|].
  intros r u' (bs' & Ha & Hu' & Hb). exists bs'. do 3 (split; [done|]). intros H1.
  assert (bs' = [] \/ exists m, headers m H0 bs') as [->|[m Hm]].
  { destruct Hu' as [Hu'|(_ & -> & _)]; [right; exists (um u'); apply Hu'|by left]. }
  - by apply (allocates_own grow bs nbytes r [] ∅).
  - by apply (allocates_own grow bs nbytes r bs' m).
Qed.

(** A request that wraps around is answered with a block without room. *)
Lemma malloc_wraps grow fuel : malloc BASE grow fuel (2 ^ 32 - 1) = malloc BASE grow fuel 0.
Proof. reflexivity. Qed.
End heap.

(** C16. The allocator of user programs keeps the heap in order, whatever a program does
    with it: malloc, free of a block it has, stores into such blocks.  Every call returns;
    the blocks go on covering the heap, with the free ones in a ring and no two of them
    adjacent; no byte of a block the program keeps changes; malloc returns a block with
    room for the request and apart from all others, and fails only when no free block is
    large enough and the kernel refuses to grow the process. *)
Theorem malloc_free_refines BASE H0 grow fuel u bs o :
  ready BASE H0 u bs -> legal H0 bs o -> (2 * length bs + 4 < fuel)%nat ->
  returns (run_op BASE grow fuel o) u (fun r u' => exists bs', astep H0 grow bs o r bs' /\
    ready BASE H0 u' bs' /\ untouched_blocks H0 o bs bs' u u' /\
    forall nbytes, o = Malloc nbytes -> r <> 0 -> own_block H0 nbytes r bs bs').
Proof.
  intros Hr Hl Hf. destruct o as [nbytes|ap|a v].
  - eapply returns_mono; [by apply malloc_fresh|]. intros r u' (bs' & H1 & H2 & H3 & H4). exists bs'.
    do 3 (split; [done|]). by intros ? [= ->].
  - eapply returns_mono; [by apply (op_ok BASE H0 grow fuel u bs (Free ap))|]. intros r u' (bs' & H1 & H2 & H3). by exists bs'.
  - eapply returns_mono; [by apply (op_ok BASE H0 grow fuel u bs (Store a v))|]. intros r u' (bs' & H1 & H2 & H3). by exists bs'.
Qed.

(** A program with its first page used, and the header [base] in it. *)
Definition sample_prog : prog := mkProg ∅ 0 0x4000.

Lemma malloc_free_refines_witness : ready 0xf00 0x4000 sample_prog [] /\
  returns (run_op 0xf00 (fun _ _ => true) 10 (Malloc 100)) sample_prog (fun r u' => exists bs',
    ready 0xf00 0x4000 u' bs' /\ (r <> 0 -> own_block 0x4000 100 r [] bs')).
Proof.
  assert (ready 0xf00 0x4000 sample_prog []) as Hr by (right; repeat split; vm_compute; congruence).
  split; [exact Hr|]. eapply returns_mono;
    [apply (malloc_free_refines 0xf00 0x4000 (fun _ _ => true) 10 sample_prog [] (Malloc 100) Hr)|].
  - split; vm_compute; congruence.
  - simpl. lia.
  - intros r u' (bs' & _ & H1 & _ & H2). exists bs'. split; [exact H1|]. by apply H2.
Defined.
