(* ===== verification/Ulib.v ===== *)
(** * Strings of user programs

    Functions of ulib.c on strings, which are lists of bytes that end at the first 0, and
    gets, which reads one byte at a time. *)

From S2P Require Import Prelude.

Definition NL : Z := 10.
Definition CR : Z := 13.

(** The string that starts at a byte. *)
Fixpoint cstring (l : list Z) : list Z :=
  match l with [] => [] | b :: l => if b =? 0 then [] else b :: cstring l end.

Fixpoint strlen (s : list Z) : nat :=
  match s with b :: s => if b =? 0 then 0 else S (strlen s) | [] => 0 end.

(** The bytes of [s] after strcpy(s, t). *)
Fixpoint strcpy (s t : list Z) : list Z :=
  match s, t with
  | _ :: s, c :: t => if c =? 0 then 0 :: s else c :: strcpy s t
  | _, _ => s
  end.

Fixpoint strcmp (p q : list Z) : Z :=
  match p, q with
  | a :: p', b :: q' => if negb (a =? 0) && (a =? b) then strcmp p' q' else u8 a - u8 b
  | _, _ => 0
  end.

(** strchr(s, c) from the [i]-th byte: where [c] is, or that the string ends before;
    [None] when it does not end. *)
Fixpoint strchr_at (c : Z) (l : list Z) (i : nat) : option (option nat) :=
  match l with
  | [] => None
  | b :: l => if b =? 0 then Some None else if b =? c then Some (Some i) else strchr_at c l (S i)
  end.

(** gets(buf, max) on the bytes descriptor 0 has: the bytes stored before the final 0,
    and the input left. *)
Fixpoint gets_bytes (room : nat) (input : list Z) : list Z * list Z :=
  match room, input with
  | S room, c :: input =>
      if (c =? NL) || (c =? CR) then ([c], input)
      else let r := gets_bytes room input in (c :: r.1, r.2)
  | _, _ => ([], input)
  end.
Definition gets_line (max : Z) (input : list Z) : list Z * list Z :=
  let r := gets_bytes (Z.to_nat (max - 1)) input in (r.1 ++ [0], r.2).

(** ** The string of a list *)

Lemma cstring_app s l : 0 ∉ s -> cstring (s ++ 0 :: l) = s.
Proof.
  induction s as [|b s IH]; intros H0; simpl; [done|]. apply not_elem_of_cons in H0 as [Hb H0].
  by rewrite (proj2 (Z.eqb_neq b 0)), IH by done.
Qed.

Lemma strlen_cstring s : strlen s = length (cstring s).
Proof. induction s as [|b s IH]; simpl; [done|]. destruct (b =? 0); simpl; by rewrite ?IH. Qed.

Lemma cstring_nz s : 0 ∉ cstring s.
Proof.
  induction s as [|b s IH]; simpl; [apply not_elem_of_nil|].
  destruct (Z.eqb_spec b 0); [apply not_elem_of_nil|]. by apply not_elem_of_cons.
Qed.

(** strcpy copies the string, and what is behind it in [s] stays. *)
Lemma strcpy_spec s t l : 0 ∉ t -> (length t < length s)%nat ->
  strcpy s (t ++ 0 :: l) = t ++ 0 :: drop (S (length t)) s.
Proof.
  revert s. induction t as [|c t IH]; intros s H0 Hlen; destruct s as [|b s]; simpl in *; try lia; [done|].
  apply not_elem_of_cons in H0 as [Hc H0]. rewrite (proj2 (Z.eqb_neq c 0)) by done. f_equal. apply IH; [done|lia].
Qed.

(** strcmp tells equal strings from different ones. *)
Lemma strcmp_eq p q l l' : Forall (fun b => 0 < b < 256) p -> Forall (fun b => 0 < b < 256) q ->
  strcmp (p ++ 0 :: l) (q ++ 0 :: l') = 0 <-> p = q.
Proof.
  intros Hp. revert q. induction Hp as [|a p Ha Hp IH]; intros q Hq; destruct Hq as [|b q Hb Hq]; simpl.
  - done.
  - split; [|done]. change (u8 0) with 0. unfold u8. rewrite Z.mod_small by lia. lia.
  - rewrite (proj2 (Z.eqb_neq a 0)) by lia. simpl. split; [|done]. change (u8 0) with 0. unfold u8.
    rewrite Z.mod_small by lia. lia.
  - rewrite (proj2 (Z.eqb_neq a 0)) by lia. simpl. destruct (Z.eqb_spec a b) as [->|Hne].
    + rewrite IH by done. split; [by intros ->|by intros [= ->]].
    + unfold u8. rewrite !Z.mod_small by lia. split; [lia|]. by intros [= ->].
Qed.

(** gets stores at most [max] bytes, the last a 0; the rest of a long line stays in the input. *)
Lemma gets_spec max input : 1 <= max ->
  let r := gets_line max input in
  Z.of_nat (length r.1) <= max /\ input = removelast r.1 ++ r.2.
Proof.
  intros Hm. unfold gets_line. cbn [fst snd]. rewrite removelast_last, length_app.
  assert (forall n l, (length (gets_bytes n l).1 <= n)%nat /\ l = (gets_bytes n l).1 ++ (gets_bytes n l).2) as Hg.
  { induction n as [|n IH]; intros l; [destruct l; (split; [simpl; lia|done])|].
    destruct l as [|c l]; [split; [simpl; lia|done]|]. simpl.
    destruct ((c =? NL) || (c =? CR)); simpl; [split; [lia|done]|]. destruct (IH l) as [? ?]. split; [lia|by f_equal]. }
  destruct (Hg (Z.to_nat (max - 1)) input). split; [simpl; lia|done].
Qed.
