(* ===== verification/User.v ===== *)
(** * User programs as the system calls they make

    A program is a tree: a system call with its arguments, and what follows for each answer
    of the kernel - its return value and the bytes it stored for the program.  The numbers
    of the calls are those of syscall.h.  A world answers the calls of one process that
    reads and writes files; how many bytes a read gives is up to the world.  Then the
    parts of ulib.c and printf.c that make system calls. *)

From S2P Require Import Prelude Bytes Console Ulib.

Inductive sys : Type :=
| SFork | SExit | SWait | SPipe
| SRead (fd n : Z) | SKill (pid : Z) | SExec (path : list Z) (argv : list (list Z))
| SFstat (fd : Z) | SChdir (path : list Z) | SDup (fd : Z) | SGetpid | SSbrk (n : Z)
| SSleep (n : Z) | SUptime | SOpen (path : list Z) (mode : Z) | SWrite (fd : Z) (data : list Z)
| SMknod (path : list Z) (major minor : Z) | SUnlink (path : list Z) | SLink (old new : list Z)
| SMkdir (path : list Z) | SClose (fd : Z) | SHalt
| SSignalRegister (signum handler : Z) | SSignalRestorer (restorer : Z)
| SMprotect (addr len prot : Z) | SCowfork.

Definition sysno (c : sys) : Z :=
  match c with
  | SFork => 1 | SExit => 2 | SWait => 3 | SPipe => 4 | SRead _ _ => 5 | SKill _ => 6
  | SExec _ _ => 7 | SFstat _ => 8 | SChdir _ => 9 | SDup _ => 10 | SGetpid => 11
  | SSbrk _ => 12 | SSleep _ => 13 | SUptime => 14 | SOpen _ _ => 15 | SWrite _ _ => 16
  | SMknod _ _ _ => 17 | SUnlink _ => 18 | SLink _ _ => 19 | SMkdir _ => 20 | SClose _ => 21
  | SHalt => 22 | SSignalRegister _ _ => 23 | SSignalRestorer _ => 24
  | SMprotect _ _ _ => 25 | SCowfork => 26
  end.

(** [Exit] is a call of exit, [Stuck] a loop that ran out of fuel. *)
Inductive prog (A : Type) : Type :=
| Ret (a : A)
| Exit
| Stuck
| Sys (c : sys) (k : Z -> list Z -> prog A).
Arguments Ret {A} a.
Arguments Exit {A}.
Arguments Stuck {A}.
Arguments Sys {A} c k.

Fixpoint pbind {A B} (p : prog A) (f : A -> prog B) : prog B :=
  match p with
  | Ret a => f a
  | Exit => Exit
  | Stuck => Stuck
  | Sys c k => Sys c (fun r d => pbind (k r d) f)
  end.

Declare Scope prog_scope.
Delimit Scope prog_scope with prog.
Notation "'let*' x := p 'in' q" := (pbind p (fun x => q))
  (at level 10, x name, p at level 100, q at level 200) : prog_scope.
Notation "'let*' ' x := p 'in' q" := (pbind p (fun y => match y with x => q end))
  (at level 10, x pattern, p at level 100, q at level 200) : prog_scope.
Notation "p ;* q" := (pbind p (fun _ => q)) (at level 100, q at level 200, right associativity) : prog_scope.
#[global] Open Scope prog_scope.

(** A call for its return value, and for both parts of the answer. *)
Definition call (c : sys) : prog Z := Sys c (fun r _ => Ret r).
Definition call2 (c : sys) : prog (Z * list Z) := Sys c (fun r d => Ret (r, d)).

(** A string of the source as bytes. *)
Definition cs (s : string) : list Z := map (fun c => Z.of_nat (Ascii.nat_of_ascii c)) (String.list_ascii_of_string s).
Definition line_ (s : string) : list Z := cs s ++ [10].

(** ** printf.c *)

Definition uputc (fd c : Z) : prog unit := Sys (SWrite fd [u8 c]) (fun _ _ => Ret tt).
Fixpoint uputs (fd : Z) (l : list Z) : prog unit :=
  match l with [] => Ret tt | c :: l => uputc fd c ;* uputs fd l end.

(** Arguments of printf; a string is given by a pointer, here its place in the list. *)
Inductive parg := PInt (z : Z) | PStr (s : list Z).
Definition parg_word (args : list parg) (k : nat) : Z :=
  match args !! k with Some (PInt z) => u32 z | Some (PStr _) => Z.of_nat (S k) | None => 0 end.
Definition parg_str (args : list parg) (a : Z) : list Z :=
  match args !! pred (Z.to_nat a) with Some (PStr s) => s | _ => [] end.

Definition uprintf (fd : Z) (fmt : list Z) (args : list parg) : prog unit :=
  uputs fd (printf (parg_str args) fmt (parg_word args)).

(** ** ulib.c *)

(** stat: the return value and the bytes of struct stat. *)
Definition ustat (n : list Z) : prog (Z * list Z) :=
  let* fd := call (SOpen n 0) in
  if fd <? 0 then Ret (-1, [])
  else
    let* '(r, st) := call2 (SFstat fd) in
    call (SClose fd) ;*
    Ret (r, st).

(** signal; [restorer] is the address of the code in ulib.c. *)
Definition usignal (restorer signum handler : Z) : prog Z :=
  call (SSignalRestorer restorer) ;* call (SSignalRegister signum handler).

(** ** Running a program *)

Inductive ures (A : Type) : Type := UDone (a : A) | UExit | UStuck.
Arguments UDone {A} a.
Arguments UExit {A}.
Arguments UStuck {A}.

Fixpoint run {W A} (h : sys -> W -> Z * list Z * W) (p : prog A) (w : W) : ures A * W :=
  match p with
  | Ret a => (UDone a, w)
  | Exit => (UExit, w)
  | Stuck => (UStuck, w)
  | Sys c k => let '(r, d, w') := h c w in run h (k r d) w'
  end.

Lemma run_bind {W A B} (h : sys -> W -> Z * list Z * W) (p : prog A) (f : A -> prog B) w a w' :
  run h p w = (UDone a, w') -> run h (pbind p f) w = run h (f a) w'.
Proof.
  revert w. induction p as [b| | |c k IH]; intros w; simpl; [by intros [= -> ->]|done|done|].
  destruct (h c w) as [[r d] w1]. apply IH.
Qed.

Lemma run_bind_exit {W A B} (h : sys -> W -> Z * list Z * W) (p : prog A) (f : A -> prog B) w w' :
  run h p w = (UExit, w') -> run h (pbind p f) w = (UExit, w').
Proof.
  revert w. induction p as [b| | |c k IH]; intros w; simpl; [done|by intros [= ->]|done|].
  destruct (h c w) as [[r d] w1]. apply IH.
Qed.

(** ** A world of files for one process

    [wfiles]: the contents of files by their names, with the bytes fstat gives; [wfds]: what
    is left to read on a descriptor, and the stat of its file; [wout]: what was written to
    a descriptor; [wsizes]: at most how many bytes the n-th read gives; [wother]: the
    answers to calls that are not about files; [wcalls]: the calls made. *)
Record world := mkWorld {
  wfiles : list Z -> option (list Z * list Z);
  wfds : gmap Z (list Z * list Z);
  wout : Z -> list Z;
  wsizes : nat -> nat;
  wreads : nat;
  wother : sys -> Z;
  wcalls : list sys }.

Definition set_wfds (f : gmap Z (list Z * list Z)) (w : world) : world :=
  mkWorld (wfiles w) f (wout w) (wsizes w) (wreads w) (wother w) (wcalls w).
Definition set_wout (o : Z -> list Z) (w : world) : world :=
  mkWorld (wfiles w) (wfds w) o (wsizes w) (wreads w) (wother w) (wcalls w).
Definition set_wreads (n : nat) (w : world) : world :=
  mkWorld (wfiles w) (wfds w) (wout w) (wsizes w) n (wother w) (wcalls w).
Definition set_wcalls (l : list sys) (w : world) : world :=
  mkWorld (wfiles w) (wfds w) (wout w) (wsizes w) (wreads w) (wother w) l.

(** A read of [n] bytes gives at least one while there are any. *)
Definition read_size (n : Z) (most : nat) (rest : list Z) : nat :=
  Nat.min (length rest) (Nat.min (Z.to_nat n) (Nat.max 1 most)).

Fixpoint free_fd (n : nat) (fd : Z) (t : gmap Z (list Z * list Z)) : option Z :=
  match n with
  | O => None
  | S n => match t !! fd with None => Some fd | Some _ => free_fd n (fd + 1) t end
  end.

Definition serve (c : sys) (w0 : world) : Z * list Z * world :=
  let w := set_wcalls (wcalls w0 ++ [c]) w0 in
  match c with
  | SRead fd n =>
      match wfds w !! fd with
      | Some (rest, st) =>
          let k := read_size n (wsizes w (wreads w)) rest in
          (Z.of_nat k, take k rest, set_wreads (S (wreads w)) (set_wfds (<[fd := (drop k rest, st)]> (wfds w)) w))
      | None => (-1, [], w)
      end
  | SWrite fd l => (zlen l, [], set_wout (upd fd (wout w fd ++ l) (wout w)) w)
  | SOpen path _ =>
      match wfiles w path, free_fd 16 0 (wfds w) with
      | Some f, Some fd => (fd, [], set_wfds (<[fd := f]> (wfds w)) w)
      | _, _ => (-1, [], w)
      end
  | SFstat fd => match wfds w !! fd with Some (_, st) => (0, st, w) | None => (-1, [], w) end
  | SClose fd =>
      match wfds w !! fd with Some _ => (0, [], set_wfds (delete fd (wfds w)) w) | None => (-1, [], w) end
  | _ => (wother w c, [], w)
  end.

(** What changes when only the descriptor [fd] is written to. *)
Record wrote (fd : Z) (l : list Z) (w w' : world) : Prop := {
  wr_files : wfiles w' = wfiles w;
  wr_fds : wfds w' = wfds w;
  wr_sizes : wsizes w' = wsizes w;
  wr_out : wout w' fd = wout w fd ++ l;
  wr_other : forall x, x <> fd -> wout w' x = wout w x }.

Lemma wrote_trans fd l1 l2 w1 w2 w3 : wrote fd l1 w1 w2 -> wrote fd l2 w2 w3 -> wrote fd (l1 ++ l2) w1 w3.
Proof.
  intros [A1 A2 A3 A4 A5] [B1 B2 B3 B4 B5]. split; [congruence..| |].
  - by rewrite B4, A4, app_assoc.
  - intros x Hx. by rewrite B5, A5.
Qed.

Lemma run_uputs fd l w : exists w', run serve (uputs fd l) w = (UDone tt, w') /\ wrote fd (map u8 l) w w'.
Proof.
  revert w. induction l as [|c l IH]; intros w.
  - exists w. split; [done|]. split; [done..|by rewrite app_nil_r|done].
  - cbn [uputs uputc pbind run serve map]. set (w1 := set_wout _ _). destruct (IH w1) as (w' & -> & Hw). exists w'. split; [done|].
    change (u8 c :: map u8 l) with ([u8 c] ++ map u8 l). eapply wrote_trans; [|exact Hw]. split; [done..| |].
    + cbn. by rewrite upd_eq.
    + intros x Hx. cbn. by rewrite upd_ne.
Qed.

Lemma run_uprintf fd fmt args w : exists w', run serve (uprintf fd fmt args) w = (UDone tt, w') /\
  wrote fd (map u8 (printf (parg_str args) fmt (parg_word args))) w w'.
Proof. apply run_uputs. Qed.
