(* ===== verification/Utils.v ===== *)
(** * cat, wc, ls, echo and the other small programs

    cat.c, wc.c, ls.c, echo.c, kill.c, ln.c, mkdir.c, rm.c, init.c, zombie.c, shutdown.c, and the
    start of sh.c, as trees of system calls.  Theorems, for a world that gives any number of
    bytes with each read: cat writes the files one after the other; wc prints the numbers
    of lines, words and bytes; ls prints one line for each entry of a directory. *)

From S2P Require Import Prelude Bytes Console Ulib User.

Definition O_RDWR : Z := 2.

(** ** cat.c *)

Fixpoint cat (fuel : nat) (fd : Z) : prog unit :=
  match fuel with
  | O => Stuck
  | S f =>
      let* '(n, buf) := call2 (SRead fd 512) in
      if 0 <? n then call (SWrite 1 (take (Z.to_nat n) buf)) ;* cat f fd
      else if n <? 0 then uprintf 1 (line_ "cat: read error") [] ;* Exit
      else Ret tt
  end.

(** The loops of cat and wc over their files. *)
Fixpoint open_each (body : Z -> list Z -> prog unit) (msg : list Z) (files : list (list Z)) : prog unit :=
  match files with
  | [] => Exit
  | a :: files =>
      let* fd := call (SOpen a 0) in
      if fd <? 0 then uprintf 1 msg [PStr a] ;* Exit
      else
        body fd a ;*
        call (SClose fd) ;*
        open_each body msg files
  end.

Definition cat_main (fuel : nat) (argv : list (list Z)) : prog unit :=
  match argv with
  | [] | [_] => cat fuel 0 ;* Exit
  | _ :: files => open_each (fun fd _ => cat fuel fd) (line_ "cat: cannot open %s") files
  end.

(** ** wc.c *)

Record counts := mkCounts { nl : Z; nw : Z; nc : Z; inword : bool }.
Definition counts0 : counts := mkCounts 0 0 0 false.

(** strchr of the white space *)
Definition wc_space (b : Z) : bool :=
  match strchr_at b [32; 13; 9; 10; 11; 0] 0 with Some (Some _) => true | _ => false end.

Definition wc_byte (s : counts) (b : Z) : counts :=
  let c := s32 (nc s + 1) in
  let l := if b =? 10 then s32 (nl s + 1) else nl s in
  if wc_space b then mkCounts l (nw s) c false
  else if negb (inword s) then mkCounts l (s32 (nw s + 1)) c true
  else mkCounts l (nw s) c (inword s).

Fixpoint wc_loop (fuel : nat) (fd : Z) (s : counts) : prog counts :=
  match fuel with
  | O => Stuck
  | S f =>
      let* '(n, buf) := call2 (SRead fd 512) in
      if 0 <? n then wc_loop f fd (fold_left wc_byte (take (Z.to_nat n) buf) s)
      else if n <? 0 then uprintf 1 (line_ "wc: read error") [] ;* Exit
      else Ret s
  end.

Definition wc (fuel : nat) (fd : Z) (name : list Z) : prog unit :=
  let* s := wc_loop fuel fd counts0 in
  uprintf 1 (line_ "%d %d %d %s") [PInt (nl s); PInt (nw s); PInt (nc s); PStr name].

Definition wc_main (fuel : nat) (argv : list (list Z)) : prog unit :=
  match argv with
  | [] | [_] => wc fuel 0 [] ;* Exit
  | _ :: files => open_each (wc fuel) (line_ "wc: cannot open %s") files
  end.

(** ** ls.c *)

Definition DIRSIZ : nat := 14.
Definition slash : Z := 47.

(** The part of a string after its last slash: [p] goes down from its end. *)
Fixpoint after_slash (n : nat) (path : list Z) : list Z :=
  match n with
  | O => path
  | S n => if nth n path 0 =? slash then drop (S n) path else after_slash n path
  end.

Definition fmtname (path : list Z) : list Z :=
  let p := after_slash (length path) path in
  if (DIRSIZ <=? length p)%nat then p else p ++ replicate (DIRSIZ - length p) 32.

(** struct stat and struct dirent *)
Definition st_type (st : list Z) : Z := s16 (rd 2 0 st).
Definition st_ino (st : list Z) : Z := rd 4 8 st.
Definition st_size (st : list Z) : Z := rd 4 16 st.
Definition de_inum (de : list Z) : Z := rd 2 0 de.
Definition de_name (de : list Z) : list Z := cstring (slice 2 14 de).

Definition ls_line (path st : list Z) : prog unit :=
  uprintf 1 (line_ "%s %d %d %d") [PStr (fmtname path); PInt (st_type st); PInt (st_ino st); PInt (st_size st)].

Fixpoint ls_entries (fuel : nat) (fd : Z) (path : list Z) : prog unit :=
  match fuel with
  | O => Stuck
  | S f =>
      let* '(n, de) := call2 (SRead fd 16) in
      if n =? 16 then
        if de_inum de =? 0 then ls_entries f fd path
        else
          let buf := path ++ [slash] ++ de_name de in
          let* '(r, st) := ustat buf in
          (if r <? 0 then uprintf 1 (line_ "ls: cannot stat %s") [PStr buf] else ls_line buf st) ;*
          ls_entries f fd path
      else Ret tt
  end.

Definition ls (fuel : nat) (path : list Z) : prog unit :=
  let* fd := call (SOpen path 0) in
  if fd <? 0 then uprintf 2 (line_ "ls: cannot open %s") [PStr path]
  else
    let* '(r, st) := call2 (SFstat fd) in
    if r <? 0 then
      uprintf 2 (line_ "ls: cannot stat %s") [PStr path] ;*
      call (SClose fd) ;*
      Ret tt
    else
      (if st_type st =? 2 then ls_line path st
       else if st_type st =? 1 then
         if (512 <? length path + 1 + DIRSIZ + 1)%nat then uprintf 1 (line_ "ls: path too long") []
         else ls_entries fuel fd path
       else Ret tt) ;*
      call (SClose fd) ;*
      Ret tt.

Fixpoint ls_all (fuel : nat) (paths : list (list Z)) : prog unit :=
  match paths with [] => Exit | a :: paths => ls fuel a ;* ls_all fuel paths end.

Definition ls_main (fuel : nat) (argv : list (list Z)) : prog unit :=
  match argv with
  | [] | [_] => ls fuel (cs ".") ;* Exit
  | _ :: paths => ls_all fuel paths
  end.

(** ** echo.c, kill.c, ln.c, mkdir.c, rm.c, zombie.c, shutdown.c *)

Fixpoint echo_args (args : list (list Z)) : prog unit :=
  match args with
  | [] => Exit
  | a :: rest =>
      uprintf 1 (cs "%s%s") [PStr a; PStr (match rest with [] => [10] | _ => [32] end)] ;*
      echo_args rest
  end.
Definition echo_main (argv : list (list Z)) : prog unit := echo_args (tl argv).

Fixpoint kill_all (args : list (list Z)) : prog unit :=
  match args with [] => Exit | a :: rest => call (SKill (atoi a)) ;* kill_all rest end.
Definition kill_main (argv : list (list Z)) : prog unit :=
  if (length argv <? 1)%nat then uprintf 2 (line_ "usage: kill pid...") [] ;* Exit else kill_all (tl argv).

Definition ln_main (argv : list (list Z)) : prog unit :=
  match argv with
  | [_; old; new] =>
      let* r := call (SLink old new) in
      (if r <? 0 then uprintf 2 (line_ "link %s %s: failed") [PStr old; PStr new] else Ret tt) ;*
      Exit
  | _ => uprintf 2 (line_ "Usage: ln old new") [] ;* Exit
  end.

(** The loops of mkdir and rm, which stop at the first failure. *)
Fixpoint each_file (op : list Z -> sys) (msg : list Z) (files : list (list Z)) : prog unit :=
  match files with
  | [] => Exit
  | a :: files =>
      let* r := call (op a) in
      if r <? 0 then uprintf 2 msg [PStr a] ;* Exit else each_file op msg files
  end.
Definition mkdir_main (argv : list (list Z)) : prog unit :=
  if (length argv <? 2)%nat then uprintf 2 (line_ "Usage: mkdir files...") [] ;* Exit
  else each_file SMkdir (line_ "mkdir: %s failed to create") (tl argv).
Definition rm_main (argv : list (list Z)) : prog unit :=
  if (length argv <? 2)%nat then uprintf 2 (line_ "Usage: rm files...") [] ;* Exit
  else each_file SUnlink (line_ "rm: %s failed to delete") (tl argv).

Definition zombie_main : prog unit :=
  let* pid := call SFork in
  (if 0 <? pid then call (SSleep 5) ;* Ret tt else Ret tt) ;*
  Exit.

Definition shutdown_main : prog unit := call SHalt ;* Exit.

(** ** init.c and the start of sh.c *)

(** Waiting for the shell; [zombie!] for every other process that ends. *)
Fixpoint init_wait (fuel : nat) (pid : Z) : prog unit :=
  match fuel with
  | O => Stuck
  | S f =>
      let* wpid := call SWait in
      if (0 <=? wpid) && negb (wpid =? pid) then uprintf 1 (line_ "zombie!") [] ;* init_wait f pid
      else Ret tt
  end.

Fixpoint init_loop (fuel : nat) : prog unit :=
  match fuel with
  | O => Stuck
  | S f =>
      uprintf 1 (line_ "init: starting sh") [] ;*
      let* pid := call SFork in
      if pid <? 0 then uprintf 1 (line_ "init: fork failed") [] ;* Exit
      else if pid =? 0 then
        call (SExec (cs "sh") [cs "sh"]) ;*
        uprintf 1 (line_ "init: exec sh failed") [] ;*
        Exit
      else init_wait f pid ;* init_loop f
  end.

Definition init_main (fuel : nat) : prog unit :=
  let* fd := call (SOpen (cs "console") O_RDWR) in
  (if fd <? 0 then
     call (SMknod (cs "console") 1 1) ;*
     call (SOpen (cs "console") O_RDWR) ;*
     Ret tt
   else Ret tt) ;*
  call (SDup 0) ;*
  call (SDup 0) ;*
  init_loop fuel.

Fixpoint sh_console (fuel : nat) : prog unit :=
  match fuel with
  | O => Stuck
  | S f =>
      let* fd := call (SOpen (cs "console") O_RDWR) in
      if 0 <=? fd then
        if 3 <=? fd then call (SClose fd) ;* Ret tt else sh_console f
      else Ret tt
  end.

(** ** Reading a descriptor to its end *)

(** What is the same after reads from [fd] and writes to 1: the names, the read sizes, what
    went to other descriptors; [l] has gone to 1. *)
Record printed (l : list Z) (w w' : world) : Prop := {
  pr_files : wfiles w' = wfiles w;
  pr_sizes : wsizes w' = wsizes w;
  pr_out : wout w' 1 = wout w 1 ++ l;
  pr_other : forall x, x <> 1 -> wout w' x = wout w x }.

Lemma printed_refl w : printed [] w w.
Proof. split; [done..|by rewrite app_nil_r|done]. Qed.

Lemma printed_trans l1 l2 w1 w2 w3 : printed l1 w1 w2 -> printed l2 w2 w3 -> printed (l1 ++ l2) w1 w3.
Proof.
  intros [A1 A2 A3 A4] [B1 B2 B3 B4]. split; [congruence..| |].
  - by rewrite B3, A3, app_assoc.
  - intros x Hx. by rewrite B4, A4.
Qed.

Lemma wrote_printed l w w' : wrote 1 l w w' -> printed l w w'.
Proof. by intros [A1 A2 A3 A4 A5]. Qed.

(** One read: a piece of what is left, empty only at the end. *)
Lemma serve_read fd n rest st w : wfds w !! fd = Some (rest, st) -> 1 <= n -> exists k w',
  serve (SRead fd n) w = (Z.of_nat k, take k rest, w') /\ (k <= length rest)%nat /\ (Z.of_nat k <= n) /\
  (rest <> [] -> (1 <= k)%nat) /\ printed [] w w' /\ wfds w' = <[fd := (drop k rest, st)]> (wfds w).
Proof.
  intros Hf Hn. unfold serve. cbn [wfds set_wcalls wsizes wreads]. rewrite Hf.
  set (k := read_size n _ rest). eexists k, _. split; [reflexivity|].
  assert (k <= length rest)%nat as H1 by (unfold k, read_size; lia).
  assert (Z.of_nat k <= n) as H2 by (unfold k, read_size; lia).
  split; [done|]. split; [done|]. split.
  - intros Hr. assert (0 < length rest)%nat by (destruct rest; [done|simpl; lia]). unfold k, read_size. lia.
  - split; [|done]. split; [done..|by rewrite app_nil_r|done].
Qed.

Lemma run_call2 {A} c (f : Z * list Z -> prog A) w r d w' : serve c w = (r, d, w') ->
  run serve (pbind (call2 c) f) w = run serve (f (r, d)) w'.
Proof. intros Hs. cbn [call2 pbind run]. by rewrite Hs. Qed.

Lemma run_call {A} c (f : Z -> prog A) w r d w' : serve c w = (r, d, w') ->
  run serve (pbind (call c) f) w = run serve (f r) w'.
Proof. intros Hs. cbn [call pbind run]. by rewrite Hs. Qed.

(** ** cat *)

(** However the reads cut it, what is left on the descriptor goes to descriptor 1. *)
Lemma cat_ok fuel fd rest st w : wfds w !! fd = Some (rest, st) -> (length rest < fuel)%nat -> exists w',
  run serve (cat fuel fd) w = (UDone tt, w') /\ printed rest w w' /\ wfds w' = <[fd := ([], st)]> (wfds w).
Proof.
  revert rest w. induction fuel as [|fuel IH]; intros rest w Hf Hn; [lia|]. cbn [cat].
  destruct (serve_read fd 512 rest st w Hf ltac:(lia)) as (k & w1 & Es & Hk & _ & Hk1 & Hp & Hw). rewrite (run_call2 _ _ _ _ _ _ Es).
  destruct (decide (rest = [])) as [->|Hne].
  - assert (k = 0%nat) as -> by (simpl in Hk; lia). cbn [Z.of_nat Z.ltb Z.compare run]. exists w1. split; [done|]. by split.
  - specialize (Hk1 Hne). rewrite (proj2 (Z.ltb_lt 0 _)) by lia. rewrite Nat2Z.id, take_take, Nat.min_id.
    erewrite run_call by reflexivity. set (w2 := set_wout _ _).
    assert (printed (take k rest) w1 w2) as Hp2.
    { split; [done..| |].
      - cbn. by rewrite upd_eq.
      - intros x Hx. cbn. by rewrite upd_ne. }
    destruct (IH (drop k rest) w2) as (w' & Er & Hp' & Hw').
    + cbn [wfds w2 set_wout set_wcalls]. rewrite Hw. by rewrite lookup_insert_eq.
    + rewrite length_drop. destruct rest; [done|simpl in *; lia].
    + exists w'. split; [exact Er|]. split.
      * rewrite <- (take_drop k rest). apply (printed_trans _ _ _ w2); [|done].
        exact (printed_trans [] _ _ _ _ Hp Hp2).
      * rewrite Hw'. cbn [wfds w2 set_wout set_wcalls]. rewrite Hw. apply insert_insert_eq.
Qed.

(** What is printed for a list of files, with [text l a] for the file [a] with contents [l]:
    up to the first file that is not there. *)
Fixpoint each_text (text : list Z -> list Z -> list Z) (msg : list Z) (w : world) (files : list (list Z)) : list Z :=
  match files with
  | [] => []
  | a :: files =>
      match wfiles w a with
      | Some (l, _) => text l a ++ each_text text msg w files
      | None => map u8 (printf (parg_str [PStr a]) msg (parg_word [PStr a]))
      end
  end.

Lemma each_text_ext text msg w w' files : wfiles w' = wfiles w -> each_text text msg w' files = each_text text msg w files.
Proof. intros E. induction files as [|a files IH]; simpl; [done|]. by rewrite E, IH. Qed.

Definition fits (fuel : nat) (w : world) (files : list (list Z)) : Prop :=
  forall a l st, a ∈ files -> wfiles w a = Some (l, st) -> (length l < fuel)%nat.

Lemma free_fd_some n a t fd : free_fd n a t = Some fd -> t !! fd = None /\ a <= fd.
Proof.
  revert a. induction n as [|n IH]; intros a; simpl; [done|]. destruct (t !! a) eqn:E; [|intros [= <-]; split; [done|lia]].
  intros Hf. apply IH in Hf as [? ?]. split; [done|lia].
Qed.

Lemma serve_open a mode w fd : free_fd 16 0 (wfds w) = Some fd -> exists w', printed [] w w' /\
  match wfiles w a with
  | Some f => serve (SOpen a mode) w = (fd, [], w') /\ wfds w' = <[fd := f]> (wfds w)
  | None => serve (SOpen a mode) w = (-1, [], w') /\ wfds w' = wfds w
  end.
Proof.
  intros Hf. unfold serve. cbn [wfds wfiles set_wcalls]. rewrite Hf. destruct (wfiles w a) as [f|].
  - eexists. split; [|by split]. split; [done..|by rewrite app_nil_r|done].
  - eexists. split; [|by split]. split; [done..|by rewrite app_nil_r|done].
Qed.

Lemma serve_close fd f w : wfds w !! fd = Some f -> exists w', printed [] w w' /\
  serve (SClose fd) w = (0, [], w') /\ wfds w' = delete fd (wfds w).
Proof.
  intros Hf. unfold serve. cbn [wfds set_wcalls]. rewrite Hf. eexists. split; [|by split].
  split; [done..|by rewrite app_nil_r|done].
Qed.

(** The loop over the files, for a body that reads its descriptor to the end and prints. *)
Lemma open_each_ok body text msg fuel files w fd :
  (forall fd a l st w, wfds w !! fd = Some (l, st) -> (length l < fuel)%nat -> exists w',
     run serve (body fd a) w = (UDone tt, w') /\ printed (text l a) w w' /\ wfds w' = <[fd := ([], st)]> (wfds w)) ->
  free_fd 16 0 (wfds w) = Some fd -> fits fuel w files -> exists w',
  run serve (open_each body msg files) w = (UExit, w') /\ printed (each_text text msg w files) w w'.
Proof.
  intros Hbody Hfd. pose proof (free_fd_some _ _ _ _ Hfd) as [Hnone Hge]. revert w Hfd Hnone.
  induction files as [|a files IH]; intros w Hfd Hnone Hfit; cbn [open_each each_text].
  { exists w. split; [done|]. apply printed_refl. }
  destruct (serve_open a 0 w fd Hfd) as (w1 & Hp1 & Ho). destruct (wfiles w a) as [[l st]|] eqn:Ea.
  - destruct Ho as [Es Hw1]. rewrite (run_call _ _ _ _ _ _ Es), (proj2 (Z.ltb_ge _ _)) by lia.
    destruct (Hbody fd a l st w1) as (w2 & Er & Hp2 & Hw2).
    { by rewrite Hw1, lookup_insert_eq. }
    { apply (Hfit a l st); [apply elem_of_cons; by left|done]. }
    rewrite (run_bind _ _ _ _ _ _ Er). destruct (serve_close fd ([], st) w2) as (w3 & Hp3 & Ec & Hw3).
    { by rewrite Hw2, lookup_insert_eq. }
    rewrite (run_call _ _ _ _ _ _ Ec). rewrite Hw2, Hw1, insert_insert_eq, delete_insert_id in Hw3 by done.
    pose proof (printed_trans _ _ _ _ _ (printed_trans _ _ _ _ _ Hp1 Hp2) Hp3) as Hp. rewrite app_nil_l, app_nil_r in Hp.
    destruct (IH w3) as (w' & Er' & Hp'); [by rewrite Hw3..| |].
    { intros b l' st' Hb Hl'. apply (Hfit b l' st'); [apply elem_of_cons; by right|]. by rewrite <- (pr_files _ _ _ Hp). }
    exists w'. split; [exact Er'|]. rewrite (each_text_ext _ _ w) in Hp' by (apply (pr_files _ _ _ Hp)).
    exact (printed_trans _ _ _ _ _ Hp Hp').
  - destruct Ho as [Es _]. rewrite (run_call _ _ _ _ _ _ Es). cbn [Z.ltb Z.compare].
    destruct (run_uprintf 1 msg [PStr a] w1) as (w' & Er & Hw). exists w'.
    rewrite (run_bind _ _ _ _ _ _ Er). split; [done|].
    pose proof (printed_trans _ _ _ _ _ Hp1 (wrote_printed _ _ _ Hw)) as Hp. by rewrite app_nil_l in Hp.
Qed.

(** cat, in a world that may cut each read short as it likes, ends with a call of exit
    and has written to descriptor 1 the contents of its files in order, up to a
    message for the first that cannot be opened, and nothing to any other descriptor. *)
Theorem cat_main_spec fuel name file files w fd : free_fd 16 0 (wfds w) = Some fd -> fits fuel w (file :: files) ->
  exists w', run serve (cat_main fuel (name :: file :: files)) w = (UExit, w') /\
    wout w' 1 = wout w 1 ++ each_text (fun l _ => l) (line_ "cat: cannot open %s") w (file :: files) /\
    forall x, x <> 1 -> wout w' x = wout w x.
Proof.
  intros Hfd Hfit. edestruct (open_each_ok (fun fd _ => cat fuel fd) (fun l _ => l) (line_ "cat: cannot open %s") fuel (file :: files) w fd)
    as (w' & Er & Hp); [|done|done|].
  - intros fd' a l st w0. apply cat_ok.
  - exists w'. split; [exact Er|]. split; [apply Hp|apply (pr_other _ _ _ Hp)].
Qed.

(** ** wc *)

(** The pieces of a text between white space; its words are those that are not empty. *)
Fixpoint pieces (cur l : list Z) : list (list Z) :=
  match l with
  | [] => [cur]
  | b :: l => if wc_space b then cur :: pieces [] l else pieces (cur ++ [b]) l
  end.
Definition words (l : list Z) : list (list Z) := filter (fun p => p <> []) (pieces [] l).
Definition newlines (l : list Z) : list Z := filter (fun b => b = 10) l.

Lemma s32_next x : 0 <= x < 2 ^ 31 - 1 -> s32 (x + 1) = x + 1.
Proof. intros Hx. unfold s32. rewrite u32_small, (proj2 (Z.ltb_lt _ _)) by lia. done. Qed.

(** Counting from the middle: [cur] is the word that is being read. *)
Lemma wc_bytes_ok (l cur : list Z) s : inword s = negb (bool_decide (cur = [])) -> 0 <= nl s <= nc s -> 0 <= nw s <= nc s -> nc s + zlen l < 2 ^ 31 ->
  let s' := fold_left wc_byte l s in
  nl s' = nl s + zlen (newlines l) /\ nc s' = nc s + zlen l /\
  nw s' + (if inword s then 1 else 0) = nw s + zlen (filter (fun p => p <> []) (pieces cur l)).
Proof.
  revert cur s. induction l as [|b l IH]; intros cur s Hi Hl Hw Hc; cbn [fold_left pieces].
  { change (zlen (newlines [])) with 0. change (zlen (@nil Z)) with 0. split; [lia|]. split; [lia|]. rewrite Hi. unfold zlen. destruct (bool_decide_reflect (cur = [])) as [->|Hne]; cbn [negb].
    - rewrite filter_cons_False by (intros H; by apply H). cbn. lia.
    - rewrite filter_cons_True by done. cbn. lia. }
  assert (zlen (b :: l) = 1 + zlen l) as Hz by (unfold zlen; simpl; lia). rewrite Hz in *.
  pose proof (Nat2Z.is_nonneg (length l)) as Hnn. fold (zlen l) in Hnn.
  assert (nl (wc_byte s b) = nl s + (if b =? 10 then 1 else 0)) as El.
  { unfold wc_byte. destruct (wc_space b), (inword s); cbn; destruct (b =? 10); try lia; apply s32_next; lia. }
  assert (nc (wc_byte s b) = nc s + 1) as Ec.
  { unfold wc_byte. destruct (wc_space b), (inword s); cbn; apply s32_next; lia. }
  assert (newlines (b :: l) = (if b =? 10 then [b] else []) ++ newlines l) as En.
  { unfold newlines. destruct (Z.eqb_spec b 10); [by rewrite filter_cons_True|by rewrite filter_cons_False]. }
  assert (zlen (newlines (b :: l)) = (if b =? 10 then 1 else 0) + zlen (newlines l)) as En'.
  { rewrite En. unfold zlen. rewrite length_app. destruct (b =? 10); simpl; lia. }
  assert (nw (wc_byte s b) = nw s + (if wc_space b || inword s then 0 else 1) /\ inword (wc_byte s b) = negb (wc_space b)) as [Ew Ei].
  { unfold wc_byte. destruct (wc_space b); [cbn; split; [lia|done]|]. destruct (inword s) eqn:E; cbn; [split; [lia|done]|].
    split; [apply s32_next; lia|done]. }
  destruct (wc_space b) eqn:Es.
  - destruct (IH [] (wc_byte s b)) as (H1 & H2 & H3); [by rewrite Ei| | |lia|].
    { rewrite El, Ec. destruct (b =? 10); lia. } { rewrite Ew, Ec. cbn [orb]. lia. }
    split; [rewrite H1, El, En'; lia|]. split; [rewrite H2, Ec; lia|]. rewrite Ei in H3. cbn [negb] in H3. rewrite Ew in H3. cbn [orb] in H3.
    rewrite Hi. unfold zlen in *. destruct (bool_decide_reflect (cur = [])) as [->|Hne]; cbn [negb].
    + rewrite filter_cons_False by (intros H; by apply H). lia.
    + rewrite filter_cons_True by done. simpl. lia.
  - destruct (IH (cur ++ [b]) (wc_byte s b)) as (H1 & H2 & H3); [rewrite Ei; by destruct cur| | |lia|].
    { rewrite El, Ec. destruct (b =? 10); lia. } { rewrite Ew, Ec. cbn [orb]. destruct (inword s); lia. }
    split; [rewrite H1, El, En'; lia|]. split; [rewrite H2, Ec; lia|]. rewrite Ei in H3. cbn [negb] in H3. rewrite Ew in H3. cbn [orb] in H3.
    destruct (inword s); lia.
Qed.

Lemma wc_loop_ok fuel fd rest st s w : wfds w !! fd = Some (rest, st) -> (length rest < fuel)%nat -> exists w',
  run serve (wc_loop fuel fd s) w = (UDone (fold_left wc_byte rest s), w') /\ printed [] w w' /\
  wfds w' = <[fd := ([], st)]> (wfds w).
Proof.
  revert rest s w. induction fuel as [|fuel IH]; intros rest s w Hf Hn; [lia|]. cbn [wc_loop].
  destruct (serve_read fd 512 rest st w Hf ltac:(lia)) as (k & w1 & Es & Hk & _ & Hk1 & Hp & Hw). rewrite (run_call2 _ _ _ _ _ _ Es).
  destruct (decide (rest = [])) as [->|Hne].
  - assert (k = 0%nat) as -> by (simpl in Hk; lia). cbn [Z.of_nat Z.ltb Z.compare run]. exists w1. split; [done|]. by split.
  - specialize (Hk1 Hne). rewrite (proj2 (Z.ltb_lt 0 _)) by lia. rewrite Nat2Z.id, take_take, Nat.min_id.
    destruct (IH (drop k rest) (fold_left wc_byte (take k rest) s) w1) as (w' & Er & Hp' & Hw').
    + by rewrite Hw, lookup_insert_eq.
    + rewrite length_drop. destruct rest; [done|simpl in *; lia].
    + exists w'. rewrite <- fold_left_app, take_drop in Er. split; [exact Er|]. split.
      * exact (printed_trans [] [] _ _ _ Hp Hp').
      * rewrite Hw', Hw. apply insert_insert_eq.
Qed.

(** The line wc prints. *)
Definition dec (x : Z) : list Z := printint_user x 10 true.
Definition wc_report (l name : list Z) : list Z :=
  dec (zlen (newlines l)) ++ [32] ++ dec (zlen (words l)) ++ [32] ++ dec (zlen l) ++ [32] ++ name ++ [10].

Lemma s32_u32_id x : 0 <= x < 2 ^ 31 -> s32 (u32 x) = x.
Proof. intros Hx. rewrite (u32_small x) by lia. unfold s32. rewrite u32_small, (proj2 (Z.ltb_lt _ _)) by lia. done. Qed.

Lemma wc_format a b c name : 0 <= a < 2 ^ 31 -> 0 <= b < 2 ^ 31 -> 0 <= c < 2 ^ 31 ->
  let args := [PInt a; PInt b; PInt c; PStr name] in
  printf (parg_str args) (line_ "%d %d %d %s") (parg_word args) =
    dec a ++ [32] ++ dec b ++ [32] ++ dec c ++ [32] ++ name ++ [10].
Proof.
  intros Ha Hb Hc args. change (line_ "%d %d %d %s") with [37; 100; 32; 37; 100; 32; 37; 100; 32; 37; 115; 10].
  unfold printf. cbn -[printint_user s32 u32 Z.pow]. rewrite !s32_u32_id by done. done.
Qed.

Lemma filter_pieces_length l cur : (length (filter (fun p => p <> []) (pieces cur l)) <= S (length l))%nat.
Proof.
  revert cur. induction l as [|b l IH]; intros cur; cbn [pieces].
  - etransitivity; [apply length_filter|done].
  - destruct (wc_space b); [|etransitivity; [apply IH|simpl; lia]].
    rewrite filter_cons. case_decide; simpl; specialize (IH []); lia.
Qed.

Lemma wc_ok fuel fd rest st name w : wfds w !! fd = Some (rest, st) -> (length rest < fuel)%nat -> zlen rest < 2 ^ 31 - 1 -> exists w',
  run serve (wc fuel fd name) w = (UDone tt, w') /\ printed (map u8 (wc_report rest name)) w w' /\ wfds w' = <[fd := ([], st)]> (wfds w).
Proof.
  intros Hf Hn Hl. unfold wc. destruct (wc_loop_ok fuel fd rest st counts0 w Hf Hn) as (w1 & Er & Hp & Hw).
  rewrite (run_bind _ _ _ _ _ _ Er). set (s := fold_left wc_byte rest counts0).
  destruct (wc_bytes_ok rest [] counts0) as (H1 & H2 & H3); [done|cbn; lia|cbn; lia|cbn; lia|]. fold s in H1, H2, H3. cbn in H1, H2, H3.
  destruct (run_uprintf 1 (line_ "%d %d %d %s") [PInt (nl s); PInt (nw s); PInt (nc s); PStr name] w1) as (w' & Ep & Hpr).
  exists w'. split; [exact Ep|].
  assert (0 <= zlen (newlines rest) <= zlen rest) as Hb1.
  { unfold zlen, newlines. pose proof (length_filter (fun b => b = 10) rest). lia. }
  assert (0 <= zlen (words rest) <= zlen rest + 1) as Hb2.
  { unfold zlen, words. pose proof (filter_pieces_length rest []). lia. }
  rewrite wc_format in Hpr by (unfold words, zlen in *; lia).
  assert (nl s = zlen (newlines rest) /\ nc s = zlen rest /\ nw s = zlen (words rest)) as (E1 & E2 & E3).
  { split; [lia|]. split; [lia|]. unfold words. lia. }
  rewrite E1, E2, E3 in Hpr. fold (wc_report rest name) in Hpr. split.
  - pose proof (printed_trans _ _ _ _ _ Hp (wrote_printed _ _ _ Hpr)) as H. by rewrite app_nil_l in H.
  - rewrite (wr_fds _ _ _ _ Hpr). exact Hw.
Qed.

(** C15. wc, however its reads are cut, ends with a call of exit and has printed for each
    file a line with the number of its newlines, of its words - the maximal runs of
    bytes that are not white space - and of its bytes, and its name; up to a message
    for the first file that cannot be opened. *)
Theorem wc_main_spec fuel name file files w fd : free_fd 16 0 (wfds w) = Some fd -> fits fuel w (file :: files) ->
  Z.of_nat fuel < 2 ^ 31 ->
  exists w', run serve (wc_main fuel (name :: file :: files)) w = (UExit, w') /\
    wout w' 1 = wout w 1 ++ each_text (fun l a => map u8 (wc_report l a)) (line_ "wc: cannot open %s") w (file :: files) /\
    forall x, x <> 1 -> wout w' x = wout w x.
Proof.
  intros Hfd Hfit Hb. edestruct (open_each_ok (wc fuel) (fun l a => map u8 (wc_report l a)) (line_ "wc: cannot open %s") fuel (file :: files) w fd)
    as (w' & Er & Hp); [|done|done|].
  - intros fd' a l st w0 Hf Hn. apply wc_ok; [done|done|]. unfold zlen. lia.
  - exists w'. split; [exact Er|]. split; [apply Hp|apply (pr_other _ _ _ Hp)].
Qed.

(** ** ls *)

(** A line of ls, and what it prints for one entry of the directory [path]. *)
Definition ls_line_text (path st : list Z) : list Z :=
  map u8 (fmtname path ++ [32] ++ dec (st_type st) ++ [32] ++ dec (s32 (st_ino st)) ++ [32] ++ dec (s32 (st_size st)) ++ [10]).
Definition ls_entry_text (w : world) (path de : list Z) : list Z :=
  let buf := path ++ [slash] ++ de_name de in
  if de_inum de =? 0 then []
  else match wfiles w buf with
       | Some (_, st) => ls_line_text buf st
       | None => map u8 (printf (parg_str [PStr buf]) (line_ "ls: cannot stat %s") (parg_word [PStr buf]))
       end.

Lemma s32_u32 x : s32 (u32 x) = s32 x.
Proof. unfold s32, u32. by rewrite Z.mod_mod by lia. Qed.

Lemma s16_s32 x : s32 (s16 x) = s16 x.
Proof.
  unfold s16, s32. set (y := x mod 2 ^ 16). assert (0 <= y < 2 ^ 16) as Hy by (apply Z.mod_pos_bound; lia).
  destruct (Z.ltb_spec y (2 ^ 15)).
  - rewrite u32_small by lia. by rewrite (proj2 (Z.ltb_lt _ _)) by lia.
  - replace (u32 (y - 2 ^ 16)) with (y - 2 ^ 16 + 2 ^ 32).
    + rewrite (proj2 (Z.ltb_ge _ _)) by lia. lia.
    + unfold u32. rewrite <- (Z.mod_small (y - 2 ^ 16 + 2 ^ 32) (2 ^ 32)) by lia.
      replace (y - 2 ^ 16 + 2 ^ 32) with (y - 2 ^ 16 + 1 * 2 ^ 32) by lia. by rewrite Z.mod_add by lia.
Qed.

Lemma ls_format path st :
  let args := [PStr (fmtname path); PInt (st_type st); PInt (st_ino st); PInt (st_size st)] in
  map u8 (printf (parg_str args) (line_ "%s %d %d %d") (parg_word args)) = ls_line_text path st.
Proof.
  intros args. unfold ls_line_text. f_equal.
  change (line_ "%s %d %d %d") with [37; 115; 32; 37; 100; 32; 37; 100; 32; 37; 100; 10].
  unfold args. generalize (fmtname path) as p. intros p. unfold printf. cbn -[printint_user s32 u32 Z.pow st_type st_ino st_size].
  rewrite !s32_u32. unfold st_type. rewrite s16_s32. done.
Qed.

Lemma free_fd_insert n a fd f (t : gmap Z (list Z * list Z)) : is_Some (t !! fd) -> free_fd n a (<[fd := f]> t) = free_fd n a t.
Proof.
  intros [g Hg]. revert a. induction n as [|n IH]; intros a; simpl; [done|]. destruct (decide (a = fd)) as [->|Hne].
  - rewrite lookup_insert_eq, Hg. apply IH.
  - rewrite lookup_insert_ne by done. destruct (t !! a); [apply IH|done].
Qed.

Lemma run_ls_line path st w : exists w', run serve (ls_line path st) w = (UDone tt, w') /\ wrote 1 (ls_line_text path st) w w'.
Proof.
  destruct (run_uprintf 1 (line_ "%s %d %d %d") [PStr (fmtname path); PInt (st_type st); PInt (st_ino st); PInt (st_size st)] w) as (w' & Er & Hw).
  exists w'. split; [exact Er|]. by rewrite ls_format in Hw.
Qed.

Lemma serve_fstat fd rest st w : wfds w !! fd = Some (rest, st) -> exists w',
  serve (SFstat fd) w = (0, st, w') /\ wrote 1 [] w w'.
Proof.
  intros Hf. unfold serve. cbn [wfds set_wcalls]. rewrite Hf. eexists. split; [done|]. split; [done..|by rewrite app_nil_r|done].
Qed.

(** stat: opened, looked at and closed. *)
Lemma run_ustat name w fd : free_fd 16 0 (wfds w) = Some fd -> exists w', printed [] w w' /\ wfds w' = wfds w /\
  run serve (ustat name) w = (UDone (match wfiles w name with Some (_, st) => (0, st) | None => (-1, []) end), w').
Proof.
  intros Hfd. destruct (serve_open name 0 w fd Hfd) as (w1 & Hp1 & Ho). pose proof (free_fd_some _ _ _ _ Hfd) as [Hnone Hge].
  unfold ustat. destruct (wfiles w name) as [[l st]|].
  - destruct Ho as [Eo Hw1]. rewrite (run_call _ _ _ _ _ _ Eo), (proj2 (Z.ltb_ge _ _)) by lia.
    destruct (serve_fstat fd l st w1) as (w2 & Es & Hw2); [by rewrite Hw1, lookup_insert_eq|]. rewrite (run_call2 _ _ _ _ _ _ Es).
    destruct (serve_close fd (l, st) w2) as (w3 & Hp3 & Ec & Hw3); [by rewrite (wr_fds _ _ _ _ Hw2), Hw1, lookup_insert_eq|].
    rewrite (run_call _ _ _ _ _ _ Ec). exists w3. split; [|split; [|done]].
    + exact (printed_trans [] [] _ _ _ (printed_trans [] [] _ _ _ Hp1 (wrote_printed _ _ _ Hw2)) Hp3).
    + by rewrite Hw3, (wr_fds _ _ _ _ Hw2), Hw1, delete_insert_id.
  - destruct Ho as [Eo Hw1]. rewrite (run_call _ _ _ _ _ _ Eo). by exists w1.
Qed.

(** Reads of directory entries that are not cut. *)
Lemma serve_read_all fd n rest st w : wfds w !! fd = Some (rest, st) -> 0 <= n -> (forall i, (Z.to_nat n <= wsizes w i)%nat) -> exists w',
  serve (SRead fd n) w = (Z.of_nat (length (take (Z.to_nat n) rest)), take (Z.to_nat n) rest, w') /\
  printed [] w w' /\ wfds w' = <[fd := (drop (Z.to_nat n) rest, st)]> (wfds w).
Proof.
  intros Hf Hn Hs. unfold serve. cbn [wfds set_wcalls wsizes wreads]. rewrite Hf. specialize (Hs (wreads w)).
  assert (read_size n (wsizes w (wreads w)) rest = Nat.min (Z.to_nat n) (length rest)) as -> by (unfold read_size; lia).
  assert (take (Nat.min (Z.to_nat n) (length rest)) rest = take (Z.to_nat n) rest /\
          drop (Nat.min (Z.to_nat n) (length rest)) rest = drop (Z.to_nat n) rest) as [-> ->].
  { destruct (Nat.le_ge_cases (Z.to_nat n) (length rest)); [by rewrite Nat.min_l|].
    rewrite Nat.min_r by done. by rewrite !drop_ge, !take_ge by lia. }
  rewrite length_take. eexists. split; [reflexivity|]. split; [split; [done..|by rewrite app_nil_r|done]|done].
Qed.

(** One entry of the directory [path]. *)
Lemma ls_entry_ok path de w fd : free_fd 16 0 (wfds w) = Some fd -> de_inum de <> 0 ->
  let buf := path ++ [slash] ++ de_name de in
  exists w', (forall q : prog unit, run serve (let* '(r, st) := ustat buf in
      (if r <? 0 then uprintf 1 (line_ "ls: cannot stat %s") [PStr buf] else ls_line buf st) ;* q) w = run serve q w') /\
    printed (ls_entry_text w path de) w w' /\ wfds w' = wfds w.
Proof.
  intros Hfd Hi buf. unfold ls_entry_text. rewrite (proj2 (Z.eqb_neq _ _)) by done. fold buf.
  destruct (run_ustat buf w fd Hfd) as (w1 & Hp1 & Hw1 & Er). destruct (wfiles w buf) as [[l st]|].
  - destruct (run_ls_line buf st w1) as (w2 & E2 & Hw2). exists w2. split; [|split].
    + intros q. rewrite (run_bind _ _ _ _ _ _ Er). cbn [Z.ltb Z.compare]. by rewrite (run_bind _ _ _ _ _ _ E2).
    + pose proof (printed_trans _ _ _ _ _ Hp1 (wrote_printed _ _ _ Hw2)) as H. by rewrite app_nil_l in H.
    + by rewrite (wr_fds _ _ _ _ Hw2).
  - destruct (run_uprintf 1 (line_ "ls: cannot stat %s") [PStr buf] w1) as (w2 & E2 & Hw2). exists w2. split; [|split].
    + intros q. rewrite (run_bind _ _ _ _ _ _ Er). cbn [Z.ltb Z.compare]. by rewrite (run_bind _ _ _ _ _ _ E2).
    + pose proof (printed_trans _ _ _ _ _ Hp1 (wrote_printed _ _ _ Hw2)) as H. by rewrite app_nil_l in H.
    + by rewrite (wr_fds _ _ _ _ Hw2).
Qed.

Lemma ls_entry_text_ext w w' path de : wfiles w' = wfiles w -> ls_entry_text w' path de = ls_entry_text w path de.
Proof. intros E. unfold ls_entry_text. by rewrite E. Qed.

Lemma ls_entries_ok fuel fd path ents st w fd' : wfds w !! fd = Some (concat ents, st) -> (length ents < fuel)%nat ->
  Forall (fun de => length de = 16%nat) ents -> (forall i, (16 <= wsizes w i)%nat) -> free_fd 16 0 (wfds w) = Some fd' ->
  exists w', run serve (ls_entries fuel fd path) w = (UDone tt, w') /\
    printed (concat (map (ls_entry_text w path) ents)) w w' /\ wfds w' = <[fd := ([], st)]> (wfds w).
Proof.
  intros Hf Hn Hents. revert fuel w Hf Hn.
  induction Hents as [|de ents Hde Hents IH]; intros [|fuel] w Hf Hn Hsz Hfree; try (simpl in Hn; lia); cbn [ls_entries];
    destruct (serve_read_all fd 16 _ st w Hf ltac:(lia) Hsz) as (w1 & Es & Hp & Hw); rewrite (run_call2 _ _ _ _ _ _ Es).
  - exists w1. split; [done|]. by split.
  - cbn [concat map] in Hw |- *. change (Z.to_nat 16) with 16%nat in *.
    rewrite take_app_length' by done. rewrite drop_app_length' in Hw by done. rewrite Hde. cbn [Z.of_nat Pos.of_succ_nat Pos.succ Z.eqb Pos.eqb].
    assert (exists w2, run serve (ls_entries fuel fd path) w2 =
        run serve (if de_inum de =? 0 then ls_entries fuel fd path
                   else let* '(r, st) := ustat (path ++ [slash] ++ de_name de) in
                        (if r <? 0 then uprintf 1 (line_ "ls: cannot stat %s") [PStr (path ++ [slash] ++ de_name de)]
                         else ls_line (path ++ [slash] ++ de_name de) st) ;* ls_entries fuel fd path) w1 /\
      printed (ls_entry_text w path de) w w2 /\ wfds w2 = wfds w1) as (w2 & E2 & Hp2 & Hw2).
    { destruct (Z.eqb_spec (de_inum de) 0) as [Hz|Hz].
      - exists w1. split; [done|]. split; [|done]. unfold ls_entry_text. by rewrite (proj2 (Z.eqb_eq _ _) Hz).
      - destruct (ls_entry_ok path de w1 fd') as (w2 & Er & Hp2 & Hw2); [|done|].
        { by rewrite Hw, free_fd_insert. }
        exists w2. split; [by rewrite Er|]. split; [|done].
        rewrite (ls_entry_text_ext w w1) in Hp2 by (apply (pr_files _ _ _ Hp)).
        pose proof (printed_trans _ _ _ _ _ Hp Hp2) as H. by rewrite app_nil_l in H. }
    destruct (IH fuel w2) as (w' & Er & Hp' & Hw').
    { by rewrite Hw2, Hw, lookup_insert_eq. } { simpl in Hn. lia. } { intros i. rewrite (pr_sizes _ _ _ Hp2). apply Hsz. }
    { by rewrite Hw2, Hw, free_fd_insert. }
    exists w'. split; [exact (eq_trans (eq_sym E2) Er)|]. split.
    + erewrite (map_ext (ls_entry_text w2 path)) in Hp' by (intros; apply ls_entry_text_ext, (pr_files _ _ _ Hp2)).
      exact (printed_trans _ _ _ _ _ Hp2 Hp').
    + by rewrite Hw', Hw2, Hw, insert_insert_eq.
Qed.

(** ls of one path: a file is a line, a directory a line for each of its entries that is in
    use, a path that cannot be opened a message on descriptor 2. *)
Theorem ls_ok fuel path ents w fd fd' :
  free_fd 16 0 (wfds w) = Some fd -> free_fd 16 0 (<[fd := (concat ents, [])]> (wfds w)) = Some fd' ->
  (length ents < fuel)%nat -> Forall (fun de => length de = 16%nat) ents -> (forall i, (16 <= wsizes w i)%nat) ->
  (length path <= 496)%nat ->
  (forall l st, wfiles w path = Some (l, st) -> st_type st = 1 /\ l = concat ents \/ st_type st = 2) ->
  exists w', run serve (ls fuel path) w = (UDone tt, w') /\ wfiles w' = wfiles w /\ wfds w' = wfds w /\
    match wfiles w path with
    | Some (_, st) =>
        wout w' 1 = wout w 1 ++ (if st_type st =? 1 then concat (map (ls_entry_text w path) ents) else ls_line_text path st) /\
        forall x, x <> 1 -> wout w' x = wout w x
    | None => wout w' 1 = wout w 1 /\
        wout w' 2 = wout w 2 ++ map u8 (printf (parg_str [PStr path]) (line_ "ls: cannot open %s") (parg_word [PStr path]))
    end.
Proof.
  intros Hfd Hfd' Hn Hents Hsz Hlen Hst. pose proof (free_fd_some _ _ _ _ Hfd) as [Hnone Hge].
  unfold ls. destruct (serve_open path 0 w fd Hfd) as (w1 & Hp1 & Ho). destruct (wfiles w path) as [[l st]|] eqn:Ep.
  2:{ destruct Ho as [Eo Hw1]. rewrite (run_call _ _ _ _ _ _ Eo). cbn [Z.ltb Z.compare].
      destruct (run_uprintf 2 (line_ "ls: cannot open %s") [PStr path] w1) as (w' & Er & Hw). exists w'. split; [exact Er|].
      split; [by rewrite (wr_files _ _ _ _ Hw), (pr_files _ _ _ Hp1)|]. split; [by rewrite (wr_fds _ _ _ _ Hw)|].
      split; [rewrite (wr_other _ _ _ _ Hw), (pr_out _ _ _ Hp1) by done; apply app_nil_r|].
      rewrite (wr_out _ _ _ _ Hw). by rewrite (pr_other _ _ _ Hp1). }
  destruct Ho as [Eo Hw1]. rewrite (run_call _ _ _ _ _ _ Eo), (proj2 (Z.ltb_ge _ _)) by lia.
  destruct (serve_fstat fd l st w1) as (w2 & Es & Hw2); [by rewrite Hw1, lookup_insert_eq|]. rewrite (run_call2 _ _ _ _ _ _ Es).
  cbn [Z.ltb Z.compare].
  assert (printed [] w w2) as Hp2 by exact (printed_trans [] [] _ _ _ Hp1 (wrote_printed _ _ _ Hw2)).
  set (body := (if st_type st =? 2 then _ else _)). set (out := (if st_type st =? 1 then _ else _)).
  assert (exists w3 r, run serve body w2 = (UDone tt, w3) /\ printed out w w3 /\ wfds w3 = <[fd := (r, st)]> (wfds w)) as (w3 & r & Er & Hp3 & Hw3).
  { unfold body, out. destruct (Hst l st eq_refl) as [[Ht ->]|Ht]; rewrite Ht; cbn [Z.eqb Pos.eqb].
    - rewrite (proj2 (Nat.ltb_ge _ _)) by (unfold DIRSIZ; lia).
      destruct (ls_entries_ok fuel fd path ents st w2 fd') as (w3 & Er & Hp & Hw); [|done|done| | |].
      + by rewrite (wr_fds _ _ _ _ Hw2), Hw1, lookup_insert_eq.
      + intros i. rewrite (pr_sizes _ _ _ Hp2). apply Hsz.
      + rewrite (wr_fds _ _ _ _ Hw2), Hw1, <- Hfd', <- (free_fd_insert 16 0 fd (concat ents, []) (<[fd := (concat ents, st)]> (wfds w))); rewrite ?insert_insert_eq, ?lookup_insert_eq; done.
      + exists w3, []. split; [exact Er|]. split; [|by rewrite Hw, (wr_fds _ _ _ _ Hw2), Hw1, insert_insert_eq].
        erewrite (map_ext (ls_entry_text w2 path)) in Hp by (intros; apply ls_entry_text_ext, (pr_files _ _ _ Hp2)).
        pose proof (printed_trans _ _ _ _ _ Hp2 Hp) as H. by rewrite app_nil_l in H.
    - destruct (run_ls_line path st w2) as (w3 & Er & Hw). exists w3, l. split; [exact Er|].
      split; [|by rewrite (wr_fds _ _ _ _ Hw), (wr_fds _ _ _ _ Hw2)].
      pose proof (printed_trans _ _ _ _ _ Hp2 (wrote_printed _ _ _ Hw)) as H. by rewrite app_nil_l in H. }
  rewrite (run_bind _ _ _ _ _ _ Er). destruct (serve_close fd (r, st) w3) as (w4 & Hp4 & Ec & Hw4); [by rewrite Hw3, lookup_insert_eq|].
  rewrite (run_call _ _ _ _ _ _ Ec). exists w4. split; [done|].
  pose proof (printed_trans _ _ _ _ _ Hp3 Hp4) as Hp. rewrite app_nil_r in Hp.
  split; [apply Hp|]. split; [by rewrite Hw4, Hw3, delete_insert_id|]. split; [apply Hp|apply (pr_other _ _ _ Hp)].
Qed.

(** What ls prints as the name of an entry: its last part, padded with blanks. *)
Lemma fmtname_entry d name : slash ∉ name ->
  fmtname (d ++ slash :: name) = name ++ replicate (DIRSIZ - length name) 32.
Proof.
  intros Hno. assert (forall k, (k <= length name)%nat -> after_slash (S (length d + k)) (d ++ slash :: name) = name) as H.
  { intros k. induction k as [|k IH]; intros Hk; cbn [after_slash].
    - rewrite Nat.add_0_r, app_nth2 by lia. rewrite Nat.sub_diag. cbn [nth Z.eqb Pos.eqb slash].
      change (d ++ slash :: name) with (d ++ [slash] ++ name). rewrite app_assoc. apply drop_app_length'.
      rewrite length_app. simpl. lia.
    - rewrite app_nth2 by lia. replace (length d + S k - length d)%nat with (S k) by lia. cbn [nth].
      rewrite (proj2 (Z.eqb_neq _ _)).
      + replace (length d + S k)%nat with (S (length d + k)) by lia. apply IH. lia.
      + intros E. apply Hno. rewrite <- E. apply list_elem_of_In, nth_In. lia. }
  unfold fmtname. rewrite length_app. cbn [length]. replace (length d + S (length name))%nat with (S (length d + length name)) by lia.
  rewrite H by done. destruct (Nat.leb_spec DIRSIZ (length name)); [|done].
  replace (DIRSIZ - length name)%nat with 0%nat by lia. by rewrite app_nil_r.
Qed.

(** ** The other programs *)

Fixpoint join (l : list (list Z)) : list Z :=
  match l with [] => [] | [a] => a ++ [10] | a :: l => a ++ [32] ++ join l end.

Lemma printf_ss a b : let args := [PStr a; PStr b] in printf (parg_str args) (cs "%s%s") (parg_word args) = a ++ b.
Proof. intros args. change (cs "%s%s") with [37; 115; 37; 115]. unfold printf. cbn. by rewrite app_nil_r. Qed.

(** echo: its arguments with blanks between them, and a newline. *)
Lemma echo_ok args w : exists w', run serve (echo_args args) w = (UExit, w') /\ wrote 1 (map u8 (join args)) w w'.
Proof.
  revert w. induction args as [|a args IH]; intros w; cbn [echo_args join].
  { exists w. split; [done|]. split; [done..|by rewrite app_nil_r|done]. }
  set (sep := match args with [] => [10] | _ => [32] end).
  destruct (run_uprintf 1 (cs "%s%s") [PStr a; PStr sep] w) as (w1 & E1 & H1). rewrite (run_bind _ _ _ _ _ _ E1).
  rewrite printf_ss in H1. destruct (IH w1) as (w' & E' & H'). exists w'. split; [exact E'|].
  pose proof (wrote_trans _ _ _ _ _ _ H1 H') as H. rewrite <- map_app, <- app_assoc in H.
  unfold sep in H. destruct args; [by rewrite app_nil_r in H|exact H].
Qed.

(** mkdir and rm: the calls are made in order up to the first that fails. *)
Fixpoint until_fail (answer : sys -> Z) (op : list Z -> sys) (files : list (list Z)) : list sys * option (list Z) :=
  match files with
  | [] => ([], None)
  | a :: files => if answer (op a) <? 0 then ([op a], Some a) else
      let '(l, r) := until_fail answer op files in (op a :: l, r)
  end.

Lemma each_file_ok op msg files w : (forall a w, serve (op a) w = (wother w (op a), [], set_wcalls (wcalls w ++ [op a]) w)) ->
  let '(l, r) := until_fail (wother w) op files in
  match r with
  | None => run serve (each_file op msg files) w = (UExit, set_wcalls (wcalls w ++ l) w)
  | Some a => exists w', run serve (each_file op msg files) w = (UExit, w') /\
      wrote 2 (map u8 (printf (parg_str [PStr a]) msg (parg_word [PStr a]))) (set_wcalls (wcalls w ++ l) w) w'
  end.
Proof.
  intros Hop. revert w. induction files as [|a files IH]; intros w; cbn [until_fail each_file].
  { rewrite app_nil_r. by destruct w. }
  rewrite (run_call _ _ _ _ _ _ (Hop a w)). destruct (wother w (op a) <? 0).
  - destruct (run_uprintf 2 msg [PStr a] (set_wcalls (wcalls w ++ [op a]) w)) as (w' & E & H). exists w'.
    by rewrite (run_bind _ _ _ _ _ _ E).
  - specialize (IH (set_wcalls (wcalls w ++ [op a]) w)). change (wother (set_wcalls _ w)) with (wother w) in IH.
    destruct (until_fail (wother w) op files) as [l r]. cbn [wcalls set_wcalls] in IH. rewrite <- app_assoc in IH. exact IH.
Qed.

Lemma mkdir_ok name file files w : let '(l, r) := until_fail (wother w) SMkdir (file :: files) in r = None ->
  run serve (mkdir_main (name :: file :: files)) w = (UExit, set_wcalls (wcalls w ++ l) w).
Proof.
  pose proof (each_file_ok SMkdir (line_ "mkdir: %s failed to create") (file :: files) w ltac:(done)) as H.
  destruct (until_fail (wother w) SMkdir (file :: files)) as [l r]. intros ->. exact H.
Qed.

Lemma rm_ok name file files w : let '(l, r) := until_fail (wother w) SUnlink (file :: files) in r = None ->
  run serve (rm_main (name :: file :: files)) w = (UExit, set_wcalls (wcalls w ++ l) w).
Proof.
  pose proof (each_file_ok SUnlink (line_ "rm: %s failed to delete") (file :: files) w ltac:(done)) as H.
  destruct (until_fail (wother w) SUnlink (file :: files)) as [l r]. intros ->. exact H.
Qed.

(** The usage message of kill is never printed by a program run with its name. *)
Lemma kill_usage name w : run serve (kill_main [name]) w = (UExit, w).
Proof. done. Qed.

Lemma free_fd_below n a t : match free_fd n a t with
  | Some fd => forall x, a <= x < fd -> is_Some (t !! x)
  | None => forall x, a <= x < a + Z.of_nat n -> is_Some (t !! x)
  end.
Proof.
  revert a. induction n as [|n IH]; intros a; simpl; [lia|]. destruct (t !! a) eqn:E; [|lia].
  specialize (IH (a + 1)). destruct (free_fd n (a + 1) t); intros x Hx; (destruct (decide (x = a)) as [->|]; [by rewrite E|]; apply IH; lia).
Qed.

Lemma sh_console_from fuel m w f : wfiles w (cs "console") = Some f -> 0 <= m -> 4 <= Z.of_nat fuel + m ->
  (forall x, 0 <= x < m -> is_Some (wfds w !! x)) -> m <= 3 ->
  exists w', run serve (sh_console fuel) w = (UDone tt, w') /\ (forall x, is_Some (wfds w !! x) -> wfds w' !! x = wfds w !! x) /\
    forall x, 0 <= x < 3 -> is_Some (wfds w' !! x).
Proof.
  revert m w. induction fuel as [|fuel IH]; intros m w Hc Hm Hn Hopen Hle; [lia|]. cbn [sh_console].
  pose proof (free_fd_below 16 0 (wfds w)) as Hb. destruct (free_fd 16 0 (wfds w)) as [fd|] eqn:Ef.
  2:{ eexists. split; [unfold call; cbn [pbind run serve wfiles wfds set_wcalls]; rewrite Hc, Ef; done|]. split; [done|]. intros x Hx. apply Hb. lia. }
  destruct (serve_open (cs "console") O_RDWR w fd Ef) as (w1 & Hp1 & Ho). rewrite Hc in Ho. destruct Ho as [Eo Hw1].
  destruct (free_fd_some _ _ _ _ Ef) as [Hnone Hge]. rewrite (run_call _ _ _ _ _ _ Eo), (proj2 (Z.leb_le _ _)) by lia.
  destruct (Z.leb_spec 3 fd).
  - destruct (serve_close fd f w1) as (w2 & Hp2 & Ec & Hw2); [by rewrite Hw1, lookup_insert_eq|].
    rewrite (run_call _ _ _ _ _ _ Ec). exists w2. split; [done|]. rewrite Hw2, Hw1, delete_insert_id by done.
    split; [done|]. intros x Hx. apply Hb. lia.
  - assert (m <= fd).
    { destruct (Z.le_gt_cases m fd); [done|]. destruct (Hopen fd ltac:(lia)) as [? ?]. congruence. }
    destruct (IH (fd + 1) w1) as (w' & Er & Hsame & Hall); [by rewrite (pr_files _ _ _ Hp1)|lia|lia| |lia|].
    { intros x Hx. rewrite Hw1. destruct (decide (x = fd)) as [->|Hne]; [rewrite lookup_insert_eq; by eexists|].
      rewrite lookup_insert_ne by done. apply Hb. lia. }
    exists w'. split; [done|]. split; [|done]. intros x [g Hx]. assert (x <> fd) by (intros ->; congruence).
    rewrite Hsame; rewrite Hw1, lookup_insert_ne by done; [done|by exists g].
Qed.

(** The shell starts with the descriptors 0, 1 and 2 open, whichever were open before, and
    leaves those as they were; four rounds of its loop are enough. *)
Lemma sh_console_ok w f : wfiles w (cs "console") = Some f ->
  exists w', run serve (sh_console 4) w = (UDone tt, w') /\ (forall x, is_Some (wfds w !! x) -> wfds w' !! x = wfds w !! x) /\
    forall x, 0 <= x < 3 -> is_Some (wfds w' !! x).
Proof. intros Hc. apply (sh_console_from 4 0 w f Hc); lia. Qed.

Definition file_world : world := mkWorld (fun a => if bool_decide (a = cs "a") then Some (cs "one two" ++ [10; 32] ++ cs "three", []) else None)
  ∅ (fun _ => []) (fun _ => 2%nat) 0 (fun _ => 0) [].

Lemma wc_main_spec_witness : wout (run serve (wc_main 20 [cs "wc"; cs "a"; cs "b"]) file_world).2 1 =
  cs "1 3 14 a" ++ [10] ++ cs "wc: cannot open b" ++ [10].
Proof.
  destruct (wc_main_spec 20 (cs "wc") (cs "a") [cs "b"] file_world 0) as (w' & E & Ho & _).
  - reflexivity.
  - intros a l st Ha. unfold file_world. cbn [wfiles]. case_bool_decide; [|done]. intros [= <- <-]. vm_compute. lia.
  - lia.
  - rewrite E. cbn [snd]. rewrite Ho. vm_compute. reflexivity.
Defined.
