(* ===== verification/Procdump.v ===== *)
(** * procdump

    The listing of processes that ^P prints (proc.c), on the console of Condev.v: one line for
    each slot in use, with the return addresses on the stack of a process that sleeps.  It
    takes no lock of the process table and changes nothing but the output. *)

From S2P Require Import Prelude Bytes Memory Kstate Spinlock Console Condev Kernel Sched Proc.
From S2P Require Import Prelude Ulib User.

(** A string up to its 0, and the addresses up to the first 0. *)
Fixpoint until0 (l : list Z) : list Z :=
  match l with [] => [] | c :: l => if c =? 0 then [] else c :: until0 l end.

Definition states : list (list Z) := map cs ["unused"; "embryo"; "sleep "; "runble"; "run   "; "zombie"].
Definition state_name (st : Z) : list Z :=
  if (0 <=? st) && (st <? Z.of_nat (length states)) then nth (Z.to_nat st) states [] else cs "???".

(** Two of the three arguments of the first format are strings, at the addresses 1 and 2. *)
Definition two_strings (a b : list Z) (p : Z) : list Z := if p =? 1 then a else b.

Definition ctx_ebp : Z := 12.

Definition proc_name (k : kern) (p : Z) : list Z :=
  until0 (flat_map (fun i => bytes_of_word (fld k p (o_name + Z.of_nat i))) (seq 0 4)).

Definition proc_pcs (k : kern) (p : Z) : list Z :=
  until0 (getcallerpcs (mem (km k)) (u32 (load32 (mem (km k)) (fld k p o_context + ctx_ebp) + 4 * 2))).

Definition procdump_one (k : kern) (p : Z) : M con unit :=
  if state k p =? UNUSED then ret tt
  else
    con_cprintf (two_strings (state_name (state k p)) (proc_name k p)) (cs "%d %s %s") [fld k p o_pid; 1; 2] ;;
    (if state k p =? SLEEPING then print_pcs (fun _ => []) (proc_pcs k p) else ret tt) ;;
    con_cprintf (fun _ => []) [10] [].

Fixpoint procdump_from (k : kern) (l : list Z) : M con unit :=
  match l with [] => ret tt | p :: l => procdump_one k p ;; procdump_from k l end.

Definition procdump (k : kern) : M con unit := procdump_from k slots.

(** ** What it prints *)

Definition pcs_text (pcs : list Z) : list Z := flat_map (fun pc => 32 :: printint (s32 pc) 16 false) pcs.

Definition proc_line (k : kern) (p : Z) : list Z :=
  printint (s32 (fld k p o_pid)) 10 true ++ 32 :: state_name (state k p) ++ 32 :: proc_name k p ++
  (if state k p =? SLEEPING then pcs_text (proc_pcs k p) else []) ++ [10].

Definition dump_text (k : kern) (l : list Z) : list Z :=
  flat_map (fun p => if state k p =? UNUSED then [] else proc_line k p) l.

(** The console can print: nobody panicked and the lock is free where it is used. *)
Definition can_print (s : con) : Prop := panicked s = false /\ (clocking s = true -> cons_lock s = false).

(** Only output [l] was added. *)
Definition prints (c : M con unit) (l : list Z) : Prop :=
  forall s, can_print s -> exists g, c s = Done tt (set_cout ((cout s).1 ++ on_line l, g) s).

Lemma prints_bind c1 c2 l1 l2 : prints c1 l1 -> prints c2 l2 -> prints (c1 ;; c2) (l1 ++ l2).
Proof.
  intros H1 H2 s Hs. destruct (H1 s Hs) as [g E1]. rewrite (bind_run _ _ _ _ _ E1).
  destruct (H2 (set_cout ((cout s).1 ++ on_line l1, g) s) Hs) as [g' E2]. exists g'. rewrite E2. unfold on_line. rewrite flat_map_app, app_assoc. done.
Qed.

Lemma prints_nil : prints (ret tt) [].
Proof. intros s _. exists (cout s).2. cbn. rewrite app_nil_r. by destruct s as [? ? ? ? [] ?]. Qed.

Lemma prints_cprintf str fmt args l : cprintf str fmt (fun k => nth k args 0) = l -> prints (con_cprintf str fmt args) l.
Proof. intros <- s [H1 H2]. destruct (cprintf_ok str fmt args s H1 H2) as (g & E & _). by exists g. Qed.

Lemma prints_pcs pcs : prints (print_pcs (fun _ => []) pcs) (pcs_text pcs).
Proof.
  induction pcs as [|pc pcs IH]; [apply prints_nil|]. cbn [print_pcs].
  change (pcs_text (pc :: pcs)) with ((32 :: printint (s32 pc) 16 false) ++ pcs_text pcs).
  apply prints_bind; [|done]. apply prints_cprintf. cbn. by rewrite app_nil_r.
Qed.

Lemma prints_one k p : prints (procdump_one k p) (if state k p =? UNUSED then [] else proc_line k p).
Proof.
  unfold procdump_one, proc_line. destruct (state k p =? UNUSED); [apply prints_nil|].
  set (name := state_name _). set (l := proc_name k p). set (pcs := if _ : bool then pcs_text _ else []).
  replace (printint (s32 (fld k p o_pid)) 10 true ++ 32 :: name ++ 32 :: l ++ pcs ++ [10])
    with ((printint (s32 (fld k p o_pid)) 10 true ++ 32 :: name ++ 32 :: l) ++ pcs ++ [10])
    by (rewrite <- !app_assoc; cbn [app]; by rewrite <- !app_assoc).
  apply prints_bind; [|apply prints_bind; [|apply prints_cprintf; reflexivity]].
  - apply prints_cprintf. clearbody name l. unfold cprintf. change (cs "%d %s %s") with [37; 100; 32; 37; 115; 32; 37; 115].
    cbn [cprintf_from negb Z.eqb Pos.eqb orb nth]. unfold string_arg, two_strings. cbn [Z.eqb Pos.eqb]. by rewrite app_nil_r.
  - unfold pcs. destruct (state k p =? SLEEPING); [apply prints_pcs|apply prints_nil].
Qed.

(** procdump prints a line for each slot in use, in their order, and does nothing else. *)
Theorem procdump_ok k : prints (procdump k) (dump_text k slots).
Proof.
  unfold procdump. generalize slots. intros l. induction l as [|p l IH]; [apply prints_nil|].
  cbn [procdump_from]. apply prints_bind; [apply prints_one|exact IH].
Qed.
