(* ===== verification/Grep.v ===== *)
(** * grep

    The matcher of grep.c (^ . * $) against a definition of what a pattern means, and the
    loop that reads lines through one buffer, and main, which uses it for all files.  A string is the list of its bytes up to the
    terminating 0. *)

From S2P Require Import Prelude Console Ulib User.

(** ** The matcher *)

Definition CARET : Z := 94.
Definition STAR : Z := 42.
Definition DOLLAR : Z := 36.
Definition DOT : Z := 46.

(** [here] is [matchhere] on the rest of the pattern. *)
Fixpoint matchstar (here : list Z -> bool) (c : Z) (text : list Z) : bool :=
  if here text then true
  else match text with
       | [] => false
       | t :: text => if (t =? c) || (c =? DOT) then matchstar here c text else false
       end.

Fixpoint matchhere (re text : list Z) : bool :=
  match re with
  | [] => true
  | r0 :: re1 =>
      match re1 with
      | r1 :: re2 =>
          if r1 =? STAR then matchstar (matchhere re2) r0 text
          else match text with
               | t :: text => if (r0 =? DOT) || (r0 =? t) then matchhere re1 text else false
               | [] => false
               end
      | [] =>
          if r0 =? DOLLAR then match text with [] => true | _ => false end
          else match text with
               | t :: text => if (r0 =? DOT) || (r0 =? t) then matchhere re1 text else false
               | [] => false
               end
      end
  end.

Fixpoint match_from (re text : list Z) : bool :=
  if matchhere re text then true
  else match text with [] => false | _ :: text => match_from re text end.

Definition match_ (re text : list Z) : bool :=
  match re with
  | r0 :: re1 => if r0 =? CARET then matchhere re1 text else match_from re text
  | [] => match_from re text
  end.

(** ** What a pattern means *)

(** A pattern is a sequence of items; the end of the line may be asked for at its end. *)
Inductive item := One (c : Z) | Many (c : Z).
Record pattern := mkPattern { items : list item; at_end : bool }.

Fixpoint parse (re : list Z) : pattern :=
  match re with
  | [] => mkPattern [] false
  | c :: re1 =>
      match re1 with
      | r1 :: re2 =>
          if r1 =? STAR then let p := parse re2 in mkPattern (Many c :: items p) (at_end p)
          else let p := parse re1 in mkPattern (One c :: items p) (at_end p)
      | [] => if c =? DOLLAR then mkPattern [] true else mkPattern [One c] false
      end
  end.

Definition accepts (c t : Z) : Prop := c = DOT \/ c = t.

(** The words of an item, and of a sequence of items. *)
Definition word_of (i : item) (w : list Z) : Prop :=
  match i with
  | One c => exists t, w = [t] /\ accepts c t
  | Many c => Forall (accepts c) w
  end.
Fixpoint words_of (l : list item) (w : list Z) : Prop :=
  match l with
  | [] => w = []
  | i :: l => exists w1 w2, w = w1 ++ w2 /\ word_of i w1 /\ words_of l w2
  end.

(** [text] starts with a word of [p]. *)
Definition starts (p : pattern) (text : list Z) : Prop :=
  exists w rest, text = w ++ rest /\ words_of (items p) w /\ (at_end p = true -> rest = []).

Lemma star_spec (here : list Z -> bool) c text :
  matchstar here c text = true <-> exists w rest, text = w ++ rest /\ Forall (accepts c) w /\ here rest = true.
Proof.
  induction text as [|t text IH]; simpl.
  - destruct (here []) eqn:E.
    + split; [|done]. intros _. by exists [], [].
    + split; [done|]. intros (w & rest & Ew & _ & Hr). symmetry in Ew. apply app_eq_nil in Ew as [-> ->]. congruence.
  - destruct (here (t :: text)) eqn:E; [split; [|done]; intros _; by exists [], (t :: text)|].
    transitivity (accepts c t /\ matchstar here c text = true).
    { unfold accepts. destruct (Z.eqb_spec t c), (Z.eqb_spec c DOT); simpl; naive_solver. }
    rewrite IH. split.
    + intros (Ht & w & rest & -> & Hw & Hr). exists (t :: w), rest. by repeat split; [constructor|].
    + intros (w & rest & Ew & Hw & Hr). destruct w as [|t' w]; simpl in Ew; [congruence|].
      injection Ew as <- ->. apply Forall_cons in Hw as [Ht Hw]. split; [done|]. by exists w, rest.
Qed.

(** One item in front of a pattern. *)
Lemma starts_one c p text : starts (mkPattern (One c :: items p) (at_end p)) text <->
  exists t rest, text = t :: rest /\ accepts c t /\ starts p rest.
Proof.
  unfold starts. cbn [items at_end words_of word_of]. split.
  - intros (w & rest & -> & (w1 & w2 & -> & (t & -> & Ht) & Hw2) & He). exists t, (w2 ++ rest). split; [done|].
    split; [done|]. by exists w2, rest.
  - intros (t & rest & -> & Ht & w & r & -> & Hw & He). exists (t :: w), r. split; [done|]. split; [|done].
    exists [t], w. split; [done|]. split; [|done]. by exists t.
Qed.

Lemma starts_many c p text : starts (mkPattern (Many c :: items p) (at_end p)) text <->
  exists w rest, text = w ++ rest /\ Forall (accepts c) w /\ starts p rest.
Proof.
  unfold starts. cbn [items at_end words_of word_of]. split.
  - intros (w & rest & -> & (w1 & w2 & -> & H1 & H2) & He). exists w1, (w2 ++ rest). rewrite app_assoc. split; [done|].
    split; [done|]. by exists w2, rest.
  - intros (w1 & rest & -> & H1 & w2 & r & -> & H2 & He). exists (w1 ++ w2), r. rewrite app_assoc. split; [done|].
    split; [|done]. by exists w1, w2.
Qed.

Lemma here_one c p text b : (forall t, b t = true <-> starts p t) ->
  (match text with t :: text => if (c =? DOT) || (c =? t) then b text else false | [] => false end) = true <->
  starts (mkPattern (One c :: items p) (at_end p)) text.
Proof.
  intros Hb. rewrite starts_one. destruct text as [|t text]; [by split; [|intros (? & ? & ? & _)]|].
  transitivity (accepts c t /\ b text = true).
  - unfold accepts. destruct (Z.eqb_spec c DOT), (Z.eqb_spec c t); simpl; naive_solver.
  - rewrite Hb. naive_solver.
Qed.

Lemma matchhere_spec re text : matchhere re text = true <-> starts (parse re) text.
Proof.
  revert text. induction re as [re IH] using (induction_ltof1 _ length). unfold ltof in IH. intros text.
  destruct re as [|r0 [|r1 re]].
  - split; [|done]. intros _. by exists [], text.
  - simpl. destruct (Z.eqb_spec r0 DOLLAR) as [->|Hne].
    + destruct text as [|t text]; split; try done; [intros _; by exists [], []|].
      intros (w & rest & E & -> & He). simpl in E. by rewrite He in E.
    + apply (here_one r0 (parse []) text (matchhere [])). intros t. apply IH. simpl. lia.
  - cbn [matchhere parse]. destruct (Z.eqb_spec r1 STAR) as [->|Hne].
    + rewrite star_spec, starts_many. setoid_rewrite IH; [done|]. simpl. lia.
    + apply (here_one r0 (parse (r1 :: re)) text (matchhere (r1 :: re))). intros t. apply IH. simpl. lia.
Qed.

Lemma match_from_spec re text : match_from re text = true <-> exists pre suf, text = pre ++ suf /\ starts (parse re) suf.
Proof.
  induction text as [|t text IH]; simpl; destruct (matchhere re _) eqn:E.
  - split; [|done]. intros _. exists [], []. split; [done|]. by apply matchhere_spec.
  - split; [done|]. intros (pre & suf & Es & Hs). symmetry in Es. apply app_eq_nil in Es as [-> ->].
    apply matchhere_spec in Hs. congruence.
  - split; [|done]. intros _. exists [], (t :: text). split; [done|]. by apply matchhere_spec.
  - rewrite IH. split.
    + intros (pre & suf & -> & Hs). by exists (t :: pre), suf.
    + intros (pre & suf & Es & Hs). destruct pre as [|t' pre]; simpl in Es; [|injection Es as <- ->; by exists pre, suf].
      subst suf. apply matchhere_spec in Hs. congruence.
Qed.

(** C19. grep's matcher is right: a line matches exactly when some part of it is a word of
    the pattern - a sequence of characters, of dots for any character, and of starred
    characters for any number of them - which begins the line after a leading ^, and ends
    it before a final $.  A * with nothing before it, and $ or ^ elsewhere, stand for
    themselves. *)
Theorem match_spec re text : match_ re text = true <->
  match re with
  | c :: re1 =>
      if c =? CARET then starts (parse re1) text
      else exists pre suf, text = pre ++ suf /\ starts (parse re) suf
  | [] => True
  end.
Proof.
  unfold match_. destruct re as [|c re]; [by destruct text|].
  destruct (c =? CARET); [apply matchhere_spec|apply match_from_spec].
Qed.

(** ** Reading lines *)

Definition BUF : nat := 1024.

(** [gmem]: the memory from [buf] to the end of the program; [ginput]: what is left to
    read; [gsched]: how much each read returns when it is less than asked for; [gout]:
    what was written to descriptor 1. *)
Record gst := mkGst {
  gmem : list Z;
  ginput : list Z;
  gsched : list nat;
  gout : list Z }.

Definition set_gmem (m : list Z) (s : gst) : gst := mkGst m (ginput s) (gsched s) (gout s).

(** Bytes stored one after the other from [i]. *)
Fixpoint store_bytes (i : nat) (l mem : list Z) : list Z :=
  match l with [] => mem | b :: l => store_bytes (S i) l (<[i := b]> mem) end.

Definition read (off n : Z) : M gst Z := fun s =>
  match ginput s with
  | [] => Done 0 s
  | _ =>
      let k := Nat.min (Z.to_nat n) (Nat.min (length (ginput s)) (Nat.max 1 (hd (Z.to_nat n) (gsched s)))) in
      if (off <? 0) || (Z.of_nat (length (gmem s)) <? off + Z.of_nat k) then Stop (Faulted off) s
      else Done (Z.of_nat k) (mkGst (store_bytes (Z.to_nat off) (take k (ginput s)) (gmem s))
                                (drop k (ginput s)) (tl (gsched s)) (gout s))
  end.

Definition write (off n : nat) : M gst unit :=
  modify (fun s => mkGst (gmem s) (ginput s) (gsched s) (gout s ++ take n (drop off (gmem s)))).

Definition strchr (p : nat) (c : Z) : M gst (option nat) := fun s =>
  match strchr_at c (drop p (gmem s)) 0 with
  | None => Stop (Faulted (Z.of_nat (length (gmem s)))) s
  | Some None => Done None s
  | Some (Some i) => Done (Some (p + i)%nat) s
  end.

(** The lines of the buffer from [p]; returns where the last, unfinished one starts. *)
Fixpoint grep_lines (n : nat) (pattern : list Z) (p : nat) : M gst nat :=
  match n with
  | O => halt Diverged
  | S n =>
      let! q := strchr p NL in
      match q with
      | None => ret p
      | Some q =>
          modify (fun s => set_gmem (<[q := 0]> (gmem s)) s) ;;
          let! line := gets (fun s => cstring (drop p (gmem s))) in
          (if match_ pattern line then
             modify (fun s => set_gmem (<[q := NL]> (gmem s)) s) ;;
             write p (q + 1 - p)
           else ret tt) ;;
          grep_lines n pattern (q + 1)
      end
  end.

(** memmove of ulib.c: forward, whatever the overlap. *)
Definition memmove_buf (src : nat) (n : Z) : M gst unit :=
  modify (fun s =>
    let fix go (k d s : nat) (mem : list Z) : list Z :=
      match k with O => mem | S k => go k (S d) (S s) (<[d := default 0 (mem !! s)]> mem) end in
    set_gmem (go (Z.to_nat n) 0%nat src (gmem s)) s).

Fixpoint grep_loop (n : nat) (pattern : list Z) (m : Z) : M gst unit :=
  match n with
  | O => halt Diverged
  | S n =>
      let! k := read m (u32 (Z.of_nat BUF - m)) in
      if 0 <? k then
        let m := m + k in
        let! fuel := gets (fun s => S (length (gmem s))) in
        let! p := grep_lines fuel pattern 0 in
        let m := if Z.of_nat p =? 0 then 0 else m in
        (if 0 <? m then
           memmove_buf p (m - Z.of_nat p) ;;
           grep_loop n pattern (m - Z.of_nat p)
         else grep_loop n pattern m)
      else ret tt
  end.

Definition grep (pattern : list Z) : M gst unit :=
  let! fuel := gets (fun s => S (length (ginput s))) in
  grep_loop fuel pattern 0.

(** ** What grep should print *)

Fixpoint full_lines (cur text : list Z) : list (list Z) :=
  match text with
  | [] => []
  | b :: text => if b =? NL then cur :: full_lines [] text else full_lines (cur ++ [b]) text
  end.

(** The lines that match, each with its end. *)
Definition selected (pattern text : list Z) : list Z :=
  concat (map (fun l => l ++ [NL]) (filter (fun l => match_ pattern l = true) (full_lines [] text))).

Lemma full_lines_line cur line text : NL ∉ line -> full_lines cur (line ++ NL :: text) = (cur ++ line) :: full_lines [] text.
Proof.
  revert cur. induction line as [|b line IH]; intros cur Hn; simpl; [by rewrite app_nil_r|].
  apply not_elem_of_cons in Hn as [Hb Hn]. rewrite (proj2 (Z.eqb_neq _ _)) by done. rewrite IH by done. by rewrite <- app_assoc.
Qed.

Lemma full_lines_none cur text : NL ∉ text -> full_lines cur text = [].
Proof.
  revert cur. induction text as [|b text IH]; intros cur Hn; simpl; [done|].
  apply not_elem_of_cons in Hn as [Hb Hn]. rewrite (proj2 (Z.eqb_neq _ _)) by done. by apply IH.
Qed.

Lemma line_split text : NL ∉ text \/ exists line rest, text = line ++ NL :: rest /\ NL ∉ line.
Proof.
  induction text as [|b text IH]; [left; apply not_elem_of_nil|].
  destruct (decide (b = NL)) as [->|Hb]; [right; exists [], text; split; [done|apply not_elem_of_nil]|].
  destruct IH as [IH|(line & rest & -> & IH)].
  - left. by apply not_elem_of_cons.
  - right. exists (b :: line), rest. split; [done|]. by apply not_elem_of_cons.
Qed.

Lemma strchr_found line l i : NL ∉ line -> 0 ∉ line -> strchr_at NL (line ++ NL :: l) i = Some (Some (i + length line)%nat).
Proof.
  revert i. induction line as [|b line IH]; intros i Hn H0; simpl; [by rewrite Nat.add_0_r|].
  apply not_elem_of_cons in Hn as [Hb Hn]. apply not_elem_of_cons in H0 as [Hb0 H0].
  rewrite (proj2 (Z.eqb_neq b 0)), (proj2 (Z.eqb_neq b NL)), IH by done. do 2 f_equal. lia.
Qed.

Lemma strchr_none text l i : NL ∉ text -> 0 ∉ text -> strchr_at NL (text ++ 0 :: l) i = Some None.
Proof.
  revert i. induction text as [|b text IH]; intros i Hn H0; simpl; [done|].
  apply not_elem_of_cons in Hn as [Hb Hn]. apply not_elem_of_cons in H0 as [Hb0 H0].
  by rewrite (proj2 (Z.eqb_neq b 0)), (proj2 (Z.eqb_neq b NL)), IH by done.
Qed.

Lemma insert_mid {A} (l1 l2 : list A) x y i : i = length l1 -> <[i := y]> (l1 ++ x :: l2) = l1 ++ y :: l2.
Proof. intros ->. by rewrite insert_app_r_alt, Nat.sub_diag by lia. Qed.

(** The lines of a text that ends with a 0 in the buffer. *)
Lemma grep_lines_ok pattern post n : forall text pre s, gmem s = pre ++ text ++ 0 :: post -> 0 ∉ text -> (length text < n)%nat ->
  returns (grep_lines n pattern (length pre)) s (fun p s' => exists pre' tail,
    s' = mkGst (pre' ++ tail ++ 0 :: post) (ginput s) (gsched s) (gout s ++ selected pattern text) /\
    p = length pre' /\ (length pre' + length tail = length pre + length text)%nat /\ NL ∉ tail).
Proof.
  induction n as [|n IH]; intros text pre s Hm H0 Hn; [lia|]. cbn [grep_lines]. apply wp_bind.
  unfold wp at 1, strchr. rewrite Hm, drop_app_length.
  destruct (line_split text) as [Hnl|(line & rest & -> & Hnl)].
  - rewrite strchr_none by done. steps. exists pre, text. unfold selected. rewrite full_lines_none by done.
    destruct s. simpl in *. subst. by rewrite app_nil_r.
  - rewrite <- app_assoc. cbn [app]. apply not_elem_of_app in H0 as [H0 H0'].
    apply not_elem_of_cons in H0' as [_ H0']. rewrite strchr_found by done. cbv beta iota.
    rewrite length_app in Hn. cbn [length] in Hn. steps. cbn [gmem set_gmem].
    rewrite Hm, <- app_assoc, app_assoc. cbn [app]. rewrite insert_mid by (rewrite length_app; lia).
    rewrite <- app_assoc, drop_app_length, cstring_app by done.
    assert (selected pattern (line ++ NL :: rest) =
      (if match_ pattern line then line ++ [NL] else []) ++ selected pattern rest) as Esel.
    { unfold selected. rewrite full_lines_line by done. cbn [app]. rewrite filter_cons.
      destruct (match_ pattern line); [by rewrite decide_True|by rewrite decide_False]. }
    assert (forall b out, returns (grep_lines n pattern (length pre + (0 + length line) + 1))
      (mkGst (pre ++ line ++ b :: rest ++ 0 :: post) (ginput s) (gsched s) (gout s ++ out)) (fun p s' => exists pre' tail,
      s' = mkGst (pre' ++ tail ++ 0 :: post) (ginput s) (gsched s) (gout s ++ out ++ selected pattern rest) /\
      p = length pre' /\ (length pre' + length tail = length pre + length (line ++ NL :: rest))%nat /\ NL ∉ tail)) as Hrec.
    { intros b out. replace (length pre + (0 + length line) + 1)%nat with (length (pre ++ line ++ [b]))
        by (rewrite !length_app; simpl; lia).
      eapply returns_mono; [apply (IH rest (pre ++ line ++ [b])); [by rewrite <- !app_assoc|done|lia]|].
      intros p s' (pre' & tail & -> & -> & Hlen & Ht). exists pre', tail. cbn [ginput gsched gout]. rewrite <- app_assoc.
      split; [done|]. split; [done|]. split; [|done]. rewrite Hlen, !length_app. simpl. lia. }
    rewrite Esel. destruct (match_ pattern line).
    + unfold write. steps. cbn [gmem set_gmem ginput gsched gout].
      assert (<[(length pre + (0 + length line))%nat := NL]> (pre ++ line ++ 0 :: rest ++ 0 :: post) =
        pre ++ line ++ NL :: rest ++ 0 :: post) as ->.
      { rewrite app_assoc, insert_mid by (rewrite length_app; lia). by rewrite <- app_assoc. }
      assert (take (length pre + (0 + length line) + 1 - length pre) (drop (length pre) (pre ++ line ++ NL :: rest ++ 0 :: post)) =
        line ++ [NL]) as ->.
      { rewrite drop_app_length. replace (length pre + (0 + length line) + 1 - length pre)%nat with (length (line ++ [NL]))
          by (rewrite length_app; simpl; lia).
        change (NL :: rest ++ 0 :: post) with ([NL] ++ rest ++ 0 :: post). by rewrite app_assoc, take_app_length. }
      apply Hrec.
    + steps. specialize (Hrec 0 []). rewrite app_nil_r in Hrec. exact Hrec.
Qed.

Lemma store_bytes_app l : forall pre old post, length old = length l ->
  store_bytes (length pre) l (pre ++ old ++ post) = pre ++ l ++ post.
Proof.
  induction l as [|b l IH]; intros pre old post Hlen; destruct old as [|o old]; try done.
  simpl. rewrite insert_mid by done. injection Hlen as Hlen.
  specialize (IH (pre ++ [b]) old post Hlen). rewrite length_app, Nat.add_1_r, <- !app_assoc in IH. exact IH.
Qed.

Lemma grep_loop_end n pattern m s : ginput s = [] -> grep_loop (S n) pattern m s = Done tt s.
Proof. intros Hi. cbn [grep_loop]. unfold bind, read. rewrite Hi. done. Qed.

(** A short file is read at once, and a 0 is left behind it in the buffer. *)
Lemma read_all t after : t <> [] -> (length t < BUF)%nat ->
  read 0 (Z.of_nat BUF) (mkGst (replicate BUF 0 ++ after) t [] []) =
    Done (Z.of_nat (length t)) (mkGst (t ++ 0 :: (replicate (BUF - S (length t)) 0 ++ after)) [] [] []).
Proof.
  intros Hne Hlen. unfold read. cbn [ginput gmem gsched gout hd tl]. destruct t as [|b t0] eqn:Et; [done|]. rewrite <- Et in *.
  rewrite Nat2Z.id. assert (Nat.min BUF (Nat.min (length t) (Nat.max 1 BUF)) = length t) as -> by (unfold BUF in *; lia).
  rewrite (proj2 (Z.ltb_ge _ (0 + _))) by (rewrite length_app, length_replicate; unfold BUF in *; lia).
  cbn [orb Z.ltb Z.compare]. rewrite take_ge, drop_ge by lia. do 2 f_equal.
  replace (replicate BUF 0) with (replicate (length t) 0 ++ 0 :: replicate (BUF - S (length t)) 0).
  - rewrite <- app_assoc. apply (store_bytes_app t [] (replicate (length t) 0)). by rewrite length_replicate.
  - change (0 :: replicate (BUF - S (length t)) 0) with (replicate (S (BUF - S (length t))) 0).
    rewrite <- replicate_add. f_equal. lia.
Qed.

Lemma grep_ok pattern text after : 0 ∉ text -> (length text < BUF)%nat ->
  returns (grep pattern) (mkGst (replicate BUF 0 ++ after) text [] []) (fun _ s' => gout s' = selected pattern text).
Proof.
  intros H0 Hlen. unfold grep. steps. cbn [ginput]. destruct (decide (text = [])) as [->|Hne].
  { by unfold wp; rewrite grep_loop_end. }
  destruct (length text) as [|n] eqn:En; [by apply nil_length_inv in En|]. rewrite <- En in Hlen.
  remember (S n) as n1 eqn:E1. cbn [grep_loop]. apply wp_bind. change (u32 (Z.of_nat BUF - 0)) with (Z.of_nat BUF).
  eapply wp_run; [by apply read_all|]. cbv beta. rewrite (proj2 (Z.ltb_lt _ _)) by lia. steps. cbn [gmem].
  eapply wp_mono; [apply (grep_lines_ok pattern (replicate (BUF - S (length text)) 0 ++ after) _ text [])| |done]; [done|done| |].
  { rewrite !length_app. simpl. lia. }
  intros p s' (pre' & tail & -> & -> & _ & _). cbn [ginput gsched gout app]. cbv beta. subst n1.
  unfold memmove_buf. case_match; steps; unfold wp; rewrite grep_loop_end by done; done.
Qed.

(** On a file shorter than its buffer grep prints exactly the complete lines that
    match, in order. *)
Lemma grep_prints_matches pattern text after : 0 ∉ text -> (length text < BUF)%nat ->
  returns (grep pattern) (mkGst (replicate BUF 0 ++ after) text [] []) (fun _ s' => gout s' = selected pattern text).
Proof. apply grep_ok. Qed.

(** What an earlier, longer read left in the buffer is taken for more lines: with the
    empty pattern, which every line matches, "ab", "cd" and then "e" print five lines,
    and the next read would go to an address before the buffer. *)
Lemma grep_stale : exists s, grep [] (mkGst (replicate BUF 0) [97; 98; 10; 99; 100; 10; 101; 10] [6%nat] []) = Done tt s /\
  selected [] [97; 98; 10; 99; 100; 10; 101; 10] = [97; 98; 10; 99; 100; 10; 101; 10] /\
  gout s = [97; 98; 10; 99; 100; 10; 101; 10; 10; 99; 100; 10].
Proof. eexists. split; [vm_compute; reflexivity|]. split; vm_compute; reflexivity. Qed.

(** ** main *)

Section main.
(** What the files hold, None for one that cannot be opened, and what descriptor 0 has. *)
Context (file : list Z -> option (list Z)) (stdin : list Z).

(** Descriptor of a file at its start; the buffer stays as it is. *)
Definition at_start (text : list Z) : M gst unit := modify (fun s => mkGst (gmem s) text (gsched s) (gout s)).
Definition print1 (l : list Z) : M gst unit := modify (fun s => mkGst (gmem s) (ginput s) (gsched s) (gout s ++ l)).

Fixpoint grep_files (pattern : list Z) (files : list (list Z)) : M gst unit :=
  match files with
  | [] => ret tt
  | name :: files =>
      match file name with
      | None => print1 (printf (fun _ => name) (line_ "grep: cannot open %s") (fun _ => 1))
      | Some text =>
          at_start text ;;
          grep pattern ;;
          grep_files pattern files
      end
  end.

(** The bytes it writes to descriptor 2. *)
Definition grep_main (argv : list (list Z)) : M gst (list Z) :=
  match argv with
  | [] | [_] => ret (line_ "usage: grep pattern [file ...]")
  | [_; pattern] => at_start stdin ;; grep pattern ;; ret []
  | _ :: pattern :: files => grep_files pattern files ;; ret []
  end.

(** One short file: the lines that match. *)
Lemma grep_main_one name pattern path text after : file path = Some text -> 0 ∉ text -> (length text < BUF)%nat ->
  returns (grep_main [name; pattern; path]) (mkGst (replicate BUF 0 ++ after) [] [] []) (fun r s' => r = [] /\ gout s' = selected pattern text).
Proof.
  intros Hf H0 Hl. cbn [grep_main grep_files]. rewrite Hf. apply wp_bind, wp_bind. unfold at_start. step. apply wp_bind.
  eapply wp_mono; [by apply grep_ok| |done]. intros [] s' Ho. cbv beta in Ho. steps. done.
Qed.

(** A file that cannot be opened ends grep; those after it are not read. *)
Lemma grep_main_missing name pattern path files s : file path = None ->
  grep_main (name :: pattern :: path :: files) s =
    Done [] (mkGst (gmem s) (ginput s) (gsched s) (gout s ++ cs "grep: cannot open " ++ path ++ [10])).
Proof. intros Hf. cbn [grep_main grep_files]. rewrite Hf. reflexivity. Qed.
End main.

(** With two files, lines of the first one are printed again for the second. *)
Lemma grep_two_files : let file name := if decide (name = [97]) then Some (cs "x1" ++ NL :: cs "x2" ++ [NL]) else Some (121 :: [NL]) in
  exists s, grep_main file [] [cs "grep"; cs "x"; [97]; [98]] (mkGst (replicate BUF 0) [] [] []) = Done [] s /\
  gout s = cs "x1" ++ NL :: cs "x2" ++ NL :: cs "x2" ++ [NL] /\ selected (cs "x") (121 :: [NL]) = [].
Proof. eexists. split; [vm_compute; reflexivity|]. split; vm_compute; reflexivity. Qed.
