(* ===== verification/Sh.v ===== *)
(** * The shell

    The parser of sh.c: tokens, commands, and the strings it leaves in the line.  The
    parser walks a pointer along the line; here its state is the rest of the line, and a
    position is its distance from the start. *)

From S2P Require Import Prelude Ulib.

(** ** Characters *)

(** " \t\r\n\v" and "<|>&;()". *)
Definition whitespace : list Z := [32; 9; 13; 10; 11].
Definition symbols : list Z := [60; 124; 62; 38; 59; 40; 41].
Definition LT : Z := 60.
Definition BAR : Z := 124.
Definition GT : Z := 62.
Definition AMP : Z := 38.
Definition SEMI : Z := 59.
Definition LPAR : Z := 40.
Definition RPAR : Z := 41.
Definition PLUS : Z := 43.
Definition LETTER_a : Z := 97.

(** strchr(s, c) on a constant string. *)
Definition inside (l : list Z) (c : Z) : bool := existsb (Z.eqb c) l.
Definition is_ws (c : Z) : bool := inside whitespace c.
Definition is_word (c : Z) : bool := negb (is_ws c) && negb (inside symbols c).

(** ** Commands *)

Definition O_RDONLY : Z := 0.
Definition O_WRONLY : Z := 1.
Definition O_CREATE : Z := 0x200.
Definition MAXARGS : nat := 10.

(** A string is a pair of positions, [q] and [eq]. *)
Inductive cmd :=
| Exec (argv : list (nat * nat))
| Redir (c : cmd) (file : nat * nat) (mode fd : Z)
| Pipe (left right : cmd)
| List (left right : cmd)
| Back (c : cmd).

Section parser.
(** The line, up to its terminating 0. *)
Context (line : list Z).

Definition pos (s : list Z) : nat := (length line - length s)%nat.

(** ** Tokens *)

Fixpoint skip_ws (s : list Z) : list Z :=
  match s with b :: s' => if is_ws b then skip_ws s' else s | [] => [] end.
Fixpoint skip_word (s : list Z) : list Z :=
  match s with b :: s' => if is_word b then skip_word s' else s | [] => [] end.

Definition gettoken : M (list Z) (Z * (nat * nat)) := fun ps =>
  let s := skip_ws ps in
  let q := pos s in
  let '(ret, s) :=
    match s with
    | [] => (0, s)
    | c :: s1 =>
        if inside [BAR; LPAR; RPAR; SEMI; AMP; LT] c then (c, s1)
        else if c =? GT then
          match s1 with
          | c1 :: s2 => if c1 =? GT then (PLUS, s2) else (GT, s1)
          | [] => (GT, s1)
          end
        else (LETTER_a, skip_word s)
    end in
  let eq := pos s in
  Done (ret, (q, eq)) (skip_ws s).

Definition peek (toks : list Z) : M (list Z) bool := fun ps =>
  let s := skip_ws ps in
  Done (match s with [] => false | c :: _ => inside toks c end) s.

(** ** The grammar *)

(** redircmd; the arguments of the command inside may still be filled in. *)
Definition redir : Type := (nat * nat) * Z * Z.
Definition redirs (c : cmd) (l : list redir) : cmd :=
  fold_left (fun c '(file, mode, fd) => Redir c file mode fd) l c.

Fixpoint parseredirs (n : nat) : M (list Z) (list redir) :=
  match n with
  | O => halt Diverged
  | S n =>
      let! more := peek [LT; GT] in
      if more then
        let! 't := gettoken in
        let tok := t.1 in
        let! 't := gettoken in
        if negb (t.1 =? LETTER_a) then panic "missing file for redirection"
        else
          let r := if tok =? LT then (t.2, O_RDONLY, 0) else (t.2, Z.lor O_WRONLY O_CREATE, 1) in
          let! rest := parseredirs n in
          ret (r :: rest)
      else ret []
  end.

(** The arguments, from the [argc]-th on, and the redirections between them. *)
Fixpoint parseargs (n argc : nat) : M (list Z) (list (nat * nat) * list redir) :=
  match n with
  | O => halt Diverged
  | S n =>
      let! stop := peek [BAR; RPAR; AMP; SEMI] in
      if stop then ret ([], [])
      else
        let! 't := gettoken in
        if t.1 =? 0 then ret ([], [])
        else if negb (t.1 =? LETTER_a) then panic "syntax"
        else if (MAXARGS <=? argc + 1)%nat then panic "too many args"
        else
          let! fuel := gets (fun s => S (length s)) in
          let! rs := parseredirs fuel in
          let! 'more := parseargs n (argc + 1) in
          ret (t.2 :: more.1, rs ++ more.2)
  end.

Fixpoint backs (n : nat) (c : cmd) : M (list Z) cmd :=
  match n with
  | O => halt Diverged
  | S n =>
      let! more := peek [AMP] in
      if more then gettoken ;; backs n (Back c) else ret c
  end.

Fixpoint parseline (n : nat) : M (list Z) cmd :=
  match n with
  | O => halt Diverged
  | S n =>
      let! c := parsepipe n in
      let! fuel := gets (fun s => S (length s)) in
      let! c := backs fuel c in
      let! more := peek [SEMI] in
      if more then gettoken ;; let! r := parseline n in ret (List c r) else ret c
  end
with parsepipe (n : nat) : M (list Z) cmd :=
  match n with
  | O => halt Diverged
  | S n =>
      let! c := parseexec n in
      let! more := peek [BAR] in
      if more then gettoken ;; let! r := parsepipe n in ret (Pipe c r) else ret c
  end
with parseexec (n : nat) : M (list Z) cmd :=
  match n with
  | O => halt Diverged
  | S n =>
      let! block := peek [LPAR] in
      if block then parseblock n
      else
        let! fuel := gets (fun s => S (length s)) in
        let! rs := parseredirs fuel in
        let! fuel := gets (fun s => S (length s)) in
        let! 'more := parseargs fuel 0 in
        ret (redirs (Exec more.1) (rs ++ more.2))
  end
with parseblock (n : nat) : M (list Z) cmd :=
  match n with
  | O => halt Diverged
  | S n =>
      let! open := peek [LPAR] in
      if negb open then panic "parseblock"
      else
        gettoken ;;
        let! c := parseline n in
        let! close := peek [RPAR] in
        if negb close then panic "syntax - missing )"
        else
          gettoken ;;
          let! fuel := gets (fun s => S (length s)) in
          let! rs := parseredirs fuel in
          ret (redirs c rs)
  end.

(** ** Terminating the strings *)

Definition argends (argv : list (nat * nat)) (buf : list Z) : list Z :=
  fold_left (fun buf '(_, eq) => <[eq := 0]> buf) argv buf.
Fixpoint nulterminate (c : cmd) (buf : list Z) : list Z :=
  match c with
  | Exec argv => argends argv buf
  | Redir c (_, efile) _ _ => <[efile := 0]> (nulterminate c buf)
  | Pipe l r => nulterminate r (nulterminate l buf)
  | List l r => nulterminate r (nulterminate l buf)
  | Back c => nulterminate c buf
  end.
End parser.

(** parsecmd on a line: the command, and the line with its strings terminated. *)
Definition parsecmd (line : list Z) : M (list Z) (cmd * list Z) :=
  let! c := parseline line (4 * length line + 4) in
  peek [] ;;
  let! rest := gets id in
  match rest with
  | [] => ret (c, nulterminate c (line ++ [0]))
  | _ => panic "syntax"
  end.

(** ** Every line is parsed, or refused *)

(** The code returns with [Q], or ends the shell with a message. *)
Definition ends {A} (c : M (list Z) A) (s : list Z) (Q : A -> list Z -> Prop) : Prop :=
  wp c s Q (fun w _ => exists msg, w = Panicked msg).

Lemma ends_bind {A B} (c : M (list Z) A) (f : A -> M (list Z) B) s Q :
  ends c s (fun a s' => ends (f a) s' Q) -> ends (bind c f) s Q.
Proof. apply wp_bind. Qed.

Lemma ends_mono {A} (c : M (list Z) A) s (Q Q' : A -> list Z -> Prop) :
  ends c s Q -> (forall a s', Q a s' -> Q' a s') -> ends c s Q'.
Proof. intros Hc HQ. eapply wp_mono; [exact Hc|exact HQ|done]. Qed.

Lemma skip_ws_split s : exists w, s = w ++ skip_ws s.
Proof.
  induction s as [|b s [w IH]]; [by exists []|]. simpl. destruct (is_ws b); [|by exists []].
  exists (b :: w). simpl. by f_equal.
Qed.

Lemma skip_ws_length s : (length (skip_ws s) <= length s)%nat.
Proof. destruct (skip_ws_split s) as [w E]. rewrite E at 2. rewrite length_app. lia. Qed.

Lemma skip_ws_head s : match skip_ws s with b :: _ => is_ws b = false | [] => True end.
Proof. induction s as [|b s IH]; simpl; [done|]. by destruct (is_ws b) eqn:E. Qed.

Lemma skip_word_split s : exists w, s = w ++ skip_word s /\ Forall (fun b => is_word b = true) w /\
  match skip_word s with b :: _ => is_word b = false | [] => True end.
Proof.
  induction s as [|b s (w & IH & Hw & Hh)]; [by exists []|]. simpl. destruct (is_word b) eqn:E.
  - exists (b :: w). split; [simpl; by f_equal|]. by split; [constructor|].
  - by exists [].
Qed.

Section total.
Context (line : list Z).

(** The pointer is in the line. *)
Definition suf (s : list Z) : Prop := exists pre, line = pre ++ s.

(** A word of the line: as long as it can be. *)
Definition tok_ok (t : nat * nat) : Prop :=
  (t.1 < t.2)%nat /\ (forall i, (t.1 <= i < t.2)%nat -> exists b, line !! i = Some b /\ is_word b = true) /\
  match line !! t.2 with Some b => is_word b = false | None => t.2 = length line end.

Lemma suf_app w s : suf (w ++ s) -> suf s.
Proof. intros [pre ->]. exists (pre ++ w). by rewrite <- app_assoc. Qed.

Lemma suf_ws s : suf s -> suf (skip_ws s) /\ (length (skip_ws s) <= length s)%nat.
Proof.
  intros Hs. destruct (skip_ws_split s) as [w E]. split; [rewrite E in Hs; by apply suf_app in Hs|].
  rewrite E at 2. rewrite length_app. lia.
Qed.

Lemma pos_suf pre s : line = pre ++ s -> pos line s = length pre.
Proof. intros E. unfold pos. rewrite E, length_app. lia. Qed.

(** A token: the pointer moves on, and a word is delimited. *)
Lemma gettoken_ok ps : suf ps -> ends (gettoken line) ps (fun t s' =>
  suf s' /\ (length s' <= length ps)%nat /\ (t.1 <> 0 \/ skip_ws ps <> [] -> (length s' < length ps)%nat) /\
  (t.1 = LETTER_a -> tok_ok t.2)).
Proof.
  intros Hs. destruct (suf_ws ps Hs) as [Hs1 Hl1]. pose proof (skip_ws_head ps) as Hh.
  unfold ends, wp, gettoken. set (s := skip_ws ps) in *.
  assert (forall r t s2, suf s2 -> (S (length s2) <= length s)%nat -> r <> LETTER_a ->
    suf (skip_ws s2) /\ (length (skip_ws s2) <= length ps)%nat /\
    ((r, t).1 <> 0 \/ s <> [] -> (length (skip_ws s2) < length ps)%nat) /\ ((r, t).1 = LETTER_a -> tok_ok t)) as Hsym.
  { intros r t s2 H2 Hl2 Hr. destruct (suf_ws s2 H2). split; [done|]. split; [lia|]. split; [lia|done]. }
  destruct s as [|c s1] eqn:Es; [split; [done|]; split; [simpl in *; lia|]; split; [by intros [?|?]|done]|].
  assert (suf s1) as Hs2 by (by apply (suf_app [c])).
  destruct (inside [BAR; LPAR; RPAR; SEMI; AMP; LT] c) eqn:Ein.
  { apply Hsym; [done|done|]. intros ->. discriminate. }
  destruct (Z.eqb_spec c GT) as [->|HGT].
  { destruct s1 as [|c1 s2]; [by apply Hsym|]. destruct (Z.eqb_spec c1 GT); [|by apply Hsym].
    apply Hsym; [by apply (suf_app [c1])|simpl; lia|done]. }
  destruct (skip_word_split (c :: s1)) as (w & Ew & Hw & Hend).
  assert (is_word c = true) as Hc.
  { apply Z.eqb_neq in HGT. unfold is_word. rewrite Hh. unfold inside, symbols, BAR, LPAR, RPAR, SEMI, AMP, LT, GT in *.
    cbn [existsb] in *. rewrite HGT. rewrite !orb_false_iff in Ein.
    destruct Ein as (-> & -> & -> & -> & -> & -> & _). done. }
  assert (w <> []) as Hwne.
  { intros ->. cbn [app] in Ew. rewrite <- Ew in Hend. congruence. }
  set (s2 := skip_word (c :: s1)) in *. clearbody s2. destruct Hs1 as [pre Epre].
  assert (0 < length w)%nat as Hlw by (destruct w; simpl; [done|lia]).
  assert (length (c :: s1) = length w + length s2)%nat as Hlen by (by rewrite Ew, length_app).
  rewrite Ew in Epre. assert (suf s2) as Hsuf2 by (exists (pre ++ w); by rewrite <- app_assoc).
  destruct (suf_ws s2 Hsuf2). split; [done|]. split; [lia|]. split; [lia|]. intros _.
  unfold tok_ok. cbn [fst snd]. rewrite Ew, (pos_suf pre (w ++ s2) Epre), (pos_suf (pre ++ w) s2) by (by rewrite <- app_assoc).
  rewrite length_app. split; [lia|]. split.
  - intros i Hi. rewrite Epre, lookup_app_r, lookup_app_l by lia.
    destruct (lookup_lt_is_Some_2 w (i - length pre)) as [b Eb]; [lia|]. exists b. split; [done|].
    by apply (Forall_lookup_1 _ _ _ _ Hw Eb).
  - rewrite Epre, app_assoc, lookup_app_r by (rewrite length_app; lia). rewrite length_app, Nat.sub_diag.
    destruct s2 as [|b s2]; [|done]. simpl. rewrite app_nil_r, length_app. done.
Qed.

Lemma skip_ws_idem s : skip_ws (skip_ws s) = skip_ws s.
Proof. induction s as [|b s IH]; [done|]. simpl. destruct (is_ws b) eqn:E; [done|]. simpl. by rewrite E. Qed.

Lemma peek_ok toks ps : suf ps -> ends (peek toks) ps (fun b s' =>
  suf s' /\ (length s' <= length ps)%nat /\ (b = true -> skip_ws s' <> [])).
Proof.
  intros Hs. destruct (suf_ws ps Hs). unfold ends, wp, peek. split; [done|]. split; [done|].
  rewrite skip_ws_idem. by destruct (skip_ws ps).
Qed.

(** ** The grammar *)

Fixpoint cmd_ok (c : cmd) : Prop :=
  match c with
  | Exec argv => (length argv < MAXARGS)%nat /\ Forall tok_ok argv
  | Redir c file _ _ => cmd_ok c /\ tok_ok file
  | Pipe l r | List l r => cmd_ok l /\ cmd_ok r
  | Back c => cmd_ok c
  end.

Definition redir_ok (r : redir) : Prop := tok_ok r.1.1.

Lemma redirs_ok c l : cmd_ok c -> Forall redir_ok l -> cmd_ok (redirs c l).
Proof.
  revert c. induction l as [|[[file mode] fd] l IH]; intros c Hc Hl; [done|].
  apply Forall_cons in Hl as [Hr Hl]. apply IH; [by split|done].
Qed.

(** The rest [s'] of the line is at most as long as [s]. *)
Definition after (s s' : list Z) : Prop := suf s' /\ (length s' <= length s)%nat.

Lemma parseredirs_ok n s : suf s -> (length s < n)%nat ->
  ends (parseredirs line n) s (fun l s' => after s s' /\ Forall redir_ok l).
Proof.
  revert s. induction n as [|n IH]; intros s Hs Hn; [lia|]. cbn [parseredirs]. apply ends_bind.
  eapply ends_mono; [by apply peek_ok|]. intros more s1 (Hs1 & Hl1 & Hm). destruct more; [|by repeat split].
  apply ends_bind. eapply ends_mono; [by apply gettoken_ok|]. intros t s2 (Hs2 & Hl2 & Hlt & _).
  apply ends_bind. eapply ends_mono; [by apply gettoken_ok|]. intros t2 s3 (Hs3 & Hl3 & _ & Htok).
  specialize (Hlt (or_intror (Hm eq_refl))). destruct (Z.eqb_spec t2.1 LETTER_a) as [Ht|]; cbn [negb]; [|by eexists].
  apply ends_bind. eapply ends_mono; [apply IH; [done|lia]|]. intros l s4 [[Hs4 Hl4] Hl].
  split; [split; [done|lia]|]. constructor; [|done]. unfold redir_ok. destruct (t.1 =? LT); by apply Htok.
Qed.

Lemma parseargs_ok n argc s : suf s -> (length s < n)%nat -> (argc < MAXARGS)%nat ->
  ends (parseargs line n argc) s (fun l s' => after s s' /\ Forall tok_ok l.1 /\ Forall redir_ok l.2 /\
    (argc + length l.1 < MAXARGS)%nat).
Proof.
  revert argc s. induction n as [|n IH]; intros argc s Hs Hn Ha; [lia|]. cbn [parseargs]. apply ends_bind.
  eapply ends_mono; [by apply peek_ok|]. intros b s1 (Hs1 & Hl1 & _).
  destruct b; [repeat split; [done|done|constructor|constructor|simpl; lia]|].
  apply ends_bind. eapply ends_mono; [by apply gettoken_ok|]. intros t s2 (Hs2 & Hl2 & Hlt & Htok).
  destruct (Z.eqb_spec t.1 0) as [|Ht0]; [repeat split; [done|lia|constructor|constructor|simpl; lia]|].
  specialize (Hlt (or_introl Ht0)).
  destruct (Z.eqb_spec t.1 LETTER_a) as [Ht|]; cbn [negb]; [|by eexists].
  destruct (Nat.leb_spec MAXARGS (argc + 1)); [by eexists|]. apply ends_bind, wp_gets, ends_bind.
  eapply ends_mono; [apply parseredirs_ok; [done|lia]|]. intros rs s3 [[Hs3 Hl3] Hrs]. apply ends_bind.
  eapply ends_mono; [apply IH; [done|lia|lia]|]. intros m s4 ([Hs4 Hl4] & H1 & H2 & H3).
  cbn [fst snd]. split; [split; [done|lia]|]. split; [constructor; [by apply Htok|done]|].
  split; [by apply Forall_app|]. simpl. lia.
Qed.

Lemma backs_ok n c s : suf s -> (length s < n)%nat -> cmd_ok c ->
  ends (backs line n c) s (fun c' s' => after s s' /\ cmd_ok c').
Proof.
  revert c s. induction n as [|n IH]; intros c s Hs Hn Hc; [lia|]. cbn [backs]. apply ends_bind.
  eapply ends_mono; [by apply peek_ok|]. intros b s1 (Hs1 & Hl1 & Hm). destruct b; [|by repeat split].
  apply ends_bind. eapply ends_mono; [by apply gettoken_ok|]. intros t s2 (Hs2 & Hl2 & Hlt & _).
  specialize (Hlt (or_intror (Hm eq_refl))). eapply ends_mono; [apply IH; [done|lia|done]|].
  intros c' s3 [[Hs3 Hl3] Hc']. split; [split; [done|lia]|done].
Qed.

Definition parses (c : M (list Z) cmd) (s : list Z) : Prop := ends c s (fun c s' => after s s' /\ cmd_ok c).

(** A separator and what follows it. *)
Lemma then_ok toks (more : M (list Z) cmd) (f : cmd -> cmd) c s0 s : after s0 s -> cmd_ok c ->
  (forall s', suf s' -> (length s' < length s)%nat -> parses more s') -> (forall r, cmd_ok r -> cmd_ok (f r)) ->
  ends (let! b := peek toks in if b then gettoken line ;; let! r := more in ret (f r) else ret c) s
    (fun c' s' => after s0 s' /\ cmd_ok c').
Proof.
  intros [Hs Hl] Hc Hmore Hf. apply ends_bind. eapply ends_mono; [by apply peek_ok|]. intros b s1 (Hs1 & Hl1 & Hm).
  destruct b; [|split; [split; [done|lia]|done]].
  apply ends_bind. eapply ends_mono; [by apply gettoken_ok|]. intros t s2 (Hs2 & Hl2 & Hlt & _).
  specialize (Hlt (or_intror (Hm eq_refl))). apply ends_bind. eapply ends_mono; [apply Hmore; [done|lia]|].
  intros r s3 [[Hs3 Hl3] Hr]. split; [split; [done|lia]|by apply Hf].
Qed.

Lemma parse_ok n s : suf s ->
  ((4 * length s + 4 <= n)%nat -> parses (parseline line n) s) /\
  ((4 * length s + 3 <= n)%nat -> parses (parsepipe line n) s) /\
  ((4 * length s + 2 <= n)%nat -> parses (parseexec line n) s) /\
  ((4 * length s + 1 <= n)%nat -> parses (parseblock line n) s).
Proof.
  revert s. induction n as [|n IH]; intros s Hs; [split; [lia|split; [lia|split; lia]]|].
  destruct (IH s Hs) as (_ & IHp & IHe & IHb). split; [|split; [|split]]; intros Hn; cbn [parseline parsepipe parseexec parseblock].
  - apply ends_bind. eapply ends_mono; [apply IHp; lia|]. intros c s1 [[Hs1 Hl1] Hc].
    apply ends_bind, wp_gets, ends_bind. eapply ends_mono; [apply backs_ok; [done|lia|done]|].
    intros c2 s2 [[Hs2 Hl2] Hc2]. apply then_ok; [split; [done|lia]|done| |by intros r Hr; split].
    intros s3 Hs3 Hl3. apply (IH s3 Hs3). lia.
  - apply ends_bind. eapply ends_mono; [apply IHe; lia|]. intros c s1 [[Hs1 Hl1] Hc].
    apply then_ok; [split; [done|lia]|done| |by intros r Hr; split].
    intros s3 Hs3 Hl3. apply (IH s3 Hs3). lia.
  - apply ends_bind. eapply ends_mono; [by apply peek_ok|]. intros b s1 (Hs1 & Hl1 & _). destruct b.
    + eapply ends_mono; [apply (IH s1 Hs1); lia|]. intros c s2 [[Hs2 Hl2] Hc]. split; [split; [done|lia]|done].
    + apply ends_bind, wp_gets, ends_bind. eapply ends_mono; [apply parseredirs_ok; [done|lia]|].
      intros rs s2 [[Hs2 Hl2] Hrs]. apply ends_bind, wp_gets, ends_bind.
      eapply ends_mono; [apply parseargs_ok; [done|lia|unfold MAXARGS; lia]|]. intros m s3 ([Hs3 Hl3] & H1 & H2 & H3).
      split; [split; [done|lia]|]. apply redirs_ok; [by split|by apply Forall_app].
  - apply ends_bind. eapply ends_mono; [by apply peek_ok|]. intros b s1 (Hs1 & Hl1 & Hm). destruct b; [|by eexists].
    apply ends_bind. eapply ends_mono; [by apply gettoken_ok|]. intros t s2 (Hs2 & Hl2 & Hlt & _).
    specialize (Hlt (or_intror (Hm eq_refl))). apply ends_bind. eapply ends_mono; [apply (IH s2 Hs2); lia|].
    intros c s3 [[Hs3 Hl3] Hc]. apply ends_bind. eapply ends_mono; [by apply peek_ok|]. intros b s4 (Hs4 & Hl4 & _).
    destruct b; [|by eexists]. apply ends_bind. eapply ends_mono; [by apply gettoken_ok|]. intros t5 s5 (Hs5 & Hl5 & _).
    apply ends_bind, wp_gets, ends_bind. eapply ends_mono; [apply parseredirs_ok; [done|lia]|].
    intros rs s6 [[Hs6 Hl6] Hrs]. split; [split; [done|lia]|by apply redirs_ok].
Qed.

(** ** The strings of a command *)

Fixpoint toks (c : cmd) : list (nat * nat) :=
  match c with
  | Exec argv => argv
  | Redir c file _ _ => toks c ++ [file]
  | Pipe l r | List l r => toks l ++ toks r
  | Back c => toks c
  end.

Lemma cmd_ok_toks c t : cmd_ok c -> t ∈ toks c -> tok_ok t.
Proof.
  induction c as [argv|c IH file mode fd|l IHl r IHr|l IHl r IHr|c IH]; simpl.
  - intros [_ Ha] Ht. by eapply Forall_forall in Ha.
  - intros [Hc Hf] Ht. apply elem_of_app in Ht as [Ht|Ht]; [by apply IH|]. by apply list_elem_of_singleton in Ht as ->.
  - intros [Hl Hr] Ht. apply elem_of_app in Ht as [Ht|Ht]; auto.
  - intros [Hl Hr] Ht. apply elem_of_app in Ht as [Ht|Ht]; auto.
  - done.
Qed.

(** nulterminate writes a 0 at the end of each string. *)
Definition put_nuls (l : list (nat * nat)) (buf : list Z) : list Z := fold_left (fun buf t => <[t.2 := 0]> buf) l buf.

Lemma nulterminate_eq c buf : nulterminate c buf = put_nuls (toks c) buf.
Proof.
  unfold put_nuls. revert buf. induction c as [argv|c IH [q eq] mode fd|l IHl r IHr|l IHl r IHr|c IH]; intros buf; simpl.
  - unfold argends. revert buf. induction argv as [|[q eq] argv IH]; intros buf; simpl; [done|]. apply IH.
  - by rewrite fold_left_app, IH.
  - by rewrite fold_left_app, IHl, IHr.
  - by rewrite fold_left_app, IHl, IHr.
  - apply IH.
Qed.

Lemma put_nuls_length l buf : length (put_nuls l buf) = length buf.
Proof. revert buf. induction l as [|t l IH]; intros buf; simpl; [done|]. rewrite IH. apply length_insert. Qed.

Lemma put_nuls_ne l buf i : (forall t, t ∈ l -> t.2 <> i) -> put_nuls l buf !! i = buf !! i.
Proof.
  revert buf. induction l as [|t l IH]; intros buf Hne; simpl; [done|]. rewrite IH.
  - apply list_lookup_insert_ne, Hne, elem_of_cons. by left.
  - intros t' Ht'. apply Hne, elem_of_cons. by right.
Qed.

Lemma put_nuls_zero l buf i : buf !! i = Some 0 -> put_nuls l buf !! i = Some 0.
Proof.
  revert buf. induction l as [|t l IH]; intros buf Hi; simpl; [done|]. apply IH.
  destruct (decide (t.2 = i)) as [->|]; [|by rewrite list_lookup_insert_ne].
  apply list_lookup_insert_eq. by apply lookup_lt_Some in Hi.
Qed.

Lemma put_nuls_eq l buf t : t ∈ l -> (t.2 < length buf)%nat -> put_nuls l buf !! t.2 = Some 0.
Proof.
  revert buf. induction l as [|t' l IH]; intros buf Ht Hlen; [by apply elem_of_nil in Ht|]. simpl.
  apply elem_of_cons in Ht as [<-|Ht]; [by apply put_nuls_zero, list_lookup_insert_eq|].
  apply IH; [done|]. by rewrite length_insert.
Qed.

Definition word_at (t : nat * nat) : list Z := take (t.2 - t.1) (drop t.1 line).

(** A string of the command is the word it delimits, once the zeros are written. *)
Lemma string_is_word c t : 0 ∉ line -> cmd_ok c -> t ∈ toks c ->
  cstring (drop t.1 (nulterminate c (line ++ [0]))) = word_at t.
Proof.
  intros H0 Hc Ht. rewrite nulterminate_eq. set (buf := put_nuls _ _).
  destruct (cmd_ok_toks c t Hc Ht) as (Hlt & Hin & Hend).
  assert (t.2 <= length line)%nat as Hle.
  { destruct (line !! t.2) eqn:E; [apply lookup_lt_Some in E|]; lia. }
  assert (forall i, (t.1 <= i < t.2)%nat -> buf !! i = line !! i) as Hsame.
  { intros i Hi. unfold buf. rewrite put_nuls_ne; [rewrite lookup_app_l by lia; done|].
    intros t' Ht' <-. destruct (Hin t'.2 Hi) as (b & Eb & Hb).
    destruct (cmd_ok_toks c t' Hc Ht') as (_ & _ & Hend'). rewrite Eb in Hend'. congruence. }
  assert (buf !! t.2 = Some 0) as Hz by (apply put_nuls_eq; [done|rewrite length_app; simpl; lia]).
  assert (drop t.1 buf = word_at t ++ 0 :: drop (S t.2) buf) as ->.
  { rewrite <- (take_drop (t.2 - t.1) (drop t.1 buf)). f_equal.
    - apply list_eq. intros i. unfold word_at. destruct (decide (i < t.2 - t.1)%nat).
      + rewrite !lookup_take_lt, !lookup_drop by lia. apply Hsame. lia.
      + rewrite !lookup_take_ge by lia. done.
    - rewrite drop_drop. replace (t.1 + (t.2 - t.1))%nat with t.2 by lia. by apply drop_S. }
  apply cstring_app. unfold word_at. intros Hin0. apply H0.
  apply elem_of_take in Hin0 as (i & Hi & _). rewrite lookup_drop in Hi. by apply list_elem_of_lookup_2 in Hi.
Qed.
End total.

(** What the shell takes a line for, or a message: the parser always ends. *)
Definition sh_parse (line : list Z) : outcome (list Z) (cmd * list Z) := parsecmd line line.

(** ** Commands as they are written *)

Inductive scmd :=
| SExec (argv : list (list Z))
| SRedir (c : scmd) (file : list Z) (out : bool)
| SPipe (left right : scmd)
| SList (left right : scmd)
| SBack (c : scmd).

(** The command [c], whose strings are [str], is [x]. *)
Fixpoint means (str : nat * nat -> list Z) (c : cmd) (x : scmd) : Prop :=
  match c, x with
  | Exec argv, SExec words => map str argv = words
  | Redir c file mode fd, SRedir x f out =>
      means str c x /\ str file = f /\
      (mode, fd) = if out then (Z.lor O_WRONLY O_CREATE, 1) else (O_RDONLY, 0)
  | Pipe l r, SPipe xl xr | List l r, SList xl xr => means str l xl /\ means str r xr
  | Back c, SBack x => means str c x
  | _, _ => False
  end.

Definition good_word (w : list Z) : Prop := w <> [] /\ Forall (fun b => is_word b = true /\ b <> 0) w.

Fixpoint good (x : scmd) : Prop :=
  match x with
  | SExec argv => (length argv < MAXARGS)%nat /\ Forall good_word argv
  | SRedir c file _ => good c /\ good_word file
  | SPipe l r | SList l r => good l /\ good r
  | SBack c => good c
  end.

Definition SP : Z := 32.
Definition print_redir (file : list Z) (out : bool) : list Z := (if out then GT else LT) :: file ++ [SP].

(** A command that binds weaker than its context is put in parentheses. *)
Definition level (x : scmd) : nat :=
  match x with SExec _ | SRedir _ _ _ => 0 | SPipe _ _ => 1 | SBack _ => 2 | SList _ _ => 3 end.

Fixpoint print (x : scmd) (lvl : nat) : list Z :=
  let body :=
    match x with
    | SExec argv => concat (map (fun w => w ++ [SP]) argv)
    | SRedir c file out => print c 0 ++ print_redir file out
    | SPipe l r => print l 0 ++ BAR :: print r 1
    | SBack c => print c 2 ++ [AMP]
    | SList l r => print l 2 ++ SEMI :: print r 3
    end in
  if (level x <=? lvl)%nat then body else LPAR :: body ++ [RPAR].

(** ** Parsing what was printed *)

Section roundtrip.
Context (line : list Z).

(** The rest of the line is over, or goes on with one of [l]. *)
Definition follow (l : list Z) (rest : list Z) : Prop :=
  match skip_ws rest with [] => True | c :: _ => inside l c = true end.

Lemma peek_run toks s : peek toks s = Done (match skip_ws s with [] => false | c :: _ => inside toks c end) (skip_ws s).
Proof. done. Qed.

Lemma suf_skip s : suf line s -> suf line (skip_ws s).
Proof. intros Hs. by apply suf_ws. Qed.

Lemma suf_tail c s rest : suf line s -> skip_ws s = c ++ rest -> suf line (skip_ws rest).
Proof. intros Hs E. apply suf_skip. apply suf_skip in Hs. rewrite E in Hs. by apply suf_app in Hs. Qed.

Lemma sym_run c s rest : suf line s -> skip_ws s = c :: rest -> inside [BAR; LPAR; RPAR; SEMI; AMP; LT] c = true ->
  exists t, gettoken line s = Done (c, t) (skip_ws rest).
Proof. intros Hs E Hc. unfold gettoken. rewrite E, Hc. by eexists. Qed.

Lemma gt_run s b rest : suf line s -> skip_ws s = GT :: b :: rest -> b <> GT ->
  exists t, gettoken line s = Done (GT, t) (skip_ws (b :: rest)).
Proof.
  intros Hs E Hb. unfold gettoken. rewrite E. change (inside _ GT) with false. change (GT =? GT) with true. cbv iota.
  rewrite (proj2 (Z.eqb_neq b GT)) by done. by eexists.
Qed.

Lemma word_not b l : is_word b = true -> (forall c, c ∈ l -> c ∈ symbols) -> inside l b = false.
Proof.
  intros Hb Hl. unfold is_word in Hb. apply andb_true_iff in Hb as [_ Hb]. apply negb_true_iff in Hb.
  unfold inside in *. apply not_true_iff_false. intros Ht. apply not_true_iff_false in Hb. apply Hb.
  apply existsb_exists in Ht as (c & Hc & E). apply existsb_exists. exists c. split; [|done].
  apply list_elem_of_In, Hl. by apply list_elem_of_In.
Qed.

Lemma word_head w l : good_word w -> exists b w', w = b :: w' /\ is_word b = true /\ is_ws b = false /\ skip_ws (w ++ l) = w ++ l.
Proof.
  intros [Hne Hw]. destruct w as [|b w]; [done|]. apply Forall_cons in Hw as [[Hb _] _]. exists b, w.
  assert (is_ws b = false) as Hws.
  { unfold is_word in Hb. apply andb_true_iff in Hb as [Hb _]. by apply negb_true_iff in Hb. }
  split; [done|]. split; [done|]. split; [done|]. simpl. by rewrite Hws.
Qed.

Lemma skip_word_app w l : Forall (fun b => is_word b = true /\ b <> 0) w -> skip_word (w ++ SP :: l) = SP :: l.
Proof. induction 1 as [|b w [Hb _] Hw IH]; [done|]. simpl. by rewrite Hb. Qed.

Lemma word_run w s rest : suf line s -> good_word w -> skip_ws s = w ++ SP :: rest ->
  exists t, gettoken line s = Done (LETTER_a, t) (skip_ws rest) /\ word_at line t = w.
Proof.
  intros Hs Hw E. destruct (word_head w [] Hw) as (b & w' & Ew & Hb & _ & _). pose proof (suf_skip s Hs) as [pre Epre].
  unfold gettoken. rewrite E. exists (pos line (w ++ SP :: rest), pos line (SP :: rest)). split.
  - rewrite Ew at 1 2. cbn [app]. rewrite word_not by (done || (intros c Hc; unfold symbols, BAR, LPAR, RPAR, SEMI, AMP, LT in *; set_solver)).
    assert (b =? GT = false) as ->.
    { apply Z.eqb_neq. intros ->. discriminate. }
    change (b :: w' ++ SP :: rest) with ((b :: w') ++ SP :: rest). rewrite <- Ew, skip_word_app by apply Hw. done.
  - rewrite E in Epre. unfold word_at. cbn [fst snd].
    rewrite (pos_suf line pre (w ++ SP :: rest) Epre), (pos_suf line (pre ++ w) (SP :: rest)) by (by rewrite <- app_assoc).
    rewrite length_app, Epre, drop_app_length. replace (length pre + length w - length pre)%nat with (length w) by lia.
    apply take_app_length.
Qed.

(** *** Redirections *)

Definition print_redirs (rs : list (list Z * bool)) : list Z := concat (map (fun r => print_redir r.1 r.2) rs).

Definition redir_means (r : redir) (x : list Z * bool) : Prop :=
  word_at line r.1.1 = x.1 /\ (r.1.2, r.2) = if x.2 then (Z.lor O_WRONLY O_CREATE, 1) else (O_RDONLY, 0).

Definition not_redir (rest : list Z) : Prop :=
  match skip_ws rest with [] => True | c :: _ => inside [LT; GT] c = false end.

Lemma skip_sp l : skip_ws (SP :: l) = skip_ws l.
Proof. done. Qed.

Lemma redir_token (out : bool) f s rest : suf line s -> good_word f -> skip_ws s = (if out then GT else LT) :: f ++ SP :: rest ->
  exists t, gettoken line s = Done (if out then GT else LT, t) (f ++ SP :: rest).
Proof.
  intros Hs Hf E. destruct (word_head f (SP :: rest) Hf) as (b & f' & -> & Hb & _ & Esk). destruct out.
  - destruct (gt_run s b (f' ++ SP :: rest) Hs E) as [t Et]; [intros ->; discriminate|]. exists t. rewrite Et. by f_equal.
  - destruct (sym_run LT s ((b :: f') ++ SP :: rest) Hs E) as [t Et]; [done|]. exists t. rewrite Et. by f_equal.
Qed.

Lemma parseredirs_run n : forall rs s rest, suf line s -> Forall (fun r : list Z * bool => good_word r.1) rs -> not_redir rest ->
  skip_ws s = skip_ws (print_redirs rs ++ rest) -> (length (skip_ws s) < n)%nat ->
  exists l, parseredirs line n s = Done l (skip_ws rest) /\ Forall2 redir_means l rs.
Proof.
  induction n as [|n IH]; intros rs s rest Hs Hg Hnr E Hn; [lia|]. cbn [parseredirs].
  rewrite (bind_run _ _ _ _ _ (peek_run _ s)). destruct rs as [|[f out] rs]; cbn [print_redirs map concat] in *.
  - exists []. split; [|constructor]. rewrite E. unfold not_redir in Hnr. cbn [app].
    destruct (skip_ws rest) as [|c l]; [done|]. by rewrite Hnr.
  - apply Forall_cons in Hg as [Hf Hg]. cbn [fst snd] in *.
    set (tl := concat (map (fun r => print_redir r.1 r.2) rs)) in *.
    assert (skip_ws ((print_redir f out ++ tl) ++ rest) = (if out then GT else LT) :: f ++ SP :: (tl ++ rest)) as E1.
    { unfold print_redir. destruct out; cbn [app]; rewrite <- !app_assoc; reflexivity. }
    rewrite E1 in *. destruct (redir_token out f (skip_ws s) (tl ++ rest)) as [t Et];
      [by apply suf_skip|done|by rewrite skip_ws_idem|].
    assert ((match skip_ws s with [] => false | c :: _ => inside [LT; GT] c end) = true) as -> by (rewrite E; by destruct out).
    rewrite (bind_run _ _ _ _ _ Et).
    assert (suf line (f ++ SP :: tl ++ rest)) as Hs2.
    { apply suf_skip in Hs. rewrite E in Hs. by apply (suf_app line [if out then GT else LT]) in Hs. }
    destruct (word_head f (SP :: tl ++ rest) Hf) as (_ & _ & _ & _ & _ & Esk).
    destruct (word_run f (f ++ SP :: tl ++ rest) (tl ++ rest) Hs2 Hf Esk) as (t2 & Et2 & Hw).
    rewrite (bind_run _ _ _ _ _ Et2). cbn [fst snd]. change (LETTER_a =? LETTER_a) with true. cbn [negb].
    destruct (IH rs (skip_ws (tl ++ rest)) rest) as (l & El & Hl); [|done|done|by rewrite skip_ws_idem| |].
    + apply suf_skip. by apply (suf_app line (f ++ [SP])); rewrite <- app_assoc.
    + rewrite skip_ws_idem. pose proof (skip_ws_length (tl ++ rest)).
      rewrite E in Hn. cbn [length] in Hn. rewrite length_app in Hn. cbn [length] in Hn. lia.
    + rewrite (bind_run _ _ _ _ _ El). eexists. split; [reflexivity|]. constructor; [|done].
      split; [|by destruct out]. by destruct out.
Qed.

(** *** Arguments *)

Definition print_words (ws : list (list Z)) : list Z := concat (map (fun w => w ++ [SP]) ws).
Definition enders : list Z := [BAR; RPAR; AMP; SEMI].

Lemma follow_not_redir rest : follow enders rest -> not_redir rest.
Proof.
  unfold follow, not_redir. destruct (skip_ws rest) as [|c l]; [done|]. unfold inside, enders. cbn [existsb].
  rewrite !orb_true_iff, !Z.eqb_eq. intros [->|[->|[->|[->|H0]]]]; done.
Qed.

Lemma words_head w ws l : good_word w -> exists b l', print_words (w :: ws) ++ l = b :: l' /\ is_word b = true /\
  skip_ws (print_words (w :: ws) ++ l) = w ++ SP :: (print_words ws ++ l).
Proof.
  intros Hw. unfold print_words. cbn [map concat]. rewrite <- !app_assoc. cbn [app].
  destruct (word_head w (SP :: (concat (map (fun w => w ++ [SP]) ws) ++ l)) Hw) as (b & w' & -> & Hb & _ & Esk).
  exists b, (w' ++ SP :: (concat (map (fun w => w ++ [SP]) ws) ++ l)). done.
Qed.

Lemma word_peek w s rest toks : good_word w -> skip_ws s = w ++ rest -> (forall c, c ∈ toks -> c ∈ symbols) ->
  peek toks s = Done false (w ++ rest).
Proof.
  intros Hw E Ht. destruct (word_head w rest Hw) as (b & w' & -> & Hb & _). rewrite peek_run, E. cbn [app].
  by rewrite word_not.
Qed.

Lemma sym_elem c : c ∈ enders -> c ∈ symbols.
Proof. unfold enders, symbols, BAR, RPAR, AMP, SEMI. set_solver. Qed.

Lemma args_end n argc s rest : follow enders rest -> skip_ws s = skip_ws rest ->
  parseargs line (S n) argc s = Done ([], []) (skip_ws rest).
Proof.
  intros Hf E. cbn [parseargs]. rewrite (bind_run _ _ _ _ _ (peek_run _ s)), E. unfold follow in Hf.
  destruct (skip_ws rest) as [|c l]; [done|]. unfold enders in Hf. by rewrite Hf.
Qed.

Lemma parseargs_run n : forall ws argc s rest rs, suf line s -> Forall good_word ws ->
  Forall (fun r : list Z * bool => good_word r.1) rs -> follow enders rest -> (ws = [] -> rs = []) ->
  skip_ws s = skip_ws (print_words ws ++ print_redirs rs ++ rest) -> (argc + length ws < MAXARGS)%nat ->
  (length (skip_ws s) < n)%nat ->
  exists l1 l2, parseargs line n argc s = Done (l1, l2) (skip_ws rest) /\ map (word_at line) l1 = ws /\ Forall2 redir_means l2 rs.
Proof.
  induction n as [|n IH]; intros ws argc s rest rs Hs Hg Hr Hf Hnil E Hargc Hn; [lia|].
  destruct ws as [|w ws].
  { specialize (Hnil eq_refl) as ->. exists [], []. split; [by apply args_end|]. by split. }
  apply Forall_cons in Hg as [Hw Hg]. destruct (words_head w ws (print_redirs rs ++ rest) Hw) as (_ & _ & _ & _ & Esk).
  rewrite Esk in E. cbn [parseargs]. rewrite (bind_run _ _ _ _ _ (word_peek w s _ _ Hw E sym_elem)).
  set (tl := print_words ws ++ print_redirs rs ++ rest) in *.
  assert (suf line (w ++ SP :: tl)) as Hs2 by (apply suf_skip in Hs; by rewrite E in Hs).
  destruct (word_head w (SP :: tl) Hw) as (_ & _ & _ & _ & _ & Esk2).
  destruct (word_run w (w ++ SP :: tl) tl Hs2 Hw Esk2) as (t & Et & Ht).
  rewrite (bind_run _ _ _ _ _ Et). cbn [fst snd]. change (LETTER_a =? 0) with false. change (LETTER_a =? LETTER_a) with true.
  cbn [negb length] in *. rewrite (proj2 (Nat.leb_gt _ _)) by lia. rewrite (bind_run (gets _) _ _ _ _ eq_refl). cbv beta.
  assert (suf line (skip_ws tl)) as Hs3 by (apply suf_skip; by apply (suf_app line (w ++ [SP])); rewrite <- app_assoc).
  assert (length (skip_ws tl) < n)%nat as Hn2.
  { pose proof (skip_ws_length tl). rewrite E, length_app in Hn. cbn [length] in Hn. lia. }
  destruct ws as [|w2 ws].
  - destruct (parseredirs_run (S (length (skip_ws tl))) rs (skip_ws tl) rest) as (l & El & Hl);
      [done|done|by apply follow_not_redir|by rewrite skip_ws_idem|rewrite skip_ws_idem; lia|].
    rewrite (bind_run _ _ _ _ _ El). destruct n as [|n]; [lia|].
    rewrite (bind_run _ _ _ _ _ (args_end n (argc + 1) (skip_ws rest) rest Hf (skip_ws_idem rest))).
    exists [t], l. cbn [fst snd map]. rewrite app_nil_r, Ht. done.
  - pose proof (Forall_inv Hg) as Hw2. destruct (words_head w2 ws (print_redirs rs ++ rest) Hw2) as (b & l' & Ehd & Hb & Esk3).
    fold tl in Esk3. destruct (parseredirs_run (S (length (skip_ws tl))) [] (skip_ws tl) tl) as (l & El & Hl);
      [done|done| |by rewrite skip_ws_idem|rewrite skip_ws_idem; lia|].
    { unfold not_redir. rewrite Esk3. destruct (word_head w2 [] Hw2) as (b2 & w2' & -> & Hb2 & _). cbn [app].
      apply word_not; [done|]. intros c Hc. unfold symbols, LT, GT in *. set_solver. }
    apply Forall2_nil_inv_r in Hl as ->. rewrite (bind_run _ _ _ _ _ El).
    destruct (IH (w2 :: ws) (argc + 1)%nat (skip_ws tl) rest rs) as (l1 & l2 & E12 & H1 & H2);
      [done|done|done|done|done|by rewrite skip_ws_idem|cbn [length] in *; lia|by rewrite skip_ws_idem|].
    rewrite (bind_run _ _ _ _ _ E12). exists (t :: l1), l2. cbn [fst snd map app]. by rewrite Ht, H1.
Qed.

(** *** Commands *)

(** A command without its outer redirections. *)
Fixpoint chain (x : scmd) : scmd * list (list Z * bool) :=
  match x with
  | SRedir c f out => let r := chain c in (r.1, r.2 ++ [(f, out)])
  | _ => (x, [])
  end.

Lemma print_redirs_app l1 l2 : print_redirs (l1 ++ l2) = print_redirs l1 ++ print_redirs l2.
Proof. unfold print_redirs. by rewrite map_app, concat_app. Qed.

Lemma chain_print x : print x 0 = print (chain x).1 0 ++ print_redirs (chain x).2.
Proof.
  induction x as [argv|c IH f out|l IHl r IHr|l IHl r IHr|c IH]; cbn [chain fst snd]; try by rewrite app_nil_r.
  cbn [print level]. change (0 <=? 0)%nat with true. cbv iota. rewrite IH, print_redirs_app, <- app_assoc.
  unfold print_redirs at 3. cbn [map concat fst snd]. by rewrite app_nil_r.
Qed.

Lemma chain_good x : good x -> good (chain x).1 /\ Forall (fun r : list Z * bool => good_word r.1) (chain x).2.
Proof.
  induction x as [argv|c IH f out|l IHl r IHr|l IHl r IHr|c IH]; intros Hg; try by split; [|constructor].
  destruct Hg as [Hc Hf]. destruct (IH Hc) as [H1 H2]. cbn [chain fst snd]. split; [done|].
  apply Forall_app. split; [done|]. by constructor.
Qed.

Lemma redirs_app c l1 l2 : redirs c (l1 ++ l2) = redirs (redirs c l1) l2.
Proof. apply fold_left_app. Qed.

Lemma chain_means x c l : means (word_at line) c (chain x).1 -> Forall2 redir_means l (chain x).2 ->
  means (word_at line) (redirs c l) x.
Proof.
  revert l. induction x as [argv|x IH f out|xl IHl xr IHr|xl IHl xr IHr|x IH]; intros l Hm Hl; cbn [chain fst snd] in *;
    try by apply Forall2_nil_inv_r in Hl as ->.
  apply Forall2_app_inv_r in Hl as (l1 & l2 & Hl1 & Hl2 & ->).
  apply Forall2_cons_inv_r in Hl2 as ([[file mode] fd] & l3 & [Hw Hmode] & Hl3 & ->).
  apply Forall2_nil_inv_r in Hl3 as ->. rewrite redirs_app. split; [by apply IH|]. by split.
Qed.

Fixpoint size (x : scmd) : nat :=
  match x with
  | SExec _ => 1
  | SRedir c _ _ | SBack c => S (size c)
  | SPipe l r | SList l r => S (size l + size r)
  end.

Lemma chain_size x : (size (chain x).1 <= size x)%nat /\ (chain x = (x, []) \/ (size (chain x).1 < size x)%nat).
Proof. induction x as [argv|c [IH _] f out|l _ r _|l _ r _|c _]; cbn [chain fst snd size]; auto. split; [lia|right; lia]. Qed.

Definition reads (p : nat -> M (list Z) cmd) (k lvl : nat) (fol : list Z) (x : scmd) : Prop :=
  forall n s rest, suf line s -> skip_ws s = skip_ws (print x lvl ++ rest) -> follow fol rest ->
    (4 * length (skip_ws s) + k <= n)%nat ->
    exists c, p n s = Done c (skip_ws rest) /\ means (word_at line) c x.

Definition reads_exec : scmd -> Prop := reads (parseexec line) 2 0 enders.
Definition reads_pipe : scmd -> Prop := reads (parsepipe line) 3 1 [RPAR; AMP; SEMI].
Definition reads_line : scmd -> Prop := reads (parseline line) 4 3 [RPAR].

(** Not a parenthesis. *)
Definition no_paren (s : list Z) : Prop := match s with [] => True | c :: _ => c <> LPAR end.

Lemma words_no_paren ws rs rest : Forall good_word ws -> follow enders rest ->
  no_paren (skip_ws (print_words ws ++ print_redirs rs ++ rest)).
Proof.
  intros Hg Hf. destruct ws as [|w ws].
  - destruct rs as [|[f out] rs]; [|by destruct out]. unfold follow, no_paren in *. cbn [app print_words map concat print_redirs].
    destruct (skip_ws rest) as [|c l]; [done|]. intros ->. discriminate.
  - apply Forall_inv in Hg. destruct (words_head w ws (print_redirs rs ++ rest) Hg) as (_ & _ & _ & _ & ->).
    destruct (word_head w [] Hg) as (b & w' & -> & Hb & _). simpl. intros ->. discriminate.
Qed.

Lemma peek_no_paren s : no_paren (skip_ws s) -> peek [LPAR] s = Done false (skip_ws s).
Proof.
  intros Hn. rewrite peek_run. destruct (skip_ws s) as [|c l]; [done|]. f_equal. unfold inside. cbn [existsb].
  rewrite (proj2 (Z.eqb_neq c LPAR)) by done. done.
Qed.

Lemma exec_words x ws : good x -> (chain x).1 = SExec ws -> reads_exec x.
Proof.
  intros Hg Ex n s rest Hs E Hf Hn. destruct (chain_good x Hg) as [Hgb Hgr]. rewrite Ex in Hgb. destruct Hgb as [Hlen Hgw].
  rewrite chain_print, Ex, <- app_assoc in E. change (print (SExec ws) 0) with (print_words ws) in E. set (rs := (chain x).2) in *.
  destruct n as [|n]; [lia|]. cbn [parseexec].
  assert (no_paren (skip_ws s)) as Hnp by (rewrite E; by apply words_no_paren).
  rewrite (bind_run _ _ _ _ _ (peek_no_paren s Hnp)). rewrite (bind_run (gets _) _ _ _ _ eq_refl).
  assert (suf line (skip_ws s)) as Hs1 by (by apply suf_skip).
  destruct ws as [|w ws].
  - destruct (parseredirs_run (S (length (skip_ws s))) rs (skip_ws s) rest) as (l & El & Hl);
      [done|done|by apply follow_not_redir|by rewrite skip_ws_idem|rewrite skip_ws_idem; lia|].
    rewrite (bind_run _ _ _ _ _ El), (bind_run (gets _) _ _ _ _ eq_refl).
    rewrite (bind_run _ _ _ _ _ (args_end _ 0 (skip_ws rest) rest Hf (skip_ws_idem rest))). cbn [fst snd]. rewrite app_nil_r.
    eexists. split; [reflexivity|]. apply chain_means; [by rewrite Ex|done].
  - pose proof (Forall_inv Hgw) as Hw. destruct (words_head w ws (print_redirs rs ++ rest) Hw) as (b & l' & Ehd & Hb & Esk).
    destruct (parseredirs_run (S (length (skip_ws s))) [] (skip_ws s) (skip_ws s)) as (l & El & Hl);
      [done|done| |done|rewrite skip_ws_idem; lia|].
    { unfold not_redir. rewrite skip_ws_idem, E, Esk. destruct (word_head w [] Hw) as (b2 & w2' & -> & Hb2 & _). cbn [app].
      apply word_not; [done|]. intros c Hc. unfold symbols, LT, GT in *. set_solver. }
    apply Forall2_nil_inv_r in Hl as ->. rewrite (bind_run _ _ _ _ _ El), (bind_run (gets _) _ _ _ _ eq_refl).
    rewrite skip_ws_idem.
    destruct (parseargs_run (S (length (skip_ws s))) (w :: ws) 0 (skip_ws s) rest rs) as (l1 & l2 & E12 & H1 & H2);
      [done|done|done|done|done|by rewrite skip_ws_idem|cbn [length] in *; lia|rewrite skip_ws_idem; lia|].
    rewrite (bind_run _ _ _ _ _ E12). cbn [fst snd app]. eexists. split; [reflexivity|].
    apply chain_means; [by rewrite Ex|done].
Qed.

Lemma print_paren b : (1 <= level b)%nat -> print b 0 = LPAR :: print b 3 ++ [RPAR].
Proof. destruct b; simpl; [lia|lia|done..]. Qed.

(** A symbol is where the parser looks for it. *)
Lemma sym_peek c s rest toks : skip_ws s = c :: rest -> inside toks c = true -> peek toks s = Done true (c :: rest).
Proof. intros E Hc. rewrite peek_run, E. by rewrite Hc. Qed.

Lemma skip_sym c rest : is_ws c = false -> skip_ws (c :: rest) = c :: rest.
Proof. intros Hc. simpl. by rewrite Hc. Qed.

Lemma skip_ws_sym c X l : is_ws c = false -> exists X', skip_ws (X ++ c :: l) = X' ++ c :: l.
Proof.
  intros Hc. induction X as [|b X [X' IH]]; simpl; [exists []; by rewrite Hc|].
  destruct (is_ws b); [by exists X'|]. by exists (b :: X).
Qed.

Lemma suf_sym c X l s : suf line s -> skip_ws s = skip_ws (X ++ c :: l) -> is_ws c = false -> suf line (c :: l).
Proof.
  intros Hs E Hc. destruct (skip_ws_sym c X l Hc) as [X' EX]. apply suf_skip in Hs. rewrite E, EX in Hs. by apply suf_app in Hs.
Qed.

Lemma suf_rest X rest s : suf line s -> skip_ws s = skip_ws (X ++ rest) -> suf line (skip_ws rest).
Proof.
  intros Hs E. apply suf_skip in Hs. rewrite E in Hs. clear E. induction X as [|b X IH]; [done|].
  simpl in Hs. destruct (is_ws b); [by apply IH|]. apply suf_skip. by apply (suf_app line (b :: X)).
Qed.

Lemma skip_ws_sym_length c X l : is_ws c = false -> (length (skip_ws l) < length (skip_ws (X ++ c :: l)))%nat.
Proof.
  intros Hc. destruct (skip_ws_sym c X l Hc) as [X' ->]. pose proof (skip_ws_length l). rewrite length_app. simpl. lia.
Qed.

Lemma follow_peek fol toks s rest : follow fol rest -> skip_ws s = skip_ws rest ->
  (forall c, inside fol c = true -> inside toks c = false) -> peek toks s = Done false (skip_ws rest).
Proof.
  intros Hf E Hd. rewrite peek_run, E. unfold follow in Hf. destruct (skip_ws rest) as [|c l]; [done|]. by rewrite Hd.
Qed.

Lemma exec_block x : good x -> (1 <= level (chain x).1)%nat -> reads_line (chain x).1 -> reads_exec x.
Proof.
  intros Hg Hlev Hline n s rest Hs E Hf Hn. destruct (chain_good x Hg) as [Hgb Hgr]. set (b := (chain x).1) in *.
  set (rs := (chain x).2) in *. rewrite chain_print in E. fold b rs in E. rewrite print_paren in E by done.
  cbn [app] in E. rewrite <- !app_assoc in E. cbn [app] in E. rewrite skip_sym in E by done.
  set (inner := print b 3 ++ RPAR :: print_redirs rs ++ rest) in *.
  destruct n as [|[|n]]; [lia..|]. cbn [parseexec parseblock].
  rewrite (bind_run _ _ _ _ _ (sym_peek LPAR s inner [LPAR] E eq_refl)).
  rewrite (bind_run _ _ _ _ _ (sym_peek LPAR (LPAR :: inner) inner [LPAR] eq_refl eq_refl)). cbn [negb].
  assert (suf line (LPAR :: inner)) as Hs1 by (apply suf_skip in Hs; by rewrite E in Hs).
  destruct (sym_run LPAR (LPAR :: inner) inner Hs1 eq_refl eq_refl) as [t Et]. rewrite (bind_run _ _ _ _ _ Et).
  assert (suf line (skip_ws inner)) as Hs2 by (apply suf_skip; by apply (suf_app line [LPAR])).
  pose proof (skip_ws_length inner) as Hli. rewrite E in Hn. cbn [length] in Hn.
  destruct (Hline n (skip_ws inner) (RPAR :: print_redirs rs ++ rest)) as (c & Ec & Hc);
    [done|by rewrite skip_ws_idem|done|rewrite skip_ws_idem; lia|].
  rewrite (bind_run _ _ _ _ _ Ec). rewrite skip_sym by done. set (tail := print_redirs rs ++ rest).
  rewrite (bind_run _ _ _ _ _ (sym_peek RPAR (RPAR :: tail) tail [RPAR] eq_refl eq_refl)). cbn [negb].
  assert (suf line (RPAR :: tail)) as Hs3.
  { apply (suf_app line (LPAR :: print b 3)). exact Hs1. }
  destruct (sym_run RPAR (RPAR :: tail) tail Hs3 eq_refl eq_refl) as [t2 Et2]. rewrite (bind_run _ _ _ _ _ Et2).
  rewrite (bind_run (gets _) _ _ _ _ eq_refl).
  destruct (parseredirs_run (S (length (skip_ws tail))) rs (skip_ws tail) rest) as (l & El & Hl);
    [apply suf_skip; by apply (suf_app line [RPAR])|done|by apply follow_not_redir|by rewrite skip_ws_idem|rewrite skip_ws_idem; lia|].
  rewrite (bind_run _ _ _ _ _ El). eexists. split; [reflexivity|]. by apply chain_means.
Qed.

(** *** Pipes *)

Lemma pipe_one x : reads_exec x -> print x 1 = print x 0 -> reads_pipe x.
Proof.
  intros He Ep n s rest Hs E Hf Hn. destruct n as [|n]; [lia|]. cbn [parsepipe]. rewrite Ep in E.
  destruct (He n s rest) as (c & Ec & Hc); [done|done| |lia|].
  { unfold follow in *. destruct (skip_ws rest) as [|b l]; [done|]. unfold inside, enders in *. cbn [existsb] in *.
    apply orb_true_iff. by right. }
  rewrite (bind_run _ _ _ _ _ Ec).
  rewrite (bind_run _ _ _ _ _ (follow_peek _ [BAR] (skip_ws rest) rest Hf (skip_ws_idem rest) ltac:(
    intros b; unfold inside; cbn [existsb]; rewrite !orb_true_iff, !Z.eqb_eq; intros [->|[->|[->|?]]]; done))).
  by exists c.
Qed.

Lemma pipe_two l r : reads_exec l -> reads_pipe r -> reads_pipe (SPipe l r).
Proof.
  intros Hl Hr n s rest Hs E Hf Hn. destruct n as [|n]; [lia|]. cbn [parsepipe].
  change (print (SPipe l r) 1) with (print l 0 ++ BAR :: print r 1) in E. rewrite <- app_assoc in E. cbn [app] in E.
  set (tail := print r 1 ++ rest) in *.
  destruct (Hl n s (BAR :: tail)) as (c & Ec & Hc); [done|done|done|lia|]. rewrite (bind_run _ _ _ _ _ Ec).
  rewrite skip_sym by done. rewrite (bind_run _ _ _ _ _ (sym_peek BAR (BAR :: tail) tail [BAR] eq_refl eq_refl)).
  assert (suf line (BAR :: tail)) as Hs1.
  { by apply (suf_sym BAR (print l 0) tail s). }
  destruct (sym_run BAR (BAR :: tail) tail Hs1 eq_refl eq_refl) as [t Et]. rewrite (bind_run _ _ _ _ _ Et).
  assert (length (skip_ws tail) < length (skip_ws s))%nat as Hlt by (rewrite E; by apply skip_ws_sym_length).
  destruct (Hr n (skip_ws tail) rest) as (c2 & Ec2 & Hc2);
    [apply suf_skip; by apply (suf_app line [BAR])|by rewrite skip_ws_idem|done|rewrite skip_ws_idem; lia|].
  rewrite (bind_run _ _ _ _ _ Ec2). eexists. split; [reflexivity|]. by split.
Qed.

(** *** Lines *)

(** A command without its final ampersands. *)
Fixpoint unback (x : scmd) : scmd * nat :=
  match x with SBack c => let r := unback c in (r.1, S r.2) | _ => (x, 0%nat) end.

Lemma replicate_snoc {A} n (a : A) : replicate n a ++ [a] = replicate (S n) a.
Proof. by rewrite replicate_S_end. Qed.

Lemma unback_print x : print x 2 = print (unback x).1 1 ++ replicate (unback x).2 AMP.
Proof.
  induction x as [argv|c IH f out|l IHl r IHr|l IHl r IHr|c IH]; cbn [unback fst snd]; try by rewrite app_nil_r.
  change (print (SBack c) 2) with (print c 2 ++ [AMP]). rewrite IH, <- app_assoc. by rewrite replicate_snoc.
Qed.

Lemma unback_means c x : means (word_at line) c (unback x).1 -> means (word_at line) (Nat.iter (unback x).2 Back c) x.
Proof. induction x as [argv|y IH f out|l IHl r IHr|l IHl r IHr|y IH]; cbn [unback fst snd]; auto. Qed.

Lemma unback_size x : (size (unback x).1 <= size x)%nat /\ (unback x = (x, 0%nat) \/ (size (unback x).1 < size x)%nat).
Proof. induction x as [argv|c _ f out|l _ r _|l _ r _|c [IH _]]; cbn [unback fst snd size]; auto. split; [lia|right; lia]. Qed.

Lemma unback_good x : good x -> good (unback x).1.
Proof. induction x as [argv|y IH f out|l IHl r IHr|l IHl r IHr|y IH]; cbn [unback fst snd]; auto. Qed.

Lemma iter_back k c : Nat.iter k Back (Back c) = Back (Nat.iter k Back c).
Proof. induction k as [|k IH]; [done|]. simpl. by rewrite IH. Qed.

Lemma backs_run k : forall n c s rest, suf line s -> skip_ws s = skip_ws (replicate k AMP ++ rest) -> follow [RPAR; SEMI] rest ->
  (length (skip_ws s) < n)%nat -> backs line n c s = Done (Nat.iter k Back c) (skip_ws rest).
Proof.
  induction k as [|k IH]; intros n c s rest Hs E Hf Hn; (destruct n as [|n]; [lia|]); cbn [backs].
  - rewrite (bind_run _ _ _ _ _ (follow_peek _ [AMP] s rest Hf E ltac:(
      intros b; unfold inside; cbn [existsb]; rewrite !orb_true_iff, !Z.eqb_eq; intros [->|[->|?]]; done))). done.
  - cbn [replicate app] in E. set (tail := replicate k AMP ++ rest) in *. rewrite skip_sym in E by done.
    rewrite (bind_run _ _ _ _ _ (sym_peek AMP s tail [AMP] E eq_refl)).
    assert (suf line (AMP :: tail)) as Hs1 by (apply suf_skip in Hs; by rewrite E in Hs).
    destruct (sym_run AMP (AMP :: tail) tail Hs1 eq_refl eq_refl) as [t Et]. rewrite (bind_run _ _ _ _ _ Et).
    pose proof (skip_ws_length tail). rewrite E in Hn. cbn [length] in Hn.
    rewrite (IH n (Back c) (skip_ws tail) rest);
      [|apply suf_skip; by apply (suf_app line [AMP])|by rewrite skip_ws_idem|done|rewrite skip_ws_idem; lia].
    rewrite iter_back. done.
Qed.

Lemma iter_follow k rest : follow [RPAR; SEMI] rest -> follow [RPAR; AMP; SEMI] (replicate k AMP ++ rest).
Proof.
  intros Hf. destruct k as [|k]; [|done]. cbn [replicate app]. unfold follow in *. destruct (skip_ws rest) as [|c l]; [done|].
  unfold inside in *. cbn [existsb] in *. rewrite !orb_true_iff in *. naive_solver.
Qed.

(** The command of a line before a semicolon or the end. *)
Lemma front_run x n s rest : reads_pipe (unback x).1 -> suf line s -> skip_ws s = skip_ws (print x 2 ++ rest) ->
  follow [RPAR; SEMI] rest -> (4 * length (skip_ws s) + 3 <= n)%nat ->
  exists c, means (word_at line) c x /\
    forall (f : cmd -> M (list Z) cmd), (let! c := parsepipe line n in
      let! fuel := gets (fun s => S (length s)) in let! c := backs line fuel c in f c) s = f c (skip_ws rest).
Proof.
  intros Hp Hs E Hf Hn. rewrite unback_print, <- app_assoc in E. set (k := (unback x).2) in *.
  destruct (Hp n s (replicate k AMP ++ rest)) as (c & Ec & Hc); [done|done|by apply iter_follow|done|].
  exists (Nat.iter k Back c). split; [by apply unback_means|]. intros f. rewrite (bind_run _ _ _ _ _ Ec).
  rewrite (bind_run (gets _) _ _ _ _ eq_refl).
  assert (suf line (skip_ws (replicate k AMP ++ rest))) as Hs1.
  { by apply (suf_rest (print (unback x).1 1) _ s). }
  rewrite (bind_run _ _ _ _ _ (backs_run k (S (length (skip_ws (replicate k AMP ++ rest)))) c _ rest Hs1 ltac:(by rewrite skip_ws_idem) Hf ltac:(rewrite skip_ws_idem; lia))). done.
Qed.

Lemma line_one x : (level x <= 2)%nat -> reads_pipe (unback x).1 -> reads_line x.
Proof.
  intros Hlev Hp n s rest Hs E Hf Hn. destruct n as [|n]; [lia|].
  assert (print x 3 = print x 2) as Ep by (destruct x; simpl in *; try done; lia). rewrite Ep in E.
  assert (follow [RPAR; SEMI] rest) as Hf2.
  { unfold follow in *. destruct (skip_ws rest) as [|c l]; [done|]. unfold inside in *. cbn [existsb] in *.
    rewrite !orb_true_iff in *. naive_solver. }
  destruct (front_run x n s rest Hp Hs E Hf2 ltac:(lia)) as (c & Hc & Hrun). cbn [parseline]. rewrite Hrun.
  rewrite (bind_run _ _ _ _ _ (follow_peek _ [SEMI] (skip_ws rest) rest Hf (skip_ws_idem rest) ltac:(
    intros b; unfold inside; cbn [existsb]; rewrite !orb_true_iff, !Z.eqb_eq; intros [->|?]; done))).
  by exists c.
Qed.

Lemma line_two l r : reads_pipe (unback l).1 -> reads_line r -> reads_line (SList l r).
Proof.
  intros Hl Hr n s rest Hs E Hf Hn. destruct n as [|n]; [lia|].
  change (print (SList l r) 3) with (print l 2 ++ SEMI :: print r 3) in E. rewrite <- app_assoc in E. cbn [app] in E.
  set (tail := print r 3 ++ rest) in *.
  destruct (front_run l n s (SEMI :: tail) Hl Hs E eq_refl ltac:(lia)) as (c & Hc & Hrun). cbn [parseline]. rewrite Hrun.
  rewrite skip_sym by done. rewrite (bind_run _ _ _ _ _ (sym_peek SEMI (SEMI :: tail) tail [SEMI] eq_refl eq_refl)).
  assert (suf line (SEMI :: tail)) as Hs1 by (by apply (suf_sym SEMI (print l 2) tail s)).
  destruct (sym_run SEMI (SEMI :: tail) tail Hs1 eq_refl eq_refl) as [t Et]. rewrite (bind_run _ _ _ _ _ Et).
  assert (length (skip_ws tail) < length (skip_ws s))%nat as Hlt by (rewrite E; by apply skip_ws_sym_length).
  destruct (Hr n (skip_ws tail) rest) as (c2 & Ec2 & Hc2);
    [apply suf_skip; by apply (suf_app line [SEMI])|by rewrite skip_ws_idem|done|rewrite skip_ws_idem; lia|].
  rewrite (bind_run _ _ _ _ _ Ec2). eexists. split; [reflexivity|]. by split.
Qed.

(** *** All together *)

Lemma chain_base x : match (chain x).1 with SRedir _ _ _ => False | _ => True end.
Proof. by induction x. Qed.

Lemma unback_base x : match (unback x).1 with SBack _ => False | _ => True end.
Proof. by induction x. Qed.

Lemma print_parse k : forall x, (size x < k)%nat -> good x -> reads_exec x /\ reads_pipe x /\ reads_line x.
Proof.
  induction k as [|k IH]; intros x Hk Hg; [lia|].
  assert ((level x <= 1)%nat -> reads_pipe x) as Hpipe.
  { intros Hlev. destruct x as [argv|c f out|l r|l r|c]; cbn [level] in Hlev; [| | |lia|lia].
    - apply pipe_one; [|done]. by apply (exec_words _ argv).
    - apply pipe_one; [|done]. set (x := SRedir c f out) in *. pose proof (chain_base x) as Hb. destruct (chain x).1 eqn:Eb; [by eapply exec_words|done| | |];
        (apply exec_block; [done|rewrite Eb; simpl; lia|]; apply IH; [|by apply chain_good]);
        destruct (chain_size x) as [_ [Ex|Hs]]; [rewrite Ex in Eb; discriminate|lia|rewrite Ex in Eb; discriminate|lia|rewrite Ex in Eb; discriminate|lia].
    - destruct Hg as [Hgl Hgr]. cbn [size] in Hk. apply pipe_two; apply IH; done || lia. }
  assert (forall y, (size y < k)%nat -> good y -> reads_pipe (unback y).1) as Hback.
  { intros y Hy Hgy. apply IH; [|by apply unback_good]. destruct (unback_size y). lia. }
  assert (reads_line x) as Hline.
  { destruct x as [argv|c f out|l r|l r|c]; try (apply line_one; [simpl; lia|by apply Hpipe; simpl; lia]).
    - destruct Hg as [Hgl Hgr]. cbn [size] in Hk. apply line_two; [apply Hback; [lia|done]|apply IH; [lia|done]].
    - apply line_one; [done|]. cbn [unback fst]. apply Hback; [cbn [size] in Hk; lia|done]. }
  assert (reads_exec x) as Hexec.
  { pose proof (chain_base x) as Hb. destruct (chain x).1 eqn:Eb; [by eapply exec_words|done| | |];
      (apply exec_block; [done|rewrite Eb; simpl; lia|]); (destruct (chain_size x) as [_ [Ex|Hs]];
       [by rewrite Ex|apply IH; [lia|by apply chain_good]]). }
  split; [done|]. split; [|done]. destruct (decide (level x <= 1)%nat) as [Hl|Hl]; [by apply Hpipe|].
  apply pipe_one; [done|]. destruct x; simpl in *; try done; lia.
Qed.
End roundtrip.

Lemma means_ext str str' c x : (forall t, t ∈ toks c -> str t = str' t) -> means str c x -> means str' c x.
Proof.
  revert x. induction c as [argv|c IH file mode fd|l IHl r IHr|l IHl r IHr|c IH]; intros x Ht; destruct x; simpl in *; try done.
  - intros <-. apply map_ext_in. intros t Hin. symmetry. apply Ht. by apply list_elem_of_In.
  - intros (Hm & Hf & Hmode). split; [apply IH; [|done]|].
    + intros t Hin. apply Ht, elem_of_app. by left.
    + split; [|done]. rewrite <- Hf. symmetry. apply Ht, elem_of_app. right. by apply list_elem_of_singleton.
  - intros [Hl Hr]. split; [apply IHl|apply IHr]; try done; intros t Hin; apply Ht, elem_of_app; auto.
  - intros [Hl Hr]. split; [apply IHl|apply IHr]; try done; intros t Hin; apply Ht, elem_of_app; auto.
  - by apply IH.
Qed.

Lemma good_word_nz w : good_word w -> 0 ∉ w.
Proof. intros [_ Hw] Hin. eapply Forall_forall in Hw; [|exact Hin]. by destruct Hw. Qed.

Lemma paren_nz (b : bool) body : 0 ∉ body -> 0 ∉ (if b then body else LPAR :: body ++ [RPAR]).
Proof. intros Hb. destruct b; [done|]. rewrite not_elem_of_cons, not_elem_of_app, list_elem_of_singleton. done. Qed.

Lemma print_nz x : forall lvl, good x -> 0 ∉ print x lvl.
Proof.
  induction x as [argv|c IH f out|l IHl r IHr|l IHl r IHr|c IH]; intros lvl Hg; simpl in Hg; apply paren_nz.
  - destruct Hg as [_ Hg]. induction Hg as [|w ws Hw Hg IH]; cbn [map concat]; [apply not_elem_of_nil|].
    rewrite !not_elem_of_app, list_elem_of_singleton. split; [|done]. split; [by apply good_word_nz|done].
  - destruct Hg as [Hc Hf]. apply not_elem_of_app. split; [by apply IH|].
    unfold print_redir. rewrite not_elem_of_cons, not_elem_of_app, list_elem_of_singleton.
    split; [by destruct out|]. split; [by apply good_word_nz|done].
  - destruct Hg. apply not_elem_of_app. split; [by apply IHl|]. apply not_elem_of_cons. split; [done|by apply IHr].
  - destruct Hg. apply not_elem_of_app. split; [by apply IHl|]. apply not_elem_of_cons. split; [done|by apply IHr].
  - apply not_elem_of_app. split; [by apply IH|]. by rewrite list_elem_of_singleton.
Qed.

Lemma tok_word line t : 0 ∉ line -> tok_ok line t -> good_word (word_at line t).
Proof.
  intros H0 (Hlt & Hin & _). split.
  - intros E. apply (f_equal length) in E. unfold word_at in E. rewrite length_take, length_drop in E.
    destruct (Hin t.1 ltac:(lia)) as (b & Hb & _). apply lookup_lt_Some in Hb. simpl in E. lia.
  - apply Forall_forall. intros b Hb. unfold word_at in Hb. apply elem_of_take in Hb as (i & Hi & Hil). rewrite lookup_drop in Hi.
    destruct (Hin (t.1 + i)%nat ltac:(lia)) as (b' & Hb' & Hw). assert (b = b') as -> by congruence. split; [done|].
    intros ->. apply H0. by apply list_elem_of_lookup_2 in Hb'.
Qed.

(** C18. The shell's parser ends on every line: it returns a command or gives up with a
    message.  In the command every argument and every file name is, once the zeros are
    written into the line, exactly a word that was typed: as long as it can be, not empty,
    without white space or symbols; and no command has more arguments than argv[] holds. *)
Theorem sh_parse_total line : 0 ∉ line -> ends (parsecmd line) line (fun r _ =>
  cmd_ok line r.1 /\ forall t, t ∈ toks r.1 ->
    cstring (drop t.1 r.2) = word_at line t /\ good_word (word_at line t)).
Proof.
  intros H0. unfold parsecmd. apply ends_bind. assert (suf line line) as Hs by (by exists []).
  eapply ends_mono; [apply (parse_ok line _ line Hs); lia|]. intros c s1 [[Hs1 _] Hc].
  apply ends_bind. eapply ends_mono; [by apply peek_ok|]. intros ? s2 _. apply ends_bind, wp_gets.
  destruct (id s2); [|by eexists]. split; [done|]. intros t Ht. split; [by apply string_is_word|].
  apply tok_word; [done|]. by apply (cmd_ok_toks line c).
Qed.

(** What the printer writes, the parser reads, also with white space behind it. *)
Lemma skip_ws_all ws : Forall (fun b => is_ws b = true) ws -> skip_ws ws = [].
Proof. induction 1 as [|b ws Hb _ IH]; [done|]. simpl. by rewrite Hb. Qed.

Lemma ws_nz ws : Forall (fun b => is_ws b = true) ws -> 0 ∉ ws.
Proof. intros Hw Hin. eapply Forall_forall in Hw; [|exact Hin]. done. Qed.

Lemma sh_parse_print x ws : good x -> Forall (fun b => is_ws b = true) ws ->
  exists c buf, sh_parse (print x 3 ++ ws) = Done (c, buf) [] /\ means (fun t => cstring (drop t.1 buf)) c x.
Proof.
  intros Hg Hws. set (line := print x 3 ++ ws).
  assert (0 ∉ line) as H0 by (apply not_elem_of_app; split; [by apply print_nz|by apply ws_nz]).
  assert (suf line line) as Hs by (by exists []).
  destruct (print_parse line (S (size x)) x) as (_ & _ & Hline); [lia|done|].
  destruct (Hline (4 * length line + 4)%nat line ws) as (c & Ec & Hc); [done|done|unfold follow; by rewrite skip_ws_all| |].
  { pose proof (skip_ws_length line). lia. }
  rewrite skip_ws_all in Ec by done. exists c, (nulterminate c (line ++ [0])). split.
  - unfold sh_parse, parsecmd. rewrite (bind_run _ _ _ _ _ Ec). done.
  - eapply means_ext; [|exact Hc]. intros t Ht. symmetry. apply string_is_word; [done| |done].
    destruct (parse_ok line (4 * length line + 4) line Hs) as (Hp & _). specialize (Hp ltac:(lia)).
    unfold parses, ends, wp in Hp. rewrite Ec in Hp. apply Hp.
Qed.

(** "echo a | (cat > b ; ls) &". *)
Definition sample_cmd : scmd :=
  SBack (SPipe (SExec [[101; 99; 104; 111]; [97]])
               (SList (SRedir (SExec [[99; 97; 116]]) [98] true) (SExec [[108; 115]]))).

Lemma sample_good : good sample_cmd.
Proof. repeat (split || constructor); vm_compute; congruence || lia. Qed.

Lemma sh_parse_total_witness : ends (parsecmd (print sample_cmd 3)) (print sample_cmd 3) (fun r _ =>
  forall t, t ∈ toks r.1 -> good_word (word_at (print sample_cmd 3) t)).
Proof.
  eapply ends_mono; [apply (sh_parse_total (print sample_cmd 3)); apply print_nz, sample_good|].
  intros r s [_ Hr] t Ht. by apply Hr.
Defined.
