(* ===== verification/ShRun.v ===== *)
(** * Running commands

    runcmd, getcmd, fork1 and the loop of the shell (sh.c), as the system calls each process makes,
    and what they do to descriptors: the programs a command starts have the files and
    pipes it says on descriptors 0 and 1, and no others. *)

From S2P Require Import Prelude Ulib Sh.

(** ** The calls of a process *)

(** What a process still does; the branches are on the result of the call. *)
Inductive script :=
| Exit
| Exec_ (argv : list (list Z)) (failed : script)
| Print (msg : string) (arg : list Z) (k : script)
| Close (fd : nat) (k : script)
| Dup (fd : nat) (k : script)
| Open (file : list Z) (mode : Z) (failed k : script)
| MkPipe (failed : script) (k : nat -> nat -> script)
| Fork (failed child parent : script)
| Wait (k : script)
| Chdir (dir : list Z) (failed k : script).

Definition sh_panic (msg : string) : script := Print msg [] Exit.

Definition fork1 (child parent : script) : script := Fork (sh_panic "fork") child parent.

Section runcmd.
(** The strings of the command in the line. *)
Context (str : nat * nat -> list Z).

Fixpoint runcmd (c : cmd) : script :=
  match c with
  | Exec argv =>
      match argv with
      | [] => Exit
      | a :: _ => Exec_ (map str argv) (Print "exec %s failed" (str a) Exit)
      end
  | Redir c file mode fd =>
      Close (Z.to_nat fd) (Open (str file) mode (Print "open %s failed" (str file) Exit) (runcmd c))
  | List l r => fork1 (runcmd l) (Wait (runcmd r))
  | Pipe l r =>
      MkPipe (sh_panic "pipe") (fun p0 p1 =>
        fork1 (Close 1 (Dup p1 (Close p0 (Close p1 (runcmd l)))))
          (fork1 (Close 0 (Dup p0 (Close p0 (Close p1 (runcmd r)))))
            (Close p0 (Close p1 (Wait (Wait Exit))))))
  | Back c => fork1 (runcmd c) Exit
  end.
End runcmd.

(** ** The loop *)

Definition SHBUF : Z := 100.

(** getcmd: the line in the buffer and the input left, [None] at the end of the input. *)
Definition getcmd (input : list Z) : option (list Z * list Z) :=
  let r := gets_line SHBUF input in
  let buf := r.1 ++ replicate (Z.to_nat SHBUF - length r.1) 0 in
  if hd 0 buf =? 0 then None else Some (buf, r.2).

(** What the shell does with one line: the commands are run by a child. *)
Definition is_cd (buf : list Z) : bool := (nth 0 buf 0 =? 99) && (nth 1 buf 0 =? 100) && (nth 2 buf 0 =? 32).

Definition do_line (buf : list Z) (k : script) : script :=
  if is_cd buf then
    let dir := cstring (drop 3 (<[(strlen buf - 1)%nat := 0]> buf)) in
    Chdir dir (Print "cannot cd %s" dir k) k
  else
    fork1 (match sh_parse (cstring buf) with
           | Done (c, line) _ => runcmd (fun t => cstring (drop t.1 line)) c
           | Stop (Panicked msg) _ => sh_panic msg
           | Stop _ _ => Exit
           end) (Wait k).

Fixpoint sh_main (n : nat) (input : list Z) : script :=
  match n with
  | O => Exit
  | S n => match getcmd input with
           | Some (buf, rest) => do_line buf (sh_main n rest)
           | None => Exit
           end
  end.

(** ** Descriptors *)

(** What a descriptor is open on; pipes are told apart by where in the tree of
    processes they were made. *)
Inductive obj := Inherited (n : nat) | File (name : list Z) (mode : Z) | PipeR (id : list bool) | PipeW (id : list bool).

Definition NOFILE : nat := 16.

(** fdalloc: the lowest free descriptor. *)
Fixpoint free_from (n i : nat) (t : gmap nat obj) : option nat :=
  match n with
  | O => None
  | S n => match t !! i with None => Some i | Some _ => free_from n (S i) t end
  end.
Definition lowest (t : gmap nat obj) : option nat := free_from NOFILE 0 t.

(** The programs that are started, with their descriptors, when forks succeed and
    every file and program is found. *)
Fixpoint programs (id : list bool) (s : script) (t : gmap nat obj) : list (list (list Z) * gmap nat obj) :=
  match s with
  | Exit => []
  | Exec_ argv _ => [(argv, t)]
  | Print _ _ k | Wait k | Chdir _ _ k => programs id k t
  | Close fd k => programs id k (delete fd t)
  | Dup fd k =>
      match t !! fd, lowest t with
      | Some o, Some i => programs id k (<[i := o]> t)
      | _, _ => programs id k t
      end
  | Open file mode failed k =>
      match lowest t with
      | Some i => programs id k (<[i := File file mode]> t)
      | None => programs id failed t
      end
  | MkPipe failed k =>
      match lowest t with
      | Some i =>
          match lowest (<[i := PipeR id]> t) with
          | Some j => programs id (k i j) (<[j := PipeW id]> (<[i := PipeR id]> t))
          | None => programs id failed t
          end
      | None => programs id failed t
      end
  | Fork _ child parent => programs (id ++ [false]) child t ++ programs (id ++ [true]) parent t
  end.

(** What a command asks for. *)
Definition redir_obj (file : list Z) (out : bool) : obj := File file (if out then Z.lor O_WRONLY O_CREATE else O_RDONLY).
Definition redir_fd (out : bool) : nat := if out then 1%nat else 0%nat.

Fixpoint plumbing (id : list bool) (x : scmd) (t : gmap nat obj) : list (list (list Z) * gmap nat obj) :=
  match x with
  | SExec argv => match argv with [] => [] | _ => [(argv, t)] end
  | SRedir x file out => plumbing id x (<[redir_fd out := redir_obj file out]> t)
  | SList l r => plumbing (id ++ [false]) l t ++ plumbing (id ++ [true]) r t
  | SPipe l r => plumbing (id ++ [false]) l (<[1%nat := PipeW id]> t) ++
                 plumbing (id ++ [true; false]) r (<[0%nat := PipeR id]> t)
  | SBack x => plumbing (id ++ [false]) x t
  end.

(** Descriptors 0 and 1 are open, and two others are free. *)
Definition room (t : gmap nat obj) : Prop :=
  is_Some (t !! 0%nat) /\ is_Some (t !! 1%nat) /\
  exists i j, (1 < i < j)%nat /\ (j < NOFILE)%nat /\ t !! i = None /\ t !! j = None.

Lemma free_from_least n a t i : (a <= i < a + n)%nat -> t !! i = None -> (forall j, (a <= j < i)%nat -> is_Some (t !! j)) ->
  free_from n a t = Some i.
Proof.
  revert a. induction n as [|n IH]; intros a Hi Hn Hlt; [lia|]. simpl. destruct (decide (i = a)) as [->|Hne]; [by rewrite Hn|].
  destruct (Hlt a ltac:(lia)) as [o ->]. apply IH; [lia|done|]. intros j Hj. apply Hlt. lia.
Qed.

Lemma free_from_some n a t i : free_from n a t = Some i -> t !! i = None /\ (a <= i)%nat.
Proof.
  revert a. induction n as [|n IH]; intros a; simpl; [done|]. destruct (t !! a) eqn:E; [|by intros [= <-]].
  intros Hf. apply IH in Hf as [? ?]. split; [done|lia].
Qed.

Lemma free_from_exists n a t j : (a <= j < a + n)%nat -> t !! j = None -> exists i, free_from n a t = Some i /\ (i <= j)%nat.
Proof.
  revert a. induction n as [|n IH]; intros a Hj Hn; [lia|]. simpl. destruct (t !! a) eqn:E; [|exists a; split; [done|lia]].
  apply IH; [|done]. destruct (decide (a = j)) as [->|]; [congruence|lia].
Qed.

Lemma lowest_zero t : t !! 0%nat = None -> lowest t = Some 0%nat.
Proof. intros Hn. apply free_from_least; [unfold NOFILE; lia|done|lia]. Qed.

Lemma lowest_one t : is_Some (t !! 0%nat) -> t !! 1%nat = None -> lowest t = Some 1%nat.
Proof. intros H0 Hn. apply free_from_least; [unfold NOFILE; lia|done|]. intros j Hj. by replace j with 0%nat by lia. Qed.

(** Replacing a standard descriptor: it is closed, and is then the lowest free one. *)
Lemma replace_std t fd : room t -> fd = 0%nat \/ fd = 1%nat -> lowest (delete fd t) = Some fd.
Proof.
  intros (H0 & _ & _) [-> | ->]; [apply lowest_zero, lookup_delete_eq|].
  apply lowest_one; [by rewrite lookup_delete_ne|apply lookup_delete_eq].
Qed.

Lemma room_insert t fd o : room t -> fd = 0%nat \/ fd = 1%nat -> room (<[fd := o]> t).
Proof.
  intros (H0 & H1 & i & j & Hij & Hj & Hi & Hjn) Hfd. repeat split.
  - destruct Hfd as [-> | ->]; [by rewrite lookup_insert_eq|by rewrite lookup_insert_ne].
  - destruct Hfd as [-> | ->]; [by rewrite lookup_insert_ne|by rewrite lookup_insert_eq].
  - exists i, j. rewrite !lookup_insert_ne by lia. done.
Qed.

(** pipe() finds two descriptors, which were free. *)
Lemma pipe_fds t id : room t -> exists i j, lowest t = Some i /\ lowest (<[i := PipeR id]> t) = Some j /\
  t !! i = None /\ t !! j = None /\ i <> j /\ (1 < i)%nat /\ (1 < j)%nat.
Proof.
  intros (H0 & H1 & a & b & Hab & Hb & Ha & Hbn). unfold NOFILE in Hb.
  destruct (free_from_exists NOFILE 0 t a) as (i & Ei & Hi); [unfold NOFILE; lia|done|].
  pose proof (free_from_some _ _ _ _ Ei) as [Hin _].
  destruct (free_from_exists NOFILE 0 (<[i := PipeR id]> t) b) as (j & Ej & Hj); [unfold NOFILE; lia|rewrite lookup_insert_ne by lia; done|].
  pose proof (free_from_some _ _ _ _ Ej) as [Hjn _]. exists i, j. split; [done|]. split; [done|]. split; [done|].
  assert (i <> j) as Hne by (intros ->; by rewrite lookup_insert_eq in Hjn).
  rewrite lookup_insert_ne in Hjn by done.
  assert (forall x, t !! x = None -> (1 < x)%nat) as Hgt.
  { intros x Hx. destruct x as [|[|x]]; [rewrite Hx in H0; by destruct H0|rewrite Hx in H1; by destruct H1|lia]. }
  split; [done|]. split; [done|]. split; by apply Hgt.
Qed.

(** The end of a pipe in place of a standard descriptor, and no other end left. *)
Lemma pipe_end t id i j fd x : room t -> t !! i = None -> t !! j = None -> i <> j -> (1 < i)%nat -> (1 < j)%nat ->
  fd = 0%nat \/ fd = 1%nat -> x = i \/ x = j ->
  let t2 := <[j := PipeW id]> (<[i := PipeR id]> t) in
  lowest (delete fd t2) = Some fd /\
  exists o, delete fd t2 !! x = Some o /\ o = (if decide (x = i) then PipeR id else PipeW id) /\
    delete j (delete i (<[fd := o]> (delete fd t2))) = <[fd := o]> t.
Proof.
  intros (H0 & H1 & _) Hi Hj Hne Hi1 Hj1 Hfd Hx t2.
  assert (forall y, (y <= 1)%nat -> t2 !! y = t !! y) as Hlow
    by (intros y Hy; unfold t2; rewrite !lookup_insert_ne by lia; done).
  split.
  { destruct Hfd as [-> | ->]; [apply lowest_zero, lookup_delete_eq|].
    apply lowest_one; [rewrite lookup_delete_ne by lia; by rewrite Hlow by lia|apply lookup_delete_eq]. }
  eexists. split; [|split; [reflexivity|]].
  - rewrite lookup_delete_ne by lia. unfold t2. case_decide as Hd.
    + subst. rewrite lookup_insert_ne, lookup_insert_eq by done. done.
    + destruct Hx as [-> | ->]; [done|]. by rewrite lookup_insert_eq.
  - set (o := if decide (x = i) then _ else _). rewrite insert_delete_eq. unfold t2.
    rewrite (insert_insert_ne _ fd j) by lia. rewrite (insert_insert_ne _ fd i) by lia.
    rewrite (delete_insert_ne _ i j) by done. rewrite (delete_insert_id (<[fd := o]> t) i) by (rewrite lookup_insert_ne by lia; done).
    rewrite delete_insert_id by (rewrite lookup_insert_ne by lia; done). done.
Qed.

(** Running a command wires descriptors as it says. *)
Lemma runcmd_plumbing str c : forall x id t, means str c x -> room t ->
  programs id (runcmd str c) t = plumbing id x t.
Proof.
  induction c as [argv|c IH file mode fd|l IHl r IHr|l IHl r IHr|c IH]; intros x id t Hm Ht; destruct x; try done; cbn [runcmd plumbing].
  - simpl in Hm. subst. by destruct argv.
  - destruct Hm as (Hc & Hf & Hmode).
    assert (Z.to_nat fd = redir_fd out /\ File (str file) mode = redir_obj file0 out) as [Efd Eo].
    { unfold redir_fd, redir_obj. destruct out; injection Hmode as -> ->; by rewrite Hf. }
    assert (redir_fd out = 0%nat \/ redir_fd out = 1%nat) as Hfd by (destruct out; auto).
    cbn [programs]. rewrite Efd, (replace_std t _ Ht Hfd), insert_delete_eq, Eo. apply IH; [done|by apply room_insert].
  - destruct Hm as [Hl Hr]. destruct (pipe_fds t id Ht) as (i & j & Ei & Ej & Hi & Hj & Hne & Hi1 & Hj1).
    cbn [programs fork1]. rewrite Ei, Ej. unfold fork1. cbn [programs]. rewrite app_nil_r.
    destruct (pipe_end t id i j 1 j Ht Hi Hj Hne Hi1 Hj1) as (L1 & o1 & E1 & -> & D1); [auto..|]. rewrite E1, L1, D1.
    destruct (pipe_end t id i j 0 i Ht Hi Hj Hne Hi1 Hj1) as (L0 & o0 & E0 & -> & D0); [auto..|]. rewrite E0, L0, D0.
    rewrite (decide_False (P := j = i)), (decide_True (P := i = i)) by done.
    rewrite (IHl x1), (IHr x2) by (done || (apply room_insert; auto)). by rewrite <- app_assoc.
  - destruct Hm as [Hl Hr]. unfold fork1. cbn [programs]. by rewrite (IHl x1), (IHr x2).
  - unfold fork1. cbn [programs]. rewrite app_nil_r. by apply IH.
Qed.

(** ** From the line that is typed to the programs that run *)

Lemma gets_bytes_line line rest : Forall (fun b => b <> NL /\ b <> CR) line -> forall room, (length line < room)%nat ->
  gets_bytes room (line ++ NL :: rest) = (line ++ [NL], rest).
Proof.
  induction 1 as [|b line [Hn Hr] Hl IH]; intros room Hlen; (destruct room as [|room]; [simpl in Hlen; lia|]); [done|].
  simpl. rewrite (proj2 (Z.eqb_neq b NL)), (proj2 (Z.eqb_neq b CR)) by done. cbn [orb].
  rewrite IH by (simpl in Hlen; lia). done.
Qed.

Lemma word_no_nl w : good_word w -> Forall (fun b => b <> NL /\ b <> CR) w.
Proof.
  intros [_ Hw]. eapply Forall_impl; [exact Hw|]. intros b [Hb _]. split; intros ->; discriminate.
Qed.

Lemma paren_no_nl (b : bool) body : Forall (fun b => b <> NL /\ b <> CR) body ->
  Forall (fun b => b <> NL /\ b <> CR) (if b then body else LPAR :: body ++ [RPAR]).
Proof. intros Hb. destruct b; [done|]. constructor; [done|]. apply Forall_app. split; [done|]. by constructor. Qed.

Lemma print_no_nl x : forall lvl, good x -> Forall (fun b => b <> NL /\ b <> CR) (print x lvl).
Proof.
  induction x as [argv|c IH f out|l IHl r IHr|l IHl r IHr|c IH]; intros lvl Hg; simpl in Hg; apply paren_no_nl.
  - destruct Hg as [_ Hg]. induction Hg as [|w ws Hw Hg IH]; cbn [map concat]; [constructor|].
    rewrite !Forall_app. split; [|done]. split; [by apply word_no_nl|by constructor].
  - destruct Hg as [Hc Hf]. apply Forall_app. split; [by apply IH|].
    unfold print_redir. constructor; [by destruct out|]. apply Forall_app. split; [by apply word_no_nl|by constructor].
  - destruct Hg. apply Forall_app. split; [by apply IHl|]. constructor; [done|by apply IHr].
  - destruct Hg. apply Forall_app. split; [by apply IHl|]. constructor; [done|by apply IHr].
  - apply Forall_app. split; [by apply IH|]. by constructor.
Qed.

Lemma nth_zeros i n : nth i (replicate n 0) 0 = 0.
Proof. revert i. induction n as [|n IH]; intros [|i]; [done..|]. apply IH. Qed.

(** The line in the shell's buffer. *)
Lemma getcmd_line line rest : Forall (fun b => b <> NL /\ b <> CR) line -> 0 ∉ line -> Z.of_nat (length line) + 2 <= SHBUF ->
  exists buf, getcmd (line ++ NL :: rest) = Some (buf, rest) /\ cstring buf = line ++ [NL] /\
    forall i, nth i buf 0 = nth i (line ++ [NL]) 0.
Proof.
  intros Hl H0 Hlen. unfold getcmd, gets_line. rewrite gets_bytes_line by (done || (unfold SHBUF in *; lia)). cbn [fst snd].
  set (z := replicate _ 0). rewrite <- (app_assoc (line ++ [NL])). cbn [app].
  assert (0 ∉ line ++ [NL]) as H0' by (apply not_elem_of_app; split; [done|by rewrite list_elem_of_singleton]).
  exists ((line ++ [NL]) ++ 0 :: z). split; [|split; [by apply cstring_app|]].
  - destruct line as [|b line]; [done|]. apply not_elem_of_cons in H0 as [Hb _]. cbn [app hd].
    by rewrite (proj2 (Z.eqb_neq b 0)).
  - intros i. destruct (Nat.lt_ge_cases i (length (line ++ [NL]))) as [Hi|Hi]; [by apply app_nth1|].
    rewrite app_nth2, (nth_overflow (line ++ [NL])) by lia. change (0 :: z) with (replicate (S (Z.to_nat SHBUF - length ((line ++ [NL]) ++ [0]))) 0).
    apply nth_zeros.
Qed.

(** C17. The shell runs what is typed.  For every command written on a line that fits its
    buffer, the shell reads the line, forks, and the programs that run are those of the
    command, with the words as arguments.  Whatever the nesting of redirections, pipes,
    lists and background, each has the file or the end of the pipe asked for on
    descriptors 0 and 1 and otherwise the descriptors of the shell: no end of a pipe is
    left open in a program that should not have it.  Then the shell goes on with the next
    line. *)
Theorem shell_runs_line x rest n id t : good x -> Z.of_nat (length (print x 3)) + 2 <= SHBUF ->
  is_cd (print x 3 ++ [NL]) = false -> room t ->
  programs id (sh_main (S n) (print x 3 ++ NL :: rest)) t =
    plumbing (id ++ [false]) x t ++ programs (id ++ [true]) (sh_main n rest) t.
Proof.
  intros Hg Hlen Hcd Ht.
  destruct (getcmd_line (print x 3) rest) as (buf & Eg & Ec & Hnth); [by apply print_no_nl|by apply print_nz|done|].
  cbn [sh_main]. rewrite Eg. unfold do_line.
  assert (is_cd buf = false) as ->.
  { rewrite <- Hcd. unfold is_cd. by rewrite !Hnth. }
  destruct (sh_parse_print x [NL] Hg) as (c & line & Ep & Hm); [by constructor|].
  rewrite Ec, Ep. unfold fork1. cbn [programs]. f_equal. by apply runcmd_plumbing.
Qed.

Definition std_fds : gmap nat obj := {[ 0%nat := Inherited 0; 1%nat := Inherited 1; 2%nat := Inherited 2 ]}.

(** "echo a | (cat > b ; ls) &", and then the end of the input. *)
Lemma shell_runs_line_witness :
  programs [] (sh_main 2 (print sample_cmd 3 ++ [NL])) std_fds = plumbing [false] sample_cmd std_fds.
Proof.
  rewrite (shell_runs_line sample_cmd [] 1 [] std_fds).
  - rewrite app_nil_r. reflexivity.
  - apply sample_good.
  - vm_compute. congruence.
  - vm_compute. reflexivity.
  - split; [by eexists|]. split; [by eexists|]. exists 3%nat, 4%nat. unfold NOFILE. repeat split; lia.
Defined.
